(* ===== verification/_CoqProject ===== *)
-Q . S2P
Prelude.v
Addressing.v
GlobalPtr.v
Cells.v
BumpResource.v
SlabResource.v
FreeListResource.v
MemoryResources.v
RiscvInstruction.v
RiscvDecoder.v
RiscvICache.v
RiscvInterpreter.v
RiscvSemantics.v
DrvAddressMap.v
Containers.v
HashTable.v
Adjacency.v
LocalCSR.v
PrefixSum.v
Termination.v
NativeMemory.v
ActiveMessages.v
RemoteMemory.v
Threads.v
Mutex.v
Notification.v
Sorting.v
DistArray.v
DistViews.v
DistArrayCSR.v
DistSort.v
Locality.v
DoAll.v
TextInput.v
FileImport.v
EdgePartition.v
PartitionParallel.v
RmatImport.v
EdgeExchange.v
DistLocalCSR.v
GatherCSR.v
ELGraph.v
