(* ===== verification/Prelude.v ===== *)
(** * Pando: a verification development (root file)

    Pando is a programming system for a machine of many nodes with global memory.  Three parts of the repository carry its own logic, and
    this library models them: the runtime ([pando-rt]: addresses, memory resources, remote memory operations, tasks), the container and
    graph library ([include/pando-lib-galois], [src/src]) and the simulator's address map and RISC-V interpreter ([pando-drv]).

    ** The parts, and how they call each other

    A library container or loop asks the runtime for memory ([allocateMemory]) and places tasks ([executeOn]).  The runtime answers memory
    requests from per-place resources: a chain of slab resources for the small sizes, a bump resource and a free list behind them, set up over
    one region by [breakdown].  Memory of another node is reached by active messages; a hart that waits for an answer yields.  Tasks
    are counted so that [waitAll] can tell when all are done.  Below, the simulator translates software addresses to
    physical ones and interprets RISC-V code.

    ** Files

    Each file opens with the sources it models; each modelled definition carries the lines it translates.

    - [Prelude]: outcomes of a C++ call, status codes, machine integers, bits, bytes, word memory, and the tactics and hints the others share.
    - [Addressing] (modules [BitManip], [Index], [AddressMap]): [utility/bit_manip.hpp], [utility/math.hpp], [index.hpp],
      [memory/address_map.hpp], [memory/address_translation.hpp].
    - [GlobalPtr]: [memory/global_ptr.hpp], [src/memory.cpp], local compare-and-exchange of [src/atomic.cpp], [memory/common_memory_resource.hpp].
    - [BumpResource], [SlabResource], [FreeListResource]: the three resources under [memory/]; [MemoryResources]: [src/memory_resources.cpp] and
      [memory_resource.hpp].  What a resource of a chain promises is the class [Resource] there; the chain's theorems are proved against it.
    - [NativeMemory]: [src/prep/memory.cpp], [prep/hart_context.hpp], and the pointer conversions of [src/global_ptr.cpp];
      [ActiveMessages]: [src/prep/nodes.cpp], [nodes.hpp], [data_type.hpp]; [RemoteMemory]: [src/global_ptr.cpp], [src/atomic.cpp].
    - [Termination]: [src/execute_on.cpp], [src/wait.cpp], [src/start.cpp], [src/prep/termination.cpp], [prep/cores.cpp].
    - [Containers]: [containers/array.hpp], [containers/vector.hpp], [memory/allocate_memory.hpp]; [HashTable]: the library's [containers/hashtable.hpp].
    - [PrefixSum]: [utility/prefix_sum.hpp], [sync/waterfall_lock.hpp]; [Sorting]: [sorts/merge_sort.hpp], [utility/search.hpp].
    - [DistArray], [DistSort]: [containers/dist_array.hpp]; [Locality]: [utility/locality.hpp] and the scheduling policies of
      [loops/do_all.hpp]; [DoAll]: its loops, and [sync/wait_group.hpp].
    - [Threads]: threads that interleave accesses to words; on it [Mutex]: [sync/mutex.hpp], and [Notification]: [sync/notification.hpp],
      [sync/future.hpp], [sync/wait.hpp], the library's [sync/global_barrier.hpp].
    - [DistViews]: subsets and ranges of a distributed array.
    - [Cells]: memory of typed cells behind addresses; [Adjacency]: offsets and edges of adjacency lists; on them [LocalCSR]:
      [graphs/local_csr.hpp], [DistArrayCSR]: [graphs/dist_array_csr.hpp], [DistLocalCSR]: the queries of [graphs/dist_local_csr.hpp], and
      [GatherCSR]: its construction from what the hosts gathered.
    - [TextInput]: [import/ifstream.hpp], [utility/string_view.hpp], [import/schema.hpp] and the edge-list parser; [FileImport], [EdgePartition],
      [PartitionParallel]: [import/wmd_graph_importer.hpp] (segments and lines; grouping, virtual hosts and the serial partition; the parallel
      partitions); [RmatImport], [ELGraph]: [import/ingest_rmat_el.hpp], up to the whole import; [EdgeExchange]: [import/edge_exchange.hpp],
      [graphs/edge_list_importer.hpp].
    - [RiscvInstruction], [RiscvDecoder], [RiscvICache], [RiscvInterpreter]: the classes of [pando-drv/interpreter]; [RiscvSemantics]: the
      manual's account of each instruction, and the theorems that compare the two.
    - [DrvAddressMap]: [pando-drv/api/DrvAPIAddressMap.hpp] and [.cpp].

    ** What the theorems show

    - Memory: an allocation of a composite resource is aligned, inside the region and apart from every live one
      ([L2SPResource_allocate_spec], [MainMemoryResource_allocate_spec], [allocate_all_disjoint]); the linked free list implements best fit on a plain
      list of blocks ([serve_all_refines], [allocate_best_fit]); where freeing corrupts a neighbour is shown too ([L2SPResource_deallocate_corrupts]).
    - Addresses: the encoders of the address map ([encode_alias]), native pointers and back ([native_roundtrip]), software to physical
      addresses ([to_physical_spec], [toGlobalAddress_spec]).
    - Remote memory: with messages delivered in any order, an operation is one access to the owner's memory between call and return
      ([remote_refines]), it completes ([remote_completes]), and a local operation is no different as long as its data fits a reply
      ([local_transparent], [large_load_aborts]).
    - Tasks: [waitAll], called again and again, returns when, and not before, all is done, if tasks stay on the node they are placed from
      ([waitAll_safe], [waitAll_terminates]), and how it fails without that ([waitAll_premature]); parallel loops run each item launched once, end,
      and amount to the sequential loop over those items, all of them when no launch fails ([doAll_safe], [doAll_terminates], [doAll_result],
      [doAll_departures]).
    - Containers: vector and hash table refine lists and finite maps ([vector_refines], [hashtable_refines], with the load factors for which a
      lookup does not end in [overfull_diverges]); the parallel prefix sum, the sorts and the searches compute what their names say, under the conditions
      each theorem states ([prefix_sum_correct], [merge_sort_n_spec], [dist_sort_spec], [binary_search_spec]), and where they do not ([prefix_sum_overruns],
      [dist_sort_loses_elements]).
    - Synchronisation: a mutex excludes, whatever its holders do ([mutex_exclusion], [mutex_counter]); who returns from a wait reads what was
      written before the notification or the arrivals ([notification_publishes], [barrier_releases]), and who waits for a future has the pointer
      that was set ([future_publishes]).
    - Graphs: each construction yields the graph of its input, and every query, handle, range and data access answers accordingly
      ([local_csr_initialize], [local_csr_data], [csr_from_edges], [csr_from_lists], [gather_builds], [dist_graph_answers], [dist_set_data]);
      loops over the vertices end ([dist_vertices]).
    - Import: parsing ([el_parse_reads]), the shares of the threads and their reduction ([rmat_import], [import_departures]), the distribution
      over hosts ([mapping_balances], [partition_serially_spec], [partition_edges_result], [exchange_spec]), and all of it in one: the graph that a
      file of edges becomes is the graph the file describes ([el_graph]).
    - Simulator: the decoder against the manual's table, with the instructions it gets wrong ([decode_isa], [decode_departures]), every instruction and
      the main loop against the manual's semantics ([rounds_refines], [visit_rr], [visit_control]), and the well-formedness of machine states ([rounds_well_formed]).

    ** Modelling decisions

    A C++ call is an [outcome]: it returns, it stops the program, or it reaches a state the standard gives no meaning to.  Machine integers
    are numbers with their wrap-around written out.  What is not in the repository is a parameter: GASNet (a message sent is delivered once, in
    any order), 128-bit integers, [std::hash], [std::sort], random draws, and the answer of the memory resources where a container asks for memory
    ([MemoryResources] proves what those answers are).  Accesses of different threads interleave one at a time and in program order; memory-order
    fences have no effect in the model.  Where tasks of a loop touch separate memory they are taken one after the other, which
    [doAll_result] justifies.

    Fuel: a search of the free list takes as many turns as there are blocks; a probe of the hash table as many as the table has slots (the
    triangular numbers visit them all); a merge sort of n elements at most 64 levels (n < 2^61) with n turns per merge; binary
    searches at most 64 turns; the passes over a range as many as it has items.  Each theorem is that this fuel gives a result, or
    that no fuel does.  The schedules of the transition systems are finite sequences of any length; the theorems on their end bound it: for
    [waitAll] by n (6 R + 19) steps (n nodes, R rounds), for a loop by its length times N + 5, plus 7 (N accesses per body).

    ** Not modelled

    Process set-up, environment variables, logging, tracing and timers (input and output); the switching of hart stacks; GASNet
    itself; the vendored concurrent queue and the SST simulator frameworks (third-party; the element classes of [pando-drv/element]
    are components of SST, whose event semantics is not in the repository); the DRVX branches of the runtime, which are calls
    of the simulator's thread switch; floating-point instructions of the interpreter (they read and set the host's floating-point
    environment); applications, benchmarks, examples and tests. The mirrors of a distributed graph and their synchronisation
    ([graphs/mirror_dist_local_csr.hpp]) hold references of one host's memory in another's tables, on top of reductions by user functions; the CSV
    import of one workflow repeats the edge-list import with that workflow's schema; the remaining initialisations of the graphs repeat those
    modelled from other containers.  The containers per thread and per host ([containers/per_thread.hpp], [host_indexed_map.hpp]) appear as lists indexed by
    thread or host.

    ** Plan

    To extend: the mirrored graph, the remaining initialisations of the graphs, the per-host containers at the level of addresses; archives and
    queues of the runtime; the simulator's allocator. *)

From stdpp Require Export base tactics numbers option list gmap strings.
From Stdlib Require Export ZArith Lia.
#[global] Open Scope Z_scope.

(** ** Outcomes

    A C++ function of the program either returns, stops the program through
    [PANDO_ABORT] (or an uncaught exception), or reaches a state the C++
    standard gives no meaning to. *)

Inductive failure : Type :=
| Aborted (msg : string)
| Undefined (msg : string)
| Unimplemented (msg : string).

Inductive outcome (A : Type) : Type :=
| Done (a : A)
| Failed (e : failure).
Arguments Done {A} _.
Arguments Failed {A} _.

#[export] Instance failure_eq_dec : EqDecision failure.
Proof. solve_decision. Defined.

#[export] Instance outcome_eq_dec {A} `{EqDecision A} : EqDecision (outcome A).
Proof. solve_decision. Defined.

Definition bindo {A B} (m : outcome A) (f : A -> outcome B) : outcome B :=
  match m with Done a => f a | Failed e => Failed e end.

Definition mapo {A B} (f : A -> B) (m : outcome A) : outcome B :=
  match m with Done a => Done (f a) | Failed e => Failed e end.

Declare Scope outcome_scope.
Delimit Scope outcome_scope with outcome.
Notation "'let!' x ':=' e 'in' k" := (bindo e (fun x => k))
  (at level 10, x pattern, e at level 200, k at level 200) : outcome_scope.
#[global] Open Scope outcome_scope.

Definition is_done {A} (m : outcome A) : bool :=
  match m with Done _ => true | Failed _ => false end.

(** The same for loops that may not have ended: [None]. *)
Notation "'let?' x ':=' e 'in' k" := (match e with Some x => k | None => None end)
  (at level 10, x pattern, e at level 200, k at level 200) : outcome_scope.

(** And for loops that may not have ended, of programs that may fail. *)
Definition bindr {A B} (m : option (outcome A)) (f : A -> option (outcome B)) : option (outcome B) :=
  match m with Some (Done a) => f a | Some (Failed e) => Some (Failed e) | None => None end.
Notation "'let*' x ':=' e 'in' k" := (bindr e (fun x => k))
  (at level 10, x pattern, e at level 200, k at level 200) : outcome_scope.

(** [guard_or b e]: go on when [b] holds, fail with [e] otherwise. *)
Definition guard_or (b : bool) (e : failure) : outcome unit :=
  if b then Done tt else Failed e.

Lemma bindo_Done {A B} (f : A -> outcome B) (m : outcome A) (b : B) :
  bindo m f = Done b <-> exists a, m = Done a /\ f a = Done b.
Proof.
  destruct m; cbn; [|split; [discriminate | intros (? & ? & _); discriminate]].
  split; [eauto | intros (x & E & ?)]. by injection E as ->.
Qed.

Lemma guard_or_Done b e : guard_or b e = Done tt <-> b = true.
Proof. destruct b; split; intros; [done|done|discriminate|discriminate]. Qed.

(** Open every bind of a successful run into its intermediate results. *)
Ltac outcome_inv :=
  repeat match goal with
    | H : bindo _ _ = Done _ |- _ =>
        apply bindo_Done in H; destruct H as [? [? H]]
    | H : guard_or _ _ = Done ?u |- _ => destruct u; apply guard_or_Done in H
    | H : Done _ = Done _ |- _ => injection H; clear H; intros
    | H : Failed _ = Done _ |- _ => discriminate H
    end; subst.

(** ** Status codes *)

(** src/pando-rt/include/pando-rt/status.hpp:17-35 [Status] *)
Inductive Status :=
| Success | Error | NotImplemented | InvalidValue | InitError | NotInit | AlreadyInit | MemoryError | BadAlloc
| OutOfBounds | InsufficientSpace | LaunchError | EnqueueError.

#[export] Instance Status_eq_dec : EqDecision Status.
Proof. solve_decision. Defined.

(** ** Machine integers

    A [w]-bit value is kept as its number: [wrapU w] brings an integer into
    [0, 2^w) the way unsigned arithmetic does, [wrapS w] into
    [-2^(w-1), 2^(w-1)) the way a conversion to a two's complement signed type
    does. *)

Definition wrapU (w z : Z) : Z := z mod 2 ^ w.
Definition wrapS (w z : Z) : Z :=
  let m := z mod 2 ^ w in if m <? 2 ^ (w - 1) then m else m - 2 ^ w.

Abbreviation u8 := (wrapU 8).
Abbreviation u16 := (wrapU 16).
Abbreviation u32 := (wrapU 32).
Abbreviation u64 := (wrapU 64).
Abbreviation i8 := (wrapS 8).
Abbreviation i16 := (wrapS 16).
Abbreviation i32 := (wrapS 32).
Abbreviation i64 := (wrapS 64).

Definition inU (w z : Z) : Prop := 0 <= z < 2 ^ w.
Definition inS (w z : Z) : Prop := - 2 ^ (w - 1) <= z < 2 ^ (w - 1).

(** Whether a value fits a [w]-bit signed type, as code decides it. *)
Definition fitsS (w z : Z) : bool := (- 2 ^ (w - 1) <=? z) && (z <? 2 ^ (w - 1)).

#[export] Instance inU_dec w z : Decision (inU w z).
Proof. unfold inU. solve_decision. Defined.
#[export] Instance inS_dec w z : Decision (inS w z).
Proof. unfold inS. solve_decision. Defined.

(** [C++ a << n], [a >> n] and [~a] on a [w]-bit unsigned type, the shift amount in range. *)
Definition shlU (w a n : Z) : Z := wrapU w (Z.shiftl a n).
Definition shrU (a n : Z) : Z := Z.shiftr a n.
Definition notU (w a : Z) : Z := wrapU w (Z.lnot a).

Lemma pow2_pos w : 0 <= w -> 0 < 2 ^ w.
Proof. intros; apply Z.pow_pos_nonneg; lia. Qed.

Lemma pow2_pred w : 1 <= w -> 2 ^ w = 2 * 2 ^ (w - 1).
Proof. intros. rewrite <- Z.pow_succ_r by lia. f_equal; lia. Qed.

Lemma wrapU_range w z : 0 <= w -> inU w (wrapU w z).
Proof. intros. apply Z.mod_pos_bound, pow2_pos. done. Qed.

Lemma wrapU_id w z : inU w z -> wrapU w z = z.
Proof. apply Z.mod_small. Qed.

Lemma wrapU_idemp w z : 0 <= w -> wrapU w (wrapU w z) = wrapU w z.
Proof. intros. by apply wrapU_id, wrapU_range. Qed.

Lemma wrapS_range w z : 1 <= w -> inS w (wrapS w z).
Proof.
  intros. unfold wrapS, inS. pose proof (pow2_pred w ltac:(done)) as E.
  pose proof (Z.mod_pos_bound z (2 ^ w) (pow2_pos w ltac:(lia))).
  destruct (Z.ltb_spec (z mod 2 ^ w) (2 ^ (w - 1))); lia.
Qed.

Lemma wrapS_id w z : 1 <= w -> inS w z -> wrapS w z = z.
Proof.
  intros Hw [? ?]. unfold wrapS. pose proof (pow2_pred w Hw) as E.
  destruct (decide (0 <= z)).
  - rewrite Z.mod_small by lia. destruct (Z.ltb_spec z (2 ^ (w - 1))); lia.
  - replace (z mod 2 ^ w) with (z + 2 ^ w).
    + destruct (Z.ltb_spec (z + 2 ^ w) (2 ^ (w - 1))); lia.
    + apply Z.mod_unique with (q := -1); lia.
Qed.

Lemma wrapS_wrapU w z : 0 <= w -> wrapS w (wrapU w z) = wrapS w z.
Proof. intros. unfold wrapS, wrapU. rewrite Z.mod_mod; [done|]. pose proof (pow2_pos w); lia. Qed.

Lemma wrapU_wrapS w z : 1 <= w -> wrapU w (wrapS w z) = wrapU w z.
Proof.
  intros. unfold wrapS, wrapU.
  case_match.
  - apply Z.mod_mod. pose proof (pow2_pos w); lia.
  - rewrite <- (Z.mul_1_l (2 ^ w)) at 2.
    rewrite <- Z.add_opp_r, <- Z.mul_opp_l, Z.mod_add by (pose proof (pow2_pos w); lia).
    apply Z.mod_mod. pose proof (pow2_pos w); lia.
Qed.

Lemma wrapS_eqU w a b : 1 <= w -> wrapU w a = wrapU w b -> wrapS w a = wrapS w b.
Proof. intros Hw E. rewrite <- (wrapS_wrapU w a), <- (wrapS_wrapU w b) by lia. by rewrite E. Qed.

Lemma fitsS_spec w z : fitsS w z = true <-> inS w z.
Proof. unfold fitsS, inS. rewrite andb_true_iff, Z.leb_le, Z.ltb_lt. done. Qed.

Lemma wrapU_add_l w a b : wrapU w (wrapU w a + b) = wrapU w (a + b).
Proof. apply Zplus_mod_idemp_l. Qed.
Lemma wrapU_add_r w a b : wrapU w (a + wrapU w b) = wrapU w (a + b).
Proof. apply Zplus_mod_idemp_r. Qed.
Lemma wrapU_sub_l w a b : wrapU w (wrapU w a - b) = wrapU w (a - b).
Proof. apply Zminus_mod_idemp_l. Qed.
Lemma wrapU_sub_r w a b : wrapU w (a - wrapU w b) = wrapU w (a - b).
Proof. apply Zminus_mod_idemp_r. Qed.

Create HintDb machine discriminated.
Create Rewrite HintDb machine.
#[export] Hint Resolve wrapU_range wrapS_range wrapU_id wrapS_id pow2_pos : machine.
#[export] Hint Rewrite wrapU_add_l wrapU_add_r wrapU_sub_l wrapU_sub_r : machine.

(** ** Bits *)

Lemma testbit_wrapU w z i : 0 <= w -> Z.testbit (wrapU w z) i = (i <? w) && Z.testbit z i.
Proof.
  intros. unfold wrapU. destruct (Z.ltb_spec i w).
  - destruct (decide (0 <= i)).
    + by rewrite Z.mod_pow2_bits_low by lia.
    + by rewrite !Z.testbit_neg_r by lia.
  - by rewrite Z.mod_pow2_bits_high by lia.
Qed.

Lemma testbit_inU w z i : inU w z -> w <= i -> Z.testbit z i = false.
Proof.
  intros Hz Hi. destruct (decide (0 <= w)).
  - rewrite <- (wrapU_id w z), testbit_wrapU by done. destruct (Z.ltb_spec i w); [lia|done].
  - destruct Hz as [? Hz]. rewrite Z.pow_neg_r in Hz by lia. lia.
Qed.

Lemma inU_testbit w z : 0 <= w -> 0 <= z -> (forall i, w <= i -> Z.testbit z i = false) -> inU w z.
Proof.
  intros Hw Hz Hb. enough (z = wrapU w z) as -> by auto using wrapU_range.
  apply Z.bits_inj'. intros i Hi. rewrite testbit_wrapU by done.
  destruct (Z.ltb_spec i w); [done|]. by rewrite Hb.
Qed.

Lemma testbit_ones w i : 0 <= w -> Z.testbit (Z.ones w) i = (0 <=? i) && (i <? w).
Proof.
  intros. destruct (Z.leb_spec 0 i); simpl.
  - by apply Z.testbit_ones_nonneg.
  - by rewrite Z.testbit_neg_r by lia.
Qed.

(** Solve equations between bit expressions bit by bit. *)
Ltac bits_norm :=
  repeat (rewrite ?Z.land_spec, ?Z.lor_spec, ?Z.lxor_spec, ?Z.bits_0 in * );
  repeat first
    [ rewrite testbit_wrapU by lia
    | rewrite Z.shiftr_spec by lia
    | rewrite Z.shiftl_spec by lia
    | rewrite Z.lnot_spec by lia
    | rewrite testbit_ones by lia ].

Lemma inU_land w a b : 0 <= w -> 0 <= b -> inU w a -> inU w (Z.land a b).
Proof.
  intros Hw Hb Ha. apply inU_testbit; [done|apply Z.land_nonneg; unfold inU in *; lia|].
  intros i Hi. by rewrite Z.land_spec, (testbit_inU w a).
Qed.

Lemma inU_lor w a b : 0 <= w -> inU w a -> inU w b -> inU w (Z.lor a b).
Proof.
  intros Hw Ha Hb. apply inU_testbit; [done|apply Z.lor_nonneg; unfold inU in *; lia|].
  intros i Hi. by rewrite Z.lor_spec, (testbit_inU w a), (testbit_inU w b).
Qed.

Lemma inU_lxor w a b : 0 <= w -> inU w a -> inU w b -> inU w (Z.lxor a b).
Proof.
  intros Hw Ha Hb. apply inU_testbit; [done|apply Z.lxor_nonneg; unfold inU in *; lia|].
  intros i Hi. by rewrite Z.lxor_spec, (testbit_inU w a), (testbit_inU w b).
Qed.

Lemma inU_shiftr w a n : 0 <= w -> 0 <= n -> inU w a -> inU w (Z.shiftr a n).
Proof.
  intros Hw Hn Ha. apply inU_testbit; [done|apply Z.shiftr_nonneg; unfold inU in *; lia|].
  intros i Hi. destruct (decide (0 <= i)).
  - rewrite Z.shiftr_spec by lia. apply (testbit_inU w); [done|lia].
  - by rewrite Z.testbit_neg_r by lia.
Qed.

Lemma inU_mono w w' z : w <= w' -> inU w z -> inU w' z.
Proof.
  intros Hw [H0 H1]. split; [done|].
  destruct (decide (0 <= w)).
  - pose proof (Z.pow_le_mono_r 2 w w'); lia.
  - rewrite Z.pow_neg_r in H1 by lia. lia.
Qed.

#[export] Hint Resolve inU_land inU_lor inU_lxor inU_shiftr : machine.

(** ** Bytes

    The bytes of a value in the host's order, which is little-endian on every host of the program. *)

Fixpoint bytes (n : nat) (v : Z) : list Z :=
  match n with O => [] | S n => v mod 256 :: bytes n (v / 256) end.
Fixpoint unbytes (l : list Z) : Z :=
  match l with [] => 0 | b :: l => b + 256 * unbytes l end.

Lemma bytes_length n v : length (bytes n v) = n.
Proof. revert v. induction n; intros v; cbn; [done|by rewrite IHn]. Qed.

Lemma bytes_byte n v : Forall (inU 8) (bytes n v).
Proof. revert v. induction n; intros v; cbn; constructor; [|done]. apply Z.mod_pos_bound. lia. Qed.

Lemma unbytes_bytes n v : unbytes (bytes n v) = wrapU (8 * Z.of_nat n) v.
Proof.
  revert v. induction n as [|n IH]; intros v; cbn [bytes unbytes].
  - unfold wrapU. by rewrite Z.mod_1_r.
  - rewrite IH. unfold wrapU. replace (8 * Z.of_nat (S n)) with (8 + 8 * Z.of_nat n) by lia.
    rewrite Z.pow_add_r by lia. change (2 ^ 8) with 256.
    pose proof (pow2_pos (8 * Z.of_nat n)). rewrite Z.rem_mul_r by lia. done.
Qed.

Lemma unbytes_range l : Forall (inU 8) l -> inU (8 * Z.of_nat (length l)) (unbytes l).
Proof.
  induction 1 as [|b l Hb Hl IH]; cbn [unbytes length]; [unfold inU; cbn; lia|].
  unfold inU in *. replace (8 * Z.of_nat (S (length l))) with (8 + 8 * Z.of_nat (length l)) by lia.
  rewrite Z.pow_add_r by lia. change (2 ^ 8) with 256 in *. nia.
Qed.

Lemma bytes_lookup n v k : (k < n)%nat -> bytes n v !! k = Some (v / 256 ^ Z.of_nat k mod 256).
Proof.
  revert n v. induction k as [|k IH]; intros [|n] v Hk; [lia| |lia|]; cbn [bytes lookup list_lookup].
  - by rewrite Z.div_1_r.
  - change (bytes n (v / 256) !! k = Some (v / 256 ^ Z.of_nat (S k) mod 256)). rewrite IH by lia.
    rewrite Nat2Z.inj_succ, Z.pow_succ_r, Z.div_div by lia. done.
Qed.

(** What was written over a range is what is read from it. *)
Lemma take_drop_inserts {A} i (k l : list A) : (i + length k <= length l)%nat ->
  take (length k) (drop i (list_inserts i k l)) = k.
Proof.
  intros H. apply list_eq. intros j. destruct (decide (j < length k)%nat).
  - rewrite lookup_take_lt, lookup_drop, list_lookup_inserts by lia. f_equal. lia.
  - rewrite lookup_take_ge, lookup_ge_None_2 by lia. done.
Qed.

Lemma Forall_list_inserts {A} (P : A -> Prop) i k l : Forall P k -> Forall P l -> Forall P (list_inserts i k l).
Proof.
  revert i. induction k as [|y k IH]; intros i Hk Hl; cbn [list_inserts]; [done|].
  inversion Hk; subst. by apply Forall_insert; [apply IH|].
Qed.

Lemma filter_all {A} (P : A -> Prop) `{forall x, Decision (P x)} l : Forall P l -> filter P l = l.
Proof. induction 1; [done|]. by rewrite filter_cons, decide_True, IHForall by done. Qed.
Lemma filter_none {A} (P : A -> Prop) `{forall x, Decision (P x)} l : Forall (fun x => ~ P x) l -> filter P l = [].
Proof. induction 1; [done|]. by rewrite filter_cons, decide_False, IHForall by done. Qed.

Lemma concat_bind {A B} (g : A -> list B) l : concat (g <$> l) = l ≫= g.
Proof. induction l as [|a l IH]; [done|]. cbn. by rewrite IH. Qed.

Lemma take_insert_snoc {A} (l : list A) k x : (k < length l)%nat -> take (S k) (<[k := x]> l) = take k l ++ [x].
Proof.
  intros H. rewrite (take_S_r _ _ x) by (by rewrite list_lookup_insert_eq). by rewrite take_insert_ge by lia.
Qed.

Lemma sum_list_insert (l : list nat) (i x y : nat) : l !! i = Some x ->
  (sum_list (<[i := y]> l) + x = sum_list l + y)%nat.
Proof.
  revert i. induction l as [|a l IH]; intros [|i] H; [done|done| |].
  - injection H as ->. cbn. lia.
  - specialize (IH i H). change (sum_list (<[S i := y]> (a :: l))) with (a + sum_list (<[i := y]> l))%nat.
    change (sum_list (a :: l)) with (a + sum_list l)%nat. lia.
Qed.

(** ** Word memory

    Global memory as the program's shared objects see it: a value per object,
    kept under the byte address of the object.  A location nobody wrote holds an
    arbitrary value; a [gmap] with the location bound models each choice, and an
    unbound location reads as 0. *)

Abbreviation mem := (gmap Z Z).
Definition load (m : mem) (a : Z) : Z := default 0 (m !! a).
Definition store (m : mem) (a v : Z) : mem := <[a := v]> m.

Lemma load_store_eq m a v : load (store m a v) a = v.
Proof. unfold load, store. by rewrite lookup_insert_eq. Qed.

Lemma load_store_ne m a b v : a <> b -> load (store m a v) b = load m b.
Proof. intros. unfold load, store. by rewrite lookup_insert_ne. Qed.

Lemma load_store m a b v : load (store m a v) b = if decide (a = b) then v else load m b.
Proof. case_decide; [subst; apply load_store_eq | by apply load_store_ne]. Qed.

Lemma store_store m a v w : store (store m a v) a w = store m a w.
Proof. apply insert_insert_eq. Qed.

Create HintDb memory discriminated.
Create Rewrite HintDb memory.
#[export] Hint Rewrite load_store_eq store_store : memory.
#[export] Hint Rewrite load_store_ne using (first [done | lia]) : memory.

(** Read back the stores of a goal; addresses are told apart by [lia]. *)
Ltac mem_simpl := autorewrite with memory in *.
