(* ===== verification/Addressing.v ===== *)
(** * Bit ranges, places and the global address map of the runtime

    [pando-rt/utility/bit_manip.hpp], [pando-rt/utility/math.hpp],
    [pando-rt/index.hpp], [pando-rt/memory/address_map.hpp] and the PREP branch of
    [pando-rt/memory/address_translation.hpp]. *)

From S2P Require Import Prelude.

(** ** Bit ranges *)

Module BitManip.

(** src/pando-rt/include/pando-rt/utility/bit_manip.hpp:17-20 [BitRange] *)
Record BitRange := mkRange { lo : Z; hi : Z }.

(** src/pando-rt/include/pando-rt/utility/bit_manip.hpp:24-26 [BitRange::width] *)
Definition width (r : BitRange) : Z := u32 (hi r - lo r).

(** src/pando-rt/include/pando-rt/utility/bit_manip.hpp:30-32 [operator==] *)
Definition range_eqb (x y : BitRange) : bool := (lo x =? lo y) && (hi x =? hi y).

(** src/pando-rt/include/pando-rt/utility/bit_manip.hpp:35-37 [operator!=] *)
Definition range_neqb (x y : BitRange) : bool := negb (range_eqb x y).

(** src/pando-rt/include/pando-rt/utility/bit_manip.hpp:44-50 [readBits]; [w] is the width of [UIntType] *)
Definition readBits (w value : Z) (bits : BitRange) : Z :=
  let maskSize := width bits in
  let mask := notU w (shlU w (notU w 0) maskSize) in
  Z.land (shrU value (lo bits)) mask.

(** src/pando-rt/include/pando-rt/utility/bit_manip.hpp:57-63 [createMask] *)
Definition createMask (w : Z) (bits : BitRange) (value : Z) : Z :=
  let maskSize := width bits in
  let mask := notU w (shlU w (notU w 0) maskSize) in
  shlU w (Z.land value mask) (lo bits).

(** [__builtin_clzll], defined on non-zero 64-bit values. *)
Definition builtin_clzll (i : Z) : outcome Z :=
  if i =? 0 then Failed (Undefined "__builtin_clzll(0)") else Done (63 - Z.log2 i).

(** src/pando-rt/include/pando-rt/utility/math.hpp:21-23 [log2floor] *)
Definition log2floor (i : Z) : outcome Z :=
  let! c := builtin_clzll i in Done (u8 (8 * 8 - c - 1)).

(** src/pando-rt/include/pando-rt/utility/math.hpp:32-35 [up2]; a shift by the width of its operand is undefined *)
Definition up2 (i : Z) : outcome Z :=
  let! log2 := log2floor i in
  if log2 + 1 <? 64 then Done (shlU 64 1 (log2 + 1)) else Failed (Undefined "shift past width").

(** A range inside a [w]-bit word that does not cover all of it. *)
Definition proper (w : Z) (r : BitRange) : Prop :=
  0 <= lo r < hi r /\ hi r <= w /\ hi r - lo r < w /\ w <= 64.

#[export] Instance proper_dec w r : Decision (proper w r).
Proof. unfold proper. solve_decision. Defined.

Definition disjoint (r s : BitRange) : Prop := hi r <= lo s \/ hi s <= lo r.

#[export] Instance disjoint_dec r s : Decision (disjoint r s).
Proof. unfold disjoint. solve_decision. Defined.

Section Bits.
Context (w : Z).

Lemma width_proper r : proper w r -> width r = hi r - lo r.
Proof. intros (? & ? & ? & ?). apply wrapU_id. unfold inU. lia. Qed.

Lemma mask_ones n : 0 <= n < w -> notU w (shlU w (notU w 0) n) = Z.ones n.
Proof.
  intros. unfold notU, shlU. apply Z.bits_inj'. intros i Hi.
  rewrite testbit_wrapU, Z.lnot_spec, testbit_wrapU, Z.shiftl_spec, testbit_ones by lia.
  destruct (Z.leb_spec 0 i); [|lia]. destruct (Z.ltb_spec i w); simpl.
  - destruct (Z.ltb_spec i n).
    + by rewrite (Z.testbit_neg_r _ (i - n)) by lia.
    + rewrite testbit_wrapU, Z.lnot_spec, Z.bits_0 by lia.
      destruct (Z.ltb_spec (i - n) w); [done|lia].
  - destruct (Z.ltb_spec i n); [lia|done].
Qed.

Lemma testbit_readBits v r i : proper w r -> 0 <= i ->
  Z.testbit (readBits w v r) i = (i <? hi r - lo r) && Z.testbit v (lo r + i).
Proof.
  intros Hr Hi. pose proof Hr as (? & ? & ? & ?). unfold readBits, shrU; cbv zeta.
  rewrite (width_proper r Hr), mask_ones, Z.land_spec, Z.shiftr_spec, testbit_ones by lia.
  rewrite (Z.add_comm i). destruct (Z.leb_spec 0 i); [|lia]. simpl. apply andb_comm.
Qed.

Lemma testbit_createMask v r i : proper w r -> 0 <= i ->
  Z.testbit (createMask w r v) i = (lo r <=? i) && (i <? hi r) && Z.testbit v (i - lo r).
Proof.
  intros Hr Hi. pose proof Hr as (? & ? & ? & ?). unfold createMask; cbv zeta.
  rewrite (width_proper r Hr), mask_ones by lia. unfold shlU.
  rewrite testbit_wrapU, Z.shiftl_spec by lia.
  rewrite Z.land_spec, testbit_ones by lia.
  destruct (Z.ltb_spec i w), (Z.leb_spec (lo r) i), (Z.ltb_spec i (hi r)),
    (Z.leb_spec 0 (i - lo r)), (Z.ltb_spec (i - lo r) (hi r - lo r)); simpl;
    rewrite ?andb_true_r, ?andb_false_r; done || lia.
Qed.

Lemma readBits_0 r : proper w r -> readBits w 0 r = 0.
Proof.
  intros. apply Z.bits_inj'. intros. rewrite testbit_readBits, !Z.bits_0 by done. apply andb_false_r.
Qed.

Lemma readBits_lor a b r : proper w r ->
  readBits w (Z.lor a b) r = Z.lor (readBits w a r) (readBits w b r).
Proof.
  intros. apply Z.bits_inj'. intros. rewrite Z.lor_spec, !testbit_readBits, Z.lor_spec by done.
  apply andb_orb_distrib_r.
Qed.

Lemma readBits_createMask v r : proper w r ->
  readBits w (createMask w r v) r = wrapU (hi r - lo r) v.
Proof.
  intros Hr. pose proof Hr as (? & ? & ? & ?). apply Z.bits_inj'. intros i Hi.
  rewrite testbit_readBits, testbit_createMask, testbit_wrapU by (done || lia).
  replace (lo r + i - lo r) with i by lia.
  destruct (Z.ltb_spec i (hi r - lo r)), (Z.leb_spec (lo r) (lo r + i)),
    (Z.ltb_spec (lo r + i) (hi r)); simpl; done || lia.
Qed.

Lemma readBits_createMask_ne v r s : proper w r -> proper w s -> disjoint r s ->
  readBits w (createMask w s v) r = 0.
Proof.
  intros Hr Hs Hd. pose proof Hr as (? & ? & ? & ?). apply Z.bits_inj'. intros i Hi.
  rewrite testbit_readBits, testbit_createMask, Z.bits_0 by (done || lia).
  destruct (Z.ltb_spec i (hi r - lo r)), (Z.leb_spec (lo s) (lo r + i)),
    (Z.ltb_spec (lo r + i) (hi s)); simpl; try done. unfold disjoint in Hd. lia.
Qed.

Lemma readBits_range v r : proper w r -> inU (hi r - lo r) (readBits w v r).
Proof.
  intros Hr. pose proof Hr as (? & ? & ? & ?). apply inU_testbit; [lia| |].
  - unfold readBits; cbv zeta. rewrite (width_proper r Hr), mask_ones by lia.
    apply Z.land_nonneg. right. rewrite Z.ones_equiv. pose proof (pow2_pos (hi r - lo r)). lia.
  - intros i Hi. rewrite testbit_readBits by (done || lia).
    destruct (Z.ltb_spec i (hi r - lo r)); [lia|done].
Qed.

Lemma createMask_range v r : proper w r -> inU w (createMask w r v).
Proof. intros (? & ? & ? & ?). apply wrapU_range. lia. Qed.

Lemma createMask_wrap v r : proper w r -> createMask w r (wrapU (hi r - lo r) v) = createMask w r v.
Proof.
  intros Hr. pose proof Hr as (? & ? & ? & ?). apply Z.bits_inj'. intros i Hi.
  rewrite !testbit_createMask, testbit_wrapU by (done || lia).
  destruct (Z.leb_spec (lo r) i), (Z.ltb_spec i (hi r)),
    (Z.ltb_spec (i - lo r) (hi r - lo r)); simpl; done || lia.
Qed.
End Bits.

Lemma log2floor_spec i : 0 < i < 2 ^ 64 -> log2floor i = Done (Z.log2 i).
Proof.
  intros. unfold log2floor, builtin_clzll. destruct (Z.eqb_spec i 0); [lia|]. cbn -[Z.log2].
  assert (Z.log2 i < 64) by (apply Z.log2_lt_pow2; lia). pose proof (Z.log2_nonneg i).
  f_equal. rewrite wrapU_id; [lia|]. unfold inU. lia.
Qed.

Lemma up2_correct i : inU 64 i ->
  match up2 i with
  | Done p => 0 < i < 2 ^ 63 /\ (exists k, p = 2 ^ k /\ 0 <= k) /\ i < p <= 2 * i /\
              (forall k, 0 <= k -> i < 2 ^ k -> p <= 2 ^ k)
  | Failed _ => i = 0 \/ 2 ^ 63 <= i
  end.
Proof.
  intros [H0 H1]. destruct (decide (i = 0)) as [->|]; [by left|].
  unfold up2. rewrite log2floor_spec by lia. cbn -[Z.log2 shlU Z.ltb].
  pose proof (Z.log2_spec i ltac:(lia)) as [L1 L2]. pose proof (Z.log2_nonneg i).
  destruct (Z.ltb_spec (Z.log2 i + 1) 64).
  - assert (Z.log2 i < 63) by lia. assert (i < 2 ^ 63) by (apply Z.log2_lt_pow2; lia).
    assert (shlU 64 1 (Z.log2 i + 1) = 2 ^ (Z.log2 i + 1)) as ->.
    { unfold shlU. rewrite Z.shiftl_1_l. apply wrapU_id. split; [lia|].
      apply Z.pow_lt_mono_r; lia. }
    rewrite <- Z.add_1_r in L2. rewrite Z.pow_add_r in * by lia. split_and!; try lia.
    + exists (Z.log2 i + 1). rewrite Z.pow_add_r by lia. lia.
    + intros k Hk Hik. assert (Z.log2 i < k) by (apply Z.log2_lt_pow2; lia).
      replace k with (Z.log2 i + 1 + (k - Z.log2 i - 1)) by lia. rewrite !Z.pow_add_r by lia.
      pose proof (pow2_pos (k - Z.log2 i - 1) ltac:(lia)). nia.
  - right. apply Z.log2_le_pow2; lia.
Qed.

(** For every 64-bit [i] with a clear top bit, [up2 i] is the smallest power of two greater than [i];
    it has no defined result for 0 and for values with the top bit set. *)
Theorem up2_spec i : inU 64 i ->
  match up2 i with
  | Done p => 0 < i < 2 ^ 63 /\ (exists k, p = 2 ^ k /\ 0 <= k) /\ i < p <= 2 * i /\
              (forall k, 0 <= k -> i < 2 ^ k -> p <= 2 ^ k)
  | Failed _ => i = 0 \/ 2 ^ 63 <= i
  end.
Proof. apply up2_correct. Qed.

Lemma up2_spec_witness : up2 100 = Done 128 /\ 100 < 128 <= 2 * 100.
Proof.
  split; [reflexivity|]. refine (proj1 (proj2 (proj2 (up2_spec 100 _)))). vm_compute. intuition congruence.
Defined.
End BitManip.

(** ** Places *)

Module Index.

(** src/pando-rt/include/pando-rt/index.hpp:19-25 [NodeIndex] *)
Record NodeIndex := mkNode { node_id : Z }.
(** src/pando-rt/include/pando-rt/index.hpp:32-32 [anyNode] *)
Definition anyNode : NodeIndex := mkNode (-1).
(** src/pando-rt/include/pando-rt/index.hpp:35-37 [operator==(NodeIndex)] *)
Definition node_eqb (x y : NodeIndex) : bool := node_id x =? node_id y.
(** src/pando-rt/include/pando-rt/index.hpp:45-47 [operator<(NodeIndex)] *)
Definition node_ltb (x y : NodeIndex) : bool := node_id x <? node_id y.
(** src/pando-rt/include/pando-rt/index.hpp:74-76 [isSubsetOf(NodeIndex)] *)
Definition node_isSubsetOf (x y : NodeIndex) : bool :=
  if node_eqb y anyNode then true else node_eqb x y.

(** src/pando-rt/include/pando-rt/index.hpp:85-92 [PodIndex] *)
Record PodIndex := mkPod { pod_x : Z; pod_y : Z }.
(** src/pando-rt/include/pando-rt/index.hpp:97-97 [anyPod] *)
Definition anyPod : PodIndex := mkPod (-1) (-1).
(** src/pando-rt/include/pando-rt/index.hpp:100-102 [operator==(PodIndex)] *)
Definition pod_eqb (a b : PodIndex) : bool := (pod_x a =? pod_x b) && (pod_y a =? pod_y b).
(** src/pando-rt/include/pando-rt/index.hpp:110-112 [operator<(PodIndex)] *)
Definition pod_ltb (a b : PodIndex) : bool :=
  (pod_x a <? pod_x b) || (negb (pod_x b <? pod_x a) && (pod_y a <? pod_y b)).
(** src/pando-rt/include/pando-rt/index.hpp:139-141 [isSubsetOf(PodIndex)] *)
Definition pod_isSubsetOf (a b : PodIndex) : bool :=
  if pod_eqb b anyPod then true else pod_eqb a b.

(** src/pando-rt/include/pando-rt/index.hpp:150-157 [CoreIndex] *)
Record CoreIndex := mkCore { core_x : Z; core_y : Z }.
(** src/pando-rt/include/pando-rt/index.hpp:164-164 [anyCore] *)
Definition anyCore : CoreIndex := mkCore (-1) (-1).
(** src/pando-rt/include/pando-rt/index.hpp:167-169 [operator==(CoreIndex)] *)
Definition core_eqb (a b : CoreIndex) : bool := (core_x a =? core_x b) && (core_y a =? core_y b).
(** src/pando-rt/include/pando-rt/index.hpp:177-179 [operator<(CoreIndex)] *)
Definition core_ltb (a b : CoreIndex) : bool :=
  (core_x a <? core_x b) || (negb (core_x b <? core_x a) && (core_y a <? core_y b)).
(** src/pando-rt/include/pando-rt/index.hpp:206-208 [isSubsetOf(CoreIndex)] *)
Definition core_isSubsetOf (a b : CoreIndex) : bool :=
  if core_eqb b anyCore then true else core_eqb a b.

(** src/pando-rt/include/pando-rt/index.hpp:217-226 [Place] *)
Record Place := mkPlace { node : NodeIndex; pod : PodIndex; core : CoreIndex }.
(** src/pando-rt/include/pando-rt/index.hpp:233-233 [anyPlace] *)
Definition anyPlace : Place := mkPlace anyNode anyPod anyCore.
(** src/pando-rt/include/pando-rt/index.hpp:236-238 [operator==(Place)]; equality of [std::tie] tuples *)
Definition place_eqb (a b : Place) : bool :=
  node_eqb (node a) (node b) && pod_eqb (pod a) (pod b) && core_eqb (core a) (core b).
(** src/pando-rt/include/pando-rt/index.hpp:246-248 [operator<(Place)]; [std::tuple]'s comparison:
    the first component that is less, in either direction, decides *)
Definition place_ltb (a b : Place) : bool :=
  if node_ltb (node a) (node b) then true else
  if node_ltb (node b) (node a) then false else
  if pod_ltb (pod a) (pod b) then true else
  if pod_ltb (pod b) (pod a) then false else
  core_ltb (core a) (core b).
(** src/pando-rt/include/pando-rt/index.hpp:251-253 [operator<=(Place)] *)
Definition place_leb (a b : Place) : bool := negb (place_ltb b a).
(** src/pando-rt/include/pando-rt/index.hpp:275-277 [isSubsetOf(Place)] *)
Definition place_isSubsetOf (a b : Place) : bool :=
  node_isSubsetOf (node a) (node b) && pod_isSubsetOf (pod a) (pod b)
  && core_isSubsetOf (core a) (core b).

(** src/pando-rt/include/pando-rt/index.hpp:286-292 [ThreadIndex] *)
Record ThreadIndex := mkThread { thread_id : Z }.

#[export] Instance NodeIndex_eq_dec : EqDecision NodeIndex.
Proof. solve_decision. Defined.
#[export] Instance PodIndex_eq_dec : EqDecision PodIndex.
Proof. solve_decision. Defined.
#[export] Instance CoreIndex_eq_dec : EqDecision CoreIndex.
Proof. solve_decision. Defined.
#[export] Instance Place_eq_dec : EqDecision Place.
Proof. solve_decision. Defined.

Ltac index_bool :=
  repeat match goal with
    | p : Place |- _ => destruct p as [[?] [? ?] [? ?]]
    | p : NodeIndex |- _ => destruct p
    | p : PodIndex |- _ => destruct p
    | p : CoreIndex |- _ => destruct p
    end;
  unfold place_leb, place_ltb, place_eqb, place_isSubsetOf, node_isSubsetOf, pod_isSubsetOf,
    core_isSubsetOf, node_eqb, pod_eqb, core_eqb, node_ltb, pod_ltb, core_ltb in *;
  cbn [node pod core node_id pod_x pod_y core_x core_y anyPlace anyNode anyPod anyCore] in *.

Lemma place_eqb_eq a b : place_eqb a b = true <-> a = b.
Proof.
  index_bool. rewrite !andb_true_iff, !Z.eqb_eq. split.
  - intros ((-> & -> & ->) & -> & ->). done.
  - intros [= -> -> -> -> ->]. done.
Qed.

(** Lexicographic order of component lists, the specification of the comparison operators. *)
Fixpoint lex_lt (l k : list Z) : Prop :=
  match l, k with
  | x :: l', y :: k' => x < y \/ x = y /\ lex_lt l' k'
  | _, _ => False
  end.

Lemma lex_lt_irrefl l : ~ lex_lt l l.
Proof. induction l; simpl; [tauto|]. intros [?|[_ ?]]; [lia|tauto]. Qed.

Lemma lex_lt_trans l k m : lex_lt l k -> lex_lt k m -> lex_lt l m.
Proof.
  revert k m. induction l as [|x l IH]; intros [|y k] [|z m]; simpl; try tauto.
  intros [?|[-> ?]] [?|[-> ?]]; [left; lia|left; lia|left; lia|right; eauto].
Qed.

Lemma lex_lt_total l k : length l = length k -> lex_lt l k \/ l = k \/ lex_lt k l.
Proof.
  revert k. induction l as [|x l IH]; intros [|y k]; simpl; try done; [tauto|]. intros [= E].
  destruct (IH k E) as [?|[->|?]], (Z.lt_trichotomy x y) as [?|[->|?]]; tauto.
Qed.

Definition place_key (p : Place) : list Z :=
  [node_id (node p); pod_x (pod p); pod_y (pod p); core_x (core p); core_y (core p)].

Lemma place_key_inj a b : place_key a = place_key b -> a = b.
Proof. destruct a as [[?] [? ?] [? ?]], b as [[?] [? ?] [? ?]]. intros [= -> -> -> -> ->]. done. Qed.

Lemma lex2_ltb x x' (P : Prop) (r : bool) :
  (r = true <-> P) ->
  ((x <? x') || (negb (x' <? x) && r)) = true <-> x < x' \/ x = x' /\ P.
Proof.
  intros <-. destruct (Z.ltb_spec x x'), (Z.ltb_spec x' x); simpl; intuition (discriminate || lia).
Qed.

Lemma pod_ltb_lex a b : pod_ltb a b = true <->
  pod_x a < pod_x b \/ pod_x a = pod_x b /\ pod_y a < pod_y b.
Proof. apply lex2_ltb, Z.ltb_lt. Qed.
Lemma core_ltb_lex a b : core_ltb a b = true <->
  core_x a < core_x b \/ core_x a = core_x b /\ core_y a < core_y b.
Proof. apply lex2_ltb, Z.ltb_lt. Qed.

Lemma lex_step (p q r : bool) (P Q R E : Prop) :
  (p = true <-> P) -> (q = true <-> Q) -> (~ P -> ~ Q -> E) -> (E -> ~ P /\ ~ Q) -> (r = true <-> R) ->
  (if p then true else if q then false else r) = true <-> P \/ E /\ R.
Proof. intros <- <- ? ? <-. destruct p, q; intuition congruence. Qed.

Lemma place_ltb_lex a b : place_ltb a b = true <-> lex_lt (place_key a) (place_key b).
Proof.
  unfold place_ltb. rewrite lex_step with
    (P := node_id (node a) < node_id (node b)) (Q := node_id (node b) < node_id (node a))
    (E := node_id (node a) = node_id (node b))
    (R := (pod_x (pod a) < pod_x (pod b) \/ pod_x (pod a) = pod_x (pod b) /\ pod_y (pod a) < pod_y (pod b))
          \/ (pod_x (pod a) = pod_x (pod b) /\ pod_y (pod a) = pod_y (pod b)) /\
             (core_x (core a) < core_x (core b) \/
              core_x (core a) = core_x (core b) /\ core_y (core a) < core_y (core b)));
    try apply Z.ltb_lt; try lia; [cbn; tauto|].
  apply lex_step with (Q := pod_x (pod b) < pod_x (pod a) \/
    pod_x (pod b) = pod_x (pod a) /\ pod_y (pod b) < pod_y (pod a));
    try apply pod_ltb_lex; try apply core_ltb_lex; lia.
Qed.

Lemma place_leb_ltb a b : place_leb a b = true <-> ~ lex_lt (place_key b) (place_key a).
Proof. unfold place_leb. rewrite negb_true_iff, <- place_ltb_lex. destruct (place_ltb b a); intuition congruence. Qed.

(** The comparison operators of places are one strict total order, lexicographic in (node, pod,
    core), with [<=] its reflexive closure and [==] equality. *)
Theorem place_order a b c :
  place_ltb a a = false /\
  (place_ltb a b = true -> place_ltb b c = true -> place_ltb a c = true) /\
  (place_ltb a b = true \/ place_eqb a b = true \/ place_ltb b a = true) /\
  (place_leb a b = true <-> place_ltb a b = true \/ place_eqb a b = true).
Proof.
  rewrite <- not_true_iff_false, place_leb_ltb, !place_eqb_eq, !place_ltb_lex.
  pose proof (lex_lt_total (place_key a) (place_key b) eq_refl) as T.
  pose proof (place_key_inj a b). split_and!.
  - apply lex_lt_irrefl.
  - apply lex_lt_trans.
  - tauto.
  - split; [tauto|]. intros [L| ->]; [|apply lex_lt_irrefl].
    intros L'. apply (lex_lt_irrefl (place_key a)). eauto using lex_lt_trans.
Qed.

(** [isSubsetOf] orders places by inclusion of the sets they denote: it is reflexive, transitive and
    antisymmetric, [anyPlace] includes every place, and a fully specified place includes
    only itself. *)
Theorem place_subset_order a b c :
  place_isSubsetOf a a = true /\ place_isSubsetOf a anyPlace = true /\
  (place_isSubsetOf a b = true -> place_isSubsetOf b c = true -> place_isSubsetOf a c = true) /\
  (place_isSubsetOf a b = true -> place_isSubsetOf b a = true -> a = b) /\
  (0 <= node_id (node b) -> 0 <= pod_x (pod b) -> 0 <= core_x (core b) ->
   place_isSubsetOf a b = true -> a = b).
Proof.
  assert (Hn : forall x y, node_isSubsetOf x y = true <-> y = anyNode \/ x = y).
  { intros [x] [y]. unfold node_isSubsetOf, node_eqb, anyNode; cbn.
    destruct (Z.eqb_spec y (-1)), (Z.eqb_spec x y); subst; intuition congruence. }
  assert (Hp : forall x y, pod_isSubsetOf x y = true <-> y = anyPod \/ x = y).
  { intros [x x'] [y y']. unfold pod_isSubsetOf, pod_eqb, anyPod; cbn.
    destruct (Z.eqb_spec y (-1)), (Z.eqb_spec y' (-1)), (Z.eqb_spec x y), (Z.eqb_spec x' y');
      subst; simpl; intuition congruence. }
  assert (Hc : forall x y, core_isSubsetOf x y = true <-> y = anyCore \/ x = y).
  { intros [x x'] [y y']. unfold core_isSubsetOf, core_eqb, anyCore; cbn.
    destruct (Z.eqb_spec y (-1)), (Z.eqb_spec y' (-1)), (Z.eqb_spec x y), (Z.eqb_spec x' y');
      subst; simpl; intuition congruence. }
  assert (E : forall x y, place_isSubsetOf x y = true <->
    (node y = anyNode \/ node x = node y) /\ (pod y = anyPod \/ pod x = pod y) /\
    (core y = anyCore \/ core x = core y)).
  { intros x y. unfold place_isSubsetOf. rewrite !andb_true_iff, Hn, Hp, Hc. tauto. }
  rewrite !E. clear. destruct a as [a1 a2 a3], b as [b1 b2 b3], c as [c1 c2 c3]. cbn.
  split_and!; try tauto.
  - intuition congruence.
  - intros. f_equal; intuition congruence.
  - intros ? ? ? ([->| ->] & [->| ->] & [->| ->]); cbn in *; done || lia.
Qed.

Lemma place_subset_order_witness :
  place_isSubsetOf (mkPlace (mkNode 3) anyPod anyCore) anyPlace = true.
Proof.
  refine (proj1 (proj2 (proj2 (place_subset_order (mkPlace (mkNode 3) anyPod anyCore)
    (mkPlace (mkNode 3) anyPod anyCore) anyPlace))) _ _); reflexivity.
Defined.

Lemma place_order_witness :
  place_ltb (mkPlace (mkNode 0) (mkPod 0 1) (mkCore 5 5)) (mkPlace (mkNode 0) (mkPod 1 0) (mkCore 0 0)) = true.
Proof.
  refine (proj1 (proj2 (place_order (mkPlace (mkNode 0) (mkPod 0 1) (mkCore 5 5))
    (mkPlace (mkNode 0) (mkPod 0 1) (mkCore 6 5)) (mkPlace (mkNode 0) (mkPod 1 0) (mkCore 0 0)))) _ _);
    reflexivity.
Defined.
End Index.

(** ** The address map *)

Module AddressMap.
Import BitManip Index.

(** src/pando-rt/include/pando-rt/memory/memory_type.hpp:17-25 [MemoryType]; the enumeration has a fixed
    underlying type, so a cast can produce a value with no enumerator *)
Inductive MemoryType := L1SP | L2SP | Main | Unknown | OtherType (v : Z).

(** src/pando-rt/include/pando-rt/memory/memory_type.hpp:32-34 [operator+] *)
Definition memoryType_to_Z (t : MemoryType) : Z :=
  match t with L1SP => 0 | L2SP => 1 | Main => 2 | Unknown => 63 | OtherType v => v end.

(** [static_cast<MemoryType>] *)
Definition memoryType_of_Z (v : Z) : MemoryType :=
  if v =? 0 then L1SP else if v =? 1 then L2SP else if v =? 2 then Main
  else if v =? 63 then Unknown else OtherType v.

(** src/pando-rt/include/pando-rt/memory/address_map.hpp:20-29 [L1SP] *)
Record L1SPMap := mkL1 {
  l1_nodeIndex : BitRange; l1_podY : BitRange; l1_podX : BitRange;
  l1_coreY : BitRange; l1_coreX : BitRange; l1_global : BitRange; l1_offset : BitRange }.
(** src/pando-rt/include/pando-rt/memory/address_map.hpp:31-37 [L2SP] *)
Record L2SPMap := mkL2 {
  l2_nodeIndex : BitRange; l2_podY : BitRange; l2_podX : BitRange; l2_offset : BitRange }.
(** src/pando-rt/include/pando-rt/memory/address_map.hpp:39-43 [main] *)
Record MainMap := mkMain { main_nodeIndex : BitRange; main_offset : BitRange }.
Record AddrMap := mkMap { memoryType : BitRange; l1sp : L1SPMap; l2sp : L2SPMap; main : MainMap }.

(** src/pando-rt/include/pando-rt/memory/address_map.hpp:16-44 [addressMap] *)
Definition addressMap : AddrMap :=
  mkMap (mkRange 58 64)
    (mkL1 (mkRange 44 58) (mkRange 28 31) (mkRange 25 28) (mkRange 22 25) (mkRange 19 22)
          (mkRange 18 19) (mkRange 0 18))
    (mkL2 (mkRange 44 58) (mkRange 28 31) (mkRange 25 28) (mkRange 0 25))
    (mkMain (mkRange 44 58) (mkRange 0 44)).

(** src/pando-rt/include/pando-rt/memory/address_map.hpp:46-52 [static_assert]s *)
Definition addressMap_asserts : bool :=
  range_eqb (l1_nodeIndex (l1sp addressMap)) (l2_nodeIndex (l2sp addressMap))
  && range_eqb (l1_nodeIndex (l1sp addressMap)) (main_nodeIndex (main addressMap))
  && (range_eqb (l1_podX (l1sp addressMap)) (l2_podX (l2sp addressMap))
      && range_eqb (l1_podY (l1sp addressMap)) (l2_podY (l2sp addressMap))).

(** src/pando-rt/include/pando-rt/memory/address_translation.hpp:30-32 [extractMemoryType] (PREP) *)
Definition extractMemoryType (addr : Z) : MemoryType :=
  memoryType_of_Z (readBits 64 addr (memoryType addressMap)).

(** src/pando-rt/include/pando-rt/memory/address_translation.hpp:59-61 [extractNodeIndex] (PREP) *)
Definition extractNodeIndex (addr : Z) : NodeIndex :=
  mkNode (i64 (readBits 64 addr (main_nodeIndex (main addressMap)))).

(** src/pando-rt/include/pando-rt/memory/address_translation.hpp:79-82 [extractPodIndex] (PREP) *)
Definition extractPodIndex (addr : Z) : PodIndex :=
  mkPod (i8 (readBits 64 addr (l1_podX (l1sp addressMap))))
        (i8 (readBits 64 addr (l1_podY (l1sp addressMap)))).

(** src/pando-rt/include/pando-rt/memory/address_translation.hpp:100-103 [extractCoreIndex] (PREP) *)
Definition extractCoreIndex (addr : Z) : CoreIndex :=
  mkCore (i8 (readBits 64 addr (l1_coreX (l1sp addressMap))))
         (i8 (readBits 64 addr (l1_coreY (l1sp addressMap)))).

(** src/pando-rt/include/pando-rt/memory/address_translation.hpp:121-123 [extractL1SPGlobalBit] (PREP) *)
Definition extractL1SPGlobalBit (addr : Z) : bool :=
  negb (readBits 64 addr (l1_global (l1sp addressMap)) =? 0).

(** src/pando-rt/include/pando-rt/memory/address_translation.hpp:143-158 [encodeL1SPAddress] (PREP); the
    signed index components convert to the unsigned mask type modulo 2^64 *)
Definition encodeL1SPAddress (nodeIdx : NodeIndex) (podIdx : PodIndex) (coreIdx : CoreIndex)
    (offset : Z) : Z :=
  let p := 0 in
  let p := Z.lor p (createMask 64 (memoryType addressMap) (memoryType_to_Z L1SP)) in
  let p := Z.lor p (createMask 64 (l1_nodeIndex (l1sp addressMap)) (u64 (node_id nodeIdx))) in
  let p := Z.lor p (createMask 64 (l1_podX (l1sp addressMap)) (u64 (pod_x podIdx))) in
  let p := Z.lor p (createMask 64 (l1_podY (l1sp addressMap)) (u64 (pod_y podIdx))) in
  let p := Z.lor p (createMask 64 (l1_coreX (l1sp addressMap)) (u64 (core_x coreIdx))) in
  let p := Z.lor p (createMask 64 (l1_coreY (l1sp addressMap)) (u64 (core_y coreIdx))) in
  let p := Z.lor p (createMask 64 (l1_global (l1sp addressMap)) 1) in
  let p := Z.lor p (createMask 64 (l1_offset (l1sp addressMap)) offset) in
  p.

(** src/pando-rt/include/pando-rt/memory/address_translation.hpp:188-200 [encodeL2SPAddress] (PREP) *)
Definition encodeL2SPAddress (nodeIdx : NodeIndex) (podIdx : PodIndex) (offset : Z) : Z :=
  let p := 0 in
  let p := Z.lor p (createMask 64 (memoryType addressMap) (memoryType_to_Z L2SP)) in
  let p := Z.lor p (createMask 64 (l2_nodeIndex (l2sp addressMap)) (u64 (node_id nodeIdx))) in
  let p := Z.lor p (createMask 64 (l2_podX (l2sp addressMap)) (u64 (pod_x podIdx))) in
  let p := Z.lor p (createMask 64 (l2_podY (l2sp addressMap)) (u64 (pod_y podIdx))) in
  let p := Z.lor p (createMask 64 (l2_offset (l2sp addressMap)) offset) in
  p.

(** src/pando-rt/include/pando-rt/memory/address_translation.hpp:227-236 [encodeMainAddress] (PREP) *)
Definition encodeMainAddress (nodeIdx : NodeIndex) (offset : Z) : Z :=
  let p := 0 in
  let p := Z.lor p (createMask 64 (memoryType addressMap) (memoryType_to_Z Main)) in
  let p := Z.lor p (createMask 64 (main_nodeIndex (main addressMap)) (u64 (node_id nodeIdx))) in
  let p := Z.lor p (createMask 64 (main_offset (main addressMap)) offset) in
  p.

(** Indices the address map can represent: 2^14 nodes, 8 by 8 pods, 8 by 8 cores. *)
Definition node_ok (n : NodeIndex) : Prop := inU 14 (node_id n).
Definition pod_ok (p : PodIndex) : Prop := inU 3 (pod_x p) /\ inU 3 (pod_y p).
Definition core_ok (c : CoreIndex) : Prop := inU 3 (core_x c) /\ inU 3 (core_y c).

Create Rewrite HintDb addressing.

Lemma createMask_u64 r v : proper 64 r -> createMask 64 r (u64 v) = createMask 64 r v.
Proof.
  intros Hr. rewrite <- (createMask_wrap 64 (u64 v) r), <- (createMask_wrap 64 v r) by done.
  f_equal. destruct Hr as (? & ? & ? & ?). apply Z.bits_inj'. intros i ?.
  rewrite !testbit_wrapU by lia.
  destruct (Z.ltb_spec i (hi r - lo r)), (Z.ltb_spec i 64); simpl; done || lia.
Qed.

#[export] Hint Rewrite readBits_0 readBits_lor readBits_createMask createMask_u64
  using (apply (bool_decide_unpack _); vm_compute; exact I) : addressing.
#[export] Hint Rewrite readBits_createMask_ne
  using (apply (bool_decide_unpack _); vm_compute; exact I) : addressing.

(** Read the fields of an encoded address back. *)
Ltac read_fields :=
  unfold encodeL1SPAddress, encodeL2SPAddress, encodeMainAddress, extractMemoryType,
    extractNodeIndex, extractPodIndex, extractCoreIndex, extractL1SPGlobalBit;
  cbv zeta; autorewrite with addressing; rewrite ?Z.lor_0_l, ?Z.lor_0_r;
  cbn [hi lo addressMap memoryType l1sp l2sp main l1_nodeIndex l1_podX l1_podY l1_coreX l1_coreY
       l1_global l1_offset l2_nodeIndex l2_podX l2_podY l2_offset main_nodeIndex main_offset].

Lemma field_id s w z : 1 <= w < s -> inU w z -> wrapS s (wrapU w z) = z.
Proof.
  intros ? Hz. rewrite (wrapU_id w z Hz). apply wrapS_id; [lia|].
  unfold inU, inS in *. pose proof (Z.pow_le_mono_r 2 w (s - 1)). lia.
Qed.

Lemma field_id14 z : inU 14 z -> i64 (wrapU (58 - 44) z) = z.
Proof. apply (field_id 64 14). lia. Qed.
Lemma field_id3 z : inU 3 z -> i8 (wrapU 3 z) = z.
Proof. apply (field_id 8 3). lia. Qed.

(** Close a field equation of a round trip. *)
Ltac close_fields :=
  repeat match goal with
    | H : node_ok ?n |- _ => unfold node_ok in H
    | H : pod_ok ?p |- _ => destruct H
    | H : core_ok ?p |- _ => destruct H
    | n : NodeIndex |- _ => destruct n
    | p : PodIndex |- _ => destruct p
    | c : CoreIndex |- _ => destruct c
    end;
  cbn [node_id pod_x pod_y core_x core_y] in *;
  split_and?; read_fields;
  rewrite ?field_id14 by done;
  try (f_equal; apply field_id3; done);
  try done.

Ltac mask_range :=
  repeat (apply inU_lor; [lia | |]); try (apply createMask_range; vm_compute; intuition congruence);
  vm_compute; intuition congruence.

Lemma encodeL1SP_range n p c off : inU 64 (encodeL1SPAddress n p c off).
Proof. unfold encodeL1SPAddress. cbv zeta. mask_range. Qed.
Lemma encodeL2SP_range n p off : inU 64 (encodeL2SPAddress n p off).
Proof. unfold encodeL2SPAddress. cbv zeta. mask_range. Qed.
Lemma encodeMain_range n off : inU 64 (encodeMainAddress n off).
Proof. unfold encodeMainAddress. cbv zeta. mask_range. Qed.

Lemma L1_fields n p c off : node_ok n -> pod_ok p -> core_ok c ->
  let a := encodeL1SPAddress n p c off in
  extractMemoryType a = L1SP /\ extractNodeIndex a = n /\ extractPodIndex a = p /\
  extractCoreIndex a = c /\ extractL1SPGlobalBit a = true /\
  readBits 64 a (l1_offset (l1sp addressMap)) = wrapU 18 off.
Proof. intros Hn Hp Hc a. subst a. close_fields. Qed.

Lemma L2_fields n p off : node_ok n -> pod_ok p ->
  let a := encodeL2SPAddress n p off in
  extractMemoryType a = L2SP /\ extractNodeIndex a = n /\ extractPodIndex a = p /\
  readBits 64 a (l2_offset (l2sp addressMap)) = wrapU 25 off.
Proof. intros Hn Hp a. subst a. close_fields. Qed.

Lemma Main_fields n off : node_ok n ->
  let a := encodeMainAddress n off in
  extractMemoryType a = Main /\ extractNodeIndex a = n /\
  readBits 64 a (main_offset (main addressMap)) = wrapU 44 off.
Proof. intros Hn a. subst a. close_fields. Qed.

Lemma createMask_cong r v v' : proper 64 r ->
  wrapU (hi r - lo r) v = wrapU (hi r - lo r) v' -> createMask 64 r v = createMask 64 r v'.
Proof. intros Hr E. by rewrite <- (createMask_wrap 64 v r), E, createMask_wrap. Qed.

Lemma encodeL1SP_offset n p c off off' : wrapU 18 off = wrapU 18 off' ->
  encodeL1SPAddress n p c off = encodeL1SPAddress n p c off'.
Proof. intros. unfold encodeL1SPAddress. cbv zeta. f_equal. by apply createMask_cong. Qed.
Lemma encodeL2SP_offset n p off off' : wrapU 25 off = wrapU 25 off' ->
  encodeL2SPAddress n p off = encodeL2SPAddress n p off'.
Proof. intros. unfold encodeL2SPAddress. cbv zeta. f_equal. by apply createMask_cong. Qed.
Lemma encodeMain_offset n off off' : wrapU 44 off = wrapU 44 off' ->
  encodeMainAddress n off = encodeMainAddress n off'.
Proof. intros. unfold encodeMainAddress. cbv zeta. f_equal. by apply createMask_cong. Qed.

(** An L1 scratchpad address built by [encodeL1SPAddress] from indices within the address map
    decodes to exactly those indices: memory type, node, pod, core, the global bit, and the low 18
    bits of the offset. *)
Theorem encodeL1SP_roundtrip n p c off :
  node_ok n -> pod_ok p -> core_ok c ->
  let a := encodeL1SPAddress n p c off in
  extractMemoryType a = L1SP /\ extractNodeIndex a = n /\ extractPodIndex a = p /\
  extractCoreIndex a = c /\ extractL1SPGlobalBit a = true /\
  readBits 64 a (l1_offset (l1sp addressMap)) = wrapU 18 off /\ inU 64 a.
Proof.
  intros Hn Hp Hc a. pose proof (encodeL1SP_range n p c off).
  destruct (L1_fields n p c off Hn Hp Hc) as (? & ? & ? & ? & ? & ?). done.
Qed.

Lemma encodeL1SP_roundtrip_witness :
  extractCoreIndex (encodeL1SPAddress (mkNode 5) (mkPod 1 0) (mkCore 7 3) 4096) = mkCore 7 3.
Proof.
  refine (proj1 (proj2 (proj2 (proj2
    (encodeL1SP_roundtrip (mkNode 5) (mkPod 1 0) (mkCore 7 3) 4096 _ _ _)))));
    vm_compute; intuition congruence.
Defined.

(** An L2 scratchpad address decodes to its memory type, node and pod, and keeps the low 25 bits
    of the offset; the main memory address keeps its node and the low 44 bits. *)
Theorem encodeL2SP_Main_roundtrip n p off :
  node_ok n -> pod_ok p ->
  (let a := encodeL2SPAddress n p off in
   extractMemoryType a = L2SP /\ extractNodeIndex a = n /\ extractPodIndex a = p /\
   readBits 64 a (l2_offset (l2sp addressMap)) = wrapU 25 off) /\
  (let a := encodeMainAddress n off in
   extractMemoryType a = Main /\ extractNodeIndex a = n /\
   readBits 64 a (main_offset (main addressMap)) = wrapU 44 off).
Proof. intros Hn Hp. split; [by apply L2_fields | by apply Main_fields]. Qed.

Lemma encodeL2SP_Main_roundtrip_witness :
  extractNodeIndex (encodeMainAddress (mkNode 9) 64) = mkNode 9.
Proof.
  refine (proj1 (proj2 (proj2 (encodeL2SP_Main_roundtrip (mkNode 9) (mkPod 0 0) 64 _ _))));
    vm_compute; intuition congruence.
Defined.

(** What an encoder keeps of an index: 14 bits of a node, 3 bits of each coordinate of a pod or core. *)
Definition node_field (n : NodeIndex) : NodeIndex := mkNode (wrapU 14 (node_id n)).
Definition pod_field (p : PodIndex) : PodIndex := mkPod (wrapU 3 (pod_x p)) (wrapU 3 (pod_y p)).
Definition core_field (c : CoreIndex) : CoreIndex := mkCore (wrapU 3 (core_x c)) (wrapU 3 (core_y c)).

Lemma node_field_ok n : node_ok (node_field n).
Proof. apply wrapU_range. lia. Qed.
Lemma pod_field_ok p : pod_ok (pod_field p).
Proof. split; apply wrapU_range; lia. Qed.
Lemma core_field_ok c : core_ok (core_field c).
Proof. split; apply wrapU_range; lia. Qed.

Lemma field_fixed w z : 0 <= w -> wrapU w z = z <-> inU w z.
Proof. intros Hw. split; [intros <-; by apply wrapU_range|apply wrapU_id]. Qed.
Lemma fields_fixed n p c : (node_field n = n <-> node_ok n) /\ (pod_field p = p <-> pod_ok p) /\ (core_field c = c <-> core_ok c).
Proof.
  destruct n as [n], p as [x y], c as [x' y']. unfold node_field, pod_field, core_field, node_ok, pod_ok, core_ok. cbn.
  rewrite <- !field_fixed by lia. split_and!; (split; [intros [=]; by split_and?|by intuition congruence]).
Qed.

Lemma createMask_field w r v : proper 64 r -> w = hi r - lo r -> createMask 64 r (u64 (wrapU w v)) = createMask 64 r (u64 v).
Proof. intros Hr ->. by rewrite !createMask_u64, createMask_wrap. Qed.

Lemma encodeL1SP_field n p c off : encodeL1SPAddress (node_field n) (pod_field p) (core_field c) off = encodeL1SPAddress n p c off.
Proof.
  unfold encodeL1SPAddress. cbv zeta. cbn [node_field pod_field core_field node_id pod_x pod_y core_x core_y].
  by rewrite !createMask_field by (apply (bool_decide_unpack _); vm_compute; exact I).
Qed.
Lemma encodeL2SP_field n p off : encodeL2SPAddress (node_field n) (pod_field p) off = encodeL2SPAddress n p off.
Proof.
  unfold encodeL2SPAddress. cbv zeta. cbn [node_field pod_field node_id pod_x pod_y].
  by rewrite !createMask_field by (apply (bool_decide_unpack _); vm_compute; exact I).
Qed.
Lemma encodeMain_field n off : encodeMainAddress (node_field n) off = encodeMainAddress n off.
Proof.
  unfold encodeMainAddress. cbv zeta. cbn [node_field node_id].
  by rewrite !createMask_field by (apply (bool_decide_unpack _); vm_compute; exact I).
Qed.

(** C32: for all indices and offsets, the three encoders produce addresses of different memories that differ, and none is the null address; two
    addresses of one memory are equal exactly when the indices agree on the bits the map keeps of them - 14 of a node, 3 of a coordinate of a pod or
    core - and the offsets on the bits the memory has.  So indices in the range of the map are told apart, as they are what is kept of them, and no
    other index is: [anyPod], for one, is encoded as the pod (7, 7). *)
Theorem encode_alias n p c off n' p' c' off' :
  (encodeL1SPAddress n p c off = encodeL1SPAddress n' p' c' off' <->
     node_field n = node_field n' /\ pod_field p = pod_field p' /\ core_field c = core_field c' /\ wrapU 18 off = wrapU 18 off') /\
  (encodeL2SPAddress n p off = encodeL2SPAddress n' p' off' <->
     node_field n = node_field n' /\ pod_field p = pod_field p' /\ wrapU 25 off = wrapU 25 off') /\
  (encodeMainAddress n off = encodeMainAddress n' off' <->
     node_field n = node_field n' /\ wrapU 44 off = wrapU 44 off') /\
  encodeL1SPAddress n p c off <> encodeL2SPAddress n' p' off' /\
  encodeL1SPAddress n p c off <> encodeMainAddress n' off' /\
  encodeL2SPAddress n p off <> encodeMainAddress n' off' /\
  encodeL1SPAddress n p c off <> 0 /\ encodeL2SPAddress n p off <> 0 /\ encodeMainAddress n off <> 0 /\
  ((node_field n = n <-> node_ok n) /\ (pod_field p = p <-> pod_ok p) /\ (core_field c = c <-> core_ok c)) /\
  pod_field anyPod = mkPod 7 7.
Proof.
  rewrite <- !(encodeL1SP_field n), <- !(encodeL1SP_field n'), <- !(encodeL2SP_field n), <- !(encodeL2SP_field n'), <- !(encodeMain_field n), <- !(encodeMain_field n').
  pose proof (fields_fixed n p c) as FX. revert FX.
  pose proof (node_field_ok n) as Hn. pose proof (pod_field_ok p) as Hp. pose proof (core_field_ok c) as Hc.
  pose proof (node_field_ok n') as Hn'. pose proof (pod_field_ok p') as Hp'. pose proof (core_field_ok c') as Hc'.
  set (fn := node_field n) in *. set (fp := pod_field p) in *. set (fc := core_field c) in *.
  set (fn' := node_field n') in *. set (fp' := pod_field p') in *. set (fc' := core_field c') in *.
  intros FX. clearbody fn fp fc fn' fp' fc'.
  destruct (L1_fields fn fp fc off Hn Hp Hc) as (T1 & N1 & P1 & C1 & G1 & O1).
  destruct (L1_fields fn' fp' fc' off' Hn' Hp' Hc') as (T1' & N1' & P1' & C1' & G1' & O1').
  destruct (L2_fields fn fp off Hn Hp) as (T2 & N2 & P2 & O2).
  destruct (L2_fields fn' fp' off' Hn' Hp') as (T2' & N2' & P2' & O2').
  destruct (Main_fields fn off Hn) as (T3 & N3 & O3).
  destruct (Main_fields fn' off' Hn') as (T3' & N3' & O3').
  split_and!; [| | |intros E; rewrite E, T2' in T1; discriminate T1|intros E; rewrite E, T3' in T1; discriminate T1|
    intros E; rewrite E, T3' in T2; discriminate T2|intros E; rewrite E in G1; vm_compute in G1; discriminate G1|
    intros E; rewrite E in T2; vm_compute in T2; discriminate T2|intros E; rewrite E in T3; vm_compute in T3; discriminate T3|
    exact (proj1 FX)|exact (proj1 (proj2 FX))|exact (proj2 (proj2 FX))|reflexivity].
  - split; [intros E; rewrite E in *; split_and!; congruence|].
    intros (-> & -> & -> & E). by apply encodeL1SP_offset.
  - split; [intros E; rewrite E in *; split_and!; congruence|].
    intros (-> & -> & E). by apply encodeL2SP_offset.
  - split; [intros E; rewrite E in *; split_and!; congruence|].
    intros (-> & E). by apply encodeMain_offset.
Qed.
End AddressMap.
