(* ===== verification/GlobalPtr.v ===== *)
(** * Global pointers and in-place mutexes

    Pointer arithmetic of [pando-rt/memory/global_ptr.hpp] over global addresses, the [align] function of
    [pando-rt/src/memory.cpp], compare-and-exchange as [pando-rt/src/atomic.cpp] implements it, and
    [detail::InplaceMutex] of [pando-rt/memory/common_memory_resource.hpp].  A pointer is
    its 64-bit address; [sz] is the size of the pointee. *)

From S2P Require Import Prelude.

Definition nullptr : Z := 0.

(** src/pando-rt/include/pando-rt/memory/global_ptr.hpp:256-258 [operator bool] *)
Definition ptr_bool (p : Z) : bool := negb (p =? nullptr).

(** src/pando-rt/include/pando-rt/memory/global_ptr.hpp:300-304 [operator+=] *)
Definition ptr_add (sz p n : Z) : Z := u64 (p + u64 (n * sz)).

(** src/pando-rt/include/pando-rt/memory/global_ptr.hpp:319-323 [operator-=] *)
Definition ptr_sub_n (sz p n : Z) : Z := u64 (p - u64 (n * sz)).

(** src/pando-rt/include/pando-rt/memory/global_ptr.hpp:514-517 [operator-]: an unsigned division, converted *)
Definition ptr_diff (sz x y : Z) : Z := i64 (u64 (x - y) / sz).

(** src/pando-rt/include/pando-rt/memory/global_ptr.hpp:522-525 [operator==] *)
Definition ptr_eqb (x y : Z) : bool := x =? y.
(** src/pando-rt/include/pando-rt/memory/global_ptr.hpp:534-537 [operator<] *)
Definition ptr_ltb (x y : Z) : bool := x <? y.
(** src/pando-rt/include/pando-rt/memory/global_ptr.hpp:552-555 [operator>=] *)
Definition ptr_geb (x y : Z) : bool := negb (ptr_ltb x y).

Lemma ptr_add_small sz p n : inU 64 (n * sz) -> inU 64 (p + n * sz) -> ptr_add sz p n = p + n * sz.
Proof. intros. unfold ptr_add. by rewrite (wrapU_id 64 (n * sz)), wrapU_id by done. Qed.

(** Pointer difference inverts pointer addition going forward, for any element size that divides
    the distance; going backward it is off: the difference of a pointer and its successor is
    [2^64/sz - 1] and not -1 for every element size [2^k] above one byte. *)
Theorem ptr_diff_spec p n k :
  inU 64 p -> 0 <= n -> 1 <= k < 64 -> p + n * 2 ^ k < 2 ^ 64 ->
  ptr_diff (2 ^ k) (ptr_add (2 ^ k) p n) p = n /\
  (0 < n -> ptr_diff (2 ^ k) p (ptr_add (2 ^ k) p n) = 2 ^ (64 - k) - n /\
            ptr_diff (2 ^ k) p (ptr_add (2 ^ k) p n) <> - n).
Proof.
  intros [Hp _] Hn Hk Hb. pose proof (pow2_pos k ltac:(lia)) as P.
  assert (E : 2 ^ 64 = 2 ^ (64 - k) * 2 ^ k) by (rewrite <- Z.pow_add_r by lia; f_equal; lia).
  assert (2 ^ (64 - k) <= 2 ^ 63) by (apply Z.pow_le_mono_r; lia).
  rewrite ptr_add_small by (unfold inU; nia).
  unfold ptr_diff. replace (p + n * 2 ^ k - p) with (n * 2 ^ k) by lia.
  assert (n < 2 ^ (64 - k)) by nia.
  rewrite (wrapU_id 64 (n * 2 ^ k)) by (unfold inU; nia). rewrite Z.div_mul by lia.
  split; [apply wrapS_id; [lia|]; unfold inS; lia|]. intros Hpos.
  replace (u64 (p - (p + n * 2 ^ k))) with ((2 ^ (64 - k) - n) * 2 ^ k).
  - rewrite Z.div_mul by lia. rewrite wrapS_id by (unfold inS; lia). lia.
  - unfold wrapU. apply Z.mod_unique with (q := -1); nia.
Qed.

Lemma ptr_diff_spec_witness : ptr_diff 8 4096 (ptr_add 8 4096 1) = 2 ^ 61 - 1.
Proof.
  refine (proj1 (proj2 (ptr_diff_spec 4096 1 3 _ _ _ _) _)); vm_compute; intuition congruence.
Defined.

(** src/pando-rt/src/memory.cpp:12-27 [align]; the result and the updated [ptr] and [space] *)
Definition align (alignment size ptr space : Z) : Z * Z * Z :=
  if space <? size then (nullptr, ptr, space) else
  let uIntPtr := ptr in
  let alignedUIntPtr := Z.land (u64 (u64 (uIntPtr - 1) + alignment)) (u64 (- alignment)) in
  let difference := u64 (alignedUIntPtr - uIntPtr) in
  if difference >? u64 (space - size) then (nullptr, ptr, space)
  else (alignedUIntPtr, alignedUIntPtr, u64 (space - difference)).

(** The smallest multiple of [a] at or above [p]. *)
Definition align_up (a p : Z) : Z := (p + a - 1) / a * a.

Lemma align_up_bounds a p : 0 < a -> p <= align_up a p < p + a.
Proof. intros. unfold align_up. pose proof (Z.div_mod (p + a - 1) a). pose proof (Z.mod_pos_bound (p + a - 1) a). nia. Qed.

Lemma align_up_multiple a p : 0 < a -> align_up a p mod a = 0.
Proof. intros. apply Z.mod_mul. lia. Qed.

Lemma land_neg_pow2 k x : 0 <= k < 64 -> inU 64 x -> Z.land x (u64 (- 2 ^ k)) = x / 2 ^ k * 2 ^ k.
Proof.
  intros Hk Hx. rewrite <- Z.shiftr_div_pow2, <- Z.shiftl_mul_pow2 by lia.
  assert (- 2 ^ k = Z.lnot (Z.ones k)) as ->.
  { rewrite Z.ones_equiv. unfold Z.lnot. lia. }
  apply Z.bits_inj'. intros i Hi.
  rewrite Z.land_spec, testbit_wrapU, Z.lnot_spec, testbit_ones, Z.shiftl_spec by lia.
  destruct (Z.leb_spec 0 i); [|lia]. destruct (Z.ltb_spec i k); simpl.
  - by rewrite andb_false_r, andb_false_r, Z.testbit_neg_r by lia.
  - rewrite Z.shiftr_spec by lia. replace (i - k + k) with i by lia.
    destruct (Z.ltb_spec i 64); simpl; rewrite ?andb_true_r; [done|].
    by rewrite (testbit_inU 64 x).
Qed.

(** What [align] does on a buffer that does not reach the end of the address space. *)
Lemma align_spec k size ptr space :
  0 <= k < 63 -> 0 < ptr -> 0 <= size -> 0 <= space -> ptr + space <= 2 ^ 63 ->
  align (2 ^ k) size ptr space =
    if align_up (2 ^ k) ptr + size <=? ptr + space
    then (align_up (2 ^ k) ptr, align_up (2 ^ k) ptr, space - (align_up (2 ^ k) ptr - ptr))
    else (nullptr, ptr, space).
Proof.
  intros Hk Hp Hs Hsp Hb. pose proof (pow2_pos k ltac:(lia)).
  assert (2 ^ k <= 2 ^ 62) by (apply Z.pow_le_mono_r; lia).
  pose proof (align_up_bounds (2 ^ k) ptr ltac:(lia)) as Hu.
  unfold align. destruct (Z.ltb_spec space size).
  { destruct (Z.leb_spec (align_up (2 ^ k) ptr + size) (ptr + space)); [lia|done]. }
  rewrite (wrapU_id 64 (ptr - 1)) by (unfold inU; lia).
  rewrite (wrapU_id 64 (ptr - 1 + 2 ^ k)) by (unfold inU; lia).
  rewrite land_neg_pow2 by (unfold inU; lia).
  replace ((ptr - 1 + 2 ^ k) / 2 ^ k * 2 ^ k) with (align_up (2 ^ k) ptr)
    by (unfold align_up; do 2 f_equal; lia).
  rewrite (wrapU_id 64 (_ - ptr)) by (unfold inU; lia).
  rewrite (wrapU_id 64 (space - size)) by (unfold inU; lia).
  rewrite Z.gtb_ltb. destruct (Z.ltb_spec (space - size) (align_up (2 ^ k) ptr - ptr)),
    (Z.leb_spec (align_up (2 ^ k) ptr + size) (ptr + space)); try lia; [done|].
  f_equal. apply wrapU_id. unfold inU. lia.
Qed.

Lemma align8_spec size ptr space :
  0 < ptr -> 0 <= size -> 0 <= space -> ptr + space <= 2 ^ 63 ->
  align 8 size ptr space =
    if align_up 8 ptr + size <=? ptr + space
    then (align_up 8 ptr, align_up 8 ptr, space - (align_up 8 ptr - ptr)) else (nullptr, ptr, space).
Proof. apply (align_spec 3). lia. Qed.

Lemma align_up_id a p : 0 < a -> p mod a = 0 -> align_up a p = p.
Proof.
  intros Ha M. unfold align_up. pose proof (Z.div_mod p a ltac:(lia)) as D.
  rewrite M, Z.add_0_r in D. rewrite D at 1.
  replace (a * (p / a) + a - 1) with (a - 1 + p / a * a) by lia.
  rewrite Z.div_add, (Z.div_small (a - 1)) by lia. lia.
Qed.

Lemma mod_add_same a p : 0 < a -> (p + a) mod a = p mod a.
Proof. intros. rewrite <- (Z.mul_1_l a) at 1. by rewrite Z.mod_add by lia. Qed.

(** src/pando-rt/src/atomic.cpp:197-250 [atomicCompareExchangeImpl]; whether the exchange happened, the
    value of [expected] afterwards, and the memory *)
Definition atomicCompareExchange (m : mem) (ptr expected desired : Z) : bool * Z * mem :=
  let old := load m ptr in
  if old =? expected then (true, expected, store m ptr desired) else (false, old, m).

(** ** In-place mutexes *)

Module InplaceMutex.

(** src/pando-rt/include/pando-rt/memory/common_memory_resource.hpp:21-21 [MutexState] *)
Definition isUnlocked : Z := 0.
Definition isLocked : Z := 1.

(** src/pando-rt/include/pando-rt/memory/common_memory_resource.hpp:36-43 [initialize]; the alignment
    test is compiled in debug builds only *)
Definition initialize (m : mem) (p : Z) : outcome mem :=
  let! _ := guard_or (p mod 8 =? 0) (Aborted "mutex corrupted") in
  Done (store m p isUnlocked).

(** src/pando-rt/include/pando-rt/memory/common_memory_resource.hpp:67-76 [tryLock] *)
Definition tryLock (m : mem) (p : Z) : outcome (bool * mem) :=
  let! _ := guard_or (p mod 8 =? 0) (Aborted "mutex corrupted") in
  let '(ok, _, m') := atomicCompareExchange m p isUnlocked isLocked in Done (ok, m').

(** src/pando-rt/include/pando-rt/memory/common_memory_resource.hpp:49-59 [lock]: one caller's view.  When no
    other hart releases the mutex the loop does not end, which [Undefined] reports. *)
Definition lock (m : mem) (p : Z) : outcome mem :=
  let! _ := guard_or (p mod 8 =? 0) (Aborted "mutex corrupted") in
  let! r := tryLock m p in
  if fst r then Done (snd r) else Failed (Undefined "lock: waits for another hart").

(** src/pando-rt/include/pando-rt/memory/common_memory_resource.hpp:83-90 [unlock] *)
Definition unlock (m : mem) (p : Z) : outcome mem :=
  let! _ := guard_or (p mod 8 =? 0) (Aborted "mutex corrupted") in
  Done (store m p isUnlocked).

Definition free (m : mem) (p : Z) : Prop := p mod 8 = 0 /\ load m p = isUnlocked.

Lemma lock_free m p : free m p -> lock m p = Done (store m p isLocked).
Proof.
  intros [Ha Hl]. unfold lock, tryLock, atomicCompareExchange. rewrite Ha, Hl. done.
Qed.

Lemma unlock_aligned m p : p mod 8 = 0 -> unlock m p = Done (store m p isUnlocked).
Proof. intros Ha. unfold unlock. rewrite Ha. done. Qed.

End InplaceMutex.
