(* ===== verification/Cells.v ===== *)
(** * Arrays at their addresses

    [pando-rt/containers/array.hpp] once more, for the structures that keep pointers into arrays: an array is the address of its first
    element and its size, an element is a cell at its address, and pointers are compared and subtracted as addresses.  The cells of one element
    type are a finite map; an access to an address that is no live element has no meaning. *)

From S2P Require Import Prelude GlobalPtr.

Module Cells.

(** src/pando-rt/include/pando-rt/containers/array.hpp:30-33 [Array] *)
Record Array := mkArray { m_data : Z; m_size : Z }.
Definition Array0 : Array := mkArray nullptr 0.

Section Cells.
Context {T : Type} (sz : Z).

Abbreviation cells := (gmap Z T).

(** The addresses of [n] elements from [p] on. *)
Definition addr (p : Z) (i : nat) : Z := p + sz * Z.of_nat i.

(** [*p], read and written. *)
Definition load_cell (m : cells) (p : Z) : outcome T :=
  match m !! p with Some v => Done v | None => Failed (Undefined "no element at this address") end.
Definition store_cell (m : cells) (p : Z) (v : T) : outcome cells :=
  match m !! p with Some _ => Done (<[p := v]> m) | None => Failed (Undefined "no element at this address") end.

(** src/pando-rt/include/pando-rt/containers/array.hpp:118-128 [operator[]]: the address of an element *)
Definition at_ (a : Array) (i : Z) : Z := ptr_add sz (m_data a) i.
Definition read (m : cells) (a : Array) (i : Z) : outcome T := load_cell m (at_ a i).
Definition write (m : cells) (a : Array) (i : Z) (v : T) : outcome cells := store_cell m (at_ a i) v.

(** src/pando-rt/include/pando-rt/containers/array.hpp:155-165 [begin] *)
Definition begin (a : Array) : Z := m_data a.
(** src/pando-rt/include/pando-rt/containers/array.hpp:167-177 [end] *)
Definition end_ (a : Array) : Z := ptr_add sz (m_data a) (m_size a).

(** Elements enter the map with what the memory held there, and leave it. *)
Fixpoint occupy (garbage : Z -> T) (m : cells) (p : Z) (n : nat) : cells :=
  match n with O => m | S n => <[p := garbage p]> (occupy garbage m (p + sz) n) end.
Fixpoint vacate (m : cells) (p : Z) (n : nat) : cells :=
  match n with O => m | S n => delete p (vacate m (p + sz) n) end.

(** src/pando-rt/include/pando-rt/containers/array.hpp:64-84 [initialize]; [answer] is that of [allocateMemory] *)
Definition initialize (garbage : Z -> T) (answer : Z + Status) (m : cells) (size : Z) : Status * cells * Array :=
  if size =? 0 then (Success, m, mkArray nullptr 0) else
  match answer with
  | inr error => (error, m, Array0)
  | inl p => (Success, occupy garbage m p (Z.to_nat size), mkArray p size)
  end.

(** src/pando-rt/include/pando-rt/containers/array.hpp:102-112 [deinitialize] *)
Definition deinitialize (m : cells) (a : Array) : cells * Array := (vacate m (m_data a) (Z.to_nat (m_size a)), Array0).

(** ** An array is a list *)

(** The elements of [a] are [l]: its cells hold them, and the whole of it is in the 64-bit address space. *)
Record holds (m : cells) (a : Array) (l : list T) : Prop := mkHolds {
  h_size : m_size a = Z.of_nat (length l);
  h_low : 0 <= m_data a;
  h_null : l = [] -> m_data a = 0;
  h_high : m_data a + sz * Z.of_nat (length l) < 2 ^ 63;
  h_cells : forall i v, l !! i = Some v -> m !! addr (m_data a) i = Some v }.

(** No address of an element of [a] is one of [b]. *)
Definition apart (a b : Array) : Prop := m_data a + sz * m_size a <= m_data b \/ m_data b + sz * m_size b <= m_data a.

Context (Hsz : 0 < sz).

Lemma addr_inj p i j : addr p i = addr p j -> i = j.
Proof. unfold addr. nia. Qed.
Lemma addr_S p i : addr p (S i) = addr (p + sz) i.
Proof. unfold addr. nia. Qed.
Lemma addr_0 p : addr p 0 = p.
Proof. unfold addr. nia. Qed.
Lemma addr_add p i j : addr (addr p i) j = addr p (i + j).
Proof. unfold addr. nia. Qed.

Lemma at_addr m a l i : holds m a l -> (i <= length l)%nat -> at_ a (Z.of_nat i) = addr (m_data a) i.
Proof.
  intros [S L _ H _] Hi. unfold at_, addr. rewrite ptr_add_small; [lia| |]; unfold inU; nia.
Qed.
Lemma end_addr m a l : holds m a l -> end_ a = addr (m_data a) (length l).
Proof. intros H. unfold end_. rewrite (h_size _ _ _ H). by apply (at_addr m a l (length l)). Qed.

Lemma cells_read m a l i v : holds m a l -> l !! i = Some v -> read m a (Z.of_nat i) = Done v.
Proof.
  intros H E. pose proof (lookup_lt_Some _ _ _ E). unfold read, load_cell. rewrite (at_addr m a l) by (done || lia).
  by rewrite (h_cells _ _ _ H i v E).
Qed.

Lemma cells_load m a l i v : holds m a l -> l !! i = Some v -> load_cell m (addr (m_data a) i) = Done v.
Proof. intros H E. unfold load_cell. by rewrite (h_cells _ _ _ H i v E). Qed.

Lemma cells_store m a l i v : holds m a l -> (i < length l)%nat ->
  exists m', store_cell m (addr (m_data a) i) v = Done m' /\ holds m' a (<[i := v]> l) /\
    forall b k, apart a b -> holds m b k -> holds m' b k.
Proof.
  intros H Hi. destruct (lookup_lt_is_Some_2 l i Hi) as [u E]. pose proof (h_cells _ _ _ H i u E) as C.
  unfold store_cell. rewrite C. eexists. split; [done|]. destruct H as [S L N0 B K]. split.
  - constructor; rewrite ?length_insert; try done; [intros ?%(f_equal length); rewrite length_insert in *; cbn in *; lia|]. intros j w Ej. destruct (decide (i = j)) as [<-|N].
    + rewrite list_lookup_insert_eq in Ej by lia. injection Ej as <-. by rewrite lookup_insert_eq.
    + rewrite list_lookup_insert_ne in Ej by done. rewrite lookup_insert_ne; [by apply K|]. by intros ?%addr_inj.
  - intros b k A [S' L' N' B' K']. constructor; try done. intros j w Ej. pose proof (lookup_lt_Some _ _ _ Ej).
    rewrite lookup_insert_ne; [by apply K'|]. unfold apart in A. rewrite S, S' in A. unfold addr. nia.
Qed.

Lemma cells_write m a l i v : holds m a l -> (i < length l)%nat ->
  exists m', write m a (Z.of_nat i) v = Done m' /\ holds m' a (<[i := v]> l) /\
    forall b k, apart a b -> holds m b k -> holds m' b k.
Proof. intros H Hi. unfold write. rewrite (at_addr m a l) by (done || lia). by apply cells_store. Qed.

(** ** Allocation *)

Definition junk (garbage : Z -> T) (p : Z) (n : nat) : list T := map (fun i => garbage (addr p i)) (seq 0 n).

Lemma occupy_in garbage m p n i : (i < n)%nat -> occupy garbage m p n !! addr p i = Some (garbage (addr p i)).
Proof.
  revert p i. induction n as [|n IH]; intros p [|i] Hi; [lia|lia| |]; cbn [occupy].
  - by rewrite addr_0, lookup_insert_eq.
  - rewrite addr_S. destruct (decide (p = addr (p + sz) i)) as [<-|N]; [by rewrite lookup_insert_eq|].
    rewrite lookup_insert_ne by done. apply IH. lia.
Qed.
Lemma occupy_out garbage m p n q : (forall i, (i < n)%nat -> q <> addr p i) -> occupy garbage m p n !! q = m !! q.
Proof.
  revert p. induction n as [|n IH]; intros p H; cbn [occupy]; [done|]. rewrite lookup_insert_ne.
  - apply IH. intros i Hi. rewrite <- addr_S. apply H. lia.
  - specialize (H 0%nat ltac:(lia)). rewrite addr_0 in H. congruence.
Qed.
Lemma vacate_in m p n i : (i < n)%nat -> vacate m p n !! addr p i = None.
Proof.
  revert p i. induction n as [|n IH]; intros p [|i] Hi; [lia|lia| |]; cbn [vacate].
  - by rewrite addr_0, lookup_delete_eq.
  - rewrite addr_S. apply lookup_delete_None. right. apply IH. lia.
Qed.
Lemma vacate_out m p n q : (forall i, (i < n)%nat -> q <> addr p i) -> vacate m p n !! q = m !! q.
Proof.
  revert p. induction n as [|n IH]; intros p H; cbn [vacate]; [done|]. rewrite lookup_delete_ne.
  - apply IH. intros i Hi. rewrite <- addr_S. apply H. lia.
  - specialize (H 0%nat ltac:(lia)). rewrite addr_0 in H. congruence.
Qed.

(** No live element overlaps the [n] elements from [p] on. *)
Definition fresh (m : cells) (p : Z) (n : nat) : Prop :=
  forall q, is_Some (m !! q) -> q + sz <= p \/ p + sz * Z.of_nat n <= q.

Lemma fresh_None m p n i : fresh m p n -> (i < n)%nat -> m !! addr p i = None.
Proof.
  intros F Hi. apply eq_None_not_Some. intros [H|H]%F; unfold addr in H; nia.
Qed.
Lemma fresh_out m p n q : fresh m p n -> is_Some (m !! q) -> forall i, (i < n)%nat -> q <> addr p i.
Proof. intros F S i Hi ->. rewrite (fresh_None m p n i F Hi) in S. by destruct S. Qed.

(** Giving back what was just obtained leaves the cells as they were. *)
Lemma vacate_occupy garbage m p n : fresh m p n -> vacate (occupy garbage m p n) p n = m.
Proof.
  intros F. apply map_eq. intros q. destruct (decide (Exists (fun i => q = addr p i) (seq 0 n))) as [E|E].
  - apply Exists_exists in E as (i & Hi%elem_of_seq & ->). rewrite vacate_in by lia. symmetry. apply (fresh_None m p n); [done|lia].
  - assert (O : forall i, (i < n)%nat -> q <> addr p i).
    { intros i Hi ->. apply E, Exists_exists. exists i. split; [apply elem_of_seq; lia|done]. }
    by rewrite vacate_out, occupy_out.
Qed.

(** What the memory resource promises for [n] elements. *)
Definition serves (m : cells) (n : Z) (answer : Z + Status) : Prop :=
  match answer with
  | inl p => 0 < p /\ p + sz * n < 2 ^ 63 /\ fresh m p (Z.to_nat n)
  | inr e => e <> Success
  end.

Lemma junk_lookup garbage p n i : (i < n)%nat -> junk garbage p n !! i = Some (garbage (addr p i)).
Proof. intros Hi. unfold junk. by rewrite list_lookup_fmap, lookup_seq_lt. Qed.
Lemma junk_length garbage p n : length (junk garbage p n) = n.
Proof. unfold junk. by rewrite length_map, length_seq. Qed.

(** A new array: it holds some elements, the arrays there were are untouched and apart from it, and freeing it undoes it. *)
Record obtained (m m' : cells) (size : Z) (a : Array) : Prop := mkObtained {
  o_size : m_size a = size;
  o_holds : exists l, length l = Z.to_nat size /\ holds m' a l;
  o_frame : forall b k, holds m b k -> holds m' b k;
  o_apart : forall b k, holds m b k -> apart b a;
  o_undo : fst (deinitialize m' a) = m }.

(** A live array is on one side of a fresh range. *)
Lemma fresh_apart m b k p n : holds m b k -> fresh m p n -> (0 < n)%nat -> 0 < p ->
  m_data b + sz * m_size b <= p \/ p + sz * Z.of_nat n <= m_data b.
Proof.
  intros H F Hn Hp. rewrite (h_size _ _ _ H). pose proof (h_low _ _ _ H).
  assert (E : forall j, (j < length k)%nat -> addr (m_data b) j + sz <= p \/ p + sz * Z.of_nat n <= addr (m_data b) j).
  { intros j Hj. destruct (lookup_lt_is_Some_2 k j Hj) as [v Ev]. apply F. exists v. by apply (h_cells _ _ _ H). }
  destruct k as [|v k]; [cbn in *|].
  { left. cbn. rewrite (h_null _ _ _ H eq_refl). lia. }
  destruct (E 0%nat ltac:(cbn; lia)) as [E0|E0]; [left|right; unfold addr in E0; lia].
  enough (A : forall j, (j < length (v :: k))%nat -> addr (m_data b) j + sz <= p).
  { specialize (A (length k) ltac:(cbn; lia)). unfold addr in A. cbn [length]. lia. }
  induction j as [|j IH]; intros Hj; [done|]. specialize (IH ltac:(lia)). destruct (E (S j) Hj) as [|R]; [done|].
  unfold addr in *. nia.
Qed.

Lemma cells_initialize garbage answer m size : 0 <= size -> serves m size answer ->
  let '(s, m', a) := initialize garbage answer m size in
  (s = Success /\ obtained m m' size a /\ (size = 0 \/ exists p, answer = inl p)) \/
  (answer = inr s /\ s <> Success /\ m' = m).
Proof.
  intros Hn S. unfold initialize. destruct (Z.eqb_spec size 0) as [->|N].
  - left. split; [done|]. split; [|by left]. constructor; cbn; try done.
    + exists []. split; [done|]. constructor; rewrite ?Z.mul_0_r; cbn; try done.
    + intros b k H. right. cbn [m_data m_size]. pose proof (h_low _ _ _ H). unfold nullptr. lia.
  - destruct answer as [p|e]; [left|right; done]. destruct S as (Hp & Hb & F). split; [done|]. split; [|right; by exists p].
    constructor; cbn; try done.
    + exists (junk garbage p (Z.to_nat size)). rewrite junk_length. split; [done|].
      constructor; cbn; rewrite ?junk_length; try lia; [intros E%(f_equal length); rewrite junk_length in E; cbn in E; lia|].
      intros i v Hi. pose proof (lookup_lt_Some _ _ _ Hi) as L. rewrite junk_length in L. rewrite junk_lookup in Hi by done.
      injection Hi as <-. by apply occupy_in.
    + intros b k H. constructor; try apply H. intros i v Hi. rewrite occupy_out; [by apply (h_cells _ _ _ H)|].
      apply (fresh_out m); [done|]. exists v. by apply (h_cells _ _ _ H).
    + intros b k H. unfold apart. cbn. pose proof (fresh_apart m b k p (Z.to_nat size) H F ltac:(lia) Hp). lia.
    + unfold deinitialize. cbn. by apply vacate_occupy.
Qed.
End Cells.

(** The highest address of a live element, for examples that allocate above everything else. *)
Definition top_of {T} (m : gmap Z T) : Z := foldr Z.max 0 (map fst (map_to_list m)).

Lemma top_of_nonneg {T} (m : gmap Z T) : 0 <= top_of m.
Proof. unfold top_of. induction (map fst (map_to_list m)); cbn; lia. Qed.
Lemma top_of_le {T} (m : gmap Z T) q : is_Some (m !! q) -> q <= top_of m.
Proof.
  intros [v H]. apply elem_of_map_to_list in H. unfold top_of. apply (list_elem_of_fmap_2 fst) in H. cbn in H. change (fst <$> map_to_list m) with (map fst (map_to_list m)) in H.
  induction H as [l|x y l H IH]; cbn; lia.
Qed.

End Cells.
