(* ===== verification/BumpResource.v ===== *)
(** * The bump memory resource

    [pando-rt/memory/bump_memory_resource.hpp]: a buffer whose first two words hold the current offset and
    the mutex, and whose rest is handed out from the bottom up.  The resource is a record
    of the pointers that live in registers; the offset and the mutex live in memory. *)

From S2P Require Import Prelude GlobalPtr.

Module Bump.

(** src/pando-rt/include/pando-rt/memory/bump_memory_resource.hpp:30-41 [BumpMemoryResource] *)
Record t := mk { m_buffer : Z; m_curOffset : Z; m_mutex : Z; m_capacity : Z }.

Section Resource.
(** [MinimumAlignment], a power of two. *)
Context (logAlign : Z).
Definition MinimumAlignment : Z := 2 ^ logAlign.

(** src/pando-rt/include/pando-rt/memory/bump_memory_resource.hpp:50-77 [BumpMemoryResource::BumpMemoryResource] *)
Definition construct (bufferStart bufferSize : Z) (m : mem) : outcome (t * mem) :=
  let voidCurrentStart := bufferStart in
  let capacity := bufferSize in
  let '(alignedCurrentStart, voidCurrentStart, capacity) := align 8 8 voidCurrentStart capacity in
  if ptr_eqb alignedCurrentStart nullptr
  then Failed (Aborted "Insufficient space to store metadata") else
  let curOffset := alignedCurrentStart in
  let capacity := u64 (capacity - 8) in
  let voidCurrentStart := ptr_add 1 voidCurrentStart 8 in
  let '(alignedCurrentStart, voidCurrentStart, capacity) := align 8 8 voidCurrentStart capacity in
  if ptr_eqb alignedCurrentStart nullptr
  then Failed (Aborted "Insufficient space to store metadata") else
  let mutex := alignedCurrentStart in
  let capacity := u64 (capacity - 8) in
  let buffer := ptr_add 1 voidCurrentStart 8 in
  let m := store m curOffset 0 in
  let! m := InplaceMutex.initialize m mutex in
  Done (mk buffer curOffset mutex capacity, m).

(** src/pando-rt/include/pando-rt/memory/bump_memory_resource.hpp:185-187 [getBase] *)
Definition getBase (b : t) : Z := m_buffer b.

(** src/pando-rt/include/pando-rt/memory/bump_memory_resource.hpp:93-112 [allocate] *)
Definition allocate (b : t) (bytes : Z) (m : mem) : outcome (Z * mem) :=
  let! m := InplaceMutex.lock m (m_mutex b) in
  let allocOffset := load m (m_curOffset b) in
  let allocBase := getBase b in
  let allocationPointer := ptr_add 1 allocBase allocOffset in
  let availableBytes := u64 (m_capacity b - allocOffset) in
  let '(alignedPointer, allocationPointer, availableBytes) :=
    align MinimumAlignment bytes allocationPointer availableBytes in
  let m := if negb (ptr_eqb alignedPointer nullptr)
           then store m (m_curOffset b) (u64 (u64 (m_capacity b - availableBytes) + bytes)) else m in
  let! m := InplaceMutex.unlock m (m_mutex b) in
  Done (alignedPointer, m).

(** src/pando-rt/include/pando-rt/memory/bump_memory_resource.hpp:119-121 [deallocate] *)
Definition deallocate (b : t) (p bytes : Z) (m : mem) : mem := m.

(** src/pando-rt/include/pando-rt/memory/bump_memory_resource.hpp:130-132 [operator==] *)
Definition eqb (b rhs : t) : bool := ptr_eqb (m_buffer b) (m_buffer rhs).

(** src/pando-rt/include/pando-rt/memory/bump_memory_resource.hpp:152-157 [pointerIsOwned] *)
Definition pointerIsOwned (b : t) (p : Z) : bool :=
  let bufferStart := m_buffer b in
  let bufferEnd := ptr_add 1 bufferStart (m_capacity b) in
  ptr_geb p bufferStart && ptr_ltb p bufferEnd.

(** src/pando-rt/include/pando-rt/memory/bump_memory_resource.hpp:166-168 [supportsFree] *)
Definition supportsFree : bool := false.

(** src/pando-rt/include/pando-rt/memory/bump_memory_resource.hpp:175-177 [computeMetadataSize] *)
Definition computeMetadataSize : Z := 8 + 8.

(** The buffer lies below 2^63, where every address of the runtime's address map lies. *)
Definition wf (b : t) (m : mem) : Prop :=
  0 < m_curOffset b /\ m_curOffset b + 8 <= m_mutex b /\ m_mutex b + 8 <= m_buffer b /\
  0 <= m_capacity b /\ m_buffer b + m_capacity b <= 2 ^ 63 /\
  InplaceMutex.free m (m_mutex b) /\ 0 <= load m (m_curOffset b) <= m_capacity b.

Definition used (b : t) (m : mem) : Z := load m (m_curOffset b).

(** The first aligned address at or above the end of what is in use. *)
Definition next (b : t) (m : mem) : Z := align_up MinimumAlignment (m_buffer b + used b m).

Context (Hal : 0 <= logAlign < 63).

Lemma align_pos : 0 < MinimumAlignment.
Proof. apply pow2_pos. lia. Qed.

Lemma next_bounds b m : m_buffer b + used b m <= next b m < m_buffer b + used b m + MinimumAlignment.
Proof. apply align_up_bounds, align_pos. Qed.

(** [allocate] in closed form. *)
Lemma allocate_eq b bytes m : wf b m -> 0 <= bytes <= 2 ^ 63 ->
  allocate b bytes m =
    if next b m + bytes <=? m_buffer b + m_capacity b
    then Done (next b m, store (store (store m (m_mutex b) 1)
                 (m_curOffset b) (next b m + bytes - m_buffer b)) (m_mutex b) 0)
    else Done (nullptr, store (store m (m_mutex b) 1) (m_mutex b) 0).
Proof.
  intros (H1 & H2 & H3 & H4 & H5 & Hm & H6) Hb. pose proof (next_bounds b m) as N.
  unfold allocate. rewrite InplaceMutex.lock_free by done. cbn [bindo].
  rewrite !load_store_ne by lia. fold (used b m) in *. unfold getBase.
  rewrite ptr_add_small by (unfold inU; lia). rewrite Z.mul_1_r.
  rewrite (wrapU_id 64 (m_capacity b - _)) by (unfold inU; lia).
  unfold MinimumAlignment. rewrite align_spec by lia.
  fold MinimumAlignment. fold (next b m).
  replace (m_buffer b + used b m + (m_capacity b - used b m)) with (m_buffer b + m_capacity b) by lia.
  destruct (Z.leb_spec (next b m + bytes) (m_buffer b + m_capacity b)); unfold ptr_eqb, nullptr.
  - destruct (Z.eqb_spec (next b m) 0); [lia|]. cbn [negb].
    rewrite InplaceMutex.unlock_aligned by apply Hm. cbn [bindo]. do 3 f_equal.
    rewrite (wrapU_id 64 (m_capacity b - _)) by (unfold inU; lia).
    rewrite wrapU_id by (unfold inU; lia). f_equal. lia.
  - rewrite Z.eqb_refl. cbn [negb]. rewrite InplaceMutex.unlock_aligned by apply Hm. done.
Qed.

(** The part of [allocate]'s contract the callers below share. *)
Lemma allocate_wf b bytes m : wf b m -> 0 <= bytes <= 2 ^ 63 ->
  let fits := next b m + bytes <=? m_buffer b + m_capacity b in
  exists p m', allocate b bytes m = Done (p, m') /\ wf b m' /\
    (forall a, a <> m_curOffset b -> a <> m_mutex b -> load m' a = load m a) /\
    p = (if fits then next b m else nullptr) /\
    used b m' = (if fits then next b m + bytes - m_buffer b else used b m).
Proof.
  intros W Hb fits. rewrite allocate_eq by done. pose proof (next_bounds b m) as N.
  pose proof W as (H1 & H2 & H3 & H4 & H5 & [Ha Hl] & H6). fold (used b m) in H6. unfold fits.
  destruct (Z.leb_spec (next b m + bytes) (m_buffer b + m_capacity b)); eexists _, _; split; try done.
  - assert (U : used b (store (store (store m (m_mutex b) 1) (m_curOffset b)
        (next b m + bytes - m_buffer b)) (m_mutex b) 0) = next b m + bytes - m_buffer b).
    { unfold used. by rewrite load_store_ne, load_store_eq by lia. }
    split_and!; [|intros; by rewrite !load_store_ne by done|done|done].
    unfold wf. fold (used b (store (store (store m (m_mutex b) 1) (m_curOffset b)
      (next b m + bytes - m_buffer b)) (m_mutex b) 0)). rewrite U.
    split_and!; try lia. split; [done|apply load_store_eq].
  - assert (U : used b (store (store m (m_mutex b) 1) (m_mutex b) 0) = used b m).
    { unfold used. by rewrite !load_store_ne by lia. }
    split_and!; [|intros; by rewrite !load_store_ne by done|done|done].
    unfold wf. fold (used b (store (store m (m_mutex b) 1) (m_mutex b) 0)). rewrite U.
    split_and!; try lia. split; [done|apply load_store_eq].
Qed.

(** From a well-formed bump resource [allocate] always returns.  It returns the first aligned
    address above the memory in use when the request fits, and then exactly the bytes up to the end of
    the request are in use; when it does not fit it returns null and nothing changes.  The resource
    stays well-formed, so no earlier allocation is handed out again. *)
Theorem bump_allocate_spec b bytes m : wf b m -> 0 <= bytes <= 2 ^ 63 ->
  exists p m', allocate b bytes m = Done (p, m') /\ wf b m' /\
    (next b m + bytes <= m_buffer b + m_capacity b ->
       p = next b m /\ p mod MinimumAlignment = 0 /\ m_buffer b + used b m <= p /\
       m_buffer b + used b m' = p + bytes /\ (0 < bytes -> pointerIsOwned b p = true)) /\
    (m_buffer b + m_capacity b < next b m + bytes ->
       p = nullptr /\ used b m' = used b m /\ forall a, load m' a = load m a).
Proof.
  intros W Hb. destruct (allocate_wf b bytes m W Hb) as (p & m' & E & W' & F & Ep & Eu).
  exists p, m'. split; [done|]. split; [done|]. pose proof (next_bounds b m) as N.
  pose proof W as (H1 & H2 & H3 & H4 & H5 & [Ha Hl] & H6). fold (used b m) in H6.
  split; intros Hf; destruct (Z.leb_spec (next b m + bytes) (m_buffer b + m_capacity b)); try lia; subst p.
  - rewrite Eu. split_and!; [done|apply align_up_multiple, align_pos|lia|lia|].
    intros. unfold pointerIsOwned, ptr_geb, ptr_ltb.
    rewrite ptr_add_small by (unfold inU; lia). rewrite Z.mul_1_r.
    destruct (Z.ltb_spec (next b m) (m_buffer b)); [lia|].
    destruct (Z.ltb_spec (next b m) (m_buffer b + m_capacity b)); [done|lia].
  - split_and!; [done|done|]. intros a.
    destruct (Z.eq_dec a (m_curOffset b)) as [->|]; [exact Eu|].
    destruct (Z.eq_dec a (m_mutex b)) as [->|]; [|by apply F].
    destruct W' as (_ & _ & _ & _ & _ & [_ Hl'] & _). congruence.
Qed.

(** A run of requests; the regions it handed out, latest first. *)
Fixpoint allocate_all (b : t) (reqs : list Z) (m : mem) : outcome (list (Z * Z) * mem) :=
  match reqs with
  | [] => Done ([], m)
  | bytes :: reqs =>
      let! (p, m) := allocate b bytes m in
      let! (rs, m) := allocate_all b reqs m in
      Done (if ptr_eqb p nullptr then rs else (p, bytes) :: rs, m)
  end.

(** Regions in ascending order inside [lo, hi), aligned, one ending before the next begins. *)
Fixpoint ascending (lo hi : Z) (rs : list (Z * Z)) : Prop :=
  match rs with
  | [] => lo <= hi
  | (p, n) :: rs => lo <= p /\ p mod MinimumAlignment = 0 /\ ascending (p + n) hi rs
  end.

(** Any run of allocations on a bump resource completes, and the regions it hands out are aligned,
    inside the buffer and pairwise disjoint, each beginning at or after the end of the one before. *)
Theorem allocate_all_disjoint b reqs m : wf b m -> Forall (fun n => 0 <= n <= 2 ^ 63) reqs ->
  exists rs m', allocate_all b reqs m = Done (rs, m') /\ wf b m' /\
    ascending (m_buffer b + used b m) (m_buffer b + m_capacity b) rs.
Proof.
  intros W F. revert m W. induction F as [|n reqs Hn F IH]; intros m W; cbn [allocate_all].
  { eexists _, _. split; [done|]. split; [done|]. destruct W as (? & ? & ? & ? & ? & ? & ?).
    cbn. unfold used. lia. }
  destruct (allocate_wf b n m W Hn) as (p & m1 & E & W1 & _ & Ep & Eu). rewrite E. cbn [bindo].
  destruct (IH m1 W1) as (rs & m2 & E2 & W2 & A). rewrite E2. cbn [bindo].
  eexists _, _. split; [done|]. split; [done|].
  pose proof W as (? & ? & ? & ? & ? & ? & ?). fold (used b m) in *. unfold ptr_eqb, nullptr.
  pose proof (next_bounds b m). subst p.
  destruct (Z.leb_spec (next b m + n) (m_buffer b + m_capacity b)).
  - destruct (Z.eqb_spec (next b m) 0); [lia|]. cbn [ascending]. split; [lia|].
    split; [apply align_up_multiple, align_pos|]. by replace (next b m + n) with (m_buffer b + used b m1) by lia.
  - rewrite Z.eqb_refl. by rewrite <- Eu.
Qed.

(** The constructor yields a well-formed resource with nothing in use. *)
Lemma construct_wf start size m :
  0 < start -> 0 <= size -> start + size <= 2 ^ 63 ->
  match construct start size m with
  | Done (b, m') => wf b m' /\ used b m' = 0 /\ start <= m_curOffset b /\
                    m_buffer b + m_capacity b = start + size /\ 16 <= size
  | Failed e => e = Aborted "Insufficient space to store metadata" /\ size < 23
  end.
Proof.
  intros Hs Hz Hb. unfold construct. rewrite align8_spec by lia.
  pose proof (align_up_bounds 8 start ltac:(lia)) as B1.
  pose proof (align_up_multiple 8 start ltac:(lia)) as M1.
  set (c := align_up 8 start) in *.
  destruct (Z.leb_spec (c + 8) (start + size)); unfold ptr_eqb, nullptr; [|cbn; split; [done|lia]].
  destruct (Z.eqb_spec c 0); [lia|].
  rewrite (wrapU_id 64 (size - (c - start) - 8)) by (unfold inU; lia).
  rewrite ptr_add_small, Z.mul_1_r by (unfold inU; lia).
  assert (M2 : (c + 8) mod 8 = 0) by (rewrite mod_add_same; lia).
  rewrite align8_spec, align_up_id by lia.
  destruct (Z.leb_spec (c + 8 + 8) (c + 8 + (size - (c - start) - 8))); [|cbn; split; [done|lia]].
  destruct (Z.eqb_spec (c + 8) 0); [lia|].
  rewrite (wrapU_id 64) by (unfold inU; lia). rewrite ptr_add_small, Z.mul_1_r by (unfold inU; lia).
  unfold InplaceMutex.initialize. rewrite M2. cbn -[Z.add Z.sub Z.mul Z.pow load].
  unfold wf, used, InplaceMutex.free. cbn [m_curOffset m_mutex m_buffer m_capacity].
  rewrite load_store_eq, load_store_ne, load_store_eq by lia.
  unfold InplaceMutex.isUnlocked. split_and!; lia || done.
Qed.
End Resource.

(** A 1 KiB resource at address 4096 with the offset at 0, as the constructor leaves it. *)
Definition example_resource : t := mk 4112 4096 4104 1008.
Definition example_mem : mem := store (store ∅ 4096 0) 4104 0.

Example bump_example_construct : construct 4096 1024 ∅ = Done (example_resource, example_mem).
Proof. vm_compute. reflexivity. Qed.

Lemma bump_example_wf : wf example_resource example_mem.
Proof. vm_compute. intuition congruence. Defined.

Lemma bump_allocate_spec_witness :
  exists p m', allocate 4 example_resource 24 example_mem = Done (p, m') /\ wf example_resource m'.
Proof.
  destruct (bump_allocate_spec 4 ltac:(lia) example_resource 24 example_mem bump_example_wf ltac:(lia))
    as (p & m' & E & W & _). exists p, m'. split; assumption.
Defined.

Lemma allocate_all_disjoint_witness :
  exists rs m', allocate_all 4 example_resource [24; 2000; 100] example_mem = Done (rs, m') /\
    ascending 4 4112 5120 rs.
Proof.
  destruct (allocate_all_disjoint 4 ltac:(lia) example_resource [24; 2000; 100] example_mem bump_example_wf)
    as (rs & m' & E & _ & A); [repeat constructor; discriminate|].
  exists rs, m'. split; [exact E | exact A].
Defined.
End Bump.
