(* ===== verification/SlabResource.v ===== *)
(** * The slab memory resource

    [pando-rt/memory/slab_memory_resource.hpp]: one lock slab, then bitmap slabs whose 64-bit words have a
    bit per user slab (set: in use), then the user slabs.  The operations are those one hart
    performs with no other hart inside the resource: a compare-and-exchange then
    succeeds on the value just loaded. *)

From S2P Require Import Prelude GlobalPtr.

Module Slab.

(** [__builtin_ffsll]: one plus the index of the least significant set bit, 0 for 0. *)
Definition builtin_ffsll (x : Z) : Z := if x =? 0 then 0 else Z.log2 (Z.land x (- x)) + 1.

(** src/pando-rt/include/pando-rt/memory/slab_memory_resource.hpp:34-38 [InitializationState] *)
Inductive InitializationState := Initialized | InProgress | Uninitialized.
(** src/pando-rt/include/pando-rt/memory/slab_memory_resource.hpp:72-74 [operator+] *)
Definition state_to_Z (s : InitializationState) : Z :=
  match s with Initialized => 0 | InProgress => 1 | Uninitialized => 2 end.

(** src/pando-rt/include/pando-rt/memory/slab_memory_resource.hpp:43-58 [SlabMemoryResource] *)
Record t := mk {
  m_buffer : Z; m_numUserSlabs : Z; m_capacity : Z; m_numBitmapSlabs : Z; m_numBitmaps : Z;
  m_initializationState : Z }.

(** src/pando-rt/include/pando-rt/memory/slab_memory_resource.hpp:60-67 [bitmapBits], [slabsPerBitmap],
    [fullBitmap], [emptyBitmap], [numLockSlabs] *)
Definition bitmapBits : Z := 64.
Definition slabsPerBitmap : Z := bitmapBits.
Definition fullBitmap : Z := 2 ^ 64 - 1.
Definition emptyBitmap : Z := 0.
Definition numLockSlabs : Z := 1.

(** src/pando-rt/include/pando-rt/memory/slab_memory_resource.hpp:278-280 [nextMultipleOf] *)
Definition nextMultipleOf (value multiple : Z) : Z := u64 (u64 (value + multiple) - 1) / multiple.

Section Resource.
Context (slabSize : Z).

(** src/pando-rt/include/pando-rt/memory/slab_memory_resource.hpp:85-123 [SlabMemoryResource::SlabMemoryResource] *)
Definition construct (bufferStart bufferSize : Z) (m : mem) : outcome (t * mem) :=
  let requiredAlignment := slabSize in
  let pointerSatisfyAlignment := bufferStart mod requiredAlignment =? 0 in
  if negb pointerSatisfyAlignment
  then Failed (Aborted "SlabMemoryResource must be aligned to slabSize boundary") else
  let totalNumSlabs := bufferSize / slabSize in
  if totalNumSlabs <? numLockSlabs + 2 then Failed (Aborted "Insufficient number of slabs") else
  let bitmapsPerSlab := slabSize / 8 in
  let totalNumSlabs := totalNumSlabs - numLockSlabs in
  let buffer := bufferStart in
  let initializationState := bufferStart in
  let m := store m initializationState (state_to_Z Uninitialized) in
  let lockSlabBytes := u64 (slabSize * numLockSlabs) in
  let buffer := ptr_add 8 buffer (lockSlabBytes / 8) in
  let bufferSize := u64 (bufferSize - lockSlabBytes) in
  let numUserSlabs :=
    u64 (u64 (totalNumSlabs * bitmapBits) * bitmapsPerSlab) / (bitmapBits * bitmapsPerSlab + 1) in
  let numBitmapSlabs := totalNumSlabs - numUserSlabs in
  let headerBytes := u64 (numBitmapSlabs * slabSize) in
  let capacity := u64 (bufferSize - headerBytes) in
  let numBitmaps := nextMultipleOf numUserSlabs bitmapBits in
  Done (mk buffer numUserSlabs capacity numBitmapSlabs numBitmaps initializationState, m).

(** src/pando-rt/include/pando-rt/memory/slab_memory_resource.hpp:323-326 [isUninitialized] *)
Definition isUninitialized (r : t) (m : mem) : bool :=
  negb (load m (m_initializationState r) =? state_to_Z Initialized).

(** Word [i] of the bitmaps. *)
Definition word_addr (r : t) (i : Z) : Z := ptr_add 8 (m_buffer r) i.

(** [for (i = from; i < to; i++) buffer[i] = v], [n] iterations left. *)
Fixpoint fill (r : t) (from : Z) (n : nat) (v : Z) (m : mem) : mem :=
  match n with
  | O => m
  | S n => fill r (from + 1) n v (store m (word_addr r from) v)
  end.

(** src/pando-rt/include/pando-rt/memory/slab_memory_resource.hpp:285-318 [initializeControlSlabs] *)
Definition initializeControlSlabs (r : t) (m : mem) : outcome mem :=
  let '(ok, _, m) := atomicCompareExchange m (m_initializationState r)
                       (state_to_Z Uninitialized) (state_to_Z InProgress) in
  if ok then
    let headerBytes := u64 (m_numBitmapSlabs r * slabSize) in
    let headerBitmaps := headerBytes / 8 in
    let m := fill r 0 (Z.to_nat (m_numBitmaps r)) emptyBitmap m in
    let m := fill r (m_numBitmaps r) (Z.to_nat (headerBitmaps - m_numBitmaps r)) fullBitmap m in
    let lastUsableBits := m_numUserSlabs r mod bitmapBits in
    let m := if negb (lastUsableBits =? 0)
             then let lastBitmap := notU 64 (u64 (shlU 64 1 lastUsableBits - 1)) in
                  store m (word_addr r (m_numBitmaps r - 1)) lastBitmap
             else m in
    Done (store m (m_initializationState r) (state_to_Z Initialized))
  else if isUninitialized r m then Failed (Undefined "initializeControlSlabs: waits for another hart")
  else Done m.

(** src/pando-rt/include/pando-rt/memory/slab_memory_resource.hpp:264-266 [getUserRegionStart] *)
Definition getUserRegionStart (r : t) : Z :=
  ptr_add 8 (m_buffer r) (u64 (m_numBitmapSlabs r * slabSize) / 8).

(** src/pando-rt/include/pando-rt/memory/slab_memory_resource.hpp:151-166 [allocate]'s inner loop: the slot
    taken in one bitmap word, if any; [fuel] bounds the compare-and-exchange attempts *)
Fixpoint takeSlot (fuel : nat) (bitmap expected : Z) (m : mem) : outcome (option Z * mem) :=
  if negb (expected =? fullBitmap) then
    match fuel with
    | O => Failed (Undefined "allocate: out of fuel")
    | S fuel =>
        let emptySlot := builtin_ffsll (notU 64 expected) - 1 in
        let mask := shlU 64 1 emptySlot in
        let desired := Z.lor expected mask in
        let '(success, expected, m) := atomicCompareExchange m bitmap expected desired in
        if success : bool then Done (Some emptySlot, m) else takeSlot fuel bitmap expected m
    end
  else Done (None, m).

(** src/pando-rt/include/pando-rt/memory/slab_memory_resource.hpp:142-169 [allocate]'s loop over the bitmaps;
    [n] of them are left *)
Fixpoint allocateFrom (r : t) (n : nat) (i : Z) (m : mem) : outcome (Z * mem) :=
  match n with
  | O => Done (nullptr, m)
  | S n =>
      let bitmap := word_addr r i in
      let expected := load m bitmap in
      let! (slot, m) := takeSlot 1 bitmap expected m in
      match slot with
      | Some emptySlot =>
          let slabOffset := u64 (u64 (emptySlot + u64 (i * slabsPerBitmap)) * slabSize) in
          Done (ptr_add 8 (getUserRegionStart r) (slabOffset / 8), m)
      | None => allocateFrom r n (i + 1) m
      end
  end.

(** src/pando-rt/include/pando-rt/memory/slab_memory_resource.hpp:133-170 [allocate] *)
Definition allocate (r : t) (bytes : Z) (m : mem) : outcome (Z * mem) :=
  let! m := (if isUninitialized r m then initializeControlSlabs r m else Done m) in
  if bytes >? slabSize then Done (nullptr, m)
  else allocateFrom r (Z.to_nat (m_numBitmaps r)) 0 m.

(** src/pando-rt/include/pando-rt/memory/slab_memory_resource.hpp:231-236 [pointerIsOwned]; the pointers are
    to 8-byte words *)
Definition pointerIsOwned (r : t) (p : Z) : bool :=
  let bufferStart := m_buffer r in
  let bufferEnd := ptr_add 8 bufferStart (m_capacity r) in
  ptr_geb p bufferStart && ptr_ltb p bufferEnd.

(** src/pando-rt/include/pando-rt/memory/slab_memory_resource.hpp:199-205 [deallocate]'s retry loop *)
Fixpoint clearSlot (fuel : nat) (bitmap mask expected : Z) (m : mem) : outcome mem :=
  match fuel with
  | O => Failed (Undefined "deallocate: out of fuel")
  | S fuel =>
      let desired := Z.land expected mask in
      let '(success, expected, m) := atomicCompareExchange m bitmap expected desired in
      if success : bool then Done m else clearSlot fuel bitmap mask expected m
  end.

(** src/pando-rt/include/pando-rt/memory/slab_memory_resource.hpp:176-206 [deallocate] *)
Definition deallocate (r : t) (p : Z) (m : mem) : outcome mem :=
  if ptr_eqb p nullptr || negb (pointerIsOwned r p) then Done m else
  let offset := ptr_diff 8 p (getUserRegionStart r) in
  let slabIndex := u64 (u64 offset * 8) / slabSize in
  let bitmapIndex := Z.quot (i64 slabIndex) slabsPerBitmap in
  let bmapRank := Z.rem (i64 slabIndex) slabsPerBitmap in
  let bitmap := ptr_add 8 (m_buffer r) bitmapIndex in
  let expected := load m bitmap in
  let mask := notU 64 (shlU 64 1 (u64 bmapRank)) in
  clearSlot 1 bitmap mask expected m.

(** src/pando-rt/include/pando-rt/memory/slab_memory_resource.hpp:216-218 [operator==] *)
Definition eqb (r rhs : t) : bool := ptr_eqb (m_buffer r) (m_buffer rhs).

(** src/pando-rt/include/pando-rt/memory/slab_memory_resource.hpp:245-247 [supportsFree] *)
Definition supportsFree : bool := true.

(** src/pando-rt/include/pando-rt/memory/slab_memory_resource.hpp:257-259 [bytesCapacity] *)
Definition bytesCapacity (r : t) : Z := m_capacity r.

(** The [static_assert]s on [slabSize]. *)
Definition slabSize_ok : Prop := 0 < slabSize <= 2 ^ 32 /\ slabSize mod 8 = 0.
End Resource.

(** ** Invariants *)

(** What the constructor establishes of the register part, for a buffer below 2^63. *)
Definition wf (slabSize : Z) (r : t) : Prop :=
  0 < m_initializationState r /\ m_buffer r = m_initializationState r + slabSize /\
  0 < m_numUserSlabs r /\ 0 < m_numBitmapSlabs r <= m_numUserSlabs r /\
  m_numBitmaps r = (m_numUserSlabs r + 63) / 64 /\
  m_numBitmaps r * 8 <= m_numBitmapSlabs r * slabSize /\
  m_numUserSlabs r * slabSize <= m_capacity r < (m_numUserSlabs r + 1) * slabSize /\
  m_buffer r + m_numBitmapSlabs r * slabSize + m_capacity r <= 2 ^ 60.

(** Whether slab [s] is marked in use. *)
Definition used (r : t) (m : mem) (s : Z) : bool :=
  Z.testbit (load m (word_addr r (s / 64))) (s mod 64).

(** The control slabs are initialized: the words are 64-bit values in which the bits past the last user
    slab are set. *)
Definition ready (r : t) (m : mem) : Prop :=
  load m (m_initializationState r) = 0 /\
  (forall i, 0 <= i < m_numBitmaps r -> inU 64 (load m (word_addr r i))) /\
  (forall s, m_numUserSlabs r <= s < m_numBitmaps r * 64 -> used r m s = true).

(** The address of user slab [s]. *)
Definition slab_addr (slabSize : Z) (r : t) (s : Z) : Z :=
  m_buffer r + m_numBitmapSlabs r * slabSize + s * slabSize.

(** ** Least set bits *)

Lemma odd_factor z : 0 < z -> exists k q, 0 <= k /\ 0 <= q /\ z = 2 ^ k * (2 * q + 1).
Proof.
  intros Hz. destruct z as [|p|p]; [lia| |lia]. clear Hz.
  induction p as [p _|p (k & q & Hk & Hq & E)|].
  - exists 0, (Z.pos p). lia.
  - exists (k + 1), q. split_and!; [lia|lia|]. rewrite Z.pow_add_r by lia. nia.
  - exists 0, 0. lia.
Qed.

Lemma builtin_ffsll_spec z : 0 < z ->
  0 <= builtin_ffsll z - 1 /\ Z.testbit z (builtin_ffsll z - 1) = true /\
  (forall i, 0 <= i < builtin_ffsll z - 1 -> Z.testbit z i = false).
Proof.
  intros Hz. destruct (odd_factor z Hz) as (k & q & Hk & Hq & E).
  assert (Eb : forall i, 0 <= i < k -> Z.testbit z i = false).
  { intros i Hi. rewrite E, Z.mul_comm. apply Z.mul_pow2_bits_low. lia. }
  assert (Ek : Z.testbit z k = true).
  { rewrite E, Z.mul_comm, Z.mul_pow2_bits, Z.sub_diag by lia. apply Z.testbit_odd_0. }
  assert (builtin_ffsll z - 1 = k) as ->; [|by split_and!].
  unfold builtin_ffsll. destruct (Z.eqb_spec z 0); [lia|].
  assert (Z.land z (- z) = 2 ^ k) as ->; [|rewrite Z.log2_pow2; lia].
  assert (- z = (2 * (- q - 1) + 1) * 2 ^ k) as -> by lia. rewrite E at 1.
  rewrite (Z.mul_comm (2 ^ k)), <- !Z.shiftl_mul_pow2, <- Z.shiftl_land by lia.
  assert (Z.land (2 * q + 1) (2 * (- q - 1) + 1) = 1) as ->.
  { apply Z.bits_inj'. intros i Hi. rewrite Z.land_spec. destruct (Z.eq_dec i 0) as [->|].
    - by rewrite !Z.testbit_odd_0.
    - replace i with (Z.succ (i - 1)) by lia. rewrite !Z.testbit_odd_succ by lia.
      replace (- q - 1) with (Z.lnot q) by (unfold Z.lnot; lia). rewrite Z.lnot_spec by lia.
      rewrite andb_negb_r. change 1 with (2 * 0 + 1). by rewrite Z.testbit_odd_succ, Z.bits_0 by lia. }
  rewrite Z.shiftl_1_l. done.
Qed.

(** The least clear bit of a word that is not full. *)
Lemma empty_slot e : inU 64 e -> e <> fullBitmap ->
  let s := builtin_ffsll (notU 64 e) - 1 in
  0 <= s < 64 /\ Z.testbit e s = false /\ (forall i, 0 <= i < s -> Z.testbit e i = true).
Proof.
  intros He Hf s. assert (Hn : inU 64 (notU 64 e)) by (apply wrapU_range; lia).
  assert (Hb : forall i, 0 <= i -> Z.testbit (notU 64 e) i = (i <? 64) && negb (Z.testbit e i)).
  { intros i Hi. unfold notU. by rewrite testbit_wrapU, Z.lnot_spec by lia. }
  assert (Hz : 0 < notU 64 e).
  { destruct (Z.eq_dec (notU 64 e) 0) as [E|]; [|unfold inU in Hn; lia]. exfalso. apply Hf.
    apply Z.bits_inj'. intros i Hi. specialize (Hb i Hi). rewrite E, Z.bits_0 in Hb.
    change fullBitmap with (Z.ones 64). rewrite testbit_ones by lia.
    destruct (Z.leb_spec 0 i); [|lia]. destruct (Z.ltb_spec i 64); cbn in *.
    - by destruct (Z.testbit e i).
    - by apply (testbit_inU 64). }
  destruct (builtin_ffsll_spec _ Hz) as (H0 & H1 & H2). fold s in H0, H1, H2.
  rewrite Hb in H1 by done. apply andb_true_iff in H1 as [L1 L2]. apply Z.ltb_lt in L1.
  split_and!; [lia|lia|by apply negb_true_iff|].
  intros i Hi. specialize (H2 i Hi). rewrite Hb in H2 by lia.
  destruct (Z.ltb_spec i 64); [|lia]. cbn in H2. by apply negb_false_iff.
Qed.

Lemma shlU_one s : 0 <= s < 64 -> shlU 64 1 s = 2 ^ s.
Proof.
  intros Hs. unfold shlU. rewrite Z.shiftl_1_l. apply wrapU_id. split; [lia|].
  apply Z.pow_lt_mono_r; lia.
Qed.

Lemma word_of_slot s i : i * 64 <= s < (i + 1) * 64 -> s / 64 = i.
Proof. intros. pose proof (Z.div_mod s 64). pose proof (Z.mod_pos_bound s 64). lia. Qed.

(** A whole number of slabs is a whole number of words. *)
Lemma slab_words slabSize n : slabSize_ok slabSize -> n * slabSize / 8 * 8 = n * slabSize.
Proof.
  intros [? H8]. rewrite Z.mul_comm. symmetry. apply Z_div_exact_full_2; [lia|].
  by rewrite Z.mul_mod, H8, Z.mul_0_r by lia.
Qed.

(** ** Allocation and deallocation *)

Section Correct.
Context (slabSize : Z) (Hsz : slabSize_ok slabSize) (r : t) (W : wf slabSize r).

Lemma word_addr_eq i : 0 <= i < m_numBitmaps r -> word_addr r i = m_buffer r + 8 * i.
Proof.
  intros Hi. destruct W as (? & ? & ? & ? & ? & ? & ? & ?), Hsz as [? _].
  unfold word_addr. rewrite ptr_add_small by (unfold inU; nia). lia.
Qed.

Lemma word_addr_inj i j : 0 <= i < m_numBitmaps r -> 0 <= j < m_numBitmaps r ->
  word_addr r i = word_addr r j -> i = j.
Proof. intros. rewrite !word_addr_eq in * by done. lia. Qed.

Lemma word_addr_init i : 0 <= i < m_numBitmaps r -> word_addr r i <> m_initializationState r.
Proof.
  intros Hi. rewrite word_addr_eq by done. destruct W as (? & ? & _), Hsz as [? _]. lia.
Qed.

Lemma getUserRegionStart_eq :
  getUserRegionStart slabSize r = m_buffer r + m_numBitmapSlabs r * slabSize.
Proof.
  destruct W as (? & ? & ? & ? & ? & ? & ? & ?), Hsz as [? H8].
  pose proof (slab_words slabSize (m_numBitmapSlabs r) Hsz) as E.
  unfold getUserRegionStart. rewrite (wrapU_id 64) by (unfold inU; nia).
  rewrite ptr_add_small by (unfold inU; nia). lia.
Qed.

Lemma user_word s : 0 <= s < m_numBitmaps r * 64 -> 0 <= s / 64 < m_numBitmaps r /\ 0 <= s mod 64 < 64.
Proof.
  intros. pose proof (Z.mod_pos_bound s 64 ltac:(lia)). split; [|lia].
  split; [apply Z.div_pos; lia | apply Z.div_lt_upper_bound; lia].
Qed.

Lemma user_slots s : 0 <= s < m_numUserSlabs r -> 0 <= s < m_numBitmaps r * 64.
Proof.
  intros. destruct W as (_ & _ & ? & _ & -> & _).
  pose proof (Z.div_mod (m_numUserSlabs r + 63) 64). pose proof (Z.mod_pos_bound (m_numUserSlabs r + 63) 64).
  lia.
Qed.

(** Writing one bit of one word. *)
Lemma used_store m s0 w b s :
  0 <= s0 < m_numBitmaps r * 64 -> 0 <= s < m_numBitmaps r * 64 ->
  (forall j, 0 <= j < 64 -> Z.testbit w j =
     if j =? s0 mod 64 then b else Z.testbit (load m (word_addr r (s0 / 64))) j) ->
  used r (store m (word_addr r (s0 / 64)) w) s = if s =? s0 then b else used r m s.
Proof.
  intros H0 Hs Hw. destruct (user_word s0 H0), (user_word s Hs). unfold used.
  rewrite load_store. case_decide as D.
  - apply word_addr_inj in D; [|done|done]. rewrite Hw by lia. rewrite D.
    pose proof (Z.div_mod s 64). pose proof (Z.div_mod s0 64).
    destruct (Z.eqb_spec (s mod 64) (s0 mod 64)), (Z.eqb_spec s s0); try lia; first [done | congruence].
  - destruct (Z.eqb_spec s s0) as [->|]; done.
Qed.

Lemma ready_store m s0 w b : ready r m -> 0 <= s0 < m_numUserSlabs r -> inU 64 w ->
  (forall j, 0 <= j < 64 -> Z.testbit w j =
     if j =? s0 mod 64 then b else Z.testbit (load m (word_addr r (s0 / 64))) j) ->
  ready r (store m (word_addr r (s0 / 64)) w).
Proof.
  intros (R1 & R2 & R3) H0 Hw Hb. pose proof (user_slots s0 H0) as U. destruct (user_word s0 U).
  split_and!.
  - rewrite load_store_ne; [done|by apply word_addr_init].
  - intros i Hi. rewrite load_store. case_decide; [done|auto].
  - intros s Hs. rewrite (used_store m s0 w b) by (lia || done).
    destruct (Z.eqb_spec s s0); [lia|auto].
Qed.

Lemma testbit_set e k j : 0 <= k -> Z.testbit (Z.lor e (2 ^ k)) j = if j =? k then true else Z.testbit e j.
Proof.
  intros Hk. rewrite Z.lor_spec, Z.pow2_bits_eqb by lia. rewrite Z.eqb_sym.
  by destruct (j =? k); rewrite ?orb_true_r, ?orb_false_r.
Qed.

Lemma takeSlot_eq a e m : inU 64 e -> load m a = e ->
  takeSlot 1 a e m =
    if e =? fullBitmap then Done (None, m) else
    let s := builtin_ffsll (notU 64 e) - 1 in Done (Some s, store m a (Z.lor e (2 ^ s))).
Proof.
  intros He Hl. unfold takeSlot, atomicCompareExchange. rewrite Hl.
  destruct (Z.eqb_spec e fullBitmap) as [->|N]; [done|]. cbn [negb].
  rewrite Z.eqb_refl. destruct (empty_slot e He N) as (? & _). by rewrite shlU_one.
Qed.

(** What [allocate] does: [s] is the least free slab. *)
Definition takes (m : mem) (p : Z) (m' : mem) : Prop :=
  exists s, 0 <= s < m_numUserSlabs r /\ used r m s = false /\
    (forall s', 0 <= s' < s -> used r m s' = true) /\
    p = slab_addr slabSize r s /\
    m' = store m (word_addr r (s / 64)) (Z.lor (load m (word_addr r (s / 64))) (2 ^ (s mod 64))).

Lemma allocateFrom_spec m n : ready r m -> forall i,
  0 <= i -> i + Z.of_nat n = m_numBitmaps r -> (forall s, 0 <= s < i * 64 -> used r m s = true) ->
  exists p m', allocateFrom slabSize r n i m = Done (p, m') /\
    (takes m p m' \/
     p = nullptr /\ m' = m /\ forall s, 0 <= s < m_numUserSlabs r -> used r m s = true).
Proof.
  intros R. induction n as [|n IH]; intros i Hi Hn Hu; cbn [allocateFrom].
  { eexists _, _. split; [done|]. right. split_and!; try done. intros s Hs. apply Hu.
    pose proof (user_slots s Hs). lia. }
  destruct R as (R1 & R2 & R3). rewrite takeSlot_eq by (try apply R2; lia || done).
  destruct (Z.eqb_spec (load m (word_addr r i)) fullBitmap) as [F|F]; cbn [bindo].
  - apply IH; [lia|lia|]. intros s Hs. destruct (Z.lt_ge_cases s (i * 64)); [apply Hu; lia|].
    unfold used. rewrite (word_of_slot s i) by lia.
    rewrite F. change fullBitmap with (Z.ones 64). rewrite testbit_ones by lia.
    pose proof (Z.mod_pos_bound s 64 ltac:(lia)).
    destruct (Z.leb_spec 0 (s mod 64)), (Z.ltb_spec (s mod 64) 64); try lia; done.
  - destruct (empty_slot _ (R2 i ltac:(lia)) F) as (K1 & K2 & K3).
    set (k := builtin_ffsll (notU 64 (load m (word_addr r i))) - 1) in *.
    assert (D1 : (k + i * 64) / 64 = i) by (rewrite Z.div_add, Z.div_small by lia; lia).
    assert (D2 : (k + i * 64) mod 64 = k) by (rewrite Z.mod_add, Z.mod_small by lia; lia).
    assert (Hlt : k + i * 64 < m_numUserSlabs r).
    { destruct (Z.lt_ge_cases (k + i * 64) (m_numUserSlabs r)); [done|].
      specialize (R3 (k + i * 64) ltac:(lia)). unfold used in R3. rewrite D1, D2 in R3. congruence. }
    destruct W as (? & ? & ? & ? & ? & ? & ? & ?), Hsz as [? H8].
    eexists _, _. split; [reflexivity|]. left. exists (k + i * 64). split_and!.
    + lia.
    + lia.
    + unfold used. by rewrite D1, D2.
    + intros s' Hs'. destruct (Z.lt_ge_cases s' (i * 64)); [apply Hu; lia|]. unfold used.
      rewrite (word_of_slot s' i) by lia.
      rewrite Z.mod_eq by lia.
      rewrite (word_of_slot s' i) by lia.
      apply K3. lia.
    + rewrite getUserRegionStart_eq. unfold slab_addr, slabsPerBitmap, bitmapBits.
      rewrite (wrapU_id 64 (i * 64)) by (unfold inU; nia).
      rewrite (wrapU_id 64 (k + i * 64)) by (unfold inU; nia).
      rewrite (wrapU_id 64) by (unfold inU; nia).
      pose proof (slab_words slabSize (k + i * 64) Hsz) as E.
      rewrite ptr_add_small; unfold inU; rewrite ?E; nia.
    + by rewrite D1, D2.
Qed.

Lemma allocate_ready m bytes : ready r m ->
  allocate slabSize r bytes m = if bytes >? slabSize then Done (nullptr, m)
    else allocateFrom slabSize r (Z.to_nat (m_numBitmaps r)) 0 m.
Proof. intros (R1 & _). unfold allocate, isUninitialized. by rewrite R1. Qed.

Lemma takes_ready m p m' : ready r m -> takes m p m' ->
  ready r m' /\ exists s, p = slab_addr slabSize r s /\ forall s', 0 <= s' < m_numUserSlabs r ->
    used r m' s' = (s' =? s) || used r m s'.
Proof.
  intros R (s & Hs & _ & _ & Hp & ->). pose proof (user_slots s Hs) as U.
  destruct (user_word s U) as [U1 U2]. split.
  - apply ready_store with true; [done|done| |intros; apply testbit_set; lia].
    destruct R as (_ & R2 & _). apply inU_lor; [lia|auto|]. split; [lia|apply Z.pow_lt_mono_r; lia].
  - exists s. split; [done|]. intros s' Hs'. rewrite (used_store m s _ true); [by destruct (s' =? s)|done| |].
    + by apply user_slots.
    + intros. apply testbit_set. lia.
Qed.

(** From an initialized slab resource [allocate] always returns.  A request that fits a slab gets
    the least free slab, whose bit becomes the only one that changes, or a null pointer and an
    unchanged memory when every slab is in use; a larger request gets a null pointer. *)
Theorem slab_allocate_spec m bytes : ready r m -> exists p m', allocate slabSize r bytes m = Done (p, m') /\
  ready r m' /\
  ((bytes <= slabSize /\ takes m p m' /\
    exists s, p = slab_addr slabSize r s /\ forall s', 0 <= s' < m_numUserSlabs r ->
      used r m' s' = (s' =? s) || used r m s') \/
   (p = nullptr /\ m' = m /\
     (slabSize < bytes \/ forall s, 0 <= s < m_numUserSlabs r -> used r m s = true))).
Proof.
  intros R. rewrite allocate_ready, Z.gtb_ltb by done. destruct (Z.ltb_spec slabSize bytes).
  { exists nullptr, m. eauto 7. }
  destruct (allocateFrom_spec m (Z.to_nat (m_numBitmaps r)) R 0) as (p & m' & E & T); [lia| |lia|].
  { destruct W as (_ & _ & ? & _ & -> & _). rewrite Z2Nat.id; [done|]. apply Z.div_pos; lia. }
  exists p, m'. split; [done|]. destruct T as [T|(-> & -> & A)]; [|eauto 7].
  destruct (takes_ready m p m' R T) as [R' U]. split; [done|]. left. by split_and!.
Qed.

(** [deallocate] in closed form, for every slab address [pointerIsOwned] accepts. *)
Lemma deallocate_eq m s : 0 <= s -> slab_addr slabSize r s < m_buffer r + 8 * m_capacity r ->
  let a := m_buffer r + 8 * (s / 64) in
  pointerIsOwned r (slab_addr slabSize r s) = true /\
  deallocate slabSize r (slab_addr slabSize r s) m =
    Done (store m a (Z.land (load m a) (notU 64 (2 ^ (s mod 64))))).
Proof.
  intros Hs Hlt. pose proof W as (? & ? & ? & ? & ? & ? & ? & ?). pose proof Hsz as [? H8].
  unfold slab_addr in *. assert (s * slabSize < 2 ^ 63) by lia.
  assert (O : pointerIsOwned r (m_buffer r + m_numBitmapSlabs r * slabSize + s * slabSize) = true).
  { unfold pointerIsOwned, ptr_geb, ptr_ltb. rewrite ptr_add_small by (unfold inU; nia).
    apply andb_true_iff. rewrite negb_true_iff, Z.ltb_ge, Z.ltb_lt. nia. }
  split; [done|]. unfold deallocate. rewrite O, getUserRegionStart_eq.
  unfold ptr_eqb, nullptr, ptr_diff.
  destruct (Z.eqb_spec (m_buffer r + m_numBitmapSlabs r * slabSize + s * slabSize) 0); [nia|]. cbn [orb negb].
  replace (m_buffer r + m_numBitmapSlabs r * slabSize + s * slabSize -
    (m_buffer r + m_numBitmapSlabs r * slabSize)) with (s * slabSize) by lia.
  pose proof (slab_words slabSize s Hsz) as E8.
  rewrite (wrapU_id 64 (s * slabSize)) by (unfold inU; nia).
  rewrite (wrapS_id 64 (s * slabSize / 8)) by (unfold inS; nia).
  rewrite (wrapU_id 64 (s * slabSize / 8)), E8 by (unfold inU; nia).
  rewrite (wrapU_id 64) by (unfold inU; nia). rewrite Z.div_mul by lia.
  rewrite (wrapS_id 64 s) by (unfold inS; nia).
  change slabsPerBitmap with 64. rewrite Z.quot_div_nonneg, Z.rem_mod_nonneg by lia.
  pose proof (Z.mod_pos_bound s 64 ltac:(lia)). pose proof (Z.div_mod s 64 ltac:(lia)).
  rewrite (wrapU_id 64 (s mod 64)) by (unfold inU; lia). rewrite shlU_one by lia.
  assert (8 <= slabSize) by (pose proof (Z.div_mod slabSize 8); lia).
  assert (s * 8 <= s * slabSize) by (apply Z.mul_le_mono_nonneg_l; lia).
  rewrite ptr_add_small by (unfold inU; lia). rewrite (Z.mul_comm (s / 64)).
  unfold clearSlot, atomicCompareExchange. by rewrite Z.eqb_refl.
Qed.

Lemma testbit_clear w k j : 0 <= k < 64 -> 0 <= j < 64 ->
  Z.testbit (Z.land w (notU 64 (2 ^ k))) j = if j =? k then false else Z.testbit w j.
Proof.
  intros Hk Hj. unfold notU. rewrite Z.land_spec, testbit_wrapU, Z.lnot_spec, Z.pow2_bits_eqb by lia.
  rewrite (Z.eqb_sym k). destruct (Z.ltb_spec j 64); [|lia].
  by destruct (j =? k); rewrite ?andb_true_r, ?andb_false_r.
Qed.

Lemma user_addr s : 0 <= s < m_numUserSlabs r -> slab_addr slabSize r s < m_buffer r + 8 * m_capacity r.
Proof. intros. destruct W as (? & ? & ? & ? & ? & ? & ? & ?), Hsz as [? H8]. unfold slab_addr. nia. Qed.

(** [deallocate] of a slab's address returns, clears that slab's bit and no other, and keeps the resource
    initialized. *)
Theorem slab_deallocate_spec m s : ready r m -> 0 <= s < m_numUserSlabs r ->
  exists m', deallocate slabSize r (slab_addr slabSize r s) m = Done m' /\ ready r m' /\
    (forall s', 0 <= s' < m_numUserSlabs r -> used r m' s' = negb (s' =? s) && used r m s') /\
    (forall a, a <> word_addr r (s / 64) -> load m' a = load m a).
Proof.
  intros R Hs. pose proof (user_slots s Hs) as U. destruct (user_word s U) as [U1 U2].
  destruct (deallocate_eq m s) as [_ E]; [lia|by apply user_addr|]. rewrite <- word_addr_eq in E by done.
  eexists. split; [exact E|]. split_and!; [| |intros; by rewrite load_store_ne].
  - apply ready_store with false; [done|done| |intros; by apply testbit_clear]. destruct R as (_ & R2 & _).
    apply inU_land; [lia| |by apply R2]. apply wrapU_range; lia.
  - intros s' Hs'. rewrite (used_store m s _ false); [by destruct (s' =? s)|done| |intros; by apply testbit_clear].
    by apply user_slots.
Qed.

(** An allocation followed by the deallocation of its result leaves every word of memory as it was. *)
Theorem allocate_deallocate m bytes p m1 : ready r m -> allocate slabSize r bytes m = Done (p, m1) ->
  p <> nullptr ->
  exists m2, deallocate slabSize r p m1 = Done m2 /\ forall a, load m2 a = load m a.
Proof.
  intros R E Hp. rewrite allocate_ready in E by done.
  destruct (bytes >? slabSize); [injection E as <- <-; done|].
  destruct (allocateFrom_spec m (Z.to_nat (m_numBitmaps r)) R 0) as (p' & m' & E' & T); [lia| |lia|].
  { destruct W as (_ & _ & ? & _ & -> & _). rewrite Z2Nat.id; [done|]. apply Z.div_pos; lia. }
  rewrite E in E'. injection E' as <- <-. destruct T as [T|(-> & _)]; [|done].
  destruct T as (s & Hs & Hf & _ & -> & ->). pose proof (user_slots s Hs) as U.
  destruct (user_word s U) as [U1 U2].
  edestruct (deallocate_eq) as [_ D]; [apply Hs|by apply user_addr|]. rewrite <- word_addr_eq in D by done.
  eexists. split; [exact D|]. intros a. rewrite store_store, load_store_eq, load_store.
  case_decide as Ea; [|done]. subst a. apply Z.bits_inj'. intros j Hj.
  destruct R as (_ & R2 & _). specialize (R2 _ U1). destruct (Z.lt_ge_cases j 64).
  - rewrite testbit_clear, testbit_set by lia. destruct (Z.eqb_spec j (s mod 64)) as [->|]; [|done]. done.
  - rewrite (testbit_inU 64 (load m _)), Z.land_spec by done.
    rewrite (testbit_inU 64 (Z.lor _ _)); [done| |done]. apply inU_lor; [lia|done|].
    split; [lia|apply Z.pow_lt_mono_r; lia].
Qed.

(** [pointerIsOwned] adds a byte count to a pointer to words, and so also accepts addresses past the end of
    the resource; [deallocate] of such an address (as a chain of resources issues it) succeeds and clears a bit
    of a word inside the user slabs. *)
Lemma deallocate_foreign m s :
  m_numUserSlabs r <= s -> m_numBitmapSlabs r * slabSize * 8 <= s ->
  slab_addr slabSize r s < m_buffer r + 8 * m_capacity r ->
  exists a, slab_addr slabSize r 0 <= a < slab_addr slabSize r (m_numUserSlabs r) /\
    slab_addr slabSize r (m_numUserSlabs r) <= slab_addr slabSize r s /\
    pointerIsOwned r (slab_addr slabSize r s) = true /\
    deallocate slabSize r (slab_addr slabSize r s) m =
      Done (store m a (Z.land (load m a) (notU 64 (2 ^ (s mod 64))))).
Proof.
  intros Hu Hh Hlt. pose proof W as (? & ? & ? & ? & ? & ? & ? & ?). pose proof Hsz as [? H8].
  destruct (deallocate_eq m s) as [O D]; [lia|done|].
  exists (m_buffer r + 8 * (s / 64)). split_and!; [| |unfold slab_addr; apply Z.add_le_mono_l, Z.mul_le_mono_nonneg_r; lia|done|done].
  - unfold slab_addr. pose proof (slab_words slabSize (m_numBitmapSlabs r) Hsz) as E.
    assert (m_numBitmapSlabs r * slabSize / 8 <= s / 64); [|lia].
    apply Z.div_le_lower_bound; lia.
  - unfold slab_addr in *. pose proof (Z.div_mod s 64 ltac:(lia)). pose proof (Z.mod_pos_bound s 64 ltac:(lia)).
    assert (s * slabSize < 8 * (m_numUserSlabs r + 1) * slabSize) by lia.
    assert (s < 8 * (m_numUserSlabs r + 1)) by (apply Z.mul_lt_mono_pos_r with slabSize; lia).
    assert (m_numUserSlabs r * 1 <= m_numUserSlabs r * slabSize) by (apply Z.mul_le_mono_nonneg_l; lia).
    assert (0 < m_numBitmapSlabs r * slabSize) by (apply Z.mul_pos_pos; lia). lia.
Qed.
End Correct.

(** ** Construction and initialization *)

Lemma slab_split t k : 2 <= t -> 64 <= k ->
  let u := t * k / (k + 1) in 0 < u /\ 0 < t - u <= u /\ u <= k * (t - u).
Proof.
  intros Ht Hk u. pose proof (Z.div_mod (t * k) (k + 1) ltac:(lia)) as D. fold u in D.
  pose proof (Z.mod_pos_bound (t * k) (k + 1) ltac:(lia)) as B.
  assert (0 < u) by nia. assert (u <= k * (t - u)) by nia. assert (0 < t - u) by nia.
  split_and!; [done|done| |done]. destruct (Z.eq_dec (t - u) 1); nia.
Qed.

(** On an aligned buffer of at least three slabs below 2^60 the constructor succeeds; the header it lays
    out has a bit for every user slab, and lock slab, header and user slabs fit the buffer. *)
Theorem slab_construct_spec slabSize start size m :
  slabSize_ok slabSize -> 0 < start -> start mod slabSize = 0 -> 3 <= size / slabSize ->
  start + size <= 2 ^ 60 ->
  exists r, construct slabSize start size m = Done (r, store m start 2) /\ wf slabSize r /\
    m_initializationState r = start /\
    slab_addr slabSize r (m_numUserSlabs r) <= start + size.
Proof.
  intros [Hsz H8] Hs Ha Hn Hb. unfold construct. rewrite Ha. cbn [Z.eqb negb].
  unfold numLockSlabs, bitmapBits. destruct (Z.ltb_spec (size / slabSize) (1 + 2)); [lia|].
  assert (E8 : slabSize / 8 * 8 = slabSize).
  { rewrite Z.mul_comm. symmetry. apply Z_div_exact_full_2; lia. }
  pose proof (Z.mul_div_le size slabSize ltac:(lia)) as Hle.
  set (t := size / slabSize - 1) in *. set (k := 64 * (slabSize / 8)).
  assert (Et : size / slabSize = t + 1) by lia. rewrite Et in *.
  assert (8 <= slabSize) by (pose proof (Z.div_mod slabSize 8); lia).
  destruct (slab_split t k) as (U1 & U2 & U3); [lia|lia|].
  rewrite (wrapU_id 64 (slabSize * 1)) by (unfold inU; lia). rewrite Z.mul_1_r.
  rewrite (wrapU_id 64 (t * 64)), (wrapU_id 64 (t * 64 * _)) by (unfold inU; nia).
  replace (t * 64 * (slabSize / 8)) with (t * k) by lia. fold k.
  set (u := t * k / (k + 1)) in *.
  rewrite ptr_add_small, E8 by (unfold inU; nia).
  rewrite (wrapU_id 64 (size - slabSize)) by (unfold inU; nia).
  rewrite (wrapU_id 64 ((t - u) * slabSize)) by (unfold inU; nia).
  rewrite (wrapU_id 64 (size - slabSize - _)) by (unfold inU; nia).
  unfold nextMultipleOf.
  rewrite (wrapU_id 64 (u + 64)), (wrapU_id 64 (u + 64 - 1)) by (unfold inU; nia).
  eexists. split; [reflexivity|].
  assert (Hk : k = 8 * slabSize) by lia.
  unfold wf, slab_addr; cbn [m_buffer m_numUserSlabs m_capacity m_numBitmapSlabs m_numBitmaps
    m_initializationState].
  replace (u + 64 - 1) with (u + 63) by lia.
  pose proof (Z.div_mod (u + 63) 64 ltac:(lia)). pose proof (Z.mod_pos_bound (u + 63) 64 ltac:(lia)).
  assert (u <= 64 * (slabSize / 8 * (t - u))) by (rewrite Hk in U3; lia).
  assert ((u + 63) / 64 * 8 <= slabSize / 8 * (t - u) * 8) by lia.
  pose proof (Z.mul_succ_div_gt size slabSize ltac:(lia)) as Hgt. rewrite Et in Hgt.
  split_and!; lia.
Qed.

Section Init.
Context (slabSize : Z) (Hsz : slabSize_ok slabSize) (r : t) (W : wf slabSize r).

Lemma header_word i : 0 <= i -> i * 8 <= m_numBitmapSlabs r * slabSize -> word_addr r i = m_buffer r + 8 * i.
Proof.
  intros. destruct W as (? & ? & ? & ? & ? & ? & ? & ?), Hsz as [? _].
  unfold word_addr. rewrite ptr_add_small by (unfold inU; nia). lia.
Qed.

(** The writes of [fill] land on words [from, from + n) and nowhere else. *)
Lemma fill_out from n v m a : 0 <= from -> (from + Z.of_nat n) * 8 <= m_numBitmapSlabs r * slabSize ->
  (a < m_buffer r + 8 * from \/ m_buffer r + 8 * (from + Z.of_nat n) <= a) ->
  load (fill r from n v m) a = load m a.
Proof.
  revert from m. induction n as [|n IH]; intros from m Hf Hn Ha; [done|]. cbn [fill].
  rewrite IH by lia. rewrite header_word by lia. apply load_store_ne. lia.
Qed.

Lemma fill_in from n v m i : 0 <= from -> (from + Z.of_nat n) * 8 <= m_numBitmapSlabs r * slabSize ->
  from <= i < from + Z.of_nat n -> load (fill r from n v m) (m_buffer r + 8 * i) = v.
Proof.
  revert from m. induction n as [|n IH]; intros from m Hf Hn Hi; [lia|]. cbn [fill].
  destruct (Z.eq_dec i from) as [->|]; [|apply IH; lia].
  rewrite fill_out by lia. rewrite header_word by lia. apply load_store_eq.
Qed.

(** On the state the constructor leaves, [initializeControlSlabs] returns an initialized resource in
    which every user slab is free, and writes nothing outside the lock slab and the header. *)
Lemma initializeControlSlabs_spec m : load m (m_initializationState r) = 2 ->
  exists m', initializeControlSlabs slabSize r m = Done m' /\ ready r m' /\
    (forall s, 0 <= s < m_numUserSlabs r -> used r m' s = false) /\
    (forall a, a <> m_initializationState r ->
       ~ (m_buffer r <= a < slab_addr slabSize r 0) -> load m' a = load m a).
Proof.
  intros Hi. pose proof W as (W1 & W2 & W3 & W4 & W5 & W6 & W7 & W8). pose proof Hsz as [Hs H8].
  unfold initializeControlSlabs, atomicCompareExchange. rewrite Hi. cbn [Z.eqb state_to_Z Pos.eqb].
  set (mi := store m (m_initializationState r) 1).
  set (H := u64 (m_numBitmapSlabs r * slabSize) / 8).
  assert (HH : H * 8 = m_numBitmapSlabs r * slabSize).
  { unfold H. rewrite wrapU_id by (unfold inU; nia). by apply slab_words. }
  set (nb := m_numBitmaps r) in *. set (u := m_numUserSlabs r) in *.
  pose proof (Z.div_mod (u + 63) 64 ltac:(lia)) as D. rewrite <- W5 in D.
  pose proof (Z.mod_pos_bound (u + 63) 64 ltac:(lia)).
  set (m1 := fill r 0 (Z.to_nat nb) emptyBitmap mi).
  set (m2 := fill r nb (Z.to_nat (H - nb)) fullBitmap m1).
  change bitmapBits with 64. set (l := u mod 64).
  pose proof (Z.div_mod u 64 ltac:(lia)) as Dl. pose proof (Z.mod_pos_bound u 64 ltac:(lia)) as Bl.
  fold l in Dl, Bl.
  set (last := notU 64 (u64 (shlU 64 1 l - 1))).
  set (m3 := if negb (l =? 0) then store m2 (word_addr r (nb - 1)) last else m2).
  assert (Hl : forall j, 0 <= j < 64 -> Z.testbit last j = (l <=? j)).
  { intros j Hj. unfold last, notU. rewrite shlU_one by lia.
    rewrite testbit_wrapU, Z.lnot_spec by lia.
    rewrite wrapU_id; [|pose proof (Z.pow_lt_mono_r 2 l 64); pose proof (pow2_pos l); unfold inU; lia].
    replace (2 ^ l - 1) with (Z.ones l) by (rewrite Z.ones_equiv; lia). rewrite testbit_ones by lia.
    destruct (Z.ltb_spec j 64), (Z.leb_spec 0 j), (Z.ltb_spec j l), (Z.leb_spec l j); try lia; done. }
  assert (A2 : forall i, 0 <= i < nb -> load m2 (m_buffer r + 8 * i) = 0).
  { intros i Hi'. unfold m2, m1. rewrite fill_out by lia. apply (fill_in 0); lia. }
  assert (A3 : forall i, 0 <= i < nb -> load m3 (word_addr r i) =
            if negb (l =? 0) && (i =? nb - 1) then last else 0).
  { intros i Hi'. unfold m3. destruct (l =? 0); cbn [negb andb].
    - rewrite header_word by lia. auto.
    - rewrite !header_word, load_store by lia. case_decide; destruct (Z.eqb_spec i (nb - 1)); try lia; auto. }
  assert (A4 : forall i, 0 <= i < nb -> load (store m3 (m_initializationState r) 0) (word_addr r i) =
            load m3 (word_addr r i)).
  { intros i Hi'. apply load_store_ne. rewrite header_word by lia. lia. }
  assert (A5 : forall s, 0 <= s < nb * 64 -> used r (store m3 (m_initializationState r) 0) s = (u <=? s)).
  { intros s Hs'. assert (0 <= s / 64 < nb).
    { split; [apply Z.div_pos; lia|apply Z.div_lt_upper_bound; lia]. }
    pose proof (Z.div_mod s 64 ltac:(lia)). pose proof (Z.mod_pos_bound s 64 ltac:(lia)).
    unfold used. rewrite A4, A3 by done.
    destruct (Z.eqb_spec l 0), (Z.eqb_spec (s / 64) (nb - 1)); cbn [negb andb]; rewrite ?Z.bits_0;
      try (symmetry; apply Z.leb_gt; lia).
    rewrite Hl by lia. destruct (Z.leb_spec l (s mod 64)), (Z.leb_spec u s); try lia; done. }
  eexists. split; [reflexivity|]. unfold ready. split_and!.
  - apply load_store_eq.
  - intros i Hi'. rewrite A4, A3 by done. destruct (_ && _); [apply wrapU_range; lia|done].
  - intros s Hs'. rewrite A5 by lia. apply Z.leb_le. tauto.
  - intros s Hs'. rewrite A5 by lia. apply Z.leb_gt. lia.
  - intros a Ha Hr. unfold slab_addr in Hr. rewrite load_store_ne by congruence.
    assert (load m2 a = load m a).
    { unfold m2, m1. rewrite !fill_out by lia. unfold mi. apply load_store_ne. congruence. }
    unfold m3. destruct (negb _); [|done]. rewrite load_store_ne; [done|].
    rewrite header_word by lia. lia.
Qed.

(** The first request a resource serves initializes it. *)
Lemma allocate_init m bytes : load m (m_initializationState r) = 2 -> exists m1,
  initializeControlSlabs slabSize r m = Done m1 /\ ready r m1 /\
  (forall s, 0 <= s < m_numUserSlabs r -> used r m1 s = false) /\
  (forall a, a <> m_initializationState r ->
     ~ (m_buffer r <= a < slab_addr slabSize r 0) -> load m1 a = load m a) /\
  allocate slabSize r bytes m = allocate slabSize r bytes m1.
Proof.
  intros H2. destruct (initializeControlSlabs_spec m H2) as (m1 & E & R & U & F).
  exists m1. split_and!; try done. rewrite (allocate_ready slabSize r m1) by done.
  unfold allocate, isUninitialized. rewrite H2, E. done.
Qed.

(** The first allocation from a freshly constructed resource.  A request that fits a slab initializes
    the control words and gets slab 0; then exactly slab 0 is in use, and nothing outside
    the lock slab and the header has been written. *)
Theorem first_allocate m bytes : load m (m_initializationState r) = 2 -> bytes <= slabSize ->
  exists m', allocate slabSize r bytes m = Done (slab_addr slabSize r 0, m') /\ ready r m' /\
  (forall s, 0 <= s < m_numUserSlabs r -> used r m' s = (s =? 0)) /\
  (forall a, a <> m_initializationState r ->
       ~ (m_buffer r <= a < slab_addr slabSize r 0) -> load m' a = load m a).
Proof.
  intros H2 Hb. destruct (allocate_init m bytes H2) as (m1 & _ & R & U & F & ->).
  rewrite allocate_ready, Z.gtb_ltb by done. destruct (Z.ltb_spec slabSize bytes); [lia|].
  pose proof W as (_ & _ & W3 & W4 & W5 & W6 & _).
  destruct (allocateFrom_spec slabSize Hsz r W m1 (Z.to_nat (m_numBitmaps r)) R 0) as (p & m' & E & T); [lia| |lia|].
  { rewrite W5, Z2Nat.id; [done|]. apply Z.div_pos; lia. }
  rewrite E. destruct T as [T|(_ & _ & A)]; [|specialize (A 0 ltac:(lia)); rewrite U in A by lia; done].
  destruct (takes_ready slabSize Hsz r W m1 p m' R T) as [R' _].
  destruct T as (s & Hs & Hf & Hlt & -> & Em).
  assert (s = 0) as -> by (destruct (Z.eq_dec s 0); [done|]; specialize (Hlt 0 ltac:(lia)); rewrite U in Hlt by lia; done).
  exists m'. split_and!; [done|done| |].
  - intros s Hs'. rewrite Em. pose proof (user_slots slabSize r W s Hs').
    rewrite (used_store slabSize Hsz r W m1 0 _ true) by
      (lia || (intros; apply testbit_set; pose proof (Z.mod_pos_bound 0 64); lia)).
    rewrite U by done. by destruct (s =? 0).
  - intros a Ha Hr. rewrite Em. rewrite load_store_ne; [by apply F|]. intros <-. apply Hr.
    assert (0 < m_numBitmapSlabs r * slabSize) by (destruct Hsz; apply Z.mul_pos_pos; lia).
    change (0 / 64) with 0. unfold slab_addr. rewrite header_word by lia. lia.
Qed.
End Init.

(** A 4 KiB resource of 32-byte slabs at address 4096: 126 user slabs, one header slab, two bitmaps. *)
Definition example_resource : t := mk 4128 126 4032 1 2 4096.
Definition example_mem : mem := store (store (store ∅ 4128 0) 4136 (2 ^ 64 - 2 ^ 62)) 4096 0.

Example slab_example_construct : construct 32 4096 4096 ∅ = Done (example_resource, store ∅ 4096 2).
Proof. vm_compute. reflexivity. Qed.

Lemma example_slabSize : slabSize_ok 32.
Proof. vm_compute. intuition congruence. Defined.

Lemma slab_example_wf : wf 32 example_resource.
Proof. vm_compute. intuition congruence. Defined.

Lemma example_ready : ready example_resource example_mem.
Proof.
  split_and!; [done| |]; cbn [m_numBitmaps m_numUserSlabs example_resource].
  - intros i Hi. assert (i = 0 \/ i = 1) as [-> | ->] by lia; vm_compute; intuition congruence.
  - intros s Hs. assert (s = 126 \/ s = 127) as [-> | ->] by lia; done.
Defined.

Lemma slab_allocate_spec_witness :
  exists p m', allocate 32 example_resource 8 example_mem = Done (p, m') /\ ready example_resource m'.
Proof.
  destruct (slab_allocate_spec 32 example_slabSize example_resource slab_example_wf example_mem 8 example_ready)
    as (p & m' & E & R & _). exists p, m'. split; assumption.
Defined.

Lemma slab_deallocate_spec_witness :
  exists m', deallocate 32 example_resource 4224 example_mem = Done m' /\ ready example_resource m'.
Proof.
  destruct (slab_deallocate_spec 32 example_slabSize example_resource slab_example_wf example_mem 2 example_ready ltac:(done))
    as (m' & E & R & _). exists m'. split; [exact E | exact R].
Defined.

Lemma allocate_deallocate_witness :
  exists m1 m2, allocate 32 example_resource 8 example_mem = Done (4160, m1) /\
    deallocate 32 example_resource 4160 m1 = Done m2 /\ forall a, load m2 a = load example_mem a.
Proof.
  eexists. destruct (allocate_deallocate 32 example_slabSize example_resource slab_example_wf example_mem 8
    4160 (store example_mem 4128 1) example_ready) as (m2 & E & L);
    [vm_compute; reflexivity | discriminate |].
  exists m2. split; [vm_compute; reflexivity | split; assumption].
Defined.

Lemma slab_construct_spec_witness :
  exists r, construct 32 4096 4096 ∅ = Done (r, store ∅ 4096 2) /\ wf 32 r.
Proof.
  destruct (slab_construct_spec 32 4096 4096 ∅ example_slabSize ltac:(done) ltac:(done) ltac:(done) ltac:(done))
    as (r & E & Wr & _). exists r. split; assumption.
Defined.

Lemma first_allocate_witness :
  exists m', allocate 32 example_resource 24 (store ∅ 4096 2) = Done (4160, m') /\ ready example_resource m'.
Proof.
  destruct (first_allocate 32 example_slabSize example_resource slab_example_wf (store (∅ : mem) 4096 2) 24
    (load_store_eq _ _ _) ltac:(done)) as (m' & E & R & _). exists m'. split; [exact E | exact R].
Defined.
End Slab.
