(* ===== verification/FreeListResource.v ===== *)
(** * The free-list memory resource

    [pando-rt/memory/freelist_memory_resource.hpp]: freed blocks are kept in a doubly linked list threaded
    through the blocks themselves, behind a sentinel node in the resource's own metadata.
    The pointer-level operations are proved to implement a best-fit allocator on a plain
    list of blocks. *)

From S2P Require Import Prelude GlobalPtr.

Module FreeList.

(** A node in memory: its three words. *)
Definition next (m : mem) (node : Z) : Z := load m node.
Definition previous (m : mem) (node : Z) : Z := load m (node + 8).
Definition blockSize (m : mem) (node : Z) : Z := load m (node + 16).
Definition set_next (m : mem) (node v : Z) : mem := store m node v.
Definition set_previous (m : mem) (node v : Z) : mem := store m (node + 8) v.
Definition set_blockSize (m : mem) (node v : Z) : mem := store m (node + 16) v.

(** src/pando-rt/include/pando-rt/memory/freelist_memory_resource.hpp:27-31 [FreeListNode] *)
Record FreeListNode := Node { n_next : Z; n_previous : Z; n_blockSize : Z }.
Definition sizeof_FreeListNode : Z := 24.
Definition write_node (m : mem) (node : Z) (v : FreeListNode) : mem :=
  set_blockSize (set_previous (set_next m node (n_next v)) node (n_previous v)) node (n_blockSize v).

(** src/pando-rt/include/pando-rt/memory/freelist_memory_resource.hpp:33-41 [FreeListMemoryResource] *)
Record t := mk { m_head : Z; m_mutex : Z }.

(** src/pando-rt/include/pando-rt/memory/freelist_memory_resource.hpp:51-77 [FreeListMemoryResource::FreeListMemoryResource] *)
Definition construct (bufferStart bufferSize : Z) (m : mem) : outcome (t * mem) :=
  let voidCurrentStart := bufferStart in
  let '(alignedCurrentStart, voidCurrentStart, bufferSize) := align 8 8 voidCurrentStart bufferSize in
  if ptr_eqb alignedCurrentStart nullptr
  then Failed (Aborted "Insufficient space to store metadata") else
  let mutex := alignedCurrentStart in
  let bufferSize := u64 (bufferSize - 8) in
  if bufferSize <? sizeof_FreeListNode
  then Failed (Aborted "Insufficient space to store metadata") else
  let currentStart := ptr_add 1 alignedCurrentStart 8 in
  let '(currentStart, _, bufferSize) := align 8 sizeof_FreeListNode currentStart bufferSize in
  if ptr_eqb currentStart nullptr
  then Failed (Aborted "Insufficient space to store metadata") else
  let head := currentStart in
  let m := write_node m head (Node nullptr nullptr 0) in
  let! m := InplaceMutex.initialize m mutex in
  Done (mk head mutex, m).

(** src/pando-rt/include/pando-rt/memory/freelist_memory_resource.hpp:221-234 [findBestMatchingBlock]'s loop;
    [fuel] bounds the number of nodes visited *)
Fixpoint findFrom (fuel : nat) (m : mem) (bytes current bestNode bestDiff : Z) : outcome Z :=
  if ptr_eqb current nullptr then Done bestNode else
  match fuel with
  | O => Failed (Undefined "findBestMatchingBlock: out of fuel")
  | S fuel =>
      let size := blockSize m current in
      if size >? bytes then
        let diff := u64 (size - bytes) in
        if diff <? bestDiff then findFrom fuel m bytes (next m current) current diff
        else findFrom fuel m bytes (next m current) bestNode bestDiff
      else if bytes =? size then Done current
      else findFrom fuel m bytes (next m current) bestNode bestDiff
  end.

(** src/pando-rt/include/pando-rt/memory/freelist_memory_resource.hpp:217-220 [findBestMatchingBlock] *)
Definition findBestMatchingBlock (fuel : nat) (r : t) (m : mem) (bytes : Z) : outcome Z :=
  let current := m_head r in
  findFrom fuel m bytes current current (2 ^ 64 - 1).

(** src/pando-rt/include/pando-rt/memory/freelist_memory_resource.hpp:236-247 [removeBlockFromList] *)
Definition removeBlockFromList (m : mem) (blockPtr : Z) : mem :=
  let previous := previous m blockPtr in
  let next := next m blockPtr in
  let m := if negb (ptr_eqb previous nullptr) then set_next m previous next else m in
  if negb (ptr_eqb next nullptr) then set_previous m next previous else m.

(** src/pando-rt/include/pando-rt/memory/freelist_memory_resource.hpp:248-260 [addBlock] *)
Definition addBlock (r : t) (m : mem) (nodePtr bytes : Z) : mem :=
  let nextNode := next m (m_head r) in
  let m := if negb (ptr_eqb nextNode nullptr) then set_previous m nextNode nodePtr else m in
  let m := set_previous m nodePtr (m_head r) in
  let m := set_next m nodePtr nextNode in
  let m := set_blockSize m nodePtr bytes in
  set_next m (m_head r) nodePtr.

(** src/pando-rt/include/pando-rt/memory/freelist_memory_resource.hpp:92-106 [allocate] *)
Definition allocate (fuel : nat) (r : t) (bytes : Z) (m : mem) : outcome (Z * mem) :=
  let! m := InplaceMutex.lock m (m_mutex r) in
  let result := nullptr in
  let! (result, m) :=
    (if negb (ptr_eqb (next m (m_head r)) nullptr) then
       let! bestMatchingBlock := findBestMatchingBlock fuel r m bytes in
       if negb (ptr_eqb bestMatchingBlock (m_head r))
       then Done (bestMatchingBlock, removeBlockFromList m bestMatchingBlock)
       else Done (result, m)
     else Done (result, m)) in
  let! m := InplaceMutex.unlock m (m_mutex r) in
  Done (result, m).

(** src/pando-rt/include/pando-rt/memory/freelist_memory_resource.hpp:195-214 [registerFreedBlock] *)
Definition registerFreedBlock (r : t) (p bytes : Z) (m : mem) : outcome mem :=
  if ptr_eqb p nullptr || (bytes <? sizeof_FreeListNode)
  then Failed (Aborted "Insufficient space to store node metadata") else
  let requiredAlignment := 8 in
  let pointerSatisfyAlignment := p mod requiredAlignment =? 0 in
  if negb pointerSatisfyAlignment
  then Failed (Aborted "FreeList required pointer alignment is not maintained") else
  let! m := InplaceMutex.lock m (m_mutex r) in
  let newBlockPtr := p in
  let m := addBlock r m newBlockPtr bytes in
  InplaceMutex.unlock m (m_mutex r).

(** src/pando-rt/include/pando-rt/memory/freelist_memory_resource.hpp:118-120 [deallocate] *)
Definition deallocate (r : t) (p bytes : Z) (m : mem) : outcome mem := registerFreedBlock r p bytes m.

(** src/pando-rt/include/pando-rt/memory/freelist_memory_resource.hpp:130-132 [operator==] *)
Definition eqb (r rhs : t) : bool := ptr_eqb (m_head r) (m_head rhs).
(** src/pando-rt/include/pando-rt/memory/freelist_memory_resource.hpp:153-155 [pointerIsOwned] *)
Definition pointerIsOwned (r : t) (p : Z) : bool := false.
(** src/pando-rt/include/pando-rt/memory/freelist_memory_resource.hpp:164-166 [supportsFree] *)
Definition supportsFree : bool := true.
(** src/pando-rt/include/pando-rt/memory/freelist_memory_resource.hpp:173-175 [computeMetadataSize] *)
Definition computeMetadataSize : Z := sizeof_FreeListNode + 8.
(** src/pando-rt/include/pando-rt/memory/freelist_memory_resource.hpp:182-184 [minimumAllowableAllocationSize] *)
Definition minimumAllowableAllocationSize : Z := sizeof_FreeListNode.

(** ** The abstract allocator

    A list of free blocks (address, size), the latest freed first. *)

Abbreviation blocks := (list (Z * Z)).

(** The best fit: the first block of exactly [bytes], else the first among the smallest larger ones. *)
Fixpoint best (bytes : Z) (bestNode bestDiff : Z) (l : blocks) : Z :=
  match l with
  | [] => bestNode
  | (a, size) :: l =>
      if bytes <? size then
        if size - bytes <? bestDiff then best bytes a (size - bytes) l else best bytes bestNode bestDiff l
      else if bytes =? size then a else best bytes bestNode bestDiff l
  end.

Fixpoint remove_block (a : Z) (l : blocks) : blocks :=
  match l with
  | [] => []
  | (b, size) :: l => if a =? b then l else (b, size) :: remove_block a l
  end.

Inductive request := Allocate (bytes : Z) | Free (p bytes : Z).

(** What a request does to the blocks, and its answer. *)
Definition spec (q : request) (l : blocks) : Z * blocks :=
  match q with
  | Allocate bytes =>
      let a := if bytes =? 0 then 0 else best bytes 0 (2 ^ 64 - 1) l in
      (a, if a =? 0 then l else remove_block a l)
  | Free p bytes => (0, (p, bytes) :: l)
  end.

(** ** The linked list represents a list of blocks *)

Definition head_addr (l : blocks) (n : Z) : Z := match l with [] => n | (a, _) :: _ => a end.

(** [l] is a segment of linked nodes, entered from node [p] and left to node [n]. *)
Fixpoint seg (m : mem) (p : Z) (l : blocks) (n : Z) : Prop :=
  match l with
  | [] => True
  | (a, size) :: l =>
      a <> 0 /\ next m a = head_addr l n /\ previous m a = p /\ blockSize m a = size /\ seg m a l n
  end.

Definition cells (l : blocks) : list Z := flat_map (fun '(a, _) => [a; a + 8; a + 16]) l.

Definition rep (r : t) (m : mem) (l : blocks) : Prop :=
  InplaceMutex.free m (m_mutex r) /\ NoDup (m_mutex r :: cells ((m_head r, 0) :: l)) /\
  Forall (fun '(_, size) => 0 < size < 2 ^ 64) l /\ seg m 0 ((m_head r, 0) :: l) 0.

Lemma cells_app l1 l2 : cells (l1 ++ l2) = cells l1 ++ cells l2.
Proof. apply flat_map_app. Qed.

Lemma elem_of_cells_cons x a size l : x ∈ cells ((a, size) :: l) <-> x = a \/ x = a + 8 \/ x = a + 16 \/ x ∈ cells l.
Proof. change (cells ((a, size) :: l)) with ([a; a + 8; a + 16] ++ cells l). set_solver. Qed.

Lemma NoDup_cells_cons a size l :
  NoDup (cells ((a, size) :: l)) <->
  (a ∉ cells l) /\ (a + 8 ∉ cells l) /\ (a + 16 ∉ cells l) /\ NoDup (cells l).
Proof.
  change (cells ((a, size) :: l)) with (a :: a + 8 :: a + 16 :: cells l). rewrite !NoDup_cons, !not_elem_of_cons.
  intuition lia.
Qed.

Lemma elem_of_cells a size l : (a, size) ∈ l -> a ∈ cells l.
Proof.
  intros (l1 & l2 & ->)%list_elem_of_split. rewrite cells_app, elem_of_app, elem_of_cells_cons. auto.
Qed.

Lemma addrs_cells l a : a ∈ map fst l -> a ∈ cells l.
Proof.
  intros H. apply list_elem_of_fmap in H as ([b s] & -> & H). by eapply elem_of_cells.
Qed.

Lemma NoDup_addrs l : NoDup (cells l) -> NoDup (map fst l).
Proof.
  induction l as [|[a s] l IH]; [constructor|]. intros (D & _ & _ & D')%NoDup_cells_cons. cbn. constructor; [|by apply IH].
  intros H. by apply D, addrs_cells.
Qed.

Lemma seg_frame m m' p l n : (forall x, x ∈ cells l -> load m' x = load m x) -> seg m p l n -> seg m' p l n.
Proof.
  revert p. induction l as [|[a size] l IH]; intros p F S; [done|]. cbn in *.
  destruct S as (S1 & S2 & S3 & S4 & S5). unfold next, previous, blockSize in *.
  rewrite !F by set_solver. split_and!; try done. apply IH; [|done]. intros x Hx. apply F. set_solver.
Qed.

Lemma seg_store m p l n x v : x ∉ cells l -> seg m p l n -> seg (store m x v) p l n.
Proof.
  intros Hx. apply seg_frame. intros y Hy. apply load_store_ne. set_solver.
Qed.

Lemma head_addr_app l1 b size l2 n : head_addr (l1 ++ (b, size) :: l2) n = head_addr l1 b.
Proof. by destruct l1 as [|[]]. Qed.

Fixpoint last_addr (p : Z) (l : blocks) : Z := match l with [] => p | (a, _) :: l => last_addr a l end.

Lemma seg_app m p l1 l2 n :
  seg m p (l1 ++ l2) n <-> seg m p l1 (head_addr l2 n) /\ seg m (last_addr p l1) l2 n.
Proof.
  revert p. induction l1 as [|[a size] l1 IH]; intros p; cbn; [tauto|]. rewrite IH.
  replace (head_addr (l1 ++ l2) n) with (head_addr l1 (head_addr l2 n)); [tauto|].
  by destruct l1 as [|[]].
Qed.

Lemma seg_set_next m p l a size n n' : NoDup (cells (l ++ [(a, size)])) ->
  seg m p (l ++ [(a, size)]) n -> seg (set_next m a n') p (l ++ [(a, size)]) n'.
Proof.
  rewrite cells_app, NoDup_app. intros (_ & D & _). rewrite !seg_app. cbn. intros [S1 S2].
  unfold set_next, next, previous, blockSize in *. split.
  - apply seg_store; [|done]. intros H. apply (D a H). rewrite elem_of_cells_cons. auto.
  - rewrite load_store_eq, !load_store_ne by lia. tauto.
Qed.

Lemma seg_set_previous m p p' a size l n : NoDup (cells ((a, size) :: l)) ->
  seg m p ((a, size) :: l) n -> seg (set_previous m a p') p' ((a, size) :: l) n.
Proof.
  rewrite NoDup_cells_cons. cbn. intros (_ & D & _) (S1 & S2 & S3 & S4 & S5).
  unfold set_previous, next, previous, blockSize in *.
  rewrite load_store_eq, !load_store_ne by lia. split_and!; try done. by apply seg_store.
Qed.

Lemma last_addr_app p l1 a size l2 : last_addr p (l1 ++ (a, size) :: l2) = last_addr a l2.
Proof. revert p. induction l1 as [|[] l1 IH]; intros; cbn; auto. Qed.

(** Unlinking a node that has a predecessor. *)
Lemma removeBlockFromList_spec m l1 b t a size l2 :
  let l := l1 ++ (b, t) :: (a, size) :: l2 in
  NoDup (cells l) -> seg m 0 l 0 ->
  seg (removeBlockFromList m a) 0 (l1 ++ (b, t) :: l2) 0 /\
  forall x, x ∉ cells l -> load (removeBlockFromList m a) x = load m x.
Proof.
  intros l D S. unfold l in *. clear l.
  replace (l1 ++ (b, t) :: (a, size) :: l2) with ((l1 ++ [(b, t)]) ++ (a, size) :: l2) in *
    by by rewrite <- app_assoc.
  replace (l1 ++ (b, t) :: l2) with ((l1 ++ [(b, t)]) ++ l2) by by rewrite <- app_assoc.
  apply seg_app in S as [S1 (A1 & A2 & A3 & A4 & S2)]. cbn [head_addr] in S1.
  rewrite last_addr_app in A3. cbn in A3.
  rewrite cells_app in D |- *. apply NoDup_app in D as (D1 & D12 & D2).
  assert (Hb : b <> 0) by (apply seg_app in S1 as (_ & ? & _); done).
  assert (Cb : b ∈ cells (l1 ++ [(b, t)])) by (rewrite cells_app; set_solver).
  assert (Db : forall x, x ∈ cells (l1 ++ [(b, t)]) -> x ∉ cells l2).
  { intros x Hx Hx2. apply (D12 x Hx). rewrite elem_of_cells_cons. auto. }
  apply NoDup_cells_cons in D2 as (_ & _ & _ & D2).
  unfold removeBlockFromList. rewrite A2, A3. unfold ptr_eqb, nullptr.
  destruct (Z.eqb_spec b 0); [done|]. cbn [negb].
  pose proof (seg_set_next m 0 l1 b t a (head_addr l2 0) D1 S1) as S1'.
  assert (S2' : seg (set_next m b (head_addr l2 0)) a l2 0) by (apply seg_store; auto).
  destruct l2 as [|[c u] l2]; cbn [head_addr] in *.
  - rewrite Z.eqb_refl. cbn [negb]. rewrite app_nil_r. split; [done|].
    intros x Hx. rewrite elem_of_app in Hx. apply load_store_ne. intros <-. tauto.
  - pose proof S2' as (Hc & _). destruct (Z.eqb_spec c 0); [done|]. cbn [negb]. split.
    + apply seg_app. split.
      * apply seg_store; [|done]. intros Hx. apply (Db _ Hx). rewrite elem_of_cells_cons. auto.
      * rewrite last_addr_app. cbn [last_addr]. by eapply seg_set_previous.
    + intros x Hx. unfold set_previous, set_next. rewrite elem_of_app, !elem_of_cells_cons in Hx.
      rewrite !load_store_ne; [done| |]; intros <-; tauto.
Qed.

(** ** Finding the best block *)

Lemma findFrom_best m bytes l fuel p bestNode bestDiff :
  seg m p l 0 -> Forall (fun '(_, size) => 0 <= size < 2 ^ 64) l -> 0 <= bytes ->
  (length l <= fuel)%nat ->
  findFrom fuel m bytes (head_addr l 0) bestNode bestDiff = Done (best bytes bestNode bestDiff l).
Proof.
  revert fuel p bestNode bestDiff. induction l as [|[a size] l IH]; intros fuel p bn bd S F Hb Hf.
  { by destruct fuel. }
  destruct fuel as [|fuel]; [cbn in Hf; lia|]. destruct S as (S1 & S2 & S3 & S4 & S5).
  apply Forall_cons in F as [F1 F2]. cbn in Hf. cbn [head_addr findFrom best].
  unfold ptr_eqb, nullptr. destruct (Z.eqb_spec a 0); [done|]. rewrite S2, S4, Z.gtb_ltb.
  destruct (Z.ltb_spec bytes size).
  - rewrite wrapU_id by (unfold inU; lia). destruct (_ <? bd); eapply IH; eauto; lia.
  - destruct (bytes =? size); [done|]. eapply IH; eauto; lia.
Qed.

(** What is returned when nothing fits does not matter. *)
Lemma best_default bytes bn bn' bd l : 
  best bytes bn bd l = best bytes bn' bd l \/ best bytes bn bd l = bn /\ best bytes bn' bd l = bn'.
Proof.
  revert bn bn' bd. induction l as [|[a size] l IH]; intros; cbn; [by right|].
  destruct (bytes <? size); [destruct (_ <? bd)|destruct (bytes =? size)]; auto.
Qed.

Lemma best_fits bytes bn bd l : 0 < bd ->
  (best bytes bn bd l = bn /\ Forall (fun '(_, size) => size < bytes \/ bytes + bd <= size) l) \/
  exists l1 size l2, l = l1 ++ (best bytes bn bd l, size) :: l2 /\ bytes <= size < bytes + bd /\
    Forall (fun '(_, size') => bytes <= size' -> size <= size') l.
Proof.
  revert bn bd. induction l as [|[a size] l IH]; intros bn bd Hbd; cbn; [left; split; [done|constructor]|].
  assert (Skip : forall bn bd', 0 < bd' <= bd -> (bytes <= size -> bytes + bd' <= size) ->
    let r := best bytes bn bd' l in
    (r = bn /\ Forall (fun '(_, s) => s < bytes \/ bytes + bd' <= s) l) \/
    exists l1 s l2, (a, size) :: l = l1 ++ (r, s) :: l2 /\ bytes <= s < bytes + bd /\
      Forall (fun '(_, s') => bytes <= s' -> s <= s') ((a, size) :: l)).
  { intros bn' bd' Hbd' Hs. destruct (IH bn' bd' ltac:(lia)) as [[E A]|(l1 & s & l2 & E & B & A)].
    - left. by split.
    - right. exists ((a, size) :: l1), s, l2. split_and!; [cbn; by rewrite <- E|lia|lia|].
      constructor; [lia|done]. }
  destruct (Z.ltb_spec bytes size); [destruct (Z.ltb_spec (size - bytes) bd)|destruct (Z.eqb_spec bytes size)].
  - right. destruct (Skip a (size - bytes)) as [[-> A]|R]; [lia|lia| |done].
    exists [], size, l. split_and!; [done|lia|lia|]. constructor; [lia|].
    eapply Forall_impl; [exact A|]. intros [??]. lia.
  - destruct (Skip bn bd) as [[-> A]|R]; [lia|lia| |by right]. left. split; [done|]. constructor; [lia|done].
  - right. subst size. exists [], bytes, l. split_and!; [done|lia|lia|]. constructor; [lia|].
    apply Forall_forall. intros [??]. lia.
  - destruct (Skip bn bd) as [[-> A]|R]; [lia|lia| |by right]. left. split; [done|]. constructor; [lia|done].
Qed.

Lemma remove_block_app a size l1 l2 : a ∉ map fst l1 ->
  remove_block a (l1 ++ (a, size) :: l2) = l1 ++ l2.
Proof.
  induction l1 as [|[b t] l1 IH]; intros N; cbn.
  - by rewrite Z.eqb_refl.
  - cbn in N. destruct (Z.eqb_spec a b); [set_solver|]. rewrite IH; [done|set_solver].
Qed.

(** ** The operations implement the abstract allocator *)

Section Correct.
Context (r : t).

(** What a caller must respect: a request is for a 64-bit size, and a block given back is aligned, has room for
    a node and overlaps neither the metadata nor a free block's node. *)
Definition legal (q : request) (l : blocks) : Prop :=
  match q with
  | Allocate bytes => 0 <= bytes < 2 ^ 64
  | Free p bytes => p <> 0 /\ p mod 8 = 0 /\ 24 <= bytes < 2 ^ 64 /\
      NoDup (m_mutex r :: cells ((m_head r, 0) :: (p, bytes) :: l))
  end.

(** A request as the resource serves it. *)
Definition serve (fuel : nat) (q : request) (m : mem) : outcome (Z * mem) :=
  match q with
  | Allocate bytes => allocate fuel r bytes m
  | Free p bytes => let! m := deallocate r p bytes m in Done (0, m)
  end.

(** The mutex word is not part of the list. *)
Lemma seg_mutex m l v p n : m_mutex r ∉ cells l -> seg (store m (m_mutex r) v) p l n <-> seg m p l n.
Proof.
  intros Hx. split; [|by apply seg_store].
  intros S. apply (seg_frame (store m (m_mutex r) v)); [|done].
  intros y Hy. symmetry. apply load_store_ne. set_solver.
Qed.

Lemma rep_intro m m' l : m_mutex r mod 8 = 0 -> NoDup (m_mutex r :: cells ((m_head r, 0) :: l)) ->
  Forall (fun '(_, size) => 0 < size < 2 ^ 64) l -> seg m' 0 ((m_head r, 0) :: l) 0 ->
  m = store m' (m_mutex r) InplaceMutex.isUnlocked -> rep r m l.
Proof.
  intros A D F S ->. split_and!; [split; [done|apply load_store_eq]|done|done|].
  apply seg_mutex; [by apply NoDup_cons in D as [? _]|done].
Qed.

Lemma elem_of_addrs (a size : Z) (l1 l2 : blocks) : a ∈ map fst (l1 ++ (a, size) :: l2).
Proof. rewrite map_app. apply elem_of_app. right. by left. Qed.

(** The parts of the representation, one by one. *)
Lemma rep_facts m l : rep r m l ->
  m_mutex r mod 8 = 0 /\ InplaceMutex.lock m (m_mutex r) = Done (store m (m_mutex r) InplaceMutex.isLocked) /\
  (m_mutex r ∉ cells ((m_head r, 0) :: l)) /\ NoDup (cells ((m_head r, 0) :: l)) /\
  (forall a, a ∈ map fst l -> a <> m_head r /\ a <> 0) /\
  seg (store m (m_mutex r) InplaceMutex.isLocked) 0 ((m_head r, 0) :: l) 0.
Proof.
  intros (Fr & [D1 D2]%NoDup_cons & F & S). split_and!; [apply Fr|by apply InplaceMutex.lock_free|done|done| |].
  - intros a Ha. apply NoDup_cells_cons in D2 as (D2 & _). split.
    + intros ->. by apply D2, addrs_cells.
    + destruct S as (_ & _ & _ & _ & S). apply list_elem_of_fmap in Ha as ([b s] & -> & Ha).
      apply list_elem_of_split in Ha as (l1 & l2 & ->). by apply seg_app in S as [_ (? & _)].
  - by apply seg_store.
Qed.

(** The search, whose default answer is the sentinel, against the abstract one, whose default is 0. *)
Lemma best_sentinel bytes bd l h : 0 < bd -> (forall a, a ∈ map fst l -> a <> h /\ a <> 0) ->
  best bytes h bd l = if best bytes 0 bd l =? 0 then h else best bytes 0 bd l.
Proof.
  intros Hbd N. destruct (best_fits bytes 0 bd l Hbd) as [[E _]|(l1 & s & l2 & E & _)].
  - rewrite E. cbn. destruct (best_default bytes h 0 bd l) as [E'|[-> _]]; [|done].
    destruct (best_fits bytes h bd l Hbd) as [[-> _]|(l1 & s & l2 & E2 & _)]; [done|].
    exfalso. destruct (N 0); [|done]. rewrite E2, E', E. apply elem_of_addrs.
  - destruct (N (best bytes 0 bd l)) as [N1 N2]; [rewrite E at 2; apply elem_of_addrs|].
    destruct (Z.eqb_spec (best bytes 0 bd l) 0); [done|].
    destruct (best_default bytes h 0 bd l) as [E'|[_ E']]; done.
Qed.

Lemma findBestMatchingBlock_eq fuel m l bytes :
  seg m 0 ((m_head r, 0) :: l) 0 -> Forall (fun '(_, size) => 0 < size < 2 ^ 64) l ->
  (forall a, a ∈ map fst l -> a <> m_head r /\ a <> 0) -> 0 <= bytes -> (length l < fuel)%nat ->
  findBestMatchingBlock fuel r m bytes =
    let a := fst (spec (Allocate bytes) l) in Done (if a =? 0 then m_head r else a).
Proof.
  intros S F N Hb Hf. unfold findBestMatchingBlock.
  change (m_head r) with (head_addr ((m_head r, 0) :: l) 0) at 1.
  rewrite (findFrom_best m bytes ((m_head r, 0) :: l) fuel 0); [|done| |lia|cbn; lia].
  - cbn. destruct (Z.ltb_spec bytes 0); [lia|]. destruct (bytes =? 0); [done|].
    f_equal. by apply best_sentinel.
  - constructor; [lia|]. eapply Forall_impl; [exact F|]. intros [??]. lia.
Qed.

Lemma remove_refines m l a :
  NoDup (cells ((m_head r, 0) :: l)) -> seg m 0 ((m_head r, 0) :: l) 0 -> a ∈ map fst l ->
  seg (removeBlockFromList m a) 0 ((m_head r, 0) :: remove_block a l) 0 /\
  (forall x, x ∉ cells ((m_head r, 0) :: l) -> load (removeBlockFromList m a) x = load m x) /\
  exists l1 size l2, l = l1 ++ (a, size) :: l2 /\ remove_block a l = l1 ++ l2.
Proof.
  intros D S Ha. apply list_elem_of_fmap in Ha as ([a' size] & -> & Ha). cbn [fst].
  apply list_elem_of_split in Ha as (l1 & l2 & ->).
  rewrite remove_block_app.
  - destruct (exists_last (l := (m_head r, 0) :: l1)) as (l1' & [b t] & E); [done|].
    rewrite app_comm_cons, E, <- app_assoc in *. cbn [app] in *.
    destruct (removeBlockFromList_spec m l1' b t a' size l2 D S) as [S' F']. split_and!; [done| |by exists l1, size, l2].
    intros x. rewrite app_comm_cons, E, <- app_assoc. apply F'.
  - intros H. apply NoDup_cells_cons in D as (_ & _ & _ & D).
    rewrite cells_app in D. apply NoDup_app in D as (_ & D & _). apply (D a'); [by apply addrs_cells|].
    rewrite elem_of_cells_cons. auto.
Qed.

Lemma best_elem bytes l : best bytes 0 (2 ^ 64 - 1) l <> 0 -> best bytes 0 (2 ^ 64 - 1) l ∈ map fst l.
Proof.
  intros N. destruct (best_fits bytes 0 (2 ^ 64 - 1) l ltac:(lia)) as [[E _]|(l1 & s & l2 & E & _)]; [done|].
  rewrite E at 2. apply elem_of_addrs.
Qed.

Lemma rep_frame m m' l : (forall x, x = m_mutex r \/ x ∈ cells ((m_head r, 0) :: l) -> load m' x = load m x) ->
  rep r m l -> rep r m' l.
Proof.
  intros Fr ([A L] & D & F & S). split_and!; [|done|done|apply (seg_frame m); auto].
  split; [done|]. rewrite Fr; auto.
Qed.

Lemma allocate_refines fuel bytes m l : rep r m l -> 0 <= bytes < 2 ^ 64 -> (length l < fuel)%nat ->
  exists m', allocate fuel r bytes m = Done (fst (spec (Allocate bytes) l), m') /\
    rep r m' (snd (spec (Allocate bytes) l)) /\
    (forall x, x <> m_mutex r -> x ∉ cells ((m_head r, 0) :: l) -> load m' x = load m x).
Proof.
  intros R Hb Hf. destruct (rep_facts m l R) as (Al & Lk & Dm & D & N & S).
  destruct R as (_ & Dall & F & _). unfold allocate. rewrite Lk. cbn [bindo].
  set (m1 := store m (m_mutex r) InplaceMutex.isLocked) in *.
  rewrite (findBestMatchingBlock_eq fuel m1 l) by (done || lia).
  pose proof S as (_ & Hn & _). rewrite Hn. cbn [spec fst snd].
  set (a := if bytes =? 0 then 0 else best bytes 0 (2 ^ 64 - 1) l). cbn zeta.
  assert (a = 0 \/ a <> 0 /\ a ∈ map fst l) as [Ea|[Ea Ha]].
  { unfold a. destruct (bytes =? 0); [by left|]. destruct (Z.eq_dec (best bytes 0 (2 ^ 64 - 1) l) 0); [by left|].
    right. split; [done|]. by apply best_elem. }
  - rewrite Ea, Z.eqb_refl. unfold ptr_eqb. cbn [bindo]. rewrite Z.eqb_refl. cbn [negb bindo].
    assert ((if negb (head_addr l 0 =? nullptr) then Done (nullptr, m1) else Done (nullptr, m1)) = Done (nullptr, m1))
      as -> by (by destruct (negb _)).
    cbn [bindo]. rewrite InplaceMutex.unlock_aligned by done. eexists. split; [done|].
    split; [by eapply rep_intro|]. intros x Hx _. unfold m1. by rewrite !load_store_ne by congruence.
  - destruct (N a Ha). destruct (Z.eqb_spec a 0); [done|]. unfold ptr_eqb. cbn [bindo].
    destruct (Z.eqb_spec a (m_head r)); [done|]. destruct l as [|[a0 s0] l0] eqn:El; [set_solver|]. rewrite <- El in *.
    assert (head_addr l 0 <> 0) by (rewrite El; apply N; rewrite El; set_solver).
    unfold nullptr at 1. destruct (Z.eqb_spec (head_addr l 0) 0); [done|]. cbn [negb bindo].
    rewrite InplaceMutex.unlock_aligned by done. eexists. split; [done|].
    destruct (remove_refines m1 l a D S Ha) as (S' & Frame & l1 & size & l2 & E & E').
    split; [|intros x Hx Hc; rewrite load_store_ne, Frame by congruence; unfold m1; by rewrite load_store_ne by congruence].
    rewrite E' in *. eapply rep_intro; [done| | |exact S'|done].
    + rewrite E in Dall. eapply sublist_NoDup; [exact Dall|]. apply sublist_skip.
      rewrite !app_comm_cons, !cells_app. apply sublist_app; [done|]. by do 3 apply sublist_cons.
    + rewrite E in F. apply Forall_app in F as [F1 [_ F2]%Forall_cons]. by apply Forall_app.
Qed.

Lemma deallocate_refines p bytes m l : rep r m l -> legal (Free p bytes) l ->
  exists m', deallocate r p bytes m = Done m' /\ rep r m' ((p, bytes) :: l).
Proof.
  intros R (Hp & Ha & Hb & Dn). destruct (rep_facts m l R) as (Al & Lk & Dm & D & N & S).
  destruct R as (_ & _ & F & _). unfold deallocate, registerFreedBlock, ptr_eqb, nullptr.
  destruct (Z.eqb_spec p 0); [done|]. unfold sizeof_FreeListNode.
  destruct (Z.ltb_spec bytes 24); [lia|]. rewrite Ha. cbn [orb negb Z.eqb]. rewrite Lk. cbn [bindo].
  rewrite InplaceMutex.unlock_aligned by done. eexists. split; [done|].
  eapply rep_intro; [done|exact Dn|constructor; [lia|done]| |done].
  set (m1 := store m (m_mutex r) InplaceMutex.isLocked) in *.
  pose proof Dn as [_ Dn']%NoDup_cons.
  apply NoDup_cells_cons in Dn' as (Nh & Nh8 & Nh16 & Dp). pose proof Dp as Dp'.
  apply NoDup_cells_cons in Dp' as (Np & Np8 & Np16 & Dl).
  rewrite elem_of_cells_cons in Nh, Nh8, Nh16.
  unfold addBlock. destruct S as (S1 & Hn & S2 & S3 & S4). rewrite Hn.
  set (m2 := if negb (ptr_eqb (head_addr l 0) nullptr) then set_previous m1 (head_addr l 0) p else m1).
  assert (S5 : seg m2 p l 0 /\ forall x, x ∉ cells l -> load m2 x = load m1 x).
  { unfold m2, ptr_eqb, nullptr. destruct l as [|[a s] l']; [done|]. cbn [head_addr].
    destruct (Z.eqb_spec a 0); [by destruct S4|]. split; [by eapply seg_set_previous|].
    intros x Hx. rewrite elem_of_cells_cons in Hx. apply load_store_ne. intros <-. tauto. }
  destruct S5 as [S5 Fr]. unfold next, previous, blockSize, set_next, set_previous, set_blockSize in *.
  assert (p <> m_head r) by (intros ->; tauto).
  assert (p <> m_head r + 8 /\ p <> m_head r + 16 /\ p + 8 <> m_head r /\ p + 8 <> m_head r + 8 /\
    p + 8 <> m_head r + 16 /\ p + 16 <> m_head r /\ p + 16 <> m_head r + 8 /\ p + 16 <> m_head r + 16).
  { split_and!; intros E; lia || (rewrite E in *; tauto) || (rewrite <- E in *; tauto). }
  cbn [seg head_addr]. unfold next, previous, blockSize.
  rewrite !load_store. repeat (case_decide; try lia). rewrite !Fr by tauto.
  split_and!; try done. repeat (apply seg_store; [tauto|]). done.
Qed.

(** The free-list resource implements the abstract best-fit allocator.  On a list that represents the
    blocks [l], a legal request returns (the search visits at most the sentinel and every
    block), gives the abstract answer and leaves a list that represents the abstract
    allocator's blocks, the mutex free again. *)
Theorem serve_refines fuel q m l : rep r m l -> legal q l -> (length l < fuel)%nat ->
  exists m', serve fuel q m = Done (fst (spec q l), m') /\ rep r m' (snd (spec q l)).
Proof.
  intros R L Hf. destruct q as [bytes|p bytes]; cbn [serve].
  - destruct (allocate_refines fuel bytes m l R L Hf) as (m' & E & R' & _). by exists m'.
  - destruct (deallocate_refines p bytes m l R L) as (m' & -> & R'). by exists m'.
Qed.

(** A run of requests on each side. *)
Fixpoint serve_all (fuel : nat) (qs : list request) (m : mem) : outcome (list Z * mem) :=
  match qs with
  | [] => Done ([], m)
  | q :: qs => let! (a, m) := serve fuel q m in
               let! (rest, m) := serve_all fuel qs m in Done (a :: rest, m)
  end.

Fixpoint spec_all (qs : list request) (l : blocks) : list Z * blocks :=
  match qs with
  | [] => ([], l)
  | q :: qs => let (a, l) := spec q l in let (rest, l) := spec_all qs l in (a :: rest, l)
  end.

Fixpoint legal_all (qs : list request) (l : blocks) : Prop :=
  match qs with [] => True | q :: qs => legal q l /\ legal_all qs (snd (spec q l)) end.

Lemma remove_block_length a l : (length (remove_block a l) <= length l)%nat.
Proof. induction l as [|[b s] l IH]; cbn; [done|]. destruct (a =? b); cbn; lia. Qed.

Lemma spec_length q l : (length (snd (spec q l)) <= S (length l))%nat.
Proof.
  destruct q as [bytes|]; cbn; [|lia]. destruct (_ =? 0); [lia|].
  etrans; [apply remove_block_length|lia].
Qed.

(** C4: the same along every legal run of requests, with fuel for the blocks freed so far. *)
Theorem serve_all_refines fuel qs m l : rep r m l -> legal_all qs l ->
  (length l + length qs < fuel)%nat ->
  exists m', serve_all fuel qs m = Done (fst (spec_all qs l), m') /\ rep r m' (snd (spec_all qs l)).
Proof.
  revert m l. induction qs as [|q qs IH]; intros m l R L Hf; cbn in *; [by exists m|].
  destruct L as [L1 L2].
  assert (exists m', serve fuel q m = Done (fst (spec q l), m') /\ rep r m' (snd (spec q l))) as (m1 & E1 & R1).
  { destruct q as [bytes|p bytes]; cbn [serve]; [|].
    { destruct (allocate_refines fuel bytes m l R L1 ltac:(lia)) as (m' & E & R' & _). by exists m'. }
    destruct (deallocate_refines p bytes m l R L1) as (m' & -> & R'). by exists m'. }
  rewrite E1. cbn [bindo]. pose proof (spec_length q l).
  destruct (IH m1 _ R1 L2 ltac:(lia)) as (m2 & E2 & R2). rewrite E2. cbn [bindo].
  exists m2. destruct (spec q l) as [a l1]. cbn in *. destruct (spec_all qs l1). done.
Qed.

(** The abstract allocator takes a smallest block that fits. *)
Lemma best_fit_spec bytes l : 0 < bytes -> Forall (fun '(a, size) => a <> 0 /\ 0 <= size < 2 ^ 64) l ->
  NoDup (map fst l) ->
  let (a, l') := spec (Allocate bytes) l in
  (a = 0 /\ l' = l /\ Forall (fun '(_, size) => size < bytes) l) \/
  (exists l1 size l2, l = l1 ++ (a, size) :: l2 /\ l' = l1 ++ l2 /\ bytes <= size /\
     Forall (fun '(_, size') => bytes <= size' -> size <= size') l).
Proof.
  intros Hb F D. cbn. destruct (Z.eqb_spec bytes 0); [lia|].
  destruct (best_fits bytes 0 (2 ^ 64 - 1) l ltac:(lia)) as [[-> A]|(l1 & size & l2 & E & B & A)].
  - left. split_and!; [done|done|]. rewrite Forall_forall in *. intros [a s] Hx.
    specialize (F _ Hx). specialize (A _ Hx). cbn in *. lia.
  - right. set (a := best bytes 0 (2 ^ 64 - 1) l) in *. exists l1, size, l2.
    assert (a <> 0) by (rewrite E in F; apply Forall_app in F as [_ [F _]%Forall_cons]; tauto).
    destruct (Z.eqb_spec a 0); [done|]. split_and!; [done| |lia|done].
    rewrite E at 1. apply remove_block_app. rewrite E, map_app in D. apply NoDup_app in D as (_ & D & _).
    intros Ha. apply (D a Ha). by left.
Qed.

(** The answer is a best fit.  [allocate] returns for every nonzero request, after at most one visit to each free
    block.  It answers null only when every free block is too small, and the list is then as before;
    otherwise it takes a block that fits and is the smallest that does, and that block alone leaves the list. *)
Theorem allocate_best_fit fuel bytes m l : rep r m l -> 0 < bytes < 2 ^ 64 -> (length l < fuel)%nat ->
  exists a m' l', allocate fuel r bytes m = Done (a, m') /\ rep r m' l' /\
    ((a = nullptr /\ l' = l /\ Forall (fun '(_, size) => size < bytes) l) \/
     (a <> nullptr /\ exists l1 size l2, l = l1 ++ (a, size) :: l2 /\ l' = l1 ++ l2 /\ bytes <= size /\
        Forall (fun '(_, size') => bytes <= size' -> size <= size') l)).
Proof.
  intros R Hb Hf. destruct (rep_facts m l R) as (_ & _ & _ & D & N & _). pose proof R as (_ & _ & F & _).
  destruct (allocate_refines fuel bytes m l R ltac:(lia) Hf) as (m' & E & R' & _).
  assert (F' : Forall (fun '(a, size) => a <> 0 /\ 0 <= size < 2 ^ 64) l).
  { rewrite Forall_forall in F |- *. intros [a s] Hx. specialize (F _ Hx). cbn in F. split; [|lia].
    apply N. apply list_elem_of_fmap. by exists (a, s). }
  apply NoDup_cells_cons in D as (_ & _ & _ & D%NoDup_addrs).
  pose proof (best_fit_spec bytes l ltac:(lia) F' D) as B. rewrite E. clear E.
  destruct (spec (Allocate bytes) l) as [a l']. exists a, m', l'. cbn [fst snd] in R'. split_and!; [done..|].
  destruct B as [B|(l1 & size & l2 & E & B)]; [by left|right]. split; [|by exists l1, size, l2].
  rewrite E in F'. apply Forall_app in F' as [_ [F' _]%Forall_cons]. apply F'.
Qed.
End Correct.

(** The constructor leaves an empty list, or stops when the buffer has no room for the metadata. *)
Lemma construct_rep start size m : 0 < start -> 0 <= size -> start + size <= 2 ^ 63 ->
  match construct start size m with
  | Done (r, m') => rep r m' [] /\ start <= m_mutex r /\ m_mutex r + 8 = m_head r /\ m_head r + 24 <= start + size
  | Failed e => e = Aborted "Insufficient space to store metadata" /\ size < 39
  end.
Proof.
  intros Hs Hz Hb. unfold construct. rewrite align8_spec by lia.
  pose proof (align_up_bounds 8 start ltac:(lia)) as B1.
  pose proof (align_up_multiple 8 start ltac:(lia)) as M1.
  set (c := align_up 8 start) in *.
  destruct (Z.leb_spec (c + 8) (start + size)); unfold ptr_eqb, nullptr; [|cbn; split; [done|lia]].
  destruct (Z.eqb_spec c 0); [lia|]. unfold sizeof_FreeListNode.
  rewrite (wrapU_id 64 (size - (c - start) - 8)) by (unfold inU; lia).
  destruct (Z.ltb_spec (size - (c - start) - 8) 24); [split; [done|lia]|].
  rewrite ptr_add_small, Z.mul_1_r by (unfold inU; lia).
  assert (M2 : (c + 8) mod 8 = 0) by (rewrite mod_add_same; lia).
  rewrite align8_spec, align_up_id by lia.
  destruct (Z.leb_spec (c + 8 + 24) (c + 8 + (size - (c - start) - 8))); [|split; [done|lia]].
  destruct (Z.eqb_spec (c + 8) 0); [lia|]. unfold InplaceMutex.initialize. rewrite M1.
  cbn [bindo guard_or Z.eqb m_mutex m_head].
  assert (Cells : forall x, x ∈ cells [(c + 8, 0)] -> x <> c).
  { intros x Hx. rewrite elem_of_cells_cons in Hx. set_unfold in Hx. lia. }
  split_and!; [|lia|lia|lia]. split_and!; [split; [done|apply load_store_eq]| |constructor|].
  - constructor; [intros Hx; by destruct (Cells _ Hx)|]. apply (NoDup_cells_cons _ 0 []). split_and!; set_solver || constructor.
  - apply seg_store; [intros Hx; by destruct (Cells _ Hx)|].
    cbn [seg head_addr]. unfold write_node, set_blockSize, set_previous, set_next, next, previous, blockSize.
    cbn [n_next n_previous n_blockSize m_head m_mutex].
    rewrite !load_store. repeat (case_decide; try lia).
Qed.

(** A list in a 64-byte buffer at 4096, and two blocks to free. *)
Definition example_resource : t := mk 4104 4096.
Definition example_mem : mem := store (store (store (store ∅ 4104 0) 4112 0) 4120 0) 4096 0.

Lemma example_rep : rep example_resource example_mem [].
Proof.
  pose proof (construct_rep 4096 64 ∅ ltac:(done) ltac:(done) ltac:(done)) as C.
  assert (E : construct 4096 64 ∅ = Done (example_resource, example_mem)) by (vm_compute; reflexivity).
  rewrite E in C. apply C.
Defined.

Lemma example_legal :
  legal_all example_resource [Free 8192 100; Free 16384 40; Allocate 32; Allocate 32; Allocate 32] [].
Proof.
  cbn -[Z.le Z.lt Z.modulo Z.pow]. split_and!;
    first [exact I | reflexivity | vm_compute; congruence | eapply bool_decide_unpack; vm_compute; exact I].
Defined.

Lemma serve_refines_witness :
  exists m', serve example_resource 1 (Free 8192 100) example_mem = Done (0, m') /\
    rep example_resource m' [(8192, 100)].
Proof.
  apply (serve_refines example_resource 1 (Free 8192 100) example_mem []);
    [exact example_rep | exact (proj1 example_legal) | cbn; lia].
Defined.

Lemma serve_all_refines_witness :
  exists m', serve_all example_resource 6 [Free 8192 100; Free 16384 40; Allocate 32; Allocate 32; Allocate 32]
    example_mem = Done ([0; 0; 16384; 8192; 0], m') /\ rep example_resource m' [].
Proof.
  apply (serve_all_refines example_resource 6
    [Free 8192 100; Free 16384 40; Allocate 32; Allocate 32; Allocate 32] example_mem []);
    [exact example_rep | exact example_legal | cbn; lia].
Defined.

Lemma example_two : exists m, rep example_resource m [(16384, 40); (8192, 100)].
Proof.
  destruct (deallocate_refines example_resource 8192 100 example_mem [] example_rep) as (m1 & _ & R1).
  { exact (proj1 example_legal). }
  destruct (deallocate_refines example_resource 16384 40 m1 _ R1) as (m2 & _ & R2).
  { exact (proj1 (proj2 example_legal)). }
  by exists m2.
Qed.

Lemma allocate_best_fit_witness : exists m a m' l', rep example_resource m [(16384, 40); (8192, 100)] /\
  allocate 3 example_resource 32 m = Done (a, m') /\ rep example_resource m' l' /\
  ((a = nullptr /\ l' = [(16384, 40); (8192, 100)] /\ Forall (fun '(_, size) => size < 32) [(16384, 40); (8192, 100)]) \/
   (a <> nullptr /\ exists l1 size l2, [(16384, 40); (8192, 100)] = l1 ++ (a, size) :: l2 /\ l' = l1 ++ l2 /\ 32 <= size /\
      Forall (fun '(_, size') => 32 <= size' -> size <= size') [(16384, 40); (8192, 100)])).
Proof.
  destruct example_two as [m R]. exists m.
  destruct (allocate_best_fit example_resource 3 32 m _ R) as (a & m' & l' & H); [lia|cbn; lia|]. by exists a, m', l'.
Defined.
End FreeList.
