(* ===== verification/MemoryResources.v ===== *)
(** * The composite memory resources

    [pando-rt/src/memory_resources.cpp] and [pando-rt/memory_resource.hpp]: how a region of memory is broken
    down into buckets, and the L2SP and main-memory resources that chain slab resources, a
    bump resource and a free list.  What a resource in a chain promises is stated once, as a
    class; the chain's theorems are proved against it and the slab and bump resources
    discharge it. *)

From S2P Require Import Prelude GlobalPtr BumpResource SlabResource FreeListResource.
From Stdlib Require Import SpecFloat.

(** ** Doubles

    IEEE 754 binary64 through the Standard Library's [SpecFloat]. *)

Module Double.
Definition mul : spec_float -> spec_float -> spec_float := SFmul 53 1024.
Definition div : spec_float -> spec_float -> spec_float := SFdiv 53 1024.
(** [m * 2^e], rounded to nearest. *)
Definition make (m e : Z) : spec_float := binary_normalize 53 1024 m e false.
(** [static_cast<double>] of an unsigned integer. *)
Definition of_Z (n : Z) : spec_float := make n 0.
(** [static_cast<std::size_t>]: truncation; values outside the target type have no meaning. *)
Definition to_size (x : spec_float) : outcome Z :=
  match x with
  | S754_zero _ => Done 0
  | S754_finite false m e =>
      let t := if 0 <=? e then Z.shiftl (Z.pos m) e else Z.shiftr (Z.pos m) (- e) in
      if t <? 2 ^ 64 then Done t else Failed (Undefined "double to size_t")
  | _ => Failed (Undefined "double to size_t")
  end.
End Double.

(** ** The breakdown of a region into buckets *)

Module Buckets.

(** src/pando-rt/include/pando-rt/memory_resource.hpp:25-29 [MemoryBucket] *)
Record MemoryBucket := Bucket { ratio : spec_float; bytes : Z; start : Z }.

(** [alignof(MaxAlignT)] and [alignof(max_align_t)]. *)
Definition MaxAlign : Z := 16.

(** src/pando-rt/src/memory_resources.cpp:34-50 [alignStartAndRound] *)
Definition alignStartAndRound (Alignment : Z) (slabBucket previousBucket : MemoryBucket)
    (bufferStart bufferSize : Z) : outcome MemoryBucket :=
  let! scaled := Double.to_size (Double.mul (ratio slabBucket) (Double.of_Z bufferSize)) in
  let maximumAlignedChunks := scaled / Alignment in
  let bytes := u64 (maximumAlignedChunks * Alignment) in
  let start' := ptr_add 1 (start previousBucket) (Buckets.bytes previousBucket) in
  let remainingBytes := u64 (bufferSize - ptr_diff 1 (start previousBucket) bufferStart) in
  let '(alignmentResult, _, _) := align Alignment bytes start' remainingBytes in
  if ptr_eqb alignmentResult nullptr then Failed (Aborted "Failed to align the a memory bucket")
  else Done (Bucket (ratio slabBucket) bytes alignmentResult).

(** src/pando-rt/src/memory_resources.cpp:61-77 [initializeFreeListResourceBucket] *)
Definition initializeFreeListResourceBucket (previousBucket : MemoryBucket) (bufferStart bufferSize : Z)
    : outcome MemoryBucket :=
  let bytes := FreeList.computeMetadataSize in
  let ratio := Double.div (Double.of_Z bytes) (Double.of_Z bufferSize) in
  let start' := ptr_add 1 (start previousBucket) (Buckets.bytes previousBucket) in
  let remainingBytes := u64 (bufferSize - ptr_diff 1 start' bufferStart) in
  let '(freeListAlignResult, _, _) := align MaxAlign bytes start' remainingBytes in
  if ptr_eqb freeListAlignResult nullptr then Failed (Aborted "Failed to align the FreeList resource")
  else Done (Bucket ratio bytes freeListAlignResult).

(** src/pando-rt/src/memory_resources.cpp:87-105 [initializeBumpResourceBucket] *)
Definition initializeBumpResourceBucket (previousBucket : MemoryBucket) (bufferStart bufferSize : Z)
    : outcome MemoryBucket :=
  let start' := ptr_add 1 (start previousBucket) (Buckets.bytes previousBucket) in
  let bumpMinimumSize := Bump.computeMetadataSize in
  let remainingBytes := u64 (bufferSize - ptr_diff 1 start' bufferStart) in
  let '(bumpAlignResult, _, remainingBytes) := align MaxAlign bumpMinimumSize start' remainingBytes in
  let bytes := remainingBytes in
  if ptr_eqb bumpAlignResult nullptr || (bytes <=? bumpMinimumSize)
  then Failed (Aborted "Main memory resource buckets breakdown is misconfigured")
  else Done (Bucket (Double.div (Double.of_Z bytes) (Double.of_Z bufferSize)) bytes bumpAlignResult).

(** src/pando-rt/include/pando-rt/memory_resource.hpp:59-64 [L2SPResourceRatioBreakdown] *)
Record L2SPBreakdown := L2SP { l2_bucket8 : MemoryBucket; l2_bucket16 : MemoryBucket;
  l2_bucket32 : MemoryBucket; l2_freeList : MemoryBucket; l2_bump : MemoryBucket }.

(** src/pando-rt/include/pando-rt/memory_resource.hpp:36-43 [MainMemoryResourceRatioBreakdown] *)
Record MainBreakdown := Main { mm_bucket8 : MemoryBucket; mm_bucket16 : MemoryBucket;
  mm_bucket32 : MemoryBucket; mm_bucket64 : MemoryBucket; mm_bucket128 : MemoryBucket;
  mm_freeList : MemoryBucket; mm_bump : MemoryBucket }.

(** A chain of slab buckets [(Alignment, ratio)], each laid out after the one before. *)
Fixpoint layoutSlabs (specs : list (Z * spec_float)) (previousBucket : MemoryBucket)
    (bufferStart bufferSize : Z) : outcome (list MemoryBucket * MemoryBucket) :=
  match specs with
  | [] => Done ([], previousBucket)
  | (Alignment, ratio) :: specs =>
      let! bucket := alignStartAndRound Alignment (Bucket ratio 0 nullptr) previousBucket bufferStart bufferSize in
      let! (rest, last) := layoutSlabs specs bucket bufferStart bufferSize in
      Done (bucket :: rest, last)
  end.

(** The literals [0.2], [0.3f] and [0.4], and [0.006f], [0.063f] and [0.031f]. *)
Definition l2_specs : list (Z * spec_float) :=
  [(8, Double.make 3602879701896397 (-54)); (16, Double.make 5033165 (-24)); (32, Double.make 3602879701896397 (-53))].
Definition mm_specs : list (Z * spec_float) :=
  [(8, Double.make 6442451 (-30)); (16, Double.make 6442451 (-30)); (32, Double.make 6442451 (-30));
   (64, Double.make 8455717 (-27)); (128, Double.make 8321499 (-28))].

(** src/pando-rt/src/memory_resources.cpp:142-160 [L2SPResourceRatioBreakdown::L2SPResourceRatioBreakdown] *)
Definition L2SPResourceRatioBreakdown (bufferStart bufferSize : Z) : outcome L2SPBreakdown :=
  let startBucket := Bucket (S754_zero false) 0 bufferStart in
  let! (slabs, last) := layoutSlabs l2_specs startBucket bufferStart bufferSize in
  let! freeList := initializeFreeListResourceBucket last bufferStart bufferSize in
  let! bump := initializeBumpResourceBucket freeList bufferStart bufferSize in
  match slabs with
  | [bucket8; bucket16; bucket32] => Done (L2SP bucket8 bucket16 bucket32 freeList bump)
  | _ => Failed (Undefined "unreachable")
  end.

(** src/pando-rt/src/memory_resources.cpp:162-188 [MainMemoryResourceRatioBreakdown::MainMemoryResourceRatioBreakdown] *)
Definition MainMemoryResourceRatioBreakdown (bufferStart bufferSize : Z) : outcome MainBreakdown :=
  let startBucket := Bucket (S754_zero false) 0 bufferStart in
  let! (slabs, last) := layoutSlabs mm_specs startBucket bufferStart bufferSize in
  let! freeList := initializeFreeListResourceBucket last bufferStart bufferSize in
  let! bump := initializeBumpResourceBucket freeList bufferStart bufferSize in
  match slabs with
  | [bucket8; bucket16; bucket32; bucket64; bucket128] =>
      Done (Main bucket8 bucket16 bucket32 bucket64 bucket128 freeList bump)
  | _ => Failed (Undefined "unreachable")
  end.

Example layout_1MiB :
  mapo (fun l => map (fun b => (start b, bytes b))
    [l2_bucket8 l; l2_bucket16 l; l2_bucket32 l; l2_freeList l; l2_bump l])
    (L2SPResourceRatioBreakdown 4096 (2 ^ 20)) =
  Done [(4096, 209712); (213808, 314560); (528384, 419424); (947808, 32); (947840, 104832)].
Proof. vm_compute. reflexivity. Qed.

(** ** Layout *)

Definition scaled (size : Z) (r : spec_float) : outcome Z := Double.to_size (Double.mul r (Double.of_Z size)).
Definition end_ (b : MemoryBucket) : Z := start b + bytes b.

Lemma ptr_diff_fwd p q : 0 <= p -> p <= q < 2 ^ 63 -> ptr_diff 1 q p = q - p.
Proof.
  intros. unfold ptr_diff. rewrite wrapU_id, Z.div_1_r by (unfold inU; lia).
  apply wrapS_id; [lia|]. unfold inS. lia.
Qed.

Lemma alignStartAndRound_spec k r prev bufferStart size s :
  0 <= k <= 7 -> 0 < bufferStart <= start prev -> 0 <= bytes prev ->
  bufferStart + size <= 2 ^ 61 -> scaled size r = Done s -> 0 <= s <= 2 ^ 61 ->
  align_up (2 ^ k) (end_ prev) + s <= bufferStart + size ->
  exists b, alignStartAndRound (2 ^ k) (Bucket r 0 nullptr) prev bufferStart size = Done b /\
    start b = align_up (2 ^ k) (end_ prev) /\ bytes b = s / 2 ^ k * 2 ^ k.
Proof.
  intros Hk Hs Hp Hb Es Hsz Hfit. pose proof (pow2_pos k ltac:(lia)).
  assert (2 ^ k <= 2 ^ 7) by (apply Z.pow_le_mono_r; lia).
  pose proof (align_up_bounds (2 ^ k) (end_ prev) ltac:(lia)). unfold end_ in *.
  pose proof (Z.mul_div_le s (2 ^ k) ltac:(lia)). pose proof (Z.div_pos s (2 ^ k) ltac:(lia) ltac:(lia)).
  unfold alignStartAndRound. cbn [ratio]. unfold scaled in Es. rewrite Es. cbn [bindo].
  rewrite (wrapU_id 64 (s / _ * _)) by (unfold inU; nia).
  rewrite ptr_add_small, Z.mul_1_r by (unfold inU; lia). rewrite ptr_diff_fwd by lia.
  rewrite wrapU_id by (unfold inU; lia). rewrite align_spec by nia.
  destruct (Z.leb_spec (align_up (2 ^ k) (start prev + bytes prev) + s / 2 ^ k * 2 ^ k)
    (start prev + bytes prev + (size - (start prev - bufferStart)))); [|nia].
  unfold ptr_eqb, nullptr. destruct (Z.eqb_spec (align_up (2 ^ k) (start prev + bytes prev)) 0); [lia|].
  eexists. split; [done|]. done.
Qed.

Lemma align16_spec size ptr space :
  0 < ptr -> 0 <= size -> 0 <= space -> ptr + space <= 2 ^ 63 ->
  align MaxAlign size ptr space =
    if align_up 16 ptr + size <=? ptr + space
    then (align_up 16 ptr, align_up 16 ptr, space - (align_up 16 ptr - ptr)) else (nullptr, ptr, space).
Proof. apply (align_spec 4). lia. Qed.

Lemma tail_bucket_specs prev bufferStart size :
  0 < bufferStart <= start prev -> 0 <= bytes prev -> end_ prev <= bufferStart + size <= 2 ^ 61 ->
  let a := align_up 16 (end_ prev) in
  (a + 32 <= bufferStart + size ->
   exists b, initializeFreeListResourceBucket prev bufferStart size = Done b /\ start b = a /\ bytes b = 32) /\
  (a + 16 < bufferStart + size ->
   exists b, initializeBumpResourceBucket prev bufferStart size = Done b /\ start b = a /\
     bytes b = bufferStart + size - a).
Proof.
  intros Hs Hp He a. pose proof (align_up_bounds 16 (end_ prev) ltac:(lia)) as Ba. fold a in Ba. unfold end_ in *.
  unfold initializeFreeListResourceBucket, initializeBumpResourceBucket.
  rewrite ptr_add_small, Z.mul_1_r by (unfold inU; lia). rewrite ptr_diff_fwd by lia.
  change FreeList.computeMetadataSize with 32. change Bump.computeMetadataSize with 16.
  rewrite wrapU_id by (unfold inU; lia). rewrite !align16_spec by lia. fold a.
  unfold ptr_eqb, nullptr. split; intros H.
  - destruct (Z.leb_spec (a + 32) (start prev + bytes prev + (size - (start prev + bytes prev - bufferStart)))); [|lia].
    destruct (Z.eqb_spec a 0); [lia|]. eexists. split; [done|]. done.
  - destruct (Z.leb_spec (a + 16) (start prev + bytes prev + (size - (start prev + bytes prev - bufferStart)))); [|lia].
    destruct (Z.eqb_spec a 0); [lia|]. cbn [orb].
    destruct (Z.leb_spec (size - (start prev + bytes prev - bufferStart) - (a - (start prev + bytes prev))) 16); [lia|].
    eexists. split; [done|]. split; [done|]. cbn. lia.
Qed.

(** The buckets follow each other without overlap inside [lo, hi), each aligned as the resource in it requires. *)
Fixpoint laid_out (lo hi : Z) (bs : list (Z * MemoryBucket)) : Prop :=
  match bs with
  | [] => lo <= hi
  | (A, b) :: bs => lo <= start b /\ start b mod A = 0 /\ 0 <= bytes b /\ laid_out (end_ b) hi bs
  end.

(** A chain of slab buckets, when the scaled sizes leave room for the alignment gaps. *)
Fixpoint sizes_ok (size : Z) (specs : list (Z * spec_float)) (total : Z) : Prop :=
  match specs with
  | [] => total = 0
  | (A, r) :: specs => exists k s rest, 0 <= k <= 7 /\ A = 2 ^ k /\ scaled size r = Done s /\ 0 <= s /\
      sizes_ok size specs rest /\ total = s + A + rest
  end.

Lemma sizes_ok_nonneg size specs total : sizes_ok size specs total -> 0 <= total.
Proof.
  revert total. induction specs as [|[A r] specs IH]; intros total; cbn; [lia|].
  intros (k & s & rest & ? & -> & _ & ? & S & ->). apply IH in S. pose proof (pow2_pos k ltac:(lia)). lia.
Qed.

Lemma layoutSlabs_spec specs bufferStart size : forall total prev,
  sizes_ok size specs total -> 0 < bufferStart <= start prev -> 0 <= bytes prev ->
  end_ prev + total <= bufferStart + size <= 2 ^ 61 ->
  exists bs last, layoutSlabs specs prev bufferStart size = Done (bs, last) /\
    length bs = length specs /\ bufferStart <= start last /\ 0 <= bytes last /\ end_ last <= end_ prev + total /\
    forall hi tl, laid_out (end_ last) hi tl -> laid_out (end_ prev) hi (zip (map fst specs) bs ++ tl).
Proof.
  induction specs as [|[A r] specs IH]; intros total prev S Hs Hp Hf; cbn [layoutSlabs].
  - exists [], prev. cbn in S. split_and!; try done; lia.
  - destruct S as (k & s & rest & Hk & -> & Es & Hsz & S & ->). pose proof (sizes_ok_nonneg _ _ _ S).
    assert (1 <= 2 ^ k <= 2 ^ 7) by (pose proof (pow2_pos k ltac:(lia)); pose proof (Z.pow_le_mono_r 2 k 7 ltac:(lia) ltac:(lia)); lia).
    pose proof (align_up_bounds (2 ^ k) (end_ prev) ltac:(lia)).
    pose proof (align_up_multiple (2 ^ k) (end_ prev) ltac:(lia)).
    pose proof (Z.mul_div_le s (2 ^ k) ltac:(lia)). pose proof (Z.div_pos s (2 ^ k) ltac:(lia) ltac:(lia)).
    destruct (alignStartAndRound_spec k r prev bufferStart size s) as (b & -> & Eb1 & Eb2);
      [done|done|done|lia|done|unfold end_ in *; lia|lia|].
    cbn [bindo]. assert (0 <= bytes b <= s) by (rewrite Eb2; split; [apply Z.mul_nonneg_nonneg|]; lia).
    destruct (IH rest b S) as (bs & last & -> & L & L1 & L2 & L3 & L4);
      [unfold end_ in *; lia|lia|unfold end_ in *; lia|].
    cbn [bindo]. exists (b :: bs), last. split_and!; [done|cbn; by f_equal|done|done|unfold end_ in *; lia|].
    intros hi tl Htl. cbn [map fst zip zip_with app laid_out]. rewrite Eb1. split_and!; [lia|done|lia|].
    by apply L4.
Qed.

(** The L2SP region's breakdown.  When the three scaled slab shares leave 150 bytes of the region,
    the constructor succeeds and lays the three slab buckets, the free list's metadata and
    the bump bucket out in this order, without overlap, each aligned as its resource requires, and
    the bump bucket runs to the end of the region. *)
Theorem L2SP_layout bufferStart size total :
  0 < bufferStart -> bufferStart + size <= 2 ^ 61 -> sizes_ok size l2_specs total -> total + 94 <= size ->
  exists l, L2SPResourceRatioBreakdown bufferStart size = Done l /\
    laid_out bufferStart (bufferStart + size)
      [(8, l2_bucket8 l); (16, l2_bucket16 l); (32, l2_bucket32 l); (16, l2_freeList l); (16, l2_bump l)] /\
    bytes (l2_freeList l) = FreeList.computeMetadataSize /\ end_ (l2_bump l) = bufferStart + size /\
    Bump.computeMetadataSize < bytes (l2_bump l).
Proof.
  intros Hs Hb S Ht. unfold L2SPResourceRatioBreakdown.
  destruct (layoutSlabs_spec l2_specs bufferStart size total (Bucket (S754_zero false) 0 bufferStart) S)
    as (bs & last & -> & L & L1 & L2 & L3 & L4); [cbn; lia|cbn; lia|unfold end_; cbn; lia|].
  unfold end_ in L3 at 2. cbn [start bytes] in L3. cbn [bindo].
  pose proof (align_up_bounds 16 (end_ last) ltac:(lia)).
  destruct (tail_bucket_specs last bufferStart size) as [(f & -> & F1 & F2) _]; [lia|lia|lia|lia|].
  cbn [bindo]. assert (Ef : end_ f = align_up 16 (end_ last) + 32) by (unfold end_ at 1; lia).
  pose proof (align_up_bounds 16 (end_ f) ltac:(lia)).
  destruct (tail_bucket_specs f bufferStart size) as [_ (u & -> & U1 & U2)];
    [unfold end_ in *; lia|lia|lia|lia|].
  cbn [bindo]. destruct bs as [|b8 [|b16 [|b32 [|]]]]; try discriminate L.
  eexists. split; [done|]. cbn [l2_bucket8 l2_bucket16 l2_bucket32 l2_freeList l2_bump].
  pose proof (align_up_multiple 16 (end_ last)). pose proof (align_up_multiple 16 (end_ f)).
  split_and!; [|exact F2|unfold end_; lia|change Bump.computeMetadataSize with 16; lia].
  pose proof (L4 (bufferStart + size) [(16, f); (16, u)]) as L5.
  replace (end_ (Bucket (S754_zero false) 0 bufferStart)) with bufferStart in L5 by (unfold end_; cbn; lia).
  apply L5. cbn [laid_out]. rewrite F1, U1. split_and!; try done; try lia. unfold end_ at 1. lia.
Qed.

Lemma L2SP_layout_witness : exists l, L2SPResourceRatioBreakdown 4096 (2 ^ 20) = Done l /\
  end_ (l2_bump l) = 4096 + 2 ^ 20.
Proof.
  destruct (L2SP_layout 4096 (2 ^ 20) (209715 + 8 + (314572 + 16 + (419430 + 32)))) as (l & E & _ & _ & En & _); [done|done| |done|].
  - exists 3, 209715, (314572 + 16 + (419430 + 32)). split_and!; try done. cbn.
    exists 4, 314572, (419430 + 32). split_and!; try done. cbn.
    exists 5, 419430, 0. split_and!; done.
  - exists l. split; assumption.
Defined.
End Buckets.

(** ** Chains of resources *)

Module Chain.

(** What a template parameter of [chainedTryAllocate] provides. *)
Record resource := Resource {
  allocate : Z -> mem -> outcome (Z * mem);
  deallocate : Z -> Z -> mem -> outcome mem;
  pointerIsOwned : Z -> bool;
  supportsFree : bool }.

(** src/pando-rt/src/memory_resources.cpp:107-122 [chainedTryAllocate] *)
Fixpoint chainedTryAllocate (bytes : Z) (first : resource) (rest : list resource) (m : mem)
    : outcome (Z * mem) :=
  match rest with
  | [] => allocate first bytes m
  | second :: rest =>
      let! (ptr, m) := allocate first bytes m in
      if negb (ptr_eqb ptr nullptr) then Done (ptr, m) else chainedTryAllocate bytes second rest m
  end.

(** src/pando-rt/src/memory_resources.cpp:124-138 [chainedTryDeallocate] *)
Fixpoint chainedTryDeallocate (p bytes : Z) (first : resource) (rest : list resource) (m : mem)
    : outcome mem :=
  match rest with
  | [] => deallocate first p bytes m
  | second :: rest =>
      if pointerIsOwned first p && supportsFree first then deallocate first p bytes m
      else chainedTryDeallocate p bytes second rest m
  end.

Definition slab (slabSize : Z) (r : Slab.t) : resource :=
  Resource (Slab.allocate slabSize r) (fun p _ => Slab.deallocate slabSize r p)
    (Slab.pointerIsOwned r) Slab.supportsFree.

Definition bump (logAlign : Z) (b : Bump.t) : resource :=
  Resource (Bump.allocate logAlign b) (fun p n m => Done (Bump.deallocate b p n m))
    (Bump.pointerIsOwned b) Bump.supportsFree.

(** What the chain relies on: an invariant that depends on the resource's control cells alone, and an
    allocation that always returns, touches those cells alone, and fails only when the
    resource has no room, changing nothing. *)
Class Allocates (c : resource) (inv : mem -> Prop) (control : Z -> Prop) (full : Z -> mem -> Prop) : Prop := {
  inv_frame m m' : (forall a, control a -> load m' a = load m a) -> inv m -> inv m';
  full_frame n m m' : (forall a, control a -> load m' a = load m a) -> full n m -> full n m';
  allocate_ok n m : inv m -> 0 <= n <= 2 ^ 63 ->
    exists p m', allocate c n m = Done (p, m') /\ inv m' /\
      (forall a, ~ control a -> load m' a = load m a) /\
      (p = nullptr -> full n m) }.

(** A slab resource is initialized, or as its constructor left it. *)
Definition slab_inv (r : Slab.t) (m : mem) : Prop :=
  Slab.ready r m \/ load m (Slab.m_initializationState r) = 2.
(** The initialization state and the header. *)
Definition slab_control (slabSize : Z) (r : Slab.t) (a : Z) : Prop :=
  a = Slab.m_initializationState r \/ Slab.m_buffer r <= a < Slab.slab_addr slabSize r 0.
Definition slab_full (slabSize : Z) (r : Slab.t) (n : Z) (m : mem) : Prop :=
  slabSize < n \/ Slab.ready r m /\ forall s, 0 <= s < Slab.m_numUserSlabs r -> Slab.used r m s = true.

Section SlabFrame.
Context (slabSize : Z) (r : Slab.t) (Hsz : Slab.slabSize_ok slabSize) (W : Slab.wf slabSize r).

Lemma word_control i : 0 <= i < Slab.m_numBitmaps r -> slab_control slabSize r (Slab.word_addr r i).
Proof.
  intros Hi. right. rewrite (Slab.word_addr_eq slabSize) by done. unfold Slab.slab_addr.
  destruct W as (_ & _ & _ & _ & _ & W6 & _). lia.
Qed.

Lemma used_frame m m' s : (forall a, slab_control slabSize r a -> load m' a = load m a) ->
  0 <= s < Slab.m_numBitmaps r * 64 -> Slab.used r m' s = Slab.used r m s.
Proof.
  intros F Hs. unfold Slab.used. rewrite F; [done|]. apply word_control. by apply (Slab.user_word r).
Qed.

Lemma ready_frame m m' : (forall a, slab_control slabSize r a -> load m' a = load m a) ->
  Slab.ready r m -> Slab.ready r m'.
Proof.
  intros F (R1 & R2 & R3). split_and!.
  - rewrite F; [done|]. by left.
  - intros i Hi. rewrite F; [auto|]. by apply word_control.
  - intros s Hs. rewrite (used_frame m m'); auto. destruct W as (_ & _ & ? & _). lia.
Qed.

Lemma slab_ready_ok n m : Slab.ready r m ->
  exists p m', Slab.allocate slabSize r n m = Done (p, m') /\ Slab.ready r m' /\
    (forall a, ~ slab_control slabSize r a -> load m' a = load m a) /\
    (p = nullptr -> slabSize < n \/ forall s, 0 <= s < Slab.m_numUserSlabs r -> Slab.used r m s = true).
Proof.
  intros R. rewrite Slab.allocate_ready, Z.gtb_ltb by done.
  destruct (Z.ltb_spec slabSize n).
  { exists nullptr, m. split_and!; [done|done|done|]. intros _. by left. }
  destruct (Slab.allocateFrom_spec slabSize Hsz r W m (Z.to_nat (Slab.m_numBitmaps r)) R 0)
    as (p & m' & E & [T|(-> & -> & A)]); [lia| |lia| |].
  - destruct W as (_ & _ & ? & _ & -> & _). rewrite Z2Nat.id; [done|]. apply Z.div_pos; lia.
  - exists p, m'. pose proof T as (s & Hs & _ & _ & Ep & Em).
    pose proof (Slab.user_slots slabSize r W s Hs) as U. destruct (Slab.user_word r s U).
    split_and!; [done| | |].
    + by eapply Slab.takes_ready.
    + intros a Ha. rewrite Em. apply load_store_ne. intros <-. apply Ha. by apply word_control.
    + intros ->. exfalso. destruct W as (? & ? & ? & ? & _). destruct Hsz as [? _].
      unfold Slab.slab_addr, nullptr in Ep. nia.
  - exists nullptr, m. split_and!; [done|done|done|]. intros _. by right.
Qed.
End SlabFrame.

#[export] Instance slab_allocates slabSize r (Hsz : Slab.slabSize_ok slabSize) (W : Slab.wf slabSize r) :
  Allocates (slab slabSize r) (slab_inv r) (slab_control slabSize r) (slab_full slabSize r).
Proof.
  split.
  - intros m m' F [R|I]; [left; by eapply ready_frame|]. right. rewrite F; [done|by left].
  - intros n m m' F [L|[R U]]; [by left|]. right. split; [by eapply ready_frame|].
    intros s Hs. rewrite (used_frame slabSize r Hsz W m m'); auto. by eapply Slab.user_slots.
  - intros n m I _. cbn [allocate slab]. destruct I as [R|I].
    + destruct (slab_ready_ok slabSize r Hsz W n m R) as (p & m' & E & R' & F & N).
      exists p, m'. split_and!; [done|by left|done|]. intros Hp. destruct (N Hp); [by left|by right].
    + destruct (Slab.allocate_init slabSize Hsz r W m n I) as (m1 & _ & R & U & F1 & ->).
      destruct (slab_ready_ok slabSize r Hsz W n m1 R) as (p & m' & E & R' & F & N).
      exists p, m'. split_and!; [done|by left| |].
      * intros a Ha. rewrite F by done. apply F1; unfold slab_control in Ha; tauto.
      * intros Hp. destruct (N Hp) as [L|A]; [by left|]. destruct W as (_ & _ & ? & _).
        specialize (A 0 ltac:(lia)). by rewrite U in A by lia.
Qed.

Definition bump_control (b : Bump.t) (a : Z) : Prop := a = Bump.m_curOffset b \/ a = Bump.m_mutex b.
Definition bump_full (logAlign : Z) (b : Bump.t) (n : Z) (m : mem) : Prop :=
  Bump.m_buffer b + Bump.m_capacity b < Bump.next logAlign b m + n.

#[export] Instance bump_allocates logAlign b (Hal : 0 <= logAlign < 63) :
  Allocates (bump logAlign b) (Bump.wf b) (bump_control b) (bump_full logAlign b).
Proof.
  split.
  - intros m m' F (W1 & W2 & W3 & W4 & W5 & [W6 W7] & W8). unfold Bump.wf, InplaceMutex.free.
    rewrite !F by (unfold bump_control; auto). tauto.
  - intros n m m' F. unfold bump_full, Bump.next, Bump.used. rewrite F; [done|]. by left.
  - intros n m W Hn. pose proof W as (W1 & W2 & W3 & W4 & W5 & [W6 W7] & W8).
    destruct (Bump.allocate_wf logAlign Hal b n m W Hn) as (p & m' & E & W' & F & Ep & Eu).
    cbn [allocate bump]. rewrite E. exists p, m'. split_and!; [done|done| |].
    + intros a Ha. apply F; intros ->; apply Ha; unfold bump_control; auto.
    + intros ->. pose proof (Bump.next_bounds logAlign Hal b m). unfold bump_full, nullptr, Bump.used in *.
      destruct (Z.leb_spec (Bump.next logAlign b m + n) (Bump.m_buffer b + Bump.m_capacity b)); lia.
Qed.

(** A chain of resources with disjoint control cells. *)
Record link := Link { l_res : resource; l_inv : mem -> Prop; l_control : Z -> Prop; l_full : Z -> mem -> Prop;
                      l_ok : Allocates l_res l_inv l_control l_full }.

Definition disjoint_control (c d : Z -> Prop) : Prop := forall a, c a -> d a -> False.

Lemma link_frame (l : link) (C : Z -> Prop) m m' : disjoint_control (l_control l) C ->
  (forall a, ~ C a -> load m' a = load m a) -> l_inv l m -> l_inv l m'.
Proof.
  intros D F. apply (inv_frame (Allocates := l_ok l)). intros a Ha. apply F. intros Hc. by eapply D.
Qed.

(** A chain's allocation returns, keeps every link's invariant, touches the links' control cells alone, and
    answers null only when every link is full. *)
Lemma chainedTryAllocate_ok n first rest m :
  Forall (fun l => l_inv l m) (first :: rest) -> ForallOrdPairs (fun l l' => disjoint_control (l_control l) (l_control l'))
    (first :: rest) -> 0 <= n <= 2 ^ 63 ->
  exists p m', chainedTryAllocate n (l_res first) (map l_res rest) m = Done (p, m') /\
    Forall (fun l => l_inv l m') (first :: rest) /\
    (forall a, Forall (fun l => ~ l_control l a) (first :: rest) -> load m' a = load m a) /\
    (p = nullptr -> Forall (fun l => l_full l n m) (first :: rest)).
Proof.
  revert first m. induction rest as [|second rest IH]; intros first m I D Hn.
  - apply Forall_cons in I as [I _].
    destruct (allocate_ok (Allocates := l_ok first) n m I Hn) as (p & m' & E & I' & F & N).
    exists p, m'. split_and!; [done|by constructor| |].
    + intros a [Ha _]%Forall_cons. by apply F.
    + intros Hp. constructor; auto.
  - cbn [map chainedTryAllocate]. apply Forall_cons in I as [I Ir]. inversion D as [|? ? Df Dr]; subst.
    destruct (allocate_ok (Allocates := l_ok first) n m I Hn) as (p & m1 & -> & I1 & F & N).
    assert (F' : forall l, l ∈ second :: rest -> forall a, l_control l a -> load m1 a = load m a).
    { intros l Hl a Ha. apply F. intros Hc. rewrite Forall_forall in Df. by apply (Df l Hl a). } 
    assert (Ir1 : Forall (fun l => l_inv l m1) (second :: rest)).
    { rewrite Forall_forall in Ir |- *. intros l Hl. apply (inv_frame (Allocates := l_ok l) m); [by apply F'|auto]. }
    cbn [bindo]. unfold ptr_eqb. destruct (Z.eqb_spec p nullptr) as [Hp|Hp]; cbn [negb].
    + destruct (IH second m1 Ir1 Dr Hn) as (p' & m' & -> & I' & F2 & N').
      exists p', m'. split_and!; [done| | |].
      * constructor; [|done]. apply (inv_frame (Allocates := l_ok first) m1); [|done].
        intros a Ha. apply F2. eapply Forall_impl; [exact Df|]. intros l Hl Hc. by apply (Hl a).
      * intros a [Ha Hr]%Forall_cons. by rewrite F2, F.
      * intros Hp'. constructor; [auto|]. specialize (N' Hp').
        rewrite Forall_forall in N' |- *. intros l Hl.
        apply (full_frame (Allocates := l_ok l) n m1); [|auto]. intros a Ha. symmetry. by apply (F' l).
    + exists p, m1. split_and!; [done|by constructor| |done].
      intros a [Ha _]%Forall_cons. by apply F.
Qed.
End Chain.

(** ** The L2SP and main-memory resources *)

Module Composite.
Import Chain.

(** src/pando-rt/include/pando-rt/memory_resource.hpp:80-90 [L2SPResource] *)
Record L2SPResource := L2SP { l_bucket8 : Slab.t; l_bucket16 : Slab.t; l_bucket32 : Slab.t;
  l_freeList : FreeList.t; l_bump : Bump.t }.

(** src/pando-rt/include/pando-rt/memory_resource.hpp:174-186 [MainMemoryResource] *)
Record MainMemoryResource := Main { m_bucket8 : Slab.t; m_bucket16 : Slab.t; m_bucket32 : Slab.t;
  m_bucket64 : Slab.t; m_bucket128 : Slab.t; m_freeList : FreeList.t; m_bump : Bump.t }.

Definition minimumBumpAllocation : Z := FreeList.minimumAllowableAllocationSize.
(** [alignof(MaxAlignT)] is [2^4]. *)
Definition logMaxAlign : Z := 4.

(** What both resources do once no slab served the request: bump, then the free list. *)
Definition fallback (fuel : nat) (bump : Bump.t) (freeList : FreeList.t) (bytes : Z) (m : mem) : outcome (Z * mem) :=
  let roundedAllocation := Z.max bytes minimumBumpAllocation in
  let! (result, m) := Bump.allocate logMaxAlign bump roundedAllocation m in
  if ptr_eqb result nullptr then FreeList.allocate fuel freeList roundedAllocation m else Done (result, m).

Definition release (bump : Bump.t) (freeList : FreeList.t) (p bytes : Z) (m : mem) : outcome mem :=
  if Bump.pointerIsOwned bump p
  then let roundedAllocation := Z.max bytes minimumBumpAllocation in
       FreeList.registerFreedBlock freeList p roundedAllocation m
  else Done m.

(** src/pando-rt/src/memory_resources.cpp:190-196 [L2SPResource::L2SPResource] *)
Definition L2SPResource_construct (bufferStart bufferSize : Z) (m : mem) : outcome (L2SPResource * mem) :=
  let! b := Buckets.L2SPResourceRatioBreakdown bufferStart bufferSize in
  let! (bucket8, m) := Slab.construct 8 (Buckets.start (Buckets.l2_bucket8 b)) (Buckets.bytes (Buckets.l2_bucket8 b)) m in
  let! (bucket16, m) := Slab.construct 16 (Buckets.start (Buckets.l2_bucket16 b)) (Buckets.bytes (Buckets.l2_bucket16 b)) m in
  let! (bucket32, m) := Slab.construct 32 (Buckets.start (Buckets.l2_bucket32 b)) (Buckets.bytes (Buckets.l2_bucket32 b)) m in
  let! (freeList, m) := FreeList.construct (Buckets.start (Buckets.l2_freeList b)) (Buckets.bytes (Buckets.l2_freeList b)) m in
  let! (bump, m) := Bump.construct (Buckets.start (Buckets.l2_bump b)) (Buckets.bytes (Buckets.l2_bump b)) m in
  Done (L2SP bucket8 bucket16 bucket32 freeList bump, m).

(** src/pando-rt/src/memory_resources.cpp:198-218 [L2SPResource::allocate] *)
Definition L2SPResource_allocate (fuel : nat) (r : L2SPResource) (bytes : Z) (m : mem) : outcome (Z * mem) :=
  let b8 := slab 8 (l_bucket8 r) in let b16 := slab 16 (l_bucket16 r) in let b32 := slab 32 (l_bucket32 r) in
  let! (result, m) :=
    (if bytes <=? 8 then chainedTryAllocate bytes b8 [b16; b32] m
     else if bytes <=? 16 then chainedTryAllocate bytes b16 [b32] m
     else if bytes <=? 32 then chainedTryAllocate bytes b32 [] m
     else Done (nullptr, m)) in
  if ptr_eqb result nullptr then fallback fuel (l_bump r) (l_freeList r) bytes m else Done (result, m).

(** src/pando-rt/src/memory_resources.cpp:220-236 [L2SPResource::deallocate] *)
Definition L2SPResource_deallocate (r : L2SPResource) (p bytes : Z) (m : mem) : outcome mem :=
  let b8 := slab 8 (l_bucket8 r) in let b16 := slab 16 (l_bucket16 r) in let b32 := slab 32 (l_bucket32 r) in
  let! m :=
    (if bytes <=? 8 then chainedTryDeallocate p bytes b8 [b16; b32] m
     else if bytes <=? 16 then chainedTryDeallocate p bytes b16 [b32] m
     else if bytes <=? 32 then chainedTryDeallocate p bytes b32 [] m
     else Done m) in
  release (l_bump r) (l_freeList r) p bytes m.

(** src/pando-rt/src/memory_resources.cpp:238-241 [L2SPResource::operator==] *)
Definition L2SPResource_eqb (r rhs : L2SPResource) : bool :=
  Slab.eqb (l_bucket8 r) (l_bucket8 rhs) && Slab.eqb (l_bucket16 r) (l_bucket16 rhs) &&
  Slab.eqb (l_bucket32 r) (l_bucket32 rhs) && Bump.eqb (l_bump r) (l_bump rhs) &&
  FreeList.eqb (l_freeList r) (l_freeList rhs).

(** src/pando-rt/src/memory_resources.cpp:247-255 [MainMemoryResource::MainMemoryResource] *)
Definition MainMemoryResource_construct (bufferStart bufferSize : Z) (m : mem) : outcome (MainMemoryResource * mem) :=
  let! b := Buckets.MainMemoryResourceRatioBreakdown bufferStart bufferSize in
  let! (bucket8, m) := Slab.construct 8 (Buckets.start (Buckets.mm_bucket8 b)) (Buckets.bytes (Buckets.mm_bucket8 b)) m in
  let! (bucket16, m) := Slab.construct 16 (Buckets.start (Buckets.mm_bucket16 b)) (Buckets.bytes (Buckets.mm_bucket16 b)) m in
  let! (bucket32, m) := Slab.construct 32 (Buckets.start (Buckets.mm_bucket32 b)) (Buckets.bytes (Buckets.mm_bucket32 b)) m in
  let! (bucket64, m) := Slab.construct 64 (Buckets.start (Buckets.mm_bucket64 b)) (Buckets.bytes (Buckets.mm_bucket64 b)) m in
  let! (bucket128, m) := Slab.construct 128 (Buckets.start (Buckets.mm_bucket128 b)) (Buckets.bytes (Buckets.mm_bucket128 b)) m in
  let! (freeList, m) := FreeList.construct (Buckets.start (Buckets.mm_freeList b)) (Buckets.bytes (Buckets.mm_freeList b)) m in
  let! (bump, m) := Bump.construct (Buckets.start (Buckets.mm_bump b)) (Buckets.bytes (Buckets.mm_bump b)) m in
  Done (Main bucket8 bucket16 bucket32 bucket64 bucket128 freeList bump, m).

(** src/pando-rt/src/memory_resources.cpp:257-283 [MainMemoryResource::allocate] *)
Definition MainMemoryResource_allocate (fuel : nat) (r : MainMemoryResource) (bytes : Z) (m : mem) : outcome (Z * mem) :=
  let b8 := slab 8 (m_bucket8 r) in let b16 := slab 16 (m_bucket16 r) in let b32 := slab 32 (m_bucket32 r) in
  let b64 := slab 64 (m_bucket64 r) in let b128 := slab 128 (m_bucket128 r) in
  let! (result, m) :=
    (if bytes <=? 8 then chainedTryAllocate bytes b8 [b16; b32; b64; b128] m
     else if bytes <=? 16 then chainedTryAllocate bytes b16 [b32; b64; b128] m
     else if bytes <=? 32 then chainedTryAllocate bytes b32 [b64; b128] m
     else if bytes <=? 64 then chainedTryAllocate bytes b64 [b128] m
     else if bytes <=? 128 then chainedTryAllocate bytes b128 [] m
     else Done (nullptr, m)) in
  if ptr_eqb result nullptr then fallback fuel (m_bump r) (m_freeList r) bytes m else Done (result, m).

(** src/pando-rt/src/memory_resources.cpp:285-306 [MainMemoryResource::deallocate] *)
Definition MainMemoryResource_deallocate (r : MainMemoryResource) (p bytes : Z) (m : mem) : outcome mem :=
  let b8 := slab 8 (m_bucket8 r) in let b16 := slab 16 (m_bucket16 r) in let b32 := slab 32 (m_bucket32 r) in
  let b64 := slab 64 (m_bucket64 r) in let b128 := slab 128 (m_bucket128 r) in
  let! m :=
    (if bytes <=? 8 then chainedTryDeallocate p bytes b8 [b16; b32; b64; b128] m
     else if bytes <=? 16 then chainedTryDeallocate p bytes b16 [b32; b64; b128] m
     else if bytes <=? 32 then chainedTryDeallocate p bytes b32 [b64; b128] m
     else if bytes <=? 64 then chainedTryDeallocate p bytes b64 [b128] m
     else if bytes <=? 128 then chainedTryDeallocate p bytes b128 [] m
     else Done m) in
  release (m_bump r) (m_freeList r) p bytes m.

(** src/pando-rt/src/memory_resources.cpp:308-313 [MainMemoryResource::operator==] *)
Definition MainMemoryResource_eqb (r rhs : MainMemoryResource) : bool :=
  Slab.eqb (m_bucket8 r) (m_bucket8 rhs) && Slab.eqb (m_bucket16 r) (m_bucket16 rhs) &&
  Slab.eqb (m_bucket32 r) (m_bucket32 rhs) && Slab.eqb (m_bucket64 r) (m_bucket64 rhs) &&
  Slab.eqb (m_bucket128 r) (m_bucket128 rhs) && Bump.eqb (m_bump r) (m_bump rhs) &&
  FreeList.eqb (m_freeList r) (m_freeList rhs).

(** ** Allocation through the chain and its fallback *)

Section Correct.
Context (bump : Bump.t) (freeList : FreeList.t) (links : list link).

(** The words the free list reads and writes: its mutex, its sentinel and the headers of the free blocks. *)
Definition free_control (blocks : FreeList.blocks) (a : Z) : Prop :=
  a = FreeList.m_mutex freeList \/ a ∈ FreeList.cells ((FreeList.m_head freeList, 0) :: blocks).

(** Every part is well-formed and the parts' control words do not overlap. *)
Definition good (blocks : FreeList.blocks) (m : mem) : Prop :=
  Forall (fun l => l_inv l m) links /\ Bump.wf bump m /\ FreeList.rep freeList m blocks /\
  ForallOrdPairs (fun l l' => disjoint_control (l_control l) (l_control l')) links /\
  disjoint_control (bump_control bump) (free_control blocks) /\
  Forall (fun l => disjoint_control (l_control l) (bump_control bump) /\
                   disjoint_control (l_control l) (free_control blocks)) links.

(** No block of [blocks] has [n] bytes. *)
Definition none_fits (n : Z) (blocks : FreeList.blocks) : Prop := Forall (fun '(_, size) => size < n) blocks.

Lemma free_control_remove blocks a x : free_control (FreeList.remove_block a blocks) x -> free_control blocks x.
Proof.
  intros [->|H]; [by left|]. right. revert H. rewrite !FreeList.elem_of_cells_cons.
  enough (x ∈ FreeList.cells (FreeList.remove_block a blocks) -> x ∈ FreeList.cells blocks) by tauto.
  induction blocks as [|[b s] blocks IH]; cbn [FreeList.remove_block]; [done|].
  destruct (a =? b); rewrite ?FreeList.elem_of_cells_cons; tauto.
Qed.

Lemma fallback_ok fuel n blocks m : good blocks m -> 0 <= n <= 2 ^ 62 -> (length blocks < fuel)%nat ->
  let n' := Z.max n minimumBumpAllocation in
  exists p m' blocks', fallback fuel bump freeList n m = Done (p, m') /\ good blocks' m' /\
    (blocks' = blocks \/ blocks' = FreeList.remove_block p blocks) /\
    (p = nullptr -> bump_full logMaxAlign bump n' m /\ none_fits n' blocks).
Proof.
  intros (Il & Ib & If & Dl & Dbf & Dlb) Hn Hf n'. unfold fallback. fold n'.
  assert (Hn' : 24 <= n' <= 2 ^ 62) by (unfold n'; change minimumBumpAllocation with 24; lia).
  destruct (allocate_ok (Allocates := bump_allocates logMaxAlign bump ltac:(unfold logMaxAlign; lia)) n' m Ib
    ltac:(lia)) as (p & m1 & E & Ib1 & F1 & N1).
  cbn [allocate Chain.bump] in E. rewrite E. cbn [bindo].
  assert (If1 : FreeList.rep freeList m1 blocks).
  { apply (FreeList.rep_frame _ m); [|done]. intros x Hx. apply F1. intros Hb. by apply (Dbf x Hb). }
  assert (Il1 : Forall (fun l => l_inv l m1) links).
  { rewrite Forall_forall in Il, Dlb |- *. intros l Hl. destruct (Dlb l Hl).
    by eapply link_frame; [|exact F1|apply Il]. }
  unfold ptr_eqb. destruct (Z.eqb_spec p nullptr) as [Hp|Hp].
  - destruct (FreeList.allocate_refines freeList fuel n' m1 blocks If1 ltac:(lia) Hf) as (m2 & -> & If2 & F2).
    cbn [FreeList.spec fst snd] in *. destruct (Z.eqb_spec n' 0); [lia|].
    set (a := FreeList.best n' 0 (2 ^ 64 - 1) blocks) in *.
    assert (F2' : forall x, ~ free_control blocks x -> load m2 x = load m1 x).
    { intros x Hx. apply F2; intros H; apply Hx; [by left|by right]. }
    set (blocks' := if a =? 0 then blocks else FreeList.remove_block a blocks) in *.
    assert (Sub : forall x, free_control blocks' x -> free_control blocks x).
    { unfold blocks'. destruct (a =? 0); [done|]. intros x. apply free_control_remove. }
    exists a, m2, blocks'. split_and!; [done| | |].
    + split_and!; [| |done|done| |].
      * rewrite Forall_forall in Il1, Dlb |- *. intros l Hl. destruct (Dlb l Hl).
        by eapply link_frame; [|exact F2'|apply Il1].
      * apply (inv_frame (Allocates := bump_allocates logMaxAlign bump ltac:(unfold logMaxAlign; lia)) m1); [|done].
        intros x Hx. apply F2'. intros Hc. by apply (Dbf x).
      * intros x Hx Hc. by apply (Dbf x); [|apply Sub].
      * eapply Forall_impl; [exact Dlb|]. intros l [D1 D2]. split; [done|].
        intros x Hx Hc. by apply (D2 x); [|apply Sub].
    + unfold blocks'. destruct (a =? 0); auto.
    + intros Ha. split; [by apply N1|]. unfold none_fits.
      destruct If1 as (_ & _ & Fs & _).
      destruct (FreeList.best_fits n' 0 (2 ^ 64 - 1) blocks ltac:(lia)) as [[_ A]|(l1 & s & l2 & Eb & _)].
      * rewrite Forall_forall in A, Fs |- *. intros [b s] Hb. specialize (A _ Hb). specialize (Fs _ Hb).
        cbn in A, Fs. lia.
      * fold a in Eb. exfalso. destruct (FreeList.rep_facts freeList m blocks If) as (_ & _ & _ & _ & Nz & _).
        destruct (Nz a) as [_ Na]; [rewrite Eb; apply FreeList.elem_of_addrs|]. done.
  - exists p, m1, blocks. split_and!; [done| |by left|done].
    unfold good. by split_and!.
Qed.

(** The chain of the links [first :: rest] (a suffix of all links), then the fallback. *)
Lemma chain_ok fuel n before first rest blocks m : links = before ++ first :: rest ->
  good blocks m -> 0 <= n <= 2 ^ 62 -> (length blocks < fuel)%nat ->
  let n' := Z.max n minimumBumpAllocation in
  exists p m' blocks',
    (let! (result, m) := chainedTryAllocate n (l_res first) (map l_res rest) m in
     if ptr_eqb result nullptr then fallback fuel bump freeList n m else Done (result, m)) = Done (p, m') /\
    good blocks' m' /\ (blocks' = blocks \/ blocks' = FreeList.remove_block p blocks) /\
    (p = nullptr -> Forall (fun l => l_full l n m) (first :: rest) /\
                    bump_full logMaxAlign bump n' m /\ none_fits n' blocks).
Proof.
  intros El G Hn Hf n'. pose proof G as (Il & Ib & If & Dl & Dbf & Dlb).
  assert (Ir : Forall (fun l => l_inv l m) (first :: rest)) by (rewrite El in Il; apply Forall_app in Il; tauto).
  assert (Dr : ForallOrdPairs (fun l l' => disjoint_control (l_control l) (l_control l')) (first :: rest)).
  { rewrite El in Dl. clear -Dl. induction before as [|l before IH]; [done|]. by inversion Dl; auto. }
  destruct (chainedTryAllocate_ok n first rest m Ir Dr ltac:(lia)) as (p & m1 & -> & I1 & F1 & N1).
  cbn [bindo].
  assert (Out : forall (C : Z -> Prop), (forall l, l ∈ first :: rest -> disjoint_control (l_control l) C) ->
            forall a, C a -> load m1 a = load m a).
  { intros C D a Ha. apply F1. apply Forall_forall. intros l Hl Hc. by apply (D l Hl a). }
  assert (In_links : forall l, l ∈ first :: rest -> l ∈ links) by (rewrite El; set_solver).
  assert (Dlr : forall l, l ∈ first :: rest -> disjoint_control (l_control l) (bump_control bump) /\
                 disjoint_control (l_control l) (free_control blocks)).
  { rewrite Forall_forall in Dlb. auto. }
  assert (G1 : good blocks m1).
  { split_and!; [| | |done|done|done].
    - rewrite El in Il, Dl |- *. apply Forall_app. split; [|done]. apply Forall_app in Il as [Il _].
      rewrite Forall_forall in Il |- *. intros l Hl. apply (inv_frame (Allocates := l_ok l) m); [|by apply Il].
      apply Out. intros l' Hl' x H1 H2. clear - Dl Hl Hl' H1 H2.
      induction before as [|l0 before IH]; [by set_solver|]. inversion Dl as [|? ? D1 D2]; subst.
      apply elem_of_cons in Hl as [->|Hl]; [|by apply IH].
      rewrite Forall_forall in D1. apply (D1 l' ltac:(set_solver) x); done.
    - apply (inv_frame (Allocates := bump_allocates logMaxAlign bump ltac:(unfold logMaxAlign; lia)) m); [|done].
      apply Out. intros l Hl. by apply Dlr.
    - apply (FreeList.rep_frame _ m); [|done]. apply (Out (free_control blocks)). intros l Hl. by apply Dlr. }
  unfold ptr_eqb. destruct (Z.eqb_spec p nullptr) as [Hp|Hp].
  - specialize (N1 Hp).
    destruct (fallback_ok fuel n blocks m1 G1 Hn Hf) as (q & m2 & blocks' & E & G2 & B & N2).
    exists q, m2, blocks'. split_and!; [done|done|done|]. intros Hq. destruct (N2 Hq) as [N3 N4].
    split_and!; [done| |done]. revert N3.
    apply (full_frame (Allocates := bump_allocates logMaxAlign bump ltac:(unfold logMaxAlign; lia))).
    intros a Ha. symmetry. apply (Out (bump_control bump)); [|done]. intros l Hl. by apply Dlr.
  - exists p, m1, blocks. split_and!; [done|done|by left|done].
Qed.
End Correct.

(** A slab bucket as a link of the chain. *)
Definition slab_link (n : Z) (r : Slab.t) (H : Slab.slabSize_ok n) (W : Slab.wf n r) : link :=
  Link (slab n r) (slab_inv r) (slab_control n r) (slab_full n r) (slab_allocates n r H W).

Lemma size8 : Slab.slabSize_ok 8.
Proof. vm_compute. intuition congruence. Qed.
Lemma size16 : Slab.slabSize_ok 16.
Proof. vm_compute. intuition congruence. Qed.
Lemma size32 : Slab.slabSize_ok 32.
Proof. vm_compute. intuition congruence. Qed.
Lemma size64 : Slab.slabSize_ok 64.
Proof. vm_compute. intuition congruence. Qed.
Lemma size128 : Slab.slabSize_ok 128.
Proof. vm_compute. intuition congruence. Qed.

(** Close one case of an allocation theorem by what the chain did; buckets too small for the request count
    as full. *)
Ltac by_chain C :=
  let p := fresh "p" in let m' := fresh "m'" in let bs := fresh "bs" in let E := fresh "E" in
  let G := fresh "G" in let B := fresh "B" in let N := fresh "N" in let A := fresh "A" in
  destruct C as (p & m' & bs & E & G & B & N); exists p, m', bs;
  split_and!; [exact E | exact G | exact B |];
  intros A; specialize (N A); rewrite ?Forall_cons in N; cbn in N;
  split_and!; first [apply N | left; lia].

Section L2SPCorrect.
Context (r : L2SPResource) (W8 : Slab.wf 8 (l_bucket8 r)) (W16 : Slab.wf 16 (l_bucket16 r))
        (W32 : Slab.wf 32 (l_bucket32 r)).

Definition L2SP_links : list link :=
  [slab_link 8 (l_bucket8 r) size8 W8; slab_link 16 (l_bucket16 r) size16 W16;
   slab_link 32 (l_bucket32 r) size32 W32].

(** C3: on an L2SP resource whose parts are well-formed and do not overlap, [allocate] always returns and
    keeps it so (a block leaves the free list only as the answer).  It answers null only
    when everything is exhausted: every slab bucket whose slabs could hold the request is full, the bump
    resource has no room for the rounded request, and no free block is large enough. *)
Theorem L2SPResource_allocate_spec fuel n blocks m :
  good (l_bump r) (l_freeList r) L2SP_links blocks m -> 0 <= n <= 2 ^ 62 -> (length blocks < fuel)%nat ->
  exists p m' blocks', L2SPResource_allocate fuel r n m = Done (p, m') /\
    good (l_bump r) (l_freeList r) L2SP_links blocks' m' /\
    (blocks' = blocks \/ blocks' = FreeList.remove_block p blocks) /\
    (p = nullptr ->
       slab_full 8 (l_bucket8 r) n m /\ slab_full 16 (l_bucket16 r) n m /\ slab_full 32 (l_bucket32 r) n m /\
       bump_full logMaxAlign (l_bump r) (Z.max n 24) m /\ none_fits (Z.max n 24) blocks).
Proof.
  intros G Hn Hf. unfold L2SPResource_allocate.
  pose proof (fun before first rest E => chain_ok (l_bump r) (l_freeList r) L2SP_links fuel n before first rest
    blocks m E G Hn Hf) as C.
  destruct (Z.leb_spec n 8); [by_chain (C [] _ _ eq_refl)|].
  destruct (Z.leb_spec n 16); [by_chain (C [_] _ _ eq_refl)|].
  destruct (Z.leb_spec n 32); [by_chain (C [_; _] _ _ eq_refl)|].
  by_chain (fallback_ok (l_bump r) (l_freeList r) L2SP_links fuel n blocks m G Hn Hf).
Qed.

(** C33: a small block can be freed into the wrong bucket.  A request of at most 8 bytes that the 8-byte bucket
    could not serve lives past that bucket; on its release [chainedTryDeallocate] asks the 8-byte
    bucket first, whose [pointerIsOwned] wrongly accepts the address, and the release clears a bit of
    a word inside one of the bucket's user slabs, that is, in memory another caller owns. *)
Theorem L2SPResource_deallocate_corrupts bytes s m :
  let b8 := l_bucket8 r in let p := Slab.slab_addr 8 b8 s in
  bytes <= 8 -> Slab.m_numUserSlabs b8 <= s -> Slab.m_numBitmapSlabs b8 * 8 * 8 <= s ->
  p < Slab.m_buffer b8 + 8 * Slab.m_capacity b8 -> Bump.pointerIsOwned (l_bump r) p = false ->
  exists a, Slab.slab_addr 8 b8 0 <= a < Slab.slab_addr 8 b8 (Slab.m_numUserSlabs b8) /\
    L2SPResource_deallocate r p bytes m =
      Done (store m a (Z.land (load m a) (notU 64 (2 ^ (s mod 64))))).
Proof.
  intros b8 p Hb Hu Hh Hp Hbump.
  destruct (Slab.deallocate_foreign 8 size8 b8 W8 m s Hu Hh Hp) as (a & Ha & _ & O & E). fold p in O, E.
  exists a. split; [done|]. unfold L2SPResource_deallocate. destruct (Z.leb_spec bytes 8); [|lia].
  unfold chainedTryDeallocate. cbn [slab pointerIsOwned supportsFree deallocate]. fold b8.
  rewrite O, E. cbn [andb Slab.supportsFree bindo]. unfold release. by rewrite Hbump.
Qed.
End L2SPCorrect.

Section MainCorrect.
Context (r : MainMemoryResource) (W8 : Slab.wf 8 (m_bucket8 r)) (W16 : Slab.wf 16 (m_bucket16 r))
  (W32 : Slab.wf 32 (m_bucket32 r)) (W64 : Slab.wf 64 (m_bucket64 r)) (W128 : Slab.wf 128 (m_bucket128 r)).

Definition Main_links : list link :=
  [slab_link 8 (m_bucket8 r) size8 W8; slab_link 16 (m_bucket16 r) size16 W16;
   slab_link 32 (m_bucket32 r) size32 W32; slab_link 64 (m_bucket64 r) size64 W64;
   slab_link 128 (m_bucket128 r) size128 W128].

(** The same for the main-memory resource and its five slab buckets. *)
Theorem MainMemoryResource_allocate_spec fuel n blocks m :
  good (m_bump r) (m_freeList r) Main_links blocks m -> 0 <= n <= 2 ^ 62 -> (length blocks < fuel)%nat ->
  exists p m' blocks', MainMemoryResource_allocate fuel r n m = Done (p, m') /\
    good (m_bump r) (m_freeList r) Main_links blocks' m' /\
    (blocks' = blocks \/ blocks' = FreeList.remove_block p blocks) /\
    (p = nullptr ->
       slab_full 8 (m_bucket8 r) n m /\ slab_full 16 (m_bucket16 r) n m /\ slab_full 32 (m_bucket32 r) n m /\
       slab_full 64 (m_bucket64 r) n m /\ slab_full 128 (m_bucket128 r) n m /\
       bump_full logMaxAlign (m_bump r) (Z.max n 24) m /\ none_fits (Z.max n 24) blocks).
Proof.
  intros G Hn Hf. unfold MainMemoryResource_allocate.
  pose proof (fun before first rest E => chain_ok (m_bump r) (m_freeList r) Main_links fuel n before first rest
    blocks m E G Hn Hf) as C.
  destruct (Z.leb_spec n 8); [by_chain (C [] _ _ eq_refl)|].
  destruct (Z.leb_spec n 16); [by_chain (C [_] _ _ eq_refl)|].
  destruct (Z.leb_spec n 32); [by_chain (C [_; _] _ _ eq_refl)|].
  destruct (Z.leb_spec n 64); [by_chain (C [_; _; _] _ _ eq_refl)|].
  destruct (Z.leb_spec n 128); [by_chain (C [_; _; _; _] _ _ eq_refl)|].
  by_chain (fallback_ok (m_bump r) (m_freeList r) Main_links fuel n blocks m G Hn Hf).
Qed.
End MainCorrect.

(** ** Concrete resources *)

(** A 2 KiB L2SP region and an 8 KiB main-memory region, just constructed. *)
Definition example_l2sp : L2SPResource :=
  L2SP (Slab.mk 4104 49 392 1 1 4096) (Slab.mk 4528 36 576 1 1 4512) (Slab.mk 5152 23 736 1 1 5120)
    (FreeList.mk 5928 5920) (Bump.mk 5968 5952 5960 176).
Definition run_mem {A} (x : outcome (A * mem)) : mem := match x with Done (_, m) => m | Failed _ => ∅ end.
Definition example_l2sp_mem : mem := run_mem (L2SPResource_construct 4096 2048 ∅).

Example example_l2sp_construct : L2SPResource_construct 4096 2048 ∅ = Done (example_l2sp, example_l2sp_mem).
Proof. vm_compute. reflexivity. Qed.

(** Control words that do not overlap, for concrete resources. *)
Ltac disjoint_now :=
  let a := fresh "a" in let H1 := fresh "H" in let H2 := fresh "H" in
  intros a H1 H2; cbn -[Z.le Z.lt] in H1, H2;
  unfold slab_control, bump_control, free_control in H1, H2; cbn -[Z.le Z.lt] in H1, H2;
  set_unfold in H1; set_unfold in H2;
  unfold Slab.slab_addr in H1, H2; cbn -[Z.le Z.lt] in H1, H2; lia.

Lemma example_W8 : Slab.wf 8 (l_bucket8 example_l2sp).
Proof. vm_compute. intuition congruence. Defined.
Lemma example_W16 : Slab.wf 16 (l_bucket16 example_l2sp).
Proof. vm_compute. intuition congruence. Defined.
Lemma example_W32 : Slab.wf 32 (l_bucket32 example_l2sp).
Proof. vm_compute. intuition congruence. Defined.

Lemma example_l2sp_good :
  good (l_bump example_l2sp) (l_freeList example_l2sp) (L2SP_links example_l2sp example_W8 example_W16 example_W32)
    [] example_l2sp_mem.
Proof.
  split_and!.
  - repeat constructor; cbn [l_inv slab_link]; right; vm_compute; reflexivity.
  - vm_compute. intuition congruence.
  - split_and!; [vm_compute; done| |constructor|vm_compute; intuition congruence].
    eapply bool_decide_unpack. vm_compute. exact I.
  - repeat constructor; disjoint_now.
  - disjoint_now.
  - repeat constructor; disjoint_now.
Qed.

Lemma L2SPResource_allocate_spec_witness :
  exists p m' blocks', L2SPResource_allocate 1 example_l2sp 24 example_l2sp_mem = Done (p, m') /\
    good (l_bump example_l2sp) (l_freeList example_l2sp)
      (L2SP_links example_l2sp example_W8 example_W16 example_W32) blocks' m'.
Proof.
  destruct (L2SPResource_allocate_spec example_l2sp example_W8 example_W16 example_W32 1 24 [] example_l2sp_mem
    example_l2sp_good ltac:(lia) ltac:(cbn; lia)) as (p & m' & blocks' & E & G & _).
  exists p, m', blocks'. split; assumption.
Defined.

(** [n] requests of the same size; the answers, latest first. *)
Fixpoint allocate_many (n : nat) (r : L2SPResource) (bytes : Z) (m : mem) : outcome (list Z * mem) :=
  match n with
  | O => Done ([], m)
  | S n => let! (ps, m) := allocate_many n r bytes m in
           let! (p, m) := L2SPResource_allocate 1 r bytes m in Done (p :: ps, m)
  end.

(** Fifty-five 8-byte requests: the first is at 4112, the last six come from the 16-byte bucket, the very last
    at 4624.  Releasing the last clears a bit of the first. *)
Definition example_full : mem := run_mem (allocate_many 55 example_l2sp 8 example_l2sp_mem).

Example example_full_answers : mapo (fun r => (hd 0 (fst r), List.last (fst r) 0))
  (allocate_many 55 example_l2sp 8 example_l2sp_mem) = Done (4624, 4112).
Proof. vm_compute. reflexivity. Qed.

Lemma L2SPResource_deallocate_corrupts_witness :
  let m := store example_full 4112 (2 ^ 64 - 1) in
  exists m', L2SPResource_deallocate example_l2sp 4624 8 m = Done m' /\ load m' 4112 = 2 ^ 64 - 2.
Proof.
  intros m. destruct (L2SPResource_deallocate_corrupts example_l2sp example_W8 8 64 m
    ltac:(lia) ltac:(done) ltac:(done) ltac:(done) ltac:(done)) as (a & _ & E).
  eexists. split; [vm_compute; reflexivity | vm_compute; reflexivity].
Defined.

Definition example_main : MainMemoryResource :=
  Main (Slab.mk 4104 47 376 1 1 4096) (Slab.mk 4512 22 352 1 1 4496) (Slab.mk 4928 10 320 1 1 4896)
    (Slab.mk 5376 62 3968 1 1 5312) (Slab.mk 9600 13 1664 1 1 9472)
    (FreeList.mk 11400 11392) (Bump.mk 11440 11424 11432 58192).
Definition example_main_mem : mem := run_mem (MainMemoryResource_construct 4096 (2 ^ 16) ∅).

Example example_main_construct :
  MainMemoryResource_construct 4096 (2 ^ 16) ∅ = Done (example_main, example_main_mem).
Proof. vm_compute. reflexivity. Qed.

Lemma example_V8 : Slab.wf 8 (m_bucket8 example_main).
Proof. vm_compute. intuition congruence. Defined.
Lemma example_V16 : Slab.wf 16 (m_bucket16 example_main).
Proof. vm_compute. intuition congruence. Defined.
Lemma example_V32 : Slab.wf 32 (m_bucket32 example_main).
Proof. vm_compute. intuition congruence. Defined.
Lemma example_V64 : Slab.wf 64 (m_bucket64 example_main).
Proof. vm_compute. intuition congruence. Defined.
Lemma example_V128 : Slab.wf 128 (m_bucket128 example_main).
Proof. vm_compute. intuition congruence. Defined.

Lemma example_main_good :
  good (m_bump example_main) (m_freeList example_main)
    (Main_links example_main example_V8 example_V16 example_V32 example_V64 example_V128) [] example_main_mem.
Proof.
  split_and!.
  - repeat constructor; cbn [l_inv slab_link]; right; vm_compute; reflexivity.
  - vm_compute. intuition congruence.
  - split_and!; [vm_compute; done| |constructor|vm_compute; intuition congruence].
    eapply bool_decide_unpack. vm_compute. exact I.
  - repeat constructor; disjoint_now.
  - disjoint_now.
  - repeat constructor; disjoint_now.
Qed.

Lemma MainMemoryResource_allocate_spec_witness :
  exists p m' blocks', MainMemoryResource_allocate 1 example_main 100 example_main_mem = Done (p, m') /\
    good (m_bump example_main) (m_freeList example_main)
      (Main_links example_main example_V8 example_V16 example_V32 example_V64 example_V128) blocks' m'.
Proof.
  destruct (MainMemoryResource_allocate_spec example_main example_V8 example_V16 example_V32 example_V64 example_V128
    1 100 [] example_main_mem example_main_good ltac:(lia) ltac:(cbn; lia)) as (p & m' & blocks' & E & G & _).
  exists p, m', blocks'. split; assumption.
Defined.
End Composite.
