(* ===== verification/RiscvInstruction.v ===== *)
(** * RISC-V instruction words

    [pando-drv/interpreter/RISCVInstructionBase.hpp]: the fields of a 32-bit instruction word.  Each
    accessor is proved to invert the instruction set manual's encoding of its format.
    A signed [>>] is arithmetic and a signed [<<] wraps, as the compilers that build the
    simulator document. *)

From S2P Require Import Prelude.

Module Instruction.

(** src/pando-drv/interpreter/RISCVInstructionBase.hpp:21-21 [rs1] *)
Definition rs1 (instruction_ : Z) : Z := Z.land (shrU instruction_ 15) 0x1F.
(** src/pando-drv/interpreter/RISCVInstructionBase.hpp:22-22 [rs2] *)
Definition rs2 (instruction_ : Z) : Z := Z.land (shrU instruction_ 20) 0x1F.
(** src/pando-drv/interpreter/RISCVInstructionBase.hpp:23-23 [rs3] *)
Definition rs3 (instruction_ : Z) : Z := Z.land (shrU instruction_ 27) 0x1F.
(** src/pando-drv/interpreter/RISCVInstructionBase.hpp:24-24 [rd] *)
Definition rd (instruction_ : Z) : Z := Z.land (shrU instruction_ 7) 0x1F.
(** src/pando-drv/interpreter/RISCVInstructionBase.hpp:25-25 [Iimm] *)
Definition Iimm (instruction_ : Z) : Z := shrU instruction_ 20.
(** src/pando-drv/interpreter/RISCVInstructionBase.hpp:26-29 [SIimm] *)
Definition SIimm (instruction_ : Z) : Z :=
  let sinstruction := i32 instruction_ in Z.shiftr sinstruction 20.
(** src/pando-drv/interpreter/RISCVInstructionBase.hpp:30-34 [Simm] *)
Definition Simm (instruction_ : Z) : Z :=
  let sinstruction := i32 instruction_ in
  Z.lor (i32 (Z.shiftl (Z.shiftr sinstruction 25) 5)) (Z.land (Z.shiftr sinstruction 7) 0x1F).
(** src/pando-drv/interpreter/RISCVInstructionBase.hpp:35-41 [Bimm] *)
Definition Bimm (instruction_ : Z) : Z :=
  let sinstruction := i32 instruction_ in
  Z.lor (Z.lor (Z.lor (i32 (Z.shiftl (Z.shiftr sinstruction 31) 12))
    (i32 (Z.shiftl (Z.land (Z.shiftr sinstruction 7) 0x1) 11)))
    (i32 (Z.shiftl (Z.land (Z.shiftr sinstruction 25) 0x3F) 5)))
    (i32 (Z.shiftl (Z.land (Z.shiftr sinstruction 8) 0xF) 1)).
(** src/pando-drv/interpreter/RISCVInstructionBase.hpp:42-42 [Uimm] *)
Definition Uimm (instruction_ : Z) : Z := Z.land instruction_ 0xFFFFF000.
(** src/pando-drv/interpreter/RISCVInstructionBase.hpp:43-43 [SUimm] *)
Definition SUimm (instruction_ : Z) : Z := i32 (Z.land instruction_ 0xFFFFF000).
(** src/pando-drv/interpreter/RISCVInstructionBase.hpp:44-50 [Jimm] *)
Definition Jimm (instruction_ : Z) : Z :=
  let sinstruction := i32 instruction_ in
  Z.lor (Z.lor (Z.lor (i32 (Z.shiftl (Z.shiftr sinstruction 31) 20))
    (i32 (Z.shiftl (Z.land (Z.shiftr sinstruction 21) 0x3FF) 1)))
    (i32 (Z.shiftl (Z.land (Z.shiftr sinstruction 20) 0x1) 11)))
    (i32 (Z.shiftl (Z.land (Z.shiftr sinstruction 12) 0xFF) 12)).
(** src/pando-drv/interpreter/RISCVInstructionBase.hpp:51-51 [shamt] *)
Definition shamt (instruction_ : Z) : Z := Z.land (shrU instruction_ 20) 0x1F.
(** src/pando-drv/interpreter/RISCVInstructionBase.hpp:52-52 [shamt5] *)
Definition shamt5 (instruction_ : Z) : Z := shamt instruction_.
(** src/pando-drv/interpreter/RISCVInstructionBase.hpp:53-53 [shamt6] *)
Definition shamt6 (instruction_ : Z) : Z := Z.land (shrU instruction_ 20) 0x3F.

(** ** The manual's encodings *)

(** Bits [a .. a+n-1] of [v], placed at bit [lo]. *)
Definition field (v a n lo : Z) : Z := Z.shiftl (Z.land (Z.shiftr v a) (Z.ones n)) lo.

Infix "|||" := Z.lor (at level 50, left associativity).

Definition encodeR (op rd f3 rs1 rs2 f7 : Z) : Z :=
  field op 0 7 0 ||| field rd 0 5 7 ||| field f3 0 3 12 ||| field rs1 0 5 15 ||| field rs2 0 5 20 ||| field f7 0 7 25.
Definition encodeI (op rd f3 rs1 imm : Z) : Z :=
  field op 0 7 0 ||| field rd 0 5 7 ||| field f3 0 3 12 ||| field rs1 0 5 15 ||| field imm 0 12 20.
Definition encodeS (op f3 rs1 rs2 imm : Z) : Z :=
  field op 0 7 0 ||| field imm 0 5 7 ||| field f3 0 3 12 ||| field rs1 0 5 15 ||| field rs2 0 5 20 |||
  field imm 5 7 25.
Definition encodeB (op f3 rs1 rs2 imm : Z) : Z :=
  field op 0 7 0 ||| field imm 11 1 7 ||| field imm 1 4 8 ||| field f3 0 3 12 ||| field rs1 0 5 15 |||
  field rs2 0 5 20 ||| field imm 5 6 25 ||| field imm 12 1 31.
Definition encodeU (op rd imm : Z) : Z := field op 0 7 0 ||| field rd 0 5 7 ||| field imm 12 20 12.
Definition encodeJ (op rd imm : Z) : Z :=
  field op 0 7 0 ||| field rd 0 5 7 ||| field imm 12 8 12 ||| field imm 11 1 20 ||| field imm 1 10 21 |||
  field imm 20 1 31.

(** ** Bits of fields *)

Lemma testbit_field v a n lo k : 0 <= a -> 0 <= n -> 0 <= lo -> 0 <= k ->
  Z.testbit (field v a n lo) k = (lo <=? k) && (k <? lo + n) && Z.testbit v (k - lo + a).
Proof.
  intros. unfold field. rewrite Z.shiftl_spec, Z.land_spec, testbit_ones by lia.
  destruct (Z.leb_spec lo k), (Z.leb_spec 0 (k - lo)); try lia; cbn [andb].
  rewrite Z.shiftr_spec by lia. destruct (Z.ltb_spec (k - lo) n), (Z.ltb_spec k (lo + n)); try lia;
    cbn [andb]; by rewrite ?andb_true_r, ?andb_false_r.
Qed.

(** Past its sign bit a signed value repeats it. *)
Lemma testbit_inS w z k : 1 <= w -> inS w z -> w - 1 <= k -> Z.testbit z k = (z <? 0).
Proof.
  intros Hw [H1 H2] Hk. destruct (Z.ltb_spec z 0).
  - rewrite <- (Z.lnot_involutive z), Z.lnot_spec by lia.
    rewrite (testbit_inU (w - 1)); [done| |lia]. unfold inU, Z.lnot. lia.
  - apply (testbit_inU (w - 1)); unfold inU; lia.
Qed.

Lemma testbit_wrapS w z k : 1 <= w -> 0 <= k -> Z.testbit (wrapS w z) k = Z.testbit z (Z.min k (w - 1)).
Proof.
  intros Hw Hk. pose proof (wrapS_range w z Hw) as R.
  assert (Lo : forall j, 0 <= j < w -> Z.testbit (wrapS w z) j = Z.testbit z j).
  { intros j Hj. assert (E : wrapU w (wrapS w z) = wrapU w z) by (by apply wrapU_wrapS).
    apply (f_equal (fun v => Z.testbit v j)) in E. rewrite !testbit_wrapU in E by lia.
    destruct (Z.ltb_spec j w); [done|lia]. }
  destruct (Z.lt_ge_cases k (w - 1)).
  - rewrite Z.min_l by lia. apply Lo. lia.
  - rewrite Z.min_r by lia. rewrite <- (Lo (w - 1)) by lia.
    by rewrite !(testbit_inS w) by (lia || done).
Qed.

(** ** Accessors invert the encodings *)

(** Bits of a composed word: push [testbit] to the sources, then decide where the position falls. *)
Ltac push_bits :=
  unfold shrU;
  repeat first
    [ rewrite Z.lor_spec | rewrite Z.land_spec | rewrite Z.testbit_neg_r by lia
    | progress change (Z.testbit 0x1F) with (Z.testbit (Z.ones 5))
    | progress change (Z.testbit 0x3F) with (Z.testbit (Z.ones 6))
    | progress change (Z.testbit 0xF) with (Z.testbit (Z.ones 4))
    | progress change (Z.testbit 0x1) with (Z.testbit (Z.ones 1))
    | progress change (Z.testbit 0x3FF) with (Z.testbit (Z.ones 10))
    | progress change (Z.testbit 0xFF) with (Z.testbit (Z.ones 8))
    | rewrite testbit_field by lia | rewrite testbit_wrapS by lia | rewrite testbit_ones by lia
    | rewrite Z.shiftr_spec by lia | rewrite Z.shiftl_spec by lia ].

Ltac decide_bits :=
  repeat match goal with
    | |- context [Z.min ?a ?b] => first [rewrite (Z.min_l a b) by lia | rewrite (Z.min_r a b) by lia]
    | |- context [?a <=? ?b] =>
        first [rewrite (proj2 (Z.leb_le a b)) by lia | rewrite (proj2 (Z.leb_gt a b)) by lia]
    | |- context [?a <? ?b] =>
        first [rewrite (proj2 (Z.ltb_lt a b)) by lia | rewrite (proj2 (Z.ltb_ge a b)) by lia]
    end;
  cbn [andb orb]; rewrite ?andb_true_r, ?andb_false_r, ?orb_false_r, ?orb_true_r; cbn [andb orb].

(** An unsigned field of [n] bits. *)
Ltac solve_ufield n H :=
  apply Z.bits_inj'; intros ?k ?Hk; push_bits;
  match goal with Hk : 0 <= ?k |- _ =>
    destruct (Z.lt_ge_cases k n); decide_bits;
    [f_equal; lia | by rewrite (testbit_inU n) by (exact H || lia)] end.

Section Fields.
Context (op rd' f3 rs1' rs2' : Z) (Hrd : inU 5 rd') (Hrs1 : inU 5 rs1') (Hrs2 : inU 5 rs2').

Lemma encodeI_rd imm : rd (encodeI op rd' f3 rs1' imm) = rd'.
Proof. unfold rd, encodeI. solve_ufield 5 Hrd. Qed.
Lemma encodeI_rs1 imm : rs1 (encodeI op rd' f3 rs1' imm) = rs1'.
Proof. unfold rs1, encodeI. solve_ufield 5 Hrs1. Qed.
Lemma encodeR_rd f7 : rd (encodeR op rd' f3 rs1' rs2' f7) = rd'.
Proof. unfold rd, encodeR. solve_ufield 5 Hrd. Qed.
Lemma encodeR_rs1 f7 : rs1 (encodeR op rd' f3 rs1' rs2' f7) = rs1'.
Proof. unfold rs1, encodeR. solve_ufield 5 Hrs1. Qed.
Lemma encodeR_rs2 f7 : rs2 (encodeR op rd' f3 rs1' rs2' f7) = rs2'.
Proof. unfold rs2, encodeR. solve_ufield 5 Hrs2. Qed.
Lemma encodeS_rs1 imm : rs1 (encodeS op f3 rs1' rs2' imm) = rs1'.
Proof. unfold rs1, encodeS. solve_ufield 5 Hrs1. Qed.
Lemma encodeS_rs2 imm : rs2 (encodeS op f3 rs1' rs2' imm) = rs2'.
Proof. unfold rs2, encodeS. solve_ufield 5 Hrs2. Qed.
Lemma encodeB_rs1 imm : rs1 (encodeB op f3 rs1' rs2' imm) = rs1'.
Proof. unfold rs1, encodeB. solve_ufield 5 Hrs1. Qed.
Lemma encodeB_rs2 imm : rs2 (encodeB op f3 rs1' rs2' imm) = rs2'.
Proof. unfold rs2, encodeB. solve_ufield 5 Hrs2. Qed.
Lemma encodeU_rd imm : rd (encodeU op rd' imm) = rd'.
Proof. unfold rd, encodeU. solve_ufield 5 Hrd. Qed.
Lemma encodeJ_rd imm : rd (encodeJ op rd' imm) = rd'.
Proof. unfold rd, encodeJ. solve_ufield 5 Hrd. Qed.
End Fields.

Ltac split_at k cuts :=
  match cuts with
  | nil => idtac
  | ?c :: ?cs => destruct (Z.lt_ge_cases k c); [ | split_at k cs ]
  end.

(** Where each bit of a signed immediate comes from. *)
Ltac solve_bit k cuts :=
  split_at k cuts; push_bits; decide_bits; try (f_equal; lia).

Lemma SIimm_bit w k : 0 <= k -> Z.testbit (SIimm w) k = if k <? 11 then Z.testbit w (k + 20) else Z.testbit w 31.
Proof. intros Hk. unfold SIimm. solve_bit k [11]. Qed.

Lemma Simm_bit w k : 0 <= k -> Z.testbit (Simm w) k =
  if k <? 5 then Z.testbit w (k + 7) else if k <? 11 then Z.testbit w (k + 20) else Z.testbit w 31.
Proof. intros Hk. unfold Simm. solve_bit k [5; 11]. Qed.

Lemma Bimm_bit w k : 0 <= k -> Z.testbit (Bimm w) k =
  if k <? 1 then false else if k <? 5 then Z.testbit w (k + 7) else if k <? 11 then Z.testbit w (k + 20)
  else if k <? 12 then Z.testbit w 7 else Z.testbit w 31.
Proof. intros Hk. unfold Bimm. solve_bit k [1; 5; 11; 12]. Qed.

Lemma Jimm_bit w k : 0 <= k -> Z.testbit (Jimm w) k =
  if k <? 1 then false else if k <? 11 then Z.testbit w (k + 20) else if k <? 12 then Z.testbit w 20
  else if k <? 20 then Z.testbit w k else Z.testbit w 31.
Proof. intros Hk. unfold Jimm. solve_bit k [1; 11; 12; 20]. Qed.

(** An immediate is determined by its bits up to its sign bit, which it repeats. *)
Lemma bits_signed w a b : 1 <= w -> inS w b ->
  (forall k, 0 <= k < w -> Z.testbit a k = Z.testbit b k) ->
  (forall k, w <= k -> Z.testbit a k = Z.testbit a (w - 1)) -> a = b.
Proof.
  intros Hw Hb Lo Hi. apply Z.bits_inj'. intros k Hk. destruct (Z.lt_ge_cases k w); [auto|].
  rewrite Hi, Lo by lia. by rewrite !(testbit_inS w b) by (lia || done).
Qed.

Lemma even_bit0 z : z mod 2 = 0 -> Z.testbit z 0 = false.
Proof. intros H. rewrite Z.bit0_odd, <- Z.negb_even, Zeven_mod. by rewrite H. Qed.

(** [bits_signed] for an immediate of [w] bits whose bits come from the positions [cuts] separate. *)
Ltac solve_imm w lem cuts :=
  apply (bits_signed w); [lia|assumption| |];
    intros k Hk; rewrite !lem by lia; [solve_bit k cuts | decide_bits; reflexivity].

Lemma encodeI_imm op rd' f3 rs1' imm : inS 12 imm -> SIimm (encodeI op rd' f3 rs1' imm) = imm.
Proof. intros H. unfold encodeI. solve_imm 12 SIimm_bit [11]. Qed.

Lemma encodeS_imm op f3 rs1' rs2' imm : inS 12 imm -> Simm (encodeS op f3 rs1' rs2' imm) = imm.
Proof. intros H. unfold encodeS. solve_imm 12 Simm_bit [5; 11]. Qed.

Lemma encodeB_imm op f3 rs1' rs2' imm : inS 13 imm -> imm mod 2 = 0 ->
  Bimm (encodeB op f3 rs1' rs2' imm) = imm.
Proof.
  intros H E. unfold encodeB. solve_imm 13 Bimm_bit [1; 5; 11; 12].
  replace k with 0 by lia. by rewrite even_bit0.
Qed.

Lemma encodeJ_imm op rd' imm : inS 21 imm -> imm mod 2 = 0 -> Jimm (encodeJ op rd' imm) = imm.
Proof.
  intros H E. unfold encodeJ. solve_imm 21 Jimm_bit [1; 11; 12; 20].
  replace k with 0 by lia. by rewrite even_bit0.
Qed.

Lemma SUimm_bit w k : 0 <= k -> Z.testbit (SUimm w) k = if k <? 12 then false else Z.testbit w (Z.min k 31).
Proof.
  intros Hk. unfold SUimm. change 0xFFFFF000 with (Z.shiftl (Z.ones 20) 12). solve_bit k [12; 31].
Qed.

Lemma encodeU_imm op rd' imm : inS 32 imm -> imm mod 2 ^ 12 = 0 -> SUimm (encodeU op rd' imm) = imm.
Proof.
  intros H E. unfold encodeU. solve_imm 32 SUimm_bit [12].
  rewrite <- (Z.mod_pow2_bits_low imm 12) by lia. by rewrite E, Z.bits_0.
Qed.

(** The accessors invert the manual's encodings.  Every register number and every immediate an
    instruction of format R, I, S, B, U or J can carry is read back from its word, the immediates
    with their sign. *)
Theorem fields_roundtrip op f3 f7 rd' rs1' rs2' imm : inU 5 rd' -> inU 5 rs1' -> inU 5 rs2' ->
  (let w := encodeR op rd' f3 rs1' rs2' f7 in rd w = rd' /\ rs1 w = rs1' /\ rs2 w = rs2') /\
  (inS 12 imm -> let w := encodeI op rd' f3 rs1' imm in rd w = rd' /\ rs1 w = rs1' /\ SIimm w = imm) /\
  (inS 12 imm -> let w := encodeS op f3 rs1' rs2' imm in rs1 w = rs1' /\ rs2 w = rs2' /\ Simm w = imm) /\
  (inS 13 imm -> imm mod 2 = 0 ->
     let w := encodeB op f3 rs1' rs2' imm in rs1 w = rs1' /\ rs2 w = rs2' /\ Bimm w = imm) /\
  (inS 32 imm -> imm mod 2 ^ 12 = 0 -> let w := encodeU op rd' imm in rd w = rd' /\ SUimm w = imm) /\
  (inS 21 imm -> imm mod 2 = 0 -> let w := encodeJ op rd' imm in rd w = rd' /\ Jimm w = imm).
Proof.
  intros. split_and!; intros; split_and!; subst w;
    auto using encodeR_rd, encodeR_rs1, encodeR_rs2, encodeI_rd, encodeI_rs1, encodeI_imm, encodeS_rs1,
      encodeS_rs2, encodeS_imm, encodeB_rs1, encodeB_rs2, encodeB_imm, encodeU_rd, encodeU_imm, encodeJ_rd,
      encodeJ_imm.
Qed.

Lemma fields_roundtrip_witness : Bimm (encodeB 0x63 0 10 11 (-8)) = -8 /\ SIimm (encodeI 0x13 5 0 6 (-8)) = -8.
Proof.
  destruct (fields_roundtrip 0x63 0 0 5 10 11 (-8)) as (_ & _ & _ & B & _); [vm_compute; intuition congruence..|].
  destruct (fields_roundtrip 0x13 0 0 5 6 11 (-8)) as (_ & I & _); [vm_compute; intuition congruence..|].
  split; [apply B; vm_compute; intuition congruence | apply I; vm_compute; intuition congruence].
Defined.
End Instruction.
