(* ===== verification/RiscvDecoder.v ===== *)
(** * The RISC-V decoder

    [pando-drv/interpreter/InstructionTable.h] and [RISCVDecoder.hpp]: the table of instructions, each a
    mnemonic with a mask and the value of the word under it, and the decoder that takes the
    first entry a word matches.  Decoding is compared with the instruction set manual, given as
    the opcode and function fields of each instruction. *)

From S2P Require Import Prelude RiscvInstruction.

Module Decoder.

(** src/pando-drv/interpreter/InstructionTable.h:4-6 [RTYPE_MASK] *)
Definition RTYPE_MASK : Z := 0xfe00707f.
(** src/pando-drv/interpreter/InstructionTable.h:7-9 [ITYPE_MASK] *)
Definition ITYPE_MASK : Z := 0x0000707f.
(** src/pando-drv/interpreter/InstructionTable.h:10-12 [ETYPE_MASK] *)
Definition ETYPE_MASK : Z := 0xfff0707f.
(** src/pando-drv/interpreter/InstructionTable.h:13-15 [SHIFTTYPE_MASK] *)
Definition SHIFTTYPE_MASK : Z := 0x4000707f.
(** src/pando-drv/interpreter/InstructionTable.h:16-18 [STYPE_MASK] *)
Definition STYPE_MASK : Z := 0x0000707f.
(** src/pando-drv/interpreter/InstructionTable.h:19-21 [BTYPE_MASK] *)
Definition BTYPE_MASK : Z := 0x0000707f.
(** src/pando-drv/interpreter/InstructionTable.h:22-24 [UTYPE_MASK] *)
Definition UTYPE_MASK : Z := 0x0000007f.
(** src/pando-drv/interpreter/InstructionTable.h:25-27 [JTYPE_MASK] *)
Definition JTYPE_MASK : Z := 0x0000007f.
(** src/pando-drv/interpreter/InstructionTable.h:28-30 [R4TYPE_MASK] *)
Definition R4TYPE_MASK : Z := 0x0600707f.
(** src/pando-drv/interpreter/InstructionTable.h:31-33 [SHIFT64TYPE_MASK] *)
Definition SHIFT64TYPE_MASK : Z := 0x4000707f.
(** src/pando-drv/interpreter/InstructionTable.h:34-36 [CASTYPE_MASK] *)
Definition CASTYPE_MASK : Z := 0x0600707f.
(** src/pando-drv/interpreter/InstructionTable.h:40-42 [FTYPE_MASK] *)
Definition FTYPE_MASK : Z := 0xfff0707f.

(** src/pando-drv/interpreter/InstructionTable.h:44-47 [RTYPE_INSTR_VALUE] *)
Definition RTYPE_INSTR_VALUE (opcode funct3 funct7 : Z) : Z :=
  Z.lor (Z.lor (Z.shiftl opcode 0) (Z.shiftl funct3 12)) (Z.shiftl funct7 25).
(** src/pando-drv/interpreter/InstructionTable.h:49-52 [ITYPE_INSTR_VALUE] *)
Definition ITYPE_INSTR_VALUE (opcode funct3 : Z) : Z :=
  Z.lor (Z.shiftl opcode 0) (Z.shiftl funct3 12).
(** src/pando-drv/interpreter/InstructionTable.h:54-57 [ETYPE_INSTR_VALUE] *)
Definition ETYPE_INSTR_VALUE (opcode funct3 funct12 : Z) : Z :=
  Z.lor (Z.lor (Z.shiftl opcode 0) (Z.shiftl funct3 12)) (Z.shiftl funct12 20).
(** src/pando-drv/interpreter/InstructionTable.h:59-62 [STYPE_INSTR_VALUE] *)
Definition STYPE_INSTR_VALUE (opcode funct3 : Z) : Z :=
  Z.lor (Z.shiftl opcode 0) (Z.shiftl funct3 12).
(** src/pando-drv/interpreter/InstructionTable.h:64-67 [BTYPE_INSTR_VALUE] *)
Definition BTYPE_INSTR_VALUE (opcode funct3 : Z) : Z :=
  Z.lor (Z.shiftl opcode 0) (Z.shiftl funct3 12).
(** src/pando-drv/interpreter/InstructionTable.h:69-72 [UTYPE_INSTR_VALUE] *)
Definition UTYPE_INSTR_VALUE (opcode : Z) : Z := Z.shiftl opcode 0.
(** src/pando-drv/interpreter/InstructionTable.h:74-77 [JTYPE_INSTR_VALUE] *)
Definition JTYPE_INSTR_VALUE (opcode : Z) : Z := Z.shiftl opcode 0.
(** src/pando-drv/interpreter/InstructionTable.h:79-82 [R4TYPE_INSTR_VALUE] *)
Definition R4TYPE_INSTR_VALUE (opcode funct3 funct2 : Z) : Z :=
  Z.lor (Z.lor (Z.shiftl opcode 0) (Z.shiftl funct2 25)) (Z.shiftl funct3 12).
(** src/pando-drv/interpreter/InstructionTable.h:84-87 [FTYPE_INSTR_VALUE] *)
Definition FTYPE_INSTR_VALUE (opcode funct3 funct7 ext : Z) : Z :=
  Z.lor (Z.lor (Z.lor (Z.shiftl opcode 0) (Z.shiftl funct3 12)) (Z.shiftl funct7 25)) (Z.shiftl ext 20).
(** src/pando-drv/interpreter/InstructionTable.h:89-92 [CASTYPE_INSTR_VALUE] *)
Definition CASTYPE_INSTR_VALUE (opcode funct3 funct2 : Z) : Z := R4TYPE_INSTR_VALUE opcode funct3 funct2.

(** The dynamic and static rounding modes of the floating-point formats. *)
(** src/pando-drv/interpreter/InstructionTable.h:340-345 [FP_RNE .. FP_DYN] *)
Definition FP_modes : list (string * Z) :=
  [("RNE", 0); ("RTZ", 1); ("RDN", 2); ("RUP", 3); ("RMM", 4); ("DYN", 7)].
Definition FP_RNE : Z := 0.
Definition FP_RTZ : Z := 1.
Definition FP_RDN : Z := 2.
Definition FP_RUP : Z := 3.
Definition FP_RMM : Z := 4.
Definition FP_DYN : Z := 7.

(** An entry of the table. *)
Definition entry : Type := (string * Z * Z).
Definition DEFINSTR (mnemonic : string) (value_under_mask mask : Z) : entry := (mnemonic, value_under_mask, mask).

(** src/pando-drv/interpreter/InstructionTable.h:99-157 [RV32I] *)
Definition RV32I : list entry := [
   DEFINSTR "LUI" (UTYPE_INSTR_VALUE 0x37) UTYPE_MASK;
   DEFINSTR "AUIPC" (UTYPE_INSTR_VALUE 0x17) UTYPE_MASK;
   DEFINSTR "JAL" (JTYPE_INSTR_VALUE 0x6f) JTYPE_MASK;
   DEFINSTR "JALR" (ITYPE_INSTR_VALUE 0x67 0) ITYPE_MASK;
   DEFINSTR "BEQ" (BTYPE_INSTR_VALUE 0x63 0) BTYPE_MASK;
   DEFINSTR "BNE" (BTYPE_INSTR_VALUE 0x63 1) BTYPE_MASK;
   DEFINSTR "BLT" (BTYPE_INSTR_VALUE 0x63 4) BTYPE_MASK;
   DEFINSTR "BGE" (BTYPE_INSTR_VALUE 0x63 5) BTYPE_MASK;
   DEFINSTR "BLTU" (BTYPE_INSTR_VALUE 0x63 6) BTYPE_MASK;
   DEFINSTR "BGEU" (BTYPE_INSTR_VALUE 0x63 7) BTYPE_MASK;
   DEFINSTR "LB" (ITYPE_INSTR_VALUE 0x03 0) ITYPE_MASK;
   DEFINSTR "LH" (ITYPE_INSTR_VALUE 0x03 1) ITYPE_MASK;
   DEFINSTR "LW" (ITYPE_INSTR_VALUE 0x03 2) ITYPE_MASK;
   DEFINSTR "LBU" (ITYPE_INSTR_VALUE 0x03 4) ITYPE_MASK;
   DEFINSTR "LHU" (ITYPE_INSTR_VALUE 0x03 5) ITYPE_MASK;
   DEFINSTR "SB" (STYPE_INSTR_VALUE 0x23 0) STYPE_MASK;
   DEFINSTR "SH" (STYPE_INSTR_VALUE 0x23 1) STYPE_MASK;
   DEFINSTR "SW" (STYPE_INSTR_VALUE 0x23 2) STYPE_MASK;
   DEFINSTR "ADDI" (ITYPE_INSTR_VALUE 0x13 0) ITYPE_MASK;
   DEFINSTR "SLTI" (ITYPE_INSTR_VALUE 0x13 2) ITYPE_MASK;
   DEFINSTR "SLTIU" (ITYPE_INSTR_VALUE 0x13 3) ITYPE_MASK;
   DEFINSTR "XORI" (ITYPE_INSTR_VALUE 0x13 4) ITYPE_MASK;
   DEFINSTR "ORI" (ITYPE_INSTR_VALUE 0x13 6) ITYPE_MASK;
   DEFINSTR "ANDI" (ITYPE_INSTR_VALUE 0x13 7) ITYPE_MASK;
   DEFINSTR "ADD" (RTYPE_INSTR_VALUE 0x33 0 0) RTYPE_MASK;
   DEFINSTR "SUB" (RTYPE_INSTR_VALUE 0x33 0 32) RTYPE_MASK;
   DEFINSTR "SLL" (RTYPE_INSTR_VALUE 0x33 1 0) RTYPE_MASK;
   DEFINSTR "SLT" (RTYPE_INSTR_VALUE 0x33 2 0) RTYPE_MASK;
   DEFINSTR "SLTU" (RTYPE_INSTR_VALUE 0x33 3 0) RTYPE_MASK;
   DEFINSTR "XOR" (RTYPE_INSTR_VALUE 0x33 4 0) RTYPE_MASK;
   DEFINSTR "SRL" (RTYPE_INSTR_VALUE 0x33 5 0) RTYPE_MASK;
   DEFINSTR "SRA" (RTYPE_INSTR_VALUE 0x33 5 32) RTYPE_MASK;
   DEFINSTR "OR" (RTYPE_INSTR_VALUE 0x33 6 0) RTYPE_MASK;
   DEFINSTR "AND" (RTYPE_INSTR_VALUE 0x33 7 0) RTYPE_MASK;
   DEFINSTR "FENCE" (ITYPE_INSTR_VALUE 0x0f 0) ITYPE_MASK;
   DEFINSTR "FENCE_I" (ITYPE_INSTR_VALUE 0x0f 1) ITYPE_MASK;
   DEFINSTR "ECALL" (ETYPE_INSTR_VALUE 0x73 0 0) ETYPE_MASK;
   DEFINSTR "EBREAK" (ETYPE_INSTR_VALUE 0x73 0 1) ETYPE_MASK;
   DEFINSTR "MRET" (ETYPE_INSTR_VALUE 0x73 0 0x302) ETYPE_MASK;
   DEFINSTR "CSRRW" (ITYPE_INSTR_VALUE 0x73 1) ITYPE_MASK;
   DEFINSTR "CSRRS" (ITYPE_INSTR_VALUE 0x73 2) ITYPE_MASK;
   DEFINSTR "CSRRC" (ITYPE_INSTR_VALUE 0x73 3) ITYPE_MASK;
   DEFINSTR "CSRRWI" (ITYPE_INSTR_VALUE 0x73 5) ITYPE_MASK;
   DEFINSTR "CSRRSI" (ITYPE_INSTR_VALUE 0x73 6) ITYPE_MASK;
   DEFINSTR "CSRRCI" (ITYPE_INSTR_VALUE 0x73 7) ITYPE_MASK].

(** src/pando-drv/interpreter/InstructionTable.h:162-180 [RV64I] *)
Definition RV64I : list entry := [
   DEFINSTR "LWU" (ITYPE_INSTR_VALUE 0x03 6) ITYPE_MASK;
   DEFINSTR "LD" (ITYPE_INSTR_VALUE 0x03 3) ITYPE_MASK;
   DEFINSTR "SD" (STYPE_INSTR_VALUE 0x23 3) STYPE_MASK;
   DEFINSTR "SLLI" (RTYPE_INSTR_VALUE 0x13 1 0) SHIFT64TYPE_MASK;
   DEFINSTR "SRLI" (RTYPE_INSTR_VALUE 0x13 5 0) SHIFT64TYPE_MASK;
   DEFINSTR "SRAI" (RTYPE_INSTR_VALUE 0x13 5 32) SHIFT64TYPE_MASK;
   DEFINSTR "ADDIW" (ITYPE_INSTR_VALUE 0x1b 0) ITYPE_MASK;
   DEFINSTR "SLLIW" (RTYPE_INSTR_VALUE 0x1b 1 0) RTYPE_MASK;
   DEFINSTR "SRLIW" (RTYPE_INSTR_VALUE 0x1b 5 0) RTYPE_MASK;
   DEFINSTR "SRAIW" (RTYPE_INSTR_VALUE 0x1b 5 32) RTYPE_MASK;
   DEFINSTR "ADDW" (RTYPE_INSTR_VALUE 0x3b 0 0) RTYPE_MASK;
   DEFINSTR "SUBW" (RTYPE_INSTR_VALUE 0x3b 0 32) RTYPE_MASK;
   DEFINSTR "SLLW" (RTYPE_INSTR_VALUE 0x3b 1 0) RTYPE_MASK;
   DEFINSTR "SRLW" (RTYPE_INSTR_VALUE 0x3b 5 0) RTYPE_MASK;
   DEFINSTR "SRAW" (RTYPE_INSTR_VALUE 0x3b 5 32) RTYPE_MASK].

(** src/pando-drv/interpreter/InstructionTable.h:186-193 [RV32M] *)
Definition RV32M : list entry := [
   DEFINSTR "MUL" (RTYPE_INSTR_VALUE 0x33 0 1) RTYPE_MASK;
   DEFINSTR "MULH" (RTYPE_INSTR_VALUE 0x33 1 1) RTYPE_MASK;
   DEFINSTR "MULHSU" (RTYPE_INSTR_VALUE 0x33 2 1) RTYPE_MASK;
   DEFINSTR "MULHU" (RTYPE_INSTR_VALUE 0x33 3 1) RTYPE_MASK;
   DEFINSTR "DIV" (RTYPE_INSTR_VALUE 0x33 4 1) RTYPE_MASK;
   DEFINSTR "DIVU" (RTYPE_INSTR_VALUE 0x33 5 1) RTYPE_MASK;
   DEFINSTR "REM" (RTYPE_INSTR_VALUE 0x33 6 1) RTYPE_MASK;
   DEFINSTR "REMU" (RTYPE_INSTR_VALUE 0x33 7 1) RTYPE_MASK].

(** src/pando-drv/interpreter/InstructionTable.h:199-203 [RV64M] *)
Definition RV64M : list entry := [
   DEFINSTR "MULW" (RTYPE_INSTR_VALUE 0x3b 0 1) RTYPE_MASK;
   DEFINSTR "DIVW" (RTYPE_INSTR_VALUE 0x3b 4 1) RTYPE_MASK;
   DEFINSTR "DIVUW" (RTYPE_INSTR_VALUE 0x3b 5 1) RTYPE_MASK;
   DEFINSTR "REMW" (RTYPE_INSTR_VALUE 0x3b 6 1) RTYPE_MASK;
   DEFINSTR "REMUW" (RTYPE_INSTR_VALUE 0x3b 7 1) RTYPE_MASK].

(** src/pando-drv/interpreter/InstructionTable.h:208-269 [RV32A] *)
Definition RV32A : list entry := [
   DEFINSTR "LRW" (RTYPE_INSTR_VALUE 0x2f 2 8) RTYPE_MASK;
   DEFINSTR "LRW_RL" (RTYPE_INSTR_VALUE 0x2f 2 9) RTYPE_MASK;
   DEFINSTR "LRW_AQ" (RTYPE_INSTR_VALUE 0x2f 2 10) RTYPE_MASK;
   DEFINSTR "LRW_RL_AQ" (RTYPE_INSTR_VALUE 0x2f 2 11) RTYPE_MASK;
   DEFINSTR "SCW" (RTYPE_INSTR_VALUE 0x2f 2 12) RTYPE_MASK;
   DEFINSTR "SCW_RL" (RTYPE_INSTR_VALUE 0x2f 2 13) RTYPE_MASK;
   DEFINSTR "SCW_AQ" (RTYPE_INSTR_VALUE 0x2f 2 14) RTYPE_MASK;
   DEFINSTR "SCW_RL_AQ" (RTYPE_INSTR_VALUE 0x2f 2 15) RTYPE_MASK;
   DEFINSTR "AMOSWAPW" (RTYPE_INSTR_VALUE 0x2f 2 4) RTYPE_MASK;
   DEFINSTR "AMOSWAPW_RL" (RTYPE_INSTR_VALUE 0x2f 2 5) RTYPE_MASK;
   DEFINSTR "AMOSWAPW_AQ" (RTYPE_INSTR_VALUE 0x2f 2 6) RTYPE_MASK;
   DEFINSTR "AMOSWAPW_RL_AQ" (RTYPE_INSTR_VALUE 0x2f 2 7) RTYPE_MASK;
   DEFINSTR "AMOADDW" (RTYPE_INSTR_VALUE 0x2f 2 0) RTYPE_MASK;
   DEFINSTR "AMOADDW_RL" (RTYPE_INSTR_VALUE 0x2f 2 1) RTYPE_MASK;
   DEFINSTR "AMOADDW_AQ" (RTYPE_INSTR_VALUE 0x2f 2 2) RTYPE_MASK;
   DEFINSTR "AMOADDW_RL_AQ" (RTYPE_INSTR_VALUE 0x2f 2 3) RTYPE_MASK;
   DEFINSTR "AMOXORW" (RTYPE_INSTR_VALUE 0x2f 2 16) RTYPE_MASK;
   DEFINSTR "AMOXORW_RL" (RTYPE_INSTR_VALUE 0x2f 2 17) RTYPE_MASK;
   DEFINSTR "AMOXORW_AQ" (RTYPE_INSTR_VALUE 0x2f 2 18) RTYPE_MASK;
   DEFINSTR "AMOXORW_RL_AQ" (RTYPE_INSTR_VALUE 0x2f 2 19) RTYPE_MASK;
   DEFINSTR "AMOANDW" (RTYPE_INSTR_VALUE 0x2f 2 48) RTYPE_MASK;
   DEFINSTR "AMOANDW_RL" (RTYPE_INSTR_VALUE 0x2f 2 49) RTYPE_MASK;
   DEFINSTR "AMOANDW_AQ" (RTYPE_INSTR_VALUE 0x2f 2 50) RTYPE_MASK;
   DEFINSTR "AMOANDW_RL_AQ" (RTYPE_INSTR_VALUE 0x2f 2 51) RTYPE_MASK;
   DEFINSTR "AMOORW" (RTYPE_INSTR_VALUE 0x2f 2 32) RTYPE_MASK;
   DEFINSTR "AMOORW_RL" (RTYPE_INSTR_VALUE 0x2f 2 33) RTYPE_MASK;
   DEFINSTR "AMOORW_AQ" (RTYPE_INSTR_VALUE 0x2f 2 34) RTYPE_MASK;
   DEFINSTR "AMOORW_RL_AQ" (RTYPE_INSTR_VALUE 0x2f 2 35) RTYPE_MASK;
   DEFINSTR "AMOMINW" (RTYPE_INSTR_VALUE 0x2f 2 64) RTYPE_MASK;
   DEFINSTR "AMOMINW_RL" (RTYPE_INSTR_VALUE 0x2f 2 65) RTYPE_MASK;
   DEFINSTR "AMOMINW_AQ" (RTYPE_INSTR_VALUE 0x2f 2 66) RTYPE_MASK;
   DEFINSTR "AMOMINW_RL_AQ" (RTYPE_INSTR_VALUE 0x2f 2 67) RTYPE_MASK;
   DEFINSTR "AMOMAXW" (RTYPE_INSTR_VALUE 0x2f 2 80) RTYPE_MASK;
   DEFINSTR "AMOMAXW_RL" (RTYPE_INSTR_VALUE 0x2f 2 81) RTYPE_MASK;
   DEFINSTR "AMOMAXW_AQ" (RTYPE_INSTR_VALUE 0x2f 2 82) RTYPE_MASK;
   DEFINSTR "AMOMAXW_RL_AQ" (RTYPE_INSTR_VALUE 0x2f 2 83) RTYPE_MASK;
   DEFINSTR "AMOMINUW" (RTYPE_INSTR_VALUE 0x2f 2 96) RTYPE_MASK;
   DEFINSTR "AMOMINUW_RL" (RTYPE_INSTR_VALUE 0x2f 2 97) RTYPE_MASK;
   DEFINSTR "AMOMINUW_AQ" (RTYPE_INSTR_VALUE 0x2f 2 98) RTYPE_MASK;
   DEFINSTR "AMOMINUW_RL_AQ" (RTYPE_INSTR_VALUE 0x2f 2 99) RTYPE_MASK;
   DEFINSTR "AMOMAXUW" (RTYPE_INSTR_VALUE 0x2f 2 112) RTYPE_MASK;
   DEFINSTR "AMOMAXUW_RL" (RTYPE_INSTR_VALUE 0x2f 2 113) RTYPE_MASK;
   DEFINSTR "AMOMAXUW_AQ" (RTYPE_INSTR_VALUE 0x2f 2 114) RTYPE_MASK;
   DEFINSTR "AMOMAXUW_RL_AQ" (RTYPE_INSTR_VALUE 0x2f 2 115) RTYPE_MASK;
   DEFINSTR "AMOCASW" (CASTYPE_INSTR_VALUE 0x2b 2 0) CASTYPE_MASK;
   DEFINSTR "AMOCASW_RL" (CASTYPE_INSTR_VALUE 0x2b 2 1) CASTYPE_MASK;
   DEFINSTR "AMOCASW_AQ" (CASTYPE_INSTR_VALUE 0x2b 2 2) CASTYPE_MASK;
   DEFINSTR "AMOCASW_RL_AQ" (CASTYPE_INSTR_VALUE 0x2b 2 3) CASTYPE_MASK].

(** src/pando-drv/interpreter/InstructionTable.h:274-335 [RV64A] *)
Definition RV64A : list entry := [
   DEFINSTR "LRD" (RTYPE_INSTR_VALUE 0x2f 3 8) RTYPE_MASK;
   DEFINSTR "LRD_RL" (RTYPE_INSTR_VALUE 0x2f 3 9) RTYPE_MASK;
   DEFINSTR "LRD_AQ" (RTYPE_INSTR_VALUE 0x2f 3 10) RTYPE_MASK;
   DEFINSTR "LRD_RL_AQ" (RTYPE_INSTR_VALUE 0x2f 3 11) RTYPE_MASK;
   DEFINSTR "SCD" (RTYPE_INSTR_VALUE 0x2f 3 12) RTYPE_MASK;
   DEFINSTR "SCD_RL" (RTYPE_INSTR_VALUE 0x2f 3 13) RTYPE_MASK;
   DEFINSTR "SCD_AQ" (RTYPE_INSTR_VALUE 0x2f 3 14) RTYPE_MASK;
   DEFINSTR "SCD_RL_AQ" (RTYPE_INSTR_VALUE 0x2f 3 15) RTYPE_MASK;
   DEFINSTR "AMOSWAPD" (RTYPE_INSTR_VALUE 0x2f 3 4) RTYPE_MASK;
   DEFINSTR "AMOSWAPD_RL" (RTYPE_INSTR_VALUE 0x2f 3 5) RTYPE_MASK;
   DEFINSTR "AMOSWAPD_AQ" (RTYPE_INSTR_VALUE 0x2f 3 6) RTYPE_MASK;
   DEFINSTR "AMOSWAPD_RL_AQ" (RTYPE_INSTR_VALUE 0x2f 3 7) RTYPE_MASK;
   DEFINSTR "AMOADDD" (RTYPE_INSTR_VALUE 0x2f 3 0) RTYPE_MASK;
   DEFINSTR "AMOADDD_RL" (RTYPE_INSTR_VALUE 0x2f 3 1) RTYPE_MASK;
   DEFINSTR "AMOADDD_AQ" (RTYPE_INSTR_VALUE 0x2f 3 2) RTYPE_MASK;
   DEFINSTR "AMOADDD_RL_AQ" (RTYPE_INSTR_VALUE 0x2f 3 3) RTYPE_MASK;
   DEFINSTR "AMOXORD" (RTYPE_INSTR_VALUE 0x2f 3 16) RTYPE_MASK;
   DEFINSTR "AMOXORD_RL" (RTYPE_INSTR_VALUE 0x2f 3 17) RTYPE_MASK;
   DEFINSTR "AMOXORD_AQ" (RTYPE_INSTR_VALUE 0x2f 3 18) RTYPE_MASK;
   DEFINSTR "AMOXORD_RL_AQ" (RTYPE_INSTR_VALUE 0x2f 3 19) RTYPE_MASK;
   DEFINSTR "AMOANDD" (RTYPE_INSTR_VALUE 0x2f 3 48) RTYPE_MASK;
   DEFINSTR "AMOANDD_RL" (RTYPE_INSTR_VALUE 0x2f 3 49) RTYPE_MASK;
   DEFINSTR "AMOANDD_AQ" (RTYPE_INSTR_VALUE 0x2f 3 50) RTYPE_MASK;
   DEFINSTR "AMOANDD_RL_AQ" (RTYPE_INSTR_VALUE 0x2f 3 51) RTYPE_MASK;
   DEFINSTR "AMOORD" (RTYPE_INSTR_VALUE 0x2f 3 32) RTYPE_MASK;
   DEFINSTR "AMOORD_RL" (RTYPE_INSTR_VALUE 0x2f 3 33) RTYPE_MASK;
   DEFINSTR "AMOORD_AQ" (RTYPE_INSTR_VALUE 0x2f 3 34) RTYPE_MASK;
   DEFINSTR "AMOORD_RL_AQ" (RTYPE_INSTR_VALUE 0x2f 3 35) RTYPE_MASK;
   DEFINSTR "AMOMIND" (RTYPE_INSTR_VALUE 0x2f 3 64) RTYPE_MASK;
   DEFINSTR "AMOMIND_RL" (RTYPE_INSTR_VALUE 0x2f 3 65) RTYPE_MASK;
   DEFINSTR "AMOMIND_AQ" (RTYPE_INSTR_VALUE 0x2f 3 66) RTYPE_MASK;
   DEFINSTR "AMOMIND_RL_AQ" (RTYPE_INSTR_VALUE 0x2f 3 67) RTYPE_MASK;
   DEFINSTR "AMOMAXD" (RTYPE_INSTR_VALUE 0x2f 3 80) RTYPE_MASK;
   DEFINSTR "AMOMAXD_RL" (RTYPE_INSTR_VALUE 0x2f 3 81) RTYPE_MASK;
   DEFINSTR "AMOMAXD_AQ" (RTYPE_INSTR_VALUE 0x2f 3 82) RTYPE_MASK;
   DEFINSTR "AMOMAXD_RL_AQ" (RTYPE_INSTR_VALUE 0x2f 3 83) RTYPE_MASK;
   DEFINSTR "AMOMINUD" (RTYPE_INSTR_VALUE 0x2f 3 96) RTYPE_MASK;
   DEFINSTR "AMOMINUD_RL" (RTYPE_INSTR_VALUE 0x2f 3 97) RTYPE_MASK;
   DEFINSTR "AMOMINUD_AQ" (RTYPE_INSTR_VALUE 0x2f 3 98) RTYPE_MASK;
   DEFINSTR "AMOMINUD_RL_AQ" (RTYPE_INSTR_VALUE 0x2f 3 99) RTYPE_MASK;
   DEFINSTR "AMOMAXUD" (RTYPE_INSTR_VALUE 0x2f 3 112) RTYPE_MASK;
   DEFINSTR "AMOMAXUD_RL" (RTYPE_INSTR_VALUE 0x2f 3 113) RTYPE_MASK;
   DEFINSTR "AMOMAXUD_AQ" (RTYPE_INSTR_VALUE 0x2f 3 114) RTYPE_MASK;
   DEFINSTR "AMOMAXUD_RL_AQ" (RTYPE_INSTR_VALUE 0x2f 3 115) RTYPE_MASK;
   DEFINSTR "AMOCASD" (CASTYPE_INSTR_VALUE 0x2b 3 0) CASTYPE_MASK;
   DEFINSTR "AMOCASD_RL" (CASTYPE_INSTR_VALUE 0x2b 3 1) CASTYPE_MASK;
   DEFINSTR "AMOCASD_AQ" (CASTYPE_INSTR_VALUE 0x2b 3 2) CASTYPE_MASK;
   DEFINSTR "AMOCASD_RL_AQ" (CASTYPE_INSTR_VALUE 0x2b 3 3) CASTYPE_MASK].

(** src/pando-drv/interpreter/InstructionTable.h:347-455 [RV32F] *)
Definition RV32F : list entry := [
   DEFINSTR "FLW" (ITYPE_INSTR_VALUE 0x07 2) ITYPE_MASK;
   DEFINSTR "FSW" (STYPE_INSTR_VALUE 0x27 2) STYPE_MASK;
   DEFINSTR "FMADD_S_RNE" (R4TYPE_INSTR_VALUE 0x43 FP_RNE 0) R4TYPE_MASK;
   DEFINSTR "FMADD_S_RTZ" (R4TYPE_INSTR_VALUE 0x43 FP_RTZ 0) R4TYPE_MASK;
   DEFINSTR "FMADD_S_RDN" (R4TYPE_INSTR_VALUE 0x43 FP_RDN 0) R4TYPE_MASK;
   DEFINSTR "FMADD_S_RUP" (R4TYPE_INSTR_VALUE 0x43 FP_RUP 0) R4TYPE_MASK;
   DEFINSTR "FMADD_S_RMM" (R4TYPE_INSTR_VALUE 0x43 FP_RMM 0) R4TYPE_MASK;
   DEFINSTR "FMADD_S_DYN" (R4TYPE_INSTR_VALUE 0x43 FP_DYN 0) R4TYPE_MASK;
   DEFINSTR "FMSUB_S_RNE" (R4TYPE_INSTR_VALUE 0x47 FP_RNE 0) R4TYPE_MASK;
   DEFINSTR "FMSUB_S_RTZ" (R4TYPE_INSTR_VALUE 0x47 FP_RTZ 0) R4TYPE_MASK;
   DEFINSTR "FMSUB_S_RDN" (R4TYPE_INSTR_VALUE 0x47 FP_RDN 0) R4TYPE_MASK;
   DEFINSTR "FMSUB_S_RUP" (R4TYPE_INSTR_VALUE 0x47 FP_RUP 0) R4TYPE_MASK;
   DEFINSTR "FMSUB_S_RMM" (R4TYPE_INSTR_VALUE 0x47 FP_RMM 0) R4TYPE_MASK;
   DEFINSTR "FMSUB_S_DYN" (R4TYPE_INSTR_VALUE 0x47 FP_DYN 0) R4TYPE_MASK;
   DEFINSTR "FNMSUB_S_RNE" (R4TYPE_INSTR_VALUE 0x4b FP_RNE 0) R4TYPE_MASK;
   DEFINSTR "FNMSUB_S_RTZ" (R4TYPE_INSTR_VALUE 0x4b FP_RTZ 0) R4TYPE_MASK;
   DEFINSTR "FNMSUB_S_RDN" (R4TYPE_INSTR_VALUE 0x4b FP_RDN 0) R4TYPE_MASK;
   DEFINSTR "FNMSUB_S_RUP" (R4TYPE_INSTR_VALUE 0x4b FP_RUP 0) R4TYPE_MASK;
   DEFINSTR "FNMSUB_S_RMM" (R4TYPE_INSTR_VALUE 0x4b FP_RMM 0) R4TYPE_MASK;
   DEFINSTR "FNMSUB_S_DYN" (R4TYPE_INSTR_VALUE 0x4b FP_DYN 0) R4TYPE_MASK;
   DEFINSTR "FNMADD_S_RNE" (R4TYPE_INSTR_VALUE 0x4f FP_RNE 0) R4TYPE_MASK;
   DEFINSTR "FNMADD_S_RTZ" (R4TYPE_INSTR_VALUE 0x4f FP_RTZ 0) R4TYPE_MASK;
   DEFINSTR "FNMADD_S_RDN" (R4TYPE_INSTR_VALUE 0x4f FP_RDN 0) R4TYPE_MASK;
   DEFINSTR "FNMADD_S_RUP" (R4TYPE_INSTR_VALUE 0x4f FP_RUP 0) R4TYPE_MASK;
   DEFINSTR "FNMADD_S_RMM" (R4TYPE_INSTR_VALUE 0x4f FP_RMM 0) R4TYPE_MASK;
   DEFINSTR "FNMADD_S_DYN" (R4TYPE_INSTR_VALUE 0x4f FP_DYN 0) R4TYPE_MASK;
   DEFINSTR "FADD_S_RNE" (RTYPE_INSTR_VALUE 0x53 FP_RNE 0) RTYPE_MASK;
   DEFINSTR "FADD_S_RTZ" (RTYPE_INSTR_VALUE 0x53 FP_RTZ 0) RTYPE_MASK;
   DEFINSTR "FADD_S_RDN" (RTYPE_INSTR_VALUE 0x53 FP_RDN 0) RTYPE_MASK;
   DEFINSTR "FADD_S_RUP" (RTYPE_INSTR_VALUE 0x53 FP_RUP 0) RTYPE_MASK;
   DEFINSTR "FADD_S_RMM" (RTYPE_INSTR_VALUE 0x53 FP_RMM 0) RTYPE_MASK;
   DEFINSTR "FADD_S_DYN" (RTYPE_INSTR_VALUE 0x53 FP_DYN 0) RTYPE_MASK;
   DEFINSTR "FSUB_S_RNE" (RTYPE_INSTR_VALUE 0x53 FP_RNE 4) RTYPE_MASK;
   DEFINSTR "FSUB_S_RTZ" (RTYPE_INSTR_VALUE 0x53 FP_RTZ 4) RTYPE_MASK;
   DEFINSTR "FSUB_S_RDN" (RTYPE_INSTR_VALUE 0x53 FP_RDN 4) RTYPE_MASK;
   DEFINSTR "FSUB_S_RUP" (RTYPE_INSTR_VALUE 0x53 FP_RUP 4) RTYPE_MASK;
   DEFINSTR "FSUB_S_RMM" (RTYPE_INSTR_VALUE 0x53 FP_RMM 4) RTYPE_MASK;
   DEFINSTR "FSUB_S_DYN" (RTYPE_INSTR_VALUE 0x53 FP_DYN 4) RTYPE_MASK;
   DEFINSTR "FMUL_S_RNE" (RTYPE_INSTR_VALUE 0x53 FP_RNE 8) RTYPE_MASK;
   DEFINSTR "FMUL_S_RTZ" (RTYPE_INSTR_VALUE 0x53 FP_RTZ 8) RTYPE_MASK;
   DEFINSTR "FMUL_S_RDN" (RTYPE_INSTR_VALUE 0x53 FP_RDN 8) RTYPE_MASK;
   DEFINSTR "FMUL_S_RUP" (RTYPE_INSTR_VALUE 0x53 FP_RUP 8) RTYPE_MASK;
   DEFINSTR "FMUL_S_RMM" (RTYPE_INSTR_VALUE 0x53 FP_RMM 8) RTYPE_MASK;
   DEFINSTR "FMUL_S_DYN" (RTYPE_INSTR_VALUE 0x53 FP_DYN 8) RTYPE_MASK;
   DEFINSTR "FDIV_S_RNE" (RTYPE_INSTR_VALUE 0x53 FP_RNE 12) RTYPE_MASK;
   DEFINSTR "FDIV_S_RTZ" (RTYPE_INSTR_VALUE 0x53 FP_RTZ 12) RTYPE_MASK;
   DEFINSTR "FDIV_S_RDN" (RTYPE_INSTR_VALUE 0x53 FP_RDN 12) RTYPE_MASK;
   DEFINSTR "FDIV_S_RUP" (RTYPE_INSTR_VALUE 0x53 FP_RUP 12) RTYPE_MASK;
   DEFINSTR "FDIV_S_RMM" (RTYPE_INSTR_VALUE 0x53 FP_RMM 12) RTYPE_MASK;
   DEFINSTR "FDIV_S_DYN" (RTYPE_INSTR_VALUE 0x53 FP_DYN 12) RTYPE_MASK;
   DEFINSTR "FSQRT_S_RNE" (FTYPE_INSTR_VALUE 0x53 FP_RNE 44 0) FTYPE_MASK;
   DEFINSTR "FSQRT_S_RTZ" (FTYPE_INSTR_VALUE 0x53 FP_RTZ 44 0) FTYPE_MASK;
   DEFINSTR "FSQRT_S_RDN" (FTYPE_INSTR_VALUE 0x53 FP_RDN 44 0) FTYPE_MASK;
   DEFINSTR "FSQRT_S_RUP" (FTYPE_INSTR_VALUE 0x53 FP_RUP 44 0) FTYPE_MASK;
   DEFINSTR "FSQRT_S_RMM" (FTYPE_INSTR_VALUE 0x53 FP_RMM 44 0) FTYPE_MASK;
   DEFINSTR "FSQRT_S_DYN" (FTYPE_INSTR_VALUE 0x53 FP_DYN 44 0) FTYPE_MASK;
   DEFINSTR "FSGNJ_S" (RTYPE_INSTR_VALUE 0x53 0 16) RTYPE_MASK;
   DEFINSTR "FSGNJN_S" (RTYPE_INSTR_VALUE 0x53 1 16) RTYPE_MASK;
   DEFINSTR "FSGNJX_S" (RTYPE_INSTR_VALUE 0x53 2 16) RTYPE_MASK;
   DEFINSTR "FMIN_S" (RTYPE_INSTR_VALUE 0x53 0 20) RTYPE_MASK;
   DEFINSTR "FMAX_S" (RTYPE_INSTR_VALUE 0x53 1 20) RTYPE_MASK;
   DEFINSTR "FCVT_W_S_RNE" (FTYPE_INSTR_VALUE 0x53 FP_RNE 96 0) FTYPE_MASK;
   DEFINSTR "FCVT_W_S_RTZ" (FTYPE_INSTR_VALUE 0x53 FP_RTZ 96 0) FTYPE_MASK;
   DEFINSTR "FCVT_W_S_RDN" (FTYPE_INSTR_VALUE 0x53 FP_RDN 96 0) FTYPE_MASK;
   DEFINSTR "FCVT_W_S_RUP" (FTYPE_INSTR_VALUE 0x53 FP_RUP 96 0) FTYPE_MASK;
   DEFINSTR "FCVT_W_S_RMM" (FTYPE_INSTR_VALUE 0x53 FP_RMM 96 0) FTYPE_MASK;
   DEFINSTR "FCVT_W_S_DYN" (FTYPE_INSTR_VALUE 0x53 FP_DYN 96 0) FTYPE_MASK;
   DEFINSTR "FCVT_WU_S_RNE" (FTYPE_INSTR_VALUE 0x53 FP_RNE 96 1) FTYPE_MASK;
   DEFINSTR "FCVT_WU_S_RTZ" (FTYPE_INSTR_VALUE 0x53 FP_RTZ 96 1) FTYPE_MASK;
   DEFINSTR "FCVT_WU_S_RDN" (FTYPE_INSTR_VALUE 0x53 FP_RDN 96 1) FTYPE_MASK;
   DEFINSTR "FCVT_WU_S_RUP" (FTYPE_INSTR_VALUE 0x53 FP_RUP 96 1) FTYPE_MASK;
   DEFINSTR "FCVT_WU_S_RMM" (FTYPE_INSTR_VALUE 0x53 FP_RMM 96 1) FTYPE_MASK;
   DEFINSTR "FCVT_WU_S_DYN" (FTYPE_INSTR_VALUE 0x53 FP_DYN 96 1) FTYPE_MASK;
   DEFINSTR "FMV_X_W" (FTYPE_INSTR_VALUE 0x53 0 112 0) FTYPE_MASK;
   DEFINSTR "FEQ_S" (RTYPE_INSTR_VALUE 0x53 2 80) RTYPE_MASK;
   DEFINSTR "FLE_S" (RTYPE_INSTR_VALUE 0x53 1 80) RTYPE_MASK;
   DEFINSTR "FLT_S" (RTYPE_INSTR_VALUE 0x53 0 80) RTYPE_MASK;
   DEFINSTR "FCLASS_S" (FTYPE_INSTR_VALUE 0x53 1 112 0) FTYPE_MASK;
   DEFINSTR "FCVT_S_W_RNE" (FTYPE_INSTR_VALUE 0x53 FP_RNE 104 0) FTYPE_MASK;
   DEFINSTR "FCVT_S_W_RTZ" (FTYPE_INSTR_VALUE 0x53 FP_RTZ 104 0) FTYPE_MASK;
   DEFINSTR "FCVT_S_W_RDN" (FTYPE_INSTR_VALUE 0x53 FP_RDN 104 0) FTYPE_MASK;
   DEFINSTR "FCVT_S_W_RUP" (FTYPE_INSTR_VALUE 0x53 FP_RUP 104 0) FTYPE_MASK;
   DEFINSTR "FCVT_S_W_RMM" (FTYPE_INSTR_VALUE 0x53 FP_RMM 104 0) FTYPE_MASK;
   DEFINSTR "FCVT_S_W_DYN" (FTYPE_INSTR_VALUE 0x53 FP_DYN 104 0) FTYPE_MASK;
   DEFINSTR "FCVT_S_WU_RNE" (FTYPE_INSTR_VALUE 0x53 FP_RNE 104 1) FTYPE_MASK;
   DEFINSTR "FCVT_S_WU_RTZ" (FTYPE_INSTR_VALUE 0x53 FP_RTZ 104 1) FTYPE_MASK;
   DEFINSTR "FCVT_S_WU_RDN" (FTYPE_INSTR_VALUE 0x53 FP_RDN 104 1) FTYPE_MASK;
   DEFINSTR "FCVT_S_WU_RUP" (FTYPE_INSTR_VALUE 0x53 FP_RUP 104 1) FTYPE_MASK;
   DEFINSTR "FCVT_S_WU_RMM" (FTYPE_INSTR_VALUE 0x53 FP_RMM 104 1) FTYPE_MASK;
   DEFINSTR "FCVT_S_WU_DYN" (FTYPE_INSTR_VALUE 0x53 FP_DYN 104 1) FTYPE_MASK;
   DEFINSTR "FMV_W_X" (FTYPE_INSTR_VALUE 0x53 0 120 0) FTYPE_MASK].

(** src/pando-drv/interpreter/InstructionTable.h:461-487 [RV64F] *)
Definition RV64F : list entry := [
   DEFINSTR "FCVT_L_S_RNE" (FTYPE_INSTR_VALUE 0x53 FP_RNE 96 2) FTYPE_MASK;
   DEFINSTR "FCVT_L_S_RTZ" (FTYPE_INSTR_VALUE 0x53 FP_RTZ 96 2) FTYPE_MASK;
   DEFINSTR "FCVT_L_S_RDN" (FTYPE_INSTR_VALUE 0x53 FP_RDN 96 2) FTYPE_MASK;
   DEFINSTR "FCVT_L_S_RUP" (FTYPE_INSTR_VALUE 0x53 FP_RUP 96 2) FTYPE_MASK;
   DEFINSTR "FCVT_L_S_RMM" (FTYPE_INSTR_VALUE 0x53 FP_RMM 96 2) FTYPE_MASK;
   DEFINSTR "FCVT_L_S_DYN" (FTYPE_INSTR_VALUE 0x53 FP_DYN 96 2) FTYPE_MASK;
   DEFINSTR "FCVT_LU_S_RNE" (FTYPE_INSTR_VALUE 0x53 FP_RNE 96 3) FTYPE_MASK;
   DEFINSTR "FCVT_LU_S_RTZ" (FTYPE_INSTR_VALUE 0x53 FP_RTZ 96 3) FTYPE_MASK;
   DEFINSTR "FCVT_LU_S_RDN" (FTYPE_INSTR_VALUE 0x53 FP_RDN 96 3) FTYPE_MASK;
   DEFINSTR "FCVT_LU_S_RUP" (FTYPE_INSTR_VALUE 0x53 FP_RUP 96 3) FTYPE_MASK;
   DEFINSTR "FCVT_LU_S_RMM" (FTYPE_INSTR_VALUE 0x53 FP_RMM 96 3) FTYPE_MASK;
   DEFINSTR "FCVT_LU_S_DYN" (FTYPE_INSTR_VALUE 0x53 FP_DYN 96 3) FTYPE_MASK;
   DEFINSTR "FCVT_S_L_RNE" (FTYPE_INSTR_VALUE 0x53 FP_RNE 104 2) FTYPE_MASK;
   DEFINSTR "FCVT_S_L_RTZ" (FTYPE_INSTR_VALUE 0x53 FP_RTZ 104 2) FTYPE_MASK;
   DEFINSTR "FCVT_S_L_RDN" (FTYPE_INSTR_VALUE 0x53 FP_RDN 104 2) FTYPE_MASK;
   DEFINSTR "FCVT_S_L_RUP" (FTYPE_INSTR_VALUE 0x53 FP_RUP 104 2) FTYPE_MASK;
   DEFINSTR "FCVT_S_L_RMM" (FTYPE_INSTR_VALUE 0x53 FP_RMM 104 2) FTYPE_MASK;
   DEFINSTR "FCVT_S_L_DYN" (FTYPE_INSTR_VALUE 0x53 FP_DYN 104 2) FTYPE_MASK;
   DEFINSTR "FCVT_S_LU_RNE" (FTYPE_INSTR_VALUE 0x53 FP_RNE 104 3) FTYPE_MASK;
   DEFINSTR "FCVT_S_LU_RTZ" (FTYPE_INSTR_VALUE 0x53 FP_RTZ 104 3) FTYPE_MASK;
   DEFINSTR "FCVT_S_LU_RDN" (FTYPE_INSTR_VALUE 0x53 FP_RDN 104 3) FTYPE_MASK;
   DEFINSTR "FCVT_S_LU_RUP" (FTYPE_INSTR_VALUE 0x53 FP_RUP 104 3) FTYPE_MASK;
   DEFINSTR "FCVT_S_LU_RMM" (FTYPE_INSTR_VALUE 0x53 FP_RMM 104 3) FTYPE_MASK;
   DEFINSTR "FCVT_S_LU_DYN" (FTYPE_INSTR_VALUE 0x53 FP_DYN 104 3) FTYPE_MASK].

(** src/pando-drv/interpreter/InstructionTable.h:492-611 [RV32D] *)
Definition RV32D : list entry := [
   DEFINSTR "FLD" (ITYPE_INSTR_VALUE 0x07 3) ITYPE_MASK;
   DEFINSTR "FSD" (STYPE_INSTR_VALUE 0x27 3) STYPE_MASK;
   DEFINSTR "FMADD_D_RNE" (R4TYPE_INSTR_VALUE 0x43 FP_RNE 1) R4TYPE_MASK;
   DEFINSTR "FMADD_D_RTZ" (R4TYPE_INSTR_VALUE 0x43 FP_RTZ 1) R4TYPE_MASK;
   DEFINSTR "FMADD_D_RDN" (R4TYPE_INSTR_VALUE 0x43 FP_RDN 1) R4TYPE_MASK;
   DEFINSTR "FMADD_D_RUP" (R4TYPE_INSTR_VALUE 0x43 FP_RUP 1) R4TYPE_MASK;
   DEFINSTR "FMADD_D_RMM" (R4TYPE_INSTR_VALUE 0x43 FP_RMM 1) R4TYPE_MASK;
   DEFINSTR "FMADD_D_DYN" (R4TYPE_INSTR_VALUE 0x43 FP_DYN 1) R4TYPE_MASK;
   DEFINSTR "FMSUB_D_RNE" (R4TYPE_INSTR_VALUE 0x47 FP_RNE 1) R4TYPE_MASK;
   DEFINSTR "FMSUB_D_RTZ" (R4TYPE_INSTR_VALUE 0x47 FP_RTZ 1) R4TYPE_MASK;
   DEFINSTR "FMSUB_D_RDN" (R4TYPE_INSTR_VALUE 0x47 FP_RDN 1) R4TYPE_MASK;
   DEFINSTR "FMSUB_D_RUP" (R4TYPE_INSTR_VALUE 0x47 FP_RUP 1) R4TYPE_MASK;
   DEFINSTR "FMSUB_D_RMM" (R4TYPE_INSTR_VALUE 0x47 FP_RMM 1) R4TYPE_MASK;
   DEFINSTR "FMSUB_D_DYN" (R4TYPE_INSTR_VALUE 0x47 FP_DYN 1) R4TYPE_MASK;
   DEFINSTR "FNMSUB_D_RNE" (R4TYPE_INSTR_VALUE 0x4b FP_RNE 1) R4TYPE_MASK;
   DEFINSTR "FNMSUB_D_RTZ" (R4TYPE_INSTR_VALUE 0x4b FP_RTZ 1) R4TYPE_MASK;
   DEFINSTR "FNMSUB_D_RDN" (R4TYPE_INSTR_VALUE 0x4b FP_RDN 1) R4TYPE_MASK;
   DEFINSTR "FNMSUB_D_RUP" (R4TYPE_INSTR_VALUE 0x4b FP_RUP 1) R4TYPE_MASK;
   DEFINSTR "FNMSUB_D_RMM" (R4TYPE_INSTR_VALUE 0x4b FP_RMM 1) R4TYPE_MASK;
   DEFINSTR "FNMSUB_D_DYN" (R4TYPE_INSTR_VALUE 0x4b FP_DYN 1) R4TYPE_MASK;
   DEFINSTR "FNMADD_D_RNE" (R4TYPE_INSTR_VALUE 0x4f FP_RNE 1) R4TYPE_MASK;
   DEFINSTR "FNMADD_D_RTZ" (R4TYPE_INSTR_VALUE 0x4f FP_RTZ 1) R4TYPE_MASK;
   DEFINSTR "FNMADD_D_RDN" (R4TYPE_INSTR_VALUE 0x4f FP_RDN 1) R4TYPE_MASK;
   DEFINSTR "FNMADD_D_RUP" (R4TYPE_INSTR_VALUE 0x4f FP_RUP 1) R4TYPE_MASK;
   DEFINSTR "FNMADD_D_RMM" (R4TYPE_INSTR_VALUE 0x4f FP_RMM 1) R4TYPE_MASK;
   DEFINSTR "FNMADD_D_DYN" (R4TYPE_INSTR_VALUE 0x4f FP_DYN 1) R4TYPE_MASK;
   DEFINSTR "FADD_D_RNE" (RTYPE_INSTR_VALUE 0x53 FP_RNE 1) RTYPE_MASK;
   DEFINSTR "FADD_D_RTZ" (RTYPE_INSTR_VALUE 0x53 FP_RTZ 1) RTYPE_MASK;
   DEFINSTR "FADD_D_RDN" (RTYPE_INSTR_VALUE 0x53 FP_RDN 1) RTYPE_MASK;
   DEFINSTR "FADD_D_RUP" (RTYPE_INSTR_VALUE 0x53 FP_RUP 1) RTYPE_MASK;
   DEFINSTR "FADD_D_RMM" (RTYPE_INSTR_VALUE 0x53 FP_RMM 1) RTYPE_MASK;
   DEFINSTR "FADD_D_DYN" (RTYPE_INSTR_VALUE 0x53 FP_DYN 1) RTYPE_MASK;
   DEFINSTR "FSUB_D_RNE" (RTYPE_INSTR_VALUE 0x53 FP_RNE 5) RTYPE_MASK;
   DEFINSTR "FSUB_D_RTZ" (RTYPE_INSTR_VALUE 0x53 FP_RTZ 5) RTYPE_MASK;
   DEFINSTR "FSUB_D_RDN" (RTYPE_INSTR_VALUE 0x53 FP_RDN 5) RTYPE_MASK;
   DEFINSTR "FSUB_D_RUP" (RTYPE_INSTR_VALUE 0x53 FP_RUP 5) RTYPE_MASK;
   DEFINSTR "FSUB_D_RMM" (RTYPE_INSTR_VALUE 0x53 FP_RMM 5) RTYPE_MASK;
   DEFINSTR "FSUB_D_DYN" (RTYPE_INSTR_VALUE 0x53 FP_DYN 5) RTYPE_MASK;
   DEFINSTR "FMUL_D_RNE" (RTYPE_INSTR_VALUE 0x53 FP_RNE 2) RTYPE_MASK;
   DEFINSTR "FMUL_D_RTZ" (RTYPE_INSTR_VALUE 0x53 FP_RTZ 2) RTYPE_MASK;
   DEFINSTR "FMUL_D_RDN" (RTYPE_INSTR_VALUE 0x53 FP_RDN 2) RTYPE_MASK;
   DEFINSTR "FMUL_D_RUP" (RTYPE_INSTR_VALUE 0x53 FP_RUP 2) RTYPE_MASK;
   DEFINSTR "FMUL_D_RMM" (RTYPE_INSTR_VALUE 0x53 FP_RMM 2) RTYPE_MASK;
   DEFINSTR "FMUL_D_DYN" (RTYPE_INSTR_VALUE 0x53 FP_DYN 2) RTYPE_MASK;
   DEFINSTR "FDIV_D_RNE" (RTYPE_INSTR_VALUE 0x53 FP_RNE 6) RTYPE_MASK;
   DEFINSTR "FDIV_D_RTZ" (RTYPE_INSTR_VALUE 0x53 FP_RTZ 6) RTYPE_MASK;
   DEFINSTR "FDIV_D_RDN" (RTYPE_INSTR_VALUE 0x53 FP_RDN 6) RTYPE_MASK;
   DEFINSTR "FDIV_D_RUP" (RTYPE_INSTR_VALUE 0x53 FP_RUP 6) RTYPE_MASK;
   DEFINSTR "FDIV_D_RMM" (RTYPE_INSTR_VALUE 0x53 FP_RMM 6) RTYPE_MASK;
   DEFINSTR "FDIV_D_DYN" (RTYPE_INSTR_VALUE 0x53 FP_DYN 6) RTYPE_MASK;
   DEFINSTR "FSQRT_D_RNE" (FTYPE_INSTR_VALUE 0x53 FP_RNE 7 45) FTYPE_MASK;
   DEFINSTR "FSQRT_D_RTZ" (FTYPE_INSTR_VALUE 0x53 FP_RTZ 7 45) FTYPE_MASK;
   DEFINSTR "FSQRT_D_RDN" (FTYPE_INSTR_VALUE 0x53 FP_RDN 7 45) FTYPE_MASK;
   DEFINSTR "FSQRT_D_RUP" (FTYPE_INSTR_VALUE 0x53 FP_RUP 7 45) FTYPE_MASK;
   DEFINSTR "FSQRT_D_RMM" (FTYPE_INSTR_VALUE 0x53 FP_RMM 7 45) FTYPE_MASK;
   DEFINSTR "FSQRT_D_DYN" (FTYPE_INSTR_VALUE 0x53 FP_DYN 7 45) FTYPE_MASK;
   DEFINSTR "FSGNJ_D" (RTYPE_INSTR_VALUE 0x53 0 17) RTYPE_MASK;
   DEFINSTR "FSGNJN_D" (RTYPE_INSTR_VALUE 0x53 1 17) RTYPE_MASK;
   DEFINSTR "FSGNJX_D" (RTYPE_INSTR_VALUE 0x53 2 17) RTYPE_MASK;
   DEFINSTR "FMIN_D" (RTYPE_INSTR_VALUE 0x53 0 21) RTYPE_MASK;
   DEFINSTR "FMAX_D" (RTYPE_INSTR_VALUE 0x53 1 21) RTYPE_MASK;
   DEFINSTR "FCVT_S_D_RNE" (FTYPE_INSTR_VALUE 0x53 FP_RNE 32 1) FTYPE_MASK;
   DEFINSTR "FCVT_S_D_RTZ" (FTYPE_INSTR_VALUE 0x53 FP_RTZ 32 1) FTYPE_MASK;
   DEFINSTR "FCVT_S_D_RDN" (FTYPE_INSTR_VALUE 0x53 FP_RDN 32 1) FTYPE_MASK;
   DEFINSTR "FCVT_S_D_RUP" (FTYPE_INSTR_VALUE 0x53 FP_RUP 32 1) FTYPE_MASK;
   DEFINSTR "FCVT_S_D_RMM" (FTYPE_INSTR_VALUE 0x53 FP_RMM 32 1) FTYPE_MASK;
   DEFINSTR "FCVT_S_D_DYN" (FTYPE_INSTR_VALUE 0x53 FP_DYN 32 1) FTYPE_MASK;
   DEFINSTR "FCVT_D_S_RNE" (FTYPE_INSTR_VALUE 0x53 FP_RNE 33 1) FTYPE_MASK;
   DEFINSTR "FCVT_D_S_RTZ" (FTYPE_INSTR_VALUE 0x53 FP_RTZ 33 1) FTYPE_MASK;
   DEFINSTR "FCVT_D_S_RDN" (FTYPE_INSTR_VALUE 0x53 FP_RDN 33 1) FTYPE_MASK;
   DEFINSTR "FCVT_D_S_RUP" (FTYPE_INSTR_VALUE 0x53 FP_RUP 33 1) FTYPE_MASK;
   DEFINSTR "FCVT_D_S_RMM" (FTYPE_INSTR_VALUE 0x53 FP_RMM 33 1) FTYPE_MASK;
   DEFINSTR "FCVT_D_S_DYN" (FTYPE_INSTR_VALUE 0x53 FP_DYN 33 1) FTYPE_MASK;
   DEFINSTR "FEQ_D" (RTYPE_INSTR_VALUE 0x53 2 81) RTYPE_MASK;
   DEFINSTR "FLE_D" (RTYPE_INSTR_VALUE 0x53 1 81) RTYPE_MASK;
   DEFINSTR "FLT_D" (RTYPE_INSTR_VALUE 0x53 0 81) RTYPE_MASK;
   DEFINSTR "FCLASS_D" (FTYPE_INSTR_VALUE 0x53 1 113 0) FTYPE_MASK;
   DEFINSTR "FCVT_W_D_RNE" (FTYPE_INSTR_VALUE 0x53 FP_RNE 97 0) FTYPE_MASK;
   DEFINSTR "FCVT_W_D_RTZ" (FTYPE_INSTR_VALUE 0x53 FP_RTZ 97 0) FTYPE_MASK;
   DEFINSTR "FCVT_W_D_RDN" (FTYPE_INSTR_VALUE 0x53 FP_RDN 97 0) FTYPE_MASK;
   DEFINSTR "FCVT_W_D_RUP" (FTYPE_INSTR_VALUE 0x53 FP_RUP 97 0) FTYPE_MASK;
   DEFINSTR "FCVT_W_D_RMM" (FTYPE_INSTR_VALUE 0x53 FP_RMM 97 0) FTYPE_MASK;
   DEFINSTR "FCVT_W_D_DYN" (FTYPE_INSTR_VALUE 0x53 FP_DYN 97 0) FTYPE_MASK;
   DEFINSTR "FCVT_WU_D_RNE" (FTYPE_INSTR_VALUE 0x53 FP_RNE 97 1) FTYPE_MASK;
   DEFINSTR "FCVT_WU_D_RTZ" (FTYPE_INSTR_VALUE 0x53 FP_RTZ 97 1) FTYPE_MASK;
   DEFINSTR "FCVT_WU_D_RDN" (FTYPE_INSTR_VALUE 0x53 FP_RDN 97 1) FTYPE_MASK;
   DEFINSTR "FCVT_WU_D_RUP" (FTYPE_INSTR_VALUE 0x53 FP_RUP 97 1) FTYPE_MASK;
   DEFINSTR "FCVT_WU_D_RMM" (FTYPE_INSTR_VALUE 0x53 FP_RMM 97 1) FTYPE_MASK;
   DEFINSTR "FCVT_WU_D_DYN" (FTYPE_INSTR_VALUE 0x53 FP_DYN 97 1) FTYPE_MASK;
   DEFINSTR "FCVT_D_W_RNE" (FTYPE_INSTR_VALUE 0x53 FP_RNE 105 0) FTYPE_MASK;
   DEFINSTR "FCVT_D_W_RTZ" (FTYPE_INSTR_VALUE 0x53 FP_RTZ 105 0) FTYPE_MASK;
   DEFINSTR "FCVT_D_W_RDN" (FTYPE_INSTR_VALUE 0x53 FP_RDN 105 0) FTYPE_MASK;
   DEFINSTR "FCVT_D_W_RUP" (FTYPE_INSTR_VALUE 0x53 FP_RUP 105 0) FTYPE_MASK;
   DEFINSTR "FCVT_D_W_RMM" (FTYPE_INSTR_VALUE 0x53 FP_RMM 105 0) FTYPE_MASK;
   DEFINSTR "FCVT_D_W_DYN" (FTYPE_INSTR_VALUE 0x53 FP_DYN 105 0) FTYPE_MASK;
   DEFINSTR "FCVT_D_WU_RNE" (FTYPE_INSTR_VALUE 0x53 FP_RNE 105 1) FTYPE_MASK;
   DEFINSTR "FCVT_D_WU_RTZ" (FTYPE_INSTR_VALUE 0x53 FP_RTZ 105 1) FTYPE_MASK;
   DEFINSTR "FCVT_D_WU_RDN" (FTYPE_INSTR_VALUE 0x53 FP_RDN 105 1) FTYPE_MASK;
   DEFINSTR "FCVT_D_WU_RUP" (FTYPE_INSTR_VALUE 0x53 FP_RUP 105 1) FTYPE_MASK;
   DEFINSTR "FCVT_D_WU_RMM" (FTYPE_INSTR_VALUE 0x53 FP_RMM 105 1) FTYPE_MASK;
   DEFINSTR "FCVT_D_WU_DYN" (FTYPE_INSTR_VALUE 0x53 FP_DYN 105 1) FTYPE_MASK].

(** src/pando-drv/interpreter/InstructionTable.h:616-646 [RV64D] *)
Definition RV64D : list entry := [
   DEFINSTR "FCVT_L_D_RNE" (FTYPE_INSTR_VALUE 0x53 FP_RNE 97 2) FTYPE_MASK;
   DEFINSTR "FCVT_L_D_RTZ" (FTYPE_INSTR_VALUE 0x53 FP_RTZ 97 2) FTYPE_MASK;
   DEFINSTR "FCVT_L_D_RDN" (FTYPE_INSTR_VALUE 0x53 FP_RDN 97 2) FTYPE_MASK;
   DEFINSTR "FCVT_L_D_RUP" (FTYPE_INSTR_VALUE 0x53 FP_RUP 97 2) FTYPE_MASK;
   DEFINSTR "FCVT_L_D_RMM" (FTYPE_INSTR_VALUE 0x53 FP_RMM 97 2) FTYPE_MASK;
   DEFINSTR "FCVT_L_D_DYN" (FTYPE_INSTR_VALUE 0x53 FP_DYN 97 2) FTYPE_MASK;
   DEFINSTR "FCVT_LU_D_RNE" (FTYPE_INSTR_VALUE 0x53 FP_RNE 97 3) FTYPE_MASK;
   DEFINSTR "FCVT_LU_D_RTZ" (FTYPE_INSTR_VALUE 0x53 FP_RTZ 97 3) FTYPE_MASK;
   DEFINSTR "FCVT_LU_D_RDN" (FTYPE_INSTR_VALUE 0x53 FP_RDN 97 3) FTYPE_MASK;
   DEFINSTR "FCVT_LU_D_RUP" (FTYPE_INSTR_VALUE 0x53 FP_RUP 97 3) FTYPE_MASK;
   DEFINSTR "FCVT_LU_D_RMM" (FTYPE_INSTR_VALUE 0x53 FP_RMM 97 3) FTYPE_MASK;
   DEFINSTR "FCVT_LU_D_DYN" (FTYPE_INSTR_VALUE 0x53 FP_DYN 97 3) FTYPE_MASK;
   DEFINSTR "FMV_X_D" (FTYPE_INSTR_VALUE 0x53 0 113 0) FTYPE_MASK;
   DEFINSTR "FCVT_D_L_RNE" (FTYPE_INSTR_VALUE 0x53 FP_RNE 105 2) FTYPE_MASK;
   DEFINSTR "FCVT_D_L_RTZ" (FTYPE_INSTR_VALUE 0x53 FP_RTZ 105 2) FTYPE_MASK;
   DEFINSTR "FCVT_D_L_RDN" (FTYPE_INSTR_VALUE 0x53 FP_RDN 105 2) FTYPE_MASK;
   DEFINSTR "FCVT_D_L_RUP" (FTYPE_INSTR_VALUE 0x53 FP_RUP 105 2) FTYPE_MASK;
   DEFINSTR "FCVT_D_L_RMM" (FTYPE_INSTR_VALUE 0x53 FP_RMM 105 2) FTYPE_MASK;
   DEFINSTR "FCVT_D_L_DYN" (FTYPE_INSTR_VALUE 0x53 FP_DYN 105 2) FTYPE_MASK;
   DEFINSTR "FCVT_D_LU_RNE" (FTYPE_INSTR_VALUE 0x53 FP_RNE 105 3) FTYPE_MASK;
   DEFINSTR "FCVT_D_LU_RTZ" (FTYPE_INSTR_VALUE 0x53 FP_RTZ 105 3) FTYPE_MASK;
   DEFINSTR "FCVT_D_LU_RDN" (FTYPE_INSTR_VALUE 0x53 FP_RDN 105 3) FTYPE_MASK;
   DEFINSTR "FCVT_D_LU_RUP" (FTYPE_INSTR_VALUE 0x53 FP_RUP 105 3) FTYPE_MASK;
   DEFINSTR "FCVT_D_LU_RMM" (FTYPE_INSTR_VALUE 0x53 FP_RMM 105 3) FTYPE_MASK;
   DEFINSTR "FCVT_D_LU_DYN" (FTYPE_INSTR_VALUE 0x53 FP_DYN 105 3) FTYPE_MASK;
   DEFINSTR "FMV_D_X" (FTYPE_INSTR_VALUE 0x53 0 121 0) FTYPE_MASK].

(** The whole table, in its order. *)
Definition InstructionTable : list entry :=
  RV32I ++ RV64I ++ RV32M ++ RV64M ++ RV32A ++ RV64A ++ RV32F ++ RV64F ++ RV32D ++ RV64D.

(** [RISCVDecoder::decode]'s chain of tests. *)
Fixpoint decodeIn (table : list entry) (instruction : Z) : outcome string :=
  match table with
  | [] => Failed (Aborted "Unknown instruction")
  | (mnemonic, value_under_mask, mask) :: table =>
      if Z.land instruction mask =? u32 value_under_mask then Done mnemonic else decodeIn table instruction
  end.

(** src/pando-drv/interpreter/RISCVDecoder.hpp:13-23 [RISCVDecoder::decode] *)
Definition decode (instruction : Z) : outcome string := decodeIn InstructionTable instruction.

(** ** The manual's instructions *)

Definition opcode (w : Z) : Z := Z.land w 0x7f.
Definition funct3 (w : Z) : Z := Z.land (shrU w 12) 0x7.
Definition funct7 (w : Z) : Z := Z.land (shrU w 25) 0x7f.
Definition funct6 (w : Z) : Z := Z.land (shrU w 26) 0x3f.
Definition funct2 (w : Z) : Z := Z.land (shrU w 25) 0x3.
Definition funct12 (w : Z) : Z := Z.land (shrU w 20) 0xfff.
Definition rs2field (w : Z) : Z := Z.land (shrU w 20) 0x1f.

(** The fields that identify an instruction. *)
Inductive shape :=
| Op (op : Z)                  (* opcode *)
| F3 (op f3 : Z)               (* opcode, funct3 *)
| F7 (op f3 f7 : Z)            (* opcode, funct3, funct7 *)
| F6 (op f3 f6 : Z)            (* opcode, funct3, the six bits above a 6-bit shift amount *)
| F2 (op f3 f2 : Z)            (* opcode, rounding mode, format of a fused operation *)
| F12 (op f3 f12 : Z)          (* opcode, funct3, funct12 *)
| FR (op f3 f7 r2 : Z)         (* opcode, rounding mode, funct7, rs2 field *)
| O7 (op f7 : Z)               (* opcode, funct7, any rounding mode *)
| F7r (op f7 r2 : Z).          (* opcode, funct7, rs2 field, any rounding mode *)

Definition matches (s : shape) (w : Z) : Prop :=
  match s with
  | Op op => opcode w = op
  | F3 op f3 => opcode w = op /\ funct3 w = f3
  | F7 op f3 f7 => opcode w = op /\ funct3 w = f3 /\ funct7 w = f7
  | F6 op f3 f6 => opcode w = op /\ funct3 w = f3 /\ funct6 w = f6
  | F2 op f3 f2 => opcode w = op /\ funct3 w = f3 /\ funct2 w = f2
  | F12 op f3 f12 => opcode w = op /\ funct3 w = f3 /\ funct12 w = f12
  | FR op f3 f7 r2 => opcode w = op /\ funct3 w = f3 /\ funct7 w = f7 /\ rs2field w = r2
  | O7 op f7 => opcode w = op /\ funct7 w = f7
  | F7r op f7 r2 => opcode w = op /\ funct7 w = f7 /\ rs2field w = r2
  end.

(** An instruction that rounds, in each of the five static modes and the dynamic one; funct3 5 and 6 are reserved. *)
Definition rounding (m : string) (s : Z -> shape) : list (string * shape) :=
  map (fun '(mode, rm) => ((m ++ "_" ++ mode)%string, s rm)) FP_modes.

(** The manual's instructions: RV64I with Zicsr and Zifencei and the machine's MRET, then M, A, F and D. *)
Definition isa_IMA : list (string * shape) :=
  [("LUI", Op 0x37);
   ("AUIPC", Op 0x17);
   ("JAL", Op 0x6f);
   ("JALR", F3 0x67 0);
   ("BEQ", F3 0x63 0);
   ("BNE", F3 0x63 1);
   ("BLT", F3 0x63 4);
   ("BGE", F3 0x63 5);
   ("BLTU", F3 0x63 6);
   ("BGEU", F3 0x63 7);
   ("LB", F3 0x03 0);
   ("LH", F3 0x03 1);
   ("LW", F3 0x03 2);
   ("LD", F3 0x03 3);
   ("LBU", F3 0x03 4);
   ("LHU", F3 0x03 5);
   ("LWU", F3 0x03 6);
   ("SB", F3 0x23 0);
   ("SH", F3 0x23 1);
   ("SW", F3 0x23 2);
   ("SD", F3 0x23 3);
   ("ADDI", F3 0x13 0);
   ("SLTI", F3 0x13 2);
   ("SLTIU", F3 0x13 3);
   ("XORI", F3 0x13 4);
   ("ORI", F3 0x13 6);
   ("ANDI", F3 0x13 7);
   ("SLLI", F6 0x13 1 0);
   ("SRLI", F6 0x13 5 0);
   ("SRAI", F6 0x13 5 16);
   ("ADD", F7 0x33 0 0);
   ("SUB", F7 0x33 0 32);
   ("SLL", F7 0x33 1 0);
   ("SLT", F7 0x33 2 0);
   ("SLTU", F7 0x33 3 0);
   ("XOR", F7 0x33 4 0);
   ("SRL", F7 0x33 5 0);
   ("SRA", F7 0x33 5 32);
   ("OR", F7 0x33 6 0);
   ("AND", F7 0x33 7 0);
   ("ADDIW", F3 0x1b 0);
   ("SLLIW", F7 0x1b 1 0);
   ("SRLIW", F7 0x1b 5 0);
   ("SRAIW", F7 0x1b 5 32);
   ("ADDW", F7 0x3b 0 0);
   ("SUBW", F7 0x3b 0 32);
   ("SLLW", F7 0x3b 1 0);
   ("SRLW", F7 0x3b 5 0);
   ("SRAW", F7 0x3b 5 32);
   ("FENCE", F3 0x0f 0);
   ("FENCE_I", F3 0x0f 1);
   ("ECALL", F12 0x73 0 0);
   ("EBREAK", F12 0x73 0 1);
   ("MRET", F12 0x73 0 0x302);
   ("CSRRW", F3 0x73 1);
   ("CSRRS", F3 0x73 2);
   ("CSRRC", F3 0x73 3);
   ("CSRRWI", F3 0x73 5);
   ("CSRRSI", F3 0x73 6);
   ("CSRRCI", F3 0x73 7);
   ("MUL", F7 0x33 0 1);
   ("MULH", F7 0x33 1 1);
   ("MULHSU", F7 0x33 2 1);
   ("MULHU", F7 0x33 3 1);
   ("DIV", F7 0x33 4 1);
   ("DIVU", F7 0x33 5 1);
   ("REM", F7 0x33 6 1);
   ("REMU", F7 0x33 7 1);
   ("MULW", F7 0x3b 0 1);
   ("DIVW", F7 0x3b 4 1);
   ("DIVUW", F7 0x3b 5 1);
   ("REMW", F7 0x3b 6 1);
   ("REMUW", F7 0x3b 7 1);
   ("LRW", F7 0x2f 2 8);
   ("LRW_RL", F7 0x2f 2 9);
   ("LRW_AQ", F7 0x2f 2 10);
   ("LRW_RL_AQ", F7 0x2f 2 11);
   ("SCW", F7 0x2f 2 12);
   ("SCW_RL", F7 0x2f 2 13);
   ("SCW_AQ", F7 0x2f 2 14);
   ("SCW_RL_AQ", F7 0x2f 2 15);
   ("AMOSWAPW", F7 0x2f 2 4);
   ("AMOSWAPW_RL", F7 0x2f 2 5);
   ("AMOSWAPW_AQ", F7 0x2f 2 6);
   ("AMOSWAPW_RL_AQ", F7 0x2f 2 7);
   ("AMOADDW", F7 0x2f 2 0);
   ("AMOADDW_RL", F7 0x2f 2 1);
   ("AMOADDW_AQ", F7 0x2f 2 2);
   ("AMOADDW_RL_AQ", F7 0x2f 2 3);
   ("AMOXORW", F7 0x2f 2 16);
   ("AMOXORW_RL", F7 0x2f 2 17);
   ("AMOXORW_AQ", F7 0x2f 2 18);
   ("AMOXORW_RL_AQ", F7 0x2f 2 19);
   ("AMOANDW", F7 0x2f 2 48);
   ("AMOANDW_RL", F7 0x2f 2 49);
   ("AMOANDW_AQ", F7 0x2f 2 50);
   ("AMOANDW_RL_AQ", F7 0x2f 2 51);
   ("AMOORW", F7 0x2f 2 32);
   ("AMOORW_RL", F7 0x2f 2 33);
   ("AMOORW_AQ", F7 0x2f 2 34);
   ("AMOORW_RL_AQ", F7 0x2f 2 35);
   ("AMOMINW", F7 0x2f 2 64);
   ("AMOMINW_RL", F7 0x2f 2 65);
   ("AMOMINW_AQ", F7 0x2f 2 66);
   ("AMOMINW_RL_AQ", F7 0x2f 2 67);
   ("AMOMAXW", F7 0x2f 2 80);
   ("AMOMAXW_RL", F7 0x2f 2 81);
   ("AMOMAXW_AQ", F7 0x2f 2 82);
   ("AMOMAXW_RL_AQ", F7 0x2f 2 83);
   ("AMOMINUW", F7 0x2f 2 96);
   ("AMOMINUW_RL", F7 0x2f 2 97);
   ("AMOMINUW_AQ", F7 0x2f 2 98);
   ("AMOMINUW_RL_AQ", F7 0x2f 2 99);
   ("AMOMAXUW", F7 0x2f 2 112);
   ("AMOMAXUW_RL", F7 0x2f 2 113);
   ("AMOMAXUW_AQ", F7 0x2f 2 114);
   ("AMOMAXUW_RL_AQ", F7 0x2f 2 115);
   ("LRD", F7 0x2f 3 8);
   ("LRD_RL", F7 0x2f 3 9);
   ("LRD_AQ", F7 0x2f 3 10);
   ("LRD_RL_AQ", F7 0x2f 3 11);
   ("SCD", F7 0x2f 3 12);
   ("SCD_RL", F7 0x2f 3 13);
   ("SCD_AQ", F7 0x2f 3 14);
   ("SCD_RL_AQ", F7 0x2f 3 15);
   ("AMOSWAPD", F7 0x2f 3 4);
   ("AMOSWAPD_RL", F7 0x2f 3 5);
   ("AMOSWAPD_AQ", F7 0x2f 3 6);
   ("AMOSWAPD_RL_AQ", F7 0x2f 3 7);
   ("AMOADDD", F7 0x2f 3 0);
   ("AMOADDD_RL", F7 0x2f 3 1);
   ("AMOADDD_AQ", F7 0x2f 3 2);
   ("AMOADDD_RL_AQ", F7 0x2f 3 3);
   ("AMOXORD", F7 0x2f 3 16);
   ("AMOXORD_RL", F7 0x2f 3 17);
   ("AMOXORD_AQ", F7 0x2f 3 18);
   ("AMOXORD_RL_AQ", F7 0x2f 3 19);
   ("AMOANDD", F7 0x2f 3 48);
   ("AMOANDD_RL", F7 0x2f 3 49);
   ("AMOANDD_AQ", F7 0x2f 3 50);
   ("AMOANDD_RL_AQ", F7 0x2f 3 51);
   ("AMOORD", F7 0x2f 3 32);
   ("AMOORD_RL", F7 0x2f 3 33);
   ("AMOORD_AQ", F7 0x2f 3 34);
   ("AMOORD_RL_AQ", F7 0x2f 3 35);
   ("AMOMIND", F7 0x2f 3 64);
   ("AMOMIND_RL", F7 0x2f 3 65);
   ("AMOMIND_AQ", F7 0x2f 3 66);
   ("AMOMIND_RL_AQ", F7 0x2f 3 67);
   ("AMOMAXD", F7 0x2f 3 80);
   ("AMOMAXD_RL", F7 0x2f 3 81);
   ("AMOMAXD_AQ", F7 0x2f 3 82);
   ("AMOMAXD_RL_AQ", F7 0x2f 3 83);
   ("AMOMINUD", F7 0x2f 3 96);
   ("AMOMINUD_RL", F7 0x2f 3 97);
   ("AMOMINUD_AQ", F7 0x2f 3 98);
   ("AMOMINUD_RL_AQ", F7 0x2f 3 99);
   ("AMOMAXUD", F7 0x2f 3 112);
   ("AMOMAXUD_RL", F7 0x2f 3 113);
   ("AMOMAXUD_AQ", F7 0x2f 3 114);
   ("AMOMAXUD_RL_AQ", F7 0x2f 3 115)].

Definition isa_F : list (string * shape) :=
  [("FLW", F3 0x07 2); ("FSW", F3 0x27 2)] ++
  rounding "FMADD_S" (fun rm => F2 0x43 rm 0) ++ rounding "FMSUB_S" (fun rm => F2 0x47 rm 0) ++
  rounding "FNMSUB_S" (fun rm => F2 0x4b rm 0) ++ rounding "FNMADD_S" (fun rm => F2 0x4f rm 0) ++
  rounding "FADD_S" (fun rm => F7 0x53 rm 0) ++ rounding "FSUB_S" (fun rm => F7 0x53 rm 4) ++
  rounding "FMUL_S" (fun rm => F7 0x53 rm 8) ++ rounding "FDIV_S" (fun rm => F7 0x53 rm 12) ++
  rounding "FSQRT_S" (fun rm => FR 0x53 rm 44 0) ++
  [("FSGNJ_S", F7 0x53 0 16); ("FSGNJN_S", F7 0x53 1 16); ("FSGNJX_S", F7 0x53 2 16);
   ("FMIN_S", F7 0x53 0 20); ("FMAX_S", F7 0x53 1 20);
   ("FLE_S", F7 0x53 0 80); ("FLT_S", F7 0x53 1 80); ("FEQ_S", F7 0x53 2 80);
   ("FMV_X_W", FR 0x53 0 112 0); ("FCLASS_S", FR 0x53 1 112 0); ("FMV_W_X", FR 0x53 0 120 0)] ++
  rounding "FCVT_W_S" (fun rm => FR 0x53 rm 96 0) ++ rounding "FCVT_WU_S" (fun rm => FR 0x53 rm 96 1) ++
  rounding "FCVT_L_S" (fun rm => FR 0x53 rm 96 2) ++ rounding "FCVT_LU_S" (fun rm => FR 0x53 rm 96 3) ++
  rounding "FCVT_S_W" (fun rm => FR 0x53 rm 104 0) ++ rounding "FCVT_S_WU" (fun rm => FR 0x53 rm 104 1) ++
  rounding "FCVT_S_L" (fun rm => FR 0x53 rm 104 2) ++ rounding "FCVT_S_LU" (fun rm => FR 0x53 rm 104 3).

Definition isa_D : list (string * shape) :=
  [("FLD", F3 0x07 3); ("FSD", F3 0x27 3)] ++
  rounding "FMADD_D" (fun rm => F2 0x43 rm 1) ++ rounding "FMSUB_D" (fun rm => F2 0x47 rm 1) ++
  rounding "FNMSUB_D" (fun rm => F2 0x4b rm 1) ++ rounding "FNMADD_D" (fun rm => F2 0x4f rm 1) ++
  rounding "FADD_D" (fun rm => F7 0x53 rm 1) ++ rounding "FSUB_D" (fun rm => F7 0x53 rm 5) ++
  rounding "FMUL_D" (fun rm => F7 0x53 rm 9) ++ rounding "FDIV_D" (fun rm => F7 0x53 rm 13) ++
  rounding "FSQRT_D" (fun rm => FR 0x53 rm 45 0) ++
  [("FSGNJ_D", F7 0x53 0 17); ("FSGNJN_D", F7 0x53 1 17); ("FSGNJX_D", F7 0x53 2 17);
   ("FMIN_D", F7 0x53 0 21); ("FMAX_D", F7 0x53 1 21);
   ("FLE_D", F7 0x53 0 81); ("FLT_D", F7 0x53 1 81); ("FEQ_D", F7 0x53 2 81);
   ("FMV_X_D", FR 0x53 0 113 0); ("FCLASS_D", FR 0x53 1 113 0); ("FMV_D_X", FR 0x53 0 121 0)] ++
  rounding "FCVT_S_D" (fun rm => FR 0x53 rm 32 1) ++ rounding "FCVT_D_S" (fun rm => FR 0x53 rm 33 0) ++
  rounding "FCVT_W_D" (fun rm => FR 0x53 rm 97 0) ++ rounding "FCVT_WU_D" (fun rm => FR 0x53 rm 97 1) ++
  rounding "FCVT_L_D" (fun rm => FR 0x53 rm 97 2) ++ rounding "FCVT_LU_D" (fun rm => FR 0x53 rm 97 3) ++
  rounding "FCVT_D_W" (fun rm => FR 0x53 rm 105 0) ++ rounding "FCVT_D_WU" (fun rm => FR 0x53 rm 105 1) ++
  rounding "FCVT_D_L" (fun rm => FR 0x53 rm 105 2) ++ rounding "FCVT_D_LU" (fun rm => FR 0x53 rm 105 3).

Definition isa : list (string * shape) := isa_IMA ++ isa_F ++ isa_D.

(** The instructions the decoder gets wrong, and what becomes of them. *)
Definition misread : list (string * outcome string) :=
  [("FLT_S", Done "FLE_S"); ("FLE_S", Done "FLT_S"); ("FLT_D", Done "FLE_D"); ("FLE_D", Done "FLT_D")] ++
  concat (map (fun m => map (fun '(mode, _) => ((m ++ "_" ++ mode)%string, Failed (Aborted "Unknown instruction"))) FP_modes)
    ["FMUL_D"; "FDIV_D"; "FSQRT_D"; "FCVT_D_S"]).
Definition outcome_of (m : string) : outcome string :=
  match find (fun '(m', _) => String.eqb m m') misread with Some (_, r) => r | None => Done m end.

(** The bits a shape fixes, and their values. *)
Definition fixed (s : shape) : Z * Z :=
  let at_ (f lo : Z) := Z.shiftl f lo in
  match s with
  | Op op => (0x7f, op)
  | F3 op f3 => (Z.lor 0x7f (at_ 0x7 12), Z.lor op (at_ f3 12))
  | F7 op f3 f7 => (Z.lor (Z.lor 0x7f (at_ 0x7 12)) (at_ 0x7f 25), Z.lor (Z.lor op (at_ f3 12)) (at_ f7 25))
  | F6 op f3 f6 => (Z.lor (Z.lor 0x7f (at_ 0x7 12)) (at_ 0x3f 26), Z.lor (Z.lor op (at_ f3 12)) (at_ f6 26))
  | F2 op f3 f2 => (Z.lor (Z.lor 0x7f (at_ 0x7 12)) (at_ 0x3 25), Z.lor (Z.lor op (at_ f3 12)) (at_ f2 25))
  | F12 op f3 f12 => (Z.lor (Z.lor 0x7f (at_ 0x7 12)) (at_ 0xfff 20), Z.lor (Z.lor op (at_ f3 12)) (at_ f12 20))
  | FR op f3 f7 r2 => (Z.lor (Z.lor (Z.lor 0x7f (at_ 0x7 12)) (at_ 0x7f 25)) (at_ 0x1f 20), Z.lor (Z.lor (Z.lor op (at_ f3 12)) (at_ f7 25)) (at_ r2 20))
  | O7 op f7 => (Z.lor 0x7f (at_ 0x7f 25), Z.lor op (at_ f7 25))
  | F7r op f7 r2 => (Z.lor (Z.lor 0x7f (at_ 0x7f 25)) (at_ 0x1f 20), Z.lor (Z.lor op (at_ f7 25)) (at_ r2 20))
  end.

Lemma land_shifted w m lo : 0 <= lo -> Z.land w (Z.shiftl m lo) = Z.shiftl (Z.land (shrU w lo) m) lo.
Proof.
  intros Hlo. unfold shrU. rewrite Z.shiftl_land. apply Z.bits_inj'. intros k Hk.
  rewrite !Z.land_spec, !Z.shiftl_spec by lia. destruct (Z.lt_ge_cases k lo).
  - by rewrite !(Z.testbit_neg_r _ (k - lo)), !andb_false_r by lia.
  - rewrite Z.shiftr_spec by lia. by replace (k - lo + lo) with k by lia.
Qed.

Lemma matches_fixed s w : matches s w -> Z.land w (fst (fixed s)) = snd (fixed s).
Proof.
  destruct s; cbn [matches fixed fst snd]; unfold opcode, funct3, funct7, funct6, funct2, funct12, rs2field; intros H;
    repeat match goal with H : _ /\ _ |- _ => destruct H end;
    rewrite ?Z.land_lor_distr_r, ?land_shifted by lia; congruence.
Qed.

(** What the table does with every word that has value [V] under the mask [M]: the first entry that surely
    matches, when every entry before it surely does not; [Failed] when no entry can match; [None] when the
    fixed bits do not settle it. *)
Fixpoint settle (table : list entry) (M V : Z) : option (outcome string) :=
  match table with
  | [] => Some (Failed (Aborted "Unknown instruction"))
  | (mnemonic, value_under_mask, mask) :: table =>
      let v := u32 value_under_mask in
      let common := Z.land M mask in
      if negb (Z.land V common =? Z.land v common) then settle table M V
      else if (common =? mask) && (Z.land V mask =? v) then Some (Done mnemonic)
      else if negb (Z.land v mask =? v) then settle table M V else None
  end.

Lemma settle_decode table M V w r : Z.land w M = V -> settle table M V = Some r -> decodeIn table w = r.
Proof.
  intros HV. induction table as [|[[mn value] mask] table IH]; cbn; [congruence|].
  set (v := u32 value). set (common := Z.land M mask).
  assert (Hc : Z.land V common = Z.land w common).
  { subst V common. apply Z.bits_inj'. intros k Hk. rewrite !Z.land_spec.
    by destruct (Z.testbit w k), (Z.testbit M k), (Z.testbit mask k). }
  destruct (Z.eqb_spec (Z.land w mask) v) as [E|E].
  - assert (Hv : Z.land V common = Z.land v common).
    { rewrite Hc, <- E. subst common. apply Z.bits_inj'. intros k Hk. rewrite !Z.land_spec.
      by destruct (Z.testbit w k), (Z.testbit M k), (Z.testbit mask k). }
    rewrite (proj2 (Z.eqb_eq _ _) Hv). cbn [negb].
    destruct ((common =? mask) && (Z.land V mask =? v)); [congruence|].
    assert (Z.land v mask = v) as ->.
    { rewrite <- E, <- Z.land_assoc, Z.land_diag. done. }
    rewrite Z.eqb_refl. done.
  - destruct (negb _); [done|]. destruct ((common =? mask) && (Z.land V mask =? v)) eqn:Es; [|by destruct (negb _)].
    exfalso. apply E. apply andb_true_iff in Es as [E1 E2]. apply Z.eqb_eq in E1, E2.
    rewrite E1 in Hc. congruence.
Qed.

Definition settles (r : outcome string) (o : option (outcome string)) : bool :=
  match o with Some r' => bool_decide (r = r') | None => false end.

Lemma settles_spec r o : settles r o = true -> o = Some r.
Proof. destruct o as [r'|]; cbn; try discriminate. intros ->%bool_decide_eq_true. done. Qed.

Section Sound.
(* The table is kept abstract, so that no conversion unfolds it. *)
Context (table : list entry).

Lemma settles_decode r s w : settles r (settle table (fst (fixed s)) (snd (fixed s))) = true ->
  matches s w -> decodeIn table w = r.
Proof. intros A Hm. eapply settle_decode; [by apply matches_fixed|]. by apply settles_spec. Qed.

Lemma all_settle_decode (l : list (string * shape)) m s w :
  forallb (fun '(m, s) => settles (outcome_of m) (settle table (fst (fixed s)) (snd (fixed s)))) l = true ->
  (m, s) ∈ l -> matches s w -> decodeIn table w = outcome_of m.
Proof.
  intros A Hin. apply settles_decode.
  exact (proj1 (forallb_forall _ _) A (m, s) (proj1 (list_elem_of_In _ _) Hin)).
Qed.
End Sound.

(** C31: the decoder against the manual.  For every instruction of the manual's RV64IMAFD with Zicsr and Zifencei, in every rounding mode, and every
    32-bit word with its opcode and function fields, whatever the registers and immediates, [decode] returns the instruction - but for those of
    [misread]: FLT is taken for FLE and FLE for FLT, in both formats, and FMUL.D, FDIV.D, FSQRT.D and FCVT.D.S stop the simulator as unknown. *)
Theorem decode_isa m s w : (m, s) ∈ isa -> matches s w -> decode w = outcome_of m.
Proof. apply (all_settle_decode InstructionTable). vm_compute. reflexivity. Qed.

Lemma decode_isa_witness : decode (Instruction.encodeI 0x13 5 0 6 (-8)) = Done "ADDI" /\ decode (Instruction.encodeR 0x53 10 1 11 12 80) = Done "FLE_S".
Proof.
  split.
  - apply (decode_isa "ADDI" (F3 0x13 0)); [apply (list_elem_of_lookup_2 isa 21); reflexivity | vm_compute; intuition congruence].
  - apply (decode_isa "FLT_S" (F7 0x53 1 80)); [apply (list_elem_of_lookup_2 isa 223); reflexivity | vm_compute; intuition congruence].
Defined.

(** Where the table departs from the manual.  Every FLT word (funct3 1) decodes as FLE and every FLE
    word (funct3 0) as FLT, in both formats; and every FMUL.D, FDIV.D, FSQRT.D and FCVT.D.S word, whatever
    its rounding mode (funct3) and registers, stops the simulator as an unknown instruction. *)
Theorem decode_departures w :
  (matches (F7 0x53 1 80) w -> decode w = Done "FLE_S") /\ (matches (F7 0x53 0 80) w -> decode w = Done "FLT_S") /\
  (matches (F7 0x53 1 81) w -> decode w = Done "FLE_D") /\ (matches (F7 0x53 0 81) w -> decode w = Done "FLT_D") /\
  (matches (O7 0x53 9) w \/ matches (O7 0x53 13) w \/ matches (F7r 0x53 45 0) w \/ matches (F7r 0x53 33 0) w ->
     decode w = Failed (Aborted "Unknown instruction")).
Proof.
  split_and!.
  1-4: apply (settles_decode InstructionTable); vm_compute; reflexivity.
  intros [H|[H|[H|H]]]; revert H; apply (settles_decode InstructionTable); vm_compute; reflexivity.
Qed.

(** The word of [flt.s a0, fa1, fa2]. *)
Lemma decode_departures_witness : decode (Instruction.encodeR 0x53 10 1 11 12 80) = Done "FLE_S".
Proof. apply (decode_departures (Instruction.encodeR 0x53 10 1 11 12 80)). vm_compute. intuition congruence. Defined.

(** ** The order of the table does not matter *)

Definition hits (e : entry) (w : Z) : Prop := let '(_, v, mask) := e in Z.land w mask = u32 v.
Definition compatible (e e' : entry) : bool :=
  let '(_, v, mask) := e in let '(_, v', mask') := e' in
  Z.land (u32 v) (Z.land mask mask') =? Z.land (u32 v') (Z.land mask mask').

Fixpoint exclusive (table : list entry) : bool :=
  match table with
  | [] => true
  | e :: table => forallb (fun e' => negb (compatible e e')) table && exclusive table
  end.

Lemma hits_compatible e e' w : hits e w -> hits e' w -> compatible e e' = true.
Proof.
  destruct e as [[m v] mask], e' as [[m' v'] mask']. cbn. intros <- <-. apply Z.eqb_eq.
  apply Z.bits_inj'. intros k Hk. rewrite !Z.land_spec.
  by destruct (Z.testbit w k), (Z.testbit mask k), (Z.testbit mask' k).
Qed.

Lemma decodeIn_hits table w m : exclusive table = true ->
  (decodeIn table w = Done m <-> exists v mask, (m, v, mask) ∈ table /\ hits (m, v, mask) w).
Proof.
  induction table as [|[[n v] mask] table IH]; cbn [exclusive decodeIn].
  { split; [discriminate|]. intros (? & ? & []%not_elem_of_nil & _). }
  intros [X Xs]%andb_true_iff. rewrite forallb_forall in X.
  destruct (Z.eqb_spec (Z.land w mask) (u32 v)) as [E|E].
  - split.
    + intros [= ->]. exists v, mask. split; [by left|done].
    + intros (v' & mask' & [[= -> -> ->]|Hin]%elem_of_cons & Hh); [done|].
      specialize (X (m, v', mask') (proj1 (list_elem_of_In _ _) Hin)).
      rewrite (hits_compatible (n, v, mask) (m, v', mask') w) in X by done. done.
  - rewrite IH by done. split; intros (v' & mask' & Hin & Hh); exists v', mask'.
    + split; [by right|done].
    + apply elem_of_cons in Hin as [[= -> -> ->]|Hin]; [by destruct E|by split].
Qed.

(** The table is unambiguous: a word decodes to an instruction exactly when it has the value of one of the
    instruction's entries under its mask, wherever in the table the entry stands. *)
Theorem decode_iff w m :
  decode w = Done m <-> exists v mask, (m, v, mask) ∈ InstructionTable /\ Z.land w mask = u32 v.
Proof. apply (decodeIn_hits InstructionTable). vm_compute. reflexivity. Qed.
End Decoder.
