(* ===== verification/RiscvICache.v ===== *)
(** * The instruction cache of the RISC-V interpreter

    [pando-drv/interpreter/ICacheBacking.hpp]: instruction words are read out of the executable program
    segments of an ELF file.  The file is its list of bytes; the positions of the ELF64 header fields are those
    of [elf.h].  A read outside the file has no meaning; an address in no segment stops the program. *)

From stdpp Require Import sorting.
From S2P Require Import Prelude.
#[local] Open Scope Z_scope.

Module ICache.

(** [*(T* )(data_ + at_)] for a [T] of [n] bytes. *)
Definition peek (data : list Z) (n : nat) (at_ : Z) : outcome Z :=
  let! _ := guard_or ((0 <=? at_) && (at_ + Z.of_nat n <=? Z.of_nat (length data))) (Undefined "outside the file") in
  Done (unbytes (take n (drop (Z.to_nat at_) data))).

(** The fields of [Elf64_Phdr] the cache uses. *)
Record Elf64_Phdr := mkPhdr { p_type : Z; p_flags : Z; p_offset : Z; p_vaddr : Z; p_memsz : Z }.
Definition PT_LOAD : Z := 1.
Definition PF_X : Z := 1.

(** src/pando-drv/interpreter/ICacheBacking.hpp:267-270 [ICacheBacking] *)
Record ICacheBacking := mkICache { data_ : list Z; text_phdrs_ : list Elf64_Phdr }.

(** The header fields: [e_entry], [e_phoff], [e_phentsize], [e_phnum]. *)
Definition e_entry (data : list Z) : outcome Z := peek data 8 24.
Definition e_phoff (data : list Z) : outcome Z := peek data 8 32.
Definition e_phentsize (data : list Z) : outcome Z := peek data 2 54.
Definition e_phnum (data : list Z) : outcome Z := peek data 2 56.

(** src/pando-drv/interpreter/ICacheBacking.hpp:80-85 [phdr]: [None] is the null pointer *)
Definition phdr (data : list Z) (idx : Z) : outcome (option Elf64_Phdr) :=
  let! phnum := e_phnum data in
  if phnum <=? idx then Done None else
  let! phoff := e_phoff data in
  let! phentsize := e_phentsize data in
  let at_ := phoff + idx * phentsize in
  let! type := peek data 4 at_ in
  let! flags := peek data 4 (at_ + 4) in
  let! offset := peek data 8 (at_ + 8) in
  let! vaddr := peek data 8 (at_ + 16) in
  let! memsz := peek data 8 (at_ + 40) in
  Done (Some (mkPhdr type flags offset vaddr memsz)).

(** The test that keeps a header. *)
Definition is_text (ph : Elf64_Phdr) : bool := (p_type ph =? PT_LOAD) && negb (Z.land (p_flags ph) PF_X =? 0).

(** The loop of [findTextPhdrs] from index [i], [n] iterations left. *)
Fixpoint collect (data : list Z) (n : nat) (i : Z) : outcome (list Elf64_Phdr) :=
  match n with
  | O => Done []
  | S n =>
      let! ph := phdr data i in
      let! rest := collect data n (i + 1) in
      Done (match ph with Some ph => if is_text ph then ph :: rest else rest | None => rest end)
  end.

Definition before (a b : Elf64_Phdr) : Prop := p_vaddr a <= p_vaddr b.
#[export] Instance before_dec : RelDecision before.
Proof. intros a b. unfold before. solve_decision. Defined.
#[export] Instance before_total : Total before.
Proof. intros a b. unfold before. lia. Qed.

(** src/pando-drv/interpreter/ICacheBacking.hpp:98-111 [findTextPhdrs]; [std::sort] leaves the order of equal addresses
    open, and this is one of the orders it may choose *)
Definition findTextPhdrs (data : list Z) : outcome (list Elf64_Phdr) :=
  let! phnum := e_phnum data in
  let! text := collect data (Z.to_nat phnum) 0 in
  Done (merge_sort before text).

(** The constructor, once the file is mapped. *)
Definition construct (data : list Z) : outcome ICacheBacking :=
  let! text := findTextPhdrs data in Done (mkICache data text).

(** The test of [findTextPhdr]; the end of a segment is a 64-bit sum. *)
Definition covers (addr : Z) (ph : Elf64_Phdr) : bool := (p_vaddr ph <=? addr) && (addr <? u64 (p_vaddr ph + p_memsz ph)).

(** src/pando-drv/interpreter/ICacheBacking.hpp:113-124 [findTextPhdr] *)
Definition findTextPhdr (c : ICacheBacking) (addr : Z) : option Elf64_Phdr := List.find (covers addr) (text_phdrs_ c).

(** src/pando-drv/interpreter/ICacheBacking.hpp:126-144 [read]: the offset into the file is an [int] *)
Definition read (c : ICacheBacking) (addr : Z) : outcome Z :=
  match findTextPhdr c addr with
  | None => Failed (Aborted "no text phdr for addr")
  | Some ph =>
      let offset := i32 (u64 (p_offset ph + u64 (addr - p_vaddr ph))) in
      peek (data_ c) 4 offset
  end.

(** src/pando-drv/interpreter/ICacheBacking.hpp:146-148 [getStartAddr] *)
Definition getStartAddr (c : ICacheBacking) : outcome Z := e_entry (data_ c).

(** ** Correctness *)

(** A program header of the file: it stands at some index below [e_phnum]. *)
Definition header_of (data : list Z) (ph : Elf64_Phdr) : Prop :=
  exists idx, 0 <= idx /\ phdr data idx = Done (Some ph).

Lemma phdr_bound data idx ph : phdr data idx = Done (Some ph) -> exists n, e_phnum data = Done n /\ idx < n.
Proof.
  unfold phdr. destruct (e_phnum data) as [n|]; cbn [bindo]; [|discriminate]. intros H. exists n. split; [done|].
  destruct (Z.leb_spec n idx); [discriminate|done].
Qed.

Lemma elem_of_collect data n i l ph : collect data n i = Done l ->
  (ph ∈ l <-> is_text ph = true /\ exists idx, i <= idx < i + Z.of_nat n /\ phdr data idx = Done (Some ph)).
Proof.
  revert i l. induction n as [|n IH]; intros i l; cbn [collect]; intros H.
  { injection H as <-. rewrite elem_of_nil. split; [done|]. intros (_ & idx & ? & _). lia. }
  outcome_inv. rename x into o, x0 into rest. specialize (IH _ _ H1).
  assert (Split : (exists idx, i <= idx < i + Z.of_nat (S n) /\ phdr data idx = Done (Some ph)) <->
                  o = Some ph \/ exists idx, i + 1 <= idx < i + 1 + Z.of_nat n /\ phdr data idx = Done (Some ph)).
  { split.
    - intros (idx & B & E). destruct (decide (idx = i)) as [->|]; [left; congruence|right; exists idx; split; [lia|done]].
    - intros [->|(idx & B & E)]; [exists i | exists idx]; (split; [lia|done]). }
  rewrite Split. destruct o as [q|]; [destruct (is_text q) eqn:T|]; rewrite ?elem_of_cons, IH.
  - split; [intros [->|[? ?]]; auto | intros [? [[= ->]|?]]; auto].
  - split; [intros [? ?]; auto | intros [? [[= ->]|?]]; [congruence|auto]].
  - split; [intros [? ?]; auto | intros [? [[=]|?]]; auto].
Qed.

Lemma construct_text data c ph : construct data = Done c ->
  data_ c = data /\ (ph ∈ text_phdrs_ c <-> header_of data ph /\ is_text ph = true).
Proof.
  unfold construct, findTextPhdrs. intros H. outcome_inv. cbn. split; [done|].
  rewrite merge_sort_Permutation, (elem_of_collect _ _ _ _ ph H2). split.
  - intros [? (idx & ? & ?)]. split; [|done]. exists idx. split; [lia|done].
  - intros [(idx & ? & E) ?]. split; [done|]. exists idx. split; [|done].
    destruct (phdr_bound _ _ _ E) as (n & En & ?). rewrite En in H1. injection H1 as <-. lia.
Qed.

(** Segments that do not wrap around the address space. *)
Definition segment_ok (ph : Elf64_Phdr) : Prop :=
  0 <= p_vaddr ph /\ 0 <= p_memsz ph /\ p_vaddr ph + p_memsz ph < 2 ^ 64.

(** Instruction fetch.  Take a file of less than 2 GiB whose executable segments do not wrap and do not
    overlap.  A fetch inside one of them reads the four bytes at the matching place of that segment in the
    file, whatever the order of the program headers; a fetch outside all of them stops the program. *)
Theorem icache_read_spec data c addr : construct data = Done c -> 0 <= addr < 2 ^ 64 ->
  Z.of_nat (length data) < 2 ^ 31 ->
  (forall ph, header_of data ph -> is_text ph = true -> segment_ok ph) ->
  (forall p q a, header_of data p -> is_text p = true -> header_of data q -> is_text q = true ->
     p_vaddr p <= a < p_vaddr p + p_memsz p -> p_vaddr q <= a < p_vaddr q + p_memsz q -> p = q) ->
  (forall ph, header_of data ph -> is_text ph = true -> p_vaddr ph <= addr < p_vaddr ph + p_memsz ph ->
     0 <= p_offset ph -> p_offset ph + (addr - p_vaddr ph) + 4 <= Z.of_nat (length data) ->
     read c addr = Done (unbytes (take 4 (drop (Z.to_nat (p_offset ph + (addr - p_vaddr ph))) data)))) /\
  ((forall ph, header_of data ph -> is_text ph = true -> ~ p_vaddr ph <= addr < p_vaddr ph + p_memsz ph) ->
     exists msg, read c addr = Failed (Aborted msg)).
Proof.
  intros Hc Ha Hlen Hok Hdis. pose proof (fun ph => construct_text data c ph Hc) as Ht.
  assert (Hcov : forall ph, ph ∈ text_phdrs_ c -> covers addr ph = true <-> p_vaddr ph <= addr < p_vaddr ph + p_memsz ph).
  { intros ph Hin. apply Ht in Hin as [Hh Hx]. destruct (Hok ph Hh Hx) as (? & ? & ?).
    unfold covers. rewrite andb_true_iff, Z.leb_le, Z.ltb_lt, wrapU_id; [done|]. unfold inU. lia. }
  unfold read, findTextPhdr. destruct (List.find (covers addr) (text_phdrs_ c)) as [q|] eqn:F.
  - apply find_some in F as [Hin%list_elem_of_In Hq]. apply Hcov in Hq; [|done]. apply Ht in Hin as [Hh Hx]. split.
    + intros ph ? ? ? ? ?. assert (ph = q) as -> by (by apply (Hdis ph q addr)).
      destruct (Ht q) as [-> _]. unfold peek.
      rewrite (wrapU_id 64 (addr - p_vaddr q)) by (unfold inU; lia).
      rewrite (wrapU_id 64) by (unfold inU; lia). rewrite wrapS_id by (unfold inS; cbn; lia).
      rewrite (proj2 (Z.leb_le _ _)), (proj2 (Z.leb_le _ _)) by lia. done.
    + intros N. by destruct (N q Hh Hx).
  - split; [|by eexists]. intros ph Hh Hx Hin ? ?. exfalso.
    assert (Hin' : ph ∈ text_phdrs_ c) by (by apply Ht).
    pose proof (find_none _ _ F ph (proj1 (list_elem_of_In _ _) Hin')) as N.
    rewrite (proj2 (Hcov ph Hin')) in N by done. done.
Qed.

(** An executable of one segment: an instruction word mapped at 0x1000. *)
Definition example_elf : list Z :=
  repeat 0 24 ++ bytes 8 0x1000 ++ bytes 8 64 ++ repeat 0 14 ++ bytes 2 56 ++ bytes 2 1 ++ repeat 0 6 ++
  bytes 4 PT_LOAD ++ bytes 4 5 ++ bytes 8 120 ++ bytes 8 0x1000 ++ repeat 0 16 ++ bytes 8 4 ++ repeat 0 8 ++
  bytes 4 0x00a50513.

Lemma example_header ph : header_of example_elf ph -> ph = mkPhdr 1 5 120 0x1000 4.
Proof.
  intros (idx & H0 & E). destruct (phdr_bound _ _ _ E) as (n & En & ?).
  replace (e_phnum example_elf) with (Done 1) in En by (vm_compute; reflexivity). injection En as <-.
  assert (idx = 0) as -> by lia. vm_compute in E. by injection E.
Qed.

Lemma icache_read_spec_witness :
  read (mkICache example_elf [mkPhdr 1 5 120 0x1000 4]) 0x1000 = Done 0x00a50513.
Proof.
  destruct (icache_read_spec example_elf (mkICache example_elf [mkPhdr 1 5 120 0x1000 4]) 0x1000) as [R _].
  - vm_compute. reflexivity.
  - lia.
  - vm_compute. reflexivity.
  - intros ph ->%example_header _. vm_compute. intuition congruence.
  - intros p q a ->%example_header _ ->%example_header _ _ _. done.
  - rewrite (R (mkPhdr 1 5 120 0x1000 4)).
    + vm_compute. reflexivity.
    + exists 0. split; [lia|]. vm_compute. reflexivity.
    + vm_compute. reflexivity.
    + cbn. lia.
    + cbn. lia.
    + vm_compute. congruence.
Defined.

End ICache.
