(* ===== verification/RiscvInterpreter.v ===== *)
(** * The RISC-V interpreter

    [pando-drv/interpreter]: the hart ([RISCVHart.hpp]), the RV64I and M instructions ([RV64IInterpreter.hpp],
    [RV64IMInterpreter.hpp]), and the loads, stores and main loop of [interpreter.cpp].  An
    instruction is a step on the hart; what C++ leaves undefined (signed overflow, an
    over-long shift, an access outside the memory vector) is an explicit [Failed (Undefined _)],
    so that the theorems say exactly when an instruction does what the manual says. *)

From S2P Require Import Prelude RiscvInstruction RiscvDecoder RiscvICache.
From Stdlib Require Import SpecFloat.
Import Instruction.

Module Interpreter.

(** ** The hart *)

(** src/pando-drv/interpreter/RISCVHart.hpp:25-32 [RISCVHart]; a float is kept as its SpecFloat value *)
Record Hart := mkHart { _x : list Z; _f : list spec_float; _rm : Z; _pc : Z }.

(** src/pando-drv/interpreter/RISCVHart.hpp:48-53 [RISCVHart::RISCVHart]; [FE_TONEAREST] is the platform's *)
Definition RISCVHart (FE_TONEAREST : Z) : Hart :=
  mkHart (repeat 0 32) (repeat (S754_zero false) 32) FE_TONEAREST 0.

(** src/pando-drv/interpreter/RISCVHart.hpp:58-79 [reference_handle]: reading and writing register [i]; register
    0 reads as zero and ignores writes *)
Definition handle_get (hart : Hart) (i : Z) : Z := if i =? 0 then 0 else nth (Z.to_nat i) (_x hart) 0.
Definition handle_set (hart : Hart) (i v : Z) : Hart :=
  if i =? 0 then hart else mkHart (<[Z.to_nat i := u64 v]> (_x hart)) (_f hart) (_rm hart) (_pc hart).

(** src/pando-drv/interpreter/RISCVHart.hpp:131-139 [x] *)
Definition x (hart : Hart) (i : Z) : Z := handle_get hart i.
(** src/pando-drv/interpreter/RISCVHart.hpp:141-149 [sx] *)
Definition sx (hart : Hart) (i : Z) : Z := i64 (handle_get hart i).
(** Assignment through [x(i)] or [sx(i)]: the value is converted to the register's 64 bits. *)
Definition set_x (hart : Hart) (i v : Z) : Hart := handle_set hart i v.
(** src/pando-drv/interpreter/RISCVHart.hpp:151-161 [a] *)
Definition a (hart : Hart) (i : Z) : Z := x hart (10 + i).
(** src/pando-drv/interpreter/RISCVHart.hpp:163-173 [sa] *)
Definition sa (hart : Hart) (i : Z) : Z := sx hart (10 + i).
(** src/pando-drv/interpreter/RISCVHart.hpp:212-218 [pc] *)
Definition pc (hart : Hart) : Z := _pc hart.
Definition set_pc (hart : Hart) (v : Z) : Hart := mkHart (_x hart) (_f hart) (_rm hart) (u64 v).
(** src/pando-drv/interpreter/RISCVHart.hpp:72-75 [reference_handle::operator+=], on [pc()] *)
Definition add_pc (hart : Hart) (v : Z) : Hart := set_pc hart (pc hart + u64 v).
(** src/pando-drv/interpreter/RISCVHart.hpp:220-226 [sp] *)
Definition sp (hart : Hart) : Z := x hart 2.

(** ** Arithmetic that can be undefined *)

Definition signed (w z : Z) : outcome Z :=
  if fitsS w z then Done z else Failed (Undefined "signed overflow").
(** The guard of a shift by [n] on a [w]-bit operand. *)
Definition shift_ok (w n : Z) : outcome unit := guard_or (n <? w) (Undefined "shift amount").

Definition b2z (b : bool) : Z := if b then 1 else 0.

(** ** RV64I *)

(** src/pando-drv/interpreter/RV64IInterpreter.hpp:16-19 [visitLUI] *)
Definition visitLUI (hart : Hart) (i : Z) : outcome Hart :=
  let hart := set_x hart (rd i) (SUimm i) in Done (add_pc hart 4).

(** src/pando-drv/interpreter/RV64IInterpreter.hpp:20-23 [visitAUIPC] *)
Definition visitAUIPC (hart : Hart) (i : Z) : outcome Hart :=
  let hart := set_x hart (rd i) (pc hart + SUimm i) in Done (add_pc hart 4).

(** src/pando-drv/interpreter/RV64IInterpreter.hpp:24-27 [visitJAL] *)
Definition visitJAL (hart : Hart) (i : Z) : outcome Hart :=
  let hart := set_x hart (rd i) (pc hart + 4) in Done (add_pc hart (Jimm i)).

(** src/pando-drv/interpreter/RV64IInterpreter.hpp:28-32 [visitJALR] *)
Definition visitJALR (hart : Hart) (i : Z) : outcome Hart :=
  let jmp_target := u64 (x hart (rs1 i) + u64 (SIimm i)) in
  let hart := set_x hart (rd i) (pc hart + 4) in Done (set_pc hart jmp_target).

(** src/pando-drv/interpreter/RV64IInterpreter.hpp:33-39 [visitBEQ] *)
Definition visitBEQ (hart : Hart) (i : Z) : outcome Hart :=
  Done (if x hart (rs1 i) =? x hart (rs2 i) then add_pc hart (Bimm i) else add_pc hart 4).

(** src/pando-drv/interpreter/RV64IInterpreter.hpp:40-46 [visitBNE] *)
Definition visitBNE (hart : Hart) (i : Z) : outcome Hart :=
  Done (if negb (x hart (rs1 i) =? x hart (rs2 i)) then add_pc hart (Bimm i) else add_pc hart 4).

(** src/pando-drv/interpreter/RV64IInterpreter.hpp:47-53 [visitBLT] *)
Definition visitBLT (hart : Hart) (i : Z) : outcome Hart :=
  Done (if sx hart (rs1 i) <? sx hart (rs2 i) then add_pc hart (Bimm i) else add_pc hart 4).

(** src/pando-drv/interpreter/RV64IInterpreter.hpp:54-60 [visitBGE] *)
Definition visitBGE (hart : Hart) (i : Z) : outcome Hart :=
  Done (if sx hart (rs2 i) <=? sx hart (rs1 i) then add_pc hart (Bimm i) else add_pc hart 4).

(** src/pando-drv/interpreter/RV64IInterpreter.hpp:61-67 [visitBLTU] *)
Definition visitBLTU (hart : Hart) (i : Z) : outcome Hart :=
  Done (if x hart (rs1 i) <? x hart (rs2 i) then add_pc hart (Bimm i) else add_pc hart 4).

(** src/pando-drv/interpreter/RV64IInterpreter.hpp:68-74 [visitBGEU] *)
Definition visitBGEU (hart : Hart) (i : Z) : outcome Hart :=
  Done (if x hart (rs2 i) <=? x hart (rs1 i) then add_pc hart (Bimm i) else add_pc hart 4).

(** src/pando-drv/interpreter/RV64IInterpreter.hpp:77-80 [visitADDI] *)
Definition visitADDI (hart : Hart) (i : Z) : outcome Hart :=
  let! v := signed 64 (sx hart (rs1 i) + SIimm i) in
  let hart := set_x hart (rd i) (v) in Done (add_pc hart 4).

(** src/pando-drv/interpreter/RV64IInterpreter.hpp:81-84 [visitSLTI] *)
Definition visitSLTI (hart : Hart) (i : Z) : outcome Hart :=
  let hart := set_x hart (rd i) (b2z (sx hart (rs1 i) <? SIimm i)) in Done (add_pc hart 4).

(** src/pando-drv/interpreter/RV64IInterpreter.hpp:85-89 [visitSLTIU] *)
Definition visitSLTIU (hart : Hart) (i : Z) : outcome Hart :=
  let imm := u64 (SIimm i) in
  let hart := set_x hart (rd i) (b2z (x hart (rs1 i) <? imm)) in Done (add_pc hart 4).

(** src/pando-drv/interpreter/RV64IInterpreter.hpp:90-93 [visitXORI] *)
Definition visitXORI (hart : Hart) (i : Z) : outcome Hart :=
  let hart := set_x hart (rd i) (Z.lxor (x hart (rs1 i)) (u64 (SIimm i))) in Done (add_pc hart 4).

(** src/pando-drv/interpreter/RV64IInterpreter.hpp:94-97 [visitORI] *)
Definition visitORI (hart : Hart) (i : Z) : outcome Hart :=
  let hart := set_x hart (rd i) (Z.lor (x hart (rs1 i)) (u64 (SIimm i))) in Done (add_pc hart 4).

(** src/pando-drv/interpreter/RV64IInterpreter.hpp:98-101 [visitANDI] *)
Definition visitANDI (hart : Hart) (i : Z) : outcome Hart :=
  let hart := set_x hart (rd i) (Z.land (x hart (rs1 i)) (u64 (SIimm i))) in Done (add_pc hart 4).

(** src/pando-drv/interpreter/RV64IInterpreter.hpp:102-105 [visitSLLI] *)
Definition visitSLLI (hart : Hart) (i : Z) : outcome Hart :=
  let! _ := shift_ok 64 (shamt6 i) in
  let hart := set_x hart (rd i) (shlU 64 (x hart (rs1 i)) (shamt6 i)) in Done (add_pc hart 4).

(** src/pando-drv/interpreter/RV64IInterpreter.hpp:106-109 [visitSRLI] *)
Definition visitSRLI (hart : Hart) (i : Z) : outcome Hart :=
  let! _ := shift_ok 64 (shamt6 i) in
  let hart := set_x hart (rd i) (shrU (x hart (rs1 i)) (shamt6 i)) in Done (add_pc hart 4).

(** src/pando-drv/interpreter/RV64IInterpreter.hpp:110-113 [visitSRAI] *)
Definition visitSRAI (hart : Hart) (i : Z) : outcome Hart :=
  let! _ := shift_ok 64 (shamt6 i) in
  let hart := set_x hart (rd i) (Z.shiftr (sx hart (rs1 i)) (shamt6 i)) in Done (add_pc hart 4).

(** src/pando-drv/interpreter/RV64IInterpreter.hpp:114-117 [visitADD] *)
Definition visitADD (hart : Hart) (i : Z) : outcome Hart :=
  let! v := signed 64 (sx hart (rs1 i) + sx hart (rs2 i)) in
  let hart := set_x hart (rd i) (v) in Done (add_pc hart 4).

(** src/pando-drv/interpreter/RV64IInterpreter.hpp:118-121 [visitSUB] *)
Definition visitSUB (hart : Hart) (i : Z) : outcome Hart :=
  let! v := signed 64 (sx hart (rs1 i) - sx hart (rs2 i)) in
  let hart := set_x hart (rd i) (v) in Done (add_pc hart 4).

(** src/pando-drv/interpreter/RV64IInterpreter.hpp:122-125 [visitSLL] *)
Definition visitSLL (hart : Hart) (i : Z) : outcome Hart :=
  let! _ := shift_ok 64 (x hart (rs2 i)) in
  let hart := set_x hart (rd i) (shlU 64 (x hart (rs1 i)) (x hart (rs2 i))) in Done (add_pc hart 4).

(** src/pando-drv/interpreter/RV64IInterpreter.hpp:126-129 [visitSLT] *)
Definition visitSLT (hart : Hart) (i : Z) : outcome Hart :=
  let hart := set_x hart (rd i) (b2z (sx hart (rs1 i) <? sx hart (rs2 i))) in Done (add_pc hart 4).

(** src/pando-drv/interpreter/RV64IInterpreter.hpp:130-133 [visitSLTU] *)
Definition visitSLTU (hart : Hart) (i : Z) : outcome Hart :=
  let hart := set_x hart (rd i) (b2z (x hart (rs1 i) <? x hart (rs2 i))) in Done (add_pc hart 4).

(** src/pando-drv/interpreter/RV64IInterpreter.hpp:134-137 [visitXOR] *)
Definition visitXOR (hart : Hart) (i : Z) : outcome Hart :=
  let hart := set_x hart (rd i) (Z.lxor (x hart (rs1 i)) (x hart (rs2 i))) in Done (add_pc hart 4).

(** src/pando-drv/interpreter/RV64IInterpreter.hpp:138-141 [visitSRL] *)
Definition visitSRL (hart : Hart) (i : Z) : outcome Hart :=
  let! _ := shift_ok 64 (x hart (rs2 i)) in
  let hart := set_x hart (rd i) (shrU (x hart (rs1 i)) (x hart (rs2 i))) in Done (add_pc hart 4).

(** src/pando-drv/interpreter/RV64IInterpreter.hpp:142-145 [visitSRA] *)
Definition visitSRA (hart : Hart) (i : Z) : outcome Hart :=
  let! _ := shift_ok 64 (x hart (rs2 i)) in
  let hart := set_x hart (rd i) (Z.shiftr (sx hart (rs1 i)) (x hart (rs2 i))) in Done (add_pc hart 4).

(** src/pando-drv/interpreter/RV64IInterpreter.hpp:146-149 [visitOR] *)
Definition visitOR (hart : Hart) (i : Z) : outcome Hart :=
  let hart := set_x hart (rd i) (Z.lor (x hart (rs1 i)) (x hart (rs2 i))) in Done (add_pc hart 4).

(** src/pando-drv/interpreter/RV64IInterpreter.hpp:150-153 [visitAND] *)
Definition visitAND (hart : Hart) (i : Z) : outcome Hart :=
  let hart := set_x hart (rd i) (Z.land (x hart (rs1 i)) (x hart (rs2 i))) in Done (add_pc hart 4).

(** src/pando-drv/interpreter/RV64IInterpreter.hpp:160-166 [visitADDIW] *)
Definition visitADDIW (hart : Hart) (i : Z) : outcome Hart :=
  let rs := i32 (sx hart (rs1 i)) in
  let! rd_ := signed 32 (rs + SIimm i) in
  let hart := set_x hart (rd i) (rd_) in Done (add_pc hart 4).

(** src/pando-drv/interpreter/RV64IInterpreter.hpp:167-173 [visitSLLIW] *)
Definition visitSLLIW (hart : Hart) (i : Z) : outcome Hart :=
  let rs := u32 (sx hart (rs1 i)) in
  let! _ := shift_ok 32 (shamt5 i) in
  let rd_ := i32 (shlU 32 rs (shamt5 i)) in
  let hart := set_x hart (rd i) (rd_) in Done (add_pc hart 4).

(** src/pando-drv/interpreter/RV64IInterpreter.hpp:174-180 [visitSRLIW] *)
Definition visitSRLIW (hart : Hart) (i : Z) : outcome Hart :=
  let rs := u32 (x hart (rs1 i)) in
  let! _ := shift_ok 32 (shamt5 i) in
  let rd_ := i32 (shrU rs (shamt5 i)) in
  let hart := set_x hart (rd i) (rd_) in Done (add_pc hart 4).

(** src/pando-drv/interpreter/RV64IInterpreter.hpp:181-187 [visitSRAIW] *)
Definition visitSRAIW (hart : Hart) (i : Z) : outcome Hart :=
  let rs := i32 (sx hart (rs1 i)) in
  let! _ := shift_ok 32 (shamt5 i) in
  let rd_ := Z.shiftr rs (shamt5 i) in
  let hart := set_x hart (rd i) (rd_) in Done (add_pc hart 4).

(** src/pando-drv/interpreter/RV64IInterpreter.hpp:188-196 [visitADDW] *)
Definition visitADDW (hart : Hart) (i : Z) : outcome Hart :=
  let rs1_ := i32 (sx hart (rs1 i)) in
  let rs2_ := i32 (sx hart (rs2 i)) in
  let! rd_ := signed 32 (rs1_ + rs2_) in
  let hart := set_x hart (rd i) (rd_) in Done (add_pc hart 4).

(** src/pando-drv/interpreter/RV64IInterpreter.hpp:197-204 [visitSUBW] *)
Definition visitSUBW (hart : Hart) (i : Z) : outcome Hart :=
  let rs1_ := i32 (sx hart (rs1 i)) in
  let rs2_ := i32 (sx hart (rs2 i)) in
  let! rd_ := signed 32 (rs1_ - rs2_) in
  let hart := set_x hart (rd i) (rd_) in Done (add_pc hart 4).

(** src/pando-drv/interpreter/RV64IInterpreter.hpp:205-212 [visitSLLW] *)
Definition visitSLLW (hart : Hart) (i : Z) : outcome Hart :=
  let rs1_ := u32 (sx hart (rs1 i)) in
  let rs2_ := u32 (sx hart (rs2 i)) in
  let! _ := shift_ok 32 rs2_ in
  let rd_ := i32 (shlU 32 rs1_ rs2_) in
  let hart := set_x hart (rd i) (rd_) in Done (add_pc hart 4).

(** src/pando-drv/interpreter/RV64IInterpreter.hpp:213-220 [visitSRLW] *)
Definition visitSRLW (hart : Hart) (i : Z) : outcome Hart :=
  let rs1_ := u32 (sx hart (rs1 i)) in
  let rs2_ := u32 (sx hart (rs2 i)) in
  let! _ := shift_ok 32 rs2_ in
  let rd_ := i32 (shrU rs1_ rs2_) in
  let hart := set_x hart (rd i) (rd_) in Done (add_pc hart 4).

(** src/pando-drv/interpreter/RV64IInterpreter.hpp:221-228 [visitSRAW] *)
Definition visitSRAW (hart : Hart) (i : Z) : outcome Hart :=
  let rs1_ := i32 (sx hart (rs1 i)) in
  let rs2_ := i32 (sx hart (rs2 i)) in
  let! _ := shift_ok 32 (u32 rs2_) in
  let rd_ := Z.shiftr rs1_ rs2_ in
  let hart := set_x hart (rd i) (rd_) in Done (add_pc hart 4).

(** ** RV64M *)

Section Multiply.
(** Boost's 128-bit integers, which the multiplications use: the products, the low and high halves of a
    128-bit value as the casts and shifts extract them. *)
Record Int128 := mkInt128 {
  mul_ss : Z -> Z -> Z;          (* int128_t * int128_t *)
  mul_uu : Z -> Z -> Z;          (* uint128_t * uint128_t *)
  mul_su : Z -> Z -> Z;          (* int128_t * uint128_t, stored in an int128_t *)
  and_u64max : Z -> Z;           (* rd & numeric_limits<uint64_t>::max() *)
  shr64 : Z -> Z;                (* rd >> 64 *)
  to_i64 : Z -> Z;               (* static_cast<int64_t> *)
  to_u64 : Z -> Z }.             (* static_cast<uint64_t> *)
Context (B : Int128).

(** src/pando-drv/interpreter/RV64IMInterpreter.hpp:17-23 [visitMUL] *)
Definition visitMUL (hart : Hart) (i : Z) : outcome Hart :=
  let rs1_ := sx hart (rs1 i) in let rs2_ := sx hart (rs2 i) in
  let rd_ := mul_ss B rs1_ rs2_ in
  let hart := set_x hart (rd i) (to_i64 B (and_u64max B rd_)) in Done (add_pc hart 4).

(** src/pando-drv/interpreter/RV64IMInterpreter.hpp:24-30 [visitMULH] *)
Definition visitMULH (hart : Hart) (i : Z) : outcome Hart :=
  let rs1_ := sx hart (rs1 i) in let rs2_ := sx hart (rs2 i) in
  let rd_ := mul_ss B rs1_ rs2_ in
  let hart := set_x hart (rd i) (to_i64 B (shr64 B rd_)) in Done (add_pc hart 4).

(** src/pando-drv/interpreter/RV64IMInterpreter.hpp:31-37 [visitMULHU] *)
Definition visitMULHU (hart : Hart) (i : Z) : outcome Hart :=
  let rs1_ := x hart (rs1 i) in let rs2_ := x hart (rs2 i) in
  let rd_ := mul_uu B rs1_ rs2_ in
  let hart := set_x hart (rd i) (to_u64 B (shr64 B rd_)) in Done (add_pc hart 4).

(** src/pando-drv/interpreter/RV64IMInterpreter.hpp:38-44 [visitMULHSU] *)
Definition visitMULHSU (hart : Hart) (i : Z) : outcome Hart :=
  let rs1_ := sx hart (rs1 i) in let rs2_ := x hart (rs2 i) in
  let rd_ := mul_su B rs1_ rs2_ in
  let hart := set_x hart (rd i) (to_i64 B (shr64 B rd_)) in Done (add_pc hart 4).

End Multiply.

(** src/pando-drv/interpreter/RV64IMInterpreter.hpp:45-57 [visitDIV] *)
Definition visitDIV (hart : Hart) (i : Z) : outcome Hart :=
  let rs1_ := sx hart (rs1 i) in let rs2_ := sx hart (rs2 i) in
  let hart :=
    if rs2_ =? 0 then set_x hart (rd i) (-1)
    else if (rs1_ =? - 2 ^ 63) && (rs2_ =? -1) then set_x hart (rd i) (- 2 ^ 63)
    else set_x hart (rd i) (Z.quot rs1_ rs2_) in
  Done (add_pc hart 4).

(** src/pando-drv/interpreter/RV64IMInterpreter.hpp:58-67 [visitDIVU] *)
Definition visitDIVU (hart : Hart) (i : Z) : outcome Hart :=
  let rs1_ := x hart (rs1 i) in let rs2_ := x hart (rs2 i) in
  let hart :=
    if rs2_ =? 0 then set_x hart (rd i) (2 ^ 64 - 1)
    else set_x hart (rd i) (rs1_ / rs2_) in
  Done (add_pc hart 4).

(** src/pando-drv/interpreter/RV64IMInterpreter.hpp:68-80 [visitREM] *)
Definition visitREM (hart : Hart) (i : Z) : outcome Hart :=
  let rs1_ := sx hart (rs1 i) in let rs2_ := sx hart (rs2 i) in
  let hart :=
    if rs2_ =? 0 then set_x hart (rd i) (rs1_)
    else if (rs1_ =? - 2 ^ 63) && (rs2_ =? -1) then set_x hart (rd i) (0)
    else set_x hart (rd i) (Z.rem rs1_ rs2_) in
  Done (add_pc hart 4).

(** src/pando-drv/interpreter/RV64IMInterpreter.hpp:81-91 [visitREMU] *)
Definition visitREMU (hart : Hart) (i : Z) : outcome Hart :=
  let rs1_ := x hart (rs1 i) in let rs2_ := x hart (rs2 i) in
  let hart :=
    if rs2_ =? 0 then set_x hart (rd i) (rs1_)
    else set_x hart (rd i) (rs1_ mod rs2_) in
  Done (add_pc hart 4).

(** src/pando-drv/interpreter/RV64IMInterpreter.hpp:92-98 [visitMULW] *)
Definition visitMULW (hart : Hart) (i : Z) : outcome Hart :=
  let rs1_ := i32 (sx hart (rs1 i)) in let rs2_ := i32 (sx hart (rs2 i)) in
  let! rd_ := signed 32 (rs1_ * rs2_) in
  let hart := set_x hart (rd i) (rd_) in Done (add_pc hart 4).

(** src/pando-drv/interpreter/RV64IMInterpreter.hpp:99-111 [visitDIVW] *)
Definition visitDIVW (hart : Hart) (i : Z) : outcome Hart :=
  let rs1_ := i32 (sx hart (rs1 i)) in let rs2_ := i32 (sx hart (rs2 i)) in
  let hart :=
    if rs2_ =? 0 then set_x hart (rd i) (-1)
    else if (rs1_ =? - 2 ^ 31) && (rs2_ =? -1) then set_x hart (rd i) (- 2 ^ 31)
    else set_x hart (rd i) (Z.quot rs1_ rs2_) in
  Done (add_pc hart 4).

(** src/pando-drv/interpreter/RV64IMInterpreter.hpp:112-123 [visitDIVUW] *)
Definition visitDIVUW (hart : Hart) (i : Z) : outcome Hart :=
  let rs1_ := u32 (x hart (rs1 i)) in let rs2_ := u32 (x hart (rs2 i)) in
  let hart :=
    if rs2_ =? 0 then set_x hart (rd i) (i32 (2 ^ 32 - 1))
    else set_x hart (rd i) (i32 (rs1_ / rs2_)) in
  Done (add_pc hart 4).

(** src/pando-drv/interpreter/RV64IMInterpreter.hpp:124-136 [visitREMW] *)
Definition visitREMW (hart : Hart) (i : Z) : outcome Hart :=
  let rs1_ := i32 (sx hart (rs1 i)) in let rs2_ := i32 (sx hart (rs2 i)) in
  let hart :=
    if rs2_ =? 0 then set_x hart (rd i) (rs1_)
    else if (rs1_ =? - 2 ^ 31) && (rs2_ =? -1) then set_x hart (rd i) (0)
    else set_x hart (rd i) (Z.rem rs1_ rs2_) in
  Done (add_pc hart 4).

(** src/pando-drv/interpreter/RV64IMInterpreter.hpp:137-148 [visitREMUW] *)
Definition visitREMUW (hart : Hart) (i : Z) : outcome Hart :=
  let rs1_ := u32 (sx hart (rs1 i)) in let rs2_ := u32 (sx hart (rs2 i)) in
  let hart :=
    if rs2_ =? 0 then set_x hart (rd i) (i32 rs1_)
    else set_x hart (rd i) (i32 (rs1_ mod rs2_)) in
  Done (add_pc hart 4).


(** ** Loads and stores *)

(** src/pando-drv/interpreter/interpreter.cpp:13-16 [MyInterpreter]: [mem] is 4 KiB of zero bytes *)
Definition MyInterpreter : list Z := repeat 0 (4 * 1024).

(** [*(T* )&mem[at]] for a [T] of [n] bytes: outside the vector there is nothing to read or write. *)
Definition in_mem (mem : list Z) (at_ : Z) (n : nat) : outcome unit :=
  guard_or (at_ + Z.of_nat n <=? Z.of_nat (length mem)) (Undefined "memory access").

(** src/pando-drv/interpreter/interpreter.cpp:18-22 [visitLoad]; [conv] is the reading of the [8 n] bits as a [T] *)
Definition visitLoad (n : nat) (conv : Z -> Z) (mem : list Z) (hart : Hart) (i : Z) : outcome Z :=
  let at_ := u64 (x hart (rs1 i) + u64 (SIimm i)) in
  let! _ := in_mem mem at_ n in Done (conv (unbytes (take n (drop (Z.to_nat at_) mem)))).

(** src/pando-drv/interpreter/interpreter.cpp:24-28 [visitStore] *)
Definition visitStore (n : nat) (mem : list Z) (hart : Hart) (i : Z) : outcome (list Z) :=
  let at_ := u64 (x hart (rs1 i) + u64 (Simm i)) in
  let! _ := in_mem mem at_ n in Done (list_inserts (Z.to_nat at_) (bytes n (x hart (rs2 i))) mem).

(** The shape all loads share: [hart.x(i.rd()) = visitLoad<R, T>(hart, i); hart.pc() += 4]. *)
Definition load_with (n : nat) (conv : Z -> Z) (mem : list Z) (hart : Hart) (i : Z) : outcome (Hart * list Z) :=
  let! v := visitLoad n conv mem hart i in Done (add_pc (set_x hart (rd i) v) 4, mem).
(** The shape all stores share. *)
Definition store_with (n : nat) (mem : list Z) (hart : Hart) (i : Z) : outcome (Hart * list Z) :=
  let! mem := visitStore n mem hart i in Done (add_pc hart 4, mem).

(** src/pando-drv/interpreter/interpreter.cpp:30-33 [visitLB] *)
Definition visitLB := load_with 1 i8.
(** src/pando-drv/interpreter/interpreter.cpp:34-37 [visitLH] *)
Definition visitLH := load_with 2 i16.
(** src/pando-drv/interpreter/interpreter.cpp:38-41 [visitLW] *)
Definition visitLW := load_with 4 i32.
(** src/pando-drv/interpreter/interpreter.cpp:42-45 [visitLBU] *)
Definition visitLBU := load_with 1 u8.
(** src/pando-drv/interpreter/interpreter.cpp:46-49 [visitLHU] *)
Definition visitLHU := load_with 2 u16.
(** src/pando-drv/interpreter/interpreter.cpp:50-53 [visitLWU] *)
Definition visitLWU := load_with 4 u32.
(** src/pando-drv/interpreter/interpreter.cpp:54-57 [visitLD] *)
Definition visitLD := load_with 8 u64.
(** src/pando-drv/interpreter/interpreter.cpp:59-62 [visitSB] *)
Definition visitSB := store_with 1.
(** src/pando-drv/interpreter/interpreter.cpp:63-66 [visitSH] *)
Definition visitSH := store_with 2.
(** src/pando-drv/interpreter/interpreter.cpp:67-70 [visitSW] *)
Definition visitSW := store_with 4.
(** src/pando-drv/interpreter/interpreter.cpp:71-74 [visitSD] *)
Definition visitSD := store_with 8.

(** ** Dispatch *)

Section Dispatch.
Context (B : Int128).

(** src/pando-drv/interpreter/RISCVInstruction.hpp:11-27 [accept]: the overriders of the instructions on the hart alone *)
Definition visitors : list (string * (Hart -> Z -> outcome Hart)) := [
  ("LUI", visitLUI); ("AUIPC", visitAUIPC); ("JAL", visitJAL); ("JALR", visitJALR);
  ("BEQ", visitBEQ); ("BNE", visitBNE); ("BLT", visitBLT); ("BGE", visitBGE);
  ("BLTU", visitBLTU); ("BGEU", visitBGEU); ("ADDI", visitADDI); ("SLTI", visitSLTI);
  ("SLTIU", visitSLTIU); ("XORI", visitXORI); ("ORI", visitORI); ("ANDI", visitANDI);
  ("SLLI", visitSLLI); ("SRLI", visitSRLI); ("SRAI", visitSRAI); ("ADD", visitADD);
  ("SUB", visitSUB); ("SLL", visitSLL); ("SLT", visitSLT); ("SLTU", visitSLTU);
  ("XOR", visitXOR); ("SRL", visitSRL); ("SRA", visitSRA); ("OR", visitOR);
  ("AND", visitAND); ("ADDIW", visitADDIW); ("SLLIW", visitSLLIW); ("SRLIW", visitSRLIW);
  ("SRAIW", visitSRAIW); ("ADDW", visitADDW); ("SUBW", visitSUBW); ("SLLW", visitSLLW);
  ("SRLW", visitSRLW); ("SRAW", visitSRAW); ("MUL", visitMUL B); ("MULH", visitMULH B);
  ("MULHU", visitMULHU B); ("MULHSU", visitMULHSU B); ("DIV", visitDIV); ("DIVU", visitDIVU);
  ("REM", visitREM); ("REMU", visitREMU); ("MULW", visitMULW); ("DIVW", visitDIVW);
  ("DIVUW", visitDIVUW); ("REMW", visitREMW); ("REMUW", visitREMUW)].

(** The overriders of [MyInterpreter]. *)
Definition mem_visitors : list (string * (list Z -> Hart -> Z -> outcome (Hart * list Z))) := [
  ("LB", visitLB); ("LH", visitLH); ("LW", visitLW); ("LBU", visitLBU);
  ("LHU", visitLHU); ("LWU", visitLWU); ("LD", visitLD); ("SB", visitSB);
  ("SH", visitSH); ("SW", visitSW); ("SD", visitSD)].

Definition overrider {A} (table : list (string * A)) (mnemonic : string) : option A :=
  option_map snd (List.find (fun e => String.eqb (fst e) mnemonic) table).

(** src/pando-drv/interpreter/RISCVInterpreter.hpp:16-26 [visit]: an instruction nobody overrides throws *)
Definition visit (mnemonic : string) (s : Hart * list Z) (i : Z) : outcome (Hart * list Z) :=
  let '(hart, mem) := s in
  match overrider visitors mnemonic, overrider mem_visitors mnemonic with
  | Some v, _ => let! hart := v hart i in Done (hart, mem)
  | None, Some v => v mem hart i
  | None, None => Failed (Aborted (mnemonic +:+ ": Not implemented"))
  end.

(** ** The main loop *)

(** One round of the loop: fetch, decode, visit.  [read] is the instruction cache. *)
Definition round (read : Z -> outcome Z) (s : Hart * list Z) : outcome (Hart * list Z) :=
  let! w := read (pc (fst s)) in
  let! mnemonic := Decoder.decode w in
  visit mnemonic s w.

Fixpoint rounds (n : nat) (read : Z -> outcome Z) (s : Hart * list Z) : outcome (Hart * list Z) :=
  match n with O => Done s | S n => let! s := round read s in rounds n read s end.

(** src/pando-drv/interpreter/interpreter.cpp:79-104 [main]: the entry point goes through a [uint32_t]; what it prints
    is left out *)
Definition main (icache : ICache.ICacheBacking) (FE_TONEAREST : Z) : outcome (Hart * list Z) :=
  let! start := ICache.getStartAddr icache in
  rounds 200 (ICache.read icache) (set_pc (RISCVHart FE_TONEAREST) (u32 start), MyInterpreter).
End Dispatch.

(** ** The hart's invariant *)

Definition hart_ok (h : Hart) : Prop :=
  length (_x h) = 32%nat /\ length (_f h) = 32%nat /\ Forall (inU 64) (_x h) /\ inU 64 (_pc h).
Definition mem_ok (mem : list Z) : Prop := length mem = (4 * 1024)%nat /\ Forall (inU 8) mem.
Definition state_ok (s : Hart * list Z) : Prop := hart_ok (fst s) /\ mem_ok (snd s).

Lemma x_range h r : hart_ok h -> inU 64 (x h r).
Proof.
  intros (_ & _ & F & _). unfold x, handle_get. destruct (r =? 0); [by vm_compute|].
  destruct (nth_in_or_default (Z.to_nat r) (_x h) 0) as [Hin| ->]; [|by vm_compute].
  rewrite Forall_forall in F. apply F. by apply list_elem_of_In.
Qed.

Lemma start_ok rm : hart_ok (RISCVHart rm).
Proof. 
  split_and!; [done..| |done]. apply Forall_forall. intros v Hv%list_elem_of_In%repeat_spec. by subst.
Qed.

Lemma sx_x h r : sx h r = i64 (x h r).
Proof. done. Qed.

Lemma field5 w : inU 5 (Z.land w 0x1F).
Proof. change 0x1F with (Z.ones 5). rewrite Z.land_ones by lia. apply Z.mod_pos_bound; lia. Qed.

Lemma rd_range i : inU 5 (rd i).
Proof. apply field5. Qed.
Lemma rs1_range i : inU 5 (rs1 i).
Proof. apply field5. Qed.
Lemma rs2_range i : inU 5 (rs2 i).
Proof. apply field5. Qed.

(** What an instruction may do to the hart: register [r] (0 for none) gets [v], the pc becomes [target], and
    nothing else changes. *)
Definition effect (h h' : Hart) (r v target : Z) : Prop :=
  hart_ok h' /\ pc h' = target /\ _f h' = _f h /\ _rm h' = _rm h /\
  forall k, inU 5 k -> x h' k = if (k =? r) && negb (k =? 0) then v else x h k.

Lemma set_pc_ok h v : hart_ok h -> hart_ok (set_pc h v).
Proof. intros (? & ? & ? & ?). split_and!; try done. by apply wrapU_range. Qed.

Lemma set_x_ok h r v : hart_ok h -> hart_ok (set_x h r v).
Proof.
  intros (? & ? & ? & ?). unfold set_x, handle_set. destruct (r =? 0); [by split_and!|].
  split_and!; cbn; try done.
  - by rewrite length_insert.
  - apply Forall_insert; [done|by apply wrapU_range].
Qed.

Lemma x_set_x h r v k : hart_ok h -> inU 5 r -> inU 5 k ->
  x (set_x h r v) k = if (k =? r) && negb (k =? 0) then u64 v else x h k.
Proof.
  intros (L & _) Hr Hk. unfold x, handle_get, set_x, handle_set, inU in *.
  destruct (Z.eqb_spec k 0) as [->|Nk]; cbn [negb]; rewrite ?andb_false_r, ?andb_true_r; [done|].
  destruct (Z.eqb_spec r 0) as [->|Nr].
  - by destruct (Z.eqb_spec k 0).
  - cbn [_x]. rewrite !nth_lookup. destruct (Z.eqb_spec k r) as [->|].
    + rewrite list_lookup_insert_eq; [done|]. rewrite L. lia.
    + rewrite list_lookup_insert_ne; [done|lia].
Qed.

Lemma effect_set h r v : hart_ok h -> inU 5 r -> effect h (add_pc (set_x h r v) 4) r (u64 v) (u64 (pc h + 4)).
Proof.
  intros Hh Hr. split_and!.
  - by apply set_pc_ok, set_x_ok.
  - cbn. unfold set_x, handle_set. by destruct (r =? 0).
  - unfold set_x, handle_set. by destruct (r =? 0).
  - unfold set_x, handle_set. by destruct (r =? 0).
  - intros k Hk. change (x (add_pc (set_x h r v) 4) k) with (x (set_x h r v) k). by apply x_set_x.
Qed.

Lemma effect_pc h v : hart_ok h -> effect h (set_pc h v) 0 0 (u64 v).
Proof.
  intros Hh. split_and!; [by apply set_pc_ok|done..|]. intros k Hk. change (x (set_pc h v) k) with (x h k).
  by destruct (k =? 0).
Qed.

Lemma effect_set_pc h r v t : hart_ok h -> inU 5 r -> effect h (set_pc (set_x h r v) t) r (u64 v) (u64 t).
Proof.
  intros Hh Hr. destruct (effect_set h r v Hh Hr) as (? & _ & ? & ? & ?).
  split_and!; try done. by apply set_pc_ok, set_x_ok.
Qed.

End Interpreter.
