(* ===== verification/RiscvSemantics.v ===== *)
(** * The RISC-V interpreter against the manual

    For every instruction [interpreter.cpp] implements, what the instruction set manual (RV64IM, unprivileged
    specification) says it does, and the theorem that the interpreter does it: the register-register,
    register-immediate, multiply, control-flow, load and store instructions, each with the exact condition
    under which the C++ code is defined. *)

From S2P Require Import Prelude RiscvInstruction RiscvDecoder RiscvICache RiscvInterpreter.
Import Instruction Interpreter.

Module Semantics.

(** ** The manual's integer operations

    Operands and results are register contents, numbers in [[0, 2^64)].  An entry carries the condition under
    which the C++ code is defined: signed sums must not overflow, and a shift amount, which the code does not
    reduce, must be smaller than the width. *)

Definition always (a b : Z) : bool := true.

Definition rr : list (string * ((Z -> Z -> bool) * (Z -> Z -> Z))) := [
  ("ADD", (fun a b => fitsS 64 (i64 a + i64 b), fun a b => u64 (a + b)));
  ("SUB", (fun a b => fitsS 64 (i64 a - i64 b), fun a b => u64 (a - b)));
  ("SLL", (fun a b => b <? 64, fun a b => u64 (Z.shiftl a (b mod 64))));
  ("SLT", (always, fun a b => if i64 a <? i64 b then 1 else 0));
  ("SLTU", (always, fun a b => if a <? b then 1 else 0));
  ("XOR", (always, Z.lxor));
  ("SRL", (fun a b => b <? 64, fun a b => Z.shiftr a (b mod 64)));
  ("SRA", (fun a b => b <? 64, fun a b => u64 (Z.shiftr (i64 a) (b mod 64))));
  ("OR", (always, Z.lor));
  ("AND", (always, Z.land));
  ("ADDW", (fun a b => fitsS 32 (i32 a + i32 b), fun a b => u64 (i32 (a + b))));
  ("SUBW", (fun a b => fitsS 32 (i32 a - i32 b), fun a b => u64 (i32 (a - b))));
  ("SLLW", (fun a b => u32 b <? 32, fun a b => u64 (i32 (Z.shiftl a (b mod 32)))));
  ("SRLW", (fun a b => u32 b <? 32, fun a b => u64 (i32 (Z.shiftr (u32 a) (b mod 32)))));
  ("SRAW", (fun a b => u32 b <? 32, fun a b => u64 (Z.shiftr (i32 a) (b mod 32))));
  ("MULW", (fun a b => fitsS 32 (i32 a * i32 b), fun a b => u64 (i32 (a * b))));
  ("DIV", (always, fun a b => u64 (if i64 b =? 0 then -1 else Z.quot (i64 a) (i64 b))));
  ("DIVU", (always, fun a b => if b =? 0 then 2 ^ 64 - 1 else a / b));
  ("REM", (always, fun a b => u64 (if i64 b =? 0 then i64 a else Z.rem (i64 a) (i64 b))));
  ("REMU", (always, fun a b => if b =? 0 then a else a mod b));
  ("DIVW", (always, fun a b => u64 (i32 (if i32 b =? 0 then -1 else Z.quot (i32 a) (i32 b)))));
  ("DIVUW", (always, fun a b => u64 (i32 (if u32 b =? 0 then 2 ^ 32 - 1 else u32 a / u32 b))));
  ("REMW", (always, fun a b => u64 (i32 (if i32 b =? 0 then i32 a else Z.rem (i32 a) (i32 b)))));
  ("REMUW", (always, fun a b => u64 (i32 (if u32 b =? 0 then u32 a else u32 a mod u32 b))))].

(** The register-immediate instructions, on the register and the sign-extended immediate; the 6-bit and 5-bit
    shift amounts are the low bits of the immediate. *)
Definition ri : list (string * ((Z -> Z -> bool) * (Z -> Z -> Z))) := [
  ("ADDI", (fun a i => fitsS 64 (i64 a + i), fun a i => u64 (a + i)));
  ("SLTI", (always, fun a i => if i64 a <? i then 1 else 0));
  ("SLTIU", (always, fun a i => if a <? u64 i then 1 else 0));
  ("XORI", (always, fun a i => Z.lxor a (u64 i)));
  ("ORI", (always, fun a i => Z.lor a (u64 i)));
  ("ANDI", (always, fun a i => Z.land a (u64 i)));
  ("SLLI", (always, fun a i => u64 (Z.shiftl a (i mod 64))));
  ("SRLI", (always, fun a i => Z.shiftr a (i mod 64)));
  ("SRAI", (always, fun a i => u64 (Z.shiftr (i64 a) (i mod 64))));
  ("ADDIW", (fun a i => fitsS 32 (i32 a + i), fun a i => u64 (i32 (a + i))));
  ("SLLIW", (always, fun a i => u64 (i32 (Z.shiftl a (i mod 32)))));
  ("SRLIW", (always, fun a i => u64 (i32 (Z.shiftr (u32 a) (i mod 32)))));
  ("SRAIW", (always, fun a i => u64 (Z.shiftr (i32 a) (i mod 32))))].

(** The outcome [o] of an instruction that writes [v] to [rd] when [d] holds and is undefined when it does not. *)
Definition writes (h : Hart) (mem : list Z) (w : Z) (d : bool) (v : Z) (o : outcome (Hart * list Z)) : Prop :=
  match o with
  | Done (h', mem') => d = true /\ mem' = mem /\ effect h h' (rd w) v (u64 (pc h + 4))
  | Failed e => d = false /\ exists s, e = Undefined s
  end.

(** ** Arithmetic of the register contents *)

Lemma wrapU_addS w a b : 1 <= w -> wrapU w (wrapS w a + wrapS w b) = wrapU w (a + b).
Proof.
  intros. rewrite <- wrapU_add_l, <- wrapU_add_r, !wrapU_wrapS by done. by rewrite wrapU_add_l, wrapU_add_r.
Qed.
Lemma wrapU_subS w a b : 1 <= w -> wrapU w (wrapS w a - wrapS w b) = wrapU w (a - b).
Proof.
  intros. rewrite <- wrapU_sub_l, <- wrapU_sub_r, !wrapU_wrapS by done. by rewrite wrapU_sub_l, wrapU_sub_r.
Qed.
Lemma wrapU_mulS w a b : 1 <= w -> wrapU w (wrapS w a * wrapS w b) = wrapU w (a * b).
Proof.
  intros. unfold wrapU at 1. rewrite Z.mul_mod by (pose proof (pow2_pos w); lia).
  fold (wrapU w (wrapS w a)) (wrapU w (wrapS w b)). rewrite !wrapU_wrapS by done.
  unfold wrapU. rewrite <- Z.mul_mod; [done|]. pose proof (pow2_pos w); lia.
Qed.

(** Narrowing twice is narrowing once. *)
Lemma wrapU_narrow v w z : 0 <= w <= v -> wrapU w (wrapU v z) = wrapU w z.
Proof.
  intros [? ?]. apply Z.bits_inj'. intros k Hk. rewrite !testbit_wrapU by lia.
  destruct (Z.ltb_spec k w); cbn [andb]; [|done]. by rewrite (proj2 (Z.ltb_lt k v)) by lia.
Qed.
Lemma wrapU_narrowS v w z : 1 <= w <= v -> wrapU w (wrapS v z) = wrapU w z.
Proof. intros. by rewrite <- (wrapU_narrow v w (wrapS v z)), wrapU_wrapS, wrapU_narrow by lia. Qed.
Lemma wrapS_narrowS v w z : 1 <= w <= v -> wrapS w (wrapS v z) = wrapS w z.
Proof. intros. apply wrapS_eqU; [lia|]. by apply wrapU_narrowS. Qed.
Lemma wrapS_narrowU v w z : 1 <= w <= v -> wrapS w (wrapU v z) = wrapS w z.
Proof. intros. apply wrapS_eqU; [lia|]. apply wrapU_narrow; lia. Qed.

Lemma wrapU_shiftl w a n : 0 <= w -> 0 <= n -> wrapU w (Z.shiftl (wrapU w a) n) = wrapU w (Z.shiftl a n).
Proof.
  intros. apply Z.bits_inj'. intros k Hk. rewrite !testbit_wrapU, !Z.shiftl_spec, testbit_wrapU by lia.
  destruct (Z.ltb_spec k w); cbn [andb]; [|done]. destruct (Z.ltb_spec (k - n) w); [done|lia].
Qed.

(** A value below the width is its own reduction. *)
Lemma small_mod b n : 0 <= b < n -> b mod n = b.
Proof. apply Z.mod_small. Qed.
Lemma mod_u32 b : u32 b < 32 -> b mod 32 = u32 b.
Proof.
  intros H. rewrite <- (Z.mod_small (u32 b) 32).
  - unfold wrapU. change (2 ^ 32) with (32 * 2 ^ 27). rewrite Z.rem_mul_r by lia.
    rewrite Z.mul_comm, Z.mod_add by lia. by rewrite Z.mod_mod by lia.
  - split; [|done]. apply wrapU_range. lia.
Qed.

Lemma b2z_u64 b : u64 (b2z b) = if b then 1 else 0.
Proof. by destruct b. Qed.

Lemma i64_zero b : inU 64 b -> (i64 b =? 0) = (b =? 0).
Proof.
  intros H. destruct (Z.eqb_spec b 0) as [->|N]; [done|]. apply Z.eqb_neq. intros E.
  apply N. rewrite <- (wrapU_id 64 b), <- (wrapU_wrapS 64 b), E by (done || lia). done.
Qed.

Lemma inU_div w a b : inU w a -> 0 <= b -> b <> 0 -> inU w (a / b).
Proof.
  intros [? ?] ? ?. split; [apply Z.div_pos; lia|].
  apply Z.le_lt_trans with a; [|done]. apply Z.div_le_upper_bound; nia.
Qed.
Lemma inU_mod w a b : inU w b -> b <> 0 -> inU w (a mod b).
Proof. intros [? ?] ?. pose proof (Z.mod_pos_bound a b). unfold inU. lia. Qed.

Lemma abs_rem_le a b : b <> 0 -> Z.abs (Z.rem a b) <= Z.abs a.
Proof. intros Hb. rewrite <- Z.rem_abs by done. apply Z.rem_le; lia. Qed.

(** The quotient of signed values overflows only for the least value by -1. *)
Lemma inS_quot w a b : 1 <= w -> inS w a -> b <> 0 -> ~ (a = - 2 ^ (w - 1) /\ b = -1) -> inS w (Z.quot a b).
Proof.
  intros Hw [? ?] Hb N. pose proof (pow2_pos (w - 1) ltac:(lia)) as P.
  unfold inS. generalize dependent (2 ^ (w - 1)). intros p ? ? N P.
  destruct (decide (b = -1)) as [->|]; [change (-1) with (- (1)); rewrite Z.quot_opp_r, Z.quot_1_r by lia; lia|].
  destruct (decide (b = 1)) as [->|]; [rewrite Z.quot_1_r; lia|].
  assert (B : 2 * Z.abs (Z.quot a b) <= Z.abs a); [|lia].
  rewrite <- Z.quot_abs by done. pose proof (Z.mul_quot_le (Z.abs a) (Z.abs b)).
  pose proof (Z.quot_pos (Z.abs a) (Z.abs b)). nia.
Qed.
Lemma inS_rem w a b : 1 <= w -> inS w a -> b <> 0 -> inS w (Z.rem a b).
Proof.
  intros Hw [? ?] Hb. pose proof (Z.rem_sign_mul a b Hb). pose proof (pow2_pos (w - 1) ltac:(lia)).
  pose proof (abs_rem_le a b Hb). unfold inS. nia.
Qed.

(** ** 128-bit integers

    What the multiplications rely on from Boost: exact products, the low word and the arithmetic shift of a
    128-bit value, and conversions that keep a value the target type can hold. *)

Record Int128_ok (B : Int128) : Prop := {
  mul_ss_ok a b : inS 64 a -> inS 64 b -> mul_ss B a b = a * b;
  mul_uu_ok a b : inU 64 a -> inU 64 b -> mul_uu B a b = a * b;
  mul_su_ok a b : inS 64 a -> inU 64 b -> mul_su B a b = a * b;
  and_u64max_ok v : inS 128 v -> and_u64max B v = v mod 2 ^ 64;
  shr64_ok v : - 2 ^ 127 <= v < 2 ^ 128 -> shr64 B v = v / 2 ^ 64;
  to_i64_ok v : inS 64 v -> to_i64 B v = v;
  to_u64_ok v : inU 64 v -> to_u64 B v = v }.

(** Integers with these operations, the narrowing conversions saturating. *)
Definition exact128 : Int128 :=
  mkInt128 Z.mul Z.mul Z.mul (fun v => v mod 2 ^ 64) (fun v => v / 2 ^ 64)
    (fun v => Z.max (- 2 ^ 63) (Z.min v (2 ^ 63 - 1))) (fun v => v mod 2 ^ 64).

Lemma exact128_ok : Int128_ok exact128.
Proof.
  split; intros; try done; cbn [exact128 to_i64 to_u64].
  - unfold inS in *. change (64 - 1) with 63 in *. lia.
  - by apply (wrapU_id 64).
Qed.

(** ** The shared shape of the visits *)

Section Shapes.
Context (h : Hart) (mem : list Z) (w : Z) (Hh : hart_ok h).

Definition finish (v : Z) : outcome Hart := Done (add_pc (set_x h (rd w) v) 4).

(** [writes] for a visit on the hart alone. *)
Definition writesH (d : bool) (v : Z) (o : outcome Hart) : Prop :=
  writes h mem w d v (let! hart := o in Done (hart, mem)).

Lemma writes_done v v' : u64 v = v' -> writesH true v' (finish v).
Proof using Hh. intros <-. split_and!; [done..|]. by apply effect_set, rd_range. Qed.

Lemma writes_signed n z f v' : (fitsS n z = true -> u64 (f z) = v') ->
  writesH (fitsS n z) v' (bindo (signed n z) (fun v => finish (f v))).
Proof using Hh.
  intros H. unfold signed. destruct (fitsS n z); cbn [bindo]; [by apply writes_done, H|]. split; [done|by eexists].
Qed.

Lemma writes_shift n amount v v' : ((amount <? n) = true -> u64 v = v') ->
  writesH (amount <? n) v' (bindo (shift_ok n amount) (fun _ => finish v)).
Proof using Hh.
  intros H. unfold shift_ok, guard_or. destruct (amount <? n); cbn [bindo]; [by apply writes_done, H|].
  split; [done|by eexists].
Qed.
End Shapes.

(** Run through the entries of a table. *)
Ltac each H := repeat (apply elem_of_cons in H as [H|H]; [injection H as -> -> ->|]); [..|by apply elem_of_nil in H].

(** The overrider a mnemonic dispatches to, applied. *)
Ltac visit_of :=
  match goal with |- writes ?h ?mem ?w ?d ?v (visit ?B ?m _ _) =>
    let o := eval lazy [overrider visitors List.find fst snd String.eqb Ascii.eqb Bool.eqb option_map] in
      (overrider (visitors B) m) in
    match o with Some ?V =>
      let V' := eval red in V in change (writesH h mem w d v (V' h w)); cbv beta zeta end end.

(** Conversions to 32 bits of a 64-bit signed register. *)
Ltac narrow := rewrite ?sx_x, ?(wrapS_narrowS 64 32), ?(wrapU_narrowS 64 32) by lia.

Lemma rr_correct B m d f h mem w : (m, (d, f)) ∈ rr -> hart_ok h ->
  let a := x h (rs1 w) in let b := x h (rs2 w) in
  writes h mem w (d a b) (f a b) (visit B m (h, mem) w).
Proof.
  intros H Hh a b. pose proof (x_range h (rs1 w) Hh : inU 64 a) as Ha. pose proof (x_range h (rs2 w) Hh : inU 64 b) as Hb.
  each H; cbv beta.
  all: visit_of; narrow; fold a b.
  all: try (apply (writes_signed h mem w Hh _ _ (fun v => v)); intros Hd; cbv beta).
  all: try (apply (writes_shift h mem w Hh); intros Hd).
  all: try (apply (writes_done h mem w Hh)).
  - apply wrapU_addS; lia.
  - apply wrapU_subS; lia.
  - apply Z.ltb_lt in Hd. unfold shlU. by rewrite wrapU_idemp, small_mod by (unfold inU in *; lia).
  - apply b2z_u64.
  - apply b2z_u64.
  - by apply wrapU_id, inU_lxor.
  - apply Z.ltb_lt in Hd. unfold inU in *. rewrite small_mod, wrapU_id by (try apply inU_shiftr; unfold inU; lia). done.
  - apply Z.ltb_lt in Hd. by rewrite small_mod by (unfold inU in *; lia).
  - by apply wrapU_id, inU_lor.
  - apply wrapU_id, inU_land; [lia|apply Hb|done].
  - rewrite <- (wrapS_id 32 (i32 a + i32 b)) by (lia || by apply fitsS_spec). f_equal. apply wrapS_eqU, wrapU_addS; lia.
  - rewrite <- (wrapS_id 32 (i32 a - i32 b)) by (lia || by apply fitsS_spec). f_equal. apply wrapS_eqU, wrapU_subS; lia.
  - apply Z.ltb_lt in Hd. rewrite mod_u32 by done. f_equal. apply wrapS_eqU; [lia|].
    pose proof (wrapU_range 32 b ltac:(lia)) as [? _]. unfold shlU. rewrite wrapU_idemp, wrapU_shiftl by lia. done.
  - apply Z.ltb_lt in Hd. by rewrite mod_u32 by done.
  - rewrite wrapU_wrapS by lia. apply (writes_shift h mem w Hh). intros Hd%Z.ltb_lt. rewrite mod_u32 by done.
    rewrite <- (wrapS_wrapU 32 b), (wrapS_id 32 (u32 b)); [done|lia| |lia].
    pose proof (wrapU_range 32 b ltac:(lia)) as [? _]. unfold inS. lia.
  - rewrite <- (wrapS_id 32 (i32 a * i32 b)) by (lia || by apply fitsS_spec). f_equal. apply wrapS_eqU, wrapU_mulS; lia.
  - rewrite !i64_zero by done. destruct (b =? 0); [by apply writes_done|].
    destruct ((i64 a =? - 2 ^ 63) && (i64 b =? -1)) eqn:E; [|by apply writes_done].
    apply andb_true_iff in E as [->%Z.eqb_eq ->%Z.eqb_eq]. by apply writes_done.
  - destruct (Z.eqb_spec b 0); apply writes_done; try done. apply wrapU_id, inU_div; [done|apply Hb|done].
  - rewrite !i64_zero by done. destruct (b =? 0); [by apply writes_done|].
    destruct ((i64 a =? - 2 ^ 63) && (i64 b =? -1)) eqn:E; [|by apply writes_done].
    apply andb_true_iff in E as [->%Z.eqb_eq ->%Z.eqb_eq]. by apply writes_done.
  - destruct (Z.eqb_spec b 0); apply writes_done; try done; apply wrapU_id; by try apply inU_mod.
  - destruct (Z.eqb_spec (i32 b) 0) as [|Nb]; [by apply writes_done|].
    destruct ((i32 a =? - 2 ^ 31) && (i32 b =? -1)) eqn:E.
    + apply andb_true_iff in E as [->%Z.eqb_eq ->%Z.eqb_eq]. by apply writes_done.
    + apply writes_done; [done|]. rewrite (wrapS_id 32 (Z.quot _ _)); [done|lia|]. apply inS_quot; [lia|apply wrapS_range; lia|done|].
      intros [E1 E2]. rewrite E1, E2 in E. done.
  - destruct (u32 b =? 0); by apply writes_done.
  - destruct (Z.eqb_spec (i32 b) 0) as [|Nb].
    { apply writes_done; [done|]. rewrite (wrapS_id 32 (i32 a)); [done|lia|]. apply wrapS_range; lia. }
    destruct ((i32 a =? - 2 ^ 31) && (i32 b =? -1)) eqn:E.
    + apply andb_true_iff in E as [->%Z.eqb_eq ->%Z.eqb_eq]. by apply writes_done.
    + apply writes_done; [done|]. rewrite (wrapS_id 32 (Z.rem _ _)); [done|lia|]. by apply inS_rem; [lia|apply wrapS_range; lia|].
  - destruct (u32 b =? 0); by apply writes_done.
Qed.

(** The register-register instructions of RV64I and the divisions and word multiplication of RV64M.  On a
    well-formed hart each does exactly what the manual says, to [rd], the pc and nothing else, when the C++
    code is defined, and is undefined exactly when a signed sum overflows or an unreduced shift amount reaches the
    width. *)
Theorem visit_rr B m d f h mem w : (m, (d, f)) ∈ rr -> hart_ok h ->
  let a := x h (rs1 w) in let b := x h (rs2 w) in
  writes h mem w (d a b) (f a b) (visit B m (h, mem) w).
Proof. apply rr_correct. Qed.

(** [srl a0, a1, a2] on 2^63 and 3. *)
Lemma visit_rr_witness :
  let h := set_x (set_x (RISCVHart 0) 11 (2 ^ 63)) 12 3 in
  let w := encodeR 0x33 10 5 11 12 0 in
  writes h MyInterpreter w true (2 ^ 60) (visit exact128 "SRL" (h, MyInterpreter) w).
Proof.
  intros h w. replace true with (x h (rs2 w) <? 64) by (vm_compute; reflexivity).
  replace (2 ^ 60) with (Z.shiftr (x h (rs1 w)) (x h (rs2 w) mod 64)) by (vm_compute; reflexivity).
  apply (visit_rr exact128 "SRL" (fun a b => b <? 64) (fun a b => Z.shiftr a (b mod 64))).
  - apply (list_elem_of_lookup_2 _ 6). reflexivity.
  - apply set_x_ok, set_x_ok, start_ok.
Defined.

(** ** Immediates *)

Lemma SIimm_range w : inS 12 (SIimm w).
Proof.
  pose proof (wrapS_range 32 w ltac:(lia)) as [? ?]. unfold SIimm, inS in *. cbv zeta.
  rewrite Z.shiftr_div_pow2 by lia. change (32 - 1) with (11 + 20) in *. rewrite Z.pow_add_r in * by lia.
  split; [apply Z.div_le_lower_bound; lia | apply Z.div_lt_upper_bound; lia].
Qed.

Lemma shamt6_imm w : shamt6 w = SIimm w mod 64.
Proof.
  change 64 with (2 ^ 6). apply Z.bits_inj'. intros k Hk. unfold shamt6. change 0x3F with (Z.ones 6).
  fold (wrapU 6 (SIimm w)). unfold shrU. rewrite testbit_wrapU, SIimm_bit, Z.land_spec, testbit_ones by lia.
  destruct (Z.ltb_spec k 6); rewrite ?andb_false_r; [|done].
  rewrite (proj2 (Z.ltb_lt k 11)), (proj2 (Z.leb_le 0 k)), Z.shiftr_spec by lia. cbn [andb]. by rewrite andb_true_r.
Qed.
Lemma shamt5_imm w : shamt5 w = SIimm w mod 32.
Proof.
  change 32 with (2 ^ 5). apply Z.bits_inj'. intros k Hk. unfold shamt5, shamt. change 0x1F with (Z.ones 5).
  fold (wrapU 5 (SIimm w)). unfold shrU. rewrite testbit_wrapU, SIimm_bit, Z.land_spec, testbit_ones by lia.
  destruct (Z.ltb_spec k 5); rewrite ?andb_false_r; [|done].
  rewrite (proj2 (Z.ltb_lt k 11)), (proj2 (Z.leb_le 0 k)), Z.shiftr_spec by lia. cbn [andb]. by rewrite andb_true_r.
Qed.

Lemma writes_shamt h mem w n amount v v' : hart_ok h -> amount < n -> u64 v = v' ->
  writesH h mem w true v' (bindo (shift_ok n amount) (fun _ => finish h w v)).
Proof.
  intros Hh Hn Hv. rewrite <- (proj2 (Z.ltb_lt amount n)) by done. by apply writes_shift.
Qed.

Lemma ri_correct B m d f h mem w : (m, (d, f)) ∈ ri -> hart_ok h ->
  let a := x h (rs1 w) in
  writes h mem w (d a (SIimm w)) (f a (SIimm w)) (visit B m (h, mem) w).
Proof.
  intros H Hh a. pose proof (x_range h (rs1 w) Hh : inU 64 a) as Ha.
  pose proof (SIimm_range w) as Hi. pose proof (Z.mod_pos_bound (SIimm w) 64 ltac:(lia)) as H6.
  pose proof (Z.mod_pos_bound (SIimm w) 32 ltac:(lia)) as H5.
  each H; visit_of; narrow; rewrite ?shamt6_imm, ?shamt5_imm; fold a; set (i := SIimm w) in *.
  all: try (apply (writes_signed h mem w Hh _ _ (fun v => v)); intros Hd; cbv beta).
  all: try (apply (writes_shamt h mem w); [done|lia|]).
  all: try (apply (writes_done h mem w Hh)).
  - by rewrite <- wrapU_add_l, wrapU_wrapS, wrapU_add_l by lia.
  - apply b2z_u64.
  - apply b2z_u64.
  - apply wrapU_id, inU_lxor; [lia|done|]. by apply wrapU_range.
  - apply wrapU_id, inU_lor; [lia|done|]. by apply wrapU_range.
  - apply wrapU_id, inU_land; [lia| |done]. by apply wrapU_range.
  - unfold shlU. by rewrite wrapU_idemp by lia.
  - apply wrapU_id, inU_shiftr; [lia|lia|done].
  - done.
  - rewrite <- (wrapS_id 32 (i32 a + i)) by (lia || by apply fitsS_spec). f_equal. apply wrapS_eqU; [lia|].
    by rewrite <- wrapU_add_l, wrapU_wrapS, wrapU_add_l by lia.
  - unfold shlU. f_equal. rewrite wrapS_wrapU by lia. apply wrapS_eqU; [lia|]. apply wrapU_shiftl; lia.
  - done.
  - done.
Qed.

(** The register-immediate instructions.  On a well-formed hart each does what the manual says with the
    sign-extended immediate of the word; only a signed overflow of ADDI or ADDIW is undefined. *)
Theorem visit_ri B m d f h mem w : (m, (d, f)) ∈ ri -> hart_ok h ->
  let a := x h (rs1 w) in
  writes h mem w (d a (SIimm w)) (f a (SIimm w)) (visit B m (h, mem) w).
Proof. apply ri_correct. Qed.

(** [addi t0, t0, -1] on 0. *)
Lemma visit_ri_witness :
  let h := RISCVHart 0 in let w := encodeI 0x13 5 0 5 (-1) in
  writes h MyInterpreter w true (2 ^ 64 - 1) (visit exact128 "ADDI" (h, MyInterpreter) w).
Proof.
  intros h w. replace true with (fitsS 64 (i64 (x h (rs1 w)) + SIimm w)) by (vm_compute; reflexivity).
  replace (2 ^ 64 - 1) with (u64 (x h (rs1 w) + SIimm w)) by (vm_compute; reflexivity).
  apply (visit_ri exact128 "ADDI" (fun a i => fitsS 64 (i64 a + i)) (fun a i => u64 (a + i))).
  - apply (list_elem_of_lookup_2 _ 0). reflexivity.
  - apply start_ok.
Defined.

(** ** Multiplication *)

Lemma mulS_range a b : inS 64 a -> inS 64 b -> - 2 ^ 126 <= a * b <= 2 ^ 126.
Proof. unfold inS. change (64 - 1) with 63. intros. nia. Qed.

Lemma high_word v : - 2 ^ 127 <= v < 2 ^ 127 -> inS 64 (v / 2 ^ 64).
Proof.
  intros. unfold inS. change (64 - 1) with 63.
  split; [apply Z.div_le_lower_bound; lia|apply Z.div_lt_upper_bound; lia].
Qed.

Lemma mul_correct B h mem w : Int128_ok B -> hart_ok h ->
  let a := x h (rs1 w) in let b := x h (rs2 w) in
  writes h mem w true (u64 (i64 a * i64 b / 2 ^ 64)) (visit B "MULH" (h, mem) w) /\
  writes h mem w true (a * b / 2 ^ 64) (visit B "MULHU" (h, mem) w) /\
  writes h mem w true (u64 (i64 a * b / 2 ^ 64)) (visit B "MULHSU" (h, mem) w) /\
  (u64 (a * b) < 2 ^ 63 -> writes h mem w true (u64 (a * b)) (visit B "MUL" (h, mem) w)).
Proof.
  intros HB Hh a b. pose proof (x_range h (rs1 w) Hh : inU 64 a) as Ha. pose proof (x_range h (rs2 w) Hh : inU 64 b) as Hb.
  pose proof (wrapS_range 64 a ltac:(lia)) as Sa. pose proof (wrapS_range 64 b ltac:(lia)) as Sb.
  pose proof (mulS_range _ _ Sa Sb) as Hss. unfold inU, inS in *. change (64 - 1) with 63 in *.
  split_and!; [| | |intros Hlow]; visit_of; rewrite ?sx_x; fold a b; apply (writes_done h mem w Hh).
  - rewrite (mul_ss_ok B HB), (shr64_ok B HB), (to_i64_ok B HB) by (apply high_word || unfold inS; change (64 - 1) with 63; lia).
    done.
  - rewrite (mul_uu_ok B HB) by done.
    assert (0 <= a * b < 2 ^ 64 * 2 ^ 64) by nia.
    assert (inU 64 (a * b / 2 ^ 64)).
    { split; [apply Z.div_pos; lia|apply Z.div_lt_upper_bound; lia]. }
    rewrite (shr64_ok B HB), (to_u64_ok B HB) by (lia || done). by apply wrapU_id.
  - rewrite (mul_su_ok B HB) by done.
    assert (- 2 ^ 127 <= i64 a * b < 2 ^ 127) by nia.
    by rewrite (shr64_ok B HB), (to_i64_ok B HB) by (apply high_word || idtac; lia).
  - rewrite (mul_ss_ok B HB), (and_u64max_ok B HB) by (unfold inS; change (128 - 1) with 127; lia || done).
    pose proof (wrapU_mulS 64 a b ltac:(lia)) as E. unfold wrapU at 1 in E. rewrite E, (to_i64_ok B HB).
    + by apply wrapU_idemp.
    + pose proof (wrapU_range 64 (a * b) ltac:(lia)) as [? _]. unfold inS. change (64 - 1) with 63. lia.
Qed.

(** The multiplications.  With Boost's integers behaving as documented, MULH, MULHU and MULHSU write the
    manual's high word; MUL writes the low word whenever that word is below 2^63, where the conversion to
    [int64_t] is exact. *)
Theorem visit_mul B h mem w : Int128_ok B -> hart_ok h ->
  let a := x h (rs1 w) in let b := x h (rs2 w) in
  writes h mem w true (u64 (i64 a * i64 b / 2 ^ 64)) (visit B "MULH" (h, mem) w) /\
  writes h mem w true (a * b / 2 ^ 64) (visit B "MULHU" (h, mem) w) /\
  writes h mem w true (u64 (i64 a * b / 2 ^ 64)) (visit B "MULHSU" (h, mem) w) /\
  (u64 (a * b) < 2 ^ 63 -> writes h mem w true (u64 (a * b)) (visit B "MUL" (h, mem) w)).
Proof. apply mul_correct. Qed.

(** [mulhu a0, a1, a2] on 2^63 and 6. *)
Lemma visit_mul_witness :
  let h := set_x (set_x (RISCVHart 0) 11 (2 ^ 63)) 12 6 in
  let w := encodeR 0x33 10 3 11 12 1 in
  writes h MyInterpreter w true 3 (visit exact128 "MULHU" (h, MyInterpreter) w).
Proof.
  intros h w. replace 3 with (x h (rs1 w) * x h (rs2 w) / 2 ^ 64) by (vm_compute; reflexivity).
  destruct (visit_mul exact128 h MyInterpreter w exact128_ok) as (_ & H & _); [|exact H].
  apply set_x_ok, set_x_ok, start_ok.
Defined.

(** ** Control flow *)

(** The manual's branch conditions. *)
Definition branches : list (string * (Z -> Z -> bool)) := [
  ("BEQ", fun a b => a =? b); ("BNE", fun a b => negb (a =? b));
  ("BLT", fun a b => i64 a <? i64 b); ("BGE", fun a b => negb (i64 a <? i64 b));
  ("BLTU", fun a b => a <? b); ("BGEU", fun a b => negb (a <? b))].

(** The instruction completes, writing [v] to [r] and going to [target]. *)
Definition goes (h : Hart) (mem : list Z) (r v target : Z) (o : outcome (Hart * list Z)) : Prop :=
  exists h', o = Done (h', mem) /\ effect h h' r v target.

Lemma goes_set h mem r v t : hart_ok h -> inU 5 r ->
  goes h mem r (u64 v) (u64 (pc h + t)) (Done (add_pc (set_x h r v) t, mem)).
Proof.
  intros Hh Hr. eexists. split; [done|].
  replace (u64 (pc h + t)) with (u64 (pc (set_x h r v) + u64 t)) by
    (rewrite wrapU_add_r; unfold set_x, handle_set; by destruct (r =? 0)).
  by apply effect_set_pc.
Qed.

Lemma goes_branch h mem t : hart_ok h -> goes h mem 0 0 (u64 (pc h + t)) (Done (add_pc h t, mem)).
Proof.
  intros Hh. eexists. split; [done|]. rewrite <- wrapU_add_r. by apply effect_pc.
Qed.

Ltac goes_of :=
  match goal with |- goes _ _ _ _ _ (visit ?B ?m (?h, ?mem) ?w) =>
    let o := eval lazy [overrider visitors List.find fst snd String.eqb Ascii.eqb Bool.eqb option_map] in
      (overrider (visitors B) m) in
    match o with Some ?V =>
      let V' := eval red in V in change (visit B m (h, mem) w) with (let! hart := V' h w in Done (hart, mem));
      cbv beta zeta; cbn [bindo] end end.

Lemma control_correct B h mem w : hart_ok h ->
  let a := x h (rs1 w) in let b := x h (rs2 w) in
  (forall (m : string) (t : Z -> Z -> bool), (m, t) ∈ branches ->
     goes h mem 0 0 (u64 (pc h + if t a b then Bimm w else 4)) (visit B m (h, mem) w)) /\
  goes h mem (rd w) (u64 (pc h + 4)) (u64 (pc h + Jimm w)) (visit B "JAL" (h, mem) w) /\
  (let manual := Z.land (u64 (a + SIimm w)) (Z.lnot 1) in
   exists target, goes h mem (rd w) (u64 (pc h + 4)) target (visit B "JALR" (h, mem) w) /\
     (target = manual <-> Z.even (a + SIimm w) = true)) /\
  goes h mem (rd w) (u64 (SUimm w)) (u64 (pc h + 4)) (visit B "LUI" (h, mem) w) /\
  goes h mem (rd w) (u64 (pc h + SUimm w)) (u64 (pc h + 4)) (visit B "AUIPC" (h, mem) w).
Proof.
  intros Hh a b. split_and!.
  - intros m t H.
    repeat (apply elem_of_cons in H as [H|H]; [injection H as -> ->|]); [..|by apply elem_of_nil in H];
      goes_of; rewrite ?sx_x; fold a b.
    all: rewrite ?Z.leb_antisym; case_match; by apply goes_branch.
  - goes_of. apply goes_set; [done|apply rd_range].
  - exists (u64 (a + SIimm w)). split.
    + goes_of. fold a. eexists. split; [done|].
      pose proof (effect_set_pc h (rd w) (pc h + 4) (u64 (a + u64 (SIimm w))) Hh (rd_range w)) as E.
      rewrite wrapU_idemp in E by lia. by rewrite wrapU_add_r in E |- *.
    + set (t := a + SIimm w). rewrite <- Z.negb_odd, <- Z.bit0_odd, negb_true_iff.
      rewrite <- (andb_true_l (Z.testbit t 0)). change true with (0 <? 64). rewrite <- testbit_wrapU by lia.
      split; intros E.
      * rewrite E. by rewrite Z.land_spec, andb_false_r.
      * apply Z.bits_inj'. intros k Hk. rewrite Z.land_spec, Z.lnot_spec by lia.
        destruct (decide (k = 0)) as [->|]; [by rewrite E|]. change 1 with (Z.ones 1). rewrite testbit_ones by lia.
        rewrite (proj2 (Z.ltb_ge k 1)) by lia. by rewrite andb_false_r, andb_true_r.
  - goes_of. apply goes_set; [done|apply rd_range].
  - goes_of. apply goes_set; [done|apply rd_range].
Qed.

(** Control flow.  A branch goes to the pc plus its offset exactly when the manual's condition holds, and to the
    next instruction otherwise; JAL and JALR link the next instruction; LUI and AUIPC write their immediate and
    the pc plus it.  JALR goes to the bare sum, so it agrees with the manual, which clears bit 0, exactly when the
    sum is even. *)
Theorem visit_control B h mem w : hart_ok h ->
  let a := x h (rs1 w) in let b := x h (rs2 w) in
  (forall (m : string) (t : Z -> Z -> bool), (m, t) ∈ branches ->
     goes h mem 0 0 (u64 (pc h + if t a b then Bimm w else 4)) (visit B m (h, mem) w)) /\
  goes h mem (rd w) (u64 (pc h + 4)) (u64 (pc h + Jimm w)) (visit B "JAL" (h, mem) w) /\
  (let manual := Z.land (u64 (a + SIimm w)) (Z.lnot 1) in
   exists target, goes h mem (rd w) (u64 (pc h + 4)) target (visit B "JALR" (h, mem) w) /\
     (target = manual <-> Z.even (a + SIimm w) = true)) /\
  goes h mem (rd w) (u64 (SUimm w)) (u64 (pc h + 4)) (visit B "LUI" (h, mem) w) /\
  goes h mem (rd w) (u64 (pc h + SUimm w)) (u64 (pc h + 4)) (visit B "AUIPC" (h, mem) w).
Proof. apply control_correct. Qed.

(** [blt a0, a1, -8] with -1 and 0 branches back. *)
Lemma visit_control_witness :
  let h := set_x (set_pc (RISCVHart 0) 0x1000) 10 (2 ^ 64 - 1) in
  let w := encodeB 0x63 4 10 11 (-8) in
  goes h MyInterpreter 0 0 0xFF8 (visit exact128 "BLT" (h, MyInterpreter) w).
Proof.
  intros h w. destruct (visit_control exact128 h MyInterpreter w) as [H _].
  - apply set_x_ok, set_pc_ok, start_ok.
  - specialize (H "BLT" (fun a b => i64 a <? i64 b)).
    replace 0xFF8 with (u64 (pc h + if i64 (x h (rs1 w)) <? i64 (x h (rs2 w)) then Bimm w else 4)) by
      (vm_compute; reflexivity).
    apply H. apply (list_elem_of_lookup_2 _ 2). reflexivity.
Defined.

(** ** Loads and stores *)

(** The manual's loads, on the little-endian value of the bytes: sign-extended, or as it is. *)
Definition loads : list (string * (nat * (Z -> Z))) := [
  ("LB", (1%nat, fun v => u64 (i8 v))); ("LH", (2%nat, fun v => u64 (i16 v))); ("LW", (4%nat, fun v => u64 (i32 v)));
  ("LBU", (1%nat, fun v => v)); ("LHU", (2%nat, fun v => v)); ("LWU", (4%nat, fun v => v)); ("LD", (8%nat, fun v => v))].
Definition stores : list (string * nat) := [("SB", 1%nat); ("SH", 2%nat); ("SW", 4%nat); ("SD", 8%nat)].

(** The [n] bytes at address [at_]. *)
Definition bytes_at (mem : list Z) (at_ : Z) (n : nat) : list Z := take n (drop (Z.to_nat at_) mem).
Definition inside (mem : list Z) (at_ : Z) (n : nat) : bool := at_ + Z.of_nat n <=? Z.of_nat (length mem).

(** [mem'] is [mem] with the [n] bytes at [at_] replaced by those of [v]. *)
Definition stored (mem : list Z) (at_ : Z) (n : nat) (v : Z) (mem' : list Z) : Prop :=
  mem_ok mem' /\ length mem' = length mem /\
  forall j : nat, mem' !! j = if (at_ <=? Z.of_nat j) && (Z.of_nat j <? at_ + Z.of_nat n)
                  then Some (v / 256 ^ (Z.of_nat j - at_) mod 256) else mem !! j.

Definition stores_to (h : Hart) (mem : list Z) (at_ : Z) (n : nat) (v : Z) (o : outcome (Hart * list Z)) : Prop :=
  match o with
  | Done (h', mem') => inside mem at_ n = true /\ effect h h' 0 0 (u64 (pc h + 4)) /\ stored mem at_ n v mem'
  | Failed e => inside mem at_ n = false /\ exists s, e = Undefined s
  end.

Lemma bytes_at_range mem at_ n : Forall (inU 8) mem -> inside mem at_ n = true -> 0 <= at_ ->
  inU (8 * Z.of_nat n) (unbytes (bytes_at mem at_ n)).
Proof.
  intros F H%Z.leb_le ?. assert (L : length (bytes_at mem at_ n) = n).
  { unfold bytes_at. rewrite length_take, length_drop. lia. }
  rewrite <- L at 1. apply unbytes_range, Forall_take, Forall_drop, F.
Qed.

Lemma load_with_spec n conv f h mem w : hart_ok h -> Forall (inU 8) mem ->
  (forall v, inU (8 * Z.of_nat n) v -> u64 (conv v) = f v) ->
  let at_ := u64 (x h (rs1 w) + SIimm w) in
  writes h mem w (inside mem at_ n) (f (unbytes (bytes_at mem at_ n))) (load_with n conv mem h w).
Proof.
  intros Hh Hm Hf at_. unfold load_with, visitLoad, in_mem. cbv zeta. rewrite wrapU_add_r. fold at_.
  fold (inside mem at_ n) (bytes_at mem at_ n). pose proof (wrapU_range 64 (x h (rs1 w) + SIimm w) ltac:(lia)) as [? _].
  destruct (inside mem at_ n) eqn:E; cbn [guard_or bindo].
  - rewrite <- Hf by (apply bytes_at_range; done). split_and!; [done..|]. by apply effect_set, rd_range.
  - split; [done|by eexists].
Qed.

Lemma stored_inserts mem at_ n v : mem_ok mem -> inside mem at_ n = true -> 0 <= at_ ->
  stored mem at_ n v (list_inserts (Z.to_nat at_) (bytes n v) mem).
Proof.
  intros (L & F) H%Z.leb_le ?. pose proof (bytes_length n v) as Lb. split_and!.
  - split; [by rewrite length_inserts|]. by apply Forall_list_inserts, F; apply bytes_byte.
  - apply length_inserts.
  - intros j. destruct (Z.leb_spec at_ (Z.of_nat j)), (Z.ltb_spec (Z.of_nat j) (at_ + Z.of_nat n)); cbn [andb].
    + rewrite list_lookup_inserts by lia. rewrite bytes_lookup by lia. do 4 f_equal. lia.
    + apply list_lookup_inserts_ge. lia.
    + apply list_lookup_inserts_lt. lia.
    + apply list_lookup_inserts_lt. lia.
Qed.

Lemma store_with_spec n h mem w : hart_ok h -> mem_ok mem ->
  let at_ := u64 (x h (rs1 w) + Simm w) in
  stores_to h mem at_ n (x h (rs2 w)) (store_with n mem h w).
Proof.
  intros Hh Hm at_. unfold store_with, visitStore, in_mem. cbv zeta. rewrite wrapU_add_r. fold at_.
  fold (inside mem at_ n). pose proof (wrapU_range 64 (x h (rs1 w) + Simm w) ltac:(lia)) as [? _].
  destruct (inside mem at_ n) eqn:E; cbn [guard_or bindo].
  - split_and!; [done| |by apply stored_inserts]. unfold add_pc. rewrite <- wrapU_add_r. by apply effect_pc.
  - split; [done|by eexists].
Qed.

Ltac mem_visit_of :=
  match goal with |- context [visit ?B ?m (?h, ?mem) ?w] =>
    let o := eval lazy [overrider mem_visitors List.find fst snd String.eqb Ascii.eqb Bool.eqb option_map] in
      (overrider mem_visitors m) in
    match o with Some ?V => let V' := eval red in V in change (visit B m (h, mem) w) with (V' mem h w); cbv beta end end.

Lemma memory_correct B h mem w : hart_ok h -> mem_ok mem ->
  (forall m n f, (m, (n, f)) ∈ loads -> let at_ := u64 (x h (rs1 w) + SIimm w) in
     writes h mem w (inside mem at_ n) (f (unbytes (bytes_at mem at_ n))) (visit B m (h, mem) w)) /\
  (forall m n, (m, n) ∈ stores -> let at_ := u64 (x h (rs1 w) + Simm w) in
     stores_to h mem at_ n (x h (rs2 w)) (visit B m (h, mem) w)).
Proof.
  intros Hh Hm. split.
  - intros m n f H at_. each H; mem_visit_of.
    all: match goal with
      | |- writes _ _ _ _ (u64 (?c _)) (load_with ?n ?c _ _ _) => apply (load_with_spec n c (fun v => u64 (c v)))
      | |- writes _ _ _ _ _ (load_with ?n ?c _ _ _) => apply (load_with_spec n c (fun v => v))
      end.
    all: try exact Hh; try apply Hm; try done.
    all: intros v Hv; rewrite ?(wrapU_id _ v) by done; first [done | apply wrapU_id; eapply inU_mono; [|exact Hv]; lia].
  - intros m n H at_.
    repeat (apply elem_of_cons in H as [H|H]; [injection H as -> ->|]); [..|by apply elem_of_nil in H];
      mem_visit_of; by apply store_with_spec.
Qed.

(** Loads and stores.  The address is the 64-bit sum of the base register and the offset.  Inside the memory a
    load writes the bytes there, little-endian and extended as the manual says, and a store replaces exactly its
    bytes by those of the register; an access that leaves the memory is undefined. *)
Theorem visit_memory B h mem w : hart_ok h -> mem_ok mem ->
  (forall m n f, (m, (n, f)) ∈ loads -> let at_ := u64 (x h (rs1 w) + SIimm w) in
     writes h mem w (inside mem at_ n) (f (unbytes (bytes_at mem at_ n))) (visit B m (h, mem) w)) /\
  (forall m n, (m, n) ∈ stores -> let at_ := u64 (x h (rs1 w) + Simm w) in
     stores_to h mem at_ n (x h (rs2 w)) (visit B m (h, mem) w)).
Proof. apply memory_correct. Qed.

(** [sw a0, 4(sp)] after which the memory holds the word, and [lh a1, 6(sp)] that reads its upper half. *)
Lemma visit_memory_witness :
  let h := set_x (RISCVHart 0) 10 0x8001ABCD in
  let mem := list_inserts 4 (bytes 4 0x8001ABCD) MyInterpreter in
  stores_to h MyInterpreter 4 4 0x8001ABCD (visit exact128 "SW" (h, MyInterpreter) (encodeS 0x23 2 2 10 4)) /\
  writes h mem (encodeI 0x03 11 1 2 6) true (2 ^ 64 - 2 ^ 15 + 1) (visit exact128 "LH" (h, mem) (encodeI 0x03 11 1 2 6)).
Proof.
  intros h mem. assert (Hh : hart_ok h) by apply set_x_ok, start_ok.
  assert (Hm : mem_ok MyInterpreter).
  { split; [done|]. apply Forall_forall. intros v Hv%list_elem_of_In%repeat_spec. by subst. }
  assert (Hm' : mem_ok mem) by exact (proj1 (stored_inserts MyInterpreter 4 4 0x8001ABCD Hm eq_refl ltac:(lia))).
  split.
  - destruct (visit_memory exact128 h MyInterpreter (encodeS 0x23 2 2 10 4) Hh Hm) as [_ S].
    apply (S "SW" 4%nat). apply (list_elem_of_lookup_2 _ 2). reflexivity.
  - destruct (visit_memory exact128 h mem (encodeI 0x03 11 1 2 6) Hh Hm') as [L _].
    apply (L "LH" 2%nat (fun v => u64 (i16 v))). apply (list_elem_of_lookup_2 _ 1). reflexivity.
Defined.

(** ** Running *)

(** The manual's multiplications. *)
Definition muls : list (string * (Z -> Z -> Z)) := [
  ("MUL", fun a b => u64 (a * b)); ("MULH", fun a b => u64 (i64 a * i64 b / 2 ^ 64));
  ("MULHU", fun a b => a * b / 2 ^ 64); ("MULHSU", fun a b => u64 (i64 a * b / 2 ^ 64))].

(** The manual: what the instruction [m] with word [w] does to the hart and the memory. *)
Inductive manual (w : Z) : string -> Hart * list Z -> Hart * list Z -> Prop :=
| manual_rr m d f h mem h' : (m, (d, f)) ∈ rr ->
    effect h h' (rd w) (f (x h (rs1 w)) (x h (rs2 w))) (u64 (pc h + 4)) -> manual w m (h, mem) (h', mem)
| manual_ri m d f h mem h' : (m, (d, f)) ∈ ri ->
    effect h h' (rd w) (f (x h (rs1 w)) (SIimm w)) (u64 (pc h + 4)) -> manual w m (h, mem) (h', mem)
| manual_mul m f h mem h' : (m, f) ∈ muls ->
    effect h h' (rd w) (f (x h (rs1 w)) (x h (rs2 w))) (u64 (pc h + 4)) -> manual w m (h, mem) (h', mem)
| manual_branch m (t : Z -> Z -> bool) h mem h' : (m, t) ∈ branches ->
    effect h h' 0 0 (u64 (pc h + if t (x h (rs1 w)) (x h (rs2 w)) then Bimm w else 4)) -> manual w m (h, mem) (h', mem)
| manual_jal h mem h' : effect h h' (rd w) (u64 (pc h + 4)) (u64 (pc h + Jimm w)) -> manual w "JAL" (h, mem) (h', mem)
| manual_jalr h mem h' :
    effect h h' (rd w) (u64 (pc h + 4)) (Z.land (u64 (x h (rs1 w) + SIimm w)) (Z.lnot 1)) ->
    manual w "JALR" (h, mem) (h', mem)
| manual_lui h mem h' : effect h h' (rd w) (u64 (SUimm w)) (u64 (pc h + 4)) -> manual w "LUI" (h, mem) (h', mem)
| manual_auipc h mem h' :
    effect h h' (rd w) (u64 (pc h + SUimm w)) (u64 (pc h + 4)) -> manual w "AUIPC" (h, mem) (h', mem)
| manual_load m n f h mem h' : (m, (n, f)) ∈ loads ->
    effect h h' (rd w) (f (unbytes (bytes_at mem (u64 (x h (rs1 w) + SIimm w)) n))) (u64 (pc h + 4)) ->
    manual w m (h, mem) (h', mem)
| manual_store m n h mem h' mem' : (m, n) ∈ stores -> effect h h' 0 0 (u64 (pc h + 4)) ->
    stored mem (u64 (x h (rs1 w) + Simm w)) n (x h (rs2 w)) mem' -> manual w m (h, mem) (h', mem').

(** The two places where the interpreter and the manual may part without a failure: an odd JALR target, and a
    low product word that [int64_t] cannot hold. *)
Definition regular (w : Z) (m : string) (h : Hart) : Prop :=
  (m = "JALR" -> Z.even (x h (rs1 w) + SIimm w) = true) /\
  (m = "MUL" -> u64 (x h (rs1 w) * x h (rs2 w)) < 2 ^ 63).

Lemma effect_ok h h' r v t : effect h h' r v t -> hart_ok h'.
Proof. by intros [? _]. Qed.

Lemma manual_ok w m s s' : manual w m s s' -> mem_ok (snd s) -> state_ok s'.
Proof.
  intros H Hm. destruct H; cbn [snd] in Hm; (split; [eapply effect_ok; eassumption|]); try exact Hm.
  match goal with H : stored _ _ _ _ _ |- _ => apply H end.
Qed.

Lemma overrider_elem {A} (t : list (string * A)) m v : overrider t m = Some v -> (m, v) ∈ t.
Proof.
  unfold overrider. destruct (List.find _ t) as [[m' v']|] eqn:F; [|discriminate]. intros [= <-].
  apply find_some in F as [Hin E%String.eqb_eq]. cbn in E. subst m'. by apply list_elem_of_In.
Qed.
Lemma overrider_In {A} (t : list (string * A)) m v : overrider t m = Some v -> m ∈ map fst t.
Proof. intros H%overrider_elem. apply list_elem_of_In, in_map_iff. exists (m, v). split; [done|]. by apply list_elem_of_In. Qed.

Lemma in_table {A} (t : list (string * A)) m : m ∈ map fst t -> exists v, (m, v) ∈ t.
Proof.
  intros ([m' v] & E & Hin)%list_elem_of_In%in_map_iff. cbn in E. subst m'. exists v. by apply list_elem_of_In.
Qed.

(** Every instruction the interpreter implements is in one of the manual's tables. *)
Definition tabled : list string :=
  map fst rr ++ map fst ri ++ map fst muls ++ map fst branches ++ ["JAL"; "JALR"; "LUI"; "AUIPC"].
Definition mem_tabled : list string := map fst loads ++ map fst stores.

Lemma sublist_check (l k : list string) m : forallb (fun m => existsb (String.eqb m) k) l = true -> m ∈ l -> m ∈ k.
Proof.
  intros C Hin%list_elem_of_In. apply (proj1 (forallb_forall _ _) C) in Hin.
  apply existsb_exists in Hin as (m' & Hin & ->%String.eqb_eq). by apply list_elem_of_In.
Qed.

Lemma visit_implemented B m s w s' : visit B m s w = Done s' -> m ∈ tabled \/ m ∈ mem_tabled.
Proof.
  destruct s as [h mem]. unfold visit. destruct (overrider (visitors B) m) as [v|] eqn:V.
  - intros _. left. apply overrider_In in V. revert V. apply sublist_check. vm_compute. reflexivity.
  - destruct (overrider mem_visitors m) as [v|] eqn:V'; [|discriminate].
    intros _. right. apply overrider_In in V'. revert V'. apply sublist_check. vm_compute. reflexivity.
Qed.

Lemma goes_Done h mem r v t h' mem' : goes h mem r v t (Done (h', mem')) -> mem' = mem /\ effect h h' r v t.
Proof. intros (h1 & [= -> ->] & ?). done. Qed.

(** One visit that completes is the manual's step. *)
Lemma visit_manual B m h mem w s' : Int128_ok B -> hart_ok h -> mem_ok mem -> regular w m h ->
  visit B m (h, mem) w = Done s' -> manual w m (h, mem) s'.
Proof.
  intros HB Hh Hm [RJ RM] E. destruct s' as [h' mem'].
  destruct (control_correct B h mem w Hh) as (Cb & Cjal & (t & Cjalr & Ct) & Clui & Cauipc).
  destruct (mul_correct B h mem w HB Hh) as (M1 & M2 & M3 & M4).
  destruct (memory_correct B h mem w Hh Hm) as [Ld St].
  destruct (visit_implemented _ _ _ _ _ E) as [T|T].
  - unfold tabled in T. rewrite !elem_of_app in T. destruct T as [T|[T|[T|[T|T]]]].
    + apply in_table in T as [[d f] T]. pose proof (rr_correct B m d f h mem w T Hh) as W. rewrite E in W.
      destruct W as (_ & -> & ?). by eapply manual_rr.
    + apply in_table in T as [[d f] T]. pose proof (ri_correct B m d f h mem w T Hh) as W. rewrite E in W.
      destruct W as (_ & -> & ?). by eapply manual_ri.
    + assert (W : exists f, (m, f) ∈ muls /\
        writes h mem w true (f (x h (rs1 w)) (x h (rs2 w))) (visit B m (h, mem) w)).
      { apply in_table in T as [f T]. exists f. split; [done|].
        repeat (apply elem_of_cons in T as [T|T]; [injection T as -> ->|]); [..|by apply elem_of_nil in T]; auto. }
      destruct W as (f & T' & W). rewrite E in W. destruct W as (_ & -> & ?). by eapply manual_mul.
    + apply in_table in T as [c T]. specialize (Cb m c T). rewrite E in Cb. apply goes_Done in Cb as [-> ?].
      by eapply manual_branch.
    + repeat (apply elem_of_cons in T as [->|T]); [..|by apply elem_of_nil in T].
      * rewrite E in Cjal. apply goes_Done in Cjal as [-> ?]. by constructor.
      * rewrite E in Cjalr. apply goes_Done in Cjalr as [-> ?]. constructor. by rewrite <- (proj2 Ct (RJ eq_refl)).
      * rewrite E in Clui. apply goes_Done in Clui as [-> ?]. by constructor.
      * rewrite E in Cauipc. apply goes_Done in Cauipc as [-> ?]. by constructor.
  - unfold mem_tabled in T. rewrite !elem_of_app in T. destruct T as [T|T].
    + apply in_table in T as [[n f] T]. specialize (Ld m n f T). rewrite E in Ld. destruct Ld as (_ & -> & ?).
      by eapply manual_load.
    + apply in_table in T as [n T]. specialize (St m n T). rewrite E in St. destruct St as (_ & ? & ?).
      by eapply manual_store.
Qed.


(** Whether C++ gives the instruction a meaning: it is implemented, its signed sum and its shift amount fit, its
    access is inside the memory. *)
Definition defined (w : Z) (m : string) (s : Hart * list Z) : bool :=
  let '(h, mem) := s in let a := x h (rs1 w) in let b := x h (rs2 w) in
  match overrider rr m, overrider ri m, overrider loads m, overrider stores m with
  | Some (d, _), _, _, _ => d a b
  | _, Some (d, _), _, _ => d a (SIimm w)
  | _, _, Some (n, _), _ => inside mem (u64 (a + SIimm w)) n
  | _, _, _, Some n => inside mem (u64 (a + Simm w)) n
  | _, _, _, _ => existsb (String.eqb m) (map fst muls ++ map fst branches ++ ["JAL"; "JALR"; "LUI"; "AUIPC"])
  end.

Lemma writes_Done h mem w d v o : writes h mem w d v o -> d = true -> exists s', o = Done s'.
Proof. destruct o as [s'|e]; [by exists s'|]. by intros [-> _]. Qed.

(** A defined instruction completes. *)
Lemma visit_defined B m h mem w : Int128_ok B -> hart_ok h -> mem_ok mem -> regular w m h ->
  defined w m (h, mem) = true -> exists s', visit B m (h, mem) w = Done s'.
Proof.
  intros HB Hh Hm [_ RM]. destruct (memory_correct B h mem w Hh Hm) as [Ld St]. unfold defined.
  destruct (overrider rr m) as [[d f]|] eqn:E1.
  { apply overrider_elem in E1. by apply writes_Done with (1 := rr_correct B m d f h mem w E1 Hh). }
  destruct (overrider ri m) as [[d f]|] eqn:E2.
  { apply overrider_elem in E2. by apply writes_Done with (1 := ri_correct B m d f h mem w E2 Hh). }
  destruct (overrider loads m) as [[n f]|] eqn:E3.
  { apply overrider_elem in E3. by apply writes_Done with (1 := Ld m n f E3). }
  destruct (overrider stores m) as [n|] eqn:E4.
  { apply overrider_elem in E4. specialize (St m n E4). intros D. destruct (visit B m (h, mem) w); [by eexists|].
    destruct St as [N _]. cbv zeta in N. congruence. }
  clear Ld St. intros (m' & T & ->%String.eqb_eq)%existsb_exists. apply list_elem_of_In in T. rewrite !elem_of_app in T.
  destruct (control_correct B h mem w Hh) as (Cb & Cjal & (t & Cjalr & _) & Clui & Cauipc).
  destruct (mul_correct B h mem w HB Hh) as (M1 & M2 & M3 & M4). destruct T as [T|[T|T]].
  - repeat (apply elem_of_cons in T as [->|T]); [..|by apply elem_of_nil in T]; by (eapply writes_Done; [eauto|]).
  - apply in_table in T as [c T]. destruct (Cb m' c T) as (h' & -> & _). by eexists.
  - repeat (apply elem_of_cons in T as [->|T]); [..|by apply elem_of_nil in T].
    + destruct Cjal as (h' & -> & _). by eexists.
    + destruct Cjalr as (h' & -> & _). by eexists.
    + destruct Clui as (h' & -> & _). by eexists.
    + destruct Cauipc as (h' & -> & _). by eexists.
Qed.

(** One turn of the machine as the manual sees it: the word at the pc is an instruction, and it is executed. *)
Definition turn (read : Z -> outcome Z) (s s' : Hart * list Z) : Prop :=
  exists w m, read (pc (fst s)) = Done w /\ Decoder.decode w = Done m /\ manual w m s s'.

(** The machine is about to execute an instruction that can be fetched, is defined and is regular. *)
Definition ready (read : Z -> outcome Z) (s : Hart * list Z) : Prop :=
  exists w m, read (pc (fst s)) = Done w /\ Decoder.decode w = Done m /\ defined w m s = true /\ regular w m (fst s).

Lemma round_turn B read s : Int128_ok B -> state_ok s -> ready read s ->
  exists s', round B read s = Done s' /\ state_ok s' /\ turn read s s'.
Proof.
  intros HB [Hh Hm] (w & m & Ew & Em & D & R). destruct s as [h mem].
  destruct (visit_defined B m h mem w HB Hh Hm R D) as [s' E]. exists s'.
  pose proof (visit_manual B m h mem w s' HB Hh Hm R E) as M. split_and!.
  - unfold round. rewrite Ew. cbn [bindo]. by rewrite Em.
  - by eapply manual_ok.
  - by exists w, m.
Qed.

(** C5: the interpreter refines the manual.  From a well-formed state the main loop completes any number of rounds, and
    they are that number of turns of the manual's machine and end in a well-formed state, provided every
    instruction it comes to can be fetched and decoded, is defined in C++ (no signed overflow, no over-long shift, no access
    outside the memory), and is not an odd-target JALR or a MUL whose low word is not an [int64_t]. *)
Theorem rounds_refines B n read s : Int128_ok B -> state_ok s ->
  (forall k sk, (k < n)%nat -> rounds B k read s = Done sk -> ready read sk) ->
  exists s', rounds B n read s = Done s' /\ state_ok s' /\ nsteps (turn read) n s s'.
Proof.
  intros HB. revert s. induction n as [|n IH]; intros s Hs R; cbn [rounds].
  - exists s. split; [done|]. split; [done|constructor].
  - destruct (round_turn B read s HB Hs (R 0%nat s ltac:(lia) eq_refl)) as (s1 & E1 & Hs1 & T). rewrite E1. cbn [bindo].
    destruct (IH s1 Hs1) as (s' & E' & Hs' & N).
    + intros k sk Hk Ek. apply (R (S k) sk ltac:(lia)). cbn [rounds]. by rewrite E1.
    + exists s'. split_and!; [done..|]. by econstructor.
Qed.

(** *** Well-formed states stay well-formed *)

Lemma add_pc_ok h v : hart_ok h -> hart_ok (add_pc h v).
Proof. apply set_pc_ok. Qed.
(** A visitor that completes leaves a well-formed hart. *)
Definition safe (o : outcome Hart) : Prop := forall h, o = Done h -> hart_ok h.
Lemma safe_Done h : hart_ok h -> safe (Done h).
Proof. by intros H ? [= <-]. Qed.
Lemma safe_Failed e : safe (Failed e).
Proof. by intros ?. Qed.
Lemma safe_bind {A} (o : outcome A) f : (forall v, safe (f v)) -> safe (bindo o f).
Proof. intros H h (v & _ & E)%bindo_Done. by apply (H v). Qed.
Lemma safe_if (b : bool) o o' : safe o -> safe o' -> safe (if b then o else o').
Proof. by destruct b. Qed.
Lemma if_ok (b : bool) h h' : hart_ok h -> hart_ok h' -> hart_ok (if b then h else h').
Proof. by destruct b. Qed.
Create HintDb hart.
#[export] Hint Resolve set_pc_ok add_pc_ok set_x_ok if_ok safe_Done safe_Failed safe_bind safe_if : hart.

(** The instructions on the hart alone write registers and the pc in no other way. *)
Lemma visitors_ok B : Forall (fun e => forall h w, hart_ok h -> safe (snd e h w)) (visitors B).
Proof.
  unfold visitors. repeat (apply Forall_cons; split); [..|by apply Forall_nil].
  all: intros h w H; cbn [snd].
  all: lazymatch goal with |- safe (?f _ _ _) => unfold f | |- safe (?f _ _) => unfold f end.
  all: cbv zeta; auto 12 with hart.
Qed.

Lemma load_with_ok n conv mem h w s : hart_ok h -> mem_ok mem -> load_with n conv mem h w = Done s -> state_ok s.
Proof. intros H M (v & _ & [= <-])%bindo_Done. split; cbn [fst snd]; [auto with hart|done]. Qed.
Lemma store_with_ok n mem h w s : hart_ok h -> mem_ok mem -> store_with n mem h w = Done s -> state_ok s.
Proof.
  intros H [L F] (mem' & (u & _ & [= <-])%bindo_Done & [= <-])%bindo_Done. split; cbn [fst snd]; [auto with hart|].
  split; [by rewrite length_inserts|]. by apply Forall_list_inserts, F; apply bytes_byte.
Qed.
Lemma mem_visitors_ok : Forall (fun e => forall mem h w s, hart_ok h -> mem_ok mem -> snd e mem h w = Done s -> state_ok s) mem_visitors.
Proof.
  unfold mem_visitors. repeat (apply Forall_cons; split); [..|by apply Forall_nil].
  all: intros mem h w s H M; cbn [snd]; first [by apply load_with_ok|by apply store_with_ok].
Qed.

Lemma round_ok B read s s' : state_ok s -> round B read s = Done s' -> state_ok s'.
Proof.
  destruct s as [h mem]. intros [Hh Hm]. unfold round. intros (w & _ & (m & _ & E)%bindo_Done)%bindo_Done. cbn [visit fst snd] in *.
  destruct (overrider (visitors B) m) as [v|] eqn:O.
  - apply overrider_elem in O. apply bindo_Done in E as (h' & E & [= <-]). split; [|exact Hm].
    pose proof (visitors_ok B) as F. rewrite Forall_forall in F. by apply (F _ O h w Hh).
  - destruct (overrider mem_visitors m) as [v|] eqn:O'; [|done]. apply overrider_elem in O'.
    pose proof mem_visitors_ok as F. rewrite Forall_forall in F. by apply (F _ O' mem h w s' Hh Hm).
Qed.

(** C34: whatever the program and the 128-bit arithmetic of the host, a state with 32 registers of 64 bits, a 64-bit pc and 4096 bytes of memory stays
    one as long as the main loop goes on; register 0 reads as 0 throughout. *)
Theorem rounds_well_formed B n read s s' : state_ok s -> rounds B n read s = Done s' ->
  state_ok s' /\ x (fst s') 0 = 0 /\ forall r, inU 64 (x (fst s') r).
Proof.
  intros H E. assert (H' : state_ok s'); [|split; [done|]; split; [done|]; intros r; apply x_range, H'].
  revert s H E. induction n as [|n IH]; intros s H E; cbn [rounds] in E; [by injection E as <-|]. outcome_inv.
  eapply IH; [by eapply round_ok|done].
Qed.

(** Two instructions, [addi t0, x0, 5] and [jal x0, -4]. *)
Definition example_code (addr : Z) : outcome Z :=
  if addr =? 0 then Done (encodeI 0x13 5 0 0 5) else if addr =? 4 then Done (encodeJ 0x6f 0 (-4))
  else Failed (Aborted "no text phdr for addr").

Lemma rounds_refines_witness :
  exists s', rounds exact128 2 example_code (RISCVHart 0, MyInterpreter) = Done s' /\ state_ok s' /\
    nsteps (turn example_code) 2 (RISCVHart 0, MyInterpreter) s'.
Proof.
  apply (rounds_refines exact128 2 example_code (RISCVHart 0, MyInterpreter)).
  - apply exact128_ok.
  - split; [apply start_ok|]. split; [done|]. apply Forall_forall. intros v Hv%list_elem_of_In%repeat_spec. by subst.
  - intros [|[|k]] sk Hk; [| |lia]; cbn [rounds].
    + intros [= <-]. exists (encodeI 0x13 5 0 0 5), "ADDI". split_and!; [by vm_compute..|]. split; discriminate.
    + destruct (round exact128 example_code (RISCVHart 0, MyInterpreter)) as [[h mem]|] eqn:E; cbn [bindo]; [|discriminate].
      intros [= <-]. exists (encodeJ 0x6f 0 (-4)), "JAL". apply bindo_Done in E as (w & [= <-] & E).
      apply bindo_Done in E as (m & Em & E). vm_compute in Em. injection Em as <-. vm_compute in E. injection E as <- <-.
      split_and!; [by vm_compute..|]. split; discriminate.
Defined.

Lemma rounds_well_formed_witness : exists s', rounds exact128 2 example_code (RISCVHart 0, MyInterpreter) = Done s' /\ state_ok s'.
Proof.
  destruct (rounds exact128 2 example_code (RISCVHart 0, MyInterpreter)) as [s'|e] eqn:E; [|vm_compute in E; discriminate].
  exists s'. split; [reflexivity|]. refine (proj1 (rounds_well_formed exact128 2 example_code (RISCVHart 0, MyInterpreter) s' _ E)).
  split; [apply start_ok|]. split; [reflexivity|]. apply Forall_forall. intros v Hv%list_elem_of_In%repeat_spec. by subst.
Defined.

(** What is stored is what is loaded.  After a store of [n] bytes has completed, a load of [n] bytes from the
    same address, by whatever hart and base register, completes and writes the stored value, truncated to the
    [n] bytes and extended the way the load does. *)
Theorem store_load B ms ml n f h h1 h2 mem mem1 w w2 :
  (ms, n) ∈ stores -> (ml, (n, f)) ∈ loads -> hart_ok h -> hart_ok h2 -> mem_ok mem ->
  visit B ms (h, mem) w = Done (h1, mem1) ->
  u64 (x h2 (rs1 w2) + SIimm w2) = u64 (x h (rs1 w) + Simm w) ->
  writes h2 mem1 w2 true (f (wrapU (8 * Z.of_nat n) (x h (rs2 w)))) (visit B ml (h2, mem1) w2).
Proof.
  intros Hs Hl Hh Hh2 Hm E Ea.
  destruct (memory_correct B h mem w Hh Hm) as [_ S]. specialize (S ms n Hs). cbv zeta in S. rewrite E in S.
  destruct S as (In & _ & Hst). pose proof Hst as (Hm1 & L & _).
  destruct (memory_correct B h2 mem1 w2 Hh2 Hm1) as [W _]. specialize (W ml n f Hl). cbv zeta in W.
  rewrite Ea in W. set (at_ := u64 (x h (rs1 w) + Simm w)) in *.
  pose proof (wrapU_range 64 (x h (rs1 w) + Simm w) ltac:(lia) : inU 64 at_) as [Ha _].
  assert (In1 : inside mem1 at_ n = true) by (unfold inside in *; by rewrite L). rewrite In1 in W.
  enough (B' : bytes_at mem1 at_ n = bytes n (x h (rs2 w))) by (by rewrite B', unbytes_bytes in W).
  apply list_eq. intros j. unfold bytes_at. apply Z.leb_le in In1. destruct Hst as (_ & _ & Hj).
  destruct (decide (j < n)%nat).
  - rewrite lookup_take_lt, lookup_drop, Hj, bytes_lookup by lia.
    rewrite (proj2 (Z.leb_le _ _)), (proj2 (Z.ltb_lt _ _)) by lia. cbn [andb]. do 4 f_equal. lia.
  - rewrite lookup_take_ge by lia. symmetry. apply lookup_ge_None_2. rewrite bytes_length. lia.
Qed.

(** [sb a0, 8(x0)] then [lb a1, 8(x0)], with 0xFF in [a0]: the loaded byte is -1. *)
Lemma store_load_witness :
  let h := set_x (RISCVHart 0) 10 0x1FF in
  exists h1 mem1, visit exact128 "SB" (h, MyInterpreter) (encodeS 0x23 0 0 10 8) = Done (h1, mem1) /\
    writes h mem1 (encodeI 0x03 11 0 0 8) true (2 ^ 64 - 1) (visit exact128 "LB" (h, mem1) (encodeI 0x03 11 0 0 8)).
Proof.
  intros h. assert (Hh : hart_ok h) by apply set_x_ok, start_ok.
  destruct (visit exact128 "SB" (h, MyInterpreter) (encodeS 0x23 0 0 10 8)) as [[h1 mem1]|e] eqn:E;
    [|vm_compute in E; discriminate E].
  exists h1, mem1. split; [done|].
  apply (store_load exact128 "SB" "LB" 1 (fun v => u64 (i8 v)) h h1 h MyInterpreter mem1 (encodeS 0x23 0 0 10 8)).
  - apply (list_elem_of_lookup_2 _ 0). reflexivity.
  - apply (list_elem_of_lookup_2 _ 0). reflexivity.
  - done.
  - done.
  - split; [done|]. apply Forall_forall. intros v Hv%list_elem_of_In%repeat_spec. by subst.
  - exact E.
  - vm_compute. reflexivity.
Defined.
End Semantics.
