(* ===== verification/DrvAddressMap.v ===== *)
(** * The simulator's address map

    [pando-drv/api/DrvAPIAddressMap.hpp] and [.cpp]: software (virtual) addresses, physical addresses, the
    translation between them, and the globalisation of local scratchpad addresses. *)

From S2P Require Import Prelude.

Module DrvMap.

(** ** Bit ranges *)

(** src/pando-drv/api/DrvAPIAddressMap.hpp:17-39 [bitrange_handle] over 64-bit words *)
Record bitrange := Bits { hi : Z; lo : Z }.
Definition bits (r : bitrange) : Z := hi r - lo r + 1.
(** src/pando-drv/api/DrvAPIAddressMap.hpp:41-44 [mask] *)
Definition mask (r : bitrange) : Z := shlU 64 (shlU 64 1 (hi r - lo r + 1) - 1) (lo r).
(** src/pando-drv/api/DrvAPIAddressMap.hpp:46-49 [getbits] *)
Definition getbits (r : bitrange) (in_ : Z) : Z := shrU (Z.land in_ (mask r)) (lo r).
(** src/pando-drv/api/DrvAPIAddressMap.hpp:51-55 [setbits] *)
Definition setbits (r : bitrange) (in_ val : Z) : Z :=
  let in_ := Z.land in_ (notU 64 (mask r)) in Z.lor in_ (Z.land (mask r) (shlU 64 val (lo r))).
(** src/pando-drv/api/DrvAPIAddressMap.hpp:57-57 [operator UINT] *)
Definition get (r : bitrange) (addr : Z) : Z := getbits r addr.
(** src/pando-drv/api/DrvAPIAddressMap.hpp:59-62 [operator=] *)
Definition set (r : bitrange) (val addr : Z) : Z := setbits r addr val.
(** A [bool] assigned to a handle, and a handle read as a [bool]. *)
Definition flag (b : bool) : Z := if b then 1 else 0.
Definition truth (v : Z) : bool := negb (v =? 0).

(** ** Virtual addresses *)

Module VAddress.
(** src/pando-drv/api/DrvAPIAddressMap.hpp:78-78 [CtrlRegisterHandle] *)
Definition CtrlRegisterHandle : bitrange := Bits 63 63.
(** src/pando-drv/api/DrvAPIAddressMap.hpp:79-79 [NotScratchpadHandle] *)
Definition NotScratchpadHandle : bitrange := Bits 47 47.
(** src/pando-drv/api/DrvAPIAddressMap.hpp:80-80 [PXNHandle] *)
Definition PXNHandle : bitrange := Bits 46 33.
(** src/pando-drv/api/DrvAPIAddressMap.hpp:81-81 [GlobalHandle] *)
Definition GlobalHandle : bitrange := Bits 32 32.
(** src/pando-drv/api/DrvAPIAddressMap.hpp:82-82 [PodHandle] *)
Definition PodHandle : bitrange := Bits 31 26.
(** src/pando-drv/api/DrvAPIAddressMap.hpp:83-83 [L2NotL1Handle] *)
Definition L2NotL1Handle : bitrange := Bits 25 25.
(** src/pando-drv/api/DrvAPIAddressMap.hpp:84-84 [CoreYHandle] *)
Definition CoreYHandle : bitrange := Bits 22 20.
(** src/pando-drv/api/DrvAPIAddressMap.hpp:85-85 [CoreXHandle] *)
Definition CoreXHandle : bitrange := Bits 19 17.
(** src/pando-drv/api/DrvAPIAddressMap.hpp:86-86 [L1OffsetHandle] *)
Definition L1OffsetHandle : bitrange := Bits 16 0.
(** src/pando-drv/api/DrvAPIAddressMap.hpp:87-87 [L2OffsetHandle] *)
Definition L2OffsetHandle : bitrange := Bits 24 0.
(** src/pando-drv/api/DrvAPIAddressMap.hpp:88-88 [DRAMOffsetHi10Handle] *)
Definition DRAMOffsetHi10Handle : bitrange := Bits 57 48.
(** src/pando-drv/api/DrvAPIAddressMap.hpp:89-89 [DRAMOffsetLo33Handle] *)
Definition DRAMOffsetLo33Handle : bitrange := Bits 32 0.

(** src/pando-drv/api/DrvAPIAddressMap.hpp:147-149 [ctrl_register] *)
Definition ctrl_register (addr : Z) : Z := get CtrlRegisterHandle addr.
(** src/pando-drv/api/DrvAPIAddressMap.hpp:151-153 [pxn] *)
Definition pxn (addr : Z) : Z := get PXNHandle addr.
(** src/pando-drv/api/DrvAPIAddressMap.hpp:155-157 [global] *)
Definition global (addr : Z) : Z := get GlobalHandle addr.
(** src/pando-drv/api/DrvAPIAddressMap.hpp:159-161 [pod] *)
Definition pod (addr : Z) : Z := get PodHandle addr.
(** src/pando-drv/api/DrvAPIAddressMap.hpp:163-165 [l2_not_l1] *)
Definition l2_not_l1 (addr : Z) : Z := get L2NotL1Handle addr.
(** src/pando-drv/api/DrvAPIAddressMap.hpp:167-169 [core_y] *)
Definition core_y (addr : Z) : Z := get CoreYHandle addr.
(** src/pando-drv/api/DrvAPIAddressMap.hpp:171-173 [core_x] *)
Definition core_x (addr : Z) : Z := get CoreXHandle addr.
(** src/pando-drv/api/DrvAPIAddressMap.hpp:175-177 [l1_offset] *)
Definition l1_offset (addr : Z) : Z := get L1OffsetHandle addr.
(** src/pando-drv/api/DrvAPIAddressMap.hpp:179-181 [ctrl_offset] *)
Definition ctrl_offset (addr : Z) : Z := get L1OffsetHandle addr.
(** src/pando-drv/api/DrvAPIAddressMap.hpp:183-185 [l2_offset] *)
Definition l2_offset (addr : Z) : Z := get L2OffsetHandle addr.
(** src/pando-drv/api/DrvAPIAddressMap.hpp:187-189 [not_scratchpad] *)
Definition not_scratchpad (addr : Z) : Z := get NotScratchpadHandle addr.
(** src/pando-drv/api/DrvAPIAddressMap.hpp:191-193 [dram_offset_hi10] *)
Definition dram_offset_hi10 (addr : Z) : Z := get DRAMOffsetHi10Handle addr.
(** src/pando-drv/api/DrvAPIAddressMap.hpp:195-197 [dram_offset_lo33] *)
Definition dram_offset_lo33 (addr : Z) : Z := get DRAMOffsetLo33Handle addr.
(** src/pando-drv/api/DrvAPIAddressMap.hpp:199-201 [dram_offset] *)
Definition dram_offset (addr : Z) : Z := Z.lor (shlU 64 (dram_offset_hi10 addr) 33) (dram_offset_lo33 addr).
(** src/pando-drv/api/DrvAPIAddressMap.hpp:203-205 [is_ctrl_register] *)
Definition is_ctrl_register (addr : Z) : bool := truth (ctrl_register addr).
(** src/pando-drv/api/DrvAPIAddressMap.hpp:207-209 [is_dram] *)
Definition is_dram (addr : Z) : bool := negb (is_ctrl_register addr) && truth (not_scratchpad addr).
(** src/pando-drv/api/DrvAPIAddressMap.hpp:211-213 [is_l2] *)
Definition is_l2 (addr : Z) : bool :=
  negb (is_ctrl_register addr) && negb (is_dram addr) && truth (l2_not_l1 addr).
(** src/pando-drv/api/DrvAPIAddressMap.hpp:215-217 [is_l1] *)
Definition is_l1 (addr : Z) : bool :=
  negb (is_ctrl_register addr) && negb (is_dram addr) && negb (truth (l2_not_l1 addr)).
(** src/pando-drv/api/DrvAPIAddressMap.hpp:97-104 [MyL2Base] *)
Definition MyL2Base : Z :=
  let addr := 0 in
  let addr := set CtrlRegisterHandle (flag false) addr in
  let addr := set L2NotL1Handle (flag true) addr in
  let addr := set GlobalHandle (flag false) addr in
  set NotScratchpadHandle (flag false) addr.
(** src/pando-drv/api/DrvAPIAddressMap.hpp:106-113 [MyL1Base] *)
Definition MyL1Base : Z :=
  let addr := 0 in
  let addr := set CtrlRegisterHandle (flag false) addr in
  let addr := set L2NotL1Handle (flag false) addr in
  let addr := set GlobalHandle (flag false) addr in
  set NotScratchpadHandle (flag false) addr.
(** src/pando-drv/api/DrvAPIAddressMap.hpp:115-124 [MainMemBase] *)
Definition MainMemBase (pxn : Z) : Z :=
  let addr := 0 in
  let addr := set CtrlRegisterHandle (flag false) addr in
  let addr := set NotScratchpadHandle (flag true) addr in
  let addr := set PXNHandle pxn addr in
  let addr := set GlobalHandle (flag false) addr in
  let addr := set DRAMOffsetHi10Handle 0 addr in
  set DRAMOffsetLo33Handle 0 addr.
(** src/pando-drv/api/DrvAPIAddressMap.hpp:126-138 [CoreCtrlBase] *)
Definition CoreCtrlBase (pxn pod core_y core_x : Z) : Z :=
  let addr := 0 in
  let addr := set CtrlRegisterHandle (flag true) addr in
  let addr := set NotScratchpadHandle (flag true) addr in
  let addr := set PXNHandle pxn addr in
  let addr := set GlobalHandle (flag false) addr in
  let addr := set PodHandle pod addr in
  let addr := set CoreYHandle core_y addr in
  set CoreXHandle core_x addr.
End VAddress.

(** ** Physical addresses *)

Module PAddress.
(** src/pando-drv/api/DrvAPIAddressMap.hpp:266-266 [TypeHandle] *)
Definition TypeHandle : bitrange := Bits 63 58.
(** src/pando-drv/api/DrvAPIAddressMap.hpp:271-271 [PXNHandle] *)
Definition PXNHandle : bitrange := Bits 57 44.
(** src/pando-drv/api/DrvAPIAddressMap.hpp:272-272 [PodHandle] *)
Definition PodHandle : bitrange := Bits 39 34.
(** src/pando-drv/api/DrvAPIAddressMap.hpp:273-273 [CoreYHandle] *)
Definition CoreYHandle : bitrange := Bits 30 28.
(** src/pando-drv/api/DrvAPIAddressMap.hpp:274-274 [CoreXHandle] *)
Definition CoreXHandle : bitrange := Bits 24 22.
(** src/pando-drv/api/DrvAPIAddressMap.hpp:275-275 [L1OffsetHandle] *)
Definition L1OffsetHandle : bitrange := Bits 16 0.
(** src/pando-drv/api/DrvAPIAddressMap.hpp:276-276 [L2OffsetHandle] *)
Definition L2OffsetHandle : bitrange := Bits 24 0.
(** src/pando-drv/api/DrvAPIAddressMap.hpp:277-277 [DRAMOffsetHandle] *)
Definition DRAMOffsetHandle : bitrange := Bits 43 0.
(** src/pando-drv/api/DrvAPIAddressMap.hpp:278-278 [CtrlIsCoreHandle] *)
Definition CtrlIsCoreHandle : bitrange := Bits 18 18.
(** src/pando-drv/api/DrvAPIAddressMap.hpp:279-279 [CtrlOffsetHandle] *)
Definition CtrlOffsetHandle : bitrange := Bits 17 0.
(** src/pando-drv/api/DrvAPIAddressMap.hpp:267-267 [TYPE_L1SP] *)
Definition TYPE_L1SP : Z := 0.
(** src/pando-drv/api/DrvAPIAddressMap.hpp:268-268 [TYPE_L2SP] *)
Definition TYPE_L2SP : Z := 1.
(** src/pando-drv/api/DrvAPIAddressMap.hpp:269-269 [TYPE_DRAM] *)
Definition TYPE_DRAM : Z := 4.
(** src/pando-drv/api/DrvAPIAddressMap.hpp:270-270 [TYPE_CTRL] *)
Definition TYPE_CTRL : Z := 8.

(** src/pando-drv/api/DrvAPIAddressMap.hpp:293-295 [type] *)
Definition type_ (addr : Z) : Z := get TypeHandle addr.
(** src/pando-drv/api/DrvAPIAddressMap.hpp:297-299 [pxn] *)
Definition pxn (addr : Z) : Z := get PXNHandle addr.
(** src/pando-drv/api/DrvAPIAddressMap.hpp:301-303 [pod] *)
Definition pod (addr : Z) : Z := get PodHandle addr.
(** src/pando-drv/api/DrvAPIAddressMap.hpp:305-307 [core_y] *)
Definition core_y (addr : Z) : Z := get CoreYHandle addr.
(** src/pando-drv/api/DrvAPIAddressMap.hpp:309-311 [core_x] *)
Definition core_x (addr : Z) : Z := get CoreXHandle addr.
(** src/pando-drv/api/DrvAPIAddressMap.hpp:313-315 [l1_offset] *)
Definition l1_offset (addr : Z) : Z := get L1OffsetHandle addr.
(** src/pando-drv/api/DrvAPIAddressMap.hpp:317-319 [l2_offset] *)
Definition l2_offset (addr : Z) : Z := get L2OffsetHandle addr.
(** src/pando-drv/api/DrvAPIAddressMap.hpp:321-323 [dram_offset] *)
Definition dram_offset (addr : Z) : Z := get DRAMOffsetHandle addr.
(** src/pando-drv/api/DrvAPIAddressMap.hpp:325-327 [ctrl_is_core] *)
Definition ctrl_is_core (addr : Z) : Z := get CtrlIsCoreHandle addr.
(** src/pando-drv/api/DrvAPIAddressMap.hpp:329-331 [ctrl_offset] *)
Definition ctrl_offset (addr : Z) : Z := get CtrlOffsetHandle addr.
End PAddress.

(** ** Translation *)

(** src/pando-drv/api/DrvAPIAddressMap.cpp:13-50 [to_physical] *)
Definition to_physical (addr this_pxn this_pod this_core_y this_core_x : Z) : Z :=
  let ret := 0 in
  if VAddress.is_ctrl_register addr then
    let ret := set PAddress.TypeHandle PAddress.TYPE_CTRL ret in
    let ret := set PAddress.PXNHandle (VAddress.pxn addr) ret in
    let ret := set PAddress.PodHandle (VAddress.pod addr) ret in
    let ret := set PAddress.CoreYHandle (VAddress.core_y addr) ret in
    set PAddress.CoreXHandle (VAddress.core_x addr) ret
  else if truth (VAddress.not_scratchpad addr) then
    let ret := set PAddress.TypeHandle PAddress.TYPE_DRAM ret in
    let ret := set PAddress.PXNHandle (VAddress.pxn addr) ret in
    set PAddress.DRAMOffsetHandle (VAddress.dram_offset addr) ret
  else
    let global := truth (VAddress.global addr) in
    if truth (VAddress.l2_not_l1 addr) then
      let ret := set PAddress.TypeHandle PAddress.TYPE_L2SP ret in
      let ret := set PAddress.PXNHandle (if global then VAddress.pxn addr else this_pxn) ret in
      let ret := set PAddress.PodHandle (if global then VAddress.pod addr else this_pod) ret in
      set PAddress.L2OffsetHandle (VAddress.l2_offset addr) ret
    else
      let ret := set PAddress.TypeHandle PAddress.TYPE_L1SP ret in
      let ret := set PAddress.PXNHandle (if global then VAddress.pxn addr else this_pxn) ret in
      let ret := set PAddress.PodHandle (if global then VAddress.pod addr else this_pod) ret in
      let ret := set PAddress.CoreYHandle (if global then VAddress.core_y addr else this_core_y) ret in
      let ret := set PAddress.CoreXHandle (if global then VAddress.core_x addr else this_core_x) ret in
      set PAddress.L1OffsetHandle (VAddress.l1_offset addr) ret.

(** src/pando-drv/api/DrvAPIAddressMap.hpp:234-254 [toGlobalAddress] *)
Definition toGlobalAddress (local pxn pod core_y core_x : Z) : outcome Z :=
  let vaddr := local in
  if truth (VAddress.not_scratchpad vaddr) then Done local
  else if truth (VAddress.global vaddr) then Done local
  else if VAddress.is_l2 vaddr then
    let vaddr := set VAddress.PXNHandle pxn vaddr in
    let vaddr := set VAddress.PodHandle pod vaddr in
    Done (set VAddress.GlobalHandle (flag true) vaddr)
  else if VAddress.is_l1 vaddr then
    let vaddr := set VAddress.PXNHandle pxn vaddr in
    let vaddr := set VAddress.PodHandle pod vaddr in
    let vaddr := set VAddress.GlobalHandle (flag true) vaddr in
    let vaddr := set VAddress.CoreYHandle core_y vaddr in
    Done (set VAddress.CoreXHandle core_x vaddr)
  else Failed (Aborted "toGlobalAddress: Unknown address type").

(** src/pando-drv/api/DrvAPIInfo.hpp:37-39 [coreXFromId] *)
Definition coreXFromId (core : Z) : Z := Z.land core 7.
(** src/pando-drv/api/DrvAPIInfo.hpp:44-46 [coreYFromId] *)
Definition coreYFromId (core : Z) : Z := Z.land (Z.shiftr core 3) 7.
(** src/pando-drv/api/DrvAPIAddressMap.hpp:256-258 [toGlobalAddress] of a core id, which passes through an [int] *)
Definition toGlobalAddress_core (local pxn pod core : Z) : outcome Z :=
  toGlobalAddress local pxn pod (u32 (coreYFromId (i32 core))) (u32 (coreXFromId (i32 core))).

(** ** Fields *)

Definition valid (r : bitrange) : bool := (0 <=? lo r) && (lo r <=? hi r) && (hi r <=? 63) && (hi r - lo r <? 63).
Definition apart (r s : bitrange) : bool := (hi r <? lo s) || (hi s <? lo r).

Lemma valid_spec r : valid r = true -> 0 <= lo r <= hi r /\ hi r <= 63 /\ hi r - lo r < 63.
Proof. unfold valid. rewrite !andb_true_iff, !Z.leb_le, Z.ltb_lt. lia. Qed.

Lemma testbit_mask r k : valid r = true -> 0 <= k -> Z.testbit (mask r) k = (lo r <=? k) && (k <=? hi r).
Proof.
  intros V%valid_spec Hk. unfold mask, shlU. rewrite testbit_wrapU, Z.shiftl_spec by lia.
  assert (B : 0 < 2 ^ (hi r - lo r + 1) < 2 ^ 64) by (split; [apply pow2_pos|apply Z.pow_lt_mono_r]; lia).
  rewrite Z.shiftl_1_l, (wrapU_id 64 (2 ^ _)) by (unfold inU; lia). rewrite Z.sub_1_r, <- Z.ones_equiv.
  destruct (Z.leb_spec (lo r) k); cbn [andb].
  - rewrite testbit_ones by lia. destruct (Z.ltb_spec k 64), (Z.leb_spec 0 (k - lo r)), (Z.ltb_spec (k - lo r) (hi r - lo r + 1)),
      (Z.leb_spec k (hi r)); cbn [andb]; (done || lia).
  - rewrite Z.testbit_neg_r by lia. by rewrite andb_false_r.
Qed.

Lemma testbit_get r a k : valid r = true -> 0 <= k -> Z.testbit (get r a) k = (k <=? hi r - lo r) && Z.testbit a (k + lo r).
Proof.
  intros V Hk. pose proof (valid_spec r V). unfold get, getbits, shrU.
  rewrite Z.shiftr_spec, Z.land_spec, testbit_mask by (done || lia).
  destruct (Z.leb_spec (lo r) (k + lo r)), (Z.leb_spec (k + lo r) (hi r)), (Z.leb_spec k (hi r - lo r)); try lia; cbn [andb];
    by rewrite ?andb_true_r, ?andb_false_r.
Qed.

Lemma testbit_setbits r v a k : valid r = true -> 0 <= k < 64 ->
  Z.testbit (set r v a) k = if (lo r <=? k) && (k <=? hi r) then Z.testbit v (k - lo r) else Z.testbit a k.
Proof.
  intros V Hk. pose proof (valid_spec r V). unfold set, setbits, notU, shlU.
  rewrite Z.lor_spec, !Z.land_spec, !testbit_wrapU, Z.lnot_spec, testbit_mask, Z.shiftl_spec by (done || lia).
  rewrite (proj2 (Z.ltb_lt k 64)) by lia. cbn [andb].
  destruct ((lo r <=? k) && (k <=? hi r)); cbn [negb andb]; by rewrite ?andb_true_r, ?andb_false_r, ?orb_false_r.
Qed.

Lemma testbit_set_out r v a k : valid r = true -> (lo r <=? k) && (k <=? hi r) = false -> 0 <= k < 64 ->
  Z.testbit (set r v a) k = Z.testbit a k.
Proof. intros V E Hk. by rewrite testbit_setbits, E. Qed.

Lemma testbit_set_global a : Z.testbit (set VAddress.GlobalHandle (flag true) a) 32 = true.
Proof. by rewrite testbit_setbits by (reflexivity || lia). Qed.

(** A field holds the low bits of what was assigned to it last. *)
Lemma get_set_same r v a : valid r = true -> get r (set r v a) = wrapU (bits r) v.
Proof.
  intros V. pose proof (valid_spec r V). apply Z.bits_inj'. intros k Hk. unfold bits.
  rewrite testbit_get, testbit_wrapU by (done || lia).
  destruct (Z.leb_spec k (hi r - lo r)), (Z.ltb_spec k (hi r - lo r + 1)); try lia; cbn [andb].
  rewrite testbit_setbits by (done || lia). rewrite (proj2 (Z.leb_le _ _)), (proj2 (Z.leb_le _ _)) by lia. cbn [andb].
  f_equal. lia.
Qed.

(** An assignment to one field leaves the others alone. *)
Lemma get_set_other r s v a : valid r = true -> valid s = true -> apart r s = true -> get r (set s v a) = get r a.
Proof.
  intros Vr Vs A. pose proof (valid_spec r Vr). apply Z.bits_inj'. intros k Hk. rewrite !testbit_get by done.
  destruct (Z.leb_spec k (hi r - lo r)); cbn [andb]; [|done]. rewrite testbit_setbits by (done || lia).
  unfold apart in A. apply orb_true_iff in A. rewrite !Z.ltb_lt in A.
  destruct (Z.leb_spec (lo s) (k + lo r)), (Z.leb_spec (k + lo r) (hi s)); cbn [andb]; (done || lia).
Qed.

Lemma get_range r a : valid r = true -> inU (bits r) (get r a).
Proof.
  intros V. pose proof (valid_spec r V). unfold bits. apply inU_testbit; [lia| |].
  - unfold get, getbits, shrU. apply Z.shiftr_nonneg, Z.land_nonneg. right. apply wrapU_range. lia.
  - intros k Hk. rewrite testbit_get by (done || lia). by rewrite (proj2 (Z.leb_gt k _)) by lia.
Qed.

Lemma set_wrap r v a : valid r = true -> set r (wrapU (bits r) v) a = set r v a.
Proof.
  intros V. pose proof (valid_spec r V). unfold set, setbits. f_equal. apply Z.bits_inj'. intros k Hk.
  rewrite !Z.land_spec, testbit_mask by done. destruct (Z.leb_spec (lo r) k), (Z.leb_spec k (hi r)); cbn [andb]; try done.
  unfold shlU, bits. rewrite !testbit_wrapU, !Z.shiftl_spec, testbit_wrapU by lia.
  by rewrite (proj2 (Z.ltb_lt (k - lo r) _)) by lia.
Qed.

Lemma get_zero r : get r 0 = 0.
Proof. unfold get, getbits, shrU. by rewrite Z.land_0_l, Z.shiftr_0_l. Qed.

(** Read fields through assignments; the ranges are literals. *)
Ltac fields :=
  unfold VAddress.ctrl_register, VAddress.pxn, VAddress.global, VAddress.pod, VAddress.l2_not_l1, VAddress.core_y,
    VAddress.core_x, VAddress.l1_offset, VAddress.l2_offset, VAddress.not_scratchpad, PAddress.type_, PAddress.pxn,
    PAddress.pod, PAddress.core_y, PAddress.core_x, PAddress.l1_offset, PAddress.l2_offset, PAddress.dram_offset,
    PAddress.ctrl_offset in *;
  repeat first [ rewrite get_set_same by reflexivity | rewrite get_set_other by reflexivity | rewrite get_zero ].

(** ** Translation *)

Lemma flag_1 b : wrapU 1 (flag b) = flag b.
Proof. by destruct b. Qed.

Lemma dram_offset_range addr : inU 43 (VAddress.dram_offset addr).
Proof.
  unfold VAddress.dram_offset, VAddress.dram_offset_hi10, VAddress.dram_offset_lo33.
  pose proof (get_range VAddress.DRAMOffsetHi10Handle addr eq_refl) as H.
  pose proof (get_range VAddress.DRAMOffsetLo33Handle addr eq_refl) as L.
  change (bits VAddress.DRAMOffsetHi10Handle) with 10 in H. change (bits VAddress.DRAMOffsetLo33Handle) with 33 in L.
  set (h := get _ addr) in H |- *. set (l := get VAddress.DRAMOffsetLo33Handle addr) in *.
  apply inU_lor; [lia| |by apply (inU_mono 33)].
  unfold shlU. rewrite Z.shiftl_mul_pow2 by lia. unfold inU in *. rewrite wrapU_id by (unfold inU; lia). lia.
Qed.

(** The memory an address is in, decided in the order [to_physical] does. *)
Inductive space := Ctrl | Dram | L2 (global : bool) | L1 (global : bool).
Definition space_of (addr : Z) : space :=
  let bit k := Z.testbit addr k in
  if bit 63 then Ctrl else if bit 47 then Dram else if bit 25 then L2 (bit 32) else L1 (bit 32).

Lemma truth_bit r addr : valid r = true -> hi r = lo r -> truth (get r addr) = Z.testbit addr (lo r).
Proof.
  intros V E. assert (B : get r addr = flag (Z.testbit addr (lo r))).
  { apply Z.bits_inj'. intros k Hk. rewrite testbit_get by done. rewrite E, Z.sub_diag.
    destruct (decide (k = 0)) as [->|]; [rewrite Z.add_0_l; by destruct (Z.testbit addr (lo r))|].
    rewrite (proj2 (Z.leb_gt k 0)) by lia. symmetry. apply (testbit_inU 1); [by destruct (Z.testbit addr (lo r))|lia]. }
  rewrite B. by destruct (Z.testbit addr (lo r)).
Qed.

(** [to_physical] by cases on the memory. *)
Lemma to_physical_space addr p d y x :
  let g (global : bool) a b := if global then a addr else b in
  to_physical addr p d y x = match space_of addr with
  | Ctrl => set PAddress.CoreXHandle (VAddress.core_x addr) (set PAddress.CoreYHandle (VAddress.core_y addr)
      (set PAddress.PodHandle (VAddress.pod addr) (set PAddress.PXNHandle (VAddress.pxn addr)
      (set PAddress.TypeHandle PAddress.TYPE_CTRL 0))))
  | Dram => set PAddress.DRAMOffsetHandle (VAddress.dram_offset addr)
      (set PAddress.PXNHandle (VAddress.pxn addr) (set PAddress.TypeHandle PAddress.TYPE_DRAM 0))
  | L2 gl => set PAddress.L2OffsetHandle (VAddress.l2_offset addr)
      (set PAddress.PodHandle (g gl VAddress.pod d) (set PAddress.PXNHandle (g gl VAddress.pxn p)
      (set PAddress.TypeHandle PAddress.TYPE_L2SP 0)))
  | L1 gl => set PAddress.L1OffsetHandle (VAddress.l1_offset addr)
      (set PAddress.CoreXHandle (g gl VAddress.core_x x) (set PAddress.CoreYHandle (g gl VAddress.core_y y)
      (set PAddress.PodHandle (g gl VAddress.pod d) (set PAddress.PXNHandle (g gl VAddress.pxn p)
      (set PAddress.TypeHandle PAddress.TYPE_L1SP 0)))))
  end.
Proof.
  unfold to_physical, space_of, VAddress.is_ctrl_register, VAddress.ctrl_register, VAddress.not_scratchpad,
    VAddress.l2_not_l1, VAddress.global. cbv zeta. rewrite !truth_bit by reflexivity. cbn [lo VAddress.CtrlRegisterHandle
    VAddress.NotScratchpadHandle VAddress.L2NotL1Handle VAddress.GlobalHandle].
  by destruct (Z.testbit addr 63), (Z.testbit addr 47), (Z.testbit addr 25), (Z.testbit addr 32).
Qed.

(** The fields a physical address must have. *)
Definition located (addr p pxn pod : Z) (global : bool) : Prop :=
  PAddress.pxn p = (if global then VAddress.pxn addr else pxn) /\ PAddress.pod p = (if global then VAddress.pod addr else pod).

(** C30: address translation.  For every 64-bit address and every core of the machine, the physical address has the
    type of the memory the address names, its offset, and the place: the address's own place for a
    global address, DRAM and control registers, and the requesting core's for a local one.  The offset of a control
    register is lost: every control register of a core gets the address of its first one. *)
Theorem to_physical_spec addr this_pxn this_pod this_y this_x :
  inU 14 this_pxn -> inU 6 this_pod -> inU 3 this_y -> inU 3 this_x ->
  let p := to_physical addr this_pxn this_pod this_y this_x in
  match space_of addr with
  | Ctrl => PAddress.type_ p = PAddress.TYPE_CTRL /\ located addr p this_pxn this_pod true /\
      PAddress.core_y p = VAddress.core_y addr /\ PAddress.core_x p = VAddress.core_x addr /\ PAddress.ctrl_offset p = 0
  | Dram => PAddress.type_ p = PAddress.TYPE_DRAM /\ PAddress.pxn p = VAddress.pxn addr /\
      PAddress.dram_offset p = VAddress.dram_offset addr
  | L2 gl => PAddress.type_ p = PAddress.TYPE_L2SP /\ located addr p this_pxn this_pod gl /\
      PAddress.l2_offset p = VAddress.l2_offset addr
  | L1 gl => PAddress.type_ p = PAddress.TYPE_L1SP /\ located addr p this_pxn this_pod gl /\
      PAddress.core_y p = (if gl then VAddress.core_y addr else this_y) /\
      PAddress.core_x p = (if gl then VAddress.core_x addr else this_x) /\
      PAddress.l1_offset p = VAddress.l1_offset addr
  end.
Proof.
  intros Hp Hd Hy Hx p. subst p. pose proof (dram_offset_range addr) as Ho.
  rewrite to_physical_space. unfold located.
  destruct (space_of addr) as [| |[]|[]]; split_and!; fields; try reflexivity;
    apply wrapU_id; try assumption;
    match goal with
    | |- inU _ (get ?r _) => exact (get_range r addr eq_refl)
    | |- inU _ (VAddress.dram_offset _) => apply (inU_mono 43); [by vm_compute|done]
    end.
Qed.

Lemma to_physical_spec_witness :
  let p := to_physical (set VAddress.L1OffsetHandle 0x40 VAddress.MyL1Base) 3 2 1 5 in
  PAddress.pxn p = 3 /\ PAddress.core_x p = 5.
Proof.
  pose proof (to_physical_spec (set VAddress.L1OffsetHandle 0x40 VAddress.MyL1Base) 3 2 1 5) as H.
  assert (S : space_of (set VAddress.L1OffsetHandle 0x40 VAddress.MyL1Base) = L1 false) by (vm_compute; reflexivity).
  rewrite S in H. destruct H as (_ & [Hp _] & _ & Hx & _); [unfold inU; lia..|]. by split.
Defined.

(** Globalisation keeps the place.  A local address made global by a core translates, on whatever core,
    to what the local address translates to on the core that made it global; addresses that already are global or in
    main memory are unchanged, and only a control-register address with neither mark is refused. *)
Theorem toGlobalAddress_spec local pxn pod y x :
  match toGlobalAddress local pxn pod y x with
  | Done g => forall pxn' pod' y' x', to_physical g pxn' pod' y' x' = to_physical local pxn pod y x
  | Failed e => Z.testbit local 63 = true /\ Z.testbit local 47 = false /\ Z.testbit local 32 = false
  end.
Proof.
  unfold toGlobalAddress, VAddress.is_l2, VAddress.is_l1, VAddress.is_dram, VAddress.is_ctrl_register,
    VAddress.ctrl_register, VAddress.not_scratchpad, VAddress.l2_not_l1, VAddress.global. cbv zeta.
  rewrite !truth_bit by reflexivity. cbn [lo VAddress.CtrlRegisterHandle
    VAddress.NotScratchpadHandle VAddress.L2NotL1Handle VAddress.GlobalHandle].
  destruct (Z.testbit local 63) eqn:B63, (Z.testbit local 47) eqn:B47, (Z.testbit local 25) eqn:B25,
    (Z.testbit local 32) eqn:B32; cbn [negb andb]; intros; try done.
  all: rewrite !to_physical_space.
  all: unfold space_of; cbv zeta; repeat first
    [ rewrite testbit_set_out by (reflexivity || lia) | rewrite testbit_set_global ]; rewrite ?B63, ?B47, ?B25, ?B32; try done.
  all: fields; change (bits VAddress.PodHandle) with (bits PAddress.PodHandle);
    change (bits VAddress.PXNHandle) with (bits PAddress.PXNHandle);
    change (bits VAddress.CoreYHandle) with (bits PAddress.CoreYHandle);
    change (bits VAddress.CoreXHandle) with (bits PAddress.CoreXHandle).
  - by rewrite !(set_wrap PAddress.PodHandle), !(set_wrap PAddress.PXNHandle) by reflexivity.
  - by rewrite !(set_wrap PAddress.CoreXHandle), !(set_wrap PAddress.CoreYHandle), !(set_wrap PAddress.PodHandle),
      !(set_wrap PAddress.PXNHandle) by reflexivity.
Qed.
End DrvMap.
