(* ===== verification/Containers.v ===== *)
(** * Arrays and vectors of the runtime

    [pando-rt/containers/array.hpp] and [vector.hpp], over a store of element blocks.  A block of the store is
    the memory one allocation returned; freeing removes it, and an access outside a live block has no
    meaning.  Which block an allocation gets, if any, is a parameter: the memory resources answer it. *)

From S2P Require Import Prelude Addressing.

Module Containers.
Import AddressMap.

Section Containers.
Context {T : Type} `{EqDecision T} (T0 : T).

(** The blocks in use: base address to contents. *)
Local Abbreviation heap := (gmap Z (list T)).

(** The answer to a request for [n] elements at the place asked: a base address and what the block holds, or the
    error ([BadAlloc] when the resource answers null, or that of the remote call that carries the request). *)
Context (serve : heap -> MemoryType -> Z -> Z * list T + Status).

(** src/pando-rt/include/pando-rt/memory/allocate_memory.hpp:63-109 [allocateMemory]: the answer of the resource at the
    place, for the two memories that can be allocated from; [n] is the number of elements, whose product with their size is taken not to wrap, as for
    fewer than 2^60 elements of 16 bytes *)
Definition allocateMemory (h : heap) (n : Z) (memoryType : MemoryType) : heap * (Z + Status) :=
  match memoryType with
  | Main | L2SP =>
      match serve h memoryType n with
      | inl (p, contents) => (<[p := contents]> h, inl p)
      | inr error => (h, inr error)
      end
  | _ => (h, inr InvalidValue)
  end.

(** src/pando-rt/include/pando-rt/memory/allocate_memory.hpp:149-190 [deallocateMemory]: nothing for a null pointer *)
Definition deallocateMemory (h : heap) (p : option Z) : heap := match p with Some p => delete p h | None => h end.

(** [p[pos]], read and written. *)
Definition load_at (h : heap) (p : option Z) (pos : Z) : outcome T :=
  match p with
  | Some p => match h !! p with
      | Some l => if pos <? Z.of_nat (length l) then
          match l !! Z.to_nat pos with Some v => Done v | None => Failed (Undefined "outside a block") end
          else Failed (Undefined "outside a block")
      | None => Failed (Undefined "not allocated") end
  | None => Failed (Undefined "null pointer")
  end.
Definition store_at (h : heap) (p : option Z) (pos : Z) (v : T) : outcome heap :=
  match p with
  | Some p => match h !! p with
      | Some l => if pos <? Z.of_nat (length l) then Done (<[p := <[Z.to_nat pos := v]> l]> h)
                  else Failed (Undefined "outside a block")
      | None => Failed (Undefined "not allocated") end
  | None => Failed (Undefined "null pointer")
  end.

(** ** Array *)

(** src/pando-rt/include/pando-rt/containers/array.hpp:30-33 [Array]; [None] is the null pointer *)
Record Array := mkArray { m_data : option Z; m_size : Z; m_memoryType : MemoryType }.
Definition Array0 : Array := mkArray None 0 Unknown.

(** src/pando-rt/include/pando-rt/containers/array.hpp:64-84 [initialize] *)
Definition initialize (h : heap) (size : Z) (memoryType : MemoryType) : Status * heap * Array :=
  if size =? 0 then (Success, h, mkArray None 0 memoryType) else
  match allocateMemory h size memoryType with
  | (h, inr error) => (error, h, mkArray None 0 Unknown)
  | (h, inl p) => (Success, h, mkArray (Some p) size memoryType)
  end.

(** src/pando-rt/include/pando-rt/containers/array.hpp:102-112 [deinitialize] *)
Definition deinitialize (h : heap) (a : Array) : heap * Array := (deallocateMemory h (m_data a), mkArray None 0 Unknown).

(** src/pando-rt/include/pando-rt/containers/array.hpp:114-116 [getMemoryType] *)
Definition getMemoryType (a : Array) : MemoryType := m_memoryType a.
(** src/pando-rt/include/pando-rt/containers/array.hpp:118-128 [operator[]], [get], read *)
Definition get (h : heap) (a : Array) (pos : Z) : outcome T := load_at h (m_data a) pos.
(** Assignment through [operator[]]. *)
Definition set (h : heap) (a : Array) (pos : Z) (v : T) : outcome heap := store_at h (m_data a) pos v.
(** src/pando-rt/include/pando-rt/containers/array.hpp:130-136 [data] *)
Definition data (a : Array) : option Z := m_data a.
(** src/pando-rt/include/pando-rt/containers/array.hpp:138-140 [empty] *)
Definition empty (a : Array) : bool := m_size a =? 0.
(** src/pando-rt/include/pando-rt/containers/array.hpp:142-144 [size] *)
Definition size (a : Array) : Z := m_size a.

(** The loop of [fill] from [i], [n] iterations left. *)
Fixpoint fill_loop (h : heap) (a : Array) (v : T) (i : Z) (n : nat) : outcome heap :=
  match n with O => Done h | S n => let! h := set h a i v in fill_loop h a v (i + 1) n end.
(** src/pando-rt/include/pando-rt/containers/array.hpp:149-153 [fill] *)
Definition fill (h : heap) (a : Array) (v : T) : outcome heap := fill_loop h a v 0 (Z.to_nat (size a)).

(** An iterator is a pointer: a base and an element offset. *)
Definition iterator : Type := option Z * Z.
(** src/pando-rt/include/pando-rt/containers/array.hpp:155-165 [begin], [cbegin] *)
Definition begin (a : Array) : iterator := (m_data a, 0).
(** src/pando-rt/include/pando-rt/containers/array.hpp:167-177 [end], [cend] *)
Definition end_ (a : Array) : iterator := (m_data a, size a).
(** src/pando-rt/include/pando-rt/containers/array.hpp:182-198 [rbegin]: a reverse iterator is kept as its base; the
    postfix decrement yields the iterator before it *)
Definition rbegin (a : Array) : iterator := end_ a.
(** src/pando-rt/include/pando-rt/containers/array.hpp:203-219 [rend] *)
Definition rend (a : Array) : iterator := begin a.
(** [*it] of a reverse iterator: the element before its base. *)
Definition deref_reverse (h : heap) (it : iterator) : outcome T :=
  if 0 <? snd it then load_at h (fst it) (snd it - 1) else Failed (Undefined "before the block").

(** [std::equal] of [n] elements from [i]. *)
Fixpoint equal_loop (h : heap) (a b : option Z) (i : Z) (n : nat) : outcome bool :=
  match n with
  | O => Done true
  | S n =>
      let! x := load_at h a i in let! y := load_at h b i in
      if decide (x = y) then equal_loop h a b (i + 1) n else Done false
  end.
(** src/pando-rt/include/pando-rt/containers/array.hpp:223-232 [operator==(Array)], [operator!=(Array)] *)
Definition array_eqb (h : heap) (a b : Array) : outcome bool :=
  if size a =? size b then equal_loop h (m_data a) (m_data b) 0 (Z.to_nat (size a)) else Done false.
(** src/pando-rt/include/pando-rt/containers/array.hpp:239-242 [isSame] *)
Definition isSame (a b : Array) : bool := bool_decide (data a = data b).

(** ** Vector *)

(** src/pando-rt/include/pando-rt/containers/vector.hpp:28-32 [Vector] *)
Record Vector := mkVector { v_size : Z; m_buf : Array }.
Definition Vector0 : Vector := mkVector 0 Array0.

(** src/pando-rt/include/pando-rt/containers/vector.hpp:63-72 [initialize] *)
Definition v_initialize (h : heap) (v : Vector) (n : Z) (memoryType : MemoryType) : outcome (Status * heap * Vector) :=
  let '(status, h, buf) := initialize h n memoryType in
  if decide (status = Success) then
    let! h := fill h buf T0 in Done (status, h, mkVector n buf)
  else Done (status, h, mkVector (v_size v) buf).

(** src/pando-rt/include/pando-rt/containers/vector.hpp:88-91 [deinitialize] *)
Definition v_deinitialize (h : heap) (v : Vector) : heap * Vector :=
  let '(h, buf) := deinitialize h (m_buf v) in (h, mkVector 0 buf).

(** src/pando-rt/include/pando-rt/containers/vector.hpp:171-173 [capacity] *)
Definition capacity (v : Vector) : Z := size (m_buf v).
(** src/pando-rt/include/pando-rt/containers/vector.hpp:175-177 [empty] *)
Definition v_empty (v : Vector) : bool := v_size v =? 0.
(** src/pando-rt/include/pando-rt/containers/vector.hpp:179-189 [get], [operator[]] *)
Definition v_get (h : heap) (v : Vector) (pos : Z) : outcome T := get h (m_buf v) pos.
(** src/pando-rt/include/pando-rt/containers/vector.hpp:191-201 [data], [size] *)
Definition v_data (v : Vector) : option Z := data (m_buf v).

(** The copy loop of [reserve]. *)
Fixpoint move_loop (h : heap) (from to : Array) (i : Z) (n : nat) : outcome heap :=
  match n with
  | O => Done h
  | S n => let! x := get h from i in let! h := set h to i x in move_loop h from to (i + 1) n
  end.

(** src/pando-rt/include/pando-rt/containers/vector.hpp:110-129 [reserve]; an allocation error of any kind is [BadAlloc] *)
Definition reserve (h : heap) (v : Vector) (nextCapacity : Z) : outcome (Status * heap * Vector) :=
  if nextCapacity <=? capacity v then Done (Success, h, v) else
  let '(status, h, newArray) := initialize h nextCapacity (getMemoryType (m_buf v)) in
  if decide (status = Success) then
    let! h := move_loop h (m_buf v) newArray 0 (Z.to_nat (v_size v)) in
    let '(h, _) := deinitialize h (m_buf v) in
    Done (Success, h, mkVector (v_size v) newArray)
  else Done (BadAlloc, h, v).

(** src/pando-rt/include/pando-rt/containers/vector.hpp:153-162 [growPow2] *)
Definition growPow2 (h : heap) (v : Vector) (biggerThan : Z) : outcome (Status * heap * Vector) :=
  if bool_decide (v_data v = None) && (biggerThan =? 0) then reserve h v 1 else
  let! full := if negb (size (m_buf v) =? 0) then
                 let! l := BitManip.log2floor (size (m_buf v)) in Done (8 * 8 - 1 <=? l)
               else Done false in
  if full : bool then Done (OutOfBounds, h, v) else
  let! nextCapacity := BitManip.up2 biggerThan in reserve h v nextCapacity.

(** src/pando-rt/include/pando-rt/containers/vector.hpp:138-148 [resize] *)
Definition resize (h : heap) (v : Vector) (newSize : Z) : outcome (Status * heap * Vector) :=
  if newSize <=? capacity v then Done (Success, h, mkVector newSize (m_buf v)) else
  let! (status, h, v) := growPow2 h v (u64 (newSize - 1)) in
  if decide (status = Success) then Done (Success, h, mkVector newSize (m_buf v)) else Done (status, h, v).

(** src/pando-rt/include/pando-rt/containers/vector.hpp:167-169 [clear] *)
Definition v_clear (v : Vector) : Vector := mkVector 0 (m_buf v).

(** src/pando-rt/include/pando-rt/containers/vector.hpp:211-236 [pushBack] *)
Definition pushBack (h : heap) (v : Vector) (value : T) : outcome (Status * heap * Vector) :=
  let! (status, h, v) := if v_size v =? capacity v then growPow2 h v (v_size v) else Done (Success, h, v) in
  if decide (status = Success) then
    let! h := set h (m_buf v) (v_size v) value in
    Done (Success, h, mkVector (u64 (v_size v + 1)) (m_buf v))
  else Done (status, h, v).

(** [detail::bulkMemcpy] of [n] elements: read them all, then write them all. *)
Fixpoint read_all (h : heap) (p : option Z) (i : Z) (n : nat) : outcome (list T) :=
  match n with O => Done [] | S n => let! x := load_at h p i in let! l := read_all h p (i + 1) n in Done (x :: l) end.
Fixpoint write_all (h : heap) (p : option Z) (i : Z) (l : list T) : outcome heap :=
  match l with [] => Done h | x :: l => let! h := store_at h p i x in write_all h p (i + 1) l end.

(** src/pando-rt/include/pando-rt/containers/vector.hpp:249-258 [assign]; [tfrom] is the vector read from [from] *)
Definition assign (h : heap) (v tfrom : Vector) : outcome (Status * heap * Vector) :=
  let size := v_size tfrom in
  let! (err, h, v) := v_initialize h v size Main in
  if decide (err = Success) then
    let! l := read_all h (v_data tfrom) 0 (Z.to_nat size) in
    let! h := write_all h (v_data v) 0 l in Done (Success, h, v)
  else Done (err, h, v).

(** src/pando-rt/include/pando-rt/containers/vector.hpp:269-276 [append] *)
Definition append (h : heap) (v tfrom : Vector) : outcome (Status * heap * Vector) :=
  let originalSize := v_size v in
  let appendSize := v_size tfrom in
  let! (status, h, v) := resize h v (u64 (originalSize + appendSize)) in
  if decide (status = Success) then
    let! l := read_all h (v_data tfrom) 0 (Z.to_nat appendSize) in
    let! h := write_all h (v_data v) originalSize l in Done (Success, h, v)
  else Done (status, h, v).

(** src/pando-rt/include/pando-rt/containers/vector.hpp:278-342 [begin], [end], [rbegin], [rend] *)
Definition v_iterators (v : Vector) : iterator * iterator := ((v_data v, 0), (v_data v, v_size v)).
(** src/pando-rt/include/pando-rt/containers/vector.hpp:346-355 [operator==(Vector)], [operator!=(Vector)] *)
Definition vector_eqb (h : heap) (a b : Vector) : outcome bool :=
  if v_size a =? v_size b then equal_loop h (v_data a) (v_data b) 0 (Z.to_nat (v_size a)) else Done false.
End Containers.

(** ** A vector is a list *)

Section Lists.
Context {T : Type} `{EqDecision T} (T0 : T).
Local Abbreviation heap := (gmap Z (list T)).
Context (serve : heap -> MemoryType -> Z -> Z * list T + Status).

(** What an allocation promises: a fresh block of the size asked for, of less than 2^63 elements. *)
Definition serves : Prop := forall h mt n p contents, serve h mt n = inl (p, contents) ->
  h !! p = None /\ Z.of_nat (length contents) = n /\ n < 2 ^ 63.
(** An error is not [Success]. *)
Definition refuses : Prop := forall h mt n e, serve h mt n = inr e -> e <> Success.

(** The vector holds the elements [l]: it has no buffer, or its buffer is a live block that starts with them. *)
Definition vrep (h : heap) (v : Vector) (l : list T) : Prop :=
  v_size v = Z.of_nat (length l) /\
  (v_data v = None /\ capacity v = 0 /\ l = [] \/
   exists p block, v_data v = Some p /\ h !! p = Some block /\ capacity v = Z.of_nat (length block) /\
     0 < capacity v < 2 ^ 63 /\ (length l <= length block)%nat /\ forall k, (k < length l)%nat -> block !! k = l !! k).

(** The blocks of others are as they were, and none of them has become the vector's. *)
Definition frame (v : Vector) (h : heap) (v' : Vector) (h' : heap) : Prop :=
  forall q b, h !! q = Some b -> v_data v <> Some q -> h' !! q = Some b /\ v_data v' <> Some q.

Lemma load_at_ok (h : heap) p l (k : nat) x : h !! p = Some l -> l !! k = Some x -> load_at h (Some p) (Z.of_nat k) = Done x.
Proof.
  intros Hp Hk. pose proof (lookup_lt_Some _ _ _ Hk). unfold load_at. rewrite Hp, (proj2 (Z.ltb_lt _ _)) by lia.
  by rewrite Nat2Z.id, Hk.
Qed.
Lemma store_at_ok (h : heap) p l (k : nat) x : h !! p = Some l -> (k < length l)%nat ->
  store_at h (Some p) (Z.of_nat k) x = Done (<[p := <[k := x]> l]> h).
Proof. intros Hp Hk. unfold store_at. rewrite Hp, (proj2 (Z.ltb_lt _ _)) by lia. by rewrite Nat2Z.id. Qed.

Lemma move_loop_spec (from to : Array) p q bp n : m_data from = Some p -> m_data to = Some q -> p <> q ->
  forall (h : heap) bq i, h !! p = Some bp -> h !! q = Some bq -> (i + n <= length bp)%nat -> (i + n <= length bq)%nat ->
  exists b', move_loop h from to (Z.of_nat i) n = Done (<[q := b']> h) /\ length b' = length bq /\
    forall k, b' !! k = if decide (i <= k < i + n)%nat then bp !! k else bq !! k.
Proof.
  intros Hf Ht Hpq. induction n as [|n IH]; intros h bq i Hp Hq Lp Lq; cbn [move_loop].
  - exists bq. rewrite insert_id by done. split_and!; [done|done|]. intros k. by rewrite decide_False by lia.
  - destruct (lookup_lt_is_Some_2 bp i) as [x Hx]; [lia|]. unfold get, set. rewrite Hf, Ht.
    rewrite (load_at_ok h p bp i x Hp Hx). cbn [bindo]. rewrite (store_at_ok h q bq i x Hq) by lia. cbn [bindo].
    replace (Z.of_nat i + 1) with (Z.of_nat (S i)) by lia.
    destruct (IH (<[q := <[i := x]> bq]> h) (<[i := x]> bq) (S i)) as (b' & -> & L' & K').
    + by rewrite lookup_insert_ne by done.
    + by rewrite lookup_insert_eq.
    + lia.
    + rewrite length_insert. lia.
    + exists b'. rewrite insert_insert_eq. rewrite length_insert in L'. split_and!; [done|done|]. intros k. rewrite K'.
      destruct (decide (k = i)) as [->|].
      * rewrite decide_False, decide_True by lia. by rewrite list_lookup_insert_eq by lia.
      * rewrite list_lookup_insert_ne by lia. repeat case_decide; (done || lia).
Qed.

Context (Hserves : serves) (Hrefuses : refuses).

(** Whether the vector's memory type is one that can be allocated from. *)
Definition allocatable (v : Vector) : bool :=
  match getMemoryType (m_buf v) with Main | L2SP => true | _ => false end.

(** Requests of this memory type can be refused. *)
Definition starved (mt : MemoryType) : Prop :=
  match mt with Main | L2SP => exists h n e, serve h mt n = inr e | _ => True end.

(** Moving to a fresh block of [n] elements keeps the elements. *)
Lemma move_to_fresh h v l n mt q contents : vrep h v l -> capacity v < n -> serve h mt n = inl (q, contents) ->
  let to := mkArray (Some q) n mt in
  exists h', (let! h1 := move_loop (<[q := contents]> h) (m_buf v) to 0 (Z.to_nat (v_size v)) in
      Done (fst (deinitialize h1 (m_buf v)))) = Done h' /\ frame v h (mkVector (v_size v) to) h' /\
    vrep h' (mkVector (v_size v) to) l.
Proof.
  intros [Hsz D] Hn Es to. destruct (Hserves _ _ _ _ _ Es) as (Fq & Lq & Bq). rewrite Hsz, Nat2Z.id.
  destruct D as [(Dn & C0 & ->)|(p & block & Dp & Hp & Cp & Bp & Ll & Kl)].
  - cbn [length move_loop bindo]. unfold deinitialize, deallocateMemory. unfold v_data, data in Dn. rewrite Dn.
    eexists. split; [done|]. split.
    + intros q' b Hq' _. assert (q <> q') by congruence. cbn. split; [by rewrite lookup_insert_ne|congruence].
    + split; [done|]. right. exists q, contents. cbn. rewrite lookup_insert_eq. unfold capacity, size in *. cbn.
      split_and!; try done; lia.
  - assert (Npq : p <> q) by congruence. unfold v_data, data in Dp.
    destruct (move_loop_spec (m_buf v) to p q block (length l) Dp eq_refl Npq (<[q := contents]> h) contents 0) as (b' & E & Lb & Kb).
    + by rewrite lookup_insert_ne by done.
    + by rewrite lookup_insert_eq.
    + lia.
    + unfold capacity, size in *. lia.
    + change (Z.of_nat 0) with 0 in E. rewrite E. cbn [bindo]. unfold deinitialize, deallocateMemory. rewrite Dp.
      eexists. split; [done|]. rewrite insert_insert_eq. split.
      * intros q' b Hq' Nq'. unfold v_data, data in Nq'. rewrite Dp in Nq'. assert (q <> q') by congruence. cbn.
        rewrite lookup_delete_ne, lookup_insert_ne by congruence. split; [done|congruence].
      * split; [done|]. right. exists q, b'. cbn. rewrite lookup_delete_ne, lookup_insert_eq by done.
        unfold capacity, size in *. cbn. split_and!; try done; try lia. intros k Hk. rewrite Kb, decide_True by lia. by apply Kl.
Qed.

Lemma frame_refl v h : frame v h v h.
Proof. by intros q b. Qed.

Lemma vrep_capacity h v l : vrep h v l -> 0 <= v_size v <= capacity v /\ capacity v < 2 ^ 63 /\
  (v_data v = None <-> capacity v = 0).
Proof.
  intros [Hsz [(Dn & C0 & ->)|(p & block & Dp & Hp & Cp & Bp & Ll & Kl)]]; cbn in *.
  - rewrite Dn, C0, Hsz. done.
  - rewrite Dp. split_and!; try lia. split; [done|lia].
Qed.

(** [reserve] either makes room and keeps the elements, or fails and changes nothing. *)
Lemma reserve_correct h v l n : vrep h v l ->
  exists s h' v', reserve serve h v n = Done (s, h', v') /\
    ((s = Success /\ frame v h v' h' /\ vrep h' v' l /\ capacity v' = Z.max (capacity v) n /\
        getMemoryType (m_buf v') = getMemoryType (m_buf v)) \/
     (s = BadAlloc /\ h' = h /\ v' = v)) /\
    (capacity v < n -> allocatable v = false -> s = BadAlloc) /\ (s = BadAlloc -> starved (getMemoryType (m_buf v))).
Proof.
  intros R. destruct (vrep_capacity h v l R) as (Hs & Hc & _). unfold reserve. destruct (Z.leb_spec n (capacity v)) as [Hn|Hn].
  { exists Success, h, v. split; [done|]. split; [left|split; [lia|done]].
    split_and!; (done || apply frame_refl || lia). }
  unfold initialize, allocateMemory. rewrite (proj2 (Z.eqb_neq n 0)) by lia. unfold allocatable.
  destruct (getMemoryType (m_buf v)) eqn:Emt.
  2,3: match goal with |- context [serve ?h ?mt ?n] => destruct (serve h mt n) as [[q contents]|e] eqn:Es end.
  2,4: rewrite decide_True by done; destruct (move_to_fresh h v l n _ q contents R Hn Es) as (h' & E & Fr & R');
    destruct (move_loop _ _ _ _ _) as [h1|] eqn:Em; [|by cbn in E]; cbn [bindo] in *; unfold deinitialize in *; cbn in E;
    injection E as <-; eexists _, _, _; split; [done|]; (split; [left|split; done]); split_and!; try done;
    unfold capacity, size in *; cbn; lia.
  2,3: rewrite decide_False by (by eapply Hrefuses).
  all: try rewrite decide_False by done; exists BadAlloc, h, v; split; [done|]; (split; [by right|]);
    (split; [done|]); intros _; cbn; (done || by eexists _, _, _).
Qed.

Lemma frame_trans v h v1 h1 v2 h2 : frame v h v1 h1 -> frame v1 h1 v2 h2 -> frame v h v2 h2.
Proof. intros F1 F2 q b Hq Nq. destruct (F1 q b Hq Nq) as [Hq1 Nq1]. by apply F2. Qed.

(** Growing to more than [b] elements: to the least power of two above [b], or to 1 from nothing. *)
Lemma growPow2_correct h v l b : vrep h v l -> 0 <= b < 2 ^ 63 -> (b = 0 -> v_data v = None) ->
  exists s h' v', growPow2 serve h v b = Done (s, h', v') /\
    ((s = Success /\ frame v h v' h' /\ vrep h' v' l /\ b < capacity v' <= Z.max (capacity v) (Z.max 1 (2 * b)) /\
        getMemoryType (m_buf v') = getMemoryType (m_buf v)) \/
     (s = BadAlloc /\ h' = h /\ v' = v)) /\
    (capacity v <= b -> allocatable v = false -> s = BadAlloc) /\ (s = BadAlloc -> starved (getMemoryType (m_buf v))).
Proof.
  intros R Hb Nb. destruct (vrep_capacity h v l R) as (Hs & Hc & _). unfold growPow2.
  destruct (decide (b = 0)) as [->|Nz].
  - rewrite Nb, bool_decide_true by done. cbn [andb Z.eqb]. destruct (reserve_correct h v l 1 R) as (s & h' & v' & -> & D & A).
    exists s, h', v'. split; [done|]. split; [|destruct A as [A ?]; split; [intros; apply A; [lia|done]|done]].
    destruct D as [(-> & Fr & R' & C & M)|?]; [left|by right]. split_and!; (done || lia).
  - rewrite (proj2 (Z.eqb_neq b 0)), andb_false_r by lia.
    assert (Full : (let! full := if negb (size (m_buf v) =? 0) then
                      let! l := BitManip.log2floor (size (m_buf v)) in Done (8 * 8 - 1 <=? l) else Done false in
                    Done full) = Done false).
    { unfold capacity in *. destruct (Z.eqb_spec (size (m_buf v)) 0); [done|]. cbn [negb].
      rewrite BitManip.log2floor_spec by lia. cbn [bindo]. f_equal. apply Z.leb_gt.
      change (8 * 8 - 1) with 63. apply Z.log2_lt_pow2; lia. }
    destruct (if negb (size (m_buf v) =? 0) then _ else _) as [full|] eqn:Ef; cbn [bindo] in Full; [|done].
    injection Full as ->. cbn [bindo]. pose proof (BitManip.up2_correct b ltac:(unfold inU; lia)) as U.
    destruct (BitManip.up2 b) as [p|]; [|lia]. cbn [bindo]. destruct U as (_ & _ & Hp & _).
    destruct (reserve_correct h v l p R) as (s & h' & v' & -> & D & A). exists s, h', v'. split; [done|].
    split; [|destruct A as [A ?]; split; [intros; apply A; [lia|done]|done]]. destruct D as [(-> & Fr & R' & C & M)|?]; [left|by right].
    split_and!; (done || lia).
Qed.

(** Writing the element after the last one. *)
Lemma write_end h v l x : vrep h v l -> v_size v < capacity v ->
  exists h', set h (m_buf v) (v_size v) x = Done h' /\ frame v h (mkVector (u64 (v_size v + 1)) (m_buf v)) h' /\
    vrep h' (mkVector (u64 (v_size v + 1)) (m_buf v)) (l ++ [x]).
Proof.
  intros R Hlt. destruct (vrep_capacity h v l R) as (Hs & Hc & _). destruct R as [Hsz D].
  destruct D as [(Dn & C0 & ->)|(p & block & Dp & Hp & Cp & Bp & Ll & Kl)]; [lia|].
  unfold set. unfold v_data, data in Dp. rewrite Dp, Hsz, (store_at_ok h p block (length l) x Hp) by lia.
  eexists. split; [done|]. rewrite wrapU_id by (unfold inU; lia). split.
  - intros q b Hq Nq. unfold v_data, data in *. cbn. rewrite Dp in *. rewrite lookup_insert_ne by congruence. done.
  - split; [cbn; rewrite length_app; cbn; lia|]. right. exists p, (<[length l := x]> block).
    unfold v_data, data, capacity, size in *. cbn. rewrite lookup_insert_eq, length_insert, length_app. cbn [length].
    split_and!; try done; try lia. intros k Hk. destruct (decide (k = length l)) as [->|].
    + rewrite list_lookup_insert_eq, list_lookup_middle by lia. done.
    + rewrite list_lookup_insert_ne, lookup_app_l by lia. apply Kl. lia.
Qed.

(** [pushBack] appends, growing geometrically, or is refused and changes nothing. *)
Lemma pushBack_correct h v l x : vrep h v l ->
  exists s h' v', pushBack serve h v x = Done (s, h', v') /\
    ((s = Success /\ frame v h v' h' /\ vrep h' v' (l ++ [x]) /\ getMemoryType (m_buf v') = getMemoryType (m_buf v) /\
        (if v_size v <? capacity v then capacity v' = capacity v
         else capacity v < capacity v' <= Z.max 1 (2 * capacity v))) \/
     (s = BadAlloc /\ h' = h /\ v' = v)) /\
    (v_size v = capacity v -> allocatable v = false -> s = BadAlloc) /\ (s = BadAlloc -> starved (getMemoryType (m_buf v))).
Proof.
  intros R. destruct (vrep_capacity h v l R) as (Hs & Hc & Hd). unfold pushBack.
  destruct (Z.eqb_spec (v_size v) (capacity v)) as [E|E].
  - destruct (growPow2_correct h v l (v_size v) R) as (s & h1 & v1 & -> & D & A); [lia|intros; apply Hd; lia|]. cbn [bindo].
    destruct D as [(-> & Fr & R1 & C & M)|(-> & -> & ->)].
    + rewrite decide_True by done. assert (Sz : v_size v1 = v_size v) by (destruct R as [-> _], R1 as [-> _]; done).
      destruct (write_end h1 v1 l x R1) as (h' & -> & Fr' & R'); [lia|]. cbn [bindo].
      eexists _, _, _. split; [done|]. split; [left|destruct A as [A ?]; split; [intros; apply A; [lia|done]|done]].
      rewrite E, Z.ltb_irrefl. split_and!; try done; [by eapply frame_trans|..];
        unfold capacity in *; cbn; lia.
    + rewrite decide_False by done. destruct A as [? A]. eexists _, _, _. split; [done|]. split; [by right|split; done].
  - cbn [bindo]. rewrite decide_True by done. destruct (write_end h v l x R) as (h' & -> & Fr' & R'); [lia|]. cbn [bindo].
    eexists _, _, _. split; [done|]. split; [left|split; [lia|done]]. rewrite (proj2 (Z.ltb_lt _ _)) by lia. by split_and!.
Qed.

(** Another size within the buffer. *)
Lemma set_size h v l n : vrep h v l -> 0 <= n <= capacity v ->
  exists l', vrep h (mkVector n (m_buf v)) l' /\ Z.of_nat (length l') = n /\
    forall k, (k < length l)%nat -> (k < length l')%nat -> l' !! k = l !! k.
Proof.
  intros [Hsz [(Dn & C0 & ->)|(p & block & Dp & Hp & Cp & Bp & Ll & Kl)]] Hn.
  - exists []. split_and!; [split; [cbn; lia|by left]|cbn; lia|done].
  - exists (take (Z.to_nat n) block). rewrite length_take. split_and!; [|lia|].
    + split; [cbn; rewrite length_take; lia|]. right. exists p, block. rewrite length_take. unfold capacity in *. cbn.
      split_and!; try done; try lia. intros k Hk. rewrite lookup_take_lt by lia. done.
    + intros k Hk Hk'. rewrite lookup_take_lt by lia. by apply Kl.
Qed.

(** [resize] keeps the elements below both sizes. *)
Lemma resize_correct h v l n : vrep h v l -> 0 <= n < 2 ^ 63 ->
  exists s h' v', resize serve h v n = Done (s, h', v') /\
    ((s = Success /\ frame v h v' h' /\ getMemoryType (m_buf v') = getMemoryType (m_buf v) /\
       (exists l', vrep h' v' l' /\ Z.of_nat (length l') = n /\
          forall k, (k < length l)%nat -> (k < length l')%nat -> l' !! k = l !! k)) \/
     (s = BadAlloc /\ h' = h /\ v' = v)) /\
    (capacity v < n -> allocatable v = false -> s = BadAlloc) /\ (s = BadAlloc -> starved (getMemoryType (m_buf v))).
Proof.
  intros R Hn. destruct (vrep_capacity h v l R) as (Hs & Hc & Hd). unfold resize.
  destruct (Z.leb_spec n (capacity v)) as [H|H].
  - eexists _, _, _. split; [done|]. split; [left|split; [lia|done]]. split_and!; [done|by intros q b|done|].
    apply (set_size h v l n R). lia.
  - rewrite wrapU_id by (unfold inU; lia).
    destruct (growPow2_correct h v l (n - 1) R) as (s & h1 & v1 & -> & D & A & A'); [lia|intros; apply Hd; lia|]. cbn [bindo].
    destruct D as [(-> & Fr & R1 & C & M)|(-> & -> & ->)].
    + rewrite decide_True by done. eexists _, _, _. split; [done|]. split; [left|split; [intros; apply A; [lia|done]|done]].
      destruct (set_size h1 v1 l n R1) as (l' & ?); [lia|]. split_and!; [done|by intros q b; apply Fr|done|by exists l'].
    + rewrite decide_False by done. eexists _, _, _. split; [done|]. split; [by right|split; [intros; apply A; [lia|done]|done]].
Qed.

(** Elements below the size are read as they are. *)
Lemma v_get_correct h v l (k : nat) x : vrep h v l -> l !! k = Some x -> v_get h v (Z.of_nat k) = Done x.
Proof.
  intros [Hsz D] Hk. pose proof (lookup_lt_Some _ _ _ Hk). unfold v_get, get.
  destruct D as [(Dn & C0 & ->)|(p & block & Dp & Hp & Cp & Bp & Ll & Kl)]; [done|].
  unfold v_data, data in Dp. rewrite Dp. eapply load_at_ok; [done|]. by rewrite Kl.
Qed.

(** A client's calls. *)
Inductive vop := VPush (x : T) | VResize (n : Z) | VReserve (n : Z) | VClear | VGet (i : Z).
Inductive vanswer := VStatus (s : Status) | VValue (x : T).

(** One call; the client indexes below [size()] only. *)
Definition vstep (h : heap) (v : Vector) (o : vop) : outcome (vanswer * heap * Vector) :=
  match o with
  | VPush x => let! (s, h, v) := pushBack serve h v x in Done (VStatus s, h, v)
  | VResize n => let! (s, h, v) := resize serve h v n in Done (VStatus s, h, v)
  | VReserve n => let! (s, h, v) := reserve serve h v n in Done (VStatus s, h, v)
  | VClear => Done (VStatus Success, h, v_clear v)
  | VGet i => if (0 <=? i) && (i <? v_size v) then let! x := v_get h v i in Done (VValue x, h, v)
              else Done (VStatus OutOfBounds, h, v)
  end.

Fixpoint vrun (h : heap) (v : Vector) (ops : list vop) : outcome (list vanswer * heap * Vector) :=
  match ops with
  | [] => Done ([], h, v)
  | o :: ops => let! (a, h, v) := vstep h v o in let! (answers, h, v) := vrun h v ops in Done (a :: answers, h, v)
  end.

(** What the calls do to a list; [refusable]: the allocator may turn a request down. *)
Inductive list_step (refusable : Prop) (l : list T) : vop -> vanswer -> list T -> Prop :=
| ls_push x : list_step refusable l (VPush x) (VStatus Success) (l ++ [x])
| ls_resize n l' : Z.of_nat (length l') = n -> (forall k, (k < length l)%nat -> (k < length l')%nat -> l' !! k = l !! k) ->
    list_step refusable l (VResize n) (VStatus Success) l'
| ls_reserve n : list_step refusable l (VReserve n) (VStatus Success) l
| ls_refused o : refusable -> match o with VPush _ | VResize _ | VReserve _ => True | _ => False end ->
    list_step refusable l o (VStatus BadAlloc) l
| ls_clear : list_step refusable l VClear (VStatus Success) []
| ls_get (k : nat) x : l !! k = Some x -> list_step refusable l (VGet (Z.of_nat k)) (VValue x) l
| ls_outside i : i < 0 \/ Z.of_nat (length l) <= i -> list_step refusable l (VGet i) (VStatus OutOfBounds) l.

Inductive list_run (refusable : Prop) : list T -> list vop -> list vanswer -> list T -> Prop :=
| lr_nil l : list_run refusable l [] [] l
| lr_cons l o a l1 ops answers l' : list_step refusable l o a l1 -> list_run refusable l1 ops answers l' ->
    list_run refusable l (o :: ops) (a :: answers) l'.

(** Sizes asked for are below 2^63. *)
Definition vop_ok (o : vop) : bool := match o with VResize n => (0 <=? n) && (n <? 2 ^ 63) | _ => true end.

Lemma vstep_correct h v l o : vrep h v l -> vop_ok o = true ->
  exists a h' v' l', vstep h v o = Done (a, h', v') /\ list_step (starved (getMemoryType (m_buf v))) l o a l' /\
    vrep h' v' l' /\ frame v h v' h' /\ getMemoryType (m_buf v') = getMemoryType (m_buf v).
Proof.
  intros R Ho. destruct o as [x|n|n| |i]; cbn [vstep].
  - destruct (pushBack_correct h v l x R) as (s & h' & v' & -> & [(-> & Fr & R' & M & _)|(-> & -> & ->)] & _ & A); cbn [bindo].
    + eexists _, _, _, _. split_and!; [done|apply ls_push|done..].
    + eexists _, _, _, _. split_and!; [done|by apply ls_refused; [apply A|]|done|apply frame_refl|done].
  - apply andb_true_iff in Ho as [H1%Z.leb_le H2%Z.ltb_lt].
    destruct (resize_correct h v l n R (conj H1 H2))
      as (s & h' & v' & -> & [(-> & Fr & M & l' & R' & L & K)|(-> & -> & ->)] & _ & A); cbn [bindo].
    + eexists _, _, _, _. split_and!; [done|by apply ls_resize|done..].
    + eexists _, _, _, _. split_and!; [done|by apply ls_refused; [apply A|]|done|apply frame_refl|done].
  - destruct (reserve_correct h v l n R) as (s & h' & v' & -> & [(-> & Fr & R' & _ & M)|(-> & -> & ->)] & _ & A); cbn [bindo].
    + eexists _, _, _, _. split_and!; [done|apply ls_reserve|done..].
    + eexists _, _, _, _. split_and!; [done|by apply ls_refused; [apply A|]|done|apply frame_refl|done].
  - destruct (vrep_capacity h v l R) as (Hs & Hc & _). destruct (set_size h v l 0 R) as (l' & R' & L & _); [lia|].
    destruct l'; [|cbn in L; lia]. eexists _, _, _, _. split_and!; [done|apply ls_clear|done|by intros q b|done].
  - destruct (Z.leb_spec 0 i); destruct (Z.ltb_spec i (v_size v)); cbn [andb].
    1: destruct R as [Hsz D] eqn:ER; clear ER; destruct (lookup_lt_is_Some_2 l (Z.to_nat i)) as [x Hx]; [lia|];
      replace i with (Z.of_nat (Z.to_nat i)) by lia; erewrite v_get_correct by done; cbn [bindo];
      eexists _, _, _, _; split_and!; [done|by apply ls_get|done|apply frame_refl|done].
    all: pose proof (proj1 R); eexists _, _, _, _; split_and!; [done|apply ls_outside; lia|done|apply frame_refl|done].
Qed.

(** A vector whose memory cannot be allocated from, and that has no buffer, stays empty. *)
Lemma vstep_homeless h v o : vrep h v [] -> vop_ok o = true -> capacity v = 0 -> allocatable v = false ->
  exists a h' v', vstep h v o = Done (a, h', v') /\ vrep h' v' [] /\ capacity v' = 0 /\ allocatable v' = false.
Proof.
  intros R Ho C A. assert (Z0 : v_size v = 0) by (by destruct R as [-> _]). 
  assert (V : mkVector 0 (m_buf v) = v) by (destruct v; cbn in *; congruence). destruct o as [x|n|n| |i]; cbn [vstep].
  - destruct (pushBack_correct h v [] x R) as (s & h' & v' & -> & D & B & _); rewrite B in D |- * by (done || lia).
    destruct D as [[? _]|(_ & -> & ->)]; [done|]. by eexists _, _, _.
  - apply andb_true_iff in Ho as [H1%Z.leb_le H2%Z.ltb_lt].
    destruct (decide (n = 0)) as [->|].
    + unfold resize. rewrite C. cbn [Z.leb Z.compare bindo]. rewrite V. by eexists _, _, _.
    + destruct (resize_correct h v [] n R (conj H1 H2)) as (s & h' & v' & -> & D & B & _); rewrite B in D |- * by (done || lia).
      destruct D as [[? _]|(_ & -> & ->)]; [done|]. by eexists _, _, _.
  - destruct (decide (n <= 0)).
    + unfold reserve. rewrite C, (proj2 (Z.leb_le _ _)) by lia. by eexists _, _, _.
    + destruct (reserve_correct h v [] n R) as (s & h' & v' & -> & D & B & _); rewrite B in D |- * by (done || lia).
      destruct D as [[? _]|(_ & -> & ->)]; [done|]. by eexists _, _, _.
  - eexists _, _, _. split; [done|]. unfold v_clear. by rewrite V.
  - rewrite Z0. rewrite (proj2 (andb_false_iff _ _)) by lia. by eexists _, _, _.
Qed.

(** C29: a vector behaves as a list under every sequence of [pushBack], [resize], [reserve], [clear] and indexing
    below [size()]: every call returns, indexing reads the list's element, [resize] keeps the elements below
    both sizes, and [BadAlloc], the only failure, occurs only where the allocator can refuse and leaves the list as
    it was; blocks of others are not written or freed.  A vector with no buffer whose memory type is [Unknown], as the default constructor leaves
    it, is never able to hold an element, although [reserve] is documented to use main memory then. *)
Theorem vector_refines ops h v l : vrep h v l -> forallb vop_ok ops = true ->
  exists answers h' v' l', vrun h v ops = Done (answers, h', v') /\
    list_run (starved (getMemoryType (m_buf v))) l ops answers l' /\ vrep h' v' l' /\ frame v h v' h' /\
    (capacity v = 0 -> allocatable v = false -> v_size v' = 0 /\ v_data v' = None).
Proof.
  revert h v l. induction ops as [|o ops IH]; intros h v l R Ho; cbn [vrun].
  - eexists _, _, _, _. split_and!; [done|constructor|done|apply frame_refl|].
    intros C _. destruct (vrep_capacity h v l R) as (Hs & _ & Hd). rewrite Hd. lia.
  - apply andb_true_iff in Ho as [Ho Hops].
    destruct (vstep_correct h v l o R Ho) as (a & h1 & v1 & l1 & E & S & R1 & F1 & M1). rewrite E. cbn [bindo].
    destruct (IH h1 v1 l1 R1 Hops) as (answers & h' & v' & l' & -> & LR & R' & F & N). cbn [bindo].
    eexists _, _, _, _. rewrite M1 in LR. split_and!; [done|by econstructor|done|by eapply frame_trans|].
    intros C A. assert (l = []) as -> by (destruct (vrep_capacity h v l R) as (Hs & _); destruct R as [Hz _];
      destruct l; [done|cbn in Hz; lia]).
    destruct (vstep_homeless h v o R Ho C A) as (a2 & h2 & v2 & E2 & R2 & C2 & A2).
    rewrite E in E2. injection E2 as <- <- <-. by apply N.
Qed.
End Lists.

(** An allocator with blocks of up to 100 elements. *)
Definition small_blocks (h : gmap Z (list Z)) (mt : MemoryType) (n : Z) : Z * list Z + Status :=
  if (0 <=? n) && (n <? 100) then inl (fresh (dom h : gset Z), replicate (Z.to_nat n) 7) else inr BadAlloc.

(** Three pushes, a shrink, a growth and a request that is too large, from an empty vector in main memory. *)
Lemma vector_refines_witness :
  let ops := [VPush 1; VPush 2; VPush 3; VResize 2; VResize 5; VGet 1; VReserve 1000] in
  let v := mkVector 0 (mkArray None 0 Main) in
  exists answers h' v' l', vrun small_blocks ∅ v ops = Done (answers, h', v') /\
    list_run (starved small_blocks Main) [] ops answers l' /\ vrep h' v' l' /\ frame v ∅ v' h' /\
    (0 = 0 -> allocatable v = false -> v_size v' = 0 /\ v_data v' = None).
Proof.
  intros ops v. apply (vector_refines small_blocks).
  - intros h mt n p contents. unfold small_blocks. destruct (andb _ _) eqn:E; [|done]. intros [= <- <-].
    apply andb_true_iff in E as [H1%Z.leb_le H2%Z.ltb_lt]. rewrite length_replicate. split_and!; [|lia|lia].
    apply not_elem_of_dom. apply is_fresh.
  - intros h mt n e. unfold small_blocks. destruct (andb _ _); [done|]. by intros [= <-].
  - split; [done|]. by left.
  - done.
Defined.
End Containers.
