(* ===== verification/HashTable.v ===== *)
(** * The hash table of the container library

    [pando-lib-galois/containers/hashtable.hpp]: open addressing over an array whose capacity is a power of two,
    with quadratic (triangular) probing.  [std::hash] is a parameter, as is the answer of the memory resource
    to an allocation.  A loop that does not end shows as [None] at every fuel. *)

From S2P Require Import Prelude Addressing MemoryResources Containers.
From Stdlib Require Import SpecFloat Finite.

Module HashTable.

(** ** Floats

    The load factor is a [float]; the constructor compares its argument with [double] literals. *)

Definition float_of_Z (n : Z) : spec_float := binary_normalize 24 128 n 0 false.
Definition float_div : spec_float -> spec_float -> spec_float := SFdiv 24 128.
Definition to_double (f : spec_float) : spec_float :=
  match f with
  | S754_finite s m e => binary_normalize 53 1024 (if s then Z.neg m else Z.pos m) e s
  | _ => f
  end.
Definition to_float (f : spec_float) : spec_float :=
  match f with
  | S754_finite s m e => binary_normalize 24 128 (if s then Z.neg m else Z.pos m) e s
  | _ => f
  end.
(** The literals [0.8] and [.001], and [1.0]. *)
Definition lit_0_8 : spec_float := Double.div (Double.of_Z 8) (Double.of_Z 10).
Definition lit_0_001 : spec_float := Double.div (Double.of_Z 1) (Double.of_Z 1000).
Definition lit_1 : spec_float := Double.of_Z 1.

Section Table.
Context {Key T : Type} `{EqDecision Key} (key0 : Key) (value0 : T).
Context (hash : Key -> Z).

(** src/include/pando-lib-galois/containers/hashtable.hpp:28-32 [Entry] *)
Record Entry := mkEntry { key : Key; value : T; occupied : bool }.
(** [Entry{}] *)
Definition Entry0 : Entry := mkEntry key0 value0 false.

(** src/include/pando-lib-galois/containers/hashtable.hpp:252-256 [HashTable] *)
Record table := mkTable { m_size : Z; m_buffer : list Entry; maxLoadFactor : spec_float }.

(** src/include/pando-lib-galois/containers/hashtable.hpp:36-39 [HashTable]; the default factor is [to_float lit_0_8] *)
Definition HashTable (maxLoad : spec_float) : table :=
  mkTable 0 [] (to_float (if SFltb lit_1 (to_double maxLoad) then lit_0_8
                          else if SFltb (to_double maxLoad) lit_0_001 then lit_0_8 else to_double maxLoad)).
Definition HashTable_default : table := mkTable 0 [] (to_float lit_0_8).

Definition size_of (buf : list Entry) : Z := Z.of_nat (length buf).
(** [buf[idx]] for an index below the size. *)
Definition at_ (buf : list Entry) (idx : Z) : Entry := nth (Z.to_nat idx) buf Entry0.
Definition put_at (buf : list Entry) (idx : Z) (e : Entry) : list Entry := <[Z.to_nat idx := e]> buf.

(** src/include/pando-lib-galois/containers/hashtable.hpp:229-231 [size] *)
Definition size (t : table) : Z := m_size t.
(** src/include/pando-lib-galois/containers/hashtable.hpp:234-236 [capacity] *)
Definition capacity (t : table) : Z := size_of (m_buffer t).
(** src/include/pando-lib-galois/containers/hashtable.hpp:239-241 [loadFactor] *)
Definition loadFactor (t : table) : spec_float := float_div (float_of_Z (m_size t)) (float_of_Z (capacity t)).

(** src/include/pando-lib-galois/containers/hashtable.hpp:262-267 [polynomial] *)
Definition polynomial (i cap : Z) : Z :=
  let inner := if i mod 2 =? 0 then u64 (shrU i 1 * u64 (i + 1)) else u64 (shrU (u64 (i + 1)) 1 * i) in
  inner mod cap.

(** src/include/pando-lib-galois/containers/hashtable.hpp:307-311 [hashIndex] *)
Definition hashIndex (k : Key) (size : Z) : Z := u64 (hash k) mod size.

(** The loop of [probe]: at index [idx], in iteration [i]. *)
Fixpoint probe_loop (fuel : nat) (buf : list Entry) (k : Key) (h i idx : Z) : option Z :=
  let e := at_ buf idx in
  if occupied e && negb (bool_decide (key e = k)) then
    match fuel with
    | O => None
    | S fuel => probe_loop fuel buf k h (u64 (i + 1)) (u64 (h + polynomial i (size_of buf)) mod size_of buf)
    end
  else Some idx.

(** src/include/pando-lib-galois/containers/hashtable.hpp:271-286 [probe] *)
Definition probe (fuel : nat) (buf : list Entry) (k : Key) : option Z :=
  let h := hashIndex k (size_of buf) in probe_loop fuel buf k h 1 h.

(** src/include/pando-lib-galois/containers/hashtable.hpp:288-299 [bufferInsert] *)
Definition bufferInsert (fuel : nat) (buf : list Entry) (k : Key) (v : T) : option (bool * list Entry) :=
  let? idx := probe fuel buf k in
  let wasOccupied := occupied (at_ buf idx) in
  Some (wasOccupied, put_at buf idx (mkEntry k v true)).

(** src/include/pando-lib-galois/containers/hashtable.hpp:301-305 [nextCapacity] *)
Definition nextCapacity (t : table) : Z := if capacity t =? 0 then 8 else u64 (capacity t * 2).

(** [m_buffer.initialize(capacity, ...)] and [fill(Entry{})]; [ok] is the answer of the memory resource. *)
Definition new_buffer (ok : Z -> bool) (n : Z) : option (list Entry) :=
  if (n =? 0) || ok n then Some (repeat Entry0 (Z.to_nat n)) else None.

(** src/include/pando-lib-galois/containers/hashtable.hpp:116-127 [initialize] *)
Definition initialize (ok : Z -> bool) (t : table) (capacity : Z) : outcome (Status * table) :=
  let capacity := if (capacity <? 8) && negb (capacity =? 0) then 8 else capacity in
  let pow2 := Z.land capacity (u64 (capacity - 1)) =? 0 in
  let! n := if pow2 then Done capacity else BitManip.up2 capacity in
  Done (match new_buffer ok n with
        | Some b => (Success, mkTable (m_size t) b (maxLoadFactor t))
        | None => (BadAlloc, mkTable (m_size t) [] (maxLoadFactor t))
        end).

(** src/include/pando-lib-galois/containers/hashtable.hpp:134-137 [deinitialize] *)
Definition deinitialize (t : table) : table := mkTable 0 [] (maxLoadFactor t).

(** The loop of [resize]: [old] is what is left of the old buffer; [None] when a key is met twice. *)
Fixpoint rehash (fuel : nat) (old buf : list Entry) : option (option (list Entry)) :=
  match old with
  | [] => Some (Some buf)
  | e :: old =>
      if occupied e then
        let? (wasOccupied, buf) := bufferInsert fuel buf (key e) (value e) in
        if wasOccupied : bool then Some None else rehash fuel old buf
      else rehash fuel old buf
  end.

(** src/include/pando-lib-galois/containers/hashtable.hpp:140-171 [resize] *)
Definition resize (fuel : nat) (ok : Z -> bool) (t : table) (capacity_ : Z) : option (Status * table) :=
  if capacity_ <=? capacity t then Some (Success, t) else
  match new_buffer ok capacity_ with
  | None => Some (BadAlloc, t)
  | Some newBuffer =>
      let? r := rehash fuel (m_buffer t) newBuffer in
      Some (match r with
            | None => (Error, t)
            | Some newBuffer => (Success, mkTable (m_size t) newBuffer (maxLoadFactor t))
            end)
  end.

(** src/include/pando-lib-galois/containers/hashtable.hpp:175-187 [get]; [None] inside for [false] *)
Definition get (fuel : nat) (t : table) (k : Key) : option (option T) :=
  if capacity t =? 0 then Some None else
  let? idx := probe fuel (m_buffer t) k in
  let e := at_ (m_buffer t) idx in
  Some (if occupied e && bool_decide (key e = k) then Some (value e) else None).

(** src/include/pando-lib-galois/containers/hashtable.hpp:190-200 [contains] *)
Definition contains (fuel : nat) (t : table) (k : Key) : option bool :=
  if capacity t =? 0 then Some false else
  let? idx := probe fuel (m_buffer t) k in
  let e := at_ (m_buffer t) idx in
  Some (occupied e && bool_decide (key e = k)).

(** Whether [put] grows the table first. *)
Definition crowded (t : table) : bool := (capacity t =? 0) || SFleb (maxLoadFactor t) (loadFactor t).

(** src/include/pando-lib-galois/containers/hashtable.hpp:203-216 [put] *)
Definition put (fuel : nat) (ok : Z -> bool) (t : table) (k : Key) (v : T) : option (Status * table) :=
  let? (status, t) := if crowded t then resize fuel ok t (nextCapacity t) else Some (Success, t) in
  if decide (status = Success) then
    let? (wasOccupied, buf) := bufferInsert fuel (m_buffer t) k v in
    Some (Success, mkTable (if wasOccupied : bool then m_size t else u64 (m_size t + 1)) buf (maxLoadFactor t))
  else Some (status, t).

(** src/include/pando-lib-galois/containers/hashtable.hpp:219-226 [clear] *)
Definition clear (t : table) : table :=
  mkTable 0 (map (fun e => mkEntry (key e) (value e) false) (m_buffer t)) (maxLoadFactor t).

(** ** Iterators: a position in the buffer; reading at or past the end of the buffer has no meaning. *)
Definition read (buf : list Entry) (i : nat) : outcome Entry :=
  match buf !! i with Some e => Done e | None => Failed (Undefined "read past the end of the array") end.

(** The search of [begin]: [n] slots are left. *)
Fixpoint first_occupied (buf : list Entry) (n i : nat) : nat :=
  match n with
  | O => i
  | S n => if occupied (nth i buf Entry0) then i else first_occupied buf n (S i)
  end.
(** src/include/pando-lib-galois/containers/hashtable.hpp:243-250 [begin], [end] *)
Definition begin (t : table) : nat := first_occupied (m_buffer t) (length (m_buffer t)) 0.
Definition end_ (t : table) : nat := length (m_buffer t).

(** The loop of [operator++], which has just read [e] at [i]. *)
Fixpoint skip (buf : list Entry) (n : nat) (i : nat) (e : Entry) : outcome nat :=
  match n with
  | O => Done i
  | S n =>
      if negb (bool_decide (i = length buf)) && negb (occupied e) then
        let! e := read buf (S i) in skip buf n (S i) e
      else Done i
  end.
(** src/include/pando-lib-galois/containers/hashtable.hpp:70-78 [operator++] *)
Definition next (t : table) (i : nat) : outcome nat :=
  let i := S i in
  let! e := read (m_buffer t) i in
  skip (m_buffer t) (S (length (m_buffer t))) i e.

(** The loop of [operator--]. *)
Fixpoint skip_back (buf : list Entry) (i : nat) (e : Entry) : outcome nat :=
  match i with
  | O => Done O
  | S i' => if negb (occupied e) then let! e := read buf i' in skip_back buf i' e else Done i
  end.
(** src/include/pando-lib-galois/containers/hashtable.hpp:86-94 [operator--], from a position after the first *)
Definition prev (t : table) (i : nat) : outcome nat :=
  let i := pred i in let! e := read (m_buffer t) i in skip_back (m_buffer t) i e.
End Table.

(** ** Triangular probing visits every slot *)

Definition tri (i : Z) : Z := i * (i + 1) / 2.

Lemma tri_double i : 2 * tri i = i * (i + 1).
Proof.
  unfold tri. assert (E : i * (i + 1) mod 2 = 0).
  { rewrite Z.mul_mod, Z.add_mod by lia. pose proof (Z.mod_pos_bound i 2 ltac:(lia)).
    assert (i mod 2 = 0 \/ i mod 2 = 1) as [->| ->] by lia; done. }
  pose proof (Z.div_mod (i * (i + 1)) 2 ltac:(lia)). lia.
Qed.

Lemma odd_divide n a b : 0 <= n -> Z.odd a = true -> (2 ^ n | a * b) -> (2 ^ n | b).
Proof.
  intros Hn Ha. revert b. pattern n. apply natlike_ind; [|clear n Hn; intros n Hn IH|done]; intros b Hd.
  - apply Z.divide_1_l.
  - assert (E : Z.odd b = false).
    { destruct Hd as [q E]. rewrite Z.pow_succ_r in E by lia.
      assert (O : Z.odd (a * b) = false) by (rewrite E, !Z.odd_mul; by rewrite andb_comm).
      by rewrite Z.odd_mul, Ha in O. }
    rewrite <- Z.negb_even, negb_false_iff in E. apply Z.even_spec in E as [c ->].
    rewrite Z.pow_succ_r in * by lia. apply Z.mul_divide_mono_l, IH.
    apply (Z.mul_divide_cancel_l _ _ 2); [lia|]. by replace (2 * (a * c)) with (a * (2 * c)) by lia.
Qed.

(** Two of the first [2^k] triangular numbers differ modulo [2^k]. *)
Lemma tri_inj k i j : 0 <= k -> 0 <= i < j -> j < 2 ^ k -> tri i mod 2 ^ k <> tri j mod 2 ^ k.
Proof.
  intros Hk Hi Hj E. pose proof (pow2_pos k Hk).
  assert (D : (2 ^ (k + 1) | (j - i) * (i + j + 1))).
  { replace ((j - i) * (i + j + 1)) with (2 * tri j - 2 * tri i) by (rewrite !tri_double; lia).
    rewrite Z.pow_add_r by lia. rewrite Z.mul_comm. change (2 ^ 1) with 2.
    replace (2 * tri j - 2 * tri i) with (2 * (tri j - tri i)) by lia. apply Z.mul_divide_mono_l.
    apply Z.mod_divide; [lia|]. rewrite Zminus_mod, E, Z.sub_diag. apply Z.mod_0_l. lia. }
  assert (P : 2 ^ (k + 1) = 2 * 2 ^ k) by (rewrite Z.pow_add_r by lia; lia).
  destruct (Z.odd (j - i)) eqn:O.
  - apply odd_divide in D; [|lia|done]. apply Z.divide_pos_le in D; lia.
  - rewrite Z.mul_comm in D. apply odd_divide in D; [|lia|].
    + apply Z.divide_pos_le in D; lia.
    + replace (i + j + 1) with (2 * i + 1 + (j - i)) by lia.
      rewrite Z.odd_add, O, Z.add_comm. by rewrite Z.odd_add_mul_2.
Qed.

Lemma polynomial_tri k i : 0 <= k <= 64 -> 0 <= i < 2 ^ 63 -> polynomial i (2 ^ k) = tri i mod 2 ^ k.
Proof.
  intros Hk Hi. pose proof (tri_double i) as D.
  assert (W : forall z, u64 z mod 2 ^ k = z mod 2 ^ k).
  { intros z. unfold wrapU. apply Z.mod_mod_divide.
    exists (2 ^ (64 - k)). rewrite <- Z.pow_add_r by lia. f_equal. lia. }
  unfold polynomial, shrU. cbv zeta. rewrite !(wrapU_id 64 (i + 1)) by (unfold inU; lia).
  rewrite !Z.shiftr_div_pow2 by lia. change (2 ^ 1) with 2. pose proof (Z.div_mod i 2 ltac:(lia)) as Di.
  destruct (Z.eqb_spec (i mod 2) 0) as [E|E]; rewrite W; f_equal.
  - nia.
  - assert (M : i mod 2 = 1) by (pose proof (Z.mod_pos_bound i 2); lia).
    replace ((i + 1) / 2) with (i / 2 + 1) by (apply (Z.div_unique _ _ _ 0); lia). nia.
Qed.

(** ** Probing *)

Section Probing.
Context {Key T : Type} `{EqDecision Key} (key0 : Key) (value0 : T) (hash : Key -> Z).
Local Abbreviation entry := (@Entry Key T).
Local Abbreviation at_' := (at_ key0 value0).

(** The [j]-th slot of the probe sequence of a key. *)
Definition slot (cap : Z) (k : Key) (j : Z) : Z := (u64 (hash k) mod cap + tri j mod cap) mod cap.

Lemma slot_range cap k j : 0 < cap -> 0 <= slot cap k j < cap.
Proof. intros. by apply Z.mod_pos_bound. Qed.

Lemma slot_inj p k i j : 0 <= p -> 0 <= i < j -> j < 2 ^ p -> slot (2 ^ p) k i <> slot (2 ^ p) k j.
Proof.
  intros Hp Hi Hj E. pose proof (pow2_pos p Hp). apply (tri_inj p i j Hp Hi Hj).
  unfold slot in E. set (h := u64 (hash k) mod 2 ^ p) in E.
  assert (D : (tri i mod 2 ^ p - tri j mod 2 ^ p) mod 2 ^ p = 0).
  { replace (tri i mod 2 ^ p - tri j mod 2 ^ p) with ((h + tri i mod 2 ^ p) - (h + tri j mod 2 ^ p)) by lia.
    rewrite Zminus_mod, E, Z.sub_diag. apply Z.mod_0_l. lia. }
  rewrite <- Zminus_mod in D. rewrite <- (Z.add_0_r (tri j)), <- D.
  rewrite Z.add_mod_idemp_r by lia. f_equal. lia.
Qed.

(** The probe sequence is a permutation of the slots. *)
Lemma slot_onto p k q : 0 <= p -> 0 <= q < 2 ^ p -> exists j, 0 <= j < 2 ^ p /\ slot (2 ^ p) k j = q.
Proof.
  intros Hp Hq. set (n := Z.to_nat (2 ^ p)). set (l := map (fun j => slot (2 ^ p) k (Z.of_nat j)) (seq 0 n)).
  assert (N : List.NoDup l).
  { subst l. apply Injective_map_NoDup_in; [|apply List.seq_NoDup]. intros a b Ha%in_seq Hb%in_seq E.
    destruct (Nat.lt_trichotomy a b) as [L|[L|L]]; [|done|]; exfalso; revert E.
    - apply slot_inj; lia.
    - intros E. symmetry in E. revert E. apply slot_inj; lia. }
  assert (I : incl (map Z.of_nat (seq 0 n)) l).
  { apply NoDup_length_incl; [done| |].
    - subst l. by rewrite !length_map, !length_seq.
    - intros z (j & <- & Hj%in_seq)%in_map_iff. apply in_map_iff.
      pose proof (slot_range (2 ^ p) k (Z.of_nat j) (pow2_pos p Hp)). exists (Z.to_nat (slot (2 ^ p) k (Z.of_nat j))).
      split; [lia|]. apply in_seq. lia. }
  assert (Q : In q l).
  { apply I, in_map_iff. exists (Z.to_nat q). split; [lia|]. apply in_seq. lia. }
  apply in_map_iff in Q as (j & E & Hj%in_seq). exists (Z.of_nat j). split; [lia|done].
Qed.

(** A power-of-two capacity. *)
Definition pow2_cap (buf : list entry) (p : Z) : Prop := 0 <= p <= 62 /\ size_of buf = 2 ^ p.

(** The probe for [k] ends at a slot that is free or holds [k]. *)
Definition stops (buf : list entry) (k : Key) (q : Z) : bool :=
  negb (occupied (at_' buf q) && negb (bool_decide (key (at_' buf q) = k))).

Lemma probe_loop_spec buf p k j n i fuel : pow2_cap buf p ->
  stops buf k (slot (2 ^ p) k j) = true -> (forall j', 0 <= j' < j -> stops buf k (slot (2 ^ p) k j') = false) ->
  0 <= i -> i + Z.of_nat n = j -> j < 2 ^ p -> (n <= fuel)%nat ->
  probe_loop key0 value0 fuel buf k (hashIndex hash k (2 ^ p)) (i + 1) (slot (2 ^ p) k i) = Some (slot (2 ^ p) k j).
Proof.
  intros [Hp Hc] Hs Hn. revert i fuel. induction n as [|n IH]; intros i fuel Hi Hj Hlt Hf.
  - assert (i = j) as -> by lia. unfold stops in Hs. apply negb_true_iff in Hs.
    destruct fuel; cbn [probe_loop]; by rewrite Hs.
  - destruct fuel as [|fuel]; [lia|]. specialize (Hn i ltac:(lia)) as Hni. unfold stops in Hni.
    apply negb_false_iff in Hni. cbn [probe_loop]. rewrite Hni, Hc.
    assert (2 ^ p <= 2 ^ 62) by (apply Z.pow_le_mono_r; lia).
    rewrite (wrapU_id 64 (i + 1 + 1)) by (unfold inU; lia). rewrite polynomial_tri by lia.
    pose proof (Z.mod_pos_bound (tri (i + 1)) (2 ^ p) (pow2_pos p ltac:(lia))).
    pose proof (Z.mod_pos_bound (u64 (hash k)) (2 ^ p) (pow2_pos p ltac:(lia))).
    rewrite (wrapU_id 64) by (unfold hashIndex, inU; lia).
    change ((hashIndex hash k (2 ^ p) + tri (i + 1) mod 2 ^ p) mod 2 ^ p) with (slot (2 ^ p) k (i + 1)).
    apply IH; lia.
Qed.

Lemma slot_0 p k : 0 <= p -> slot (2 ^ p) k 0 = hashIndex hash k (2 ^ p).
Proof.
  intros. pose proof (pow2_pos p ltac:(done)). unfold slot, hashIndex, tri. change (0 * (0 + 1) / 2) with 0.
  rewrite Z.mod_0_l, Z.add_0_r by lia. apply Z.mod_mod. lia.
Qed.

(** The least index below [n] where a test holds. *)
Lemma least (P : Z -> bool) (j : Z) : 0 <= j -> P j = true ->
  exists m, 0 <= m <= j /\ P m = true /\ forall j', 0 <= j' < m -> P j' = false.
Proof.
  intros Hj HP. assert (G : forall n, 0 <= n -> (exists m, 0 <= m < n /\ P m = true /\ forall j', 0 <= j' < m -> P j' = false)
                        \/ (forall j', 0 <= j' < n -> P j' = false)).
  { apply natlike_ind; [right; lia|]. intros n Hn [(m & ? & ? & ?)|N]; [left; exists m; split_and!; (done || lia)|].
    destruct (P n) eqn:E; [left; exists n; split_and!; (done || lia)|]. right. intros j' Hj'.
    destruct (decide (j' = n)) as [->|]; [done|]. apply N. lia. }
  destruct (G (j + 1) ltac:(lia)) as [(m & ? & ? & ?)|N].
  - exists m. split_and!; (done || lia).
  - rewrite N in HP by lia. done.
Qed.

(** With a slot where it can stop, the probe ends within [capacity] iterations, at the first such slot of its
    sequence. *)
Lemma probe_stops buf p k q fuel : pow2_cap buf p -> (length buf <= fuel)%nat ->
  0 <= q < 2 ^ p -> stops buf k q = true ->
  exists j, 0 <= j < 2 ^ p /\ probe key0 value0 hash fuel buf k = Some (slot (2 ^ p) k j) /\
    stops buf k (slot (2 ^ p) k j) = true /\ forall j', 0 <= j' < j -> stops buf k (slot (2 ^ p) k j') = false.
Proof.
  intros Hb Hf Hq Hs. pose proof Hb as [Hp Hc]. destruct (slot_onto p k q ltac:(lia) Hq) as (j0 & Hj0 & <-).
  destruct (least (fun j => stops buf k (slot (2 ^ p) k j)) j0 ltac:(lia) Hs) as (j & Hj & Hsj & Hn).
  exists j. split_and!; [lia|lia| |done|done]. unfold probe. rewrite Hc. cbv zeta. unfold size_of in Hc.
  rewrite <- slot_0 at 2 by lia. apply (probe_loop_spec buf p k j (Z.to_nat j) 0); (done || lia).
Qed.
End Probing.

(** ** The table as a finite map *)

Section Map.
Context {Key T : Type} `{Countable Key} (key0 : Key) (value0 : T) (hash : Key -> Z).
Local Abbreviation entry := (@Entry Key T).
Local Abbreviation at_' := (at_ key0 value0).

(** Entry [e] is in slot [q]. *)
Definition holds (buf : list entry) (q : Z) (e : entry) : Prop :=
  0 <= q < size_of buf /\ at_' buf q = e /\ occupied e = true.

(** Every entry can be reached: the slots before its own in its probe sequence hold other keys. *)
Definition reachable (buf : list entry) (p : Z) : Prop := forall q e, holds buf q e ->
  exists j, 0 <= j < 2 ^ p /\ slot hash (2 ^ p) (key e) j = q /\
    forall j', 0 <= j' < j -> stops key0 value0 buf (key e) (slot hash (2 ^ p) (key e) j') = false.

(** The buffer, of capacity [2^p], holds the finite map [M]. *)
Definition represents (buf : list entry) (p : Z) (M : gmap Key T) : Prop :=
  pow2_cap buf p /\ reachable buf p /\
  forall k v, M !! k = Some v <-> exists q e, holds buf q e /\ key e = k /\ value e = v.

Lemma stops_false buf k q : stops key0 value0 buf k q = false <-> occupied (at_' buf q) = true /\ key (at_' buf q) <> k.
Proof. unfold stops. by rewrite negb_false_iff, andb_true_iff, negb_true_iff, bool_decide_eq_false. Qed.

Lemma stops_true buf k q : stops key0 value0 buf k q = true <-> occupied (at_' buf q) = false \/ key (at_' buf q) = k.
Proof.
  unfold stops. rewrite negb_true_iff, andb_false_iff, negb_false_iff, bool_decide_eq_true. done.
Qed.

Lemma holds_unique buf p q q' e e' : reachable buf p -> holds buf q e -> holds buf q' e' -> key e = key e' -> q = q'.
Proof.
  intros R He He' E. destruct (R q e He) as (j & Hj & Eq & N). destruct (R q' e' He') as (j' & Hj' & Eq' & N').
  destruct He as (_ & A & O), He' as (_ & A' & O'). rewrite <- E in Eq', N'.
  destruct (Z.lt_trichotomy j j') as [L|[->|L]]; [|congruence|]; exfalso.
  - specialize (N' j ltac:(lia)). rewrite Eq in N'. apply stops_false in N' as [_ N']. congruence.
  - specialize (N j' ltac:(lia)). rewrite Eq' in N. apply stops_false in N as [_ N]. congruence.
Qed.

Lemma at_in buf q : 0 <= q < size_of buf -> at_' buf q ∈ buf.
Proof. intros Hq. apply list_elem_of_In, nth_In. unfold size_of in Hq. lia. Qed.

(** A map smaller than the capacity leaves a slot free. *)
Lemma free_slot buf p M : represents buf p M -> Z.of_nat (base.size M) < 2 ^ p ->
  exists q, 0 <= q < 2 ^ p /\ occupied (at_' buf q) = false.
Proof.
  intros ([Hp Hc] & R & HM) Hs.
  destruct (decide (Exists (fun q => occupied (at_' buf (Z.of_nat q)) = false) (seq 0 (length buf)))) as [X|X].
  { apply Exists_exists in X as (q & Hq%list_elem_of_In%in_seq & O). exists (Z.of_nat q). unfold size_of in Hc.
    split; [lia|done]. }
  exfalso. assert (F : forall q, 0 <= q < size_of buf -> holds buf q (at_' buf q)).
  { intros q Hq. split_and!; [lia|lia|done|]. destruct (occupied (at_' buf q)) eqn:O; [done|]. exfalso. apply X.
    apply Exists_exists. exists (Z.to_nat q). unfold size_of in Hq. split; [apply list_elem_of_In, in_seq; lia|].
    by rewrite Z2Nat.id by lia. }
  set (ks := (fun q => key (at_' buf (Z.of_nat q))) <$> seq 0 (length buf)).
  assert (N : NoDup ks).
  { apply NoDup_fmap_2_strong; [|apply NoDup_seq]. intros a b Ha%list_elem_of_In%in_seq Hb%list_elem_of_In%in_seq E.
    apply Nat2Z.inj. unfold size_of in F. eapply (holds_unique buf p); [done|apply F; lia|apply F; lia|done]. }
  assert (I : (list_to_set ks : gset Key) ⊆ dom M).
  { intros k Hk%elem_of_list_to_set. apply list_elem_of_fmap in Hk as (q & -> & Hq%list_elem_of_In%in_seq).
    apply elem_of_dom. exists (value (at_' buf (Z.of_nat q))). apply HM. eexists _, _. split; [|done].
    apply F. unfold size_of. lia. }
  apply subseteq_size in I. rewrite size_list_to_set in I by done. rewrite size_dom in I.
  subst ks. rewrite length_fmap, length_seq in I. unfold size_of in Hc. lia.
Qed.

(** What a probe finds. *)
Lemma probe_spec buf p M k fuel : represents buf p M -> Z.of_nat (base.size M) < 2 ^ p -> (length buf <= fuel)%nat ->
  exists j, 0 <= j < 2 ^ p /\ probe key0 value0 hash fuel buf k = Some (slot hash (2 ^ p) k j) /\
    (forall j', 0 <= j' < j -> stops key0 value0 buf k (slot hash (2 ^ p) k j') = false) /\
    let e := at_' buf (slot hash (2 ^ p) k j) in
    match M !! k with Some v => occupied e = true /\ key e = k /\ value e = v | None => occupied e = false end.
Proof.
  intros HR Hs Hf. destruct (free_slot buf p M HR Hs) as (q & Hq & Oq). pose proof HR as ([Hp Hc] & R & HM).
  destruct (probe_stops key0 value0 hash buf p k q fuel) as (j & Hj & E & Hst & Hn); [done|done|done| |].
  { apply stops_true. by left. }
  exists j. split_and!; [lia|lia|done|done|]. cbv zeta. set (s := slot hash (2 ^ p) k j) in *.
  pose proof (slot_range hash (2 ^ p) k j (pow2_pos p ltac:(lia))) as Hr. fold s in Hr.
  destruct (occupied (at_' buf s)) eqn:O.
  - apply stops_true in Hst as [?|Hk]; [congruence|].
    assert (L : M !! k = Some (value (at_' buf s))).
    { apply HM. exists s, (at_' buf s). split; [|done]. split_and!; (done || lia). }
    rewrite L. done.
  - destruct (M !! k) as [v|] eqn:L; [|done]. exfalso. apply HM in L as (q' & e & He & Hk & _).
    destruct (R q' e He) as (j0 & Hj0 & E0 & N0). rewrite Hk in E0, N0. destruct He as (_ & A & Oe).
    destruct (Z.lt_trichotomy j j0) as [L|[->|L]].
    + specialize (N0 j ltac:(lia)). apply stops_false in N0 as [N0 _]. fold s in N0. congruence.
    + subst s. congruence.
    + specialize (Hn j0 ltac:(lia)). rewrite E0 in Hn. apply stops_false in Hn as [_ Hn]. congruence.
Qed.

Lemma size_of_put (buf : list entry) q e : size_of (put_at buf q e) = size_of buf.
Proof. unfold size_of, put_at. by rewrite length_insert. Qed.

Lemma at_put (buf : list entry) q q' e : 0 <= q < size_of buf -> 0 <= q' ->
  at_' (put_at buf q e) q' = if decide (q' = q) then e else at_' buf q'.
Proof.
  intros Hq Hq'. unfold at_, put_at, size_of in *. rewrite !nth_lookup. case_decide as E.
  - subst. rewrite list_lookup_insert_eq by lia. done.
  - rewrite list_lookup_insert_ne by lia. done.
Qed.

(** Putting a pair where the probe ended is inserting it in the map. *)
Lemma insert_represents buf p M k v j : represents buf p M -> 0 <= j < 2 ^ p ->
  (forall j', 0 <= j' < j -> stops key0 value0 buf k (slot hash (2 ^ p) k j') = false) ->
  stops key0 value0 buf k (slot hash (2 ^ p) k j) = true ->
  represents (put_at buf (slot hash (2 ^ p) k j) (mkEntry k v true)) p (<[k := v]> M).
Proof.
  intros ([Hp Hc] & R & HM) Hj Hn Hst. set (s := slot hash (2 ^ p) k j) in *.
  pose proof (slot_range hash (2 ^ p) k j (pow2_pos p ltac:(lia))) as Hr. fold s in Hr.
  assert (A : forall q, 0 <= q -> at_' (put_at buf s (mkEntry k v true)) q = if decide (q = s) then mkEntry k v true else at_' buf q).
  { intros q Hq. apply at_put; lia. }
  assert (Hh : forall q e, holds (put_at buf s (mkEntry k v true)) q e <->
                 (q = s /\ e = mkEntry k v true) \/ (q <> s /\ holds buf q e)).
  { intros q e. unfold holds. rewrite size_of_put. split.
    - intros (Hq & E & O). rewrite A in E by lia. case_decide; [by left|]. right. done.
    - intros [[-> ->]|(N & Hq & E & O)]; split_and!; try lia; try done; rewrite A by lia.
      + by rewrite decide_True by done.
      + by rewrite decide_False by done. }
  split_and!.
  - split; [lia|]. by rewrite size_of_put.
  - assert (St : forall k' q, 0 <= q -> stops key0 value0 buf k' q = false -> (q = s -> k' <> k) ->
        stops key0 value0 (put_at buf s (mkEntry k v true)) k' q = false).
    { intros k' q Hq N Nk. apply stops_false. rewrite A by done. case_decide; [by split; [|intros <-; apply Nk]|].
      by apply stops_false. }
    intros q e He. apply Hh in He as [[-> ->]|[Nq He]].
    + exists j. split_and!; [lia|lia|done|]. cbn [key]. intros j' Hj'. apply St; [|by apply Hn|].
      * apply slot_range, pow2_pos. lia.
      * intros E. rewrite <- E, Hn in Hst by done. done.
    + destruct (R q e He) as (j0 & Hj0 & E0 & N0). exists j0. split_and!; [lia|lia|done|]. intros j' Hj'.
      apply St; [apply slot_range, pow2_pos; lia|by apply N0|]. intros E Ek. specialize (N0 j' Hj'). rewrite E in N0.
      apply stops_false in N0 as [O N0]. apply stops_true in Hst as [?|Hk]; congruence.
  - intros k' v'. rewrite lookup_insert_Some, HM. split.
    + intros [[-> ->]|[Nk (q & e & He & Ek & Ev)]].
      * exists s, (mkEntry k' v' true). split; [|done]. apply Hh. by left.
      * exists q, e. split; [|done]. apply Hh. right. split; [|done]. intros ->. destruct He as (_ & E & O).
        apply stops_true in Hst as [?|?]; congruence.
    + intros (q & e & He & Ek & Ev). apply Hh in He as [[-> ->]|[Nq He]]; cbn in *; [by left|].
      right. split; [|by exists q, e]. intros Ekk.
      (* another slot with the same key: its chain passes through [s] or ends before it *)
      destruct (R q e He) as (j0 & Hj0 & E0 & N0). destruct He as (_ & E & O). rewrite Ek, <- Ekk in E0, N0.
      destruct (Z.lt_trichotomy j j0) as [L|[->|L]].
      * specialize (N0 j ltac:(lia)). fold s in N0. congruence.
      * by subst s.
      * specialize (Hn j0 ltac:(lia)). rewrite E0 in Hn. apply stops_false in Hn as [_ Hn]. congruence.
Qed.

Lemma bufferInsert_spec buf p M k v fuel : represents buf p M -> Z.of_nat (base.size M) < 2 ^ p -> (length buf <= fuel)%nat ->
  exists buf', bufferInsert key0 value0 hash fuel buf k v = Some (bool_decide (is_Some (M !! k)), buf') /\
    represents buf' p (<[k := v]> M).
Proof.
  intros HR Hs Hf. destruct (probe_spec buf p M k fuel HR Hs Hf) as (j & Hj & E & Hn & He). cbv zeta in He.
  unfold bufferInsert. rewrite E. eexists. split.
  - do 2 f_equal. destruct (M !! k) as [v'|]; [by destruct He as [-> _]|by rewrite He].
  - apply insert_represents; [done|done|done|]. apply stops_true.
    destruct (M !! k) as [v'|]; [right; by destruct He as (_ & ? & _)|by left].
Qed.

Lemma represents_empty p : 0 <= p <= 62 -> represents (repeat (Entry0 key0 value0) (Z.to_nat (2 ^ p))) p ∅.
Proof.
  intros Hp. assert (N : forall q e, ~ holds (repeat (Entry0 key0 value0) (Z.to_nat (2 ^ p))) q e).
  { intros q e (_ & E & O). unfold at_ in E. rewrite nth_repeat in E. by subst e. }
  split_and!.
  - split; [done|]. unfold size_of. rewrite repeat_length. pose proof (pow2_pos p ltac:(lia)). lia.
  - intros q e He. by destruct (N q e).
  - intros k v. rewrite lookup_empty. split; [done|]. intros (q & e & He & _). by destruct (N q e).
Qed.
End Map.

(** ** The operations *)

Section Operations.
Context {Key T : Type} `{Countable Key} (key0 : Key) (value0 : T) (hash : Key -> Z).
Local Abbreviation entry := (@Entry Key T).
Local Abbreviation Table := (@table Key T).
Local Abbreviation reps := (represents key0 value0 hash).

(** The table holds the map [M], with at least one free slot unless it has no buffer yet. *)
Definition rep (t : Table) (M : gmap Key T) : Prop :=
  m_size t = Z.of_nat (base.size M) /\
  ((m_buffer t = [] /\ M = ∅) \/
   exists p, 3 <= p /\ reps (m_buffer t) p M /\ Z.of_nat (base.size M) < 2 ^ p).

(** A load factor that is exceeded before the last slot is taken, at every capacity. *)
Definition roomy (maxLoad : spec_float) : Prop := forall p, 3 <= p <= 62 ->
  SFleb maxLoad (float_div (float_of_Z (2 ^ p - 1)) (float_of_Z (2 ^ p))) = true.

(** The memory resource cannot serve more than [2^62] entries. *)
Definition bounded (ok : Z -> bool) : Prop := forall n, ok n = true -> n <= 2 ^ 62.

(** A table that holds [M], and whose maximal load is [load], has reached it, and the memory resource refuses its next capacity. *)
Definition grow_refused (ok : Z -> bool) (load : spec_float) (M : gmap Key T) : Prop :=
  exists t, rep t M /\ maxLoadFactor t = load /\ crowded t = true /\ ok (nextCapacity t) = false.

Definition distinct (old : list entry) : Prop := forall i j e e',
  old !! i = Some e -> old !! j = Some e' -> occupied e = true -> occupied e' = true -> key e = key e' -> i = j.

Lemma rehash_spec fuel old : forall buf p M, reps buf p M -> (length buf <= fuel)%nat ->
  Z.of_nat (base.size M) + Z.of_nat (length old) < 2 ^ p -> distinct old ->
  (forall e, e ∈ old -> occupied e = true -> M !! key e = None) ->
  exists buf' M', rehash key0 value0 hash fuel old buf = Some (Some buf') /\ reps buf' p M' /\
    forall k v, M' !! k = Some v <->
      M !! k = Some v \/ exists e, e ∈ old /\ occupied e = true /\ key e = k /\ value e = v.
Proof.
  induction old as [|e old IH]; intros buf p M HR Hf Hs Hd Hn; cbn [rehash length] in *.
  - exists buf, M. split_and!; [done|done|]. intros k v. split; [by left|]. intros [?|(e & []%not_elem_of_nil & _)]. done.
  - assert (Hd' : distinct old).
    { intros i j a b Ha Hb Oa Ob E. enough (S i = S j) by lia. by apply (Hd (S i) (S j) a b). }
    assert (Tail : forall P : entry -> Prop, (exists e', e' ∈ e :: old /\ P e') <-> P e \/ exists e', e' ∈ old /\ P e').
    { intros P. split.
      - intros (e' & [->|?]%elem_of_cons & ?); [by left|right; by exists e'].
      - intros [?|(e' & ? & ?)]; [exists e; split; [by left|done]|exists e'; split; [by right|done]]. }
    destruct (occupied e) eqn:O.
    + destruct (bufferInsert_spec key0 value0 hash buf p M (key e) (value e) fuel HR ltac:(lia) Hf) as (buf1 & E1 & R1).
      assert (Me : M !! key e = None) by (apply Hn; [by left|done]). rewrite E1, Me.
      destruct (IH buf1 p (<[key e := value e]> M) R1) as (buf' & M' & E' & R' & L').
      * pose proof HR as ([_ C] & _). pose proof R1 as ([_ C1] & _). unfold size_of in *. lia.
      * rewrite map_size_insert_None by done. lia.
      * done.
      * intros e' Hin Oe'. rewrite lookup_insert_ne; [apply Hn; [by right|done]|]. intros Ek.
        apply list_elem_of_lookup in Hin as [i Hi]. specialize (Hd 0%nat (S i) e e' eq_refl Hi O Oe' Ek). done.
      * exists buf', M'. split_and!; [done|done|]. intros k v. rewrite L', Tail, lookup_insert_Some. split.
        -- intros [[[-> ->]|[? ?]]|?]; [right; left; done|by left|by do 2 right].
        -- intros [Lk|[(_ & <- & <-)|?]]; [left; right; split; [congruence|done]|left; by left|by right].
    + destruct (IH buf p M HR Hf ltac:(lia) Hd') as (buf' & M' & E' & R' & L').
      * intros e' Hin. apply Hn. by right.
      * exists buf', M'. split_and!; [done|done|]. intros k v. rewrite L', Tail.
        split; [intros [?|?]; auto|intros [?|[[? _]|?]]; auto; congruence].
Qed.

Lemma holds_lookup buf q e : holds key0 value0 buf q e <-> 0 <= q /\ buf !! Z.to_nat q = Some e /\ occupied e = true.
Proof.
  unfold holds, at_, size_of. rewrite nth_lookup. split.
  - intros (Hq & E & O). split_and!; [lia| |done]. destruct (lookup_lt_is_Some_2 buf (Z.to_nat q)) as [e' L]; [lia|].
    rewrite L in *. cbn in E. by subst.
  - intros (Hq & L & O). pose proof (lookup_lt_Some _ _ _ L). split_and!; [lia|lia| |done]. by rewrite L.
Qed.

(** Moving to a buffer of twice the capacity keeps the map. *)
Lemma rehash_represents fuel buf p M : reps buf p M -> Z.of_nat (base.size M) < 2 ^ p -> p + 1 <= 62 ->
  (2 * length buf <= fuel)%nat ->
  exists buf', rehash key0 value0 hash fuel buf (repeat (Entry0 key0 value0) (Z.to_nat (2 ^ (p + 1)))) = Some (Some buf') /\
    reps buf' (p + 1) M.
Proof.
  intros HR Hs Hp Hf. pose proof HR as ([Hp0 Hc] & R & HM).
  assert (P : 2 ^ (p + 1) = 2 * 2 ^ p) by (rewrite Z.pow_add_r by lia; lia).
  destruct (rehash_spec fuel buf (repeat (Entry0 key0 value0) (Z.to_nat (2 ^ (p + 1)))) (p + 1) ∅)
    as (buf' & M' & E & R' & L).
  - apply represents_empty. lia.
  - rewrite repeat_length. unfold size_of in Hc. lia.
  - rewrite map_size_empty. unfold size_of in Hc. lia.
  - intros i j e e' Hi Hj O O' Ek. apply Nat2Z.inj. eapply (holds_unique key0 value0 hash buf p); [done| | |exact Ek].
    + apply holds_lookup. rewrite Nat2Z.id. split_and!; (done || lia).
    + apply holds_lookup. rewrite Nat2Z.id. split_and!; (done || lia).
  - intros. apply lookup_empty.
  - exists buf'. split; [done|]. replace M with M'; [done|]. apply map_eq. intros k. apply option_eq. intros v.
    rewrite L, HM, lookup_empty. split.
    + intros [?|(e & [i Hi]%list_elem_of_lookup & O & Ek & Ev)]; [done|]. exists (Z.of_nat i), e. split; [|done].
      apply holds_lookup. rewrite Nat2Z.id. split_and!; (done || lia).
    + intros (q & e & He & Ek & Ev). right. exists e. apply holds_lookup in He as (_ & Hi & O).
      split_and!; [by eapply list_elem_of_lookup_2|done|done|done].
Qed.

Context (ok : Z -> bool) (Hok : bounded ok).

(** Enough iterations for every loop of an operation on [t]. *)
Definition enough (t : Table) (fuel : nat) : Prop := (2 * length (m_buffer t) + 8 <= fuel)%nat.

Lemma rep_capacity t M : rep t M -> capacity t = 0 /\ M = ∅ /\ m_buffer t = [] \/
  exists p, 3 <= p /\ reps (m_buffer t) p M /\ Z.of_nat (base.size M) < 2 ^ p /\ capacity t = 2 ^ p /\ 0 < capacity t.
Proof.
  intros [_ [[E ->]|(p & Hp & HR & Hs)]]; [left; unfold capacity; by rewrite E|right].
  exists p. pose proof HR as ([? C] & _). unfold capacity. rewrite C. pose proof (pow2_pos p). split_and!; (done || lia).
Qed.

(** Growing either finds room for at least one more entry or leaves the table as it was. *)
Lemma grow_spec t M fuel : rep t M -> enough t fuel ->
  (exists t' p, resize key0 value0 hash fuel ok t (nextCapacity t) = Some (Success, t') /\ 3 <= p /\
     reps (m_buffer t') p M /\ Z.of_nat (base.size M) + 1 < 2 ^ p /\ m_size t' = m_size t /\
     maxLoadFactor t' = maxLoadFactor t /\ (length (m_buffer t') <= fuel)%nat) \/
  resize key0 value0 hash fuel ok t (nextCapacity t) = Some (BadAlloc, t) /\ ok (nextCapacity t) = false.
Proof.
  intros HR Hf. unfold enough in Hf. unfold resize, new_buffer, nextCapacity.
  destruct (rep_capacity t M HR) as [(C & -> & B)|(p & Hp & R & Hs & C & Cp)].
  - rewrite C. cbn [Z.eqb Z.leb Z.compare orb]. change (8 <=? 0) with false. cbv iota.
    destruct (ok 8) eqn:Ok; [left|right; done]. rewrite B. cbn [rehash].
    exists (mkTable (m_size t) (repeat (Entry0 key0 value0) 8) (maxLoadFactor t)), 3.
    rewrite map_size_empty. split_and!; try done; try lia; [|cbn; lia].
    by apply (represents_empty key0 value0 hash 3).
  - rewrite (proj2 (Z.eqb_neq _ _)) by lia. pose proof R as ([Hp2 Hc] & _).
    assert (P : 2 ^ (p + 1) = 2 * 2 ^ p) by (rewrite Z.pow_add_r by lia; lia).
    assert (2 ^ p <= 2 ^ 62) by (apply Z.pow_le_mono_r; lia).
    rewrite C, wrapU_id by (unfold inU; lia). rewrite (proj2 (Z.leb_gt _ _)), (proj2 (Z.eqb_neq _ _)) by lia. cbn [orb].
    destruct (ok (2 ^ p * 2)) eqn:Ok; [left|right; done].
    assert (p + 1 <= 62).
    { apply Hok in Ok. assert (p < 62); [|lia]. apply (Z.pow_lt_mono_r_iff 2); lia. }
    destruct (rehash_represents fuel (m_buffer t) p M R Hs) as (buf' & E & R'); [lia|lia|].
    replace (2 ^ p * 2) with (2 ^ (p + 1)) by lia. rewrite E.
    exists (mkTable (m_size t) buf' (maxLoadFactor t)), (p + 1). pose proof R' as ([_ C'] & _). unfold size_of in *.
    split_and!; try done; try lia. cbn [m_buffer]. lia.
Qed.

(** [put] inserts the pair in the map, or is refused by the memory resource with the table unchanged. *)
Lemma put_correct t M k v fuel : rep t M -> roomy (maxLoadFactor t) -> enough t fuel ->
  exists s t', put key0 value0 hash fuel ok t k v = Some (s, t') /\ maxLoadFactor t' = maxLoadFactor t /\
    (s = Success /\ rep t' (<[k := v]> M) \/ s = BadAlloc /\ t' = t /\ crowded t = true /\ ok (nextCapacity t) = false).
Proof.
  intros HR Hroom Hf. pose proof HR as [Hsz _]. unfold put.
  assert (Insert : forall t1 p, 3 <= p -> reps (m_buffer t1) p M -> Z.of_nat (base.size M) + 1 < 2 ^ p -> m_size t1 = m_size t ->
    maxLoadFactor t1 = maxLoadFactor t -> (length (m_buffer t1) <= fuel)%nat ->
    exists t', (let? (wasOccupied, buf) := bufferInsert key0 value0 hash fuel (m_buffer t1) k v in
      Some (Success, mkTable (if wasOccupied : bool then m_size t1 else u64 (m_size t1 + 1)) buf (maxLoadFactor t1))) =
        Some (Success, t') /\ maxLoadFactor t' = maxLoadFactor t /\ rep t' (<[k := v]> M)).
  { intros t1 p Hp R Hs Em El Hl.
    destruct (bufferInsert_spec key0 value0 hash (m_buffer t1) p M k v fuel R ltac:(lia) Hl) as (buf' & E & R').
    rewrite E. eexists. split; [done|]. split; [done|]. pose proof R as ([Hp2 _] & _).
    assert (2 ^ p <= 2 ^ 62) by (apply Z.pow_le_mono_r; lia).
    assert (Sz : Z.of_nat (base.size (<[k := v]> M)) = if bool_decide (is_Some (M !! k)) then m_size t1 else u64 (m_size t1 + 1)).
    { case_bool_decide as B.
      - destruct B as [v' B]. rewrite map_size_insert_Some by done. lia.
      - rewrite map_size_insert_None by (by apply eq_None_not_Some). rewrite wrapU_id by (unfold inU; lia). lia. }
    split; [by rewrite Sz|]. right. exists p. cbn [m_buffer]. split_and!; [done|done|].
    rewrite map_size_insert. destruct (M !! k); unfold id; lia. }
  destruct (crowded t) eqn:Cr.
  - destruct (grow_spec t M fuel HR Hf) as [(t1 & p & E & Hp & R & Hs & Em & El & Hl)|[E Nok]]; rewrite E.
    + rewrite decide_True by done. destruct (Insert t1 p) as (t' & E' & ? & ?); try done.
      exists Success, t'. split; [exact E'|]. split; [done|]. by left.
    + rewrite decide_False by done. exists BadAlloc, t. split; [done|]. split; [done|]. by right.
  - rewrite decide_True by done. apply orb_false_iff in Cr as [C0 Cl].
    destruct (rep_capacity t M HR) as [(C & _)|(p & Hp & R & Hs & C & Cp)]; [by rewrite C in C0|].
    destruct (Insert t p) as (t' & E' & ? & ?); try done.
    + destruct (decide (Z.of_nat (base.size M) + 1 = 2 ^ p)) as [E|]; [|lia]. exfalso.
      pose proof R as ([Hp2 _] & _). unfold loadFactor in Cl. rewrite Hsz, C in Cl.
      replace (Z.of_nat (base.size M)) with (2 ^ p - 1) in Cl by lia. rewrite Hroom in Cl by lia. done.
    + unfold enough in Hf. lia.
    + exists Success, t'. split; [exact E'|]. split; [done|]. by left.
Qed.

Lemma get_correct t M k fuel : rep t M -> enough t fuel -> get key0 value0 hash fuel t k = Some (M !! k).
Proof.
  intros HR Hf. unfold get. destruct (rep_capacity t M HR) as [(C & -> & _)|(p & Hp & R & Hs & C & Cp)].
  - rewrite C. cbn. by rewrite lookup_empty.
  - rewrite (proj2 (Z.eqb_neq _ _)) by lia. unfold enough in Hf.
    destruct (probe_spec key0 value0 hash (m_buffer t) p M k fuel R Hs ltac:(lia)) as (j & Hj & E & _ & He). cbv zeta in He.
    rewrite E. cbv zeta. destruct (M !! k) as [v|].
    + destruct He as (-> & Ek & ->). by rewrite bool_decide_true.
    + by rewrite He.
Qed.

Lemma contains_correct t M k fuel : rep t M -> enough t fuel ->
  contains key0 value0 hash fuel t k = Some (bool_decide (is_Some (M !! k))).
Proof.
  intros HR Hf. pose proof (get_correct t M k fuel HR Hf) as G. unfold get, contains in *.
  destruct (capacity t =? 0); [by injection G as <-|]. destruct (probe _ _ _ _ _ _) as [q|]; [|done].
  cbv zeta in *. injection G as <-. by destruct (_ && _).
Qed.

Lemma clear_rep t M : rep t M -> rep (clear t) ∅.
Proof.
  intros [_ D]. split; [done|]. destruct D as [[E _]|(p & Hp & ([Hp2 C] & _) & _)]; [left; cbn; by rewrite E|right].
  exists p. assert (N : forall q e, ~ holds key0 value0 (m_buffer (clear t)) q e).
  { intros q e (_ & L & O)%holds_lookup. cbn in L. rewrite list_lookup_fmap in L.
    destruct (m_buffer t !! Z.to_nat q); [|done]. by injection L as <-. }
  split_and!; [done| |rewrite map_size_empty; pose proof (pow2_pos p); lia]. split_and!.
  - split; [done|]. unfold size_of in *. cbn. by rewrite length_map.
  - intros q e He. by destruct (N q e).
  - intros k v. rewrite lookup_empty. split; [done|]. intros (q & e & He & _). by destruct (N q e).
Qed.
Lemma pow2_land c : 0 < c -> Z.land c (c - 1) = 0 -> c = 2 ^ Z.log2 c.
Proof.
  intros Hc E. pose proof (Z.log2_spec c Hc) as [L U]. pose proof (Z.log2_nonneg c). destruct (Z.eq_dec c (2 ^ Z.log2 c)) as [|N]; [done|exfalso].
  assert (B : Z.testbit (Z.land c (c - 1)) (Z.log2 c) = true); [|by rewrite E, Z.bits_0 in B].
  rewrite Z.land_spec, Z.bit_log2 by lia. replace (Z.log2 c) with (Z.log2 (c - 1)).
  - apply Z.bit_log2. lia.
  - apply Z.log2_unique; lia.
Qed.

(** A table that has no buffer yet is given one for at least [n] entries, or the memory resource refuses. *)
Lemma initialize_rep t n : rep t ∅ -> m_buffer t = [] -> 0 <= n < 2 ^ 61 ->
  exists s t', initialize key0 value0 ok t n = Done (s, t') /\ maxLoadFactor t' = maxLoadFactor t /\ rep t' ∅ /\ 
    (s = Success /\ n <= capacity t' \/ s = BadAlloc /\ m_buffer t' = [] /\ exists c, n <= c <= 2 * Z.max n 8 /\ ok c = false).
Proof.
  intros [Hs _] Hb Hn. unfold initialize.
  set (c := if (n <? 8) && negb (n =? 0) then 8 else n). cbv zeta.
  assert (New : forall c', c' = 0 /\ n = 0 \/ (exists p, c' = 2 ^ p /\ 3 <= p <= 62 /\ n <= 2 ^ p) -> c' <= 2 * Z.max n 8 -> exists s t', 
    Done match new_buffer key0 value0 ok c' with
        | Some b => (Success, mkTable (m_size t) b (maxLoadFactor t))
        | None => (BadAlloc, mkTable (m_size t) [] (maxLoadFactor t))
        end = Done (s, t') /\ maxLoadFactor t' = maxLoadFactor t /\ rep t' ∅ /\ 
    (s = Success /\ n <= capacity t' \/ s = BadAlloc /\ m_buffer t' = [] /\ exists c, n <= c <= 2 * Z.max n 8 /\ ok c = false)).
  { intros c' D B. unfold new_buffer. destruct ((c' =? 0) || ok c') eqn:O; eexists _, _; (split; [done|]); (split; [done|]).
    - destruct D as [[-> ->]|(p & -> & Hp & Hnp)].
      + split; [|left; split; [done|unfold capacity, size_of; lia]]. split; [done|]. by left.
      + split; [|left; split; [done|]].
        * split; [done|]. right. exists p. split; [lia|]. rewrite map_size_empty. split; [apply represents_empty; lia|]. lia.
        * unfold capacity, size_of. cbn [m_buffer]. rewrite repeat_length, Z2Nat.id by (pose proof (pow2_pos p); lia). lia.
    - split; [split; [done|]; by left|]. right. split; [done|]. split; [done|]. exists c'. apply orb_false_iff in O as [_ ?].
      split; [|done]. destruct D as [[-> ->]|(p & -> & _ & ?)]; lia. }
  destruct (Z.eqb_spec n 0) as [->|N].
  { subst c. cbn. apply New; [by left|lia]. }
  assert (Hc : 8 <= c /\ n <= c /\ c < 2 ^ 61 /\ c <= Z.max n 8).
  { subst c. destruct (Z.ltb_spec n 8); cbn; lia. }
  rewrite (wrapU_id 64 (c - 1)) by (unfold inU; lia). destruct (Z.eqb_spec (Z.land c (c - 1)) 0) as [P|P].
  - cbn [bindo]. apply New; [|lia]. right. exists (Z.log2 c). apply pow2_land in P; [|lia]. split; [done|]. rewrite <- P. split; [|lia].
    split; [apply Z.log2_le_pow2; lia|]. enough (Z.log2 c < 61) by lia. apply Z.log2_lt_pow2; lia.
  - pose proof (BitManip.up2_correct c ltac:(unfold inU; lia)) as U. destruct (BitManip.up2 c) as [v|e]; [|lia]. cbn [bindo].
    destruct U as (_ & (k & -> & Hk) & Hp & _). apply New; [|lia]. right. exists k. split; [done|]. split; [|lia].
    assert (2 ^ k < 2 ^ 62 /\ 2 ^ 3 < 2 ^ k) as [K1%Z.pow_lt_mono_r_iff K2%Z.pow_lt_mono_r_iff] by lia; lia.
Qed.

(** Asking for no entries is never refused. *)
Lemma initialize_none t : rep t ∅ -> m_buffer t = [] ->
  exists t', initialize key0 value0 ok t 0 = Done (Success, t') /\ maxLoadFactor t' = maxLoadFactor t /\ rep t' ∅.
Proof.
  intros R Hb. destruct (initialize_rep t 0 R Hb ltac:(lia)) as (s & t' & W & Em & R' & _). exists t'. split; [|done]. rewrite W. f_equal.
  change (Done (Success, mkTable (m_size t) (@nil Entry) (maxLoadFactor t)) = Done (s, t')) in W. congruence.
Qed.

End Operations.

(** ** Runs *)

Section Runs.
Context {Key T : Type} `{Countable Key} (key0 : Key) (value0 : T) (hash : Key -> Z) (ok : Z -> bool).
Local Abbreviation Table := (@table Key T).

Inductive op := Put (k : Key) (v : T) | Get (k : Key) | Contains (k : Key) | Clear.
Inductive answer := AStatus (s : Status) | AGet (r : option T) | AContains (b : bool) | ANone.

(** One operation, each of its loops bounded by twice the capacity plus eight. *)
Definition exec (t : Table) (o : op) : option (answer * Table) :=
  let fuel := (2 * length (m_buffer t) + 8)%nat in
  match o with
  | Put k v => let? (s, t) := put key0 value0 hash fuel ok t k v in Some (AStatus s, t)
  | Get k => let? r := get key0 value0 hash fuel t k in Some (AGet r, t)
  | Contains k => let? b := contains key0 value0 hash fuel t k in Some (AContains b, t)
  | Clear => Some (ANone, clear t)
  end.

Fixpoint run (t : Table) (ops : list op) : option (list answer * Table) :=
  match ops with
  | [] => Some ([], t)
  | o :: ops =>
      let? (a, t) := exec t o in
      let? (answers, t) := run t ops in Some (a :: answers, t)
  end.

(** The same operation on a finite map. *)
Inductive map_step (load : spec_float) : op -> gmap Key T -> answer -> gmap Key T -> Prop :=
| step_put k v M : map_step load (Put k v) M (AStatus Success) (<[k := v]> M)
| step_refused k v M : grow_refused key0 value0 hash ok load M -> map_step load (Put k v) M (AStatus BadAlloc) M
| step_get k M : map_step load (Get k) M (AGet (M !! k)) M
| step_contains k M : map_step load (Contains k) M (AContains (bool_decide (is_Some (M !! k)))) M
| step_clear M : map_step load Clear M ANone ∅.

Inductive map_run (load : spec_float) : list op -> gmap Key T -> list answer -> gmap Key T -> Prop :=
| run_nil M : map_run load [] M [] M
| run_cons o ops M a M1 answers M' : map_step load o M a M1 -> map_run load ops M1 answers M' -> map_run load (o :: ops) M (a :: answers) M'.

Lemma exec_refines t M o : bounded ok -> rep key0 value0 hash t M -> roomy (maxLoadFactor t) ->
  exists a t' M', exec t o = Some (a, t') /\ map_step (maxLoadFactor t) o M a M' /\ rep key0 value0 hash t' M' /\ maxLoadFactor t' = maxLoadFactor t.
Proof.
  intros Hok HR Hroom. assert (En : enough t (2 * length (m_buffer t) + 8)) by (unfold enough; lia).
  destruct o as [k v|k|k|]; unfold exec.
  - destruct (put_correct key0 value0 hash ok Hok t M k v _ HR Hroom En) as (s & t' & -> & El & [[-> R']|(-> & -> & No)]).
    + exists (AStatus Success), t', (<[k := v]> M). split_and!; [done|constructor|done|done].
    + exists (AStatus BadAlloc), t, M. split_and!; [done|constructor; by exists t|done|done].
  - rewrite (get_correct key0 value0 hash t M k _ HR En). exists (AGet (M !! k)), t, M.
    split_and!; [done|constructor|done|done].
  - rewrite (contains_correct key0 value0 hash t M k _ HR En). eexists _, t, M. split_and!; [done|constructor|done|done].
  - exists ANone, (clear t), ∅. split_and!; [done|constructor|by eapply clear_rep|done].
Qed.
End Runs.

Lemma default_roomy : roomy (to_float lit_0_8).
Proof.
  assert (C : forallb (fun i => let p := 3 + Z.of_nat i in
    SFleb (to_float lit_0_8) (float_div (float_of_Z (2 ^ p - 1)) (float_of_Z (2 ^ p)))) (seq 0 60) = true) by
    (vm_compute; reflexivity).
  intros p Hp. rewrite forallb_forall in C. specialize (C (Z.to_nat (p - 3))). cbv zeta in C.
  rewrite Z2Nat.id in C by lia. replace (3 + (p - 3)) with p in C by lia. apply C, in_seq. lia.
Qed.


Lemma default_rep {Key T} `{Countable Key} (key0 : Key) (value0 : T) hash : rep key0 value0 hash HashTable_default ∅.
Proof. split; [done|by left]. Qed.


(** ** A table without a free slot *)

Lemma probe_diverges {Key T} `{EqDecision Key} (key0 : Key) (value0 : T) buf k h : 0 < size_of buf ->
  (forall q, 0 <= q < size_of buf -> stops key0 value0 buf k q = false) ->
  forall fuel i idx, 0 <= idx < size_of buf -> probe_loop key0 value0 fuel buf k h i idx = None.
Proof.
  intros Hs Hn fuel. induction fuel as [|fuel IH]; intros i idx Hi; specialize (Hn idx Hi) as Hx; unfold stops in Hx;
    apply negb_false_iff in Hx; cbn [probe_loop]; rewrite Hx; [done|]. apply IH, Z.mod_pos_bound. lia.
Qed.

(** A maximal load above 7/8 lets the table fill up.  With [HashTable(0.9)] eight puts of different keys all
    succeed in a buffer of eight, and then looking up a ninth key never returns. *)
Theorem overfull_diverges :
  exists t answers,
    run (0 : Z) (0 : Z) (fun k => k) (fun n => n <=? 2 ^ 20) (HashTable (to_float (Double.div (Double.of_Z 9) (Double.of_Z 10))))
      (map (fun k => Put (Z.of_nat k) 0) (seq 0 8)) = Some (answers, t) /\
    answers = repeat (AStatus Success) 8 /\ capacity t = 8 /\
    forall fuel, get (0 : Z) (0 : Z) (fun k => k) fuel t 8 = None.
Proof.
  destruct (run (0 : Z) (0 : Z) _ _ _ _) as [[answers t]|] eqn:E; [|by vm_compute in E].
  exists t, answers. split; [done|]. vm_compute in E. injection E as <- <-. split; [done|]. split; [done|].
  intros fuel. unfold get, probe. cbn [capacity m_buffer]. rewrite probe_diverges; [done|done| |by vm_compute].
  intros q Hq. change (size_of _) with 8 in Hq.
  assert (q = 0 \/ q = 1 \/ q = 2 \/ q = 3 \/ q = 4 \/ q = 5 \/ q = 6 \/ q = 7) as D by lia.
  by destruct D as [->|[->|[->|[->|[->|[->|[->| ->]]]]]]].
Qed.
End HashTable.
