(* ===== verification/Adjacency.v ===== *)
(** * Adjacency lists and parts of arrays

    What the graphs in compressed sparse rows share: a graph as the list of the destinations of each vertex, the positions of a vertex's edges
    among all edges, and lists in which a run of consecutive elements was overwritten. *)

From stdpp Require Import list.
From S2P Require Import Prelude.

Section Adjacency.
Context {A : Type}.
Implicit Types adj : list (list A).

(** The number of the first edge of a vertex, and of the first one after its edges. *)
Definition first_edge adj (i : nat) : nat := length (concat (take i adj)).

Lemma first_edge_S adj i l : adj !! i = Some l -> first_edge adj (S i) = (first_edge adj i + length l)%nat.
Proof. intros H. unfold first_edge. rewrite (take_S_r _ _ l) by done. rewrite concat_app, length_app. cbn [concat]. by rewrite app_nil_r. Qed.
Lemma first_edge_all adj i : (length adj <= i)%nat -> first_edge adj i = length (concat adj).
Proof. intros H. unfold first_edge. by rewrite take_ge. Qed.
Lemma first_edge_le adj i : (first_edge adj i <= length (concat adj))%nat.
Proof.
  unfold first_edge. rewrite <- (take_drop i adj) at 2. rewrite concat_app, length_app. lia.
Qed.
Lemma concat_edge adj i l k : adj !! i = Some l -> (k < length l)%nat -> concat adj !! (first_edge adj i + k)%nat = l !! k.
Proof.
  intros H Hk. unfold first_edge. replace (concat adj) with (concat (take i adj) ++ l ++ concat (drop (S i) adj)).
  2: { rewrite <- (take_drop_middle adj i l H) at 3. by rewrite concat_app. }
  rewrite lookup_app_r by lia. rewrite lookup_app_l by lia. f_equal. lia.
Qed.

(** Counting the edges list by list, in 64 bits. *)
Lemma numEdges_fold adj : forall n, 0 <= n -> n + Z.of_nat (length (concat adj)) < 2 ^ 64 ->
  fold_left (fun n v => u64 (n + Z.of_nat (length v))) adj n = n + Z.of_nat (length (concat adj)).
Proof.
  induction adj as [|l adj IH]; intros n Hn Hb; cbn [fold_left concat length] in *; [lia|]. rewrite length_app in *.
  rewrite wrapU_id by (unfold inU; lia). rewrite IH; lia.
Qed.
(** An element that occurs once is in one place of one list. *)
Lemma concat_unique (ls : list (list A)) : forall i j l m k n x, NoDup (concat ls) -> ls !! i = Some l -> ls !! j = Some m ->
  l !! k = Some x -> m !! n = Some x -> i = j /\ k = n.
Proof.
  induction ls as [|l0 ls IH]; intros [|i] [|j] l m k n x N Hi Hj Hk Hn; cbn in *; try done; apply NoDup_app in N as (N0 & D & N1).
  - injection Hi as ->. injection Hj as ->. split; [done|]. exact (NoDup_lookup _ _ _ _ N0 Hk Hn).
  - injection Hi as ->. exfalso. apply (D x); [by eapply list_elem_of_lookup_2|]. apply list_elem_of_In, in_concat. exists m.
    split; apply list_elem_of_In; by eapply list_elem_of_lookup_2.
  - injection Hj as ->. exfalso. apply (D x); [by eapply list_elem_of_lookup_2|]. apply list_elem_of_In, in_concat. exists l.
    split; apply list_elem_of_In; by eapply list_elem_of_lookup_2.
  - by destruct (IH i j l m k n x) as [-> ->].
Qed.
Lemma first_edge_mono adj i j : (i <= j)%nat -> (first_edge adj i <= first_edge adj j)%nat.
Proof.
  intros H. unfold first_edge. replace j with (i + (j - i))%nat by lia. rewrite <- take_take_drop, concat_app, length_app. lia.
Qed.
End Adjacency.

(** ** Overwritten runs *)

Section Splice.
Context {A : Type}.
Implicit Types k l : list A.

(** [l] with its elements from [i] on replaced by those of [k]. *)
Definition splice (i : nat) k l : list A := take i l ++ k ++ drop (i + length k) l.

Lemma splice_nil i l : splice i [] l = l.
Proof. unfold splice. cbn. rewrite Nat.add_0_r. apply take_drop. Qed.
Lemma splice_cons i x k l : (i < length l)%nat -> splice (S i) k (<[i := x]> l) = splice i (x :: k) l.
Proof.
  intros H. unfold splice. rewrite take_insert_snoc by done. rewrite <- app_assoc. cbn [app length]. do 2 f_equal.
  rewrite drop_insert_lt by lia. do 2 f_equal. lia.
Qed.
Lemma splice_length i k l : (i + length k <= length l)%nat -> length (splice i k l) = length l.
Proof. intros H. unfold splice. rewrite !length_app, length_take, length_drop. lia. Qed.
Lemma splice_all k l : length k = length l -> splice 0 k l = k.
Proof. intros H. unfold splice. rewrite H. cbn [take Nat.add app]. by rewrite drop_all, app_nil_r. Qed.
Lemma splice_lookup_in i k l j : (i + length k <= length l)%nat -> (j < length k)%nat -> splice i k l !! (i + j)%nat = k !! j.
Proof.
  intros H Hj. unfold splice. rewrite lookup_app_r by (rewrite length_take; lia). rewrite length_take, lookup_app_l by lia. f_equal. lia.
Qed.
Lemma splice_lookup_out i k l j : (i + length k <= length l)%nat -> (j < i \/ i + length k <= j)%nat -> splice i k l !! j = l !! j.
Proof.
  intros H Hj. unfold splice. destruct Hj as [Hj|Hj].
  - rewrite lookup_app_l by (rewrite length_take; lia). by apply lookup_take_lt.
  - rewrite lookup_app_r by (rewrite length_take; lia). rewrite length_take, lookup_app_r by lia. rewrite lookup_drop. f_equal. lia.
Qed.
Lemma splice_splice i k k' l : (i + length k + length k' <= length l)%nat -> splice (i + length k) k' (splice i k l) = splice i (k ++ k') l.
Proof.
  intros H. apply list_eq. intros j.
  assert (i + length k' + length k <= length l)%nat by lia.
  destruct (decide (i <= j < i + length (k ++ k'))%nat) as [Hj|Hj]; rewrite length_app in Hj.
  - replace j with (i + (j - i))%nat by lia. rewrite (splice_lookup_in i (k ++ k')) by (rewrite length_app; lia).
    destruct (decide (j < i + length k)%nat).
    + rewrite lookup_app_l by lia. rewrite splice_lookup_out by (rewrite ?splice_length; lia). by apply splice_lookup_in; lia.
    + rewrite lookup_app_r by lia. replace (i + (j - i))%nat with (i + length k + (j - i - length k))%nat by lia.
      apply splice_lookup_in; rewrite ?splice_length; lia.
  - rewrite (splice_lookup_out i (k ++ k')) by (rewrite length_app; lia).
    rewrite !splice_lookup_out by (rewrite ?splice_length; lia). done.
Qed.
Lemma lookup_repeat (x : A) (n j : nat) : (j < n)%nat -> repeat x n !! j = Some x.
Proof. revert j. induction n as [|n IH]; intros [|j] H; [lia|lia|done|]. apply IH. lia. Qed.
End Splice.
