(* ===== verification/LocalCSR.v ===== *)
(** * The local graph in compressed sparse rows

    [LCSR] of [pando-lib-galois/graphs/local_csr.hpp]: a vertex is the address of its first half edge, a half edge is the address of its
    destination, and the vertices are followed by one more that marks the end of the last one's edges.  Vertices and half edges are named by
    their addresses; data and tokens are in arrays of their own, found by the index of an address. *)

From S2P Require Import Prelude GlobalPtr Cells HashTable Adjacency.
Import Cells.

Module LocalCSR.

(** ** Ranges of references *)

(** src/include/pando-lib-galois/graphs/local_csr.hpp:151-161 [RefSpan] *)
Record RefSpan := mkSpan { s_data : Z; s_size : Z }.
(** src/include/pando-lib-galois/graphs/local_csr.hpp:166-168 [size] *)
Definition span_size (s : RefSpan) : Z := s_size s.
(** src/include/pando-lib-galois/graphs/local_csr.hpp:170-192 [begin], [end]: iterators are the pointers they yield *)
Definition span_begin (s : RefSpan) : Z := s_data s.
Definition span_end (sz : Z) (s : RefSpan) : Z := ptr_add sz (s_data s) (span_size s).
(** src/include/pando-lib-galois/graphs/local_csr.hpp:74-77 [PtrRef::operator++] *)
Definition span_next (sz : Z) (p : Z) : Z := ptr_add sz p 1.

(** A loop over the range, [fuel] turns at most. *)
Fixpoint iterate (sz : Z) (fuel : nat) (p e : Z) : option (list Z) :=
  if ptr_eqb p e then Some [] else
  match fuel with O => None | S fuel => let? l := iterate sz fuel (span_next sz p) e in Some (p :: l) end.
Definition span_list (sz : Z) (fuel : nat) (s : RefSpan) : option (list Z) := iterate sz fuel (span_begin s) (span_end sz s).

Section LCSR.
(** The types of the data, and the sizes of their elements. *)
Context {V E : Type} (szV szE : Z).
(** What memory holds before it is written. *)
Context (garbage : Z -> Z) (garbageV : Z -> V) (garbageE : Z -> E).
(** [std::hash] of a token, and whether the memory resource has room for a hash table of this many entries. *)
Context (hash : Z -> Z) (ok : Z -> bool).

(** [sizeof(Vertex)], [sizeof(HalfEdge)], [sizeof(VertexTokenID)]. *)
Abbreviation szP := 8.

(** The live elements in memory: vertices (the address of the first half edge), half edges (the address of the destination), data, tokens. *)
Record Heap := mkHeap { m_vertex : gmap Z Z; m_half : gmap Z Z; m_vdata : gmap Z V; m_edata : gmap Z E; m_token : gmap Z Z }.
Definition with_vertex h m := mkHeap m (m_half h) (m_vdata h) (m_edata h) (m_token h).
Definition with_half h m := mkHeap (m_vertex h) m (m_vdata h) (m_edata h) (m_token h).
Definition with_vdata h m := mkHeap (m_vertex h) (m_half h) m (m_edata h) (m_token h).
Definition with_edata h m := mkHeap (m_vertex h) (m_half h) (m_vdata h) m (m_token h).
Definition with_token h m := mkHeap (m_vertex h) (m_half h) (m_vdata h) (m_edata h) m.

(** The answer of the memory resource of a node to a request for that many bytes. *)
Context (answer : Z -> Heap -> Z -> Z + Status).

(** src/include/pando-lib-galois/graphs/local_csr.hpp:559-565 [LCSR] *)
Record LCSR := mkLCSR {
  vertexEdgeOffsets : Array; edgeDestinations : Array; vertexData : Array; edgeData : Array; topologyToToken : Array;
  tokenToTopology : @HashTable.table Z Z }.
Definition LCSR0 : LCSR := mkLCSR Array0 Array0 Array0 Array0 Array0 HashTable.HashTable_default.

Definition set_vertexEdgeOffsets g a := mkLCSR a (edgeDestinations g) (vertexData g) (edgeData g) (topologyToToken g) (tokenToTopology g).
Definition set_edgeDestinations g a := mkLCSR (vertexEdgeOffsets g) a (vertexData g) (edgeData g) (topologyToToken g) (tokenToTopology g).
Definition set_vertexData g a := mkLCSR (vertexEdgeOffsets g) (edgeDestinations g) a (edgeData g) (topologyToToken g) (tokenToTopology g).
Definition set_edgeData g a := mkLCSR (vertexEdgeOffsets g) (edgeDestinations g) (vertexData g) a (topologyToToken g) (tokenToTopology g).
Definition set_topologyToToken g a := mkLCSR (vertexEdgeOffsets g) (edgeDestinations g) (vertexData g) (edgeData g) a (tokenToTopology g).
Definition set_tokenToTopology g t := mkLCSR (vertexEdgeOffsets g) (edgeDestinations g) (vertexData g) (edgeData g) (topologyToToken g) t.

(** ** Memory *)

(** [array.initialize(n, place, memType)] and [array.deinitialize()] of each of the five arrays. *)
Definition init_vertexEdgeOffsets (node : Z) (h : Heap) (g : LCSR) (n : Z) : Status * Heap * LCSR :=
  let '(err, m, a) := initialize szP garbage (answer node h (szP * n)) (m_vertex h) n in (err, with_vertex h m, set_vertexEdgeOffsets g a).
Definition init_edgeDestinations (node : Z) (h : Heap) (g : LCSR) (n : Z) : Status * Heap * LCSR :=
  let '(err, m, a) := initialize szP garbage (answer node h (szP * n)) (m_half h) n in (err, with_half h m, set_edgeDestinations g a).
Definition init_topologyToToken (node : Z) (h : Heap) (g : LCSR) (n : Z) : Status * Heap * LCSR :=
  let '(err, m, a) := initialize szP garbage (answer node h (szP * n)) (m_token h) n in (err, with_token h m, set_topologyToToken g a).
Definition init_vertexData (node : Z) (h : Heap) (g : LCSR) (n : Z) : Status * Heap * LCSR :=
  let '(err, m, a) := initialize szV garbageV (answer node h (szV * n)) (m_vdata h) n in (err, with_vdata h m, set_vertexData g a).
Definition init_edgeData (node : Z) (h : Heap) (g : LCSR) (n : Z) : Status * Heap * LCSR :=
  let '(err, m, a) := initialize szE garbageE (answer node h (szE * n)) (m_edata h) n in (err, with_edata h m, set_edgeData g a).
Definition deinit_vertexEdgeOffsets (h : Heap) (g : LCSR) : Heap * LCSR :=
  let '(m, a) := deinitialize szP (m_vertex h) (vertexEdgeOffsets g) in (with_vertex h m, set_vertexEdgeOffsets g a).
Definition deinit_edgeDestinations (h : Heap) (g : LCSR) : Heap * LCSR :=
  let '(m, a) := deinitialize szP (m_half h) (edgeDestinations g) in (with_half h m, set_edgeDestinations g a).
Definition deinit_topologyToToken (h : Heap) (g : LCSR) : Heap * LCSR :=
  let '(m, a) := deinitialize szP (m_token h) (topologyToToken g) in (with_token h m, set_topologyToToken g a).
Definition deinit_vertexData (h : Heap) (g : LCSR) : Heap * LCSR :=
  let '(m, a) := deinitialize szV (m_vdata h) (vertexData g) in (with_vdata h m, set_vertexData g a).
Definition deinit_edgeData (h : Heap) (g : LCSR) : Heap * LCSR :=
  let '(m, a) := deinitialize szE (m_edata h) (edgeData g) in (with_edata h m, set_edgeData g a).
Definition deinit_tokenToTopology (h : Heap) (g : LCSR) : Heap * LCSR := (h, set_tokenToTopology g (HashTable.deinitialize (tokenToTopology g))).

(** src/include/pando-lib-galois/graphs/local_csr.hpp:266-294 [initializeTopologyMemory] *)
Definition initializeTopologyMemory (node : Z) (h : Heap) (g : LCSR) (numVertices numEdges : Z) : outcome (Status * Heap * LCSR) :=
  let '(err, h, g) := init_vertexEdgeOffsets node h g (u64 (numVertices + 1)) in
  if negb (bool_decide (err = Success)) then Done (err, h, g) else
  let '(err, h, g) := init_topologyToToken node h g numVertices in
  if negb (bool_decide (err = Success)) then
    let '(h, g) := deinit_vertexEdgeOffsets h g in Done (err, h, g) else
  let! (err, t) := HashTable.initialize 0 nullptr ok (tokenToTopology g) numVertices in
  let g := set_tokenToTopology g t in
  if negb (bool_decide (err = Success)) then
    let '(h, g) := deinit_vertexEdgeOffsets h g in
    let '(h, g) := deinit_topologyToToken h g in Done (err, h, g) else
  let '(err, h, g) := init_edgeDestinations node h g numEdges in
  if negb (bool_decide (err = Success)) then
    let '(h, g) := deinit_vertexEdgeOffsets h g in
    let '(h, g) := deinit_topologyToToken h g in
    let '(h, g) := deinit_tokenToTopology h g in Done (err, h, g) else
  Done (err, h, g).

(** src/include/pando-lib-galois/graphs/local_csr.hpp:296-310 [initializeDataMemory] *)
Definition initializeDataMemory (node : Z) (h : Heap) (g : LCSR) (numVertices numEdges : Z) : Status * Heap * LCSR :=
  let '(err, h, g) := init_vertexData node h g numVertices in
  if negb (bool_decide (err = Success)) then (err, h, g) else
  let '(err, h, g) := init_edgeData node h g numEdges in
  if negb (bool_decide (err = Success)) then
    let '(h, g) := deinit_vertexData h g in (err, h, g) else
  (err, h, g).

(** src/include/pando-lib-galois/graphs/local_csr.hpp:361-366 [deinitializeTopology] *)
Definition deinitializeTopology (h : Heap) (g : LCSR) : Heap * LCSR :=
  let '(h, g) := deinit_vertexEdgeOffsets h g in
  let '(h, g) := deinit_edgeDestinations h g in
  let '(h, g) := deinit_topologyToToken h g in deinit_tokenToTopology h g.
(** src/include/pando-lib-galois/graphs/local_csr.hpp:371-374 [deinitializeData] *)
Definition deinitializeData (h : Heap) (g : LCSR) : Heap * LCSR :=
  let '(h, g) := deinit_edgeData h g in deinit_vertexData h g.
(** src/include/pando-lib-galois/graphs/local_csr.hpp:397-400 [deinitialize] *)
Definition deinitialize (h : Heap) (g : LCSR) : Heap * LCSR :=
  let '(h, g) := deinitializeTopology h g in deinitializeData h g.

(** ** From adjacency lists *)

(** src/include/pando-lib-galois/graphs/local_csr.hpp:348-352 [initialize], the loop over the edges of a vertex *)
Fixpoint edges_loop (g : LCSR) (edges : list Z) (edgeCurr : Z) (h : Heap) : outcome (Z * Heap) :=
  match edges with
  | [] => Done (edgeCurr, h)
  | d :: edges =>
      let e_dst := at_ szP (vertexEdgeOffsets g) d in
      let! m := write szP (m_half h) (edgeDestinations g) edgeCurr e_dst in
      edges_loop g edges (u64 (edgeCurr + 1)) (with_half h m)
  end.
(** src/include/pando-lib-galois/graphs/local_csr.hpp:346-354 [initialize], the loop over the vertices *)
Fixpoint vertices_loop (g : LCSR) (edgeListCSR : list (list Z)) (vertexCurr edgeCurr : Z) (h : Heap) : outcome Heap :=
  match edgeListCSR with
  | [] => Done h
  | edges :: edgeListCSR =>
      let! (edgeCurr, h) := edges_loop g edges edgeCurr h in
      let! m := write szP (m_vertex h) (vertexEdgeOffsets g) (u64 (vertexCurr + 1)) (at_ szP (edgeDestinations g) edgeCurr) in
      vertices_loop g edgeListCSR (u64 (vertexCurr + 1)) edgeCurr (with_vertex h m)
  end.
(** src/include/pando-lib-galois/graphs/local_csr.hpp:327-356 [initialize] *)
Definition initialize (node : Z) (h : Heap) (g : LCSR) (edgeListCSR : list (list Z)) : outcome (Status * Heap * LCSR) :=
  let numEdges := fold_left (fun n v => u64 (n + Z.of_nat (length v))) edgeListCSR 0 in
  let n := Z.of_nat (length edgeListCSR) in
  let! (err, h, g) := initializeTopologyMemory node h g n numEdges in
  if negb (bool_decide (err = Success)) then Done (err, h, g) else
  let '(err, h, g) := initializeDataMemory node h g n numEdges in
  if negb (bool_decide (err = Success)) then
    let '(h, g) := deinitializeTopology h g in Done (err, h, g) else
  let! m := write szP (m_vertex h) (vertexEdgeOffsets g) 0 (begin (edgeDestinations g)) in
  let! h := vertices_loop g edgeListCSR 0 0 (with_vertex h m) in
  Done (Success, h, g).

(** ** Reading the graph *)

(** src/include/pando-lib-galois/graphs/local_csr.hpp:377-384 [findIndex] *)
Definition findIndex (sz locationPtr : Z) (base : Array) : outcome Z :=
  if (begin base <=? locationPtr) && (locationPtr <=? end_ sz base)
  then Done (u64 (ptr_diff sz locationPtr (begin base))) else Failed (Aborted "ILLEGAL SUBTRACTION OF POINTERS").

(** src/include/pando-lib-galois/graphs/local_csr.hpp:386-389 [halfEdgeBegin] *)
Definition halfEdgeBegin (h : Heap) (g : LCSR) (vertex : Z) : outcome Z :=
  if ptr_eqb vertex (begin (vertexEdgeOffsets g)) then Done (begin (edgeDestinations g)) else load_cell (m_vertex h) vertex.
(** src/include/pando-lib-galois/graphs/local_csr.hpp:391-393 [halfEdgeEnd] *)
Definition halfEdgeEnd (h : Heap) (vertex : Z) : outcome Z := load_cell (m_vertex h) (ptr_add szP vertex 1).

(** src/include/pando-lib-galois/graphs/local_csr.hpp:403-408 [size] *)
Definition size (g : LCSR) : Z := u64 (m_size (vertexEdgeOffsets g) - 1).
(** src/include/pando-lib-galois/graphs/local_csr.hpp:409-414 [sizeEdges] *)
Definition sizeEdges (g : LCSR) : Z := m_size (edgeDestinations g).
(** src/include/pando-lib-galois/graphs/local_csr.hpp:415-417 [getNumEdges] *)
Definition getNumEdges (h : Heap) (g : LCSR) (vertex : Z) : outcome Z :=
  let! e := halfEdgeEnd h vertex in let! b := halfEdgeBegin h g vertex in Done (u64 (ptr_diff szP e b)).

(** Enough turns for every loop of the hash table. *)
Definition table_fuel (t : @HashTable.table Z Z) : nat := 2 * length (HashTable.m_buffer t) + 8.
(** src/include/pando-lib-galois/graphs/local_csr.hpp:423-427 [relaxedGetTopologyID] *)
Definition relaxedGetTopologyID (g : LCSR) (token : Z) : outcome (option Z) :=
  match HashTable.get 0 nullptr hash (table_fuel (tokenToTopology g)) (tokenToTopology g) token with
  | Some r => Done r
  | None => Failed (Undefined "loop without end")
  end.
(** src/include/pando-lib-galois/graphs/local_csr.hpp:430-438 [getTopologyID] *)
Definition getTopologyID (g : LCSR) (token : Z) : outcome Z :=
  let! r := relaxedGetTopologyID g token in
  match r with Some ret => Done ret | None => Failed (Aborted "FAILURE TO FIND TOKENID") end.
(** src/include/pando-lib-galois/graphs/local_csr.hpp:439-441 [getTopologyIDFromIndex] *)
Definition getTopologyIDFromIndex (g : LCSR) (index : Z) : Z := at_ szP (vertexEdgeOffsets g) index.
(** src/include/pando-lib-galois/graphs/local_csr.hpp:442-444 [getTokenID] *)
Definition getTokenID (h : Heap) (g : LCSR) (vertex : Z) : outcome Z :=
  let! i := findIndex szP vertex (vertexEdgeOffsets g) in read szP (m_token h) (topologyToToken g) i.
(** src/include/pando-lib-galois/graphs/local_csr.hpp:445-447 [getVertexIndex] *)
Definition getVertexIndex (g : LCSR) (vertex : Z) : outcome Z := findIndex szP vertex (vertexEdgeOffsets g).

(** src/include/pando-lib-galois/graphs/local_csr.hpp:453-455 [mintEdgeHandle] *)
Definition mintEdgeHandle (h : Heap) (g : LCSR) (vertex off : Z) : outcome Z :=
  let! b := halfEdgeBegin h g vertex in Done (ptr_add szP b off).
(** src/include/pando-lib-galois/graphs/local_csr.hpp:456-459 [getEdgeDst] *)
Definition getEdgeDst (h : Heap) (eh : Z) : outcome Z := load_cell (m_half h) eh.
(** src/include/pando-lib-galois/graphs/local_csr.hpp:540-542 [getEdgeDst] of an edge of a vertex *)
Definition getEdgeDst_off (h : Heap) (g : LCSR) (vertex off : Z) : outcome Z :=
  let! eh := mintEdgeHandle h g vertex off in getEdgeDst h eh.

(** src/include/pando-lib-galois/graphs/local_csr.hpp:462-464 [setData] *)
Definition setData (h : Heap) (g : LCSR) (vertex : Z) (data : V) : outcome Heap :=
  let! i := findIndex szP vertex (vertexEdgeOffsets g) in
  let! m := write szV (m_vdata h) (vertexData g) i data in Done (with_vdata h m).
(** src/include/pando-lib-galois/graphs/local_csr.hpp:465-467 [getData], read *)
Definition getData (h : Heap) (g : LCSR) (vertex : Z) : outcome V :=
  let! i := findIndex szP vertex (vertexEdgeOffsets g) in read szV (m_vdata h) (vertexData g) i.
(** src/include/pando-lib-galois/graphs/local_csr.hpp:468-470 [setEdgeData] *)
Definition setEdgeData (h : Heap) (g : LCSR) (eh : Z) (data : E) : outcome Heap :=
  let! i := findIndex szP eh (edgeDestinations g) in
  let! m := write szE (m_edata h) (edgeData g) i data in Done (with_edata h m).
(** src/include/pando-lib-galois/graphs/local_csr.hpp:471-473 [getEdgeData], read *)
Definition getEdgeData (h : Heap) (g : LCSR) (eh : Z) : outcome E :=
  let! i := findIndex szP eh (edgeDestinations g) in read szE (m_edata h) (edgeData g) i.
(** src/include/pando-lib-galois/graphs/local_csr.hpp:552-554 [setEdgeData] of an edge of a vertex *)
Definition setEdgeData_off (h : Heap) (g : LCSR) (vertex off : Z) (data : E) : outcome Heap :=
  let! eh := mintEdgeHandle h g vertex off in setEdgeData h g eh data.
(** src/include/pando-lib-galois/graphs/local_csr.hpp:555-557 [getEdgeData] of an edge of a vertex *)
Definition getEdgeData_off (h : Heap) (g : LCSR) (vertex off : Z) : outcome E :=
  let! eh := mintEdgeHandle h g vertex off in getEdgeData h g eh.

(** src/include/pando-lib-galois/graphs/local_csr.hpp:476-478 [vertices] *)
Definition vertices (g : LCSR) : RefSpan := mkSpan (begin (vertexEdgeOffsets g)) (u64 (m_size (vertexEdgeOffsets g) - 1)).
(** src/include/pando-lib-galois/graphs/local_csr.hpp:480-487 [vertices] in a window *)
Definition vertices_window (g : LCSR) (offset_st window_sz : Z) : RefSpan :=
  let beg := ptr_add szP (begin (vertexEdgeOffsets g)) offset_st in
  let sz := u64 (m_size (vertexEdgeOffsets g) - 1) in
  if sz <=? offset_st then mkSpan (begin (vertexEdgeOffsets g)) 0
  else mkSpan beg (Z.min window_sz (u64 (u64 (m_size (vertexEdgeOffsets g) - 1) - offset_st))).
(** src/include/pando-lib-galois/graphs/local_csr.hpp:489-493 [edges] *)
Definition edges (h : Heap) (vPtr : Z) : outcome RefSpan :=
  let! v := load_cell (m_vertex h) vPtr in
  let! v1 := load_cell (m_vertex h) (ptr_add szP vPtr 1) in
  Done (mkSpan v (u64 (ptr_diff szP v1 v))).
(** src/include/pando-lib-galois/graphs/local_csr.hpp:495-506 [edges] in a window *)
Definition edges_window (h : Heap) (vPtr offset_st window_sz : Z) : outcome RefSpan :=
  let! v := load_cell (m_vertex h) vPtr in
  let! v1 := load_cell (m_vertex h) (ptr_add szP vPtr 1) in
  let beg := ptr_add szP v offset_st in
  if v1 <? beg then Done (mkSpan v 0)
  else Done (mkSpan beg (Z.min window_sz (u64 (ptr_diff szP v1 beg)))).
(** src/include/pando-lib-galois/graphs/local_csr.hpp:508-510 [vertexDataRange] *)
Definition vertexDataRange (g : LCSR) : RefSpan := mkSpan (begin (vertexData g)) (u64 (m_size (vertexData g) - 1)).
(** src/include/pando-lib-galois/graphs/local_csr.hpp:511-515 [edgeDataRange] *)
Definition edgeDataRange (h : Heap) (g : LCSR) (vertex : Z) : outcome RefSpan :=
  let! b := halfEdgeBegin h g vertex in let! beg := findIndex szP b (edgeDestinations g) in
  let! e := halfEdgeEnd h vertex in let! end_ := findIndex szP e (edgeDestinations g) in
  Done (mkSpan (ptr_add szE (begin (edgeData g)) beg) (u64 (end_ - beg))).

(** src/include/pando-lib-galois/graphs/local_csr.hpp:518-523 [addVertexTopologyOnly], [addVertex]: nothing is added *)
Definition addVertex (g : LCSR) : Z := end_ szP (vertexEdgeOffsets g).
(** src/include/pando-lib-galois/graphs/local_csr.hpp:524-533 [addEdgesTopologyOnly], [addEdges], [deleteEdges]: not supported *)
Definition addEdges : Status := Error.

End LCSR.

(** ** Memory: all or nothing *)

Section Memory.
Context {V E : Type} (szV szE : Z) (garbage : Z -> Z) (garbageV : Z -> V) (garbageE : Z -> E) (hash : Z -> Z) (ok : Z -> bool).
Local Abbreviation Heap := (@Heap V E).
Context (answer : Z -> Heap -> Z -> Z + Status).
Implicit Types (h : Heap) (g : LCSR).

Local Abbreviation init_topology := (initializeTopologyMemory garbage ok answer).
Local Abbreviation init_data := (initializeDataMemory szV szE garbageV garbageE answer).

(** None of the cells, of [sz] bytes each, overlaps the bytes from [p] on. *)
Definition clear_of {T} (sz : Z) (m : gmap Z T) (p bytes : Z) : Prop := forall q, is_Some (m !! q) -> q + sz <= p \/ p + bytes <= q.

(** What the memory resources promise: bytes no live element overlaps, or an error. *)
Definition allocates : Prop := forall node h bytes,
  match answer node h bytes with
  | inl p => 0 < p /\ p + bytes < 2 ^ 63 /\ clear_of 8 (m_vertex h) p bytes /\ clear_of 8 (m_half h) p bytes /\
      clear_of szV (m_vdata h) p bytes /\ clear_of szE (m_edata h) p bytes /\ clear_of 8 (m_token h) p bytes
  | inr e => e <> Success
  end.
(** The node has refused so many bytes. *)
Definition refused_bytes (node bytes : Z) : Prop := exists h e, answer node h bytes = inr e.
(** A request for the topology of a graph of this size has been refused, or one for its data. *)
Definition topology_refused (node nv ne : Z) : Prop :=
  refused_bytes node (8 * (nv + 1)) \/ refused_bytes node (8 * nv) \/ refused_bytes node (8 * ne) \/
  exists c, nv <= c <= 2 * Z.max nv 8 /\ ok c = false.
Definition data_refused (node nv ne : Z) : Prop := refused_bytes node (szV * nv) \/ refused_bytes node (szE * ne).
Definition refused (node nv ne : Z) : Prop := topology_refused node nv ne \/ data_refused node nv ne.

Context (Halloc : allocates) (HV : 0 < szV) (HE : 0 < szE).

Lemma serves_of {T} sz (m : gmap Z T) node h n : 0 < sz -> 0 <= n ->
  (forall p, answer node h (sz * n) = inl p -> clear_of sz m p (sz * n)) -> serves sz m n (answer node h (sz * n)).
Proof.
  intros Hsz Hn C. pose proof (Halloc node h (sz * n)) as A. unfold serves. destruct (answer node h (sz * n)) as [p|e]; [|done].
  split; [apply A|]. split; [apply A|]. intros q Hq. rewrite Z2Nat.id by done. by apply C.
Qed.

(** A table that was only constructed. *)
Definition new_table (t : @HashTable.table Z Z) : Prop :=
  HashTable.rep 0 nullptr hash t ∅ /\ HashTable.m_buffer t = [].

(** The topology of [g'] is new in [h'], the data is as it was. *)
Record new_topology h g h' g' (nv ne : Z) : Prop := mkTopology {
  t_vertex : obtained 8 (m_vertex h) (m_vertex h') (nv + 1) (vertexEdgeOffsets g');
  t_token : obtained 8 (m_token h) (m_token h') nv (topologyToToken g');
  t_half : obtained 8 (m_half h) (m_half h') ne (edgeDestinations g');
  t_table : HashTable.rep 0 nullptr hash (tokenToTopology g') ∅;
  t_load : HashTable.maxLoadFactor (tokenToTopology g') = HashTable.maxLoadFactor (tokenToTopology g);
  t_data : m_vdata h' = m_vdata h /\ m_edata h' = m_edata h /\ vertexData g' = vertexData g /\ edgeData g' = edgeData g }.

(** Each array is new in the heap, or nothing has changed. *)
Ltac init_array m sz :=
  intros Hn; cbv beta delta [init_vertexEdgeOffsets init_topologyToToken init_edgeDestinations init_vertexData init_edgeData];
  match goal with |- context [Cells.initialize _ ?gb ?ans _ ?n] =>
    let S := fresh in assert (S : serves sz m n ans) by
      (apply serves_of; [lia|lia|]; let p := fresh in let A := fresh in let B := fresh in
       intros p A; match type of A with answer ?nd ?hh ?b = _ => pose proof (Halloc nd hh b) as B end; rewrite A in B; apply B);
    let I := fresh in let O := fresh in let A := fresh in let N := fresh in
    pose proof (cells_initialize sz ltac:(lia) gb ans m n ltac:(lia) S) as I;
    destruct (Cells.initialize sz gb ans m n) as [[? ?] ?]; destruct I as [(-> & O & _)|(A & N & ->)]; [left; split; [done|]; by eexists _, _|right] end;
  split; [done|]; split; [by match goal with h : Heap |- _ => destruct h end|split; [by eexists _, _|by eexists]].

Lemma init_vertexEdgeOffsets_spec node h g n : 0 <= n -> let '(s, h', g') := init_vertexEdgeOffsets garbage answer node h g n in
  s = Success /\ (exists m a, h' = with_vertex h m /\ g' = set_vertexEdgeOffsets g a /\ obtained 8 (m_vertex h) m n a) \/
    s <> Success /\ h' = h /\ refused_bytes node (8 * n) /\ exists a, g' = set_vertexEdgeOffsets g a.
Proof. init_array (m_vertex h) 8. Qed.
Lemma init_topologyToToken_spec node h g n : 0 <= n -> let '(s, h', g') := init_topologyToToken garbage answer node h g n in
  s = Success /\ (exists m a, h' = with_token h m /\ g' = set_topologyToToken g a /\ obtained 8 (m_token h) m n a) \/
    s <> Success /\ h' = h /\ refused_bytes node (8 * n) /\ exists a, g' = set_topologyToToken g a.
Proof. init_array (m_token h) 8. Qed.
Lemma init_edgeDestinations_spec node h g n : 0 <= n -> let '(s, h', g') := init_edgeDestinations garbage answer node h g n in
  s = Success /\ (exists m a, h' = with_half h m /\ g' = set_edgeDestinations g a /\ obtained 8 (m_half h) m n a) \/
    s <> Success /\ h' = h /\ refused_bytes node (8 * n) /\ exists a, g' = set_edgeDestinations g a.
Proof. init_array (m_half h) 8. Qed.
Lemma init_vertexData_spec node h g n : 0 <= n -> let '(s, h', g') := init_vertexData szV garbageV answer node h g n in
  s = Success /\ (exists m a, h' = with_vdata h m /\ g' = set_vertexData g a /\ obtained szV (m_vdata h) m n a) \/
    s <> Success /\ h' = h /\ refused_bytes node (szV * n) /\ exists a, g' = set_vertexData g a.
Proof. init_array (m_vdata h) szV. Qed.
Lemma init_edgeData_spec node h g n : 0 <= n -> let '(s, h', g') := init_edgeData szE garbageE answer node h g n in
  s = Success /\ (exists m a, h' = with_edata h m /\ g' = set_edgeData g a /\ obtained szE (m_edata h) m n a) \/
    s <> Success /\ h' = h /\ refused_bytes node (szE * n) /\ exists a, g' = set_edgeData g a.
Proof. init_array (m_edata h) szE. Qed.

(** What a failed call has obtained is given back. *)
Ltac given_back :=
  match goal with h : Heap |- _ => destruct h end;
  repeat match goal with O : obtained _ _ _ _ _ |- _ => apply o_undo in O; cbn in O end;
  unfold with_vertex, with_half, with_vdata, with_edata, with_token in *; cbn in *; congruence.

Lemma initializeTopologyMemory_spec node h g nv ne : 0 <= nv < 2 ^ 60 -> 0 <= ne < 2 ^ 60 -> new_table (tokenToTopology g) ->
  exists s h' g', init_topology node h g nv ne = Done (s, h', g') /\
    (s = Success /\ new_topology h g h' g' nv ne \/ s <> Success /\ h' = h /\ topology_refused node nv ne).
Proof.
  intros Hv He [R B]. unfold initializeTopologyMemory. rewrite wrapU_id by (unfold inU; lia).
  pose proof (init_vertexEdgeOffsets_spec node h g (nv + 1) ltac:(lia)) as I1.
  destruct (init_vertexEdgeOffsets _ _ _ _ _ _) as [[s1 h1] g1]. destruct I1 as [(-> & m1 & a1 & -> & -> & O1)|(N & -> & F & a' & ->)].
  2: { rewrite bool_decide_false by done. eexists _, _, _. split; [done|]. right. split; [done|]. split; [done|]. by left. }
  rewrite bool_decide_true by done. cbn [negb].
  pose proof (init_topologyToToken_spec node (with_vertex h m1) (set_vertexEdgeOffsets g a1) nv ltac:(lia)) as I2.
  destruct (init_topologyToToken _ _ _ _ _ _) as [[s2 h2] g2]. destruct I2 as [(-> & m2 & a2 & -> & -> & O2)|(N & -> & F & a' & ->)].
  2: { rewrite bool_decide_false by done. eexists _, _, _. split; [done|]. right. split; [done|]. split; [given_back|]. right; left. done. }
  rewrite bool_decide_true by done. cbn [negb].
  destruct (HashTable.initialize_rep 0 nullptr hash ok (tokenToTopology g) nv R B ltac:(lia)) as (s3 & t & E3 & L3 & R3 & D3).
  cbn [set_topologyToToken set_vertexEdgeOffsets tokenToTopology]. rewrite E3. cbn [bindo].
  destruct D3 as [[-> _]|(-> & _ & F)].
  2: { rewrite bool_decide_false by done. eexists _, _, _. split; [done|]. right. split; [done|]. split; [given_back|]. by right; right; right. }
  rewrite bool_decide_true by done. cbn [negb].
  match goal with |- context [init_edgeDestinations _ _ _ ?h2 ?g2 _] => pose proof (init_edgeDestinations_spec node h2 g2 ne ltac:(lia)) as I4 end.
  destruct (init_edgeDestinations _ _ _ _ _ _) as [[s4 h4] g4]. destruct I4 as [(-> & m4 & a4 & -> & -> & O4)|(N & -> & F & a' & ->)].
  2: { rewrite bool_decide_false by done. eexists _, _, _. split; [done|]. right. split; [done|]. split; [given_back|]. by right; right; left. }
  rewrite bool_decide_true by done. eexists _, _, _. split; [done|]. left. split; [done|]. by constructor.
Qed.

Lemma initializeDataMemory_spec node h g nv ne : 0 <= nv -> 0 <= ne ->
  let '(s, h', g') := init_data node h g nv ne in
  s = Success /\ (exists mv me av ae, h' = with_edata (with_vdata h mv) me /\ g' = set_edgeData (set_vertexData g av) ae /\
      obtained szV (m_vdata h) mv nv av /\ obtained szE (m_edata h) me ne ae) \/ 
  s <> Success /\ h' = h /\ data_refused node nv ne /\ exists av ae, g' = set_edgeData (set_vertexData g av) ae.
Proof.
  intros Hv He. unfold initializeDataMemory. pose proof (init_vertexData_spec node h g nv Hv) as I1.
  destruct (init_vertexData _ _ _ _ _ _) as [[s1 h1] g1]. destruct I1 as [(-> & m1 & a1 & -> & -> & O1)|(N & -> & F & a' & ->)].
  2: { rewrite bool_decide_false by done. right. split; [done|]. split; [done|]. split; [by left|]. exists a', (edgeData g). by destruct g. }
  rewrite bool_decide_true by done. cbn [negb].
  pose proof (init_edgeData_spec node (with_vdata h m1) (set_vertexData g a1) ne He) as I2.
  destruct (init_edgeData _ _ _ _ _ _) as [[s2 h2] g2]. destruct I2 as [(-> & m2 & a2 & -> & -> & O2)|(N & -> & F & a' & ->)].
  2: { rewrite bool_decide_false by done. right. split; [done|]. split; [given_back|]. split; [by right|]. by eexists _, _. }
  rewrite bool_decide_true by done. left. split; [done|]. by eexists _, _, _, _.
Qed.
End Memory.

(** ** The graph an LCSR holds *)

Section Graph.
Context {V E : Type} (szV szE : Z) (garbage : Z -> Z) (garbageV : Z -> V) (garbageE : Z -> E) (hash : Z -> Z) (ok : Z -> bool).
Local Abbreviation Heap := (@Heap V E).
Context (answer : Z -> Heap -> Z -> Z + Status) (HV : 0 < szV) (HE : 0 < szE).
Implicit Types (h : Heap) (g : LCSR) (adj : list (list Z)).

(** The vertex and the half edge of a number. *)
Definition vptr g (i : nat) : Z := addr 8 (m_data (vertexEdgeOffsets g)) i.
Definition eptr g (k : nat) : Z := addr 8 (m_data (edgeDestinations g)) k.
Definition targets g (l : list Z) : list Z := map (fun d => vptr g (Z.to_nat d)) l.

(** The graph with the adjacency lists [adj], the vertex data [vd], the edge data [ed] and the tokens [tk]. *)
Record graph h g adj (vd : list V) (ed : list E) (tk : list Z) : Prop := mkGraph {
  g_vertex : holds 8 (m_vertex h) (vertexEdgeOffsets g) (map (fun i => eptr g (first_edge adj i)) (seq 0 (S (length adj))));
  g_half : holds 8 (m_half h) (edgeDestinations g) (targets g (concat adj));
  g_vdata : holds szV (m_vdata h) (vertexData g) vd;
  g_edata : holds szE (m_edata h) (edgeData g) ed;
  g_token : holds 8 (m_token h) (topologyToToken g) tk;
  g_lengths : length vd = length adj /\ length ed = length (concat adj) /\ length tk = length adj;
  g_targets : Forall (fun d => 0 <= d < Z.of_nat (length adj)) (concat adj) }.

Lemma offset_lookup adj g i : (i <= length adj)%nat ->
  map (fun i => eptr g (first_edge adj i)) (seq 0 (S (length adj))) !! i = Some (eptr g (first_edge adj i)).
Proof. intros H. rewrite list_lookup_fmap, lookup_seq_lt by lia. done. Qed.

(** *** Building it *)

Lemma edges_loop_spec g h vl edges : forall k hl,
  holds 8 (m_vertex h) (vertexEdgeOffsets g) vl -> Forall (fun d => 0 <= d < Z.of_nat (length vl)) edges ->
  holds 8 (m_half h) (edgeDestinations g) hl -> (k + length edges <= length hl)%nat ->
  exists m hl', edges_loop g edges (Z.of_nat k) h = Done (Z.of_nat (k + length edges), with_half h m) /\
    holds 8 m (edgeDestinations g) hl' /\ length hl' = length hl /\ take (k + length edges) hl' = take k hl ++ targets g edges.
Proof.
  intros k hl Hv F. revert h k hl Hv. induction F as [|d edges Hd F IH]; intros h k hl Hv Hh L; cbn [edges_loop length] in *.
  - exists (m_half h), hl. rewrite Nat.add_0_r. split; [by destruct h|]. split; [done|]. split; [done|]. by rewrite app_nil_r.
  - replace (at_ 8 (vertexEdgeOffsets g) d) with (vptr g (Z.to_nat d)).
    2: { unfold vptr. rewrite <- (at_addr 8 ltac:(lia) (m_vertex h) _ vl) by (done || lia). by rewrite Z2Nat.id by lia. }
    destruct (cells_write 8 ltac:(lia) (m_half h) (edgeDestinations g) hl k (vptr g (Z.to_nat d)) Hh) as (m & -> & Hm & _); [lia|].
    cbn [bindo]. pose proof (h_high _ _ _ _ Hh). pose proof (h_low _ _ _ _ Hh). rewrite wrapU_id by (unfold inU; lia).
    replace (Z.of_nat k + 1) with (Z.of_nat (S k)) by lia.
    destruct (IH (with_half h m) (S k) (<[k := vptr g (Z.to_nat d)]> hl)) as (m' & hl' & -> & H' & L' & T').
    + done.
    + done.
    + rewrite length_insert. lia.
    + exists m', hl'. replace (S k + length edges)%nat with (k + S (length edges))%nat in * by lia.
      split; [done|]. split; [done|]. split; [by rewrite L', length_insert|]. rewrite T', take_insert_snoc by lia. by rewrite <- app_assoc.
Qed.

(** The loop over the vertices from vertex [v] on: [hl] and [vl] are right up to where it has come. *)
Lemma vertices_loop_spec g adj rest : forall v h vl hl, drop v adj = rest -> (v <= length adj)%nat ->
  Forall (fun d => 0 <= d < Z.of_nat (length adj)) (concat adj) ->
  holds 8 (m_vertex h) (vertexEdgeOffsets g) vl -> holds 8 (m_half h) (edgeDestinations g) hl ->
  length vl = S (length adj) -> length hl = length (concat adj) ->
  take (S v) vl = map (fun i => eptr g (first_edge adj i)) (seq 0 (S v)) ->
  take (first_edge adj v) hl = targets g (concat (take v adj)) ->
  exists mv mh, vertices_loop g rest (Z.of_nat v) (Z.of_nat (first_edge adj v)) h = Done (with_vertex (with_half h mh) mv) /\
    holds 8 mv (vertexEdgeOffsets g) (map (fun i => eptr g (first_edge adj i)) (seq 0 (S (length adj)))) /\
    holds 8 mh (edgeDestinations g) (targets g (concat adj)).
Proof.
  induction rest as [|l rest IH]; intros v h vl hl Hr Hv F Hvl Hhl Lv Lh Tv Th; cbn [vertices_loop].
  - exists (m_vertex h), (m_half h). assert (v = length adj) as ->.
    { apply (f_equal length) in Hr. rewrite length_drop in Hr. cbn in Hr. lia. }
    split; [by destruct h|]. rewrite <- Tv. rewrite (first_edge_all adj (length adj)), <- Lh, !firstn_all in Th by lia.
    rewrite firstn_all2 by lia. split; [done|]. by rewrite <- Th.
  - assert (El : adj !! v = Some l).
    { rewrite <- (Nat.add_0_r v), <- lookup_drop, Hr. done. }
    pose proof (lookup_lt_Some _ _ _ El) as Lt. pose proof (first_edge_S adj v l El) as Fs. pose proof (first_edge_le adj (S v)) as Fl.
    destruct (edges_loop_spec g h vl l (first_edge adj v) hl) as (m & hl' & -> & Hm & Lm & Tm); try done; try lia.
    { apply Forall_forall. intros d Hd. rewrite Forall_forall in F. rewrite Lv. enough (0 <= d < Z.of_nat (length adj)) by lia. apply F.
      apply list_elem_of_lookup in Hd as [k Hk]. pose proof (lookup_lt_Some _ _ _ Hk).
      eapply list_elem_of_lookup_2. rewrite (concat_edge adj v l k) by done. exact Hk. }
    cbn [bindo]. change (m_vertex (with_half h m)) with (m_vertex h). pose proof (h_high _ _ _ _ Hvl). pose proof (h_low _ _ _ _ Hvl). rewrite wrapU_id by (unfold inU; lia).
    replace (Z.of_nat v + 1) with (Z.of_nat (S v)) by lia. rewrite <- Fs.
    rewrite (at_addr 8 ltac:(lia) m _ hl') by (done || lia). fold (eptr g (first_edge adj (S v))).
    destruct (cells_write 8 ltac:(lia) (m_vertex h) (vertexEdgeOffsets g) vl (S v) (eptr g (first_edge adj (S v))) Hvl) as (mv & -> & Hmv & _); [lia|].
    cbn [bindo].
    destruct (IH (S v) (with_vertex (with_half h m) mv) (<[S v := eptr g (first_edge adj (S v))]> vl) hl') as (mv' & mh' & W & R1 & R2); try done.
    + rewrite (drop_S adj l v El) in Hr. by injection Hr.
    + by rewrite length_insert.
    + by rewrite Lm.
    + rewrite take_insert_snoc by lia. rewrite Tv. rewrite (seq_S (S v)). by rewrite map_app.
    + rewrite Fs, Tm, Th. rewrite (take_S_r _ _ l) by done. rewrite concat_app. unfold targets. rewrite map_app. cbn [concat]. by rewrite app_nil_r.
    + exists mv', mh'. split; [|done]. by rewrite W.
Qed.

(** *** Reading it *)

Lemma diff_addr sz p i j : 0 < sz -> 0 <= p -> (j <= i)%nat -> p + sz * Z.of_nat i < 2 ^ 63 ->
  ptr_diff sz (addr sz p i) (addr sz p j) = Z.of_nat (i - j).
Proof.
  intros Hs Hp Hj Hb. unfold ptr_diff, addr. rewrite wrapU_id by (unfold inU; nia).
  replace (p + sz * Z.of_nat i - (p + sz * Z.of_nat j)) with (Z.of_nat (i - j) * sz) by (rewrite Nat2Z.inj_sub by lia; ring).
  rewrite Z.div_mul by lia. apply wrapS_id; [lia|]. unfold inS. nia.
Qed.

Lemma findIndex_spec {T} sz (m : gmap Z T) a l i : 0 < sz -> holds sz m a l -> (i <= length l)%nat ->
  findIndex sz (addr sz (m_data a) i) a = Done (Z.of_nat i).
Proof.
  intros Hs H Hi. pose proof (h_low _ _ _ _ H). pose proof (h_high _ _ _ _ H). unfold findIndex, begin. rewrite (end_addr sz Hs m a l H).
  unfold addr at 1 2 3. rewrite !(proj2 (Z.leb_le _ _)) by nia. cbn [andb].
  rewrite <- (addr_0 sz (m_data a)) at 2. rewrite diff_addr by (done || nia || lia). rewrite Nat.sub_0_r, wrapU_id by (unfold inU; nia). done.
Qed.

Lemma ptr_next sz p i : 0 < sz -> 0 <= p -> p + sz * Z.of_nat (S i) < 2 ^ 63 -> ptr_add sz (addr sz p i) 1 = addr sz p (S i).
Proof. intros Hs Hp Hb. unfold addr. rewrite ptr_add_small; unfold inU; nia. Qed.

Lemma iterate_spec sz p n : forall i fuel, 0 < sz -> 0 <= p -> p + sz * Z.of_nat (i + n) < 2 ^ 63 -> (n <= fuel)%nat ->
  iterate sz fuel (addr sz p i) (addr sz p (i + n)) = Some (map (addr sz p) (seq i n)).
Proof.
  induction n as [|n IH]; intros i fuel Hs Hp Hb Hf.
  - destruct fuel; cbn [iterate]; rewrite Nat.add_0_r; unfold ptr_eqb; by rewrite Z.eqb_refl.
  - destruct fuel as [|fuel]; [lia|]. cbn [iterate]. unfold ptr_eqb. rewrite (proj2 (Z.eqb_neq _ _)) by (unfold addr; nia).
    unfold span_next. rewrite ptr_next by (done || nia). replace (i + S n)%nat with (S i + n)%nat by lia. rewrite IH by (done || nia || lia). done.
Qed.

(** A span over the elements [i], ..., [i + n - 1] of an array. *)
Lemma span_list_spec sz p i n fuel : 0 < sz -> 0 <= p -> p + sz * Z.of_nat (i + n) < 2 ^ 63 -> (n <= fuel)%nat ->
  span_list sz fuel (mkSpan (addr sz p i) (Z.of_nat n)) = Some (map (addr sz p) (seq i n)).
Proof.
  intros Hs Hp Hb Hf. unfold span_list, span_begin, span_end, span_size. cbn [s_data s_size].
  replace (ptr_add sz (addr sz p i) (Z.of_nat n)) with (addr sz p (i + n)); [by apply iterate_spec|].
  unfold addr. rewrite ptr_add_small; unfold inU; nia.
Qed.

(** What the operations answer about a graph with adjacency lists [adj]. *)
Record answers h g adj : Prop := mkAnswers {
  a_size : size g = Z.of_nat (length adj);
  a_sizeEdges : sizeEdges g = Z.of_nat (length (concat adj));
  a_vertices : span_list 8 (length adj) (vertices g) = Some (map (fun i => getTopologyIDFromIndex g (Z.of_nat i)) (seq 0 (length adj)));
  a_vertex : forall i l, adj !! i = Some l -> let v := getTopologyIDFromIndex g (Z.of_nat i) in
    getVertexIndex g v = Done (Z.of_nat i) /\ getNumEdges h g v = Done (Z.of_nat (length l)) /\
    (forall k d, l !! k = Some d -> getEdgeDst_off h g v (Z.of_nat k) = Done (getTopologyIDFromIndex g d)) /\
    exists s, edges h v = Done s /\ exists handles, span_list 8 (length l) s = Some handles /\
      Forall2 (fun eh d => getEdgeDst h eh = Done (getTopologyIDFromIndex g d)) handles l }.

Lemma graph_bounds h g adj vd ed tk : graph h g adj vd ed tk ->
  0 <= m_data (vertexEdgeOffsets g) /\ m_data (vertexEdgeOffsets g) + 8 * Z.of_nat (S (length adj)) < 2 ^ 63 /\
  0 <= m_data (edgeDestinations g) /\ m_data (edgeDestinations g) + 8 * Z.of_nat (length (concat adj)) < 2 ^ 63.
Proof.
  intros [G H _ _ _ _ _]. pose proof (h_low _ _ _ _ G). pose proof (h_high _ _ _ _ G) as B. pose proof (h_low _ _ _ _ H).
  pose proof (h_high _ _ _ _ H) as B'. rewrite length_map, length_seq in B. unfold targets in B'. rewrite length_map in B'. lia.
Qed.

Lemma index_vptr h g adj vd ed tk i : graph h g adj vd ed tk -> (i <= length adj)%nat ->
  getTopologyIDFromIndex g (Z.of_nat i) = vptr g i.
Proof.
  intros G Hi. unfold getTopologyIDFromIndex. rewrite (at_addr 8 ltac:(lia) (m_vertex h) _ _ i (g_vertex _ _ _ _ _ _ G)); [done|].
  rewrite length_map, length_seq. lia.
Qed.

Lemma vertex_cell h g adj vd ed tk i : graph h g adj vd ed tk -> (i <= length adj)%nat ->
  load_cell (m_vertex h) (vptr g i) = Done (eptr g (first_edge adj i)).
Proof.
  intros G Hi. apply (cells_load 8 (m_vertex h) _ _ i _ (g_vertex _ _ _ _ _ _ G)). by apply offset_lookup.
Qed.

Lemma halfEdgeBegin_spec h g adj vd ed tk i : graph h g adj vd ed tk -> (i <= length adj)%nat ->
  halfEdgeBegin h g (vptr g i) = Done (eptr g (first_edge adj i)).
Proof.
  intros G Hi. unfold halfEdgeBegin. unfold ptr_eqb, begin. destruct (Z.eqb_spec (vptr g i) (m_data (vertexEdgeOffsets g))) as [Q|N].
  - assert (i = 0%nat) as ->. { unfold vptr, addr in Q. lia. } unfold eptr, first_edge. cbn. by rewrite addr_0.
  - by apply (vertex_cell h g adj vd ed tk).
Qed.
Lemma halfEdgeEnd_spec h g adj vd ed tk i : graph h g adj vd ed tk -> (i < length adj)%nat ->
  halfEdgeEnd h (vptr g i) = Done (eptr g (first_edge adj (S i))).
Proof.
  intros G Hi. destruct (graph_bounds _ _ _ _ _ _ G) as (? & ? & _ & _). unfold halfEdgeEnd, vptr. rewrite ptr_next by lia.
  by apply (vertex_cell h g adj vd ed tk).
Qed.

Lemma edge_cell h g adj vd ed tk i l k d : graph h g adj vd ed tk -> adj !! i = Some l -> l !! k = Some d ->
  getEdgeDst h (eptr g (first_edge adj i + k)) = Done (getTopologyIDFromIndex g d).
Proof.
  intros G Hi Hk. pose proof (lookup_lt_Some _ _ _ Hk). unfold getEdgeDst.
  assert (C : concat adj !! (first_edge adj i + k)%nat = Some d) by (by rewrite (concat_edge adj i l k)).
  assert (D : 0 <= d < Z.of_nat (length adj)).
  { pose proof (g_targets _ _ _ _ _ _ G) as T. rewrite Forall_forall in T. apply T. by eapply list_elem_of_lookup_2. }
  rewrite <- (Z2Nat.id d) by lia. rewrite (index_vptr h g adj vd ed tk) by (done || lia).
  apply (cells_load 8 (m_half h) _ _ _ _ (g_half _ _ _ _ _ _ G)). unfold targets. by rewrite list_lookup_fmap, C.
Qed.

Lemma graph_answers h g adj vd ed tk : graph h g adj vd ed tk -> answers h g adj.
Proof.
  intros G. destruct (graph_bounds _ _ _ _ _ _ G) as (B1 & B2 & B3 & B4).
  pose proof (h_size _ _ _ _ (g_vertex _ _ _ _ _ _ G)) as S1. rewrite length_map, length_seq in S1.
  assert (Sz : u64 (m_size (vertexEdgeOffsets g) - 1) = Z.of_nat (length adj)) by (rewrite S1, wrapU_id; unfold inU; lia).
  split.
  - exact Sz.
  - unfold sizeEdges. rewrite (h_size _ _ _ _ (g_half _ _ _ _ _ _ G)). unfold targets. by rewrite length_map.
  - unfold vertices. rewrite Sz. unfold begin. rewrite <- (addr_0 8 (m_data (vertexEdgeOffsets g))).
    rewrite span_list_spec by lia. f_equal. apply map_ext_in. intros i Hi%in_seq. by rewrite (index_vptr h g adj vd ed tk) by (done || lia).
  - intros i l Hi v. pose proof (lookup_lt_Some _ _ _ Hi). subst v. rewrite (index_vptr h g adj vd ed tk) by (done || lia).
    pose proof (first_edge_S adj i l Hi) as F. pose proof (first_edge_le adj (S i)). split; [|split; [|split]].
    + unfold getVertexIndex. apply (findIndex_spec 8 (m_vertex h) _ _ i ltac:(lia) (g_vertex _ _ _ _ _ _ G)). rewrite length_map, length_seq. lia.
    + unfold getNumEdges. rewrite (halfEdgeEnd_spec h g adj vd ed tk), (halfEdgeBegin_spec h g adj vd ed tk) by (done || lia). cbn [bindo].
      unfold eptr. rewrite diff_addr by lia. rewrite wrapU_id by (unfold inU; lia). do 2 f_equal. lia.
    + intros k d Hk. pose proof (lookup_lt_Some _ _ _ Hk). unfold getEdgeDst_off, mintEdgeHandle.
      rewrite (halfEdgeBegin_spec h g adj vd ed tk) by (done || lia). cbn [bindo]. rewrite <- (edge_cell h g adj vd ed tk i l k) by done.
      f_equal. unfold eptr, addr. rewrite ptr_add_small; unfold inU; lia.
    + unfold edges. rewrite (vertex_cell h g adj vd ed tk) by (done || lia). cbn [bindo]. unfold vptr. rewrite ptr_next by lia.
      fold (vptr g (S i)). rewrite (vertex_cell h g adj vd ed tk) by (done || lia). cbn [bindo]. eexists. split; [done|].
      unfold eptr. rewrite diff_addr by lia. rewrite wrapU_id by (unfold inU; lia). replace (first_edge adj (S i) - first_edge adj i)%nat with (length l) by lia.
      rewrite span_list_spec by lia. eexists. split; [done|]. apply Forall2_same_length_lookup_2.
      * by rewrite length_map, length_seq.
      * intros k eh d Hk Hd. rewrite list_lookup_fmap in Hk. pose proof (lookup_lt_Some _ _ _ Hd). rewrite lookup_seq_lt in Hk by done.
        injection Hk as <-. by apply (edge_cell h g adj vd ed tk i l k).
Qed.

(** Giving the topology back leaves the heap as it was before. *)
Lemma deinitializeTopology_undo h g h' g' nv ne av ae : new_topology (V := V) (E := E) hash h g h' g' nv ne ->
  fst (deinitializeTopology h' (set_edgeData (set_vertexData g' av) ae)) = h.
Proof.
  intros [Tv Tt Th _ _ (D1 & D2 & _)]. apply o_undo in Tv, Tt, Th. destruct h, h'. cbn in *. unfold with_vertex, with_half, with_token. cbn.
  congruence.
Qed.

Lemma initialize_builds node h g el :
  allocates szV szE answer -> new_table hash (tokenToTopology g) ->
  Z.of_nat (length el) < 2 ^ 59 -> Z.of_nat (length (concat el)) < 2 ^ 59 ->
  Forall (fun d => 0 <= d < Z.of_nat (length el)) (concat el) ->
  exists s h' g', initialize szV szE garbage garbageV garbageE ok answer node h g el = Done (s, h', g') /\
    (s = Success /\ (exists vd ed tk, graph h' g' el vd ed tk) \/ s <> Success /\ h' = h /\ refused szV szE ok answer node (Z.of_nat (length el)) (Z.of_nat (length (concat el)))).
Proof.
  intros Halloc Ht Hn He F. unfold initialize. rewrite numEdges_fold by lia. rewrite Z.add_0_l.
  destruct (initializeTopologyMemory_spec szV szE garbage hash ok answer Halloc node h g
    (Z.of_nat (length el)) (Z.of_nat (length (concat el))) ltac:(lia) ltac:(lia) Ht)
    as (s1 & h1 & g1 & -> & [[-> T]|(N & -> & R)]); cbn [bindo].
  2: { rewrite bool_decide_false by done. eexists _, _, _. split; [done|]. right. split; [done|]. split; [done|]. by left. }
  rewrite bool_decide_true by done. cbn [negb].
  pose proof (initializeDataMemory_spec szV szE garbageV garbageE answer Halloc HV HE node h1 g1
    (Z.of_nat (length el)) (Z.of_nat (length (concat el))) ltac:(lia) ltac:(lia)) as D.
  destruct (initializeDataMemory _ _ _ _ _ _ _ _ _ _) as [[s2 h2] g2].
  destruct D as [(-> & mv & me & av & ae & -> & -> & Ov & Oe)|(N & -> & R & av & ae & ->)].
  2: { rewrite bool_decide_false by done. cbn [negb]. pose proof (deinitializeTopology_undo _ _ _ _ _ _ av ae T) as U.
       destruct (deinitializeTopology _ _) as [h3 g3]. cbn in U. subst h3. eexists _, _, _. split; [done|]. right. split; [done|]. split; [done|]. by right. }
  rewrite bool_decide_true by done. cbn [negb].
  destruct T as [Tv Tt Th _ _ (D1 & D2 & _)].
  destruct (o_holds _ _ _ _ _ Tv) as (vl & Lv & Hvl). destruct (o_holds _ _ _ _ _ Tt) as (tl & Lt & Htl).
  destruct (o_holds _ _ _ _ _ Th) as (hl & Lh & Hhl). destruct (o_holds _ _ _ _ _ Ov) as (dl & Ld & Hdl).
  destruct (o_holds _ _ _ _ _ Oe) as (el' & Le & Hel).
  set (g2 := set_edgeData _ _). cbn [m_vertex with_edata with_vdata].
  change (write 8 (m_vertex h1) (vertexEdgeOffsets g2) 0) with (write 8 (m_vertex h1) (vertexEdgeOffsets g2) (Z.of_nat 0)).
  destruct (cells_write 8 ltac:(lia) (m_vertex h1) (vertexEdgeOffsets g2) vl 0 (begin (edgeDestinations g2)) Hvl) as (m0 & -> & Hm0 & _); [lia|].
  cbn [bindo]. match goal with |- context [vertices_loop g2 el 0 0 ?h] => change (vertices_loop g2 el 0 0 h) with
    (vertices_loop g2 el (Z.of_nat 0) (Z.of_nat (first_edge el 0)) h) end.
  destruct (vertices_loop_spec g2 el el 0 (with_vertex (with_edata (with_vdata h1 mv) me) m0)
    (<[0%nat := begin (edgeDestinations g2)]> vl) hl) as (mv' & mh' & -> & Gv & Gh); try done.
  - lia.
  - rewrite length_insert. lia.
  - lia.
  - rewrite take_insert_snoc by lia. cbn. unfold eptr, begin. by rewrite addr_0.
  - cbn [bindo]. eexists _, _, _. split; [done|]. left. split; [done|].
    assert (G : graph (with_vertex (with_half (with_vertex (with_edata (with_vdata h1 mv) me) m0) mh') mv') g2 el dl el' tl).
    { constructor; try done. lia. }
    by eexists _, _, _.
Qed.

(** C16: [initialize] from adjacency lists either builds their graph, and every query answers what the lists say (the sizes, the
    vertices in order, each vertex's index, degree, destinations and edges in order), or a memory resource has refused a
    request, the error is passed on, and all memory obtained before is given back. *)
Theorem local_csr_initialize node h g el :
  allocates szV szE answer -> new_table hash (tokenToTopology g) ->
  Z.of_nat (length el) < 2 ^ 59 -> Z.of_nat (length (concat el)) < 2 ^ 59 ->
  Forall (fun d => 0 <= d < Z.of_nat (length el)) (concat el) ->
  exists s h' g', initialize szV szE garbage garbageV garbageE ok answer node h g el = Done (s, h', g') /\
    (s = Success /\ answers h' g' el /\ (exists vd ed tk, graph h' g' el vd ed tk) \/ s <> Success /\ h' = h /\ refused szV szE ok answer node (Z.of_nat (length el)) (Z.of_nat (length (concat el)))).
Proof.
  intros Ha Ht Hn He F. destruct (initialize_builds node h g el Ha Ht Hn He F) as (s & h' & g' & W & [(-> & vd & ed & tk & G)|D]);
    eexists _, _, _; (split; [exact W|]); [left|by right].
  split; [done|]. split; [by eapply graph_answers|by eexists _, _, _].
Qed.

(** *** Data *)

Lemma index_of h g adj vd ed tk i : graph h g adj vd ed tk -> (i <= length adj)%nat ->
  findIndex 8 (getTopologyIDFromIndex g (Z.of_nat i)) (vertexEdgeOffsets g) = Done (Z.of_nat i).
Proof.
  intros G Hi. rewrite (index_vptr h g adj vd ed tk) by done. apply (findIndex_spec 8 (m_vertex h) _ _ i ltac:(lia) (g_vertex _ _ _ _ _ _ G)).
  rewrite length_map, length_seq. lia.
Qed.
Lemma handle_of h g adj vd ed tk i l k : graph h g adj vd ed tk -> adj !! i = Some l -> (k < length l)%nat ->
  mintEdgeHandle h g (getTopologyIDFromIndex g (Z.of_nat i)) (Z.of_nat k) = Done (eptr g (first_edge adj i + k)) /\
  findIndex 8 (eptr g (first_edge adj i + k)) (edgeDestinations g) = Done (Z.of_nat (first_edge adj i + k)).
Proof.
  intros G Hi Hk. pose proof (lookup_lt_Some _ _ _ Hi). destruct (graph_bounds _ _ _ _ _ _ G) as (_ & _ & ? & ?).
  pose proof (first_edge_S adj i l Hi). pose proof (first_edge_le adj (S i)). split.
  - rewrite (index_vptr h g adj vd ed tk) by (done || lia). unfold mintEdgeHandle.
    rewrite (halfEdgeBegin_spec h g adj vd ed tk) by (done || lia). cbn [bindo]. f_equal. unfold eptr, addr. rewrite ptr_add_small; unfold inU; lia.
  - apply (findIndex_spec 8 (m_half h) _ _ _ ltac:(lia) (g_half _ _ _ _ _ _ G)). unfold targets. rewrite length_map. lia.
Qed.

(** C17: vertex data, edge data and tokens are found by the address of their vertex or half edge.  Reading gives what was
    written last under that address, and writing changes nothing else of the graph. *)
Theorem local_csr_data h g adj vd ed tk : graph h g adj vd ed tk ->
  (forall i v, vd !! i = Some v -> let p := getTopologyIDFromIndex g (Z.of_nat i) in
    getData szV h g p = Done v /\ forall x, exists h', setData szV h g p x = Done h' /\ graph h' g adj (<[i := x]> vd) ed tk) /\
  (forall i l k, adj !! i = Some l -> (k < length l)%nat -> let p := getTopologyIDFromIndex g (Z.of_nat i) in
    exists e, ed !! (first_edge adj i + k)%nat = Some e /\ getEdgeData_off szE h g p (Z.of_nat k) = Done e /\
    forall x, exists h', setEdgeData_off szE h g p (Z.of_nat k) x = Done h' /\ graph h' g adj vd (<[(first_edge adj i + k)%nat := x]> ed) tk) /\
  (forall i t, tk !! i = Some t -> getTokenID h g (getTopologyIDFromIndex g (Z.of_nat i)) = Done t).
Proof.
  intros G. pose proof G as [Gv Gh Gd Ge Gt (L1 & L2 & L3) F]. split; [|split].
  - intros i v Hi p. pose proof (lookup_lt_Some _ _ _ Hi). subst p. unfold getData, setData.
    rewrite (index_of h g adj vd ed tk) by (done || lia). cbn [bindo]. split; [by apply (cells_read szV HV _ _ vd)|]. intros x.
    destruct (cells_write szV HV (m_vdata h) (vertexData g) vd i x Gd) as (m & -> & Hm & _); [done|]. eexists. split; [done|].
    constructor; try done. by rewrite length_insert.
  - intros i l k Hi Hk p. destruct (handle_of h g adj vd ed tk i l k G Hi Hk) as [H1 H2].
    pose proof (first_edge_S adj i l Hi). pose proof (first_edge_le adj (S i)).
    destruct (lookup_lt_is_Some_2 ed (first_edge adj i + k)) as [e He]; [lia|]. exists e. split; [done|].
    unfold getEdgeData_off, setEdgeData_off. subst p. rewrite H1. cbn [bindo]. unfold getEdgeData, setEdgeData. rewrite H2. cbn [bindo].
    split; [by apply (cells_read szE HE _ _ ed)|]. intros x.
    destruct (cells_write szE HE (m_edata h) (edgeData g) ed (first_edge adj i + k) x Ge) as (m & -> & Hm & _); [lia|]. eexists. split; [done|].
    constructor; try done. by rewrite length_insert.
  - intros i t Hi. pose proof (lookup_lt_Some _ _ _ Hi). unfold getTokenID. rewrite (index_of h g adj vd ed tk) by (done || lia).
    cbn [bindo]. by apply (cells_read 8 ltac:(lia) _ _ tk).
Qed.

(** *** Windows *)

Lemma window_seq i n off win : (off <= n)%nat -> take win (drop off (seq i n)) = seq (i + off) (min win (n - off)).
Proof. intros H. rewrite drop_seq, take_seq by lia. f_equal. Qed.

(** A window of the vertices, or of the edges of a vertex, is the part of the whole range from its offset on, cut to its size and
    to the range; with an offset past the end it is empty.  But an offset of 2^61 edges wraps around to 0. *)
Theorem local_csr_windows h g adj vd ed tk : graph h g adj vd ed tk -> Z.of_nat (length adj) < 2 ^ 60 ->
  (forall off win all, 0 <= off < 2 ^ 64 -> 0 <= win < 2 ^ 64 -> span_list 8 (length adj) (vertices g) = Some all ->
     span_list 8 (length adj) (vertices_window g off win) = Some (take (Z.to_nat win) (drop (Z.to_nat off) all))) /\
  (forall i l off win, adj !! i = Some l -> 0 <= off < 2 ^ 60 -> 0 <= win < 2 ^ 64 -> let v := getTopologyIDFromIndex g (Z.of_nat i) in
     exists s s' all, edges h v = Done s /\ span_list 8 (length l) s = Some all /\ edges_window h v off win = Done s' /\
       span_list 8 (length l) s' = Some (take (Z.to_nat win) (drop (Z.to_nat off) all))) /\
  (forall v win, edges_window h v (2 ^ 61) win = edges_window h v 0 win).
Proof.
  intros G Hn. destruct (graph_bounds _ _ _ _ _ _ G) as (B1 & B2 & B3 & B4).
  pose proof (h_size _ _ _ _ (g_vertex _ _ _ _ _ _ G)) as S1. rewrite length_map, length_seq in S1.
  assert (Sz : u64 (m_size (vertexEdgeOffsets g) - 1) = Z.of_nat (length adj)) by (rewrite S1, wrapU_id; unfold inU; lia).
  split; [|split].
  - intros off win all Ho Hw A. unfold vertices in A. rewrite Sz in A. unfold begin in A. rewrite <- (addr_0 8 (m_data (vertexEdgeOffsets g))) in A.
    rewrite span_list_spec in A by lia. injection A as <-. unfold vertices_window. rewrite Sz. unfold begin.
    rewrite skipn_map, firstn_map. destruct (Z.leb_spec (Z.of_nat (length adj)) off).
    + rewrite drop_ge by (rewrite length_seq; lia). rewrite <- (addr_0 8 (m_data (vertexEdgeOffsets g))) at 1. rewrite take_nil.
      apply (span_list_spec 8 _ 0 0); lia.
    + rewrite window_seq by lia. rewrite wrapU_id by (unfold inU; lia).
      replace (ptr_add 8 (m_data (vertexEdgeOffsets g)) off) with (addr 8 (m_data (vertexEdgeOffsets g)) (0 + Z.to_nat off)).
      2: { unfold addr. rewrite ptr_add_small; unfold inU; lia. }
      replace (Z.min win (Z.of_nat (length adj) - off)) with (Z.of_nat (Z.to_nat win `min` (length adj - Z.to_nat off))) by lia.
      by rewrite span_list_spec by lia.
  - intros i l off win Hi Ho Hw v. pose proof (lookup_lt_Some _ _ _ Hi). subst v. rewrite (index_vptr h g adj vd ed tk) by (done || lia).
    pose proof (first_edge_S adj i l Hi) as F. pose proof (first_edge_le adj (S i)).
    unfold edges, edges_window. rewrite (vertex_cell h g adj vd ed tk) by (done || lia). cbn [bindo]. unfold vptr. rewrite ptr_next by lia.
    fold (vptr g (S i)). rewrite (vertex_cell h g adj vd ed tk) by (done || lia). cbn [bindo]. unfold eptr.
    rewrite diff_addr by lia. rewrite wrapU_id by (unfold inU; lia). replace (first_edge adj (S i) - first_edge adj i)%nat with (length l) by lia.
    replace (ptr_add 8 (addr 8 (m_data (edgeDestinations g)) (first_edge adj i)) off)
      with (addr 8 (m_data (edgeDestinations g)) (first_edge adj i + Z.to_nat off)).
    2: { unfold addr. rewrite ptr_add_small; unfold inU; lia. }
    destruct (Z.ltb_spec (addr 8 (m_data (edgeDestinations g)) (first_edge adj (S i)))
      (addr 8 (m_data (edgeDestinations g)) (first_edge adj i + Z.to_nat off))) as [Lt|Ge].
    + eexists _, _, _. split; [done|]. rewrite span_list_spec by lia. split; [done|]. split; [done|]. unfold addr in Lt.
      rewrite skipn_map, firstn_map. rewrite drop_ge by (rewrite length_seq; lia). rewrite take_nil. apply (span_list_spec 8 _ (first_edge adj i) 0); lia.
    + eexists _, _, _. split; [done|]. rewrite span_list_spec by lia. split; [done|]. split; [done|]. unfold addr in Ge.
      rewrite skipn_map, firstn_map, window_seq by lia. rewrite diff_addr by lia. rewrite wrapU_id by (unfold inU; lia).
      replace (Z.min win (Z.of_nat (first_edge adj (S i) - (first_edge adj i + Z.to_nat off))))
        with (Z.of_nat (Z.to_nat win `min` (length l - Z.to_nat off))) by lia.
      by rewrite span_list_spec by lia.
  - intros v win. done.
Qed.

(** The range over the data of all vertices leaves out the last one. *)
Lemma vertexDataRange_short h g adj vd ed tk : graph h g adj vd ed tk -> (0 < length adj)%nat ->
  span_size (vertexDataRange g) = Z.of_nat (length adj) - 1.
Proof.
  intros G Hn. unfold vertexDataRange, span_size. cbn [s_size]. rewrite (h_size _ _ _ _ (g_vdata _ _ _ _ _ _ G)).
  pose proof (h_high _ _ _ _ (g_vdata _ _ _ _ _ _ G)). pose proof (h_low _ _ _ _ (g_vdata _ _ _ _ _ _ G)).
  destruct (g_lengths _ _ _ _ _ _ G) as (L & _). rewrite L in *. apply wrapU_id. unfold inU. nia.
Qed.

End Graph.

(** ** An example *)

Section Example.
Local Abbreviation Heap := (@Heap Z Z).

(** Memory is handed out above all live elements. *)
Definition above (node : Z) (h : Heap) (bytes : Z) : Z + Status :=
  let p := top_of (m_vertex h) + top_of (m_half h) + top_of (m_vdata h) + top_of (m_edata h) + top_of (m_token h) + 8 in
  if (0 <=? bytes) && (p + bytes <? 2 ^ 63) then inl p else inr BadAlloc.
Definition example_heap : Heap := mkHeap ∅ ∅ ∅ ∅ ∅.
Definition example_initialize := initialize 8 8 (fun p => p) (fun p => p) (fun p => p) (fun n => n <=? 2 ^ 20) above.
Definition example_lists : list (list Z) := [[1; 2]; [2]; []].

Lemma above_allocates : allocates 8 8 above.
Proof.
  intros node h bytes. unfold above. destruct (0 <=? bytes) eqn:E1; cbn [andb]; [|done]. destruct (_ <? _) eqn:E2; [|done].
  apply Z.leb_le in E1. apply Z.ltb_lt in E2.
  pose proof (top_of_nonneg (m_vertex h)). pose proof (top_of_nonneg (m_half h)). pose proof (top_of_nonneg (m_vdata h)).
  pose proof (top_of_nonneg (m_edata h)). pose proof (top_of_nonneg (m_token h)).
  split; [lia|]. split; [lia|]. split_and!; intros q Hq%top_of_le; left; lia.
Qed.
Lemma fresh_table hash : new_table hash HashTable.HashTable_default.
Proof. split; [apply HashTable.default_rep|done]. Qed.

Lemma example_success : match example_initialize 0 example_heap LCSR0 example_lists with Done (s, _, _) => s = Success | _ => False end.
Proof. vm_compute. reflexivity. Qed.

Lemma local_csr_initialize_witness : exists h g, example_initialize 0 example_heap LCSR0 example_lists = Done (Success, h, g) /\
  answers h g example_lists.
Proof.
  destruct (local_csr_initialize 8 8 (fun p => p) (fun p => p) (fun p => p) (fun k => k) (fun n => n <=? 2 ^ 20) above ltac:(lia) ltac:(lia)
    0 example_heap LCSR0 example_lists above_allocates (fresh_table _)) as (s & h & g & W & D).
  - vm_compute. reflexivity.
  - vm_compute. reflexivity.
  - cbn. repeat constructor; lia.
  - destruct D as [(-> & A & _)|(N & _)]; [exists h, g; split; [exact W|exact A]|].
    exfalso. apply N. pose proof example_success as S. unfold example_initialize in S. rewrite W in S. exact S.
Defined.

Lemma example_graph : exists h g vd ed tk, graph (V := Z) (E := Z) 8 8 h g example_lists vd ed tk.
Proof.
  destruct (initialize_builds 8 8 (fun p => p) (fun p => p) (fun p => p) (fun k => k) (fun n => n <=? 2 ^ 20) above ltac:(lia) ltac:(lia)
    0 example_heap LCSR0 example_lists above_allocates (fresh_table _)) as (s & h & g & W & D).
  - done.
  - done.
  - cbn. repeat constructor; lia.
  - destruct D as [(-> & vd & ed & tk & G)|(N & _)]; [by exists h, g, vd, ed, tk|].
    exfalso. apply N. pose proof example_success as S. unfold example_initialize in S. by rewrite W in S.
Qed.

Lemma local_csr_data_witness : exists (h : Heap) g t, getTokenID h g (getTopologyIDFromIndex g 1) = Done t.
Proof.
  destruct example_graph as (h & g & vd & ed & tk & G). destruct (g_lengths _ _ _ _ _ _ _ _ G) as (_ & _ & L).
  destruct (lookup_lt_is_Some_2 tk 1) as [t Ht]; [rewrite L; cbn; lia|]. exists h, g, t.
  exact (proj2 (proj2 (local_csr_data 8 8 ltac:(lia) ltac:(lia) h g example_lists vd ed tk G)) 1%nat t Ht).
Defined.

Lemma local_csr_windows_witness : exists (h : Heap) g s s', edges h (getTopologyIDFromIndex g 0) = Done s /\
  edges_window h (getTopologyIDFromIndex g 0) 1 5 = Done s'.
Proof.
  destruct example_graph as (h & g & vd & ed & tk & G).
  destruct (proj1 (proj2 (local_csr_windows 8 8 h g example_lists vd ed tk G eq_refl)) 0%nat [1; 2] 1 5 eq_refl
    ltac:(lia) ltac:(lia)) as (s & s' & all & W & _ & W' & _).
  exists h, g, s, s'. split; [exact W|exact W'].
Defined.
End Example.
End LocalCSR.
