(* ===== verification/PrefixSum.v ===== *)
(** * The parallel prefix sum

    [pando-lib-galois/utility/prefix_sum.hpp] with the lock of [pando-lib-galois/sync/waterfall_lock.hpp].
    The workers run as a transition system: a step of a worker is one phase of its work, or one round of the
    first worker's pass over the paste array, and a schedule is any sequence of worker numbers.  Within a phase a
    worker touches only its own part of the arrays and cells handed over through the lock, so phases are the unit
    of interleaving.  A worker that waits on the lock spins: its step changes nothing. *)

From S2P Require Import Prelude.

Module PrefixSum.

Section Sum.
Context {A B : Type}.
Context (transmute : A -> B) (scan_op : A -> B -> B) (combiner : B -> B -> B).

(** Array accesses; an index is a [uint64_t], and one outside the array has no meaning. *)
Definition rd {E} (l : list E) (i : Z) : outcome E :=
  if u64 i <? Z.of_nat (length l) then
    match l !! Z.to_nat (u64 i) with Some v => Done v | None => Failed (Undefined "array index") end
  else Failed (Undefined "array index").
Definition wr {E} (l : list E) (i : Z) (v : E) : outcome (list E) :=
  if u64 i <? Z.of_nat (length l) then Done (<[Z.to_nat (u64 i) := v]> l) else Failed (Undefined "array index").

(** ** The lock *)

(** src/include/pando-lib-galois/sync/waterfall_lock.hpp:45-48 [wait]: whether the loop ends now *)
Definition wait (val : Z) (wfc : list Z) (num : Z) : outcome bool := let! v := rd wfc num in Done (v =? val).
(** src/include/pando-lib-galois/sync/waterfall_lock.hpp:49-52 [done] *)
Definition done_ (val : Z) (wfc : list Z) (num : Z) : outcome (list Z) := wr wfc num val.
(** src/include/pando-lib-galois/sync/waterfall_lock.hpp:36-39 [reset] *)
Definition reset (wfc : list Z) : list Z := map (fun _ => 0) wfc.

(** ** The phases *)

(** src/include/pando-lib-galois/utility/prefix_sum.hpp:59-62 [equalizer] *)
Definition equalizer {E} (t : E) : E := t.

(** One iteration of the loop of [serial_pfxsum]. *)
Definition serial_body {A1 A2} (scan : A1 -> A2 -> A2) (src : list A1) (dst : list A2)
    (src_offset dst_offset i : Z) : outcome (list A2) :=
  let! src_val := rd src (src_offset + i) in
  let! dst_val := rd dst (dst_offset + i - 1) in
  wr dst (dst_offset + i) (scan src_val dst_val).

(** The loop, from [i], [n] iterations left. *)
Fixpoint serial_loop {A1 A2} (scan : A1 -> A2 -> A2) (src : list A1) (dst : list A2)
    (src_offset dst_offset i : Z) (n : nat) : outcome (list A2) :=
  match n with
  | O => Done dst
  | S n => let! dst := serial_body scan src dst src_offset dst_offset i in
           serial_loop scan src dst src_offset dst_offset (i + 1) n
  end.

(** src/include/pando-lib-galois/utility/prefix_sum.hpp:113-129 [serial_pfxsum], without a context; the loop runs
    [ns - 1] times, or not at all *)
Definition serial_pfxsum {A1 A2} (trans : A1 -> A2) (scan : A1 -> A2 -> A2) (combine : bool) (src : list A1)
    (dst : list A2) (src_offset dst_offset ns : Z) : outcome (list A2) :=
  let! dst := if combine then Done dst
              else let! src_val := rd src (src_offset + 0) in wr dst (dst_offset + 0) (trans src_val) in
  serial_loop scan src dst src_offset dst_offset 1 (Z.to_nat (ns - 1)).

(** src/include/pando-lib-galois/utility/prefix_sum.hpp:135-141 [parallel_pfxsum_phase_0] *)
Definition parallel_pfxsum_phase_0 (src : list A) (dst paste : list B) (lock : list Z)
    (src_offset dst_offset ns wfl_id : Z) : outcome (list B * list B * list Z) :=
  let! dst := serial_pfxsum transmute scan_op false src dst src_offset dst_offset ns in
  let! v := rd dst (dst_offset + ns - 1) in
  let! paste := wr paste wfl_id v in
  let! lock := done_ 1 lock wfl_id in
  Done (dst, paste, lock).

(** The second branch's loop of [parallel_pfxsum_phase_2]. *)
Fixpoint add_loop (dst : list B) (dst_offset : Z) (phase1_val : B) (i : Z) (n : nat) : outcome (list B) :=
  match n with
  | O => Done dst
  | S n => let! dst_val := rd dst (dst_offset + i) in
           let! dst := wr dst (dst_offset + i) (combiner phase1_val dst_val) in
           add_loop dst dst_offset phase1_val (i + 1) n
  end.

(** src/include/pando-lib-galois/utility/prefix_sum.hpp:161-174 [parallel_pfxsum_phase_2] *)
Definition parallel_pfxsum_phase_2 (src : list A) (dst : list B) (src_offset dst_offset ns : Z) (phase1_val : B)
    (pfxsum : bool) : outcome (list B) :=
  if pfxsum then
    let! src_val := rd src (src_offset + 0) in
    let! dst := wr dst (dst_offset + 0) (scan_op src_val phase1_val) in
    serial_pfxsum transmute scan_op true src dst src_offset dst_offset ns
  else add_loop dst dst_offset phase1_val 0 (Z.to_nat ns).

(** src/include/pando-lib-galois/utility/prefix_sum.hpp:220-245 [computePrefixSum]: the parts of worker [wf_id] of [nt]:
    [phase0_ind], [phase0_sz], [phase2_ind], [phase2_sz]; the same computation as in lines 32-52 and 257-280 *)
Definition partition (ns nt wf_id : Z) : Z * Z * Z * Z :=
  let div_sz := ns / (nt + 1) in
  let bigs := ns mod (nt + 1) in
  let mid := Z.shiftr nt 1 in
  let is_mid := mid =? wf_id in
  let phase0_sz := if is_mid then div_sz + bigs else div_sz in
  let phase0_ind := if wf_id <=? mid then div_sz * wf_id else bigs + div_sz * wf_id in
  let phase2_sz := phase0_sz in
  let phase2_ind := if negb (wf_id =? 0) then phase0_ind else ns - div_sz in
  (phase0_ind, phase0_sz, phase2_ind, phase2_sz).

(** ** The workers *)

(** Where a worker is in [parallel_pfxsum_work]; the first worker's [Phase1 i] has [i] paste cells behind it. *)
Inductive counter := Phase0 | Phase1 (i : Z) | Phase2 | Finished.

Record state := mkState { dst : list B; paste : list B; lock : list Z; pcs : list counter }.

Definition at_pc (s : state) (w : Z) (c : counter) : state :=
  mkState (dst s) (paste s) (lock s) (<[Z.to_nat w := c]> (pcs s)).

(** src/include/pando-lib-galois/utility/prefix_sum.hpp:147-156 [parallel_pfxsum_phase_1], one step of it: the first worker
    goes through the paste array behind the other workers' locks, which the other workers wait for *)
Definition parallel_pfxsum_phase_1 (nt w i : Z) (s : state) : outcome state :=
  if w =? 0 then
    if i =? 0 then
      let! lock := done_ 2 (lock s) 0 in
      let! v := rd (paste s) 0 in
      let! paste := wr (paste s) 0 (equalizer v) in
      Done (at_pc (mkState (dst s) paste lock (pcs s)) w (Phase1 1))
    else if i <? nt then
      let! go := wait 1 (lock s) i in
      if go : bool then
        let! paste := serial_body combiner (paste s) (paste s) 0 0 i in
        let! lock := done_ 2 (lock s) i in
        Done (at_pc (mkState (dst s) paste lock (pcs s)) w (Phase1 (i + 1)))
      else Done s
    else Done (at_pc s w Phase2)
  else
    let! go := wait 2 (lock s) (w - 1) in
    if go : bool then Done (at_pc s w Phase2) else Done s.

(** src/include/pando-lib-galois/utility/prefix_sum.hpp:176-184 [parallel_pfxsum_work], one step of worker [w] *)
Definition parallel_pfxsum_work (src : list A) (ns nt : Z) (w : Z) (s : state) : outcome state :=
  let '(phase0_ind, phase0_sz, phase2_ind, phase2_sz) := partition ns nt w in
  match pcs s !! Z.to_nat w with
  | Some Phase0 =>
      let! (d, p, l) := parallel_pfxsum_phase_0 src (dst s) (paste s) (lock s) phase0_ind phase0_ind phase0_sz w in
      Done (at_pc (mkState d p l (pcs s)) w (Phase1 0))
  | Some (Phase1 i) => parallel_pfxsum_phase_1 nt w i s
  | Some Phase2 =>
      let! paste_val := rd (paste s) (if negb (w =? 0) then w - 1 else nt - 1) in
      let! d := parallel_pfxsum_phase_2 src (dst s) phase2_ind phase2_ind phase2_sz paste_val (w =? 0) in
      Done (at_pc (mkState d (paste s) (lock s) (pcs s)) w Finished)
  | Some Finished | None => Done s
  end.

(** A schedule: the worker that moves at each step. *)
Fixpoint run (src : list A) (ns nt : Z) (sched : list Z) (s : state) : outcome state :=
  match sched with
  | [] => Done s
  | w :: sched => let! s := parallel_pfxsum_work src ns nt w s in run src ns nt sched s
  end.

Definition finished (s : state) : Prop := Forall (eq Finished) (pcs s).

(** src/include/pando-lib-galois/utility/prefix_sum.hpp:211-216 [computePrefixSum]: how many workers run;
    [dim] is [getThreadDims().id] *)
Definition workers_of (paste_size ns dim : Z) : outcome Z :=
  let workers := paste_size in
  let workPerThread := ns / (workers + 1) in
  if workPerThread <=? 10 then
    if dim =? 0 then Failed (Undefined "division by zero") else Done (workers / dim)
  else Done workers.

(** What [doAllEvenlyPartition] starts: the lock just reset, all workers at their first phase. *)
Definition start (d p : list B) (l : list Z) (nt : Z) : state := mkState d p (reset l) (replicate (Z.to_nat nt) Phase0).

(** ** The sequential prefix sum *)

Fixpoint scan_from (acc : B) (l : list A) : list B :=
  match l with [] => [] | a :: l => scan_op a acc :: scan_from (scan_op a acc) l end.
Definition prefix_sums (l : list A) : list B :=
  match l with [] => [] | a :: l => transmute a :: scan_from (transmute a) l end.
End Sum.

(** ** The phases, by what they leave in the arrays *)

Lemma rd_ok {E} (l : list E) (i : nat) v : l !! i = Some v -> (Z.of_nat (length l) < 2 ^ 64) -> rd l (Z.of_nat i) = Done v.
Proof.
  intros L Hl. pose proof (lookup_lt_Some _ _ _ L). unfold rd. rewrite wrapU_id by (unfold inU; lia).
  rewrite (proj2 (Z.ltb_lt _ _)) by lia. by rewrite Nat2Z.id, L.
Qed.

Lemma wr_ok {E} (l : list E) (i : nat) v : (i < length l)%nat -> (Z.of_nat (length l) < 2 ^ 64) ->
  wr l (Z.of_nat i) v = Done (<[i := v]> l).
Proof.
  intros Hi Hl. unfold wr. rewrite wrapU_id by (unfold inU; lia). rewrite (proj2 (Z.ltb_lt _ _)) by lia.
  by rewrite Nat2Z.id.
Qed.

Section Loops.
Context {A1 A2 : Type} (scan : A1 -> A2 -> A2) (src : list A1) (o : nat) (g : nat -> A1) (f : nat -> A2).
Context (Hf : forall j, f (S j) = scan (g (S j)) (f j)) (Hsrc : Z.of_nat (length src) < 2 ^ 64).

Lemma serial_loop_spec n : forall dst i, (Z.of_nat (length dst) < 2 ^ 64) -> (1 <= i)%nat -> (o + i + n <= length dst)%nat ->
  (forall j, (j < i + n)%nat -> src !! (o + j)%nat = Some (g j)) -> dst !! (o + i - 1)%nat = Some (f (i - 1)%nat) ->
  exists dst', serial_loop scan src dst (Z.of_nat o) (Z.of_nat o) (Z.of_nat i) n = Done dst' /\
    length dst' = length dst /\
    forall k, dst' !! k = if decide (o + i <= k < o + i + n)%nat then Some (f (k - o)%nat) else dst !! k.
Proof.
  induction n as [|n IH]; intros dst i Hl Hi Hn Hg Hd; cbn [serial_loop].
  - exists dst. split_and!; [done|done|]. intros k. by rewrite decide_False by lia.
  - unfold serial_body. rewrite <- Nat2Z.inj_add, (rd_ok src (o + i) (g i)) by (done || apply Hg; lia). cbn [bindo].
    replace (Z.of_nat (o + i) - 1) with (Z.of_nat (o + i - 1)) by lia. rewrite (rd_ok dst _ _ Hd) by done. cbn [bindo].
    rewrite wr_ok by (done || lia). cbn [bindo]. replace (Z.of_nat i + 1) with (Z.of_nat (S i)) by lia.
    assert (E : scan (g i) (f (i - 1)%nat) = f i) by (replace i with (S (i - 1)) at 1 3 by lia; by rewrite Hf).
    rewrite E. destruct (IH (<[(o + i)%nat := f i]> dst) (S i)) as (dst' & -> & L' & K').
    + by rewrite length_insert.
    + lia.
    + rewrite length_insert. lia.
    + intros j Hj. apply Hg. lia.
    + replace (o + S i - 1)%nat with (o + i)%nat by lia. rewrite list_lookup_insert_eq by lia. f_equal. f_equal. lia.
    + exists dst'. split; [done|]. rewrite L', length_insert. split; [done|]. intros k. rewrite K'.
      destruct (decide (k = o + i)%nat) as [->|].
      * rewrite decide_False, decide_True by lia. rewrite list_lookup_insert_eq by lia. f_equal. f_equal. lia.
      * rewrite list_lookup_insert_ne by lia. repeat case_decide; (done || lia).
Qed.
End Loops.

Lemma add_loop_spec {B} (combiner : B -> B -> B) (p : B) (o : nat) n : forall (dst : list B) (i : nat),
  (Z.of_nat (length dst) < 2 ^ 64) -> (o + i + n <= length dst)%nat ->
  exists dst', add_loop combiner dst (Z.of_nat o) p (Z.of_nat i) n = Done dst' /\ length dst' = length dst /\
    forall k, dst' !! k = if decide (o + i <= k < o + i + n)%nat then combiner p <$> dst !! k else dst !! k.
Proof.
  induction n as [|n IH]; intros dst i Hl Hn; cbn [add_loop].
  - exists dst. split_and!; [done|done|]. intros k. by rewrite decide_False by lia.
  - destruct (lookup_lt_is_Some_2 dst (o + i)%nat) as [v Hv]; [lia|].
    rewrite <- Nat2Z.inj_add, (rd_ok dst _ _ Hv) by done. cbn [bindo]. rewrite wr_ok by (done || lia). cbn [bindo].
    replace (Z.of_nat i + 1) with (Z.of_nat (S i)) by lia.
    destruct (IH (<[(o + i)%nat := combiner p v]> dst) (S i)) as (dst' & -> & L' & K').
    + by rewrite length_insert.
    + rewrite length_insert. lia.
    + exists dst'. split; [done|]. rewrite L', length_insert. split; [done|]. intros k. rewrite K'.
      destruct (decide (k = o + i)%nat) as [->|].
      * rewrite decide_False, decide_True by lia. by rewrite list_lookup_insert_eq, Hv by lia.
      * rewrite list_lookup_insert_ne by lia. repeat case_decide; (done || lia).
Qed.

(** ** Correctness under every schedule *)

Section Correct.
Context {A B : Type} (transmute : A -> B) (scan_op : A -> B -> B) (combiner : B -> B -> B).
(** What the three functions must satisfy for the two-level algorithm to be a prefix sum. *)
Context (assoc : forall x y z, combiner x (combiner y z) = combiner (combiner x y) z).
Context (comm : forall x y, combiner x y = combiner y x).
Context (scan_law : forall a b, scan_op a b = combiner (transmute a) b).
Context (src : list A) (a0 : A) (N W : nat).
Context (Hsrc : Z.of_nat (length src) < 2 ^ 64) (HN : (N <= length src)%nat) (HW : (2 <= W < N)%nat).

Let sa (i : nat) : A := nth i src a0.

Lemma src_sa i : (i < length src)%nat -> src !! i = Some (sa i).
Proof. intros Hi. unfold sa. rewrite nth_lookup. by destruct (lookup_lt_is_Some_2 src i Hi) as [v ->]. Qed.

(** The prefix sum up to [i], and the one of a part that starts at [o]. *)
Fixpoint local (o j : nat) : B :=
  match j with O => transmute (sa o) | S j => scan_op (sa (o + S j)%nat) (local o j) end.
Definition pre (i : nat) : B := local 0 i.

Lemma pre_S i : pre (S i) = scan_op (sa (S i)) (pre i).
Proof. done. Qed.

Lemma pre_pred i : (0 < i)%nat -> scan_op (sa i) (pre (i - 1)) = pre i.
Proof. intros. replace i with (S (i - 1)) at 1 3 by lia. by rewrite pre_S. Qed.

Lemma pre_local o j : (0 < o)%nat -> pre (o + j) = combiner (pre (o - 1)) (local o j).
Proof.
  intros Ho. induction j as [|j IH].
  - replace (o + 0)%nat with (S (o - 1)) by lia. rewrite pre_S, scan_law. cbn [local].
    replace (S (o - 1)) with o by lia. apply comm.
  - replace (o + S j)%nat with (S (o + j)) by lia. rewrite pre_S, IH, scan_law. cbn [local].
    rewrite scan_law, assoc, (comm (transmute _)), <- assoc. by replace (S (o + j)) with (o + S j)%nat by lia.
Qed.

(** ** The parts *)

Definition div_ : nat := N / (W + 1).
Definition bigs_ : nat := N mod (W + 1).
Definition mid_ : nat := W / 2.
Definition ind (w : nat) : nat := div_ * w + if decide (mid_ < w)%nat then bigs_ else 0.
Definition sz (w : nat) : nat := ind (S w) - ind w.

Lemma N_split : N = (div_ * W + div_ + bigs_)%nat /\ (1 <= div_)%nat /\ (1 <= mid_ < W)%nat.
Proof.
  unfold div_, bigs_, mid_. pose proof (Nat.div_mod_eq N (W + 1)). split_and!.
  - lia.
  - apply Nat.div_le_lower_bound; lia.
  - apply Nat.div_le_lower_bound; lia.
  - apply Nat.div_lt; lia.
Qed.

Lemma ind_0 : ind 0 = 0%nat.
Proof. unfold ind. rewrite decide_False by lia. lia. Qed.
Lemma ind_S w : (ind w + div_ <= ind (S w))%nat.
Proof. unfold ind. rewrite Nat.mul_succ_r. repeat case_decide; lia. Qed.
Lemma ind_mono v w : (v <= w)%nat -> (ind v <= ind w)%nat.
Proof. induction 1 as [|w _ IH]; [done|]. pose proof (ind_S w). lia. Qed.
Lemma ind_W : (ind W + div_ = N)%nat.
Proof. pose proof N_split as (E & _ & ?). unfold ind. rewrite decide_True by lia. lia. Qed.
Lemma sz_pos w : (1 <= sz w)%nat /\ (ind w + sz w = ind (S w))%nat.
Proof. pose proof (ind_S w). pose proof N_split as (_ & ? & _). unfold sz. lia. Qed.

(** Every index below [ind W] is in exactly one part. *)
Lemma part_unique v w k : (ind v <= k < ind (S v))%nat -> (ind w <= k < ind (S w))%nat -> v = w.
Proof.
  intros Hv Hw. destruct (Nat.lt_trichotomy v w) as [L|[L|L]]; [|done|].
  - pose proof (ind_mono (S v) w L). lia.
  - pose proof (ind_mono (S w) v L). lia.
Qed.
Lemma part_of k n : (k < ind n)%nat -> exists w, (w < n)%nat /\ (ind w <= k < ind (S w))%nat.
Proof.
  induction n as [|n IH]; [rewrite ind_0; lia|]. intros Hk. destruct (decide (k < ind n)%nat) as [L|L].
  - destruct (IH L) as (w & ? & ?). exists w. lia.
  - exists n. lia.
Qed.

Lemma partition_eq w : (w < W)%nat -> Z.of_nat N < 2 ^ 64 ->
  partition (Z.of_nat N) (Z.of_nat W) (Z.of_nat w) =
    (Z.of_nat (ind w), Z.of_nat (sz w), Z.of_nat (if decide (w = 0)%nat then ind W else ind w), Z.of_nat (sz w)).
Proof.
  intros Hw _. pose proof N_split as (E & _ & Hmid). pose proof ind_W as EW. unfold partition, sz, ind.
  replace (Z.of_nat W + 1) with (Z.of_nat (W + 1)) by lia. rewrite <- Nat2Z.inj_div, <- Nat2Z.inj_mod.
  fold div_ bigs_. rewrite Z.shiftr_div_pow2 by lia. change (2 ^ 1) with (Z.of_nat 2). rewrite <- Nat2Z.inj_div. fold mid_.
  repeat f_equal.
  - destruct (Z.leb_spec (Z.of_nat w) (Z.of_nat mid_)); case_decide; lia.
  - destruct (Z.eqb_spec (Z.of_nat mid_) (Z.of_nat w)); repeat case_decide; lia.
  - destruct (Z.eqb_spec (Z.of_nat w) 0), (Z.leb_spec (Z.of_nat w) (Z.of_nat mid_)); cbn [negb]; repeat case_decide; lia.
  - destruct (Z.eqb_spec (Z.of_nat mid_) (Z.of_nat w)); repeat case_decide; lia.
Qed.

(** ** The phases on one part *)

Context (Hlen : Z.of_nat N < 2 ^ 64).

Lemma phase_0_spec (d p : list B) (l : list Z) w : (w < W)%nat ->
  Z.of_nat (length d) < 2 ^ 64 -> Z.of_nat (length p) < 2 ^ 64 -> Z.of_nat (length l) < 2 ^ 64 ->
  (N <= length d)%nat -> (W <= length p)%nat -> (W <= length l)%nat ->
  exists d', parallel_pfxsum_phase_0 transmute scan_op src d p l (Z.of_nat (ind w)) (Z.of_nat (ind w)) (Z.of_nat (sz w)) (Z.of_nat w)
      = Done (d', <[w := local (ind w) (sz w - 1)]> p, <[w := 1]> l) /\
    length d' = length d /\
    forall k, d' !! k = if decide (ind w <= k < ind (S w))%nat then Some (local (ind w) (k - ind w)) else d !! k.
Proof.
  intros Hw Hd Hp Hl Ld Lp Ll. pose proof (sz_pos w) as [Hsz Ez]. pose proof (ind_mono (S w) W ltac:(lia)) as Hm.
  pose proof ind_W as EW. unfold parallel_pfxsum_phase_0, serial_pfxsum.
  rewrite !Z.add_0_r, (rd_ok src _ _ (src_sa (ind w) ltac:(lia))) by done. cbn [bindo].
  rewrite wr_ok by (done || lia). cbn [bindo]. change 1 with (Z.of_nat 1) at 1.
  destruct (serial_loop_spec scan_op src (ind w) (fun j => sa (ind w + j)%nat) (local (ind w)) ltac:(done) Hsrc
    (Z.to_nat (Z.of_nat (sz w) - 1)) (<[ind w := transmute (sa (ind w))]> d) 1) as (d' & -> & L' & K').
  - by rewrite length_insert.
  - lia.
  - rewrite length_insert. lia.
  - intros j Hj. apply src_sa. lia.
  - replace (ind w + 1 - 1)%nat with (ind w) by lia. rewrite list_lookup_insert_eq by lia. done.
  - cbn [bindo]. rewrite length_insert in L'. replace (Z.of_nat (ind w) + Z.of_nat (sz w) - 1) with (Z.of_nat (ind w + sz w - 1)) by lia.
    assert (F : forall k, d' !! k = if decide (ind w <= k < ind (S w))%nat then Some (local (ind w) (k - ind w)) else d !! k).
    { intros k. rewrite K'. destruct (decide (k = ind w)) as [->|].
      - rewrite decide_False, decide_True by lia. rewrite list_lookup_insert_eq by lia. by rewrite Nat.sub_diag.
      - rewrite list_lookup_insert_ne by lia. repeat case_decide; (done || lia). }
    rewrite (rd_ok d' (ind w + sz w - 1) (local (ind w) (sz w - 1))).
    + cbn [bindo]. unfold done_. rewrite !wr_ok by (done || lia). cbn [bindo]. by exists d'.
    + rewrite F, decide_True by lia. f_equal. f_equal. lia.
    + by rewrite L'.
Qed.

Lemma phase_2_first (d : list B) : Z.of_nat (length d) < 2 ^ 64 -> (N <= length d)%nat ->
  exists d', parallel_pfxsum_phase_2 transmute scan_op combiner src d (Z.of_nat (ind W)) (Z.of_nat (ind W)) (Z.of_nat (sz 0))
      (pre (ind W - 1)) true = Done d' /\ length d' = length d /\
    forall k, d' !! k = if decide (ind W <= k < N)%nat then Some (pre k) else d !! k.
Proof.
  intros Hd Ld. pose proof (sz_pos 0) as [Hsz Ez]. pose proof ind_W as EW. pose proof N_split as (_ & ? & ?).
  assert (E0 : sz 0 = div_) by (unfold sz, ind; rewrite !decide_False by lia; lia).
  pose proof (ind_mono 1 W ltac:(lia)) as Hm. rewrite ind_0 in Ez.
  unfold parallel_pfxsum_phase_2, serial_pfxsum.
  rewrite !Z.add_0_r, (rd_ok src _ _ (src_sa (ind W) ltac:(lia))) by done. cbn [bindo].
  rewrite wr_ok by (done || lia). cbn [bindo]. change 1 with (Z.of_nat 1) at 1.
  destruct (serial_loop_spec scan_op src (ind W) (fun j => sa (ind W + j)%nat) (fun j => pre (ind W + j)%nat)) with
    (n := Z.to_nat (Z.of_nat (sz 0) - 1)) (dst := <[ind W := scan_op (sa (ind W)) (pre (ind W - 1))]> d) (i := 1%nat)
    as (d' & -> & L' & K').
  - intros j. replace (ind W + S j)%nat with (S (ind W + j)) by lia. apply pre_S.
  - done.
  - by rewrite length_insert.
  - lia.
  - rewrite length_insert. lia.
  - intros j Hj. apply src_sa. lia.
  - replace (ind W + 1 - 1)%nat with (ind W) by lia. rewrite list_lookup_insert_eq by lia. rewrite pre_pred by lia.
    f_equal. f_equal. lia.
  - exists d'. rewrite length_insert in L'. split_and!; [done|done|]. intros k. rewrite K'.
    destruct (decide (k = ind W)) as [->|].
    + rewrite decide_False, decide_True by lia. rewrite list_lookup_insert_eq by lia. by rewrite pre_pred by lia.
    + rewrite list_lookup_insert_ne by lia. repeat case_decide; try lia; [|done]. f_equal. f_equal. lia.
Qed.

Lemma phase_2_other (d : list B) w : (0 < w < W)%nat -> Z.of_nat (length d) < 2 ^ 64 -> (N <= length d)%nat ->
  (forall k, (ind w <= k < ind (S w))%nat -> d !! k = Some (local (ind w) (k - ind w))) ->
  exists d', parallel_pfxsum_phase_2 transmute scan_op combiner src d (Z.of_nat (ind w)) (Z.of_nat (ind w)) (Z.of_nat (sz w))
      (pre (ind w - 1)) false = Done d' /\ length d' = length d /\
    forall k, d' !! k = if decide (ind w <= k < ind (S w))%nat then Some (pre k) else d !! k.
Proof.
  intros Hw Hd Ld Hk. pose proof (sz_pos w) as [Hsz Ez]. pose proof (ind_mono (S w) W ltac:(lia)) as Hm. pose proof ind_W as EW.
  pose proof (ind_S 0) as I0. pose proof (ind_mono 1 w ltac:(lia)) as I1. pose proof N_split as (_ & ? & _).
  unfold parallel_pfxsum_phase_2. rewrite Nat2Z.id.
  destruct (add_loop_spec combiner (pre (ind w - 1)) (ind w) (sz w) d 0) as (d' & E & L' & K'); [done|lia|].
  change (Z.of_nat 0) with 0 in E. rewrite E.
  exists d'. split_and!; [done|done|]. intros k. rewrite K'. repeat case_decide; try lia; [|done].
  rewrite Hk by lia. cbn. f_equal. rewrite <- pre_local by lia. f_equal. lia.
Qed.

(** ** The invariant *)

Context (d0 p0 : list B) (l0 : list Z).
Context (Hd0 : Z.of_nat (length d0) < 2 ^ 64) (Hp0 : Z.of_nat (length p0) < 2 ^ 64) (Hl0 : Z.of_nat (length l0) < 2 ^ 64).
Context (Ld : (N <= length d0)%nat) (Lp : (W <= length p0)%nat) (Ll : (W <= length l0)%nat).

(** How many paste cells the first worker has summed up. *)
Definition handed (pcs : list counter) : nat :=
  match pcs !! 0%nat with Some Phase0 => 0 | Some (Phase1 i) => Z.to_nat i | _ => W end.

Definition begun (c : option counter) : bool := match c with Some Phase0 => false | _ => true end.
Definition ended (c : option counter) : bool := match c with Some Finished => true | _ => false end.

Record inv (s : @state B) : Prop := {
  inv_len : length (dst s) = length d0 /\ length (paste s) = length p0 /\ length (lock s) = length l0 /\ length (pcs s) = W;
  inv_phase1 : forall w i, pcs s !! w = Some (Phase1 i) -> if decide (w = 0%nat) then 0 <= i <= Z.of_nat W else i = 0;
  inv_late : forall w, (0 < w)%nat -> pcs s !! w = Some Phase2 \/ pcs s !! w = Some Finished -> (w <= handed (pcs s))%nat;
  inv_begun : forall w, (w < handed (pcs s))%nat -> begun (pcs s !! w) = true;
  inv_lock : forall w, (w < W)%nat ->
    lock s !! w = Some (if begun (pcs s !! w) then if decide (w < handed (pcs s))%nat then 2 else 1 else 0);
  inv_paste : forall w, (w < W)%nat -> begun (pcs s !! w) = true ->
    paste s !! w = Some (if decide (w < handed (pcs s))%nat then pre (ind (S w) - 1) else local (ind w) (sz w - 1));
  inv_part : forall w k, (w < W)%nat -> (ind w <= k < ind (S w))%nat -> begun (pcs s !! w) = true ->
    dst s !! k = Some (if negb (w =? 0)%nat && ended (pcs s !! w) then pre k else local (ind w) (k - ind w));
  inv_last : pcs s !! 0%nat = Some Finished -> forall k, (ind W <= k < N)%nat -> dst s !! k = Some (pre k);
  inv_rest : forall k, (N <= k)%nat -> dst s !! k = d0 !! k }.

Lemma handed_le s : inv s -> (handed (pcs s) <= W)%nat.
Proof.
  intros I. unfold handed. destruct (pcs s !! 0%nat) as [[|i| |]|] eqn:E; try lia.
  apply (inv_phase1 s I) in E. rewrite decide_True in E by done. lia.
Qed.

Lemma start_inv : inv (start d0 p0 l0 (Z.of_nat W)).
Proof.
  assert (P : forall w, (w < W)%nat -> replicate W Phase0 !! w = Some Phase0) by (intros; by apply lookup_replicate_2).
  unfold start. rewrite Nat2Z.id. split; cbn [dst paste lock pcs]; unfold handed; try rewrite P by lia; try (intros; lia).
  - split_and!; [done|done|unfold reset; by rewrite length_map|apply length_replicate].
  - intros w i E. by apply lookup_replicate in E as [[=] _].
  - intros w _ [E|E]; by apply lookup_replicate in E as [[=] _].
  - intros w Hw. rewrite P by done. cbn. unfold reset. rewrite list_lookup_fmap.
    destruct (lookup_lt_is_Some_2 l0 w) as [v ->]; [lia|done].
  - intros w Hw. by rewrite P.
  - intros w k Hw _. by rewrite P.
  - done.
  - done.
Qed.

Lemma lookup_pcs (pcs : list counter) w c v : (w < length pcs)%nat ->
  <[w := c]> pcs !! v = if decide (v = w) then Some c else pcs !! v.
Proof. intros Hw. case_decide; [subst; by apply list_lookup_insert_eq|by apply list_lookup_insert_ne]. Qed.

(** [handed] sees only the first worker. *)
Lemma handed_insert pcs w c : length pcs = W -> (w < W)%nat ->
  handed (<[w := c]> pcs) = if decide (w = 0%nat) then match c with Phase0 => 0%nat | Phase1 i => Z.to_nat i | _ => W end
                            else handed pcs.
Proof.
  intros L Hw. unfold handed. rewrite lookup_pcs by lia. repeat case_decide; (done || lia).
Qed.

(** A step of a worker that leaves the arrays alone, and changes neither what was handed on nor whether it has
    begun or ended. *)
Lemma move_inv s w c c' : inv s -> (w < W)%nat -> pcs s !! w = Some c -> c <> Phase0 -> c' <> Phase0 -> c <> Finished ->
  c' <> Finished -> handed (<[w := c']> (pcs s)) = handed (pcs s) -> (forall i, c' <> Phase1 i) ->
  ((0 < w)%nat -> (w <= handed (pcs s))%nat) -> inv (at_pc s (Z.of_nat w) c').
Proof.
  intros I Hw Ec C0 C0' Cf Cf' Eh C1 Hl. destruct (inv_len s I) as (E1 & E2 & E3 & E4).
  assert (Bg : begun (Some c) = true) by (by destruct c). assert (Bg' : begun (Some c') = true) by (by destruct c').
  assert (En : ended (Some c) = false) by (by destruct c). assert (En' : ended (Some c') = false) by (by destruct c').
  assert (B' : forall v, begun (<[w := c']> (pcs s) !! v) = begun (pcs s !! v)).
  { intros v. rewrite lookup_pcs by lia. case_decide; [subst; by rewrite Ec, Bg|done]. }
  assert (N' : forall v, ended (<[w := c']> (pcs s) !! v) = ended (pcs s !! v)).
  { intros v. rewrite lookup_pcs by lia. case_decide; [subst; by rewrite Ec, En|done]. }
  split; unfold at_pc; cbn [dst paste lock pcs]; rewrite ?Nat2Z.id, ?Eh.
  - split_and!; [done..|]. by rewrite length_insert.
  - intros v i. rewrite lookup_pcs by lia. case_decide; [intros [= ->]; by destruct (C1 i)|apply (inv_phase1 s I)].
  - intros v Hv. rewrite lookup_pcs by lia. case_decide; [subst; intros _; by apply Hl|by apply (inv_late s I)].
  - intros v Hv. rewrite B'. by apply (inv_begun s I).
  - intros v Hv. rewrite B'. by apply (inv_lock s I).
  - intros v Hv. rewrite B'. by apply (inv_paste s I).
  - intros v k Hv Hk. rewrite B', N'. by apply (inv_part s I).
  - rewrite lookup_pcs by lia. case_decide; [by intros [= ->]|apply (inv_last s I)].
  - apply (inv_rest s I).
Qed.

(** The first phase of a worker. *)
Lemma phase_0_inv s w : inv s -> (w < W)%nat -> pcs s !! w = Some Phase0 ->
  exists s', parallel_pfxsum_work transmute scan_op combiner src (Z.of_nat N) (Z.of_nat W) (Z.of_nat w) s = Done s' /\
    inv s' /\ pcs s' = <[w := Phase1 0]> (pcs s).
Proof.
  intros I Hw Ec. destruct (inv_len s I) as (E1 & E2 & E3 & E4). unfold parallel_pfxsum_work.
  rewrite partition_eq, Nat2Z.id, Ec by done.
  destruct (phase_0_spec (dst s) (paste s) (lock s) w) as (d' & -> & L' & K'); [lia..|].
  cbn [bindo]. eexists. split; [done|]. unfold at_pc. cbn [dst paste lock pcs]. rewrite Nat2Z.id. split; [|done].
  assert (Eh : handed (<[w := Phase1 0]> (pcs s)) = handed (pcs s)).
  { rewrite handed_insert by done. case_decide; [subst|done]. unfold handed. by rewrite Ec. }
  assert (Nh : ~ (w < handed (pcs s))%nat) by (intros L; apply (inv_begun s I) in L; by rewrite Ec in L).
  split; cbn [dst paste lock pcs]; rewrite ?Eh.
  - rewrite !length_insert. by split_and!; [lia|..].
  - intros v i. rewrite lookup_pcs by lia. case_decide; [intros [= <-]; case_decide; lia|apply (inv_phase1 s I)].
  - intros v Hv. rewrite lookup_pcs by lia. case_decide; [intros [?|?]; congruence|by apply (inv_late s I)].
  - intros v Hv. rewrite lookup_pcs by lia. case_decide; [done|by apply (inv_begun s I)].
  - intros v Hv. rewrite lookup_pcs by lia. destruct (decide (v = w)) as [->|].
    + rewrite list_lookup_insert_eq by lia. cbn. by rewrite decide_False.
    + rewrite list_lookup_insert_ne by done. by apply (inv_lock s I).
  - intros v Hv. rewrite lookup_pcs by lia. destruct (decide (v = w)) as [->|].
    + intros _. rewrite list_lookup_insert_eq by lia. by rewrite decide_False.
    + rewrite list_lookup_insert_ne by done. by apply (inv_paste s I).
  - intros v k Hv Hk. rewrite lookup_pcs, K' by lia. destruct (decide (v = w)) as [->|].
    + intros _. rewrite decide_True by lia. by rewrite andb_false_r.
    + rewrite decide_False by (intros Hk'; by pose proof (part_unique v w k Hk Hk')). by apply (inv_part s I).
  - rewrite lookup_pcs by lia. case_decide; [done|]. intros E k Hk. rewrite K', decide_False.
    + by apply (inv_last s I).
    + pose proof (ind_mono (S w) W). lia.
  - intros k Hk. rewrite K', decide_False; [by apply (inv_rest s I)|].
    pose proof (ind_mono (S w) W). pose proof ind_W. lia.
Qed.

(** The cell [i] is summed up and handed on. *)
Lemma hand_inv s (i : nat) : inv s -> (i < W)%nat -> pcs s !! 0%nat = Some (Phase1 (Z.of_nat i)) -> begun (pcs s !! i) = true ->
  inv (at_pc (mkState (dst s) (<[i := pre (ind (S i) - 1)]> (paste s)) (<[i := 2]> (lock s)) (pcs s)) 0 (Phase1 (Z.of_nat i + 1))).
Proof.
  intros I Hi Ec Bi. destruct (inv_len s I) as (E1 & E2 & E3 & E4).
  assert (Eh : handed (pcs s) = i) by (unfold handed; by rewrite Ec, Nat2Z.id).
  assert (Eh' : handed (<[0%nat := Phase1 (Z.of_nat i + 1)]> (pcs s)) = S i).
  { rewrite handed_insert by (done || lia). rewrite decide_True by done. lia. }
  assert (B' : forall v, begun (<[0%nat := Phase1 (Z.of_nat i + 1)]> (pcs s) !! v) = begun (pcs s !! v)).
  { intros v. rewrite lookup_pcs by lia. case_decide; [subst; by rewrite Ec|done]. }
  split; unfold at_pc; cbn [dst paste lock pcs]; change (Z.to_nat 0) with 0%nat; rewrite ?Eh'.
  - rewrite !length_insert. by split_and!.
  - intros v j. rewrite lookup_pcs by lia. case_decide; [intros [= <-]; lia|intros X; apply (inv_phase1 s I) in X; by rewrite decide_False in X by done].
  - intros v Hv. rewrite lookup_pcs by lia. case_decide; [lia|]. intros X. apply (inv_late s I) in X; [lia|done].
  - intros v Hv. rewrite B'. destruct (decide (v = i)) as [->|]; [done|]. apply (inv_begun s I). lia.
  - intros v Hv. rewrite B'. destruct (decide (v = i)) as [->|].
    + rewrite list_lookup_insert_eq by lia. by rewrite Bi, decide_True by lia.
    + rewrite list_lookup_insert_ne by done. rewrite (inv_lock s I) by done. rewrite Eh.
      destruct (begun _); [|done]. repeat case_decide; (done || lia).
  - intros v Hv. rewrite B'. intros Bv. destruct (decide (v = i)) as [->|].
    + rewrite list_lookup_insert_eq by lia. by rewrite decide_True by lia.
    + rewrite list_lookup_insert_ne by done. rewrite (inv_paste s I) by done. rewrite Eh. repeat case_decide; (done || lia).
  - intros v k Hv Hk. rewrite B'. intros Bv. rewrite (inv_part s I v k Hv Hk Bv). rewrite lookup_pcs by lia.
    case_decide; [by subst|done].
  - rewrite lookup_pcs by lia. by rewrite decide_True.
  - apply (inv_rest s I).
Qed.

(** What is summed up: the sum of the parts before, and the part's own. *)
Lemma pre_part i : (0 < i)%nat -> combiner (local (ind i) (sz i - 1)) (pre (ind i - 1)) = pre (ind (S i) - 1).
Proof.
  intros Hi. pose proof (sz_pos i) as [? ?]. pose proof (ind_mono 1 i Hi). pose proof (ind_S 0). pose proof N_split as (_ & ? & _).
  rewrite comm, <- pre_local by lia. f_equal. lia.
Qed.

Definition enabled (s : @state B) (w : nat) : Prop :=
  match pcs s !! w with
  | Some (Phase1 i) =>
      if decide (w = 0%nat) then i = 0 \/ Z.of_nat W <= i \/ lock s !! Z.to_nat i = Some 1 else lock s !! (w - 1)%nat = Some 2
  | Some Phase0 | Some Phase2 => True
  | _ => False
  end.

(** The first worker's pass over the paste array. *)
Lemma phase_1_first_inv s i : inv s -> pcs s !! 0%nat = Some (Phase1 i) ->
  exists s', parallel_pfxsum_phase_1 combiner (Z.of_nat W) 0 i s = Done s' /\ inv s' /\
    (enabled s 0 -> exists c, pcs s' = <[0%nat := c]> (pcs s) /\ (c = Phase1 (i + 1) /\ i < Z.of_nat W \/ c = Phase2)).
Proof.
  intros I Ec. destruct (inv_len s I) as (E1 & E2 & E3 & E4). pose proof (inv_phase1 s I 0 i Ec) as Hi.
  rewrite decide_True in Hi by done. unfold parallel_pfxsum_phase_1. cbn [Z.eqb].
  destruct (Z.eqb_spec i 0) as [->|Ni].
  - assert (Ep : paste s !! 0%nat = Some (local (ind 0) (sz 0 - 1))).
    { rewrite (inv_paste s I 0) by (try rewrite Ec; done || lia). unfold handed. by rewrite Ec. }
    assert (Eq : local (ind 0) (sz 0 - 1) = pre (ind 1 - 1)).
    { pose proof (sz_pos 0) as [? E]. rewrite ind_0 in *. unfold pre. f_equal. lia. }
    unfold done_. change 0 with (Z.of_nat 0). rewrite wr_ok by lia. cbn [bindo]. rewrite (rd_ok _ _ _ Ep) by lia. cbn [bindo].
    rewrite wr_ok by lia. cbn [bindo]. unfold equalizer. rewrite Eq. eexists. split; [done|]. split.
    + apply (hand_inv s 0); [done|lia|done|by rewrite Ec].
    + intros _. eexists. split; [done|]. left. split; [done|lia].
  - destruct (Z.ltb_spec i (Z.of_nat W)) as [Li|Li].
    + assert (Eh : handed (pcs s) = Z.to_nat i) by (unfold handed; by rewrite Ec).
      pose proof (inv_lock s I (Z.to_nat i) ltac:(lia)) as El. rewrite Eh, decide_False in El by lia.
      unfold wait. pose proof (rd_ok (lock s) (Z.to_nat i) _ El ltac:(lia)) as Er. rewrite Z2Nat.id in Er by lia.
      rewrite Er. cbn [bindo].
      destruct (begun (pcs s !! Z.to_nat i)) eqn:Bi; cbn [Z.eqb Pos.eqb].
      * assert (Ep : paste s !! Z.to_nat i = Some (local (ind (Z.to_nat i)) (sz (Z.to_nat i) - 1))).
        { rewrite (inv_paste s I) by (done || lia). by rewrite Eh, decide_False by lia. }
        assert (Eq : paste s !! (Z.to_nat i - 1)%nat = Some (pre (ind (Z.to_nat i) - 1))).
        { rewrite (inv_paste s I); [|lia|apply (inv_begun s I); lia]. rewrite decide_True by lia.
          by replace (S (Z.to_nat i - 1)) with (Z.to_nat i) by lia. }
        unfold serial_body, done_. rewrite !Z.add_0_l.
        replace i with (Z.of_nat (Z.to_nat i)) by lia. set (n := Z.to_nat i) in *. rewrite (rd_ok _ _ _ Ep) by lia. cbn [bindo].
        replace (Z.of_nat n - 1) with (Z.of_nat (n - 1)) by lia. rewrite (rd_ok _ _ _ Eq) by lia. cbn [bindo].
        rewrite !wr_ok by lia. cbn [bindo]. rewrite pre_part by lia. eexists. split; [done|]. split.
        -- apply hand_inv; [done|lia|by replace (Z.of_nat n) with i by lia|done].
        -- intros _. eexists. split; [done|]. left. split; [done|lia].
      * exists s. split; [done|]. split; [done|]. unfold enabled. rewrite Ec, decide_True by done.
        intros [?|[?|X]]; [lia|lia|]. by rewrite El in X.
    + eexists. split; [done|]. split.
      * apply (move_inv s 0 (Phase1 i)); try done; [lia| |lia]. rewrite handed_insert by (done || lia).
        rewrite decide_True by done. unfold handed. rewrite Ec. lia.
      * intros _. exists Phase2. split; [done|by right].
Qed.

(** The other workers' wait. *)
Lemma phase_1_other_inv s w i : inv s -> (0 < w < W)%nat -> pcs s !! w = Some (Phase1 i) ->
  exists s', parallel_pfxsum_phase_1 combiner (Z.of_nat W) (Z.of_nat w) i s = Done s' /\ inv s' /\
    (enabled s w -> pcs s' = <[w := Phase2]> (pcs s)).
Proof.
  intros I Hw Ec. destruct (inv_len s I) as (E1 & E2 & E3 & E4). unfold parallel_pfxsum_phase_1, wait.
  rewrite (proj2 (Z.eqb_neq _ _)) by lia. replace (Z.of_nat w - 1) with (Z.of_nat (w - 1)) by lia.
  pose proof (inv_lock s I (w - 1)%nat ltac:(lia)) as El. rewrite (rd_ok _ _ _ El) by lia. cbn [bindo].
  unfold enabled. rewrite Ec, (decide_False (P := w = 0%nat)) by lia. rewrite El.
  destruct (begun _); [destruct (decide (w - 1 < handed (pcs s))%nat)|]; cbn [Z.eqb Pos.eqb].
  - eexists. split; [done|]. split; [|intros _; cbn; by rewrite Nat2Z.id].
    apply (move_inv s w (Phase1 i)); try done; [lia| |lia]. rewrite handed_insert by (done || lia). by rewrite decide_False by lia.
  - exists s. split; [done|]. split; [done|]. intros [=].
  - exists s. split; [done|]. split; [done|]. intros [=].
Qed.

(** The second phase of a worker. *)
Lemma phase_2_inv s w : inv s -> (w < W)%nat -> pcs s !! w = Some Phase2 ->
  exists s', parallel_pfxsum_work transmute scan_op combiner src (Z.of_nat N) (Z.of_nat W) (Z.of_nat w) s = Done s' /\
    inv s' /\ pcs s' = <[w := Finished]> (pcs s).
Proof.
  intros I Hw Ec. destruct (inv_len s I) as (E1 & E2 & E3 & E4). unfold parallel_pfxsum_work.
  rewrite partition_eq, Nat2Z.id, Ec by done. pose proof (handed_le s I) as Hk.
  assert (Eh : handed (<[w := Finished]> (pcs s)) = handed (pcs s)).
  { rewrite handed_insert by done. case_decide; [subst|done]. unfold handed. by rewrite Ec. }
  set (v := (if decide (w = 0)%nat then W - 1 else w - 1)%nat).
  assert (Hv : (v < handed (pcs s))%nat).
  { subst v. case_decide as C; [subst; unfold handed; rewrite Ec; lia|]. pose proof (inv_late s I w). lia || (specialize (H ltac:(lia) ltac:(by left)); lia). }
  assert (Ep : paste s !! v = Some (pre (ind (S v) - 1))).
  { rewrite (inv_paste s I); [by rewrite decide_True|subst v; case_decide; lia|by apply (inv_begun s I)]. }
  replace (if negb (Z.of_nat w =? 0) then Z.of_nat w - 1 else Z.of_nat W - 1) with (Z.of_nat v) by
    (subst v; destruct (Z.eqb_spec (Z.of_nat w) 0); cbn [negb]; case_decide; lia).
  rewrite (rd_ok _ _ _ Ep) by lia. cbn [bindo].
  assert (P : exists d', parallel_pfxsum_phase_2 transmute scan_op combiner src (dst s)
      (Z.of_nat (if decide (w = 0)%nat then ind W else ind w)) (Z.of_nat (if decide (w = 0)%nat then ind W else ind w))
      (Z.of_nat (sz w)) (pre (ind (S v) - 1)) (Z.of_nat w =? 0) = Done d' /\ length d' = length (dst s) /\
      forall k, d' !! k = if decide ((if decide (w = 0)%nat then ind W else ind w) <= k < (if decide (w = 0)%nat then N else ind (S w)))%nat
                          then Some (pre k) else dst s !! k).
  { destruct (decide (w = 0)%nat) as [->|C]; subst v.
    - replace (S (W - 1)) with W by lia. apply phase_2_first; lia.
    - replace (S (w - 1)) with w by lia. rewrite (proj2 (Z.eqb_neq _ _)) by lia. apply phase_2_other; try lia.
      intros k Hk'. rewrite (inv_part s I w k) by (try rewrite Ec; done || lia). rewrite Ec. cbn. by rewrite andb_false_r. }
  destruct P as (d' & -> & L' & K'). cbn [bindo]. eexists. split; [done|]. unfold at_pc. cbn [dst paste lock pcs].
  rewrite Nat2Z.id. split; [|done].
  assert (B' : forall v, begun (<[w := Finished]> (pcs s) !! v) = begun (pcs s !! v)).
  { intros u. rewrite lookup_pcs by lia. destruct (decide (u = w)) as [->|]; [by rewrite Ec|done]. }
  pose proof (ind_mono (S w) W ltac:(lia)) as Hm. pose proof ind_W as EW.
  split; cbn [dst paste lock pcs]; rewrite ?Eh.
  - rewrite length_insert. by split_and!; [lia|..].
  - intros u i. rewrite lookup_pcs by lia. destruct (decide (u = w)) as [->|]; [done|apply (inv_phase1 s I)].
  - intros u Hu. rewrite lookup_pcs by lia. destruct (decide (u = w)) as [->|]; [intros _|by apply (inv_late s I)].
    apply (inv_late s I); [done|by left].
  - intros u Hu. rewrite B'. by apply (inv_begun s I).
  - intros u Hu. rewrite B'. by apply (inv_lock s I).
  - intros u Hu. rewrite B'. by apply (inv_paste s I).
  - intros u k Hu Hk'. rewrite B', K'. intros Bu. pose proof (ind_mono (S u) W ltac:(lia)).
    rewrite lookup_pcs by lia. destruct (decide (u = w)) as [->|Nu].
    + destruct (decide (w = 0)%nat) as [->|C].
      * rewrite decide_False by lia. rewrite (inv_part s I 0 k Hu Hk' Bu). by rewrite Ec.
      * rewrite decide_True by lia. cbn. by rewrite (proj2 (Nat.eqb_neq w 0)).
    + rewrite decide_False; [by apply (inv_part s I)|]. destruct (decide (w = 0)%nat); [lia|].
      intros X. by pose proof (part_unique u w k Hk' X).
  - rewrite lookup_pcs by lia. intros X k Hk'. rewrite K'. destruct (decide (w = 0)%nat) as [->|C].
    + by rewrite decide_True.
    + rewrite decide_False in X by lia. rewrite decide_False by lia. by apply (inv_last s I).
  - intros k Hk'. rewrite K', decide_False; [by apply (inv_rest s I)|]. case_decide; lia.
Qed.

(** ** Progress *)

(** The steps a worker still has to make. *)
Definition remaining (w : nat) (c : option counter) : nat :=
  match c with
  | Some Phase0 => W + 3
  | Some (Phase1 i) => if decide (w = 0%nat) then W + 2 - Z.to_nat i else 2
  | Some Phase2 => 1
  | _ => 0
  end.

Fixpoint total (f : nat -> nat) (n : nat) : nat := match n with O => 0 | S n => f n + total f n end.
Definition remaining_all (s : @state B) : nat := total (fun w => remaining w (pcs s !! w)) W.

Lemma total_less f g n w : (w < n)%nat -> (forall v, v <> w -> f v = g v) -> (f w < g w)%nat -> (total f n < total g n)%nat.
Proof.
  intros Hw Hne Hlt. induction n as [|n IH]; [lia|]. cbn [total]. destruct (decide (w = n)) as [->|].
  - assert (E : forall m, (m <= n)%nat -> total f m = total g m).
    { induction m as [|m IHm]; intros; cbn [total]; [done|]. rewrite Hne by lia. rewrite IHm by lia. done. }
    rewrite (E n) by lia. lia.
  - rewrite (Hne n) by done. specialize (IH ltac:(lia)). lia.
Qed.

(** Every step of a worker completes and keeps the invariant; one that is not waiting has less left to do. *)
Lemma work_inv s w : inv s -> (w < W)%nat ->
  exists s', parallel_pfxsum_work transmute scan_op combiner src (Z.of_nat N) (Z.of_nat W) (Z.of_nat w) s = Done s' /\
    inv s' /\ (enabled s w -> (remaining_all s' < remaining_all s)%nat).
Proof.
  intros I Hw. destruct (inv_len s I) as (E1 & E2 & E3 & E4).
  assert (Less : forall s' c, pcs s' = <[w := c]> (pcs s) -> (remaining w (Some c) < remaining w (pcs s !! w))%nat ->
    (remaining_all s' < remaining_all s)%nat).
  { intros s' c E L. apply (total_less _ _ W w Hw).
    - intros v Hv. by rewrite E, lookup_pcs, decide_False by lia.
    - by rewrite E, lookup_pcs, decide_True by lia. }
  destruct (lookup_lt_is_Some_2 (pcs s) w) as [c Ec]; [lia|]. destruct c as [|i| |].
  - destruct (phase_0_inv s w I Hw Ec) as (s' & -> & I' & E'). exists s'. split_and!; [done|done|]. intros _.
    apply (Less s' (Phase1 0) E'). rewrite Ec. cbn. case_decide; lia.
  - unfold parallel_pfxsum_work. rewrite partition_eq, Nat2Z.id, Ec by done. destruct (decide (w = 0%nat)) as [->|Nw].
    + change (Z.of_nat 0) with 0. destruct (phase_1_first_inv s i I Ec) as (s' & -> & I' & P). exists s'. split_and!; [done|done|]. intros En.
      pose proof (inv_phase1 s I 0 i Ec) as Hi. rewrite decide_True in Hi by done.
      destruct (P En) as (c & E' & D). apply (Less s' c E'). rewrite Ec. destruct D as [[-> ?]| ->]; unfold remaining;
        rewrite !(decide_True (P := 0%nat = 0%nat)) by done; lia.
    + destruct (phase_1_other_inv s w i I ltac:(lia) Ec) as (s' & -> & I' & P). exists s'. split_and!; [done|done|]. intros En.
      apply (Less s' Phase2 (P En)). rewrite Ec. cbn. rewrite decide_False by done. lia.
  - destruct (phase_2_inv s w I Hw Ec) as (s' & -> & I' & E'). exists s'. split_and!; [done|done|]. intros _.
    apply (Less s' Finished E'). rewrite Ec. cbn. lia.
  - unfold parallel_pfxsum_work. rewrite partition_eq, Nat2Z.id, Ec by done. exists s. split_and!; [done|done|].
    unfold enabled. by rewrite Ec.
Qed.

(** Unless all have finished, some worker is not waiting: the first one once all have begun, any other after it. *)
Lemma some_enabled s : inv s -> finished s \/ exists w, (w < W)%nat /\ enabled s w.
Proof.
  intros I. destruct (inv_len s I) as (_ & _ & _ & E4).
  destruct (decide (Exists (fun w => begun (pcs s !! w) = false) (seq 0 W))) as [X|X].
  { apply Exists_exists in X as (w & Hw%list_elem_of_In%in_seq & Bw). right. exists w. split; [lia|]. unfold enabled.
    by destruct (pcs s !! w) as [[]|]. }
  assert (Bg : forall w, (w < W)%nat -> begun (pcs s !! w) = true).
  { intros w Hw. destruct (begun (pcs s !! w)) eqn:E; [done|]. exfalso. apply X, Exists_exists. exists w.
    split; [apply list_elem_of_In, in_seq; lia|done]. }
  destruct (lookup_lt_is_Some_2 (pcs s) 0%nat) as [c Ec]; [lia|].
  assert (H0 : c = Finished \/ enabled s 0).
  { unfold enabled. rewrite Ec. pose proof (Bg 0%nat ltac:(lia)) as B0. rewrite Ec in B0.
    destruct c as [|i| |]; [done| |by right|by left]. right. rewrite decide_True by done.
    pose proof (inv_phase1 s I 0 i Ec) as Hi. rewrite decide_True in Hi by done.
    destruct (decide (i = 0)); [by left|]. destruct (decide (Z.of_nat W <= i)); [by right; left|]. do 2 right.
    rewrite (inv_lock s I) by lia. rewrite Bg by lia. unfold handed. rewrite Ec. by rewrite decide_False by lia. }
  destruct H0 as [->|H0]; [|right; exists 0%nat; split; [lia|done]].
  destruct (decide (Exists (fun w => ended (pcs s !! w) = false) (seq 0 W))) as [Y|Y].
  - apply Exists_exists in Y as (w & Hw%list_elem_of_In%in_seq & Ew). right. exists w. split; [lia|].
    assert (Nw : w <> 0%nat) by (intros ->; by rewrite Ec in Ew). unfold enabled. pose proof (Bg w ltac:(lia)) as Bw.
    destruct (lookup_lt_is_Some_2 (pcs s) w) as [c Ecw]; [lia|]. rewrite Ecw in *. destruct c as [|i| |]; try done.
    rewrite decide_False by done. rewrite (inv_lock s I) by lia. rewrite Bg by lia. unfold handed. rewrite Ec.
    by rewrite decide_True by lia.
  - left. apply Forall_lookup. intros w c Ecw. destruct c; try done; exfalso; apply Y, Exists_exists;
      (exists w; split; [apply list_elem_of_In, in_seq; pose proof (lookup_lt_Some _ _ _ Ecw); lia|by rewrite Ecw]).
Qed.

Local Abbreviation run_ := (run transmute scan_op combiner src (Z.of_nat N) (Z.of_nat W)).

Lemma run_inv sched : forall s, inv s -> Forall (fun w => 0 <= w < Z.of_nat W) sched ->
  exists s', run_ sched s = Done s' /\ inv s'.
Proof.
  induction sched as [|w sched IH]; intros s I F; cbn [run]; [by exists s|]. inversion F as [|? ? Hw F']; subst.
  destruct (work_inv s (Z.to_nat w) I ltac:(lia)) as (s1 & E & I1 & _). rewrite Z2Nat.id in E by lia. rewrite E. cbn [bindo].
  by apply IH.
Qed.

Lemma run_to_end s : inv s -> exists sched s', Forall (fun w => 0 <= w < Z.of_nat W) sched /\ run_ sched s = Done s' /\ finished s'.
Proof.
  intros I. remember (remaining_all s) as n eqn:En. revert s I En.
  induction n as [n IH] using lt_wf_ind; intros s I En. destruct (some_enabled s I) as [F|(w & Hw & E)].
  - by exists [], s.
  - destruct (work_inv s w I Hw) as (s1 & E1 & I1 & L). specialize (L E).
    destruct (IH (remaining_all s1) ltac:(lia) s1 I1 eq_refl) as (sched & s' & F & R & Fin).
    exists (Z.of_nat w :: sched), s'. split_and!; [constructor; [lia|done]| |done]. cbn [run]. by rewrite E1.
Qed.

(** When all have finished, the first [N] cells hold the prefix sums and the others what they held. *)
Lemma finished_dst s : inv s -> finished s -> forall k, dst s !! k = if decide (k < N)%nat then Some (pre k) else d0 !! k.
Proof.
  intros I F k. destruct (inv_len s I) as (_ & _ & _ & E4). pose proof ind_W as EW.
  assert (Fw : forall w, (w < W)%nat -> pcs s !! w = Some Finished).
  { intros w Hw. destruct (lookup_lt_is_Some_2 (pcs s) w) as [c Ec]; [lia|]. rewrite Ec. f_equal. symmetry.
    exact (proj1 (Forall_lookup _ _) F w c Ec). }
  case_decide as C; [|apply (inv_rest s I); lia]. destruct (decide (k < ind W)%nat) as [L|L].
  - destruct (part_of k W L) as (w & Hw & Hk). rewrite (inv_part s I w k Hw Hk) by (by rewrite Fw). rewrite Fw by done.
    destruct (decide (w = 0%nat)) as [->|Nw].
    + rewrite ind_0. cbn. by rewrite Nat.sub_0_r.
    + by rewrite (proj2 (Nat.eqb_neq w 0)).
  - apply (inv_last s I); [apply Fw; lia|lia].
Qed.

Lemma scan_from_lookup l acc k : scan_from scan_op acc l !! k =
  if decide (k < length l)%nat then Some (foldl (fun b a => scan_op a b) acc (take (S k) l)) else None.
Proof.
  revert acc k. induction l as [|a l IH]; intros acc k; cbn [scan_from length].
  - by rewrite lookup_nil, decide_False by lia.
  - destruct k as [|k]; [by rewrite decide_True by lia|]. cbn [lookup list_lookup].
    change (list_lookup k (scan_from scan_op (scan_op a acc) l)) with (scan_from scan_op (scan_op a acc) l !! k).
    rewrite IH. repeat case_decide; (done || lia).
Qed.

Lemma prefix_sums_lookup l k : (forall i, (i < length l)%nat -> l !! i = Some (sa i)) ->
  prefix_sums transmute scan_op l !! k = if decide (k < length l)%nat then Some (pre k) else None.
Proof.
  intros H. destruct l as [|a l]; cbn [prefix_sums length]; [by rewrite lookup_nil, decide_False by lia|].
  pose proof (H 0%nat ltac:(cbn; lia)) as [= ->]. destruct k as [|k]; [by rewrite decide_True by lia|].
  cbn [lookup list_lookup]. change (list_lookup k (scan_from scan_op (transmute (sa 0)) l)) with
    (scan_from scan_op (transmute (sa 0)) l !! k). rewrite scan_from_lookup. repeat case_decide; try lia; [|done].
  f_equal. clear H0. induction k as [|k IH].
  - destruct l as [|b l]; [cbn in *; lia|]. pose proof (H 1%nat ltac:(cbn; lia)) as [= ->]. done.
  - pose proof (H (S (S k)) ltac:(cbn in *; lia)) as E. cbn in E. change (l !! S k = Some (sa (S (S k)))) in E.
    rewrite (take_S_r _ _ _ E), foldl_app, IH by lia. done.
Qed.

Lemma finished_prefix s : inv s -> finished s ->
  take N (dst s) = prefix_sums transmute scan_op (take N src) /\ drop N (dst s) = drop N d0.
Proof.
  intros I F. pose proof (finished_dst s I F) as K. split; apply list_eq; intros k.
  - rewrite prefix_sums_lookup.
    + rewrite length_take. destruct (decide (k < N)%nat).
      * rewrite lookup_take_lt, K, !decide_True by lia. done.
      * rewrite lookup_take_ge, decide_False by lia. done.
    + intros i Hi. rewrite length_take in Hi. rewrite lookup_take_lt by lia. apply src_sa. lia.
  - rewrite !lookup_drop, K, decide_False by lia. done.
Qed.
End Correct.

(** All that a schedule of the workers does. *)
Lemma prefix_sum_run {A B} (transmute : A -> B) (scan_op : A -> B -> B) (combiner : B -> B -> B)
    (src : list A) (d p : list B) (l : list Z) (ns nt : Z) (sched : list Z) :
  (forall x y z, combiner x (combiner y z) = combiner (combiner x y) z) -> (forall x y, combiner x y = combiner y x) ->
  (forall a b, scan_op a b = combiner (transmute a) b) ->
  2 <= nt < ns -> ns <= Z.of_nat (length src) < 2 ^ 64 -> ns <= Z.of_nat (length d) < 2 ^ 64 ->
  nt <= Z.of_nat (length p) < 2 ^ 64 -> nt <= Z.of_nat (length l) < 2 ^ 64 -> Forall (fun w => 0 <= w < nt) sched ->
  exists s, run transmute scan_op combiner src ns nt sched (start d p l nt) = Done s /\
    (finished s -> take (Z.to_nat ns) (dst s) = prefix_sums transmute scan_op (take (Z.to_nat ns) src) /\
                   drop (Z.to_nat ns) (dst s) = drop (Z.to_nat ns) d) /\
    exists more s', Forall (fun w => 0 <= w < nt) more /\
      run transmute scan_op combiner src ns nt more s = Done s' /\ finished s'.
Proof.
  intros Ha Hc Hs Hnt Hsrc Hd Hp Hl F. destruct src as [|a0 src']; [cbn in Hsrc; lia|]. set (src := a0 :: src') in *.
  pose proof (run_inv transmute scan_op combiner Ha Hc Hs src a0 (Z.to_nat ns) (Z.to_nat nt)) as R.
  pose proof (run_to_end transmute scan_op combiner Ha Hc Hs src a0 (Z.to_nat ns) (Z.to_nat nt)) as E.
  pose proof (finished_prefix transmute scan_op src a0 (Z.to_nat ns) (Z.to_nat nt)) as P.
  pose proof (start_inv transmute scan_op src a0 (Z.to_nat ns) (Z.to_nat nt)) as I.
  rewrite !Z2Nat.id in * by lia.
  destruct (R ltac:(lia) ltac:(lia) ltac:(lia) ltac:(lia) d p l ltac:(lia) ltac:(lia) ltac:(lia) ltac:(lia) ltac:(lia)
    ltac:(lia) sched (start d p l nt)) as (s & Er & Is); [apply I; lia|done|].
  exists s. split; [done|]. split.
  - intros Fs. apply (P ltac:(lia) ltac:(lia) d p l); try lia; done.
  - apply (E ltac:(lia) ltac:(lia) ltac:(lia) ltac:(lia) d p l); try lia; done.
Qed.

(** C28: the parallel prefix sum.  Let [combiner] be associative and commutative and [scan_op] combine the transmuted
    element with the sum so far; let there be at least two workers and more elements than workers.  Then under
    every schedule of the workers no access leaves an array; when all workers have finished the destination holds
    the prefix sums of the source, beyond which it is unchanged; and from every point of every schedule the
    workers can still all finish: the lock never blocks them for good. *)
Theorem prefix_sum_correct {A B} (transmute : A -> B) (scan_op : A -> B -> B) (combiner : B -> B -> B)
    (src : list A) (d p : list B) (l : list Z) (ns nt : Z) (sched : list Z) :
  (forall x y z, combiner x (combiner y z) = combiner (combiner x y) z) -> (forall x y, combiner x y = combiner y x) ->
  (forall a b, scan_op a b = combiner (transmute a) b) ->
  2 <= nt < ns -> ns <= Z.of_nat (length src) < 2 ^ 64 -> ns <= Z.of_nat (length d) < 2 ^ 64 ->
  nt <= Z.of_nat (length p) < 2 ^ 64 -> nt <= Z.of_nat (length l) < 2 ^ 64 -> Forall (fun w => 0 <= w < nt) sched ->
  exists s, run transmute scan_op combiner src ns nt sched (start d p l nt) = Done s /\
    (finished s -> take (Z.to_nat ns) (dst s) = prefix_sums transmute scan_op (take (Z.to_nat ns) src) /\
                   drop (Z.to_nat ns) (dst s) = drop (Z.to_nat ns) d) /\
    exists more s', Forall (fun w => 0 <= w < nt) more /\
      run transmute scan_op combiner src ns nt more s = Done s' /\ finished s'.
Proof. apply prefix_sum_run. Qed.

(** Sums of seven numbers by two workers, the second of which starts first and waits. *)
Lemma prefix_sum_correct_witness :
  let src := [3; 1; 4; 1; 5; 9; 2] in let d := repeat 0 7 in
  let sched := [1; 1; 0; 0; 0; 0; 1; 1; 0] in
  exists s, run (fun a => a) Z.add Z.add src 7 2 sched (start d [0; 0] [0; 0] 2) = Done s /\
    finished s /\ take 7 (dst s) = prefix_sums (fun a => a) Z.add (take 7 src).
Proof.
  intros src d sched.
  destruct (prefix_sum_correct (fun a => a) Z.add Z.add src d [0; 0] [0; 0] 7 2 sched) as (s & E & P & _);
    [intros; lia|intros; lia|done|lia|cbn; lia|cbn; lia|cbn; lia|cbn; lia|repeat constructor; lia|].
  exists s. split; [exact E|]. assert (F : finished s).
  { vm_compute in E. injection E as <-. repeat constructor. }
  split; [done|]. exact (proj1 (P F)).
Defined.

(** Where the partition goes wrong.  A single worker on an odd number of elements writes past the last one in
    its second phase, and with no more elements than workers a worker with an empty part reads before the first. *)
Theorem prefix_sum_overruns :
  run (fun a => a) Z.add Z.add [1; 2; 3] 3 1 [0; 0; 0; 0] (start [0; 0; 0] [0] [0] 1) = Failed (Undefined "array index") /\
  partition 3 1 0 = (0, 2, 2, 2) /\
  run (fun a => a) Z.add Z.add [1; 2] 2 3 [0] (start [0; 0] [0; 0; 0] [0; 0; 0] 3) = Failed (Undefined "array index").
Proof. split_and!; vm_compute; reflexivity. Qed.
End PrefixSum.
