(* ===== verification/Termination.v ===== *)
(** * Tasks and termination detection

    How the PREP backend of the runtime places tasks ([pando-rt/src/execute_on.cpp], [execution/execute_on.hpp]),
    runs them ([pando-rt/src/start.cpp], [prep/cores.cpp]), counts them ([prep/termination.cpp]) and decides that all of them are done
    ([waitAll] of [pando-rt/src/wait.cpp]).

    The system is a list of nodes and the requests in flight between them; a step is one of the points where what a thread does becomes visible to
    the others: a task is placed, a request is handled, a hart takes a task or finishes one, the command processor of a node enters, continues or
    leaves a call of [waitAll], or returns from one to its main function, which may place tasks again and call [waitAll] again.  [Nodes::allreduce] is a call of the GASNet library: it returns to every node the sum of what all nodes contributed
    to the same call.  A step that is not possible, or that aborts the process, is [None]. *)

From S2P Require Import Prelude Addressing.
Import Index.

Module Termination.

(** ** Places of tasks *)

(** What [getNodeDims], [getPodDims] and [getCoreDims] answer. *)
Record dims := mkDims { nodeDims : NodeIndex; podDims : PodIndex; coreDims : CoreIndex }.

(** src/pando-rt/src/execute_on.cpp:20-45 [detail::executeOn], the core that gets the task; [rng] is the draw of
    [perCoreRNG] *)
Definition chooseCore (d : dims) (rng : Z) (place : Place) : outcome CoreIndex :=
  if node_ltb (node place) (mkNode 0) || negb (node_ltb (node place) (nodeDims d)) then Failed (Aborted "Invalid node index") else
  if pod_ltb (pod place) (mkPod 0 0) || ((pod_x (podDims d) <=? pod_x (pod place)) || (pod_y (podDims d) <=? pod_y (pod place)))
  then Failed (Aborted "Invalid pod index") else
  if core_eqb (core place) anyCore then
    if rng <? core_x (coreDims d) then Done (mkCore rng 0) else Failed (Aborted "assert")
  else if core_ltb (core place) (mkCore 0 0) ||
    ((core_x (coreDims d) <=? core_x (core place)) || (core_y (coreDims d) <=? core_y (core place)))
  then Failed (Aborted "Invalid core index") else Done (core place).

(** src/pando-rt/include/pando-rt/execution/execute_on.hpp:32-38 [executeOn]: the wildcards of a place; [this] is the node of
    the caller and [pod_] its pod, (0, 0) on a command processor *)
Definition resolve (this : Z) (pod_ : PodIndex) (place : Place) : Place :=
  mkPlace (if node_eqb (node place) anyNode then mkNode this else node place)
          (if pod_eqb (pod place) anyPod then pod_ else pod place) (core place).

(** Where a task may be placed.  [executeOn] goes on exactly when the node exists, the pod and the core are lexicographically at
    least (0, 0) and below the dimensions in both coordinates, or the core is left open; every other place aborts.  The core it
    settles on has its x coordinate, which alone selects the queue, in range; its y coordinate can be negative. *)
Theorem chooseCore_spec d rng place : 0 <= rng ->
  (forall c, chooseCore d rng place = Done c <->
     0 <= node_id (node place) < node_id (nodeDims d) /\
     (0 < pod_x (pod place) \/ pod_x (pod place) = 0 /\ 0 <= pod_y (pod place)) /\
     pod_x (pod place) < pod_x (podDims d) /\ pod_y (pod place) < pod_y (podDims d) /\
     (core place = anyCore /\ rng < core_x (coreDims d) /\ c = mkCore rng 0 \/
      (0 < core_x (core place) \/ core_x (core place) = 0 /\ 0 <= core_y (core place)) /\
      core_x (core place) < core_x (coreDims d) /\ core_y (core place) < core_y (coreDims d) /\ c = core place)) /\
  (forall c, chooseCore d rng place = Done c -> 0 <= core_x c < core_x (coreDims d)) /\
  (forall e, chooseCore d rng place = Failed e -> exists msg, e = Aborted msg).
Proof.
  intros Hr. assert (S : forall c, chooseCore d rng place = Done c <->
     0 <= node_id (node place) < node_id (nodeDims d) /\
     (0 < pod_x (pod place) \/ pod_x (pod place) = 0 /\ 0 <= pod_y (pod place)) /\
     pod_x (pod place) < pod_x (podDims d) /\ pod_y (pod place) < pod_y (podDims d) /\
     (core place = anyCore /\ rng < core_x (coreDims d) /\ c = mkCore rng 0 \/
      (0 < core_x (core place) \/ core_x (core place) = 0 /\ 0 <= core_y (core place)) /\
      core_x (core place) < core_x (coreDims d) /\ core_y (core place) < core_y (coreDims d) /\ c = core place)).
  { intros c. unfold chooseCore, node_ltb, pod_ltb, core_ltb, core_eqb. destruct (core place) as [cx cy]. unfold anyCore. cbn.
    repeat case_match; repeat match goal with
      | H : _ || _ = true |- _ => apply orb_true_iff in H | H : _ || _ = false |- _ => apply orb_false_iff in H as [? ?]
      | H : _ && _ = true |- _ => apply andb_true_iff in H as [? ?] | H : _ && _ = false |- _ => apply andb_false_iff in H
      end; rewrite ?negb_true_iff, ?negb_false_iff, ?Z.ltb_lt, ?Z.ltb_ge, ?Z.leb_le, ?Z.leb_gt, ?Z.eqb_eq, ?Z.eqb_neq in *;
      split; try discriminate; try (intros [= <-]); intuition (simplify_eq; try lia; try done). }
  split; [exact S|]. split.
  - intros c (_ & _ & _ & _ & [(_ & ? & ->)|(? & ? & ? & ->)])%S; cbn; lia.
  - intros e. unfold chooseCore. repeat (case_match; try discriminate); intros [= <-]; by eexists.
Qed.

(** ** The state *)

(** Where the command processor of a node is: in the user's main function, which may call [waitAll] any number of times, or in such a call: about to
    contribute the new or the pending tasks, inside one of the two reductions, before one of the two loads of [getTaskCounts], or out of the
    loop, about to return to the main function. *)
Inductive point :=
| InMain | PostNew | InNew | PostPending (globalNew : Z) | InPending (globalNew : Z) | LoadFinished | LoadCreated (finished : Z) | Left.

(** src/pando-rt/include/pando-rt/execution/termination.hpp:33-36 [TaskCounts], with the rest of a node: the length of the task queue of
    each core, the number of harts inside a task, and the command processor's locals and its contributions to the
    reductions so far.  The counters do not wrap: that takes 2^63 tasks. *)
Record Node := mkNode_ {
  created : Z; finished : Z; queues : list nat; running : nat;
  at_ : point; prevCreatedTasks : Z; partialPendingTasks : Z; newTasksCreated : Z; contributed : list Z }.

Record system := mkSystem { nodes : list Node; in_flight : list Place }.

Definition with_tasks (n : Node) (c f : Z) (q : list nat) (r : nat) : Node :=
  mkNode_ c f q r (at_ n) (prevCreatedTasks n) (partialPendingTasks n) (newTasksCreated n) (contributed n).
Definition with_cp (n : Node) (p : point) (prev pending new : Z) (posts : list Z) : Node :=
  mkNode_ (created n) (finished n) (queues n) (running n) p prev pending new posts.
Definition goto (n : Node) (p : point) : Node :=
  with_cp n p (prevCreatedTasks n) (partialPendingTasks n) (newTasksCreated n) (contributed n).

(** src/pando-rt/src/prep/termination.cpp:13-16 [increaseTasksCreated] *)
Definition increaseTasksCreated (n : Node) (k : Z) : Node := with_tasks n (created n + k) (finished n) (queues n) (running n).
(** src/pando-rt/src/prep/termination.cpp:18-20 [increaseTasksFinished] *)
Definition increaseTasksFinished (n : Node) (k : Z) : Node := with_tasks n (created n) (finished n + k) (queues n) (running n).

(** The queue of core [c] after an enqueue or a dequeue. *)
Definition set_queue (n : Node) (c k : nat) : Node := with_tasks n (created n) (finished n) (<[c := k]> (queues n)) (running n).

(** src/pando-rt/src/execute_on.cpp:47-60 [detail::executeOn]: counting the task, then the queue of its core; [Queue::enqueue] always
    succeeds *)
Definition enqueueTask (c : CoreIndex) (n : Node) : option Node :=
  let n := increaseTasksCreated n 1 in
  match queues n !! Z.to_nat (core_x c) with
  | Some k => Some (set_queue n (Z.to_nat (core_x c)) (S k))
  | None => None
  end.

(** src/pando-rt/src/execute_on.cpp:20-60 [detail::executeOn] *)
Definition executeOnHere (d : dims) (rng : Z) (place : Place) (n : Node) : option Node :=
  match chooseCore d rng place with Done c => enqueueTask c n | Failed _ => None end.

Section System.
Context (d : dims).

(** src/pando-rt/include/pando-rt/execution/execute_on.hpp:30-60 [executeOn] by node [i]: on this node, or a request to the other *)
Definition executeOn (i : nat) (pod_ : PodIndex) (rng : Z) (place : Place) (s : system) : option system :=
  let place := resolve (Z.of_nat i) pod_ place in
  if node_eqb (node place) (mkNode (Z.of_nat i)) then
    let? n := nodes s !! i in let? n := executeOnHere d rng place n in Some (mkSystem (<[i := n]> (nodes s)) (in_flight s))
  else if (0 <=? node_id (node place)) && node_ltb (node place) (nodeDims d) then
    Some (mkSystem (nodes s) (in_flight s ++ [place]))
  else None.

(** src/pando-rt/include/pando-rt/execution/request.hpp:113-128 [AsyncTaskRequest::impl]: the [k]-th request in flight is handled *)
Definition handleRequest (k : nat) (rng : Z) (s : system) : option system :=
  let? place := in_flight s !! k in
  let j := Z.to_nat (node_id (node place)) in
  let? n := nodes s !! j in let? n := executeOnHere d rng place n in
  Some (mkSystem (<[j := n]> (nodes s)) (delete k (in_flight s))).

(** src/pando-rt/src/start.hpp:11-11 [STEAL_THRESH_HOLD_SIZE] *)
Definition STEAL_THRESH_HOLD_SIZE : nat := 16.

(** src/pando-rt/src/prep/cores.cpp:470-480 [Cores::workStealing], the stealing case, by a hart of core [c]: the queue it takes a task from *)
Definition workStealing (c : nat) (n : Node) : option nat :=
  let other := (S c mod length (queues n))%nat in
  let? k := queues n !! other in if (STEAL_THRESH_HOLD_SIZE <? k)%nat then Some other else None.

(** src/pando-rt/src/start.cpp:54-75 [__start], a hart of core [c] finds a task: in its own queue, or, when that is empty,
    by stealing *)
Definition takeTask (c : nat) (n : Node) : option Node :=
  let? k := queues n !! c in
  let? from := match k with S _ => Some c | O => workStealing c n end in
  let? k := queues n !! from in
  match k with
  | S k => Some (with_tasks n (created n) (finished n) (<[from := k]> (queues n)) (S (running n)))
  | O => None
  end.

(** src/pando-rt/include/pando-rt/execution/task.hpp:113-119 [Task::Target::operator()], the end of a task on a hart *)
Definition finishTask (n : Node) : option Node :=
  match running n with
  | S r => Some (increaseTasksFinished (with_tasks n (created n) (finished n) (queues n) r) 1)
  | O => None
  end.

(** src/pando-rt/src/prep/nodes.cpp:1052-1057 [Nodes::allreduce], the call number [k]: the sum of the contributions, once there is one of
    each node *)
Fixpoint allreduce (k : nat) (l : list Node) : option Z :=
  match l with
  | [] => Some 0
  | n :: l => let? v := contributed n !! k in let? sum := allreduce k l in Some (v + sum)
  end.

Definition contribute (n : Node) (p : point) (v : Z) : Node :=
  with_cp n p (prevCreatedTasks n) (partialPendingTasks n) (newTasksCreated n) (contributed n ++ [v]).
(** The reduction a node is inside of. *)
Definition current (n : Node) (l : list Node) : option Z := allreduce (length (contributed n) - 1) l.

(** src/pando-rt/src/wait.cpp:64-105 [waitAll], one step of the command processor of node [n] in the system [l]; with
    [getTaskCounts] of [prep/termination.cpp], which loads the finished tasks first *)
Definition waitAll (n : Node) (l : list Node) : option Node :=
  match at_ n with
  | InMain => Some (with_cp n PostNew (created n) (created n) (created n) (contributed n))
  | PostNew => Some (contribute n InNew (newTasksCreated n))
  | InNew => let? g := current n l in Some (goto n (PostPending g))
  | PostPending g => Some (contribute n (InPending g) (partialPendingTasks n))
  | InPending g =>
      let? p := current n l in
      Some (goto n (if (p =? 0) && (g =? 0) then Left else LoadFinished))
  | LoadFinished => Some (goto n (LoadCreated (finished n)))
  | LoadCreated f =>
      Some (with_cp n PostNew (created n) (created n - f) (created n - prevCreatedTasks n) (contributed n))
  | Left => None
  end.

(** ** Runs *)

(** src/pando-rt/src/wait.cpp:101-111 [waitAll], the return to the main function, which goes on: it may place tasks and call [waitAll] again *)
Definition return_ (n : Node) : option Node := match at_ n with Left => Some (goto n InMain) | _ => None end.

(** Who does something next: a task (or the main function) of node [i] places a task; a request is handled; a hart of core [c] of
    node [i] takes a task; a hart finishes one; the command processor of node [i] calls [waitAll] or takes a step of it, or returns from it. *)
Inductive event :=
| Place_ (i : nat) (pod_ : PodIndex) (rng : Z) (place : Place)
| Handle (k : nat) (rng : Z)
| Take (i c : nat)
| Finish (i : nat)
| Wait (i : nat)
| Return (i : nat).

(** Only running code places tasks: a hart inside a task, or the main function while it is not in [waitAll]. *)
Definition can_place (n : Node) : bool := match running n, at_ n with O, InMain => true | O, _ => false | _, _ => true end.

Definition update (s : system) (i : nat) (f : Node -> option Node) : option system :=
  let? n := nodes s !! i in let? n := f n in Some (mkSystem (<[i := n]> (nodes s)) (in_flight s)).

Definition step (e : event) (s : system) : option system :=
  match e with
  | Place_ i pod_ rng place =>
      let? n := nodes s !! i in if can_place n then executeOn i pod_ rng place s else None
  | Handle k rng => handleRequest k rng s
  | Take i c => update s i (takeTask c)
  | Finish i => update s i finishTask
  | Wait i => update s i (fun n => waitAll n (nodes s))
  | Return i => update s i return_
  end.

Fixpoint run (es : list event) (s : system) : option system :=
  match es with [] => Some s | e :: es => let? s := step e s in run es s end.

(** The system at its start: [n] nodes of [c] cores. *)
Definition start (n c : nat) : system := mkSystem (repeat (mkNode_ 0 0 (repeat O c) 0 InMain 0 0 0 []) n) [].
End System.

(** ** Tasks are counted *)

(** The tasks of a node that are not finished: queued or running. *)
Definition pending (n : Node) : nat := sum_list (queues n) + running n.
Definition balanced (n : Node) : Prop := 0 <= finished n /\ created n = finished n + Z.of_nat (pending n).

(** What tasks do to a node: the command processor does not notice. *)
Record task_move (n n' : Node) : Prop := {
  tm_at : at_ n' = at_ n; tm_prev : prevCreatedTasks n' = prevCreatedTasks n;
  tm_partial : partialPendingTasks n' = partialPendingTasks n; tm_new : newTasksCreated n' = newTasksCreated n;
  tm_contributed : contributed n' = contributed n;
  tm_created : created n <= created n'; tm_finished : finished n <= finished n';
  tm_balance : created n' - finished n' - Z.of_nat (pending n') = created n - finished n - Z.of_nat (pending n) }.

Lemma enqueueTask_move c n n' : enqueueTask c n = Some n' -> task_move n n'.
Proof.
  unfold enqueueTask, increaseTasksCreated, set_queue, with_tasks. cbn.
  destruct (queues n !! Z.to_nat (core_x c)) as [k|] eqn:E; [|done]. intros [= <-].
  pose proof (sum_list_insert _ _ _ (S k) E). constructor; unfold pending in *; cbn; lia || done.
Qed.

Lemma executeOnHere_move d rng p n n' : executeOnHere d rng p n = Some n' -> task_move n n'.
Proof. unfold executeOnHere. destruct (chooseCore d rng p); [apply enqueueTask_move|done]. Qed.

Lemma takeTask_move c n n' : takeTask c n = Some n' -> task_move n n'.
Proof.
  unfold takeTask. destruct (queues n !! c); [|done]. destruct (match n0 with O => _ | _ => _ end) as [from|]; [|done].
  destruct (queues n !! from) as [[|k]|] eqn:E; [done| |done]. intros [= <-].
  pose proof (sum_list_insert _ _ _ k E). unfold with_tasks. constructor; unfold pending in *; cbn; lia || done.
Qed.

Lemma finishTask_move n n' : finishTask n = Some n' -> task_move n n'.
Proof.
  unfold finishTask, increaseTasksFinished, with_tasks. destruct (running n) as [|r] eqn:E; [done|]. intros [= <-].
  constructor; unfold pending in *; cbn; rewrite ?E; lia || done.
Qed.

(** An idle node whose main function has entered [waitAll] has nothing to do. *)
Definition idle (n : Node) : Prop := pending n = O /\ at_ n <> InMain.

Lemma takeTask_idle c n : pending n = O -> takeTask c n = None.
Proof.
  intros H. assert (Z0 : forall i k, queues n !! i = Some k -> k = O).
  { intros i k E. pose proof (sum_list_insert _ _ _ O E). unfold pending in *. lia. }
  unfold takeTask. destruct (queues n !! c) as [k|] eqn:E; [|done]. rewrite (Z0 _ _ E).
  unfold workStealing. destruct (queues n !! (S c mod length (queues n))%nat) as [k'|] eqn:E'; [|done].
  by rewrite (Z0 _ _ E').
Qed.

Lemma finishTask_idle n : pending n = O -> finishTask n = None.
Proof. unfold pending, finishTask. intros H. by replace (running n) with O by lia. Qed.

Lemma idle_cannot_place n : idle n -> can_place n = false.
Proof.
  intros [H1 H2]. unfold can_place, pending in *. replace (running n) with O by lia. by destruct (at_ n).
Qed.

Section Steps.
Context (d : dims).

(** A step changes at most one node, by its tasks or by its command processor. *)
Lemma step_cases e s s' : step d e s = Some s' ->
  nodes s' = nodes s \/
  exists i n n', nodes s !! i = Some n /\ nodes s' = <[i := n']> (nodes s) /\
    (task_move n n' \/ e = Wait i /\ waitAll n (nodes s) = Some n' \/ e = Return i /\ return_ n = Some n').
Proof.
  destruct e as [i pod_ rng place|k rng|i c|i|i|i]; cbn [step]; unfold update.
  - destruct (nodes s !! i) as [n|] eqn:E; [|done]. destruct (can_place n); [|done]. unfold executeOn.
    destruct (node_eqb _ _).
    + rewrite E. destruct (executeOnHere _ _ _ _) as [n'|] eqn:X; [|done]. intros [= <-]. right. exists i, n, n'.
      split_and!; [done..|]. left. by eapply executeOnHere_move.
    + destruct (andb _ _); [|done]. intros [= <-]. by left.
  - unfold handleRequest. destruct (in_flight s !! k) as [place|]; [|done].
    destruct (nodes s !! _) as [n|] eqn:E; [|done].
    destruct (executeOnHere _ _ _ _) as [n'|] eqn:X; [|done]. intros [= <-]. right. eexists _, n, n'.
    split_and!; [done..|]. left. by eapply executeOnHere_move.
  - destruct (nodes s !! i) as [n|] eqn:E; [|done]. destruct (takeTask c n) as [n'|] eqn:X; [|done]. intros [= <-].
    right. exists i, n, n'. split_and!; [done..|]. left. by eapply takeTask_move.
  - destruct (nodes s !! i) as [n|] eqn:E; [|done]. destruct (finishTask n) as [n'|] eqn:X; [|done]. intros [= <-].
    right. exists i, n, n'. split_and!; [done..|]. left. by apply finishTask_move.
  - destruct (nodes s !! i) as [n|] eqn:E; [|done]. destruct (waitAll n (nodes s)) as [n'|] eqn:X; [|done]. intros [= <-].
    right. exists i, n, n'. split_and!; [done..|]. by right; left.
  - destruct (nodes s !! i) as [n|] eqn:E; [|done]. destruct (return_ n) as [n'|] eqn:X; [|done]. intros [= <-].
    right. exists i, n, n'. split_and!; [done..|]. by right; right.
Qed.
End Steps.

(** ** The reductions *)

Lemma allreduce_mono k l l' v : Forall2 (fun n n' => contributed n `prefix_of` contributed n') l l' ->
  allreduce k l = Some v -> allreduce k l' = Some v.
Proof.
  intros H. revert v. induction H as [|n n' l l' P H IH]; intros v; cbn; [done|].
  destruct (contributed n !! k) as [x|] eqn:E; [|done]. destruct (allreduce k l) as [t|]; [|done]. intros [= <-].
  rewrite (prefix_lookup_Some _ _ _ _ E P). by rewrite (IH t).
Qed.

(** A sum of contributions that are not negative is zero only when they all are. *)
Lemma allreduce_zero k l : (forall n v, n ∈ l -> contributed n !! k = Some v -> 0 <= v) -> allreduce k l = Some 0 ->
  forall n, n ∈ l -> contributed n !! k = Some 0.
Proof.
  intros P E. enough (G : forall t, allreduce k l = Some t -> 0 <= t /\ (t = 0 -> forall n, n ∈ l -> contributed n !! k = Some 0))
    by (by apply (G 0)).
  clear E. induction l as [|n l IH]; intros t; cbn [allreduce].
  { intros [= <-]. split; [lia|]. by intros _ n ?%elem_of_nil. }
  destruct (contributed n !! k) as [x|] eqn:E; [|done]. destruct (allreduce k l) as [u|]; [|done]. intros [= <-].
  destruct (IH (fun m v H => P m v (list_elem_of_further _ _ _ H)) u eq_refl) as [U0 U].
  pose proof (P n x (list_elem_of_here _ _) E). split; [lia|]. intros Z0 m [->|Hm]%elem_of_cons; [rewrite E; f_equal; lia|].
  apply U; [lia|done].
Qed.

Lemma allreduce_zeros k l v : (forall n x, n ∈ l -> contributed n !! k = Some x -> x = 0) -> allreduce k l = Some v -> v = 0.
Proof.
  revert v. induction l as [|n l IH]; intros v P; cbn [allreduce]; [congruence|].
  destruct (contributed n !! k) as [x|] eqn:E; [|done]. destruct (allreduce k l) as [u|]; [|done]. intros [= <-].
  rewrite (P n x (list_elem_of_here _ _) E), (IH u); [lia| |done]. intros m y Hm. by apply P, list_elem_of_further.
Qed.

(** A reduction is complete exactly when everyone has contributed. *)
Lemma allreduce_Some k l : (forall n, n ∈ l -> (k < length (contributed n))%nat) <-> exists v, allreduce k l = Some v.
Proof.
  induction l as [|n l IH]; cbn [allreduce].
  { split; [by exists 0|]. by intros _ n ?%elem_of_nil. }
  split.
  - intros H. destruct (lookup_lt_is_Some_2 (contributed n) k) as [x ->]; [apply H, list_elem_of_here|].
    destruct (proj1 IH) as [u ->]; [|by eexists]. intros m Hm. by apply H, list_elem_of_further.
  - intros [v H]. destruct (contributed n !! k) as [x|] eqn:E; [|done]. destruct (allreduce k l) as [u|] eqn:E'; [|done].
    intros m [->|Hm]%elem_of_cons; [by eapply lookup_lt_Some|]. by apply (proj2 IH); [exists u|].
Qed.

(** ** Where a command processor is

    [rank] numbers the points a command processor goes through.  Reductions are counted over all calls of [waitAll], so that the [k]-th reduction of
    every node is the same one; round [k], from 0, has two, and ends at [6 k + 7]: either the loop goes on, or the call is over and the node returns to
    its main function at [6 k + 8], from which the next call starts at [6 k + 9], where the next round would. *)

Definition rank (n : Node) : nat :=
  (3 * length (contributed n) + match at_ n with
    | InMain => 2 | PostNew => 3 | InNew => 1 | PostPending _ => 2 | InPending _ => 0 | LoadFinished => 1 | LoadCreated _ => 2 | Left => 1
    end)%nat.
Definition is_left (n : Node) : bool := match at_ n with Left => true | _ => false end.

Definition shape (n : Node) : Prop :=
  match at_ n with
  | InMain | PostNew => exists k, length (contributed n) = (2 * k)%nat
  | InNew | PostPending _ => exists k, length (contributed n) = (2 * k + 1)%nat
  | _ => exists k, length (contributed n) = (2 * k + 2)%nat
  end.

(** The sums of a round were both 0. *)
Definition final (l : list Node) (k : nat) : Prop := allreduce (2 * k) l = Some 0 /\ allreduce (2 * k + 1) l = Some 0.

(** The sums a node has seen, and what it concluded from them. *)
Definition settled (l : list Node) (n : Node) : Prop :=
  match at_ n with
  | PostPending g => allreduce (length (contributed n) - 1) l = Some g
  | InPending g => allreduce (length (contributed n) - 2) l = Some g
  | _ => True
  end /\
  forall k, (6 * k + 7 <= rank n)%nat -> exists g p, allreduce (2 * k) l = Some g /\ allreduce (2 * k + 1) l = Some p /\
    (rank n = (6 * k + 7)%nat -> is_left n = (p =? 0) && (g =? 0)).

Definition control (s : system) : Prop := Forall (fun n => shape n /\ settled (nodes s) n) (nodes s).

Lemma settled_mono l l' n : Forall2 (fun n n' => contributed n `prefix_of` contributed n') l l' -> settled l n -> settled l' n.
Proof.
  intros P [H1 H2]. split.
  - destruct (at_ n); try done; by eapply allreduce_mono.
  - intros k Hk. destruct (H2 k Hk) as (g & p & ? & ? & ?). exists g, p. split_and!; [by eapply allreduce_mono..|done].
Qed.

Lemma prefix_insert l i n n' : l !! i = Some n -> contributed n `prefix_of` contributed n' ->
  Forall2 (fun n n' => contributed n `prefix_of` contributed n') l (<[i := n']> l).
Proof.
  intros H P. apply Forall2_lookup. intros j. destruct (decide (i = j)) as [->|].
  - rewrite list_lookup_insert_eq by (by eapply lookup_lt_Some). rewrite H. by constructor.
  - rewrite list_lookup_insert_ne by done. destruct (l !! j); by constructor.
Qed.

Lemma task_move_rank n n' : task_move n n' -> rank n' = rank n /\ is_left n' = is_left n.
Proof. intros []. unfold rank, is_left. by rewrite tm_at0, tm_contributed0. Qed.

Lemma task_move_control l n n' : task_move n n' -> shape n /\ settled l n -> shape n' /\ settled l n'.
Proof.
  intros M. destruct (task_move_rank n n' M) as [R I]. destruct M. unfold shape, settled.
  by rewrite R, I, tm_at0, tm_contributed0.
Qed.

(** Each step of [waitAll] goes one point further. *)
Lemma waitAll_move l n n' : waitAll n l = Some n' -> shape n ->
  rank n' = S (rank n) /\ shape n' /\ contributed n `prefix_of` contributed n'.
Proof.
  unfold waitAll, shape, rank, goto, contribute, with_cp, current. intros E Sh. destruct (at_ n) eqn:A.
  all: try (destruct (allreduce _ l) as [v|]; [|done]).
  all: try discriminate E; injection E as <-; cbn [at_ contributed]; rewrite ?length_app; cbn [length].
  all: split_and!; try lia; try done; try (by apply prefix_app_r).
  all: try match type of Sh with ex _ => destruct Sh as [k Sh] end.
  all: try (by exists k); try (exists k; lia); try (exists (S k); lia); try (exists O; lia).
  all: match goal with |- context [if ?b then Left else _] => destruct b end; try lia; by exists k.
Qed.

Lemma rank_in_pending n k : shape n -> rank n = (6 * k + 6)%nat ->
  exists g, at_ n = InPending g /\ length (contributed n) = (2 * k + 2)%nat.
Proof.
  unfold shape, rank. intros Sh R. destruct (at_ n) as [| | |g|g| |f|]; try lia.
  all: try (destruct Sh as [j Sh]; lia). exists g. split; [done|lia].
Qed.

Lemma waitAll_settled l i n n' : l !! i = Some n -> waitAll n l = Some n' -> shape n -> settled l n ->
  settled (<[i := n']> l) n'.
Proof.
  intros Hi E Sh [S1 S2]. destruct (waitAll_move l n n' E Sh) as (R & Sh' & P).
  pose proof (prefix_insert l i n n' Hi P) as M.
  split.
  - revert E S1. unfold waitAll, current. destruct (at_ n) eqn:A; try discriminate.
    all: try (destruct (allreduce _ l) as [v|] eqn:V; [|discriminate]).
    all: intros [= <-] S1; cbn [at_ contributed goto contribute with_cp]; try done.
    + by eapply allreduce_mono.
    + rewrite length_app. cbn [length]. eapply allreduce_mono; [exact M|].
      replace (length (contributed n) + 1 - 2)%nat with (length (contributed n) - 1)%nat by lia. by rewrite V.
    + by destruct (andb _ _).
  - intros k Hk. rewrite R in Hk |- *. destruct (decide (6 * k + 7 <= rank n)%nat) as [Old|New].
    + destruct (S2 k Old) as (g & p & G & Pp & B). exists g, p. split_and!; [by eapply allreduce_mono..|].
      lia.
    + destruct (rank_in_pending n k Sh) as (g & A & Len); [lia|]. rewrite A in S1. revert E. unfold waitAll, current.
      rewrite A. destruct (allreduce (length (contributed n) - 1) l) as [p|] eqn:V; [|done]. intros [= <-].
      replace (length (contributed n) - 2)%nat with (2 * k)%nat in S1 by lia.
      replace (length (contributed n) - 1)%nat with (2 * k + 1)%nat in V by lia.
      exists g, p. split_and!; [by eapply allreduce_mono..|]. intros _.
      unfold is_left, goto. cbn [at_ with_cp]. by destruct (andb _ _).
Qed.

(** The return goes one point further, and shows nothing to the other nodes. *)
Lemma return_move n n' : return_ n = Some n' -> shape n ->
  rank n' = S (rank n) /\ shape n' /\ contributed n' = contributed n /\ at_ n = Left /\ at_ n' = InMain /\
  pending n' = pending n /\ created n' = created n /\ finished n' = finished n.
Proof.
  unfold return_, shape, rank, pending. destruct (at_ n) eqn:A; try discriminate. intros [= <-] [k Hk]. cbn.
  split_and!; try (done || lia). exists (S k). lia.
Qed.

Lemma return_settled l n n' : return_ n = Some n' -> shape n -> settled l n -> settled l n'.
Proof.
  intros E Sh [S1 S2]. destruct (return_move n n' E Sh) as (R & _ & _ & A & A' & _). unfold shape in Sh. rewrite A in Sh. destruct Sh as [j Hj].
  assert (Rn : rank n = (6 * j + 7)%nat) by (unfold rank; rewrite A; lia).
  split; [by rewrite A'|]. intros k Hk. destruct (S2 k ltac:(lia)) as (g & p & ? & ? & _). exists g, p. split_and!; [done..|lia].
Qed.

Section Control.
Context (d : dims).

(** The control part of the state stays consistent under every step. *)
Lemma step_control e s s' : step d e s = Some s' -> control s -> control s'.
Proof.
  unfold control. intros [->|(i & n & n' & Hi & -> & M)]%step_cases C; [done|].
  rewrite Forall_lookup in C |- *. pose proof (C i n Hi) as [Sh St]. pose proof (lookup_lt_Some _ _ _ Hi) as Li.
  assert (P : contributed n `prefix_of` contributed n').
  { destruct M as [M|[[_ M]|[_ M]]]; [by rewrite (tm_contributed _ _ M)|by eapply waitAll_move|].
    destruct (return_move _ _ M Sh) as (_ & _ & -> & _). done. }
  intros j m. destruct (decide (i = j)) as [<-|N].
  - rewrite list_lookup_insert_eq by done. intros [= <-]. destruct M as [M|[[_ M]|[_ M]]].
    + apply (task_move_control _ n); [done|]. split; [done|]. eapply settled_mono; [by eapply prefix_insert|done].
    + split; [by eapply waitAll_move|]. by apply (waitAll_settled _ _ n).
    + split; [by apply (return_move n)|]. apply (return_settled _ n); [done..|]. eapply settled_mono; [by eapply prefix_insert|done].
  - rewrite list_lookup_insert_ne by done. intros Hj. destruct (C j m Hj) as [? Sm]. split; [done|].
    eapply settled_mono; [by eapply prefix_insert|done].
Qed.

Lemma run_ind (P : system -> Prop) es s s' : (forall e s s', e ∈ es -> step d e s = Some s' -> P s -> P s') ->
  run d es s = Some s' -> P s -> P s'.
Proof.
  revert s. induction es as [|e es IH]; intros s HP; cbn [run]; [by intros [= <-]|].
  destruct (step d e s) as [s1|] eqn:E; [|done]. intros R Ps. apply (IH s1); [|done|].
  - intros e' s2 s3 He. apply HP. by apply list_elem_of_further.
  - apply (HP e s); [apply list_elem_of_here|done..].
Qed.

Lemma run_then es es' s s1 s2 : run d es s = Some s1 -> run d es' s1 = Some s2 -> run d (es ++ es') s = Some s2.
Proof. revert s. induction es as [|e l IH]; intros s; cbn; [by intros [= ->]|]. destruct (step d e s); [apply IH|done]. Qed.

Lemma start_nodes n c m : m ∈ nodes (start n c) -> m = mkNode_ 0 0 (repeat O c) 0 InMain 0 0 0 [].
Proof. intros H%list_elem_of_In%repeat_spec. done. Qed.

Lemma start_control n c : control (start n c).
Proof.
  apply Forall_forall. intros m ->%start_nodes. split; [by exists O|]. split; [done|]. cbn. intros k Hk. lia.
Qed.

Lemma run_control es n c s : run d es (start n c) = Some s -> control s.
Proof. intros R. eapply run_ind; [|exact R|apply start_control]. intros e s1 s2 _. apply step_control. Qed.

Lemma run_length es s s' : run d es s = Some s' -> length (nodes s') = length (nodes s).
Proof.
  intros R. eapply (run_ind (fun x => length (nodes x) = length (nodes s))); [|exact R|done].
  intros e s1 s2 _ [->|(i & n & n' & _ & -> & _)]%step_cases; [done|]. by rewrite length_insert.
Qed.

Lemma step_balanced e s s' : step d e s = Some s' -> Forall balanced (nodes s) -> Forall balanced (nodes s').
Proof.
  intros [->|(i & n & n' & Hi & -> & M)]%step_cases B; [done|]. apply Forall_insert; [done|].
  pose proof (Forall_lookup_1 _ _ _ _ B Hi) as Bn. unfold balanced in *. destruct M as [M|[[_ M]|[_ M]]]; [destruct M; lia| |].
  2: { revert M. unfold return_. destruct (at_ n); try discriminate. intros [= <-]. exact Bn. }
  revert M. unfold waitAll. destruct (at_ n); try (destruct (current n _)); intros; simplify_eq; done.
Qed.

Lemma start_balanced n c : Forall balanced (nodes (start n c)).
Proof.
  apply Forall_forall. intros m ->%start_nodes. unfold balanced, pending. cbn.
  induction c as [|c IH]; [done|]. cbn. exact IH.
Qed.

Lemma run_balanced es n c s : run d es (start n c) = Some s -> Forall balanced (nodes s).
Proof.
  intros R. apply (run_ind (fun s => Forall balanced (nodes s)) es (start n c) s); [|done|apply start_balanced].
  intros e s1 s2 _. apply step_balanced.
Qed.

(** When somebody has left, both sums of its last round were zero. *)
Lemma left_sums s n : control s -> n ∈ nodes s -> at_ n = Left -> exists k, length (contributed n) = (2 * k + 2)%nat /\ final (nodes s) k.
Proof.
  intros C Hn A. unfold control in C. rewrite Forall_forall in C. destruct (C n Hn) as [Sh [_ S2]].
  unfold shape in Sh. rewrite A in Sh. destruct Sh as [k Hk]. exists k. split; [done|].
  assert (R : rank n = (6 * k + 7)%nat) by (unfold rank; rewrite A; lia).
  destruct (S2 k ltac:(lia)) as (g & p & G & Pp & B). specialize (B R). unfold is_left in B. rewrite A in B.
  symmetry in B. apply andb_true_iff in B as [->%Z.eqb_eq ->%Z.eqb_eq]. done.
Qed.
End Control.

(** ** What a zero contribution shows

    [Q i n] is a fact about node [i] that a zero count of pending tasks, sampled in round [K] or later, establishes and that lasts;
    [J] is an invariant of the run. *)

Section Samples.
Context (d : dims) (es : list event) (K : nat) (J : system -> Prop) (Q : nat -> Node -> Prop).
Hypothesis J_step : forall e s s', e ∈ es -> step d e s = Some s' -> J s -> J s'.
Hypothesis Q_step : forall e s s' i n n', e ∈ es -> step d e s = Some s' -> J s ->
  nodes s !! i = Some n -> nodes s' !! i = Some n' -> Q i n -> Q i n'.
Hypothesis Q_sample : forall s i n n', J s -> nodes s !! i = Some n -> balanced n -> waitAll n (nodes s) = Some n' ->
  (6 * K + 3 <= rank n')%nat -> at_ n' = PostNew ->
  (at_ n = InMain /\ created n = 0 \/ exists f, at_ n = LoadCreated f /\ f <= finished n /\ created n = f) -> Q i n'.

Definition sampled (i : nat) (n : Node) : Prop :=
  0 <= finished n /\
  (forall f, at_ n = LoadCreated f -> f <= finished n) /\
  ((6 * K + 3 <= rank n)%nat -> 0 <= partialPendingTasks n /\ (partialPendingTasks n = 0 -> Q i n)) /\
  (forall k v, (K <= k)%nat -> contributed n !! (2 * k + 1)%nat = Some v -> 0 <= v /\ (v = 0 -> Q i n)).

Lemma sampled_task i n n' : task_move n n' -> (Q i n -> Q i n') -> sampled i n -> sampled i n'.
Proof.
  intros M HQ (S0 & S1 & S2 & S3). destruct (task_move_rank n n' M) as [R _]. destruct M.
  unfold sampled. rewrite R, tm_at0, tm_partial0, tm_contributed0. split_and!; [lia| | |].
  - intros f Hf. specialize (S1 f Hf). lia.
  - intros H. destruct (S2 H). split; [done|auto].
  - intros k v Hk Hv. destruct (S3 k v Hk Hv). split; [done|auto].
Qed.

Lemma sampled_cp s i n n' : J s -> nodes s !! i = Some n -> balanced n -> shape n -> waitAll n (nodes s) = Some n' ->
  (Q i n -> Q i n') -> sampled i n -> sampled i n'.
Proof.
  intros Js Hi B Sh E HQ (S0 & S1 & S2 & S3). destruct (waitAll_move _ n n' E Sh) as (R & _ & _).
  pose proof (Q_sample s i n n' Js Hi B E) as QS. unfold sampled. rewrite R. unfold balanced in B.
  assert (Old : forall k v, (K <= k)%nat -> contributed n !! (2 * k + 1)%nat = Some v -> 0 <= v /\ (v = 0 -> Q i n')).
  { intros k v Hk Hv. destruct (S3 k v Hk Hv). split; [done|auto]. }
  revert E. unfold waitAll. unfold shape, rank in *. destruct (at_ n) as [| | |g|g| |f|] eqn:A;
    try (destruct (current n _) as [v|]); try discriminate; intros [= <-];
    unfold goto, contribute in *; cbn [with_cp finished at_ partialPendingTasks contributed created] in *.
  - split_and!; [done|done| |done]. intros Hr. split; [lia|]. intros Z0. apply QS; [lia|done|by left].
  - split_and!; [done|done| |].
    + intros H. destruct Sh as [j Sh]. destruct S2 as [S2 S2']; [lia|]. split; [done|auto].
    + intros k v Hk Hv. destruct Sh as [j Sh]. apply lookup_app_Some in Hv as [Hv|[? Hv]]; [by apply (Old k)|].
      apply list_lookup_singleton_Some in Hv as [? _]. lia.
  - split_and!; [done|done| |done]. intros H. destruct S2 as [S2 S2']; [lia|]. split; [done|auto].
  - split_and!; [done|done| |].
    + intros H. destruct Sh as [j Sh]. destruct S2 as [S2 S2']; [lia|]. split; [done|auto].
    + intros k v Hk Hv. destruct Sh as [j Sh]. apply lookup_app_Some in Hv as [Hv|[? Hv]]; [by apply (Old k)|].
      apply list_lookup_singleton_Some in Hv as [? <-]. destruct S2 as [S2 S2']; [lia|]. split; [done|auto].
  - split_and!; [done| | |done].
    + by destruct (andb _ _).
    + intros H. destruct Sh as [j Sh]. destruct S2 as [S2 S2']; [lia|]. split; [done|auto].
  - split_and!; [done| | |done].
    + intros f [= <-]. lia.
    + intros H. destruct Sh as [j Sh]. destruct S2 as [S2 S2']; [lia|]. split; [done|auto].
  - specialize (S1 f eq_refl). split_and!; [done|done| |done]. intros Hr. split; [lia|]. intros Z0. apply QS; [lia|done|]. right. exists f. split_and!; [done|done|lia].
Qed.

Lemma sampled_return i n n' : shape n -> return_ n = Some n' -> (Q i n -> Q i n') -> sampled i n -> sampled i n'.
Proof.
  intros Sh E HQ (S0 & S1 & S2 & S3). destruct (return_move n n' E Sh) as (R & _ & C & A & A' & _).
  assert (partialPendingTasks n' = partialPendingTasks n /\ finished n' = finished n) as [Ep Ef].
  { revert E. unfold return_. rewrite A. by intros [= <-]. }
  unfold shape in Sh. rewrite A in Sh. destruct Sh as [j Hj].
  unfold sampled. rewrite R, C, A', Ep, Ef. split_and!; [done|done| |].
  - intros H. destruct S2 as [S2 S2']; [unfold rank in *; rewrite A in *; lia|]. split; [done|auto].
  - intros k v Hk Hv. destruct (S3 k v Hk Hv). split; [done|auto].
Qed.

Lemma sampled_step e s s' : e ∈ es -> step d e s = Some s' -> J s -> control s -> Forall balanced (nodes s) ->
  (forall i n, nodes s !! i = Some n -> sampled i n) -> forall i n, nodes s' !! i = Some n -> sampled i n.
Proof.
  intros He E Js C B S. pose proof (Q_step e s s') as QS. destruct (step_cases d e s s' E) as [N|(i & n & n' & Hi & N & M)].
  { by rewrite N. }
  rewrite N in *. intros j m. destruct (decide (i = j)) as [<-|Ne].
  - pose proof (lookup_lt_Some _ _ _ Hi). rewrite list_lookup_insert_eq by done. intros [= <-].
    assert (HQ : Q i n -> Q i n'). { apply (QS i n n'); [done..|]. by apply list_lookup_insert_eq. }
    unfold control in C. rewrite Forall_lookup in B, C. destruct M as [M|[[-> M]|[-> M]]].
    + apply (sampled_task i n); auto.
    + exact (sampled_cp s i n n' Js Hi (B i n Hi) (proj1 (C i n Hi)) M HQ (S i n Hi)).
    + exact (sampled_return i n n' (proj1 (C i n Hi)) M HQ (S i n Hi)).
  - rewrite list_lookup_insert_ne by done. intros Hj. destruct (S j m Hj) as (S0 & S1 & S2 & S3).
    assert (HQ : Q j m -> Q j m). { done. }
    by split_and!.
Qed.

Lemma sampled_run s s' : run d es s = Some s' -> J s -> control s -> Forall balanced (nodes s) ->
  (forall i n, nodes s !! i = Some n -> sampled i n) ->
  J s' /\ control s' /\ forall i n, nodes s' !! i = Some n -> sampled i n.
Proof.
  intros R Js C B S. enough (J s' /\ control s' /\ Forall balanced (nodes s') /\ forall i n, nodes s' !! i = Some n -> sampled i n)
    as (? & ? & ? & ?) by done.
  apply (run_ind d (fun s => J s /\ control s /\ Forall balanced (nodes s) /\ forall i n, nodes s !! i = Some n -> sampled i n) es s s');
    [|done|done]. intros e s1 s2 He E (J1 & C1 & B1 & S1). split_and!.
  - by apply (J_step e s1).
  - by apply (step_control d e s1).
  - by apply (step_balanced d e s1).
  - by apply (sampled_step e s1).
Qed.

(** Whoever leaves in round [K] or later knows [Q] of every node. *)
Lemma left_sampled s n k : control s -> (forall i n, nodes s !! i = Some n -> sampled i n) ->
  n ∈ nodes s -> at_ n = Left -> length (contributed n) = (2 * k + 2)%nat -> (K <= k)%nat ->
  forall i m, nodes s !! i = Some m -> Q i m.
Proof.
  intros C S Hn A Len Hk i m Hi. destruct (left_sums s n C Hn A) as (k' & Len' & _ & Z1). assert (k' = k) as -> by lia.
  assert (Hm : m ∈ nodes s) by (by eapply list_elem_of_lookup_2).
  pose proof (allreduce_zero _ _ (fun x v Hx Hv => ltac:(
    apply list_elem_of_lookup_1 in Hx as [j Hj]; destruct (S j x Hj) as (_ & _ & _ & S3); by apply (S3 k v Hk Hv))) Z1 m Hm) as V.
  destruct (S i m Hi) as (_ & _ & _ & S3). by apply (S3 k 0 Hk V).
Qed.
End Samples.

(** ** Safety *)

Section Safety.
Context (d : dims).

Lemma waitAll_pending l n n' : waitAll n l = Some n' ->
  pending n' = pending n /\ created n' = created n /\ finished n' = finished n /\ at_ n' <> InMain.
Proof.
  unfold waitAll. destruct (at_ n) as [| | |g|g| |f|]; try (destruct (current n l) as [v|]); try discriminate; intros [= <-];
    unfold goto, contribute, pending; cbn; try (split_and!; done). destruct (andb _ _); by split_and!.
Qed.

(** Command processors change no counts. *)
Lemma cp_counts e i n n' l : e = Wait i /\ waitAll n l = Some n' \/ e = Return i /\ return_ n = Some n' ->
  pending n' = pending n /\ created n' = created n /\ finished n' = finished n.
Proof.
  intros [[_ M]|[_ M]]; [apply waitAll_pending in M; tauto|]. revert M. unfold return_, pending. destruct (at_ n); try discriminate. by intros [= <-].
Qed.

(** Facts of every reachable state. *)
Lemma reachable_sampled es n c s : run d es (start n c) = Some s ->
  forall i m, nodes s !! i = Some m -> 0 <= finished m /\ forall f, at_ m = LoadCreated f -> f <= finished m.
Proof.
  intros R. assert (S : True /\ control s /\ forall i m, nodes s !! i = Some m -> sampled 0 (fun _ _ => True) i m).
  { apply (sampled_run d es 0 (fun _ => True) (fun _ _ => True)) with (s := start n c);
      [done..|apply start_control|apply start_balanced|].
    intros i m Hi. apply list_elem_of_lookup_2, start_nodes in Hi as ->. by split_and!. }
  intros i m Hi. destruct S as (_ & _ & S). destruct (S i m Hi) as (? & ? & _). done.
Qed.

Lemma counted_finished es1 es2 n c s1 s x j y : run d es1 (start n c) = Some s1 -> run d es2 s1 = Some s ->
  x ∈ nodes s -> at_ x = Left -> nodes s1 !! j = Some y -> (length (contributed y) + 2 < length (contributed x))%nat ->
  forall i a a', nodes s1 !! i = Some a -> nodes s !! i = Some a' -> created a <= finished a'.
Proof.
  intros R1 R2 Hx Ax Hj Hlen. pose proof (run_control d _ _ _ _ R1) as C1. pose proof (run_balanced d _ _ _ _ R1) as B1.
  destruct (left_sums s x) as (k & Lk & _); [|done|done|].
  { apply (run_ind d control es2 s1 s); [|done|done]. intros e t t' _. apply step_control. }
  assert (Rk : forall i m, nodes s1 !! i = Some m -> (rank m <= 6 * k)%nat).
  { intros i m Hi. destruct (decide (rank m <= 6 * k)%nat); [done|exfalso]. unfold control in C1. rewrite Forall_lookup in C1.
    destruct (C1 i m Hi) as [_ [_ S2]]. destruct (S2 (k - 1)%nat ltac:(lia)) as (_ & p & _ & Sp & _).
    assert (X : exists v, allreduce (2 * (k - 1) + 1) (nodes s1) = Some v) by (by exists p).
    rewrite <- allreduce_Some in X. specialize (X y (list_elem_of_lookup_2 _ _ _ Hj)). lia. }
  pose (Q := fun i m => forall a, nodes s1 !! i = Some a -> created a <= finished m).
  pose (J := fun t => forall i a m, nodes s1 !! i = Some a -> nodes t !! i = Some m -> created a <= created m).
  assert (S : J s /\ control s /\ forall i m, nodes s !! i = Some m -> sampled k Q i m).
  { apply (sampled_run d es2 k J Q) with (s := s1); [| | |done| |done|done|].
    - intros e t t' _ [E|(i & m & m' & Hi & E & M)]%step_cases Jt; unfold J in *; rewrite E; [done|].
      intros i' a b Ha. destruct (decide (i = i')) as [<-|Ne].
      + rewrite list_lookup_insert_eq by (by eapply lookup_lt_Some). intros [= <-]. specialize (Jt i a m Ha Hi).
        destruct M as [M|M]; [destruct M; lia|]. apply cp_counts in M. lia.
      + rewrite list_lookup_insert_ne by done. by apply Jt.
    - intros e t t' i m m' _ [E|(i' & b & b' & Hi & E & M)]%step_cases Jt Hm Hm' HQ a Ha; rewrite E in Hm'; specialize (HQ a Ha).
      + congruence.
      + destruct (decide (i' = i)) as [->|Ne].
        * rewrite list_lookup_insert_eq in Hm' by (by eapply lookup_lt_Some). simplify_eq.
          destruct M as [M|M]; [destruct M; lia|]. apply cp_counts in M. lia.
        * rewrite list_lookup_insert_ne in Hm' by done. congruence.
    - intros t i m m' Jt Hm Bm E _ _ D a Ha. specialize (Jt i a m Ha Hm). apply waitAll_pending in E. unfold balanced in Bm.
      destruct D as [[_ D]|(f & _ & Hf & D)]; lia.
    - intros i a m Ha Hm. by simplify_eq.
    - intros i m Hi. destruct (reachable_sampled es1 n c s1 R1 i m Hi) as [F1 F2]. specialize (Rk i m Hi).
      split_and!; [done|done|lia|]. intros k' v Hk Hv. apply lookup_lt_Some in Hv. unfold rank in Rk. lia. }
  destruct S as (_ & C & S). intros i a a' Ha Ha'. exact (left_sampled k Q s x k C S Hx Ax Lk (Nat.le_refl k) i a' Ha' a Ha).
Qed.

(** What [waitAll] guarantees.  Take any run in which a command processor leaves [waitAll], and any earlier moment before
    the last round of sampling, when some node had yet to contribute to the round before.  Every task that was counted then, on whatever node, has finished. *)
Theorem waitAll_counted es1 es2 n c s1 s x j y : run d es1 (start n c) = Some s1 -> run d es2 s1 = Some s ->
  x ∈ nodes s -> at_ x = Left -> nodes s1 !! j = Some y -> (length (contributed y) + 2 < length (contributed x))%nat ->
  forall i a a', nodes s1 !! i = Some a -> nodes s !! i = Some a' -> created a <= finished a'.
Proof. apply counted_finished. Qed.

(** The events of programs that place tasks on the node they run on. *)
Definition stays_home (e : event) : bool :=
  match e with Place_ i pod_ _ place => node_eqb (node (resolve (Z.of_nat i) pod_ place)) (mkNode (Z.of_nat i)) | _ => true end.

Lemma home_flight e s s' : stays_home e = true -> step d e s = Some s' -> in_flight s = [] -> in_flight s' = [].
Proof.
  unfold stays_home. destruct e as [i pod_ rng place|k rng|i c|i|i|i]; cbn [step]; unfold update; intros H E F.
  - destruct (nodes s !! i) as [n|]; [|done]. destruct (can_place n); [|done]. unfold executeOn in E. rewrite H in E.
    destruct (nodes s !! i) as [m|]; [|done]. destruct (executeOnHere _ _ _ _); [|done]. by injection E as <-.
  - unfold handleRequest in E. by rewrite F in E.
  - destruct (nodes s !! i) as [n|]; [|done]. destruct (takeTask c n); [|done]. by injection E as <-.
  - destruct (nodes s !! i) as [n|]; [|done]. destruct (finishTask n); [|done]. by injection E as <-.
  - destruct (nodes s !! i) as [n|]; [|done]. destruct (waitAll n _); [|done]. by injection E as <-.
  - destruct (nodes s !! i) as [n|]; [|done]. destruct (return_ n); [|done]. by injection E as <-.
Qed.

(** An idle node gets no task from a step, and stays in its call of [waitAll] unless it returns. *)
Lemma home_idle e s s' i n n' : stays_home e = true -> step d e s = Some s' -> in_flight s = [] ->
  nodes s !! i = Some n -> nodes s' !! i = Some n' -> idle n -> idle n' \/ return_ n = Some n'.
Proof.
  unfold stays_home. destruct e as [i' pod_ rng place|k rng|i' c|i'|i'|i']; cbn [step]; unfold update; intros H E F Hn Hn' I.
  all: try (destruct (decide (i' = i)) as [->|Ne]).
  - rewrite Hn, (idle_cannot_place n I) in E. done.
  - destruct (nodes s !! i') as [m|] eqn:Hm; [|done]. destruct (can_place m); [|done]. unfold executeOn in E. rewrite H, Hm in E.
    destruct (executeOnHere _ _ _ _); [|done]. injection E as <-. cbn in Hn'. rewrite list_lookup_insert_ne in Hn' by done. left. congruence.
  - unfold handleRequest in E. by rewrite F in E.
  - rewrite Hn, takeTask_idle in E by apply I. done.
  - destruct (nodes s !! i') as [m|]; [|done]. destruct (takeTask c m); [|done]. injection E as <-. cbn in Hn'.
    rewrite list_lookup_insert_ne in Hn' by done. left. congruence.
  - rewrite Hn, finishTask_idle in E by apply I. done.
  - destruct (nodes s !! i') as [m|]; [|done]. destruct (finishTask m); [|done]. injection E as <-. cbn in Hn'.
    rewrite list_lookup_insert_ne in Hn' by done. left. congruence.
  - rewrite Hn in E. destruct (waitAll n (nodes s)) as [m|] eqn:W; [|done]. injection E as <-. cbn in Hn'.
    rewrite list_lookup_insert_eq in Hn' by (by eapply lookup_lt_Some). injection Hn' as <-.
    apply waitAll_pending in W as (W & _ & _ & A). left. split; [|done]. rewrite W. apply I.
  - destruct (nodes s !! i') as [m|]; [|done]. destruct (waitAll m _); [|done]. injection E as <-. cbn in Hn'.
    rewrite list_lookup_insert_ne in Hn' by done. left. congruence.
  - rewrite Hn in E. destruct (return_ n) as [m|] eqn:W; [|done]. injection E as <-. cbn in Hn'.
    rewrite list_lookup_insert_eq in Hn' by (by eapply lookup_lt_Some). right. congruence.
  - destruct (nodes s !! i') as [m|]; [|done]. destruct (return_ m); [|done]. injection E as <-. cbn in Hn'.
    rewrite list_lookup_insert_ne in Hn' by done. left. congruence.
Qed.

Lemma step_rank e s s' i n n' : step d e s = Some s' -> control s -> nodes s !! i = Some n -> nodes s' !! i = Some n' -> (rank n <= rank n')%nat.
Proof.
  intros [N|(j & m & m' & Hj & N & M)]%step_cases C Hn Hn'; rewrite N in Hn'; [replace n' with n by congruence; lia|].
  destruct (decide (j = i)) as [->|Ne]; [|rewrite list_lookup_insert_ne in Hn' by done; replace n' with n by congruence; lia].
  rewrite list_lookup_insert_eq in Hn' by (by eapply lookup_lt_Some). injection Hn' as <-. replace m with n in * by congruence.
  unfold control in C. rewrite Forall_lookup in C. destruct (C i n Hn) as [Sh _]. destruct M as [M|[[_ M]|[_ M]]].
  - destruct (task_move_rank n m' M). lia.
  - destruct (waitAll_move _ n m' M Sh). lia.
  - destruct (return_move n m' M Sh). lia.
Qed.

Lemma step_counts e s s' i n n' : step d e s = Some s' -> nodes s !! i = Some n -> nodes s' !! i = Some n' ->
  created n <= created n' /\ finished n <= finished n'.
Proof.
  intros [N|(j & m & m' & Hj & N & M)]%step_cases Hn Hn'; rewrite N in Hn'; [replace n' with n by congruence; lia|].
  destruct (decide (j = i)) as [->|Ne]; [|rewrite list_lookup_insert_ne in Hn' by done; replace n' with n by congruence; lia].
  rewrite list_lookup_insert_eq in Hn' by (by eapply lookup_lt_Some). injection Hn' as <-. replace m with n in * by congruence.
  destruct M as [M|M]; [destruct M; lia|]. apply cp_counts in M. lia.
Qed.

(** What holds of node [i] from its sample of round [K] on: until it returns it is idle, and afterwards whatever [before] says it had counted has
    finished. *)
Definition resting (K : nat) (before : nat -> Z -> Prop) (i : nat) (m : Node) : Prop :=
  (6 * K + 3 <= rank m)%nat /\ ((rank m <= 6 * K + 7)%nat -> idle m) /\ ((6 * K + 7 < rank m)%nat -> forall c, before i c -> c <= finished m).

Lemma resting_step K (before : nat -> Z -> Prop) e s s' i m m' : stays_home e = true -> step d e s = Some s' -> in_flight s = [] -> control s ->
  Forall balanced (nodes s) -> (forall c, before i c -> c <= created m) ->
  nodes s !! i = Some m -> nodes s' !! i = Some m' -> resting K before i m -> resting K before i m'.
Proof.
  intros He E F C B Jm Hm Hm' (Q1 & Q2 & Q3). pose proof (step_rank e s s' i m m' E C Hm Hm') as Rk.
  destruct (step_counts e s s' i m m' E Hm Hm') as [_ Fin]. split; [lia|]. rewrite Forall_lookup in B. pose proof (B i m Hm) as [_ Bm].
  destruct (decide (rank m <= 6 * K + 7)%nat) as [L|L].
  - pose proof (Q2 L) as I. destruct I as [P A]. destruct (home_idle e s s' i m m' He E F Hm Hm' (Q2 L)) as [I'|Ret].
    + split; [by intros _|]. intros _ c Hc. specialize (Jm c Hc). lia.
    + unfold control in C. rewrite Forall_lookup in C. destruct (C i m Hm) as [Sh _].
      destruct (return_move m m' Ret Sh) as (R' & _ & _ & Al & _). unfold shape in Sh. rewrite Al in Sh. destruct Sh as [k Hk].
      assert (rank m = 6 * k + 7)%nat by (unfold rank; rewrite Al; lia). split; [lia|]. intros _ c Hc. specialize (Jm c Hc). lia.
  - split; [lia|]. intros _ c Hc. specialize (Q3 ltac:(lia) c Hc). lia.
Qed.

(** A run keeps what its samples have shown. *)
Lemma resting_run K (before : nat -> Z -> Prop) es s s' : Forall (fun e => stays_home e = true) es -> run d es s = Some s' ->
  in_flight s = [] -> control s -> Forall balanced (nodes s) -> (forall i c m, before i c -> nodes s !! i = Some m -> c <= created m) ->
  (forall i m, nodes s !! i = Some m -> sampled K (resting K before) i m) ->
  in_flight s' = [] /\ control s' /\ (forall i c m, before i c -> nodes s' !! i = Some m -> c <= created m) /\
    forall i m, nodes s' !! i = Some m -> sampled K (resting K before) i m.
Proof.
  intros H R F C B Jb S. rewrite Forall_forall in H.
  pose (J := fun s => in_flight s = [] /\ control s /\ Forall balanced (nodes s) /\
    forall i c m, before i c -> nodes s !! i = Some m -> c <= created m).
  destruct (sampled_run d es K J (resting K before)) with (s := s) (s' := s') as ((? & _ & _ & ?) & ? & ?); try done.
  - intros e t t' He E (F' & C' & B' & Jb'). split_and!.
    + by apply (home_flight e t t'); [apply H|..].
    + by eapply step_control.
    + by eapply step_balanced.
    + intros i c m' Hb Hm'. destruct (nodes t !! i) as [m|] eqn:Hm.
      * specialize (Jb' i c m Hb Hm). pose proof (step_counts e t t' i m m' E Hm Hm'). lia.
      * apply lookup_lt_Some in Hm'. apply lookup_ge_None in Hm.
        assert (length (nodes t') = length (nodes t)) by (apply (run_length d [e]); cbn; by rewrite E). lia.
  - intros e t t' i m m' He E (F' & C' & B' & Jb') Hm Hm'. apply (resting_step K before e t t'); try done; [by apply H|]. intros c Hb. by apply (Jb' i c m).
  - intros t i m m' (_ & C' & _ & Jb') Hm Bm W Hr A D. split; [done|]. apply waitAll_pending in W as (W & Wc & Wf & A').
    unfold balanced in Bm. assert (pending m = O /\ created m = finished m) as [P CF] by (destruct D as [[_ D]|(f & _ & Hf & D)]; lia).
    split; [intros _; split; [by rewrite W|done]|]. intros _ c Hb. specialize (Jb' i c m Hb Hm). lia.
Qed.

(** C2: [waitAll] is exact when tasks stay at home.  The main functions may call it again and again, and place tasks between the calls, but every task
    is placed on the node it is placed from.  When a command processor is about to return from a call, then every node that has not yet returned from
    that call has no task queued or running, has finished every task it has counted, and is in [waitAll]; and of every node, also of one that has
    returned and placed tasks since, the tasks it had counted at any earlier moment before its own return have finished. *)
Theorem waitAll_safe es1 es2 n c s1 s x : Forall (fun e => stays_home e = true) (es1 ++ es2) ->
  run d es1 (start n c) = Some s1 -> run d es2 s1 = Some s -> x ∈ nodes s -> at_ x = Left ->
  in_flight s = [] /\
  forall i a m, nodes s1 !! i = Some a -> nodes s !! i = Some m ->
    ((rank m <= rank x)%nat -> pending m = O /\ created m = finished m /\ at_ m <> InMain) /\
    ((rank a <= rank x)%nat -> created a <= finished m).
Proof.
  intros [H1 H2]%Forall_app R1 R2 Hx Ax. pose proof (run_control d _ _ _ _ R1) as C1. pose proof (run_balanced d _ _ _ _ R1) as B1.
  pose proof (run_then d _ _ _ _ _ R1 R2) as R.
  pose proof (run_control d _ _ _ _ R) as C. pose proof (run_balanced d _ _ _ _ R) as B. rewrite Forall_lookup in B.
  destruct (left_sums s x C Hx Ax) as (K & Lk & _). assert (Rx : rank x = (6 * K + 7)%nat) by (unfold rank; rewrite Ax; lia).
  destruct (resting_run K (fun _ _ => False) es1 (start n c) s1) as (F1 & _ & _ & S1); [done|done|done|apply start_control|apply start_balanced|done| |].
  { intros i m Hi. apply list_elem_of_lookup_2, start_nodes in Hi as ->. split_and!; [done|done|cbn; lia|done]. }
  pose (before := fun i c => exists a, nodes s1 !! i = Some a /\ (rank a <= 6 * K + 7)%nat /\ c = created a).
  assert (Im : forall i a, nodes s1 !! i = Some a -> resting K (fun _ _ => False) i a -> resting K before i a).
  { intros i a Ha (Q1 & Q2 & Q3). split_and!; [done|done|]. intros L c' (a' & Ha' & La & ->). replace a' with a in * by congruence. lia. }
  destruct (resting_run K before es2 s1 s) as (F & _ & Jb & S); try done.
  { intros i c' m (a & Ha & _ & ->) Hm. by replace m with a by congruence. }
  { intros i m Hm. destruct (S1 i m Hm) as (T0 & T1 & T2 & T3). split_and!; [done|done| |].
    - intros L. destruct (T2 L). split; [done|]. intros Z0. apply Im; auto.
    - intros k v Hk Hv. destruct (T3 k v Hk Hv). split; [done|]. intros Z0. apply Im; auto. }
  split; [done|]. intros i a m Ha Hm. destruct (left_sampled K (resting K before) s x K C S Hx Ax Lk ltac:(lia) i m Hm) as (Q1 & Q2 & Q3).
  specialize (B i m Hm). unfold balanced in B. rewrite Rx. split.
  - intros L. destruct (Q2 L) as [P A]. split_and!; [done|lia|done].
  - intros L. assert (Hb : before i (created a)) by (by exists a). destruct (decide (rank m <= 6 * K + 7)%nat) as [Lm|Lm].
    + destruct (Q2 Lm) as [P A]. specialize (Jb i _ m Hb Hm). lia.
    + apply Q3; [lia|done].
Qed.
End Safety.

(** ** Liveness *)

Lemma exists_least {A} (f : A -> nat) l : l <> [] -> exists x, x ∈ l /\ forall y, y ∈ l -> (f x <= f y)%nat.
Proof.
  induction l as [|a l IH]; [done|]. intros _. destruct l as [|b l].
  - exists a. split; [apply list_elem_of_here|]. by intros y ->%list_elem_of_singleton.
  - destruct IH as (x & Hx & Lx); [done|]. destruct (decide (f a <= f x)%nat) as [L|L].
    + exists a. split; [apply list_elem_of_here|]. intros y [->|Hy]%elem_of_cons; [done|]. specialize (Lx y Hy). lia.
    + exists x. split; [by apply list_elem_of_further|]. intros y [->|Hy]%elem_of_cons; [lia|auto].
Qed.

Lemma is_left_true n : is_left n = true <-> at_ n = Left.
Proof. unfold is_left. by destruct (at_ n). Qed.

(** A command processor is about to return from a call that another one has returned from already. *)
Definition behind (s : system) : Prop := exists m n, m ∈ nodes s /\ n ∈ nodes s /\ at_ m = Left /\ (rank m < rank n)%nat.

(** The command processors never block each other for good: who is in a call waits for others that can move, or that are behind. *)
Lemma someone_moves s : control s -> Forall (fun n => at_ n = Left) (nodes s) \/
  (exists i n n', nodes s !! i = Some n /\ waitAll n (nodes s) = Some n') \/ behind s.
Proof.
  intros C. pose proof C as C'. unfold control in C'. rewrite Forall_forall in C'.
  destruct (List.filter (fun n => negb (is_left n)) (nodes s)) as [|n0 l0] eqn:E.
  { left. apply Forall_forall. intros n Hn. apply is_left_true. destruct (is_left n) eqn:L; [done|]. exfalso.
    apply (in_nil (a := n)). rewrite <- E. apply filter_In. rewrite L. split; [by apply list_elem_of_In|done]. }
  right. destruct (exists_least (fun n => length (contributed n)) (n0 :: l0)) as (n & Hn & Least); [done|].
  rewrite <- E in Hn, Least. apply list_elem_of_In, filter_In in Hn as [Hn%list_elem_of_In NL].
  apply negb_true_iff in NL. pose proof Hn as [i Hi]%list_elem_of_lookup_1.
  destruct (List.filter (fun m => is_left m && (rank m <? rank n)%nat) (nodes s)) as [|m0 l1] eqn:E1.
  2: { right. assert (Hm : m0 ∈ m0 :: l1) by apply list_elem_of_here. rewrite <- E1 in Hm. apply list_elem_of_In, filter_In in Hm as [Hm%list_elem_of_In Hb].
       apply andb_true_iff in Hb as [Hl%is_left_true Hr%Nat.ltb_lt]. by exists m0, n. }
  assert (Before : forall m, m ∈ nodes s -> at_ m = Left -> (rank n <= rank m)%nat).
  { intros m Hm L. destruct (decide (rank n <= rank m)%nat); [done|exfalso]. apply (in_nil (a := m)). rewrite <- E1. apply filter_In.
    split; [by apply list_elem_of_In|]. apply andb_true_iff. split; [by apply is_left_true|apply Nat.ltb_lt; lia]. }
  left. exists i, n.
  destruct (C' n Hn) as [Sh [_ S2]]. assert (Len : at_ n = InNew \/ (exists g, at_ n = InPending g) ->
      exists v, current n (nodes s) = Some v).
  { intros Pt. apply allreduce_Some. intros m Hm. assert (L1 : (1 <= length (contributed n))%nat).
    { unfold shape in Sh. destruct Pt as [A|[g A]]; rewrite A in Sh; destruct Sh as [k ?]; lia. }
    destruct (is_left m) eqn:ML.
    - apply is_left_true in ML. specialize (Before m Hm ML). destruct (C' m Hm) as [Shm _]. unfold shape, rank in *. rewrite ML in *.
      destruct Pt as [A|[g A]]; rewrite A in *; destruct Sh as [k Sh], Shm as [j Shm]; lia.
    - assert (Hm' : m ∈ List.filter (fun n => negb (is_left n)) (nodes s)).
      { apply list_elem_of_In, filter_In. rewrite ML. split; [by apply list_elem_of_In|done]. }
      specialize (Least m Hm'). cbn in Least. lia. }
  unfold waitAll. destruct (at_ n) as [| | |g|g| |f|] eqn:A; try (by eexists).
  - destruct Len as [v ->]; [by left|]. by eexists.
  - destruct Len as [v ->]; [right; by exists g|]. by eexists.
  - apply is_left_true in A. congruence.
Qed.

Section Liveness.
Context (d : dims) (R : nat).

(** A node with nothing to do, of which nobody had passed round [R] when it became idle. *)
Definition settling (n : Node) : Prop :=
  pending n = O /\ created n = finished n /\
  (forall f, at_ n = LoadCreated f -> (6 * R + 8 <= rank n)%nat -> f = finished n) /\
  ((6 * (R + 1) + 3 <= rank n)%nat -> prevCreatedTasks n = created n /\ partialPendingTasks n = 0) /\
  ((6 * (R + 2) + 3 <= rank n)%nat -> newTasksCreated n = 0) /\
  (forall v, contributed n !! (2 * (R + 2))%nat = Some v -> v = 0) /\
  (forall v, contributed n !! (2 * (R + 2) + 1)%nat = Some v -> v = 0) /\
  (rank n <= 6 * (R + 2) + 7)%nat /\ (at_ n = InMain -> (rank n <= 6 * R + 2)%nat).

(** Nobody goes beyond round [R + 2]. *)
Lemma settling_bound s n n' : control s -> Forall settling (nodes s) -> n ∈ nodes s -> waitAll n (nodes s) = Some n' ->
  (rank n <= 6 * (R + 2) + 6)%nat.
Proof.
  intros C S Hn E. rewrite Forall_forall in S. destruct (S n Hn) as (_ & _ & _ & _ & _ & _ & _ & B & _).
  destruct (decide (rank n = 6 * (R + 2) + 7)%nat) as [Rk|]; [exfalso|lia].
  unfold control in C. rewrite Forall_forall in C. destruct (C n Hn) as [_ [_ S2]].
  destruct (S2 (R + 2)%nat ltac:(lia)) as (g & p & G & P & D).
  apply allreduce_zeros in G; [|intros m x Hm; by apply (S m Hm)].
  apply allreduce_zeros in P; [|intros m x Hm; by apply (S m Hm)]. subst g p. specialize (D Rk). apply is_left_true in D as L. unfold waitAll in E. by rewrite L in E.
Qed.

Lemma settling_wait s n n' : control s -> Forall settling (nodes s) -> n ∈ nodes s -> waitAll n (nodes s) = Some n' ->
  settling n'.
Proof.
  intros C S Hn E. pose proof (settling_bound s n n' C S Hn E) as Bd. unfold control in C. rewrite Forall_forall in S, C.
  destruct (S n Hn) as (P & CF & S3 & S4 & S5 & S6 & S7 & _ & S9). destruct (C n Hn) as [Sh _].
  destruct (waitAll_move _ n n' E Sh) as (Rk & _ & _). destruct (waitAll_pending _ n n' E) as (P' & C' & F' & Am).
  unfold settling. rewrite P', C', F', Rk. split; [done|]. split; [done|]. clear P' C' F' Rk.
  match goal with |- ?G1 /\ ?G2 /\ ?G3 /\ ?G4 /\ ?G5 /\ ?G6 /\ (_ -> _) => enough (G1 /\ G2 /\ G3 /\ G4 /\ G5 /\ G6) as (? & ? & ? & ? & ? & ?) by (split_and!; done) end.
  assert (App : forall x, (forall v, (contributed n ++ [x]) !! (2 * (R + 2))%nat = Some v -> length (contributed n) <> (2 * (R + 2))%nat \/ x = 0 -> v = 0) /\
    (forall v, (contributed n ++ [x]) !! (2 * (R + 2) + 1)%nat = Some v -> length (contributed n) <> (2 * (R + 2) + 1)%nat \/ x = 0 -> v = 0)).
  { intros x. split; intros v [Hv|[? Hv]]%lookup_app_Some D; [by apply S6| |by apply S7|];
      apply list_lookup_singleton_Some in Hv as [? <-]; destruct D; [lia|done|lia|done]. }
  revert E. unfold waitAll. unfold shape, rank in *. destruct (at_ n) as [| | |g|g| |f|] eqn:A;
    try (destruct (current n _) as [v|]); try discriminate; intros [= <-];
    unfold goto, contribute in *; cbn [with_cp finished at_ partialPendingTasks contributed created prevCreatedTasks newTasksCreated] in *;
    try (match type of Sh with ex _ => destruct Sh as [j Sh] end).
  - specialize (S9 eq_refl). split_and!; try done; lia.
  - destruct (App (newTasksCreated n)) as [A1 A2]. split_and!; [done|intros; apply S4; lia|intros; apply S5; lia| |intros v Hv; apply (A2 v Hv); left; lia|lia].
    intros v Hv. apply (A1 v Hv). destruct (decide (length (contributed n) = 2 * (R + 2))%nat); [right; apply S5; lia|by left].
  - split_and!; try done; try lia; intros; (apply S4 || apply S5); lia.
  - destruct (App (partialPendingTasks n)) as [A1 A2]. split_and!; [done|intros; apply S4; lia|intros; apply S5; lia|intros v Hv; apply (A1 v Hv); left; lia| |lia].
    intros v Hv. apply (A2 v Hv). destruct (decide (length (contributed n) = 2 * (R + 2) + 1)%nat); [right; apply S4; lia|by left].
  - split_and!; try done; try lia; [by destruct (andb _ _)|..]; intros; (apply S4 || apply S5); lia.
  - split_and!; try done; try lia; [congruence|..]; intros; (apply S4 || apply S5); lia.
  - split_and!; try done; try lia.
    intros H. rewrite (S3 f eq_refl) by lia. lia.
Qed.

(** The system has nothing to do but to find that out. *)
Definition quiet (s : system) : Prop := in_flight s = [] /\ Forall (fun n => pending n = O) (nodes s).

Definition is_wait (e : event) : bool := match e with Wait _ => true | _ => false end.

Lemma settling_start es n c s : run d es (start n c) = Some s -> quiet s ->
  Forall (fun m => (length (contributed m) <= 2 * R + 1)%nat) (nodes s) -> Forall settling (nodes s).
Proof.
  intros Rn [_ Q] L. pose proof (run_control d _ _ _ _ Rn) as C. pose proof (run_balanced d _ _ _ _ Rn) as B.
  unfold control in C. rewrite Forall_forall in *. intros m Hm. specialize (Q m Hm). specialize (L m Hm).
  destruct (B m Hm) as [_ Bm]. destruct (C m Hm) as [Sh _]. assert (Rk : (rank m <= 6 * R + 6)%nat).
  { unfold shape, rank in *. destruct (at_ m); try match type of Sh with ex _ => destruct Sh as [j Sh] end; lia. }
  unfold settling. split_and!; [done|lia|lia|lia|lia| | |lia|].
  - intros v Hv%lookup_lt_Some; lia.
  - intros v Hv%lookup_lt_Some; lia.
  - intros A. unfold shape, rank in *. rewrite A in *. destruct Sh as [j Sh]. lia.
Qed.

(** How far the command processors are, together. *)
Definition progress (s : system) : nat := sum_list (map rank (nodes s)).

Lemma settling_step i s s' : control s -> Forall settling (nodes s) -> step d (Wait i) s = Some s' ->
  Forall settling (nodes s') /\ progress s' = S (progress s).
Proof.
  intros C St E. cbn [step] in E. unfold update in E. destruct (nodes s !! i) as [n|] eqn:Hi; [|done].
  destruct (waitAll n (nodes s)) as [n'|] eqn:W; [|done]. injection E as <-. cbn [nodes].
  pose proof (list_elem_of_lookup_2 _ _ _ Hi) as Hn. split.
  - apply Forall_insert; [done|]. by apply (settling_wait s n).
  - unfold progress. cbn [nodes]. change (map rank (<[i := n']> (nodes s))) with (rank <$> <[i := n']> (nodes s)).
    rewrite list_fmap_insert.
    pose proof (sum_list_insert (rank <$> nodes s) i (rank n) (rank n')) as I. rewrite list_lookup_fmap, Hi in I. specialize (I eq_refl).
    unfold control in C. rewrite Forall_forall in C. destruct (C n Hn) as [Sh _].
    destruct (waitAll_move _ n n' W Sh) as (Rk & _ & _). change (map rank (nodes s)) with (rank <$> nodes s). lia.
Qed.

Lemma settling_progress s : Forall settling (nodes s) -> (progress s <= length (nodes s) * (6 * R + 19))%nat.
Proof.
  unfold progress. intros F. induction F as [|n l H F IH]; [done|]. cbn [map length Nat.mul].
  change (sum_list (rank n :: map rank l)) with (rank n + sum_list (map rank l))%nat.
  destruct H as (_ & _ & _ & _ & _ & _ & _ & H & _). lia.
Qed.

Lemma settling_run es s s' : Forall (fun e => is_wait e = true) es -> run d es s = Some s' -> control s ->
  Forall settling (nodes s) -> control s' /\ Forall settling (nodes s') /\ progress s' = (length es + progress s)%nat.
Proof.
  intros W. revert s. induction W as [|e es He W IH]; intros s E C F; cbn [run] in E; [by injection E as <-|].
  destruct (step d e s) as [s1|] eqn:E1; [|done]. destruct e as [| | | |i|]; try discriminate He.
  destruct (settling_step i s s1 C F E1) as [F1 P1]. destruct (IH s1 E (step_control d _ _ _ E1 C) F1) as (C' & F' & P').
  split_and!; [done..|]. cbn [length]. lia.
Qed.
End Liveness.

(** *** Nobody is behind before the first return *)

Definition is_return (e : event) : bool := match e with Return _ => true | _ => false end.

(** A node that is past a round has not left in it. *)
Definition first_call (s : system) : Prop := forall n k, n ∈ nodes s -> (6 * k + 7 < rank n)%nat -> ~ final (nodes s) k.

Lemma first_call_step d e s s' : is_return e = false -> step d e s = Some s' -> control s -> first_call s -> first_call s'.
Proof.
  intros He E C Fc n' k Hn' Hr Fin. destruct (step_cases d e s s' E) as [N|(i & n & m & Hi & N & M)].
  { rewrite N in *. by apply (Fc n' k). }
  pose proof C as C'. unfold control in C'. rewrite Forall_lookup in C'. destruct (C' i n Hi) as [Sh [_ S2]].
  assert (Px : contributed n `prefix_of` contributed m).
  { destruct M as [M|[[_ M]|[-> _]]]; [by rewrite (tm_contributed _ _ M)|by eapply waitAll_move|done]. }
  pose proof (prefix_insert (nodes s) i n m Hi Px) as Mono. rewrite N in *.
  assert (Down : forall q, q ∈ nodes s -> (6 * k + 7 <= rank q)%nat -> final (nodes s) k).
  { intros q Hq Lq. unfold control in C. rewrite Forall_forall in C. destruct (C q Hq) as [_ [_ Sq]]. destruct (Sq k Lq) as (g & p & G & P & _).
    destruct Fin as [Z0 Z1]. rewrite (allreduce_mono _ _ _ _ Mono G) in Z0. rewrite (allreduce_mono _ _ _ _ Mono P) in Z1.
    split; congruence. }
  apply list_elem_of_lookup in Hn' as [j Hj]. destruct (decide (i = j)) as [<-|Ne].
  - rewrite list_lookup_insert_eq in Hj by (by eapply lookup_lt_Some). injection Hj as <-. pose proof (list_elem_of_lookup_2 _ _ _ Hi) as Hn.
    destruct M as [M|[[_ M]|[-> _]]]; [|destruct (waitAll_move _ n m M Sh) as (R & _)|done].
    + destruct (task_move_rank n m M) as [R _]. apply (Fc n k Hn); [lia|]. apply (Down n Hn). lia.
    + destruct (decide (rank n = 6 * k + 7)%nat) as [Eq|Nq]; [|apply (Fc n k Hn); [lia|apply (Down n Hn); lia]].
      destruct (S2 k ltac:(lia)) as (g & p & G & P & B). destruct (Down n Hn ltac:(lia)) as [Z0 Z1]. rewrite Z0 in G. rewrite Z1 in P.
      injection G as <-. injection P as <-. specialize (B Eq). apply is_left_true in B. unfold waitAll in M. by rewrite B in M.
  - rewrite list_lookup_insert_ne in Hj by done. apply list_elem_of_lookup_2 in Hj. apply (Fc n' k Hj Hr), (Down n' Hj). lia.
Qed.

Lemma first_call_behind d es n c s : Forall (fun e => is_return e = false) es -> run d es (start n c) = Some s -> ~ behind s.
Proof.
  intros H R (m & x & Hm & Hx & A & L). rewrite Forall_forall in H. pose proof (run_control d _ _ _ _ R) as C.
  assert (Fc : control s /\ first_call s).
  { apply (run_ind d (fun s => control s /\ first_call s) es (start n c) s); [|done|].
    - intros e t t' He E [Ct Ft]. split; [by eapply step_control|]. by apply (first_call_step d e t); [apply H|..].
    - split; [apply start_control|]. intros y k Hy. apply start_nodes in Hy as ->. cbn. lia. }
  destruct (left_sums s m C Hm A) as (k & Lk & Fin). apply (proj2 Fc x k Hx); [|done]. unfold rank in L at 1. rewrite A in L. lia.
Qed.

(** C36: [waitAll] ends.  Once no task is queued, running or in flight, the command processors need at most a bounded
    number of steps more, three rounds beyond the current one, however they are interleaved; and wherever they are, either all have
    left their call, or one of them can take a step, or one is about to return from a call that another has returned from already, which is not so
    before the first return. *)
Theorem waitAll_terminates d es0 n c s R : run d es0 (start n c) = Some s -> quiet s ->
  Forall (fun m => (length (contributed m) <= 2 * R + 1)%nat) (nodes s) ->
  forall es s', Forall (fun e => is_wait e = true) es -> run d es s = Some s' ->
    (length es <= n * (6 * R + 19))%nat /\
    (Forall (fun m => at_ m = Left) (nodes s') \/ (exists i s'', step d (Wait i) s' = Some s'') \/
     (exists i, Return i ∈ es0) /\ exists i s'', step d (Return i) s' = Some s'').
Proof.
  intros R0 Q L es s' W E. pose proof (run_control d _ _ _ _ R0) as C. pose proof (settling_start d R _ _ _ _ R0 Q L) as F.
  destruct (settling_run d R es s s' W E C F) as (C' & F' & P). split.
  - pose proof (settling_progress R s' F') as B. pose proof (run_length d _ _ _ R0) as L0. pose proof (run_length d _ _ _ E) as L1.
    rewrite L1, L0 in B. unfold start in B. cbn [nodes] in B. rewrite repeat_length in B. lia.
  - destruct (someone_moves s' C') as [A|[(i & m & m' & Hi & W')|Bh]]; [by left| |].
    + right; left. exists i. cbn [step]. unfold update. rewrite Hi, W'. by eexists.
    + right; right. split.
      * destruct (existsb is_return es0) eqn:X.
        -- apply existsb_exists in X as (e & He & Re). destruct e as [| | | | |i]; try discriminate Re. exists i. by apply list_elem_of_In.
        -- exfalso. apply (first_call_behind d (es0 ++ es) n c s'); [|by apply (run_then d es0 es _ s)|done].
           apply Forall_app. split; [|eapply Forall_impl; [exact W|]; by intros []].
           apply Forall_forall. intros e He. destruct (is_return e) eqn:Re; [|done]. rewrite <- X. symmetry. apply existsb_exists.
           exists e. split; [by apply list_elem_of_In|done].
      * destruct Bh as (m & _ & [i Hi]%list_elem_of_lookup_1 & _ & A & _). exists i. cbn [step]. unfold update, return_. rewrite Hi, A. by eexists.
Qed.

(** ** Where it goes wrong *)

(** Two nodes of one core. *)
Definition two : dims := mkDims (mkNode 2) (mkPod 1 1) (mkCore 1 1).
Definition onNode (j : Z) : Place := mkPlace (mkNode j) anyPod anyCore.
Definition both (k : nat) : list event := concat (repeat [Wait 0; Wait 1] k).

(** The main function of node 0 places a task on node 1; then both nodes call [waitAll]. *)
Definition lost_in_flight : list event := Place_ 0 (mkPod 0 0) 0 (onNode 1) :: both 5.
(** A task of node 1 runs while both nodes go through two rounds.  In the third, node 0 looks first; then the task places a task on node 0, which
    takes it in at once, and finishes; then node 1 looks. *)
Definition placed_behind : list event :=
  [Place_ 1 (mkPod 0 0) 0 (onNode 1); Take 1 0] ++ both 5 ++ both 6 ++
  [Wait 0; Wait 0; Place_ 1 (mkPod 0 0) 0 (onNode 0); Handle 0 0; Finish 1; Wait 1; Wait 1] ++ both 4.

(** C37: [waitAll] can end too early.  A request in flight is counted nowhere, so that all command processors can leave while it
    still is; and even if every request is handled as soon as it is sent, they can leave with a task
    queued, because a node may have contributed before the task came and the placing node after the task that placed it had finished. *)
Theorem waitAll_premature :
  (exists s, run two lost_in_flight (start 2 1) = Some s /\ Forall (fun n => at_ n = Left) (nodes s) /\
     in_flight s = [mkPlace (mkNode 1) (mkPod 0 0) anyCore]) /\
  (exists s, run two placed_behind (start 2 1) = Some s /\ Forall (fun n => at_ n = Left) (nodes s) /\
     in_flight s = [] /\ map pending (nodes s) = [1%nat; 0%nat]).
Proof.
  split; (eexists; split; [vm_compute; reflexivity|]); split; [repeat constructor|done|repeat constructor|done].
Qed.

(** ** Instances *)

(** A task of node 1, placed, taken and finished. *)
Definition one_task : list event := [Place_ 1 (mkPod 0 0) 0 (onNode 1); Take 1 0; Finish 1].

(** Both nodes go through a call; node 0 returns from it and places a task for its next one, while node 1 is about to return. *)
Definition called_again : list event := both 5 ++ both 6 ++ [Return 0; Place_ 0 (mkPod 0 0) 0 (onNode 0)].

Lemma waitAll_safe_witness :
  exists s1 s a m b, run two one_task (start 2 1) = Some s1 /\ run two called_again s1 = Some s /\ in_flight s = [] /\
    nodes s1 !! 1%nat = Some a /\ nodes s !! 1%nat = Some m /\ nodes s !! 0%nat = Some b /\ pending b = 1%nat /\
    (pending m = O /\ created m = finished m /\ at_ m <> InMain) /\ 1 = created a /\ created a <= finished m.
Proof.
  destruct (run two one_task (start 2 1)) as [s1|] eqn:E1; [|vm_compute in E1; discriminate E1].
  destruct (run two called_again s1) as [s|] eqn:E; [|vm_compute in E1; injection E1 as <-; vm_compute in E; discriminate E].
  destruct (nodes s1 !! 1%nat) as [a|] eqn:A; [|vm_compute in E1; injection E1 as <-; discriminate A].
  destruct (nodes s !! 1%nat) as [m|] eqn:M; [|vm_compute in E1; injection E1 as <-; vm_compute in E; injection E as <-; discriminate M].
  destruct (nodes s !! 0%nat) as [b|] eqn:B; [|vm_compute in E1; injection E1 as <-; vm_compute in E; injection E as <-; discriminate B].
  destruct (waitAll_safe two one_task called_again 2 1 s1 s m) as [F S].
  - repeat constructor.
  - exact E1.
  - exact E.
  - by eapply list_elem_of_lookup_2.
  - vm_compute in E1. injection E1 as <-. vm_compute in E. injection E as <-. injection M as <-. reflexivity.
  - destruct (S 1%nat a m A M) as [S1 S2]. exists s1, s, a, m, b. split; [done|]. split; [done|]. split; [exact F|]. split; [done|]. split; [done|].
    split; [done|]. split. { vm_compute in E1. injection E1 as <-. vm_compute in E. injection E as <-. injection B as <-. reflexivity. }
    split; [by apply S1|]. split. { vm_compute in E1. injection E1 as <-. injection A as <-. reflexivity. }
    apply S2. vm_compute in E1. injection E1 as <-. vm_compute in E. injection E as <-. injection M as <-. injection A as <-. cbn. lia.
Defined.

Lemma waitAll_counted_witness :
  exists s1 s a a', run two one_task (start 2 1) = Some s1 /\ run two (both 5 ++ both 6) s1 = Some s /\
    nodes s1 !! 1%nat = Some a /\ nodes s !! 1%nat = Some a' /\ created a = 1 /\ created a <= finished a'.
Proof.
  destruct (run two one_task (start 2 1)) as [s1|] eqn:E1; [|vm_compute in E1; discriminate E1].
  destruct (run two (both 5 ++ both 6) s1) as [s|] eqn:E; [|vm_compute in E1; injection E1 as <-; vm_compute in E; discriminate E].
  destruct (nodes s1 !! 1%nat) as [a|] eqn:A; [|vm_compute in E1; injection E1 as <-; discriminate A].
  destruct (nodes s !! 1%nat) as [a'|] eqn:A'; [|vm_compute in E1; injection E1 as <-; vm_compute in E; injection E as <-; discriminate A'].
  exists s1, s, a, a'. split; [done|]. split; [done|]. split; [done|]. split; [done|]. split.
  { vm_compute in E1. injection E1 as <-. injection A as <-. reflexivity. }
  apply (waitAll_counted two one_task (both 5 ++ both 6) 2 1 s1 s a' 1 a E1 E) with (i := 1%nat).
  - by eapply list_elem_of_lookup_2.
  - vm_compute in E1. injection E1 as <-. vm_compute in E. injection E as <-. injection A' as <-. reflexivity.
  - exact A.
  - vm_compute in E1. injection E1 as <-. vm_compute in E. injection E as <-. injection A' as <-. injection A as <-. cbn. lia.
  - exact A.
  - exact A'.
Defined.

Lemma waitAll_terminates_witness :
  exists s s', run two one_task (start 2 1) = Some s /\ run two (both 5) s = Some s' /\
    (length (both 5) <= 2 * (6 * 0 + 19))%nat /\
    (Forall (fun m => at_ m = Left) (nodes s') \/ (exists i s'', step two (Wait i) s' = Some s'') \/
     (exists i, Return i ∈ one_task) /\ exists i s'', step two (Return i) s' = Some s'').
Proof.
  destruct (run two one_task (start 2 1)) as [s|] eqn:E1; [|vm_compute in E1; discriminate E1].
  destruct (run two (both 5) s) as [s'|] eqn:E; [|vm_compute in E1; injection E1 as <-; vm_compute in E; discriminate E].
  exists s, s'. split; [done|]. split; [done|].
  apply (waitAll_terminates two one_task 2 1 s 0 E1); [| | |exact E].
  - vm_compute in E1. injection E1 as <-. split; [reflexivity|]. repeat constructor.
  - vm_compute in E1. injection E1 as <-. repeat constructor.
  - repeat constructor.
Defined.

Lemma chooseCore_spec_witness :
  (forall c, chooseCore two 0 (onNode 1) = Done c -> 0 <= core_x c < 1) /\
  (forall e, chooseCore two 0 (mkPlace (mkNode 2) anyPod anyCore) = Failed e -> exists msg, e = Aborted msg).
Proof.
  split; [apply (chooseCore_spec two 0 (onNode 1)); lia|].
  apply (chooseCore_spec two 0 (mkPlace (mkNode 2) anyPod anyCore)). lia.
Defined.
End Termination.
