(* ===== verification/NativeMemory.v ===== *)
(** * Native memory of a node and its global addresses

    The PREP backend's memories ([pando-rt/src/prep/memory.cpp]), the stacks of its harts ([prep/hart_context.hpp], [prep/cores.cpp]), and the
    conversion between native pointers and global addresses ([createGlobalAddress] and [asNativePtr] of [pando-rt/src/global_ptr.cpp]).
    A native pointer is a number, 0 the null pointer. *)

From S2P Require Import Prelude Addressing GlobalPtr.
Import BitManip Index AddressMap.

Module NativeMemory.

(** src/pando-rt/src/prep/memory.cpp:20-22 [MemoryChunk]: its [Memory::Information] *)
Record MemoryChunk := mkChunk { chunk_type : MemoryType; baseAddress : Z; byteCount : Z }.

(** src/pando-rt/src/prep/memory.cpp:44-47 [MemoryChunk::ownsAddress] *)
Definition ownsAddress (c : MemoryChunk) (nativePtr : Z) : bool :=
  (baseAddress c <=? nativePtr) && (nativePtr <? baseAddress c + byteCount c).

(** src/pando-rt/src/prep/hart_context.hpp:41-64 [HartContext]: its [stackAddressRange] *)
Record HartContext := mkHart { stack_begin : Z; stack_end : Z }.

(** src/pando-rt/src/prep/hart_context.hpp:69-75 [getStackOffset] *)
Definition getStackOffset (h : HartContext) (p : Z) : Z :=
  if stack_end h <=? p then -1 else p - stack_begin h.
(** src/pando-rt/src/prep/hart_context.hpp:80-86 [getStackAddress] *)
Definition getStackAddress (h : HartContext) (offset : Z) : Z :=
  if stack_end h <=? stack_begin h + offset then nullptr else stack_begin h + offset.

(** A node: its number, its two memories, the harts of each of its cores, and the configured size of a hart's L1SP. *)
Record host := mkHost { this_node : NodeIndex; l2SP : MemoryChunk; main_ : MemoryChunk;
  m_cores : list (list HartContext); l1SPHart : Z }.

(** Who runs: a hart, given by its core and its number on it; [None] is the command processor. *)
Definition context : Type := option (nat * nat).

Section Host.
Context (H : host).

Definition hart_of (c : nat * nat) : option HartContext := let? harts := m_cores H !! fst c in harts !! snd c.

(** src/pando-rt/src/prep/cores.cpp:384-391 [Cores::getCurrentPodAndCore], in [getCurrentPlace] *)
Definition getCurrentPlace (who : context) : Place :=
  match who with
  | None => mkPlace (this_node H) anyPod anyCore
  | Some (c, _) => mkPlace (this_node H) (mkPod 0 0) (mkCore (Z.of_nat c) 0)
  end.

(** src/pando-rt/src/prep/cores.cpp:393-395 [Cores::getPodDims] *)
Definition getPodDims : PodIndex := mkPod 1 1.
(** src/pando-rt/src/prep/cores.cpp:397-399 [Cores::getCoreDims] *)
Definition getCoreDims : CoreIndex := mkCore (i8 (Z.of_nat (length (m_cores H)))) 1.

(** src/pando-rt/src/prep/memory.cpp:92-107 [Memory::getInformation]; an empty description for the memories that are not chunks *)
Definition getInformation (t : MemoryType) : MemoryChunk :=
  match t with L2SP => l2SP H | Main => main_ H | _ => mkChunk Unknown 0 0 end.

(** src/pando-rt/src/prep/memory.cpp:109-123 [Memory::findInformation] *)
Definition findInformation (nativePtr : Z) : MemoryChunk :=
  if ownsAddress (l2SP H) nativePtr then l2SP H
  else if ownsAddress (main_ H) nativePtr then main_ H
  else mkChunk Unknown 0 0.

(** src/pando-rt/src/prep/cores.cpp:211-215 [ComputeCore::getL1SPOffset] *)
Definition core_getL1SPOffset (hartId : nat) (hartStackOffset : Z) : Z := u64 (Z.of_nat hartId * l1SPHart H + hartStackOffset).

(** src/pando-rt/src/prep/cores.cpp:218-224 [ComputeCore::getNativeAddress]; an index past the harts has no meaning *)
Definition core_getNativeAddress (harts : list HartContext) (l1SPOffset : Z) : outcome Z :=
  let! _ := guard_or (negb (l1SPHart H =? 0)) (Undefined "division by zero") in
  let hartId := l1SPOffset / l1SPHart H in
  let hartStackOffset := l1SPOffset - hartId * l1SPHart H in
  match harts !! Z.to_nat hartId with
  | Some h => Done (getStackAddress h hartStackOffset)
  | None => Failed (Undefined "hart index")
  end.

(** src/pando-rt/src/prep/cores.cpp:414-426 [Cores::getL1SPOffset] *)
Definition getL1SPOffset (who : context) (p : Z) : Z :=
  match who with
  | None => -1
  | Some c => match hart_of c with
      | None => -1
      | Some h => let hartStackOffset := getStackOffset h p in
          if hartStackOffset <? 0 then hartStackOffset else i64 (core_getL1SPOffset (snd c) hartStackOffset)
      end
  end.

(** src/pando-rt/src/prep/cores.cpp:428-443 [Cores::getL1SPLocalAdddress] *)
Definition getL1SPLocalAdddress (podIdx : PodIndex) (coreIdx : CoreIndex) (offset : Z) : outcome Z :=
  if ((pod_x podIdx <? 0) || (pod_y podIdx <? 0)) || ((pod_x getPodDims <=? pod_x podIdx) || (pod_y getPodDims <=? pod_y podIdx))
  then Done nullptr else
  if ((core_x coreIdx <? 0) || (core_y coreIdx <? 0)) ||
    ((core_x getCoreDims <=? core_x coreIdx) || (core_y getCoreDims <=? core_y coreIdx))
  then Done nullptr else
  match m_cores H !! Z.to_nat (core_x coreIdx) with
  | Some harts => core_getNativeAddress harts offset
  | None => Failed (Undefined "core index")
  end.

(** src/pando-rt/src/prep/memory.cpp:125-152 [Memory::getNativeAddress] *)
Definition getNativeAddress (addr : Z) : outcome Z :=
  match extractMemoryType addr with
  | L1SP => getL1SPLocalAdddress (extractPodIndex addr) (extractCoreIndex addr) (readBits 64 addr (l1_offset (l1sp addressMap)))
  | L2SP => Done (baseAddress (l2SP H) + readBits 64 addr (l2_offset (l2sp addressMap)))
  | Main => Done (baseAddress (main_ H) + readBits 64 addr (main_offset (main addressMap)))
  | _ => Done nullptr
  end.

(** src/pando-rt/src/global_ptr.cpp:37-66 [createGlobalAddress] *)
Definition createGlobalAddress (who : context) (nativePtr : Z) : outcome Z :=
  if nativePtr =? nullptr then Done 0 else
  let thisPlace := getCurrentPlace who in
  let memoryInformation := findInformation nativePtr in
  match chunk_type memoryInformation with
  | L2SP => Done (encodeL2SPAddress (node thisPlace) (pod thisPlace) (u64 (nativePtr - baseAddress memoryInformation)))
  | Main => Done (encodeMainAddress (node thisPlace) (u64 (nativePtr - baseAddress memoryInformation)))
  | _ =>
      let offset := getL1SPOffset who nativePtr in
      if offset <? 0 then Failed (Aborted "Could not translate native pointer to global pointer")
      else Done (encodeL1SPAddress (node thisPlace) (pod thisPlace) (core thisPlace) offset)
  end.

(** src/pando-rt/src/global_ptr.cpp:83-98 [asNativePtr] *)
Definition asNativePtr (globalAddr : Z) : outcome Z :=
  if globalAddr =? 0 then Done nullptr else
  if negb (node_eqb (extractNodeIndex globalAddr) (this_node H)) then Failed (Aborted "Object is in remote native address")
  else getNativeAddress globalAddr.

(** src/pando-rt/src/global_ptr.cpp:371-380 [localityOf] *)
Definition localityOf (ptr : Z) : Place :=
  if ptr_eqb ptr nullptr then anyPlace else
  let memoryType := extractMemoryType ptr in
  mkPlace (extractNodeIndex ptr)
          (match memoryType with Main => anyPod | _ => extractPodIndex ptr end)
          (match memoryType with L1SP => extractCoreIndex ptr | _ => anyCore end).

(** ** What a pointer can point to *)

(** A node as the runtime sets it up, within the limits of the address map: memories that are where no other is, offsets that fit the
    address map's fields, stacks no larger than configured. *)
Record host_ok : Prop := {
  ok_node : node_ok (this_node H);
  ok_types : chunk_type (l2SP H) = L2SP /\ chunk_type (main_ H) = Main;
  ok_l2 : 0 < baseAddress (l2SP H) /\ 0 <= byteCount (l2SP H) <= 2 ^ 25;
  ok_main : 0 < baseAddress (main_ H) /\ 0 <= byteCount (main_ H) <= 2 ^ 44;
  ok_cores : (length (m_cores H) <= 8)%nat;
  ok_l1 : 0 < l1SPHart H;
  ok_harts : forall harts, harts ∈ m_cores H -> Z.of_nat (length harts) * l1SPHart H <= 2 ^ 18;
  ok_stacks : forall c h, hart_of c = Some h -> 0 < stack_begin h /\ stack_begin h <= stack_end h <= stack_begin h + l1SPHart H;
  ok_apart : forall p, ownsAddress (l2SP H) p = true -> ownsAddress (main_ H) p = false }.

(** The pointers [who] can turn into global ones: into the node's two memories, and into the stack of the running hart. *)
Definition translatable (who : context) (p : Z) : Prop :=
  ownsAddress (l2SP H) p = true \/ ownsAddress (main_ H) p = true \/
  exists c h, who = Some c /\ hart_of c = Some h /\ stack_begin h <= p < stack_end h.

(** The running hart exists. *)
Definition context_ok (who : context) : Prop := forall c, who = Some c -> exists h, hart_of c = Some h.
End Host.
(** ** Round trip *)

Lemma owns_spec c p : ownsAddress c p = true <-> baseAddress c <= p < baseAddress c + byteCount c.
Proof. unfold ownsAddress. rewrite andb_true_iff, Z.leb_le, Z.ltb_lt. done. Qed.

(** An address in the L2SP that names no pod keeps the low bits of -1. *)
Lemma encodeL2SP_anyPod n off : encodeL2SPAddress n anyPod off = encodeL2SPAddress n (mkPod 7 7) off.
Proof.
  unfold encodeL2SPAddress; cbv zeta. cbn [pod_x pod_y anyPod].
  rewrite (createMask_cong (l2_podX (l2sp addressMap)) (u64 (-1)) (u64 7)) by (vm_compute; intuition congruence).
  by rewrite (createMask_cong (l2_podY (l2sp addressMap)) (u64 (-1)) (u64 7)) by (vm_compute; intuition congruence).
Qed.

Section Roundtrip.
Context (H : host) (OK : host_ok H).

Lemma back n a : node_ok n -> n = this_node H -> extractNodeIndex a = n -> a <> 0 ->
  asNativePtr H a = getNativeAddress H a.
Proof.
  intros Hn -> E A. unfold asNativePtr. rewrite (proj2 (Z.eqb_neq _ _) A), E.
  unfold node_eqb. by rewrite Z.eqb_refl.
Qed.

(** The pod a context's L2SP addresses name. *)
Definition pod_named (who : context) : PodIndex := match who with None => mkPod 7 7 | Some _ => mkPod 0 0 end.

Lemma pod_named_ok who : pod_ok (pod_named who).
Proof. destruct who; split; vm_compute; intuition congruence. Qed.

Lemma encodeL2_named who off :
  encodeL2SPAddress (node (getCurrentPlace H who)) (pod (getCurrentPlace H who)) off = encodeL2SPAddress (this_node H) (pod_named who) off.
Proof. destruct who as [[c h]|]; [done|]. apply encodeL2SP_anyPod. Qed.

Lemma nonzero_type a : extractMemoryType a <> L1SP -> a <> 0.
Proof. intros E ->. by apply E. Qed.

Lemma l2_back who p : ownsAddress (l2SP H) p = true ->
  let a := encodeL2SPAddress (this_node H) (pod_named who) (p - baseAddress (l2SP H)) in
  createGlobalAddress H who p = Done a /\ a <> 0 /\ asNativePtr H a = Done p /\
  localityOf a = mkPlace (this_node H) (pod_named who) anyCore.
Proof.
  intros O a. pose proof O as O'. apply owns_spec in O'. destruct (ok_l2 H OK) as [? ?].
  destruct (L2_fields (this_node H) (pod_named who) (p - baseAddress (l2SP H)) (ok_node H OK) (pod_named_ok who)) as (T & N & P & F).
  fold a in T, N, P, F. assert (A : a <> 0) by (apply nonzero_type; by rewrite T). split_and!.
  - unfold createGlobalAddress, findInformation. rewrite O, (proj1 (ok_types H OK)).
    destruct (Z.eqb_spec p nullptr); [unfold nullptr in *; lia|]. rewrite encodeL2_named, wrapU_id; [done|]. unfold inU. lia.
  - done.
  - rewrite (back (this_node H)) by (done || apply OK). unfold getNativeAddress. rewrite T, F, wrapU_id by (unfold inU; lia).
    f_equal. lia.
  - unfold localityOf. rewrite T, N, P. unfold ptr_eqb, nullptr. by rewrite (proj2 (Z.eqb_neq _ _) A).
Qed.

Lemma main_back who p : ownsAddress (main_ H) p = true ->
  let a := encodeMainAddress (this_node H) (p - baseAddress (main_ H)) in
  createGlobalAddress H who p = Done a /\ a <> 0 /\ asNativePtr H a = Done p /\
  localityOf a = mkPlace (this_node H) anyPod anyCore.
Proof.
  intros O a. pose proof O as O'. apply owns_spec in O'. destruct (ok_main H OK) as [? ?].
  destruct (Main_fields (this_node H) (p - baseAddress (main_ H)) (ok_node H OK)) as (T & N & F).
  fold a in T, N, F. assert (A : a <> 0) by (apply nonzero_type; by rewrite T). split_and!.
  - unfold createGlobalAddress, findInformation.
    destruct (ownsAddress (l2SP H) p) eqn:O2; [rewrite (ok_apart H OK p O2) in O; discriminate|].
    rewrite O, (proj2 (ok_types H OK)). destruct (Z.eqb_spec p nullptr); [unfold nullptr in *; lia|].
    assert (node (getCurrentPlace H who) = this_node H) as -> by (destruct who as [[? ?]|]; done).
    rewrite wrapU_id; [done|]. unfold inU. lia.
  - done.
  - rewrite (back (this_node H)) by (done || apply OK). unfold getNativeAddress. rewrite T, F, wrapU_id by (unfold inU; lia).
    f_equal. lia.
  - unfold localityOf. rewrite T, N. unfold ptr_eqb, nullptr. by rewrite (proj2 (Z.eqb_neq _ _) A).
Qed.

(** A hart's stack lies in its slice of the core's L1SP. *)
Lemma hart_bounds c h : hart_of H c = Some h ->
  (fst c < length (m_cores H))%nat /\ exists harts, m_cores H !! fst c = Some harts /\ harts !! snd c = Some h /\
  (Z.of_nat (snd c) + 1) * l1SPHart H <= 2 ^ 18.
Proof.
  unfold hart_of. intros E. destruct (m_cores H !! fst c) as [harts|] eqn:C; [|done]. split; [by eapply lookup_lt_Some|].
  exists harts. split_and!; [done|done|]. apply lookup_lt_Some in E as L.
  pose proof (ok_harts H OK harts ltac:(by eapply list_elem_of_lookup_2)). pose proof (ok_l1 H OK). nia.
Qed.

Lemma getL1SPOffset_in c h p : hart_of H c = Some h -> stack_begin h <= p < stack_end h ->
  getL1SPOffset H (Some c) p = Z.of_nat (snd c) * l1SPHart H + (p - stack_begin h).
Proof.
  intros E B. destruct (hart_bounds c h E) as (_ & harts & _ & _ & L). destruct (ok_stacks H OK c h E) as (? & ?).
  pose proof (ok_l1 H OK). unfold getL1SPOffset, getStackOffset, core_getL1SPOffset. rewrite E.
  destruct (Z.leb_spec (stack_end h) p); [lia|]. destruct (Z.ltb_spec (p - stack_begin h) 0); [lia|].
  rewrite wrapU_id by (unfold inU; nia). rewrite wrapS_id; [done|lia|]. unfold inS. nia.
Qed.

Lemma stack_back c h p : hart_of H c = Some h -> stack_begin h <= p < stack_end h ->
  core_getNativeAddress H (default [] (m_cores H !! fst c)) (Z.of_nat (snd c) * l1SPHart H + (p - stack_begin h)) = Done p.
Proof.
  intros E B. destruct (hart_bounds c h E) as (_ & harts & -> & Eh & L). destruct (ok_stacks H OK c h E) as (? & ?).
  pose proof (ok_l1 H OK). change (default [] (Some harts)) with harts. unfold core_getNativeAddress.
  destruct (Z.eqb_spec (l1SPHart H) 0); [lia|]. cbn [negb guard_or bindo].
  rewrite Z.div_add_l, Z.div_small, Z.add_0_r, Nat2Z.id, Eh by lia. unfold getStackAddress.
  replace (stack_begin h + _) with p by lia. destruct (Z.leb_spec (stack_end h) p); [lia|done].
Qed.

Lemma not_owned who p : createGlobalAddress H who p =
  if p =? nullptr then Done 0 else
  if ownsAddress (l2SP H) p || ownsAddress (main_ H) p then createGlobalAddress H who p else
  let offset := getL1SPOffset H who p in
  if offset <? 0 then Failed (Aborted "Could not translate native pointer to global pointer")
  else Done (encodeL1SPAddress (node (getCurrentPlace H who)) (pod (getCurrentPlace H who)) (core (getCurrentPlace H who)) offset).
Proof.
  unfold createGlobalAddress, findInformation. destruct (p =? nullptr); [done|].
  destruct (ownsAddress (l2SP H) p); [done|]. by destruct (ownsAddress (main_ H) p).
Qed.

Lemma l1_back c h p : hart_of H c = Some h -> stack_begin h <= p < stack_end h ->
  ownsAddress (l2SP H) p = false -> ownsAddress (main_ H) p = false ->
  exists a, createGlobalAddress H (Some c) p = Done a /\ a <> 0 /\ asNativePtr H a = Done p /\
  localityOf a = getCurrentPlace H (Some c).
Proof.
  intros E B O2 OM. destruct (hart_bounds c h E) as (C & harts & Ec & Eh & L). destruct (ok_stacks H OK c h E) as (? & ?).
  pose proof (ok_l1 H OK) as L1. pose proof (ok_cores H OK) as LC.
  rewrite not_owned, O2, OM, (getL1SPOffset_in c h p E B).
  destruct (Z.eqb_spec p nullptr); [unfold nullptr in *; lia|]. cbn [orb].
  set (off := Z.of_nat (snd c) * l1SPHart H + (p - stack_begin h)) in *. cbv zeta.
  assert (0 <= off < 2 ^ 18) as Hoff by nia. destruct (Z.ltb_spec off 0); [lia|].
  destruct c as [c hid]. cbn [getCurrentPlace node pod core fst snd] in *.
  assert (PO : pod_ok (mkPod 0 0)) by (split; vm_compute; intuition congruence).
  assert (CO : core_ok (mkCore (Z.of_nat c) 0)) by (split; unfold inU; cbn; lia).
  destruct (L1_fields (this_node H) _ _ off (ok_node H OK) PO CO) as (T & N & P & K & G & F).
  set (a := encodeL1SPAddress _ _ _ off) in *. exists a.
  assert (A : a <> 0) by (intros A; rewrite A in G; done). split_and!; try done.
  - rewrite (back (this_node H)) by (done || apply OK). unfold getNativeAddress. rewrite T, F, P, K, wrapU_id by done.
    unfold getL1SPLocalAdddress, getCoreDims, getPodDims. cbn [pod_x pod_y core_x core_y]. rewrite wrapS_id by (unfold inS; lia).
    destruct (Z.ltb_spec (Z.of_nat c) 0), (Z.leb_spec (Z.of_nat (length (m_cores H))) (Z.of_nat c)); try lia.
    cbn. rewrite Nat2Z.id, Ec. pose proof (stack_back (c, hid) h p E B) as S. cbn [fst snd] in S. rewrite Ec in S. done.
  - unfold localityOf. rewrite T, N, P, K. unfold ptr_eqb, nullptr. by rewrite (proj2 (Z.eqb_neq _ _) A).
Qed.

Lemma not_on_stack who p : context_ok H who -> p <> nullptr -> ~ translatable H who p -> getL1SPOffset H who p < 0.
Proof.
  intros Hw Hp Ht. destruct who as [c|]; [|done]. destruct (Hw c eq_refl) as [h E]. unfold getL1SPOffset. rewrite E.
  unfold getStackOffset. destruct (Z.leb_spec (stack_end h) p); [done|].
  destruct (Z.ltb_spec (p - stack_begin h) 0); [lia|]. destruct Ht. right; right. exists c, h. split_and!; done || lia.
Qed.
End Roundtrip.

(** C39: on a node set up within the address map's limits, every native pointer that a context can translate - into the node's L2SP, into
    its main memory, or into the running hart's stack - becomes a global address that is not null, that names this node, and that
    [asNativePtr] turns back into the pointer, on whichever hart; any other pointer except null aborts. *)
Theorem native_roundtrip H who p : host_ok H -> context_ok H who -> p <> nullptr ->
  (translatable H who p -> exists a, createGlobalAddress H who p = Done a /\ a <> 0 /\ asNativePtr H a = Done p /\
     node (localityOf a) = this_node H) /\
  (~ translatable H who p ->
     createGlobalAddress H who p = Failed (Aborted "Could not translate native pointer to global pointer")).
Proof.
  intros OK Hw Hp. split.
  - intros Ht. destruct (ownsAddress (l2SP H) p) eqn:O2.
    { destruct (l2_back H OK who p O2) as (? & ? & ? & L). eexists. split_and!; try done. by rewrite L. }
    destruct (ownsAddress (main_ H) p) eqn:OM.
    { destruct (main_back H OK who p OM) as (? & ? & ? & L). eexists. split_and!; try done. by rewrite L. }
    destruct Ht as [?|[?|(c & h & -> & E & B)]]; [congruence|congruence|].
    destruct (l1_back H OK c h p E B O2 OM) as (a & ? & ? & ? & L). exists a. split_and!; try done. rewrite L. by destruct c.
  - intros Ht. rewrite not_owned. destruct (Z.eqb_spec p nullptr); [done|].
    assert (ownsAddress (l2SP H) p || ownsAddress (main_ H) p = false) as ->.
    { apply orb_false_iff. split; apply not_true_iff_false; intros O; apply Ht; unfold translatable; tauto. }
    cbv zeta. pose proof (not_on_stack H who p Hw Hp Ht). destruct (Z.ltb_spec (getL1SPOffset H who p) 0); [done|lia].
Qed.

(** A node of two cores with two harts each. *)
Definition small_host : host :=
  mkHost (mkNode 3) (mkChunk L2SP 4096 1024) (mkChunk Main 8192 4096)
    [[mkHart 100000 108000; mkHart 120000 128000]; [mkHart 140000 148000; mkHart 160000 168000]] 8192.

Lemma native_roundtrip_witness :
  exists a, createGlobalAddress small_host (Some (1%nat, 1%nat)) 160008 = Done a /\ a <> 0 /\ asNativePtr small_host a = Done 160008 /\
     node (localityOf a) = mkNode 3.
Proof.
  refine (proj1 (native_roundtrip small_host (Some (1%nat, 1%nat)) 160008 _ _ _) _).
  - constructor.
    + vm_compute. repeat split; congruence.
    + split; reflexivity.
    + cbn. lia.
    + cbn. lia.
    + cbn. lia.
    + cbn. lia.
    + intros harts Hin. repeat (apply elem_of_cons in Hin as [->|Hin]; [vm_compute; congruence|]). by apply elem_of_nil in Hin.
    + intros [c hid] h E. destruct c as [|[|c]], hid as [|[|hid]]; cbn in E; try discriminate;
        injection E as <-; vm_compute; intuition congruence.
    + intros p E. apply owns_spec in E. cbn in E. apply not_true_iff_false. rewrite owns_spec. cbn. lia.
  - intros c [= <-]. eexists. reflexivity.
  - vm_compute. congruence.
  - right; right. exists (1%nat, 1%nat), (mkHart 160000 168000). split_and!; [done|done|cbn; lia|cbn; lia].
Defined.
End NativeMemory.
