(* ===== verification/ActiveMessages.v ===== *)
(** * Active messages: remote loads, stores and atomics of the nodes

    The PREP backend's [Nodes] ([pando-rt/src/prep/nodes.cpp], [nodes.hpp], [data_type.hpp]): how a request for a remote
    memory operation is packed and sent, how the node that owns the memory serves it, and how the answer reaches the
    handle the requester waits on.  GASNet, which carries the messages, is a parameter. *)

From S2P Require Import Prelude Addressing GlobalPtr NativeMemory.
Import BitManip Index AddressMap NativeMemory.

(** ** GASNet

    What the code uses of the library that is not in the sources: the macros that cut a pointer in two words and put it
    together again, and the largest medium messages. *)
Class Gasnet := {
  HIWORD : Z -> Z; LOWORD : Z -> Z; MAKEWORD : Z -> Z -> Z;
  MaxRequestMedium : NodeIndex -> Z -> Z;  (** by destination and number of arguments *)
  MaxReplyMedium : Z }.

(** Documented behaviour: a word split in two 32-bit arguments is put together again; medium messages of 512 bytes can always be sent. *)
Class GasnetLaws (G : Gasnet) : Prop := {
  makeword : forall p, inU 64 p -> MAKEWORD (i32 (HIWORD p)) (i32 (LOWORD p)) = p;
  reply_least : 512 <= MaxReplyMedium }.

(** ** Integral types *)

Module DataTypes.

(** The integral types [T] the operations are instantiated with. *)
Inductive IntType := int8_t | uint8_t | int16_t | uint16_t | int32_t | uint32_t | int64_t | uint64_t.
Definition sizeof (T : IntType) : nat :=
  match T with int8_t | uint8_t => 1 | int16_t | uint16_t => 2 | int32_t | uint32_t => 4 | int64_t | uint64_t => 8 end.
Definition width (T : IntType) : Z := 8 * Z.of_nat (sizeof T).
(** Conversion to [T]. *)
Definition cast (T : IntType) (v : Z) : Z :=
  match T with int8_t | int16_t | int32_t | int64_t => wrapS (width T) v | _ => wrapU (width T) v end.

(** src/pando-rt/src/prep/data_type.hpp:21-31 [DataType]; the last constructor is a number that names no type *)
Inductive DataType := Int8 | UInt8 | Int16 | UInt16 | Int32 | UInt32 | Int64 | UInt64 | NoDataType (v : Z).

(** src/pando-rt/src/prep/data_type.hpp:38-40 [operator+] *)
Definition DataType_to_Z (d : DataType) : Z :=
  match d with Int8 => 0 | UInt8 => 1 | Int16 => 2 | UInt16 => 3 | Int32 => 4 | UInt32 => 5 | Int64 => 6 | UInt64 => 7
  | NoDataType v => v end.
Definition DataType_of_Z (v : Z) : DataType :=
  if v =? 0 then Int8 else if v =? 1 then UInt8 else if v =? 2 then Int16 else if v =? 3 then UInt16 else
  if v =? 4 then Int32 else if v =? 5 then UInt32 else if v =? 6 then Int64 else if v =? 7 then UInt64 else NoDataType v.

(** src/pando-rt/src/prep/data_type.hpp:56-144 [DataTypeTraits] *)
Definition DataTypeTraits (T : IntType) : DataType :=
  match T with int8_t => Int8 | uint8_t => UInt8 | int16_t => Int16 | uint16_t => UInt16
  | int32_t => Int32 | uint32_t => UInt32 | int64_t => Int64 | uint64_t => UInt64 end.

(** src/pando-rt/src/prep/data_type.hpp:155-178 [dataTypeDispatch] *)
Definition dataTypeDispatch {A} (dataType : DataType) (f : IntType -> outcome A) : outcome A :=
  match dataType with
  | Int8 => f int8_t | UInt8 => f uint8_t | Int16 => f int16_t | UInt16 => f uint16_t
  | Int32 => f int32_t | UInt32 => f uint32_t | Int64 => f int64_t | UInt64 => f uint64_t
  | NoDataType _ => Failed (Aborted "Unknown data type")
  end.

Lemma dispatch_traits {A} T (f : IntType -> outcome A) :
  dataTypeDispatch (DataType_of_Z (i64 (u64 (DataType_to_Z (DataTypeTraits T))))) f = f T.
Proof. destruct T; reflexivity. Qed.

Lemma sizeof_range T : (1 <= sizeof T <= 8)%nat.
Proof. destruct T; cbn; lia. Qed.

Lemma cast_wrap T v : cast T (wrapU (width T) v) = cast T v.
Proof.
  pose proof (sizeof_range T). assert (0 <= width T) by (unfold width; lia).
  unfold cast. destruct T; (apply wrapS_wrapU || apply wrapU_idemp); done.
Qed.

Lemma cast_idemp T v : cast T (cast T v) = cast T v.
Proof.
  pose proof (sizeof_range T). assert (1 <= width T) by (unfold width; lia).
  unfold cast. destruct T; first [apply wrapS_id; [done|]; by apply wrapS_range | apply wrapU_idemp; lia].
Qed.

(** A value that [T] has. *)
Definition has_type (T : IntType) (v : Z) : Prop := cast T v = v.

Lemma cast_bytes T v : cast T (unbytes (bytes (sizeof T) v)) = cast T v.
Proof. by rewrite unbytes_bytes, cast_wrap. Qed.
End DataTypes.
Import DataTypes.

(** ** Native memory accesses *)

Module Access.

(** The bytes of a node's memory, those that are mapped. *)
Definition bytemem : Type := gmap Z Z.

Definition fault : failure := Undefined "invalid access".

Definition read_bytes (m : bytemem) (p n : Z) : outcome (list Z) :=
  match mapM (fun a => m !! a) (seqZ p n) with Some l => Done l | None => Failed fault end.
Fixpoint put_bytes (m : bytemem) (p : Z) (l : list Z) : bytemem :=
  match l with [] => m | b :: l => <[p := b]> (put_bytes m (p + 1) l) end.
Definition mapped (m : bytemem) (p n : Z) : bool := forallb (fun a => bool_decide (is_Some (m !! a))) (seqZ p n).
Definition write_bytes (m : bytemem) (p : Z) (l : list Z) : outcome bytemem :=
  if mapped m p (Z.of_nat (length l)) then Done (put_bytes m p l) else Failed fault.

(** [std::memcpy] between memories of the node *)
Definition memcpy (m : bytemem) (dst src n : Z) : outcome bytemem :=
  let! l := read_bytes m src n in write_bytes m dst l.

(** The compiler's atomic builtins. *)
Definition atomic_load_n (m : bytemem) (T : IntType) (p : Z) : outcome Z :=
  let! l := read_bytes m p (Z.of_nat (sizeof T)) in Done (cast T (unbytes l)).
Definition atomic_store_n (m : bytemem) (T : IntType) (p v : Z) : outcome bytemem := write_bytes m p (bytes (sizeof T) v).
Definition atomic_fetch_add (m : bytemem) (T : IntType) (p v : Z) : outcome (Z * bytemem) :=
  let! old := atomic_load_n m T p in
  let! m' := atomic_store_n m T p (cast T (old + v)) in Done (old, m').
Definition atomic_fetch_sub (m : bytemem) (T : IntType) (p v : Z) : outcome (Z * bytemem) :=
  let! old := atomic_load_n m T p in
  let! m' := atomic_store_n m T p (cast T (old - v)) in Done (old, m').
(** Whether the exchange took place, the value of [expected] afterwards, the memory. *)
Definition atomic_compare_exchange (m : bytemem) (T : IntType) (p expected desired : Z) : outcome (bool * Z * bytemem) :=
  let! old := atomic_load_n m T p in
  if old =? expected then let! m' := atomic_store_n m T p desired in Done (true, expected, m') else Done (false, old, m).

Lemma read_bytes_length m p n l : read_bytes m p n = Done l -> length l = Z.to_nat n.
Proof.
  unfold read_bytes. destruct (mapM _ _) eqn:E; [|done]. intros [= <-].
  apply length_mapM in E. by rewrite length_seqZ in E.
Qed.

Lemma atomic_load_type m T p v : atomic_load_n m T p = Done v -> has_type T v.
Proof. unfold atomic_load_n. intros E. outcome_inv. apply cast_idemp. Qed.
End Access.
Import Access.

(** ** Packing *)

Module Packing.

(** src/pando-rt/src/prep/nodes.cpp:32-47 [AMType] *)
Inductive AMType := GenericRequest | Load | Store | AtomicLoad | AtomicStore | AtomicCompareExchange | AtomicIncrement
| AtomicDecrement | AtomicFetchAdd | AtomicFetchSub | LoadAck | Ack | ValueAck.

(** src/pando-rt/src/prep/nodes.cpp:60-64 [packPtr]; the arguments of a message are 32-bit signed *)
Definition packPtr `{Gasnet} (ptr : Z) : Z * Z := (i32 (HIWORD ptr), i32 (LOWORD ptr)).
(** src/pando-rt/src/prep/nodes.cpp:67-70 [unpackPtr] *)
Definition unpackPtr `{Gasnet} (hi lo : Z) : Z := MAKEWORD hi lo.

(** Objects to pack are their sizes and values. *)
Definition fields : Type := list (nat * Z).

(** src/pando-rt/src/prep/nodes.cpp:73-77 [packedSize] *)
Definition packedSize (t : fields) : Z := u64 (foldr (fun f s => Z.of_nat (fst f) + s) 0 t).
(** src/pando-rt/src/prep/nodes.cpp:80-85 [pack] *)
Definition pack (t : fields) : list Z := concat ((fun f => bytes (fst f) (snd f)) <$> t).
(** src/pando-rt/src/prep/nodes.cpp:88-93 [unpack]; the objects' values and the rest of the buffer *)
Fixpoint unpack (sizes : list nat) (buffer : list Z) : list Z * list Z :=
  match sizes with
  | [] => ([], buffer)
  | n :: sizes => let '(vs, rest) := unpack sizes (drop n buffer) in (unbytes (take n buffer) :: vs, rest)
  end.

Lemma unpack_pack t rest :
  unpack (fst <$> t) (pack t ++ rest) = ((fun f => wrapU (8 * Z.of_nat (fst f)) (snd f)) <$> t, rest).
Proof.
  induction t as [|[n v] t IH]; [done|]. cbn [unpack fmap list_fmap fst snd].
  change (pack ((n, v) :: t)) with (bytes n v ++ pack t). rewrite <- app_assoc.
  rewrite drop_app_length', take_app_length' by (by rewrite bytes_length).
  change (list_fmap _ _ fst t) with (fst <$> t). by rewrite IH, unbytes_bytes.
Qed.

Lemma pack_length t : Z.of_nat (length (pack t)) = foldr (fun f s => Z.of_nat (fst f) + s) 0 t.
Proof.
  induction t as [|[n v] t IH]; [done|]. change (pack ((n, v) :: t)) with (bytes n v ++ pack t).
  rewrite length_app, bytes_length. cbn. lia.
Qed.
End Packing.
Import Packing.

(** ** Handles and the state of a node *)

Module Handles.

(** The handles of [Nodes] a requester waits on, with their fields.  A value handle's storage is uninitialised at first. *)
(** src/pando-rt/src/prep/nodes.hpp:29-48 [LoadHandle]; and [AckHandle] (lines 74-86), [ValueHandle] (lines 122-138) *)
Inductive handle :=
| LoadHandle (m_done : bool) (m_ptr : Z)
| AckHandle (m_done : bool)
| ValueHandle (T : IntType) (m_storage : option Z) (m_done : bool).

(** src/pando-rt/src/prep/nodes.hpp:52-59 [ready] *)
Definition ready (h : handle) : bool := match h with LoadHandle d _ => d | AckHandle d => d | ValueHandle _ _ d => d end.

(** A node's part of the remote operations: how its addresses are laid out, its memory, and its live handles by address. *)
Record nstate := mkN { n_host : host; n_mem : bytemem; n_handles : gmap Z handle }.

Definition with_mem (N : nstate) (m : bytemem) : nstate := mkN (n_host N) m (n_handles N).
Definition with_handle (N : nstate) (p : Z) (h : handle) : nstate := mkN (n_host N) (n_mem N) (<[p := h]> (n_handles N)).
Definition without_handle (N : nstate) (p : Z) : nstate := mkN (n_host N) (n_mem N) (delete p (n_handles N)).

Definition dangling : failure := Undefined "not a live handle of this kind".

(** src/pando-rt/src/prep/nodes.hpp:64-68 [LoadHandle::setReady] *)
Definition load_setReady (N : nstate) (p : Z) (data : list Z) : outcome nstate :=
  match n_handles N !! p with
  | Some (LoadHandle _ m_ptr) =>
      let! m := write_bytes (n_mem N) m_ptr data in Done (with_handle (with_mem N m) p (LoadHandle true m_ptr))
  | _ => Failed dangling
  end.
(** src/pando-rt/src/prep/nodes.hpp:99-102 [AckHandle::setReady] *)
Definition ack_setReady (N : nstate) (p : Z) : outcome nstate :=
  match n_handles N !! p with
  | Some (AckHandle _) => Done (with_handle N p (AckHandle true))
  | _ => Failed dangling
  end.
(** src/pando-rt/src/prep/nodes.hpp:153-156 [ValueHandle::setReady] *)
Definition value_setReady (N : nstate) (p : Z) (data : list Z) : outcome nstate :=
  match n_handles N !! p with
  | Some (ValueHandle T _ _) =>
      Done (with_handle N p (ValueHandle T (Some (cast T (unbytes (take (sizeof T) data)))) true))
  | _ => Failed dangling
  end.
(** src/pando-rt/src/prep/nodes.hpp:161-163 [ValueHandle::value] *)
Definition value (h : handle) : outcome Z :=
  match h with ValueHandle _ (Some v) _ => Done v | _ => Failed (Undefined "uninitialised value") end.
End Handles.
Import Handles.

(** ** Serving a message *)

Module Handlers.
Section Handlers.
Context `{Gasnet}.

(** What a handler answers: the kind and the payload of the reply, which carries the arguments of the request. *)
Definition reply : Type := AMType * list Z.

Definition too_large : failure := Aborted "Could not send value".

(** src/pando-rt/src/prep/nodes.cpp:189-197 [sendAck] *)
Definition sendAck : reply := (Ack, []).
(** src/pando-rt/src/prep/nodes.cpp:200-213 [sendValue] *)
Definition sendValue (T : IntType) (t : Z) : outcome reply :=
  if Z.of_nat (sizeof T) <=? MaxReplyMedium then Done (ValueAck, bytes (sizeof T) t) else Failed too_large.

(** A handler: the node, the buffer, the two arguments; the node afterwards and the reply, if any. *)
Definition handler : Type := nstate -> list Z -> Z -> Z -> outcome (nstate * option reply).

(** The values and the rest of a buffer that starts with an address and a second 64-bit value. *)
Definition unpack2 (buffer : list Z) : Z * Z * list Z :=
  match unpack [8; 8]%nat buffer with ([a; b], rest) => (a, b, rest) | (_, rest) => (0, 0, rest) end.

(** src/pando-rt/src/prep/nodes.cpp:233-256 [handleLoad] *)
Definition handleLoad : handler := fun N buffer _ _ =>
  let '(srcAddr, n, _) := unpack2 buffer in
  let! srcDataPtr := getNativeAddress (n_host N) srcAddr in
  if n <=? MaxReplyMedium then let! data := read_bytes (n_mem N) srcDataPtr n in Done (N, Some (LoadAck, data))
  else Failed too_large.

(** src/pando-rt/src/prep/nodes.cpp:259-278 [handleStore] *)
Definition handleStore : handler := fun N buffer _ _ =>
  let '(vs, srcData) := unpack [8%nat] buffer in
  let dstAddr := default 0 (head vs) in
  let n := u64 (Z.of_nat (length buffer) - packedSize [(8%nat, dstAddr)]) in
  let! nativeDstPtr := getNativeAddress (n_host N) dstAddr in
  let! m := write_bytes (n_mem N) nativeDstPtr (take (Z.to_nat n) srcData) in
  Done (with_mem N m, Some sendAck).

(** The [i]-th value of type [T] of a payload. *)
Definition operand (T : IntType) (i : nat) (data : list Z) : Z := cast T (unbytes (take (sizeof T) (drop (i * sizeof T) data))).

(** src/pando-rt/src/prep/nodes.cpp:281-294 [AtomicLoadImpl] *)
Definition AtomicLoadImpl (T : IntType) (N : nstate) (srcAddr : Z) : outcome (nstate * option reply) :=
  let! srcNativePtr := getNativeAddress (n_host N) srcAddr in
  let! retValue := atomic_load_n (n_mem N) T srcNativePtr in
  let! r := sendValue T retValue in Done (N, Some r).
(** src/pando-rt/src/prep/nodes.cpp:297-305 [handleAtomicLoad] *)
Definition handleAtomicLoad : handler := fun N buffer _ _ =>
  let '(srcAddr, dataType, _) := unpack2 buffer in
  dataTypeDispatch (DataType_of_Z (i64 dataType)) (fun T => AtomicLoadImpl T N srcAddr).

(** src/pando-rt/src/prep/nodes.cpp:308-322 [AtomicStoreImpl] *)
Definition AtomicStoreImpl (T : IntType) (N : nstate) (dstAddr : Z) (data : list Z) : outcome (nstate * option reply) :=
  let! dstNativePtr := getNativeAddress (n_host N) dstAddr in
  let! m := atomic_store_n (n_mem N) T dstNativePtr (operand T 0 data) in
  Done (with_mem N m, Some sendAck).
(** src/pando-rt/src/prep/nodes.cpp:325-334 [handleAtomicStore] *)
Definition handleAtomicStore : handler := fun N buffer _ _ =>
  let '(dstAddr, dataType, srcData) := unpack2 buffer in
  dataTypeDispatch (DataType_of_Z (i64 dataType)) (fun T => AtomicStoreImpl T N dstAddr srcData).

(** src/pando-rt/src/prep/nodes.cpp:337-354 [AtomicCompareExchangeImpl] *)
Definition AtomicCompareExchangeImpl (T : IntType) (N : nstate) (dstAddr : Z) (data : list Z) : outcome (nstate * option reply) :=
  let! dstNativePtr := getNativeAddress (n_host N) dstAddr in
  let expected := operand T 0 data in
  let desired := operand T 1 data in
  let! (_, expected, m) := atomic_compare_exchange (n_mem N) T dstNativePtr expected desired in
  let! r := sendValue T expected in Done (with_mem N m, Some r).
(** src/pando-rt/src/prep/nodes.cpp:357-366 [handleAtomicCompareExchange] *)
Definition handleAtomicCompareExchange : handler := fun N buffer _ _ =>
  let '(dstAddr, dataType, srcData) := unpack2 buffer in
  dataTypeDispatch (DataType_of_Z (i64 dataType)) (fun T => AtomicCompareExchangeImpl T N dstAddr srcData).

(** src/pando-rt/src/prep/nodes.cpp:369-383 [AtomicIncImpl] *)
Definition AtomicIncImpl (T : IntType) (N : nstate) (dstAddr : Z) (data : list Z) : outcome (nstate * option reply) :=
  let! dstNativePtr := getNativeAddress (n_host N) dstAddr in
  let! (_, m) := atomic_fetch_add (n_mem N) T dstNativePtr (operand T 0 data) in
  Done (with_mem N m, Some sendAck).
(** src/pando-rt/src/prep/nodes.cpp:386-394 [handleAtomicInc] *)
Definition handleAtomicInc : handler := fun N buffer _ _ =>
  let '(dstAddr, dataType, srcData) := unpack2 buffer in
  dataTypeDispatch (DataType_of_Z (i64 dataType)) (fun T => AtomicIncImpl T N dstAddr srcData).

(** src/pando-rt/src/prep/nodes.cpp:397-411 [AtomicDecImpl] *)
Definition AtomicDecImpl (T : IntType) (N : nstate) (dstAddr : Z) (data : list Z) : outcome (nstate * option reply) :=
  let! dstNativePtr := getNativeAddress (n_host N) dstAddr in
  let! (_, m) := atomic_fetch_sub (n_mem N) T dstNativePtr (operand T 0 data) in
  Done (with_mem N m, Some sendAck).
(** src/pando-rt/src/prep/nodes.cpp:414-422 [handleAtomicDec] *)
Definition handleAtomicDec : handler := fun N buffer _ _ =>
  let '(dstAddr, dataType, srcData) := unpack2 buffer in
  dataTypeDispatch (DataType_of_Z (i64 dataType)) (fun T => AtomicDecImpl T N dstAddr srcData).

(** src/pando-rt/src/prep/nodes.cpp:425-439 [AtomicFetchAddImpl] *)
Definition AtomicFetchAddImpl (T : IntType) (N : nstate) (dstAddr : Z) (data : list Z) : outcome (nstate * option reply) :=
  let! dstNativePtr := getNativeAddress (n_host N) dstAddr in
  let! (retValue, m) := atomic_fetch_add (n_mem N) T dstNativePtr (operand T 0 data) in
  let! r := sendValue T retValue in Done (with_mem N m, Some r).
(** src/pando-rt/src/prep/nodes.cpp:442-451 [handleAtomicFetchAdd] *)
Definition handleAtomicFetchAdd : handler := fun N buffer _ _ =>
  let '(dstAddr, dataType, srcData) := unpack2 buffer in
  dataTypeDispatch (DataType_of_Z (i64 dataType)) (fun T => AtomicFetchAddImpl T N dstAddr srcData).

(** src/pando-rt/src/prep/nodes.cpp:454-468 [AtomicFetchSubImpl] *)
Definition AtomicFetchSubImpl (T : IntType) (N : nstate) (dstAddr : Z) (data : list Z) : outcome (nstate * option reply) :=
  let! dstNativePtr := getNativeAddress (n_host N) dstAddr in
  let! (retValue, m) := atomic_fetch_sub (n_mem N) T dstNativePtr (operand T 0 data) in
  let! r := sendValue T retValue in Done (with_mem N m, Some r).
(** src/pando-rt/src/prep/nodes.cpp:471-480 [handleAtomicFetchSub] *)
Definition handleAtomicFetchSub : handler := fun N buffer _ _ =>
  let '(dstAddr, dataType, srcData) := unpack2 buffer in
  dataTypeDispatch (DataType_of_Z (i64 dataType)) (fun T => AtomicFetchSubImpl T N dstAddr srcData).

(** src/pando-rt/src/prep/nodes.cpp:483-493 [handleLoadAck] *)
Definition handleLoadAck : handler := fun N buffer hi lo =>
  let! N' := load_setReady N (unpackPtr hi lo) buffer in Done (N', None).
(** src/pando-rt/src/prep/nodes.cpp:496-505 [handleAck] *)
Definition handleAck : handler := fun N _ hi lo =>
  let! N' := ack_setReady N (unpackPtr hi lo) in Done (N', None).
(** src/pando-rt/src/prep/nodes.cpp:508-518 [handleValueAck] *)
Definition handleValueAck : handler := fun N buffer hi lo =>
  let! N' := value_setReady N (unpackPtr hi lo) buffer in Done (N', None).

(** src/pando-rt/src/prep/nodes.cpp:151-185 [htable]; generic requests run a task and are modelled with the tasks *)
Definition htable (t : AMType) : handler :=
  match t with
  | GenericRequest => fun _ _ _ _ => Failed (Unimplemented "generic request")
  | Load => handleLoad | Store => handleStore
  | AtomicLoad => handleAtomicLoad | AtomicStore => handleAtomicStore
  | AtomicCompareExchange => handleAtomicCompareExchange
  | AtomicIncrement => handleAtomicInc | AtomicDecrement => handleAtomicDec
  | AtomicFetchAdd => handleAtomicFetchAdd | AtomicFetchSub => handleAtomicFetchSub
  | LoadAck => handleLoadAck | Ack => handleAck | ValueAck => handleValueAck
  end.
End Handlers.
End Handlers.
Import Handlers.

(** ** Sending a request *)

(** A message: its destination and source (as positions in the list of nodes), its kind, its payload and its two arguments. *)
Record message := mkMsg { m_to : nat; m_from : nat; m_type : AMType; m_payload : list Z; m_hi : Z; m_lo : Z }.

Module Nodes.
Section Nodes.
Context `{Gasnet}.
(** The number of nodes; the node the code runs on; whether GASNet has a buffer for the next request. *)
Context (getNodeDims : NodeIndex) (here : nat) (buffer_ok : bool).

(** src/pando-rt/src/prep/nodes.cpp:603-631 [requestAcquire]; [numArgs] is 0 for a generic request, 2 in the requests below *)
Definition requestAcquire (nodeIdx : NodeIndex) (requestSize numArgs : Z) : Status :=
  if negb (node_ltb nodeIdx getNodeDims) then OutOfBounds else
  let maxMediumRequest := MaxRequestMedium nodeIdx numArgs in
  if maxMediumRequest <? requestSize then BadAlloc else
  if negb buffer_ok then BadAlloc else Success.

(** Send [payload] to [nodeIdx] when a buffer was acquired. *)
Definition commit (status : Status) (nodeIdx : NodeIndex) (t : AMType) (payload : list Z) (handlePtr : Z) : Status * option message :=
  match status with
  | Success => (Success, Some (mkMsg (Z.to_nat (node_id nodeIdx)) here t payload (fst (packPtr handlePtr)) (snd (packPtr handlePtr))))
  | _ => (status, None)
  end.

(** src/pando-rt/src/prep/nodes.cpp:639-678 [load] *)
Definition load (nodeIdx : NodeIndex) (srcAddr n : Z) (handle : Z) : Status * option message :=
  let t := [(8, srcAddr); (8, n)]%nat in
  commit (requestAcquire nodeIdx (packedSize t) 2) nodeIdx Load (pack t) handle.

(** src/pando-rt/src/prep/nodes.cpp:680-721 [store]; the data is read from the node's memory once there is a buffer for it *)
Definition store (m : bytemem) (nodeIdx : NodeIndex) (dstAddr n srcPtr : Z) (handle : Z) : outcome (Status * option message) :=
  let t := [(8%nat, dstAddr)] in
  let requestSize := u64 (packedSize t + n) in
  match requestAcquire nodeIdx requestSize 2 with
  | Success => let! srcData := read_bytes m srcPtr n in Done (commit Success nodeIdx Store (pack t ++ srcData) handle)
  | status => Done (status, None)
  end.

(** The value of [DataTypeTraits<T>::dataType] in a payload. *)
Definition dataType (T : IntType) : nat * Z := (8%nat, DataType_to_Z (DataTypeTraits T)).

(** src/pando-rt/src/prep/nodes.cpp:723-765 [atomicLoad] *)
Definition atomicLoad (T : IntType) (nodeIdx : NodeIndex) (srcAddr : Z) (handle : Z) : Status * option message :=
  let t := [(8%nat, srcAddr); dataType T] in
  commit (requestAcquire nodeIdx (packedSize t) 2) nodeIdx AtomicLoad (pack t) handle.
(** src/pando-rt/src/prep/nodes.cpp:767-809 [atomicStore] *)
Definition atomicStore (T : IntType) (nodeIdx : NodeIndex) (dstAddr value : Z) (handle : Z) : Status * option message :=
  let t := [(8%nat, dstAddr); dataType T; (sizeof T, value)] in
  commit (requestAcquire nodeIdx (packedSize t) 2) nodeIdx AtomicStore (pack t) handle.
(** src/pando-rt/src/prep/nodes.cpp:811-855 [atomicCompareExchange] *)
Definition atomicCompareExchange (T : IntType) (nodeIdx : NodeIndex) (dstAddr expected desired : Z) (handle : Z) : Status * option message :=
  let t := [(8%nat, dstAddr); dataType T; (sizeof T, expected); (sizeof T, desired)] in
  commit (requestAcquire nodeIdx (packedSize t) 2) nodeIdx AtomicCompareExchange (pack t) handle.
(** src/pando-rt/src/prep/nodes.cpp:857-900 [atomicIncrement] *)
Definition atomicIncrement (T : IntType) (nodeIdx : NodeIndex) (dstAddr value : Z) (handle : Z) : Status * option message :=
  let t := [(8%nat, dstAddr); dataType T; (sizeof T, value)] in
  commit (requestAcquire nodeIdx (packedSize t) 2) nodeIdx AtomicIncrement (pack t) handle.
(** src/pando-rt/src/prep/nodes.cpp:902-945 [atomicDecrement] *)
Definition atomicDecrement (T : IntType) (nodeIdx : NodeIndex) (dstAddr value : Z) (handle : Z) : Status * option message :=
  let t := [(8%nat, dstAddr); dataType T; (sizeof T, value)] in
  commit (requestAcquire nodeIdx (packedSize t) 2) nodeIdx AtomicDecrement (pack t) handle.
(** src/pando-rt/src/prep/nodes.cpp:947-990 [atomicFetchAdd] *)
Definition atomicFetchAdd (T : IntType) (nodeIdx : NodeIndex) (dstAddr value : Z) (handle : Z) : Status * option message :=
  let t := [(8%nat, dstAddr); dataType T; (sizeof T, value)] in
  commit (requestAcquire nodeIdx (packedSize t) 2) nodeIdx AtomicFetchAdd (pack t) handle.
(** src/pando-rt/src/prep/nodes.cpp:992-1035 [atomicFetchSub] *)
Definition atomicFetchSub (T : IntType) (nodeIdx : NodeIndex) (dstAddr value : Z) (handle : Z) : Status * option message :=
  let t := [(8%nat, dstAddr); dataType T; (sizeof T, value)] in
  commit (requestAcquire nodeIdx (packedSize t) 2) nodeIdx AtomicFetchSub (pack t) handle.
End Nodes.
End Nodes.

(** ** What the owner of the memory promises

    A request as the values it stands for, and what serving it does: one access to the owner's memory, one answer. *)

Module Service.

Inductive request :=
| QLoad (a n : Z) | QStore (a : Z) (data : list Z)
| QAtomicLoad (T : IntType) (a : Z) | QAtomicStore (T : IntType) (a v : Z)
| QCompareExchange (T : IntType) (a expected desired : Z)
| QIncrement (T : IntType) (a v : Z) | QDecrement (T : IntType) (a v : Z)
| QFetchAdd (T : IntType) (a v : Z) | QFetchSub (T : IntType) (a v : Z).

Inductive answer := AData (data : list Z) | ADone | AValue (T : IntType) (v : Z).

Definition address (q : request) : Z :=
  match q with
  | QLoad a _ | QStore a _ | QAtomicLoad _ a | QAtomicStore _ a _ | QCompareExchange _ a _ _ | QIncrement _ a _
  | QDecrement _ a _ | QFetchAdd _ a _ | QFetchSub _ a _ => a
  end.

Definition request_ok (q : request) : Prop :=
  inU 64 (address q) /\
  match q with
  | QLoad _ n => inU 64 n
  | QStore _ data => 8 + Z.of_nat (length data) < 2 ^ 64
  | QAtomicLoad _ _ => True
  | QCompareExchange T _ e d => has_type T e /\ has_type T d
  | QAtomicStore T _ v | QIncrement T _ v | QDecrement T _ v | QFetchAdd T _ v | QFetchSub T _ v => has_type T v
  end.

Section Service.
Context `{GL : GasnetLaws}.

(** The access at the owner, whose memory is [m] under the layout [L], and the answer. *)
Definition serve (L : host) (m : bytemem) (q : request) : outcome (bytemem * answer) :=
  let! p := getNativeAddress L (address q) in
  match q with
  | QLoad _ n =>
      let! _ := guard_or (n <=? MaxReplyMedium) too_large in
      let! data := read_bytes m p n in Done (m, AData data)
  | QStore _ data => let! m := write_bytes m p data in Done (m, ADone)
  | QAtomicLoad T _ => let! v := atomic_load_n m T p in Done (m, AValue T v)
  | QAtomicStore T _ v => let! m := atomic_store_n m T p v in Done (m, ADone)
  | QCompareExchange T _ e d => let! (_, old, m) := atomic_compare_exchange m T p e d in Done (m, AValue T old)
  | QIncrement T _ v => let! (_, m) := atomic_fetch_add m T p v in Done (m, ADone)
  | QDecrement T _ v => let! (_, m) := atomic_fetch_sub m T p v in Done (m, ADone)
  | QFetchAdd T _ v => let! (old, m) := atomic_fetch_add m T p v in Done (m, AValue T old)
  | QFetchSub T _ v => let! (old, m) := atomic_fetch_sub m T p v in Done (m, AValue T old)
  end.

(** The message of a request. *)
Definition encode (q : request) : AMType * list Z :=
  match q with
  | QLoad a n => (Load, pack [(8, a); (8, n)]%nat)
  | QStore a data => (Store, pack [(8%nat, a)] ++ data)
  | QAtomicLoad T a => (AtomicLoad, pack [(8%nat, a); Nodes.dataType T])
  | QAtomicStore T a v => (AtomicStore, pack [(8%nat, a); Nodes.dataType T; (sizeof T, v)])
  | QCompareExchange T a e d => (AtomicCompareExchange, pack [(8%nat, a); Nodes.dataType T; (sizeof T, e); (sizeof T, d)])
  | QIncrement T a v => (AtomicIncrement, pack [(8%nat, a); Nodes.dataType T; (sizeof T, v)])
  | QDecrement T a v => (AtomicDecrement, pack [(8%nat, a); Nodes.dataType T; (sizeof T, v)])
  | QFetchAdd T a v => (AtomicFetchAdd, pack [(8%nat, a); Nodes.dataType T; (sizeof T, v)])
  | QFetchSub T a v => (AtomicFetchSub, pack [(8%nat, a); Nodes.dataType T; (sizeof T, v)])
  end.

Definition encode_answer (a : answer) : reply :=
  match a with AData data => (LoadAck, data) | ADone => (Ack, []) | AValue T v => (ValueAck, bytes (sizeof T) v) end.

(** The kind of answer a request gets. *)
Definition answers (q : request) (a : answer) : Prop :=
  match q, a with
  | QLoad _ n, AData data => length data = Z.to_nat n
  | (QStore _ _ | QAtomicStore _ _ _ | QIncrement _ _ _ | QDecrement _ _ _), ADone => True
  | (QAtomicLoad T _ | QCompareExchange T _ _ _ | QFetchAdd T _ _ | QFetchSub T _ _), AValue T' v => T' = T /\ has_type T v
  | _, _ => False
  end.

Lemma unpack2_pack a d rest : inU 64 a ->
  unpack2 (pack [(8, a); (8, d)]%nat ++ rest) = (a, u64 d, rest).
Proof.
  intros Ha. unfold unpack2. change [8; 8]%nat with (fst <$> [(8, a); (8, d)]%nat). rewrite unpack_pack.
  cbn [fmap list_fmap fst snd]. change (8 * Z.of_nat 8) with 64. by rewrite (wrapU_id 64 a).
Qed.

Lemma pack_app s t : pack (s ++ t) = pack s ++ pack t.
Proof. unfold pack. by rewrite fmap_app, concat_app. Qed.

Lemma unpack2_typed a T t : inU 64 a ->
  unpack2 (pack ((8%nat, a) :: Nodes.dataType T :: t)) = (a, u64 (DataType_to_Z (DataTypeTraits T)), pack t).
Proof. intros Ha. change (?x :: ?y :: t) with ([x; y] ++ t). rewrite pack_app. by apply unpack2_pack. Qed.

Lemma operand_0 T v t : has_type T v -> operand T 0 (pack ((sizeof T, v) :: t)) = v.
Proof.
  intros E. unfold operand. rewrite drop_0. change (?x :: t) with ([x] ++ t). rewrite pack_app.
  change (pack [(sizeof T, v)]) with (bytes (sizeof T) v ++ []). rewrite app_nil_r.
  rewrite take_app_length' by (by rewrite bytes_length). by rewrite cast_bytes.
Qed.

Lemma operand_1 T e d : has_type T d -> operand T 1 (pack [(sizeof T, e); (sizeof T, d)]) = d.
Proof.
  intros E. unfold operand. change (pack _) with (bytes (sizeof T) e ++ (bytes (sizeof T) d ++ [])).
  rewrite Nat.mul_1_l, app_nil_r, drop_app_length' by (by rewrite bytes_length).
  rewrite take_ge by (by rewrite bytes_length). by rewrite cast_bytes.
Qed.

Lemma sendValue_ok T v : sendValue T v = Done (ValueAck, bytes (sizeof T) v).
Proof.
  unfold sendValue. pose proof (sizeof_range T). pose proof reply_least.
  destruct (Z.leb_spec (Z.of_nat (sizeof T)) MaxReplyMedium); [done|lia].
Qed.

Lemma with_mem_same N : with_mem N (n_mem N) = N.
Proof. by destruct N. Qed.

(** A handler serves the request its message stands for. *)
Lemma htable_serve N q hi lo : request_ok q ->
  htable (fst (encode q)) N (snd (encode q)) hi lo =
  let! (m, a) := serve (n_host N) (n_mem N) q in Done (with_mem N m, Some (encode_answer a)).
Proof.
  intros [Ha Hq]. destruct q as [a n|a data|T a|T a v|T a e d|T a v|T a v|T a v|T a v]; cbn [address] in *;
    unfold serve; cbn [encode fst snd htable address].
  1: { unfold handleLoad. rewrite <- (app_nil_r (pack _)), unpack2_pack by done. rewrite (wrapU_id 64 n) by done.
    destruct (getNativeAddress _ a) as [p|]; [|done]. cbn [bindo]. destruct (n <=? MaxReplyMedium); [|done].
    cbn [guard_or bindo]. destruct (read_bytes _ _ _); [|done]. cbn. by rewrite with_mem_same. }
  1: { unfold handleStore. change [8%nat] with (fst <$> [(8%nat, a)]). rewrite unpack_pack.
    change (default 0 (head ((fun f : nat * Z => wrapU (8 * Z.of_nat (fst f)) (snd f)) <$> [(8%nat, a)]))) with (u64 a).
    rewrite (wrapU_id 64 a) by done.
    assert (u64 (Z.of_nat (length (pack [(8%nat, a)] ++ data)) - packedSize [(8%nat, a)]) = Z.of_nat (length data)) as ->.
    { rewrite length_app, Nat2Z.inj_add, pack_length. change (packedSize _) with 8. cbn [foldr fst].
      replace (Z.of_nat 8 + 0 + Z.of_nat (length data) - 8) with (Z.of_nat (length data)) by lia. apply wrapU_id. unfold inU. lia. }
    rewrite Nat2Z.id, firstn_all. destruct (getNativeAddress _ a); [|done]. cbn [bindo]. by destruct (write_bytes _ _ _). }
  1: unfold handleAtomicLoad. 2: unfold handleAtomicStore. 3: unfold handleAtomicCompareExchange. 4: unfold handleAtomicInc.
  5: unfold handleAtomicDec. 6: unfold handleAtomicFetchAdd. 7: unfold handleAtomicFetchSub.
  all: rewrite unpack2_typed, dispatch_traits by done.
  1: unfold AtomicLoadImpl. 2: unfold AtomicStoreImpl. 3: unfold AtomicCompareExchangeImpl. 4: unfold AtomicIncImpl.
  5: unfold AtomicDecImpl. 6: unfold AtomicFetchAddImpl. 7: unfold AtomicFetchSubImpl.
  all: destruct (getNativeAddress _ a) as [p|]; [|done]; cbn [bindo]; try rewrite operand_0 by (apply Hq).
  1: { destruct (atomic_load_n _ _ _); [|done]. cbn [bindo]. rewrite sendValue_ok. cbn. by rewrite with_mem_same. }
  1: by destruct (atomic_store_n _ _ _ _).
  1: { rewrite operand_1 by apply Hq. destruct (atomic_compare_exchange _ _ _ _ _) as [[[? ?] ?]|]; [|done].
    cbn [bindo]. by rewrite sendValue_ok. }
  all: first [destruct (atomic_fetch_add _ _ _ _) as [[? ?]|] | destruct (atomic_fetch_sub _ _ _ _) as [[? ?]|]]; [|done];
    cbn [bindo]; try rewrite sendValue_ok; done.
Qed.

Lemma serve_answers L m q m' a : request_ok q -> serve L m q = Done (m', a) -> answers q a.
Proof.
  intros [_ Hq] E. unfold serve in E. outcome_inv.
  destruct q; outcome_inv;
    repeat match goal with
      | H : context [let '(_, _) := ?x in _] |- _ => destruct x; outcome_inv
      | H : (_, _) = (_, _) |- _ => injection H; clear H; intros; subst
      end; cbn [answers]; try exact I.
  all: try (split; [done|]).
  all: try (by eapply read_bytes_length); try (by eapply atomic_load_type).
  all: unfold atomic_compare_exchange, atomic_fetch_add, atomic_fetch_sub in *; outcome_inv;
    repeat match goal with
      | H : context [if ?b then _ else _] |- _ => destruct b; outcome_inv
      | H : (_, _) = (_, _) |- _ => injection H; clear H; intros; subst
      end; try tauto; by eapply atomic_load_type.
Qed.
End Service.
End Service.
