(* ===== verification/RemoteMemory.v ===== *)
(** * Global memory operations over several nodes

    The PREP branches of the loads, stores and bulk copies of [pando-rt/src/global_ptr.cpp] and of the atomics of
    [pando-rt/src/atomic.cpp], run by the harts of several nodes over the active messages of [ActiveMessages].
    A hart that needs another node's memory sends a request and yields until its handle is ready; messages arrive in any order. *)

From S2P Require Import Prelude Addressing GlobalPtr NativeMemory ActiveMessages.
Import BitManip Index AddressMap NativeMemory DataTypes Access Packing Handles Handlers Service.

Module RemoteMemory.

(** ** The operations *)

(** What an operation returns: nothing, a value, or whether the exchange took place and the new value of [expected]. *)
Inductive result := RUnit | RValue (v : Z) | RExchange (ok : bool) (expected : Z).

(** An operation ends at once, with the memory and its result, or it waits on a handle for the answer to a request. *)
Definition started : Type := outcome (bytemem * result + handle * message).

Section Operations.
Context `{Gasnet}.
(** The number of nodes, the node the hart runs on, whether GASNet has a buffer for the next request; the layout of the node's
    memory, its bytes, and the address of the handle, a local variable of the hart. *)
Context (dims : NodeIndex) (here : nat) (buffer_ok : bool) (L : host) (m : bytemem) (hp : Z).

Definition getCurrentNode : NodeIndex := this_node L.
Definition is_local (a : Z) : bool := node_eqb (extractNodeIndex a) getCurrentNode.

(** Wait on [h] for the answer, or abort when the request was refused. *)
Definition await (h : handle) (r : Status * option message) (what : string) : started :=
  match r with (Success, Some msg) => Done (inr (h, msg)) | _ => Failed (Aborted what) end.

(** src/pando-rt/src/atomic.cpp:66-108 [atomicLoadImpl] (PREP) *)
Definition atomicLoadImpl (T : IntType) (ptr : Z) : started :=
  let nodeIdx := extractNodeIndex ptr in
  if node_eqb nodeIdx getCurrentNode then
    let! srcNativePtr := getNativeAddress L ptr in
    let! value := atomic_load_n m T srcNativePtr in Done (inl (m, RValue value))
  else await (ValueHandle T None false) (Nodes.atomicLoad dims here buffer_ok T nodeIdx ptr hp) "Remote operation error".

(** src/pando-rt/src/atomic.cpp:133-171 [atomicStoreImpl] (PREP) *)
Definition atomicStoreImpl (T : IntType) (ptr value : Z) : started :=
  let nodeIdx := extractNodeIndex ptr in
  if node_eqb nodeIdx getCurrentNode then
    let! dstNativePtr := getNativeAddress L ptr in
    let! m' := atomic_store_n m T dstNativePtr value in Done (inl (m', RUnit))
  else await (AckHandle false) (Nodes.atomicStore dims here buffer_ok T nodeIdx ptr value hp) "Remote operation error".

(** src/pando-rt/src/atomic.cpp:196-238 [atomicCompareExchangeImpl] (PREP), up to the wait *)
Definition atomicCompareExchangeImpl (T : IntType) (ptr expected desired : Z) : started :=
  let nodeIdx := extractNodeIndex ptr in
  if node_eqb nodeIdx getCurrentNode then
    let! nativePtr := getNativeAddress L ptr in
    let! (ok, expected, m') := atomic_compare_exchange m T nativePtr expected desired in Done (inl (m', RExchange ok expected))
  else await (ValueHandle T None false) (Nodes.atomicCompareExchange dims here buffer_ok T nodeIdx ptr expected desired hp)
    "Remote operation error".
(** src/pando-rt/src/atomic.cpp:239-250 [atomicCompareExchangeImpl] (PREP), after the wait *)
Definition atomicCompareExchange_finish (expected : Z) (h : handle) : outcome result :=
  let! v := value h in if v =? expected then Done (RExchange true expected) else Done (RExchange false v).

(** src/pando-rt/src/atomic.cpp:311-347 [atomicIncrementImpl] (PREP) *)
Definition atomicIncrementImpl (T : IntType) (ptr value : Z) : started :=
  let nodeIdx := extractNodeIndex ptr in
  if node_eqb nodeIdx getCurrentNode then
    let! nativePtr := getNativeAddress L ptr in
    let! (_, m') := atomic_fetch_add m T nativePtr value in Done (inl (m', RUnit))
  else await (AckHandle false) (Nodes.atomicIncrement dims here buffer_ok T nodeIdx ptr value hp) "Remote operation error".

(** src/pando-rt/src/atomic.cpp:381-417 [atomicDecrementImpl] (PREP) *)
Definition atomicDecrementImpl (T : IntType) (ptr value : Z) : started :=
  let nodeIdx := extractNodeIndex ptr in
  if node_eqb nodeIdx getCurrentNode then
    let! nativePtr := getNativeAddress L ptr in
    let! (_, m') := atomic_fetch_sub m T nativePtr value in Done (inl (m', RUnit))
  else await (AckHandle false) (Nodes.atomicDecrement dims here buffer_ok T nodeIdx ptr value hp) "Remote operation error".

(** src/pando-rt/src/atomic.cpp:451-490 [atomicFetchAddImpl] (PREP) *)
Definition atomicFetchAddImpl (T : IntType) (ptr value : Z) : started :=
  let nodeIdx := extractNodeIndex ptr in
  if node_eqb nodeIdx getCurrentNode then
    let! nativePtr := getNativeAddress L ptr in
    let! (old, m') := atomic_fetch_add m T nativePtr value in Done (inl (m', RValue old))
  else await (ValueHandle T None false) (Nodes.atomicFetchAdd dims here buffer_ok T nodeIdx ptr value hp) "Remote operation error".

(** src/pando-rt/src/atomic.cpp:525-565 [atomicFetchSubImpl] (PREP) *)
Definition atomicFetchSubImpl (T : IntType) (ptr value : Z) : started :=
  let nodeIdx := extractNodeIndex ptr in
  if node_eqb nodeIdx getCurrentNode then
    let! nativePtr := getNativeAddress L ptr in
    let! (old, m') := atomic_fetch_sub m T nativePtr value in Done (inl (m', RValue old))
  else await (ValueHandle T None false) (Nodes.atomicFetchSub dims here buffer_ok T nodeIdx ptr value hp) "Remote operation error".

(** src/pando-rt/src/global_ptr.cpp:124-153 [load] (PREP) *)
Definition load (srcGlobalAddr n dstNativePtr : Z) : started :=
  let nodeIdx := extractNodeIndex srcGlobalAddr in
  if node_eqb nodeIdx getCurrentNode then
    let! srcNativePtr := getNativeAddress L srcGlobalAddr in
    let! m' := memcpy m dstNativePtr srcNativePtr n in Done (inl (m', RUnit))
  else await (LoadHandle false dstNativePtr) (Nodes.load dims here buffer_ok nodeIdx srcGlobalAddr n hp) "Load error".

(** src/pando-rt/src/global_ptr.cpp:196-227 [store] (PREP) *)
Definition store (dstGlobalAddr n srcNativePtr : Z) : started :=
  let nodeIdx := extractNodeIndex dstGlobalAddr in
  if node_eqb nodeIdx getCurrentNode then
    let! dstNativePtr := getNativeAddress L dstGlobalAddr in
    let! m' := memcpy m dstNativePtr srcNativePtr n in Done (inl (m', RUnit))
  else let! r := Nodes.store dims here buffer_ok m nodeIdx dstGlobalAddr n srcNativePtr hp in
    await (AckHandle false) r "Store error".

(** src/pando-rt/src/global_ptr.cpp:297-352 [bulkMemcpy] (PREP) *)
Definition bulkMemcpy (srcGlobalAddr n dstGlobalAddr : Z) : started :=
  let nodeIdxDst := extractNodeIndex dstGlobalAddr in
  let nodeIdxSrc := extractNodeIndex srcGlobalAddr in
  if node_eqb nodeIdxDst getCurrentNode && node_eqb nodeIdxSrc getCurrentNode then
    let! dstNativePtr := getNativeAddress L dstGlobalAddr in
    let! srcNativePtr := getNativeAddress L srcGlobalAddr in
    let! m' := memcpy m dstNativePtr srcNativePtr n in Done (inl (m', RUnit))
  else if node_eqb nodeIdxSrc getCurrentNode then
    let! srcNativePtr := getNativeAddress L srcGlobalAddr in
    let! r := Nodes.store dims here buffer_ok m nodeIdxDst dstGlobalAddr n srcNativePtr hp in
    await (AckHandle false) r "Store error"
  else if node_eqb nodeIdxDst getCurrentNode then
    let! dstNativePtr := getNativeAddress L dstGlobalAddr in
    await (LoadHandle false dstNativePtr) (Nodes.load dims here buffer_ok nodeIdxSrc srcGlobalAddr n hp) "Load error"
  else Failed (Aborted "This case should not occur").
End Operations.

(** An operation and its arguments. *)
Inductive op :=
| OLoad (src n dst : Z) | OStore (dst n src : Z) | OBulkMemcpy (src n dst : Z)
| OAtomicLoad (T : IntType) (ptr : Z) | OAtomicStore (T : IntType) (ptr v : Z)
| OCompareExchange (T : IntType) (ptr expected desired : Z)
| OIncrement (T : IntType) (ptr v : Z) | ODecrement (T : IntType) (ptr v : Z)
| OFetchAdd (T : IntType) (ptr v : Z) | OFetchSub (T : IntType) (ptr v : Z).

(** Arguments of the C++ types. *)
Definition op_ok (o : op) : Prop :=
  match o with
  | OLoad a n _ => inU 64 a /\ inU 64 n
  | OStore a n _ => inU 64 a /\ 0 <= n < 2 ^ 63
  | OBulkMemcpy s n d => inU 64 s /\ inU 64 d /\ 0 <= n < 2 ^ 63
  | OAtomicLoad _ a => inU 64 a
  | OCompareExchange T a e d => inU 64 a /\ has_type T e /\ has_type T d
  | OAtomicStore T a v | OIncrement T a v | ODecrement T a v | OFetchAdd T a v | OFetchSub T a v => inU 64 a /\ has_type T v
  end.

Section Start.
Context `{Gasnet} (dims : NodeIndex) (here : nat) (buffer_ok : bool).

(** A hart of the node calls the operation. *)
Definition start (L : host) (m : bytemem) (o : op) (hp : Z) : started :=
  match o with
  | OLoad a n d => load dims here buffer_ok L m hp a n d
  | OStore a n s => store dims here buffer_ok L m hp a n s
  | OBulkMemcpy s n d => bulkMemcpy dims here buffer_ok L m hp s n d
  | OAtomicLoad T a => atomicLoadImpl dims here buffer_ok L m hp T a
  | OAtomicStore T a v => atomicStoreImpl dims here buffer_ok L m hp T a v
  | OCompareExchange T a e d => atomicCompareExchangeImpl dims here buffer_ok L m hp T a e d
  | OIncrement T a v => atomicIncrementImpl dims here buffer_ok L m hp T a v
  | ODecrement T a v => atomicDecrementImpl dims here buffer_ok L m hp T a v
  | OFetchAdd T a v => atomicFetchAddImpl dims here buffer_ok L m hp T a v
  | OFetchSub T a v => atomicFetchSubImpl dims here buffer_ok L m hp T a v
  end.

(** The handle is ready: the operation returns. *)
Definition finish (o : op) (h : handle) : outcome result :=
  match o with
  | OAtomicLoad _ _ | OFetchAdd _ _ _ | OFetchSub _ _ _ => let! v := value h in Done (RValue v)
  | OCompareExchange _ _ e _ => atomicCompareExchange_finish e h
  | _ => Done RUnit
  end.
End Start.

(** ** The nodes and the network *)

(** The nodes, the messages under way, and the operations that wait, by node and address of the handle. *)
Record world := mkW { w_nodes : list nstate; w_net : list message; w_waiting : gmap (nat * Z) op }.

(** A hart of node [i] calls an operation, with its handle at [hp]; the [j]-th message under way arrives; the hart that waits
    on the handle at [hp] sees it ready and returns. *)
Inductive event := Issue (i : nat) (o : op) (hp : Z) (buffer_ok : bool) | Deliver (j : nat) | Return (i : nat) (hp : Z).

Section World.
Context `{Gasnet}.

(** One event, if it can happen: the world afterwards and the result of an operation that ended. *)
Definition step (w : world) (e : event) : option (outcome (world * option result)) :=
  let dims := mkNode (Z.of_nat (length (w_nodes w))) in
  match e with
  | Issue i o hp buffer_ok =>
      let? N := w_nodes w !! i in
      match w_waiting w !! (i, hp) with
      | Some _ => None
      | None => Some (let! r := start dims i buffer_ok (n_host N) (n_mem N) o hp in
          match r with
          | inl (m, r) => Done (mkW (<[i := with_mem N m]> (w_nodes w)) (w_net w) (w_waiting w), Some r)
          | inr (h, msg) => Done (mkW (<[i := with_handle N hp h]> (w_nodes w)) (msg :: w_net w) (<[(i, hp) := o]> (w_waiting w)), None)
          end)
      end
  | Deliver j =>
      let? msg := w_net w !! j in
      let? N := w_nodes w !! m_to msg in
      Some (let! (N', r) := htable (m_type msg) N (m_payload msg) (m_hi msg) (m_lo msg) in
        let net := delete j (w_net w) in
        Done (mkW (<[m_to msg := N']> (w_nodes w))
                (match r with Some (t, data) => mkMsg (m_from msg) (m_to msg) t data (m_hi msg) (m_lo msg) :: net | None => net end)
                (w_waiting w), None))
  | Return i hp =>
      let? N := w_nodes w !! i in
      let? o := w_waiting w !! (i, hp) in
      let? h := n_handles N !! hp in
      if ready h then
        Some (let! r := finish o h in
          Done (mkW (<[i := without_handle N hp]> (w_nodes w)) (w_net w) (delete (i, hp) (w_waiting w)), Some r))
      else None
  end.

(** A sequence of events and the results of the operations that ended, in order. *)
Fixpoint run (w : world) (es : list event) : option (outcome (world * list result)) :=
  match es with
  | [] => Some (Done (w, []))
  | e :: es =>
      match step w e with
      | None => None
      | Some (Failed err) => Some (Failed err)
      | Some (Done (w', r)) =>
          match run w' es with
          | Some (Done (w'', rs)) => Some (Done (w'', option_list r ++ rs))
          | x => x
          end
      end
  end.
End World.

(** ** What the operations promise

    An operation on another node's memory is a call in three phases: its request is under way; the owner has made the one
    access to its memory; the answer has arrived (for a load, that is when the data reaches the caller's memory).  Then
    the operation can return. *)

Inductive phase := Sent | Executed (a : answer) | Arrived (a : answer).

(** A call: the operation, the request it stands for, where the data of a load goes, and its phase. *)
Record call := mkCall { c_op : op; c_req : request; c_dst : Z; c_phase : phase }.

Definition owner (q : request) : nat := Z.to_nat (node_id (extractNodeIndex (address q))).

(** The memory of each node under its layout, and the calls. *)
Record sworld := mkS { s_nodes : list (host * bytemem); s_calls : gmap (nat * Z) call }.

(** What a hart that runs on the layout [L] with the memory [m] asks for with [o]. *)
Definition plan (L : host) (m : bytemem) (o : op) : outcome (request * Z) :=
  match o with
  | OLoad a n d => Done (QLoad a n, d)
  | OStore a n s => let! data := read_bytes m s n in Done (QStore a data, 0)
  | OBulkMemcpy s n d =>
      if is_local L s && negb (is_local L d)
      then let! p := getNativeAddress L s in let! data := read_bytes m p n in Done (QStore d data, 0)
      else let! p := getNativeAddress L d in Done (QLoad s n, p)
  | OAtomicLoad T a => Done (QAtomicLoad T a, 0)
  | OAtomicStore T a v => Done (QAtomicStore T a v, 0)
  | OCompareExchange T a e d => Done (QCompareExchange T a e d, 0)
  | OIncrement T a v => Done (QIncrement T a v, 0)
  | ODecrement T a v => Done (QDecrement T a v, 0)
  | OFetchAdd T a v => Done (QFetchAdd T a v, 0)
  | OFetchSub T a v => Done (QFetchSub T a v, 0)
  end.

(** The answer arrives in the caller's memory. *)
Definition arrive (m : bytemem) (dst : Z) (a : answer) : outcome bytemem :=
  match a with AData data => write_bytes m dst data | _ => Done m end.

(** The result of the operation given the answer. *)
Definition answered (o : op) (a : answer) : result :=
  match o, a with
  | OCompareExchange _ _ e _, AValue _ v => RExchange (v =? e) v
  | (OAtomicLoad _ _ | OFetchAdd _ _ _ | OFetchSub _ _ _), AValue _ v => RValue v
  | _, _ => RUnit
  end.

Inductive sevent := SIssue (i : nat) (o : op) (hp : Z) (buffer_ok : bool) | SExecute (k : nat * Z) | SArrive (k : nat * Z)
| SReturn (k : nat * Z).

Section Spec.
Context `{Gasnet}.

Definition sstep (s : sworld) (e : sevent) : option (outcome (sworld * option result)) :=
  let dims := mkNode (Z.of_nat (length (s_nodes s))) in
  match e with
  | SIssue i o hp buffer_ok =>
      let? (L, m) := s_nodes s !! i in
      match s_calls s !! (i, hp) with
      | Some _ => None
      | None => Some (let! r := start dims i buffer_ok L m o hp in
          match r with
          | inl (m', r) => Done (mkS (<[i := (L, m')]> (s_nodes s)) (s_calls s), Some r)
          | inr _ => let! (q, dst) := plan L m o in
              Done (mkS (s_nodes s) (<[(i, hp) := mkCall o q dst Sent]> (s_calls s)), None)
          end)
      end
  | SExecute k =>
      let? c := s_calls s !! k in
      let? (L, m) := s_nodes s !! owner (c_req c) in
      match c_phase c with
      | Sent => Some (let! (m', a) := serve L m (c_req c) in
          Done (mkS (<[owner (c_req c) := (L, m')]> (s_nodes s))
                  (<[k := mkCall (c_op c) (c_req c) (c_dst c) (Executed a)]> (s_calls s)), None))
      | _ => None
      end
  | SArrive k =>
      let? c := s_calls s !! k in
      let? (L, m) := s_nodes s !! fst k in
      match c_phase c with
      | Executed a => Some (let! m' := arrive m (c_dst c) a in
          Done (mkS (<[fst k := (L, m')]> (s_nodes s))
                  (<[k := mkCall (c_op c) (c_req c) (c_dst c) (Arrived a)]> (s_calls s)), None))
      | _ => None
      end
  | SReturn k =>
      let? c := s_calls s !! k in
      match c_phase c with
      | Arrived a => Some (Done (mkS (s_nodes s) (delete k (s_calls s)), Some (answered (c_op c) a)))
      | _ => None
      end
  end.

Fixpoint srun (s : sworld) (es : list sevent) : option (outcome (sworld * list result)) :=
  match es with
  | [] => Some (Done (s, []))
  | e :: es =>
      match sstep s e with
      | None => None
      | Some (Failed err) => Some (Failed err)
      | Some (Done (s', r)) =>
          match srun s' es with
          | Some (Done (s'', rs)) => Some (Done (s'', option_list r ++ rs))
          | x => x
          end
      end
  end.
End Spec.

(** ** What a request looks like on its way *)

Section Simulation.
Context `{GL : GasnetLaws}.

Definition gives_value (q : request) : option IntType :=
  match q with QAtomicLoad T _ | QCompareExchange T _ _ _ | QFetchAdd T _ _ | QFetchSub T _ _ => Some T | _ => None end.
Definition wants_value (o : op) : option IntType :=
  match o with OAtomicLoad T _ | OCompareExchange T _ _ _ | OFetchAdd T _ _ | OFetchSub T _ _ => Some T | _ => None end.

Definition arrived (p : phase) : bool := match p with Arrived _ => true | _ => false end.
Definition stored (p : phase) : option Z := match p with Arrived (AValue _ v) => Some v | _ => None end.

(** The handle of a call. *)
Definition handle_of (c : call) : handle :=
  match c_req c, gives_value (c_req c) with
  | _, Some T => ValueHandle T (stored (c_phase c)) (arrived (c_phase c))
  | QLoad _ _, _ => LoadHandle (arrived (c_phase c)) (c_dst c)
  | _, _ => AckHandle (arrived (c_phase c))
  end.

(** The message of a call, while there is one. *)
Definition message_of (kc : nat * Z * call) : option message :=
  let '(i, hp, c) := kc in
  match c_phase c with
  | Sent => Some (mkMsg (owner (c_req c)) i (fst (encode (c_req c))) (snd (encode (c_req c))) (fst (packPtr hp)) (snd (packPtr hp)))
  | Executed a => Some (mkMsg i (owner (c_req c)) (fst (encode_answer a)) (snd (encode_answer a)) (fst (packPtr hp)) (snd (packPtr hp)))
  | Arrived _ => None
  end.

Lemma acquire_in dims ok n size args : Nodes.requestAcquire dims ok n size args = Success -> node_id n < node_id dims.
Proof. unfold Nodes.requestAcquire, node_ltb. destruct (Z.ltb_spec (node_id n) (node_id dims)); [done|discriminate]. Qed.

Lemma await_commit dims i ok n size t payload hp h what h' msg :
  await h (Nodes.commit i (Nodes.requestAcquire dims ok n size 2) n t payload hp) what = Done (inr (h', msg)) ->
  h' = h /\ node_id n < node_id dims /\ msg = mkMsg (Z.to_nat (node_id n)) i t payload (fst (packPtr hp)) (snd (packPtr hp)).
Proof.
  pose proof (acquire_in dims ok n size 2) as A. unfold Nodes.commit. destruct (Nodes.requestAcquire _ _ _ _ _); cbn; try discriminate.
  intros [= <- <-]. auto.
Qed.

Lemma await_inr h r what x : await h r what <> Done (inl x).
Proof. destruct r as [[] [?|]]; cbn; discriminate. Qed.

Lemma extractNode_range a : 0 <= node_id (extractNodeIndex a) < 2 ^ 14.
Proof.
  pose proof (readBits_range 64 a (main_nodeIndex (main addressMap)) ltac:(vm_compute; intuition congruence)) as Hb.
  change (hi _ - lo _) with 14 in Hb.
  unfold extractNodeIndex. cbn [node_id]. rewrite wrapS_id; [exact Hb|lia|]. unfold inU, inS in *. lia.
Qed.

(** What is known of an operation that waits: its request is well formed, on its way to a node that exists, with its handle. *)
Definition launched (dims : NodeIndex) (i : nat) (hp : Z) (o : op) (q : request) (dst : Z) (h : handle) (msg : message) : Prop :=
  request_ok q /\ wants_value o = gives_value q /\ h = handle_of (mkCall o q dst Sent) /\
  message_of (i, hp, mkCall o q dst Sent) = Some msg /\ Z.of_nat (owner q) < node_id dims.

Lemma launched_intro dims i hp o q dst h msg :
  request_ok q -> wants_value o = gives_value q -> h = handle_of (mkCall o q dst Sent) ->
  node_id (extractNodeIndex (address q)) < node_id dims ->
  msg = mkMsg (owner q) i (fst (encode q)) (snd (encode q)) (fst (packPtr hp)) (snd (packPtr hp)) ->
  launched dims i hp o q dst h msg.
Proof.
  intros. subst. split_and!; try done. pose proof (extractNode_range (address q)). unfold owner. lia.
Qed.

Lemma store_launched dims i ok m n hp o a src h msg what : inU 64 a -> 0 <= n < 2 ^ 63 -> wants_value o = None ->
  (let! r := Nodes.store dims i ok m (extractNodeIndex a) a n src hp in await (AckHandle false) r what) = Done (inr (h, msg)) ->
  exists data, read_bytes m src n = Done data /\ launched dims i hp o (QStore a data) 0 h msg.
Proof.
  intros Ha Hn Ho E. unfold Nodes.store in E. destruct (Nodes.requestAcquire _ _ _ _ _) eqn:A; try discriminate.
  destruct (read_bytes m src n) as [data|] eqn:R; [|discriminate]. cbn [bindo] in E. exists data. split; [done|].
  rewrite <- A in E. apply await_commit in E as (-> & ? & ->). apply read_bytes_length in R.
  apply launched_intro; try done. split; [done|]. lia.
Qed.

(** An operation that waits has sent the request it stands for. *)
Lemma start_remote dims i ok L m o hp h msg : op_ok o -> start dims i ok L m o hp = Done (inr (h, msg)) ->
  exists q dst, plan L m o = Done (q, dst) /\ launched dims i hp o q dst h msg.
Proof.
  intros Ho E. destruct o as [a n d|a n s|s n d|T a|T a v|T a e d|T a v|T a v|T a v|T a v]; cbn [op_ok start plan] in *;
    unfold atomicLoadImpl, atomicStoreImpl, atomicCompareExchangeImpl, atomicIncrementImpl, atomicDecrementImpl,
      atomicFetchAddImpl, atomicFetchSubImpl in E.
  4-10: destruct (node_eqb _ _);
    [ outcome_inv; repeat match goal with x : _ * _ |- _ => destruct x end; discriminate
    | apply await_commit in E as (-> & ? & ->); eexists _, _; split; [done|]; by apply launched_intro ].
  - destruct Ho. unfold load in E. destruct (node_eqb _ _); [outcome_inv; discriminate|].
    apply await_commit in E as (-> & ? & ->). eexists _, _. split; [done|]. by apply launched_intro.
  - destruct Ho. unfold store in E. destruct (node_eqb _ _); [outcome_inv; discriminate|].
    apply (store_launched dims i ok m n hp (OStore a n s)) in E as (data & R & ?); [|done|done|done].
    rewrite R. eexists _, _. split; [reflexivity|done].
  - destruct Ho as (? & ? & ?). unfold bulkMemcpy in E. unfold is_local.
    destruct (node_eqb (extractNodeIndex d) (getCurrentNode L)), (node_eqb (extractNodeIndex s) (getCurrentNode L)); cbn [andb negb] in *;
      [outcome_inv; discriminate| | |discriminate].
    + destruct (getNativeAddress L d) as [p|]; [|discriminate]. cbn [bindo] in *.
      apply await_commit in E as (-> & ? & ->). eexists _, _. split; [done|]. apply launched_intro; try done.
      split; [done|]. unfold inU. lia.
    + destruct (getNativeAddress L s) as [p|]; [|discriminate]. cbn [bindo] in *.
      apply (store_launched dims i ok m n hp (OBulkMemcpy s n d)) in E as (data & R & ?); [|done|done|done].
      rewrite R. eexists _, _. split; [reflexivity|done].
Qed.

(** *** The messages under way *)

Definition flight (calls : gmap (nat * Z) call) : list message := omap message_of (map_to_list calls).

Lemma flight_insert calls k c : calls !! k = None ->
  flight (<[k := c]> calls) ≡ₚ option_list (message_of (k, c)) ++ flight calls.
Proof. intros E. unfold flight. rewrite map_to_list_insert by done. cbn [omap list_omap]. by destruct (message_of (k, c)). Qed.

Lemma flight_delete calls k c : calls !! k = Some c ->
  flight calls ≡ₚ option_list (message_of (k, c)) ++ flight (delete k calls).
Proof. intros E. rewrite <- flight_insert by apply lookup_delete_eq. by rewrite insert_delete_id. Qed.

Lemma flight_update calls k c c' : calls !! k = Some c ->
  flight (<[k := c']> calls) ≡ₚ option_list (message_of (k, c')) ++ flight (delete k calls).
Proof.
  intros E. rewrite (flight_delete (<[k := c']> calls) k c') by apply lookup_insert_eq. by rewrite delete_insert_eq.
Qed.

(** A message under way is that of a call. *)
Lemma flight_pick calls net j msg : net ≡ₚ flight calls -> net !! j = Some msg ->
  exists k c, calls !! k = Some c /\ message_of (k, c) = Some msg /\ delete j net ≡ₚ flight (delete k calls).
Proof.
  intros P E. assert (Hin : msg ∈ flight calls) by (rewrite <- P; by eapply list_elem_of_lookup_2).
  apply list_elem_of_omap in Hin as ([k c] & Hin & M). apply elem_of_map_to_list in Hin. exists k, c. split_and!; [done..|].
  apply (Permutation_cons_inv (a := msg)). rewrite <- delete_Permutation by done. rewrite P, (flight_delete calls k c), M by done. done.
Qed.

(** *** The simulation *)

Definition view (N : nstate) : host * bytemem := (n_host N, n_mem N).

Definition call_ok (nodes : list nstate) (i : nat) (hp : Z) (c : call) : Prop :=
  inU 64 hp /\ request_ok (c_req c) /\ wants_value (c_op c) = gives_value (c_req c) /\ (owner (c_req c) < length nodes)%nat /\
  match c_phase c with Sent => True | Executed a | Arrived a => answers (c_req c) a end /\
  exists N, nodes !! i = Some N /\ n_handles N !! hp = Some (handle_of c).

Record sim (w : world) (s : sworld) : Prop := {
  sim_nodes : s_nodes s = view <$> w_nodes w;
  sim_waiting : w_waiting w = c_op <$> s_calls s;
  sim_net : w_net w ≡ₚ flight (s_calls s);
  sim_calls : forall i hp c, s_calls s !! (i, hp) = Some c -> call_ok (w_nodes w) i hp c }.

Definition related (r : outcome (world * option result)) (r' : outcome (sworld * option result)) : Prop :=
  match r, r' with Done (w, x), Done (s, y) => sim w s /\ x = y | Failed e, Failed e' => e = e' | _, _ => False end.

(** A call keeps its handle when a node changes elsewhere. *)
Lemma call_ok_frame nodes j N N' i hp c : nodes !! j = Some N -> call_ok nodes i hp c ->
  (i = j -> n_handles N' !! hp = n_handles N !! hp) -> call_ok (<[j := N']> nodes) i hp c.
Proof.
  intros Ej (? & ? & ? & ? & ? & N0 & Ei & Eh) F. unfold call_ok. rewrite length_insert. split_and!; try done.
  destruct (decide (i = j)) as [->|].
  - exists N'. rewrite list_lookup_insert_eq by (by eapply lookup_lt_Some). split; [done|]. rewrite F by done. congruence.
  - exists N0. by rewrite list_lookup_insert_ne.
Qed.

Lemma view_insert (nodes : list nstate) (j : nat) (N : nstate) : view <$> <[j := N]> nodes = <[j := view N]> (view <$> nodes).
Proof. apply list_fmap_insert. Qed.

(** A call that moves on to its next phase keeps its operation. *)
Lemma waiting_update (calls : gmap (nat * Z) call) (k : nat * Z) (c c' : call) : calls !! k = Some c -> c_op c' = c_op c -> c_op <$> <[k := c']> calls = c_op <$> calls.
Proof. intros E O. rewrite fmap_insert, O. apply insert_id. by rewrite lookup_fmap, E. Qed.

Definition event_ok (e : event) : Prop := match e with Issue _ o hp _ => op_ok o /\ inU 64 hp | _ => True end.

Lemma sim_issue w s i o hp ok r : sim w s -> event_ok (Issue i o hp ok) -> step w (Issue i o hp ok) = Some r ->
  exists r', sstep s (SIssue i o hp ok) = Some r' /\ related r r'.
Proof.
  intros S [Ho Hp] E. destruct s as [nodes' calls]. destruct S as [SN SW SF SC]. cbn in SN, SW, SF, SC. subst nodes'.
  cbn [step sstep] in *. cbn [s_nodes s_calls]. rewrite list_lookup_fmap, length_fmap.
  destruct (w_nodes w !! i) as [N|] eqn:EN; [|done]. cbn [fmap option_fmap option_map view].
  rewrite SW, lookup_fmap in E. destruct (calls !! (i, hp)) as [|] eqn:EC; [done|]. cbn in E.
  injection E as <-. eexists. split; [reflexivity|].
  destruct (start _ _ _ _ _ _ _) as [[[m' x]|[h msg]]|] eqn:ES; cbn [bindo]; [| |done].
  - split; [|done]. split; cbn; [by rewrite view_insert|done|done|].
    intros j p c Ec. eapply call_ok_frame; eauto.
  - destruct (start_remote _ _ _ _ _ _ _ _ _ Ho ES) as (q & dst & -> & Q1 & Q2 & -> & Q4 & Q5). cbn [bindo]. cbn [node_id] in Q5.
    split; [|done]. split; cbn.
    + rewrite view_insert. symmetry. apply list_insert_id. by rewrite list_lookup_fmap, EN.
    + by rewrite ?SW, fmap_insert.
    + rewrite flight_insert by done. rewrite Q4. by apply Permutation_cons.
    + intros j p c. destruct (decide ((i, hp) = (j, p))) as [[= <- <-]|ne].
      * rewrite lookup_insert_eq. intros [= <-]. unfold call_ok. cbn [c_req c_op c_phase]. rewrite length_insert.
        split_and!; try done; [lia|]. exists (with_handle N hp (handle_of (mkCall o q dst Sent))).
        rewrite list_lookup_insert_eq by (by eapply lookup_lt_Some). split; [done|]. apply lookup_insert_eq.
      * rewrite lookup_insert_ne by done. intros Ec. eapply call_ok_frame; eauto. intros ->. apply lookup_insert_ne. congruence.
Qed.

Lemma unpack_packPtr hp : inU 64 hp -> unpackPtr (fst (packPtr hp)) (snd (packPtr hp)) = hp.
Proof. apply makeword. Qed.

(** The handler of an answer brings it to the caller's memory and handle. *)
Lemma htable_arrive N o q dst a hp : inU 64 hp -> answers q a ->
  n_handles N !! hp = Some (handle_of (mkCall o q dst (Executed a))) ->
  htable (fst (encode_answer a)) N (snd (encode_answer a)) (fst (packPtr hp)) (snd (packPtr hp)) =
  let! m := arrive (n_mem N) dst a in
  Done (with_handle (with_mem N m) hp (handle_of (mkCall o q dst (Arrived a))), None).
Proof.
  intros Hhp Ha Hh. pose proof (unpack_packPtr hp Hhp) as U. destruct a as [data| |T v]; cbn [encode_answer fst snd htable arrive].
  - destruct q; try contradiction. unfold handleLoadAck, load_setReady. rewrite U, Hh. cbn. by destruct (write_bytes _ _ _).
  - destruct q; try contradiction; unfold handleAck, ack_setReady; rewrite U, Hh; cbn [handle_of gives_value c_req c_phase arrived];
      cbn; by rewrite with_mem_same.
  - destruct q; try contradiction; destruct Ha as [-> Hv]; unfold handleValueAck, value_setReady; rewrite U, Hh;
      cbn [handle_of gives_value c_req c_phase arrived stored bindo];
      rewrite take_ge, cast_bytes, Hv, with_mem_same by (by rewrite bytes_length); done.
Qed.

Lemma sim_execute w s i hp c j N : sim w s -> s_calls s !! (i, hp) = Some c -> c_phase c = Sent ->
  w_nodes w !! owner (c_req c) = Some N -> delete j (w_net w) ≡ₚ flight (delete (i, hp) (s_calls s)) ->
  forall m a, serve (n_host N) (n_mem N) (c_req c) = Done (m, a) ->
  sim (mkW (<[owner (c_req c) := with_mem N m]> (w_nodes w))
         (mkMsg i (owner (c_req c)) (fst (encode_answer a)) (snd (encode_answer a)) (fst (packPtr hp)) (snd (packPtr hp)) :: delete j (w_net w))
         (w_waiting w))
      (mkS (<[owner (c_req c) := (n_host N, m)]> (s_nodes s))
         (<[(i, hp) := mkCall (c_op c) (c_req c) (c_dst c) (Executed a)]> (s_calls s))).
Proof.
  intros S Ec Ep EN P m a Es. pose proof (sim_calls _ _ S _ _ _ Ec) as (C1 & C2 & C3 & C4 & _ & N1 & C6 & C7).
  split; cbn [w_nodes w_net w_waiting s_nodes s_calls].
  - by rewrite view_insert, (sim_nodes _ _ S).
  - rewrite (sim_waiting _ _ S). symmetry. by eapply waiting_update.
  - rewrite flight_update by done. cbn [message_of c_phase c_req option_list]. by apply Permutation_cons.
  - intros i' hp' c'. destruct (decide ((i, hp) = (i', hp'))) as [[= <- <-]|ne].
    + rewrite lookup_insert_eq. intros [= <-]. eapply call_ok_frame; [done| |done].
      unfold call_ok. cbn [c_req c_op c_phase]. split_and!; try done; [by eapply serve_answers|].
      exists N1. split; [done|]. rewrite C7. unfold handle_of. cbn [c_req c_op c_phase c_dst]. by rewrite Ep.
    + rewrite lookup_insert_ne by done. intros E'. eapply call_ok_frame; eauto. by eapply (sim_calls _ _ S).
Qed.

Lemma sim_arrive w s i hp c a j N : sim w s -> s_calls s !! (i, hp) = Some c -> c_phase c = Executed a ->
  w_nodes w !! i = Some N -> delete j (w_net w) ≡ₚ flight (delete (i, hp) (s_calls s)) ->
  forall m, sim (mkW (<[i := with_handle (with_mem N m) hp (handle_of (mkCall (c_op c) (c_req c) (c_dst c) (Arrived a)))]> (w_nodes w))
         (delete j (w_net w)) (w_waiting w))
      (mkS (<[i := (n_host N, m)]> (s_nodes s))
         (<[(i, hp) := mkCall (c_op c) (c_req c) (c_dst c) (Arrived a)]> (s_calls s))).
Proof.
  intros S Ec Ep EN P m. pose proof (sim_calls _ _ S _ _ _ Ec) as (C1 & C2 & C3 & C4 & C5 & N1 & C6 & C7).
  assert (N1 = N) as -> by congruence. rewrite Ep in C5.
  split; cbn [w_nodes w_net w_waiting s_nodes s_calls].
  - by rewrite view_insert, (sim_nodes _ _ S).
  - rewrite (sim_waiting _ _ S). symmetry. by eapply waiting_update.
  - by rewrite flight_update.
  - intros i' hp' c'. destruct (decide ((i, hp) = (i', hp'))) as [[= <- <-]|ne].
    + rewrite lookup_insert_eq. intros [= <-]. unfold call_ok. cbn [c_req c_op c_phase]. rewrite length_insert.
      split_and!; try done. eexists. rewrite list_lookup_insert_eq by (by eapply lookup_lt_Some). split; [done|]. apply lookup_insert_eq.
    + rewrite lookup_insert_ne by done. intros E'. eapply call_ok_frame; eauto; [by eapply (sim_calls _ _ S)|].
      intros ->. apply lookup_insert_ne. congruence.
Qed.

(** The call whose message the event takes from the network, and what it means for the call. *)
Lemma sim_deliver w s j r : sim w s -> step w (Deliver j) = Some r ->
  exists e' r', sstep s e' = Some r' /\ related r r'.
Proof.
  intros S E. cbn [step] in E. destruct (w_net w !! j) as [msg|] eqn:Ej; [|done].
  destruct (flight_pick _ _ _ _ (sim_net _ _ S) Ej) as ([i hp] & c & Ec & Em & P).
  pose proof (sim_calls _ _ S _ _ _ Ec) as (C1 & C2 & C3 & C4 & C5 & N1 & C6 & C7).
  cbn [message_of] in Em. destruct (c_phase c) as [|a|a] eqn:Ep; [| |discriminate]; apply (inj Some) in Em; subst msg;
    cbn [m_to m_from m_type m_payload m_hi m_lo] in E.
  - destruct (lookup_lt_is_Some_2 _ _ C4) as [N EN]. rewrite EN in E. apply (inj Some) in E. subst r.
    exists (SExecute (i, hp)). cbn [sstep]. rewrite Ec, (sim_nodes _ _ S), list_lookup_fmap, EN. cbn [fmap option_fmap option_map view].
    rewrite Ep. eexists. split; [reflexivity|]. rewrite htable_serve by done.
    destruct (serve (n_host N) (n_mem N) (c_req c)) as [[m a]|] eqn:Es; cbn [bindo]; [|done]. split; [|done].
    pose proof (sim_execute w s i hp c j N S Ec Ep EN P m a Es) as R. rewrite (sim_nodes _ _ S) in R.
    by destruct (encode_answer a).
  - rewrite C6 in E. apply (inj Some) in E. subst r. exists (SArrive (i, hp)). cbn [sstep fst]. rewrite Ec, (sim_nodes _ _ S), list_lookup_fmap, C6.
    cbn [fmap option_fmap option_map view]. rewrite Ep. eexists. split; [reflexivity|].
    rewrite (htable_arrive N1 (c_op c) (c_req c) (c_dst c) a hp) by (done || by rewrite <- Ep; destruct c).
    destruct (arrive (n_mem N1) (c_dst c) a) as [m|]; cbn [bindo]; [|done]. split; [|done].
    pose proof (sim_arrive w s i hp c a j N1 S Ec Ep C6 P m) as R. by rewrite (sim_nodes _ _ S) in R.
Qed.

Lemma finish_answered c a : answers (c_req c) a -> wants_value (c_op c) = gives_value (c_req c) -> c_phase c = Arrived a ->
  finish (c_op c) (handle_of c) = Done (answered (c_op c) a).
Proof.
  destruct c as [o q d p]. cbn [c_req c_op c_phase]. intros Ha W ->. unfold handle_of. cbn [c_req c_phase c_dst].
  destruct o; try reflexivity; destruct q; try discriminate; destruct a; try contradiction; cbn; try reflexivity.
  all: match goal with |- (if ?v =? ?e then _ else _) = _ => destruct (Z.eqb_spec v e); by subst end.
Qed.

Lemma ready_handle_of c : ready (handle_of c) = arrived (c_phase c).
Proof. destruct c as [o q d p]. by destruct q. Qed.

Lemma sim_return w s i hp r : sim w s -> step w (Return i hp) = Some r ->
  exists r', sstep s (SReturn (i, hp)) = Some r' /\ related r r'.
Proof.
  intros S E. cbn [step sstep] in *. destruct (w_nodes w !! i) as [N|] eqn:EN; [|done].
  rewrite (sim_waiting _ _ S), lookup_fmap in E. destruct (s_calls s !! (i, hp)) as [c|] eqn:Ec; [|done]. cbn [fmap option_fmap option_map] in E.
  pose proof (sim_calls _ _ S _ _ _ Ec) as (C1 & C2 & C3 & C4 & C5 & N1 & C6 & C7). assert (N1 = N) as -> by congruence.
  rewrite C7 in E. rewrite ready_handle_of in E. destruct (c_phase c) as [|a|a] eqn:Ep; try done. cbn [arrived] in E. apply (inj Some) in E. subst r.
  eexists. split; [reflexivity|]. rewrite (finish_answered c a) by done. cbn [bindo]. split; [|done].
  split; cbn [w_nodes w_net w_waiting s_nodes s_calls].
  - rewrite view_insert, (sim_nodes _ _ S). symmetry. apply list_insert_id. by rewrite list_lookup_fmap, EN.
  - by rewrite fmap_delete.
  - rewrite (sim_net _ _ S), (flight_delete _ _ _ Ec). cbn [message_of]. by rewrite Ep.
  - intros i' hp' c' E'. apply lookup_delete_Some in E' as [ne E']. eapply call_ok_frame; eauto; [by eapply (sim_calls _ _ S)|].
    intros ->. apply lookup_delete_ne. congruence.
Qed.

Lemma sim_step w s e r : sim w s -> event_ok e -> step w e = Some r -> exists e' r', sstep s e' = Some r' /\ related r r'.
Proof.
  intros S He E. destruct e as [i o hp ok|j|i hp].
  - eexists. by eapply sim_issue.
  - by eapply sim_deliver.
  - eexists. by eapply sim_return.
Qed.

(** *** Whole runs *)

(** Nodes with no operation under way. *)
Definition quiet (w : world) : Prop := w_net w = [] /\ w_waiting w = ∅ /\ Forall (fun N => n_handles N = ∅) (w_nodes w).
Definition of_world (w : world) : sworld := mkS (view <$> w_nodes w) ∅.

Lemma sim_quiet w : quiet w -> sim w (of_world w).
Proof. intros (E1 & E2 & _). split; cbn; [done|by rewrite E2|by rewrite E1|]. intros i hp c E. by rewrite lookup_empty in E. Qed.

Lemma sim_run es w s : sim w s -> Forall event_ok es ->
  match run w es with
  | None => True
  | Some (Done (w', rs)) => exists ses s', srun s ses = Some (Done (s', rs)) /\ length ses = length es /\ sim w' s'
  | Some (Failed err) => exists ses, srun s ses = Some (Failed err)
  end.
Proof.
  revert w s. induction es as [|e es IH]; intros w s S F; cbn [run].
  - exists [], s. done.
  - inversion F as [|? ? Fe Fes]; subst. destruct (step w e) as [r|] eqn:E; [|done].
    destruct (sim_step w s e r S Fe E) as (e' & r' & Es & R).
    destruct r as [[w' x]|err], r' as [[s1 x']|err']; cbn in R; try contradiction.
    + destruct R as [S1 <-]. pose proof (IH w' s1 S1 Fes) as H1. destruct (run w' es) as [[[w'' rs]|err]|]; [| |done].
      * destruct H1 as (ses & s' & R1 & R2 & R3). exists (e' :: ses), s'. cbn [srun length]. rewrite Es, R1. auto.
      * destruct H1 as (ses & R1). exists (e' :: ses). cbn [srun]. by rewrite Es, R1.
    + subst. exists [e']. cbn [srun]. by rewrite Es.
Qed.

(** *** Progress *)

(** How many deliveries a message stands for: a request and its answer, or an answer. *)
Definition weight (msg : message) : nat := match m_type msg with LoadAck | Ack | ValueAck => 1 | _ => 2 end.
Definition potential (w : world) : nat := sum_list_with weight (w_net w).

Lemma sum_delete {A} (f : A -> nat) (l : list A) j x : l !! j = Some x -> sum_list_with f l = (f x + sum_list_with f (delete j l))%nat.
Proof.
  revert j. induction l as [|y l IH]; intros [|j] E; try discriminate; cbn in *; [congruence|].
  rewrite (IH j E). unfold delete. lia.
Qed.

Lemma reachable_sim w0 es w rs : quiet w0 -> Forall event_ok es -> run w0 es = Some (Done (w, rs)) -> exists s, sim w s.
Proof.
  intros Q F E. pose proof (sim_run es w0 (of_world w0) (sim_quiet w0 Q) F) as H1. rewrite E in H1.
  destruct H1 as (_ & s & _ & _ & S). eauto.
Qed.

Lemma deliver_enabled w s j : sim w s -> (j < length (w_net w))%nat -> step w (Deliver j) <> None.
Proof.
  intros S Hj. destruct (lookup_lt_is_Some_2 _ _ Hj) as [msg E]. cbn [step]. rewrite E.
  destruct (flight_pick _ _ _ _ (sim_net _ _ S) E) as ([i hp] & c & Ec & Em & _).
  pose proof (sim_calls _ _ S _ _ _ Ec) as (_ & _ & _ & C4 & _ & N1 & C6 & _).
  cbn [message_of] in Em. destruct (c_phase c); [| |discriminate]; apply (inj Some) in Em; subst msg; cbn [m_to].
  - by destruct (lookup_lt_is_Some_2 _ _ C4) as [N ->].
  - by rewrite C6.
Qed.

Lemma done_pair {A B} (a c : A) (b d : B) : Done (a, b) = Done (c, d) -> a = c /\ b = d.
Proof. by intros [= -> ->]. Qed.

(** A delivery turns a request into an answer, or takes an answer away. *)
Lemma deliver_weight w s j w' x : sim w s -> step w (Deliver j) = Some (Done (w', x)) ->
  potential w = S (potential w') /\ x = None.
Proof.
  intros S E. cbn [step] in E. destruct (w_net w !! j) as [msg|] eqn:Ej; [|done].
  unfold potential. rewrite (sum_delete weight _ _ _ Ej).
  destruct (flight_pick _ _ _ _ (sim_net _ _ S) Ej) as ([i hp] & c & Ec & Em & _).
  pose proof (sim_calls _ _ S _ _ _ Ec) as (C1 & C2 & C3 & C4 & C5 & N1 & C6 & C7).
  cbn [message_of] in Em. destruct (c_phase c) as [|a|a] eqn:Ep; [| |discriminate]; apply (inj Some) in Em; subst msg;
    cbn [m_to m_from m_type m_payload m_hi m_lo] in E.
  - destruct (w_nodes w !! _) as [N|]; [|done]. apply (inj Some) in E. rewrite htable_serve in E by done.
    destruct (serve _ _ _) as [[m a]|]; [|done]. cbn [bindo] in E.
    destruct (encode_answer a) as [t data] eqn:Ea. apply done_pair in E as [<- <-]. split; [|done]. cbn [w_net sum_list_with].
    assert (weight (mkMsg i (owner (c_req c)) t data (fst (packPtr hp)) (snd (packPtr hp))) = 1%nat) as ->
      by (destruct a; injection Ea as <- <-; done).
    unfold weight at 1. cbn [m_type]. destruct (c_req c); cbn [encode fst]; lia.
  - rewrite C6 in E. apply (inj Some) in E.
    rewrite (htable_arrive N1 (c_op c) (c_req c) (c_dst c) a hp) in E by (done || by rewrite <- Ep; destruct c).
    destruct (arrive _ _ _); [|done]. cbn [bindo] in E. apply done_pair in E as [<- <-]. split; [|done]. cbn [w_net].
    unfold weight at 1. cbn [m_type]. destruct a; cbn [encode_answer fst]; lia.
Qed.

Lemma deliveries js w s w' rs : sim w s -> run w (Deliver <$> js) = Some (Done (w', rs)) ->
  (length js + potential w' = potential w)%nat /\ rs = [] /\ exists s', sim w' s'.
Proof.
  revert w s w' rs. induction js as [|j js IH]; intros w s w' rs S E; cbn [fmap list_fmap run] in E.
  - injection E as <- <-. eauto.
  - destruct (step w (Deliver j)) as [[[w1 x]|]|] eqn:E1; try discriminate.
    destruct (deliver_weight w s j w1 x S E1) as [P ->].
    destruct (sim_step w s (Deliver j) _ S I E1) as (e' & [[s1 y]|] & _ & R); [|done]. destruct R as [S1 _].
    destruct (run w1 _) as [[[w2 rs2]|]|] eqn:E2; try discriminate. injection E as <- <-.
    destruct (IH w1 s1 w2 rs2 S1 E2) as (? & -> & ?). split_and!; [cbn [length]; lia|done|done].
Qed.

(** With no message under way every waiting operation can return. *)
Lemma silent_returns w s i hp o : sim w s -> w_net w = [] -> w_waiting w !! (i, hp) = Some o ->
  exists w' r, step w (Return i hp) = Some (Done (w', Some r)).
Proof.
  intros S E W. pose proof (sim_net _ _ S) as P. rewrite E in P. symmetry in P. apply Permutation_nil_r in P.
  pose proof W as W'. rewrite (sim_waiting _ _ S), lookup_fmap in W'.
  destruct (s_calls s !! (i, hp)) as [c|] eqn:Ec; [|done]. injection W' as Eo.
  pose proof (sim_calls _ _ S _ _ _ Ec) as (C1 & C2 & C3 & C4 & C5 & N1 & C6 & C7).
  assert (M : message_of (i, hp, c) = None).
  { destruct (message_of (i, hp, c)) as [msg|] eqn:Em; [|done]. exfalso.
    assert (Hin : msg ∈ flight (s_calls s)).
    { apply list_elem_of_omap. exists (i, hp, c). split; [|done]. by apply elem_of_map_to_list. }
    rewrite P in Hin. by apply elem_of_nil in Hin. }
  cbn [message_of] in M. destruct (c_phase c) as [|a|a] eqn:Ep; try discriminate.
  cbn [step]. rewrite C6, W, C7, ready_handle_of, Ep. cbn [arrived]. rewrite <- Eo, (finish_answered c a) by done. cbn [bindo]. eauto.
Qed.

Lemma potential_bound w s : sim w s -> (potential w <= 2 * size (w_waiting w))%nat.
Proof.
  intros S. assert (L : (length (w_net w) <= size (w_waiting w))%nat).
  { rewrite (sim_waiting _ _ S), (Permutation_length (sim_net _ _ S)), map_size_fmap, <- length_map_to_list. unfold flight.
    induction (map_to_list (s_calls s)) as [|kc l IH]; cbn; [lia|]. destruct (message_of kc); cbn; lia. }
  unfold potential. enough (forall l, sum_list_with weight l <= 2 * length l)%nat as Hl by (pose proof (Hl (w_net w)); lia).
  induction l as [|x l IH]; cbn; [lia|]. enough (weight x <= 2)%nat by lia. unfold weight. by destruct (m_type x); lia.
Qed.

(** C1: whatever operations the harts of the nodes start and in whatever order GASNet delivers the messages, a run of the nodes
    does what a run of the calls does, one step for each event: every remote operation is one access to its owner's memory, made
    exactly once between its call and its return, and it returns the value of that access; the memories agree at the end, the
    operations that wait are the calls still open, and when a run of the nodes stops the program, so does the run of the calls,
    for the same reason. *)
Theorem remote_refines w es : quiet w -> Forall event_ok es ->
  match run w es with
  | None => True
  | Some (Done (w', rs)) => exists ses s', srun (of_world w) ses = Some (Done (s', rs)) /\ length ses = length es /\
      s_nodes s' = view <$> w_nodes w' /\ w_waiting w' = c_op <$> s_calls s'
  | Some (Failed err) => exists ses, srun (of_world w) ses = Some (Failed err)
  end.
Proof.
  intros Q F. pose proof (sim_run es w (of_world w) (sim_quiet w Q) F) as H1. destruct (run w es) as [[[w' rs]|err]|]; [|done|done].
  destruct H1 as (ses & s' & R & L & S). exists ses, s'. split_and!; [done|done|apply S|apply S].
Qed.

(** C35: no remote operation waits for ever while its messages are delivered.  In every world that operations reach, any message under
    way can be delivered; a sequence of deliveries that does not stop the program takes no more than two per waiting operation;
    and once no message is left, every waiting operation can return, with a result. *)
Theorem remote_completes w0 es w rs : quiet w0 -> Forall event_ok es -> run w0 es = Some (Done (w, rs)) ->
  (potential w <= 2 * size (w_waiting w))%nat /\
  (forall j, (j < length (w_net w))%nat -> step w (Deliver j) <> None) /\
  (forall js w' rs', run w (Deliver <$> js) = Some (Done (w', rs')) ->
     (length js + potential w' = potential w)%nat /\
     (w_net w' = [] -> forall i hp o, w_waiting w' !! (i, hp) = Some o ->
        exists w'' r, step w' (Return i hp) = Some (Done (w'', Some r)))).
Proof.
  intros Q F E. destruct (reachable_sim w0 es w rs Q F E) as [s S]. split_and!.
  - by eapply potential_bound.
  - intros j Hj. by eapply deliver_enabled.
  - intros js w' rs' R. destruct (deliveries js w s w' rs' S R) as (? & _ & s' & S'). split; [done|].
    intros Hn i hp o W. by eapply silent_returns.
Qed.

(** ** Local operations *)

(** The operation concerns this node's memory only. *)
Definition all_local (L : host) (o : op) : bool :=
  match o with
  | OLoad a _ _ | OStore a _ _ => is_local L a
  | OBulkMemcpy s _ d => is_local L s && is_local L d
  | OAtomicLoad _ a | OAtomicStore _ a _ | OCompareExchange _ a _ _ | OIncrement _ a _ | ODecrement _ a _ | OFetchAdd _ a _
  | OFetchSub _ a _ => is_local L a
  end.

(** Its data fits the answer to a remote load. *)
Definition fits (o : op) : Prop := match o with OLoad _ n _ | OBulkMemcpy _ n _ => n <= MaxReplyMedium | _ => True end.

(** An operation sent as a request, served, and answered, all at once on one memory. *)
Definition at_once (L : host) (m : bytemem) (o : op) : outcome (bytemem * result) :=
  let! (q, dst) := plan L m o in
  let! (m, a) := serve L m q in
  let! m := arrive m dst a in Done (m, answered o a).

(** Run through the accesses of both sides; the outcome of an access is remembered for the other side. *)
Ltac known e := match goal with H : e = _ |- _ => rewrite H | _ => destruct e eqn:? end.
Ltac run_both := repeat
  match goal with
  | |- context [bindo (Done _) _] => progress cbn [bindo address arrive answered]
  | |- context [bindo (Failed _) _] => progress cbn [bindo]
  | |- context [bindo (guard_or ?b _) _] => known b; cbn [guard_or]
  | |- context [bindo (getNativeAddress ?L ?a) _] => known (getNativeAddress L a)
  | |- context [bindo (read_bytes ?m ?p ?n) _] => known (read_bytes m p n)
  | |- context [bindo (write_bytes ?m ?p ?l) _] => known (write_bytes m p l)
  | |- context [bindo (atomic_load_n ?m ?T ?p) _] => known (atomic_load_n m T p)
  | |- context [bindo (atomic_store_n ?m ?T ?p ?v) _] => known (atomic_store_n m T p v)
  | |- context [bindo (if ?b then _ else _) _] => known b
  end.


(** A load that is too large for an answer is accepted: whether the request is sent does not depend on the number of bytes asked for,
    and when it exceeds what one reply can carry the owner stops the program, although the requester was told of no error. *)
Theorem large_load_aborts dims i ok L m hp a n d h msg N p hi lo : inU 64 a -> inU 64 n ->
  start dims i ok L m (OLoad a n d) hp = Done (inr (h, msg)) ->
  (forall n', is_done (start dims i ok L m (OLoad a n' d) hp) = true) /\
  (MaxReplyMedium < n -> getNativeAddress (n_host N) a = Done p ->
   htable (m_type msg) N (m_payload msg) hi lo = Failed (Aborted "Could not send value")).
Proof.
  intros Ha Hn E. pose proof E as E'. cbn [start] in *. unfold load in *. destruct (node_eqb _ _); [outcome_inv; discriminate|]. split.
  - intros n'. apply await_commit in E' as (-> & _ & _). unfold Nodes.load in *.
    change (packedSize [(8, a); (8, n')]%nat) with (packedSize [(8, a); (8, n)]%nat).
    unfold Nodes.commit in *. by destruct (Nodes.requestAcquire _ _ _ _ _).
  - intros Hl Hp. apply await_commit in E as (-> & _ & ->). cbn [m_type m_payload].
    pose proof (htable_serve N (QLoad a n) hi lo (conj Ha Hn)) as H1. cbn [encode fst snd] in H1. rewrite H1.
    unfold serve. cbn [address]. rewrite Hp. cbn [bindo]. rewrite (proj2 (Z.leb_gt _ _) Hl). done.
Qed.
End Simulation.

(** ** A system of two nodes *)

(** GASNet as its headers describe it on a 64-bit host: the words are the two halves of the pointer. *)
#[local] Instance gasnet64 : Gasnet :=
  {| HIWORD p := Z.shiftr p 32; LOWORD p := u32 p; MAKEWORD hi lo := Z.lor (Z.shiftl (u32 hi) 32) (u32 lo);
     MaxRequestMedium _ _ := 512; MaxReplyMedium := 512 |}.

#[local] Instance gasnet64_laws : GasnetLaws gasnet64.
Proof.
  split; [|cbn; lia]. intros p Hp. cbn [HIWORD LOWORD MAKEWORD gasnet64]. rewrite !wrapU_wrapS by lia.
  apply Z.bits_inj'. intros k Hk. rewrite Z.lor_spec, Z.shiftl_spec, !testbit_wrapU by lia.
  destruct (Z.ltb_spec k 32).
  - rewrite (Z.testbit_neg_r _ (k - 32)), andb_false_r by lia. done.
  - rewrite orb_false_r, Z.shiftr_spec by lia. replace (k - 32 + 32) with k by lia. destruct (Z.ltb_spec (k - 32) 32); [done|].
    symmetry. apply (testbit_inU 64); [done|lia].
Qed.

Definition small_layout (n : Z) : host := mkHost (mkNode n) (mkChunk L2SP 4096 0) (mkChunk Main 8192 16) [] 8192.
Definition small_mem : bytemem := list_to_map ((fun i => (8192 + i, 0)) <$> seqZ 0 16).
Definition small_world : world := mkW [mkN (small_layout 0) small_mem ∅; mkN (small_layout 1) small_mem ∅] [] ∅.

(** A hart of node 0 adds 5 to a counter of node 1 while a hart of node 1 adds 7 to it, locally. *)
Definition counter : Z := encodeMainAddress (mkNode 1) 8.
Definition two_adds : list event :=
  [Issue 0 (OFetchAdd int64_t counter 5) 77 true; Issue 1 (OFetchAdd int64_t counter 7) 78 true; Deliver 0; Deliver 0; Return 0 77].

Example two_adds_run : exists w, run small_world two_adds = Some (Done (w, [RValue 0; RValue 7])).
Proof. eexists. vm_compute. reflexivity. Qed.

Lemma small_quiet : quiet small_world.
Proof. split_and!; [done|done|]. repeat constructor. Qed.

Lemma two_adds_ok : Forall event_ok two_adds.
Proof. repeat constructor; vm_compute; intuition congruence. Qed.

Lemma remote_refines_witness :
  exists ses s', srun (of_world small_world) ses = Some (Done (s', [RValue 0; RValue 7])) /\ length ses = 5%nat.
Proof.
  pose proof (remote_refines small_world two_adds small_quiet two_adds_ok) as H1.
  destruct (run small_world two_adds) as [[[w' rs]|]|] eqn:E; [|exfalso; vm_compute in E; discriminate..].
  assert (rs = [RValue 0; RValue 7]) as -> by (vm_compute in E; congruence).
  destruct H1 as (ses & s' & R & Le & _). exists ses, s'. split; [exact R|exact Le].
Defined.

Lemma remote_completes_witness :
  exists w, run small_world (take 2 two_adds) = Some (Done (w, [RValue 0])) /\ step w (Deliver 0) <> None.
Proof.
  destruct (run small_world (take 2 two_adds)) as [[[w rs]|]|] eqn:E; [|exfalso; vm_compute in E; discriminate..].
  assert (rs = [RValue 0]) as -> by (vm_compute in E; congruence). exists w. split; [done|].
  refine (proj1 (proj2 (remote_completes small_world (take 2 two_adds) w _ small_quiet _ E)) 0%nat _).
  - apply Forall_take, two_adds_ok.
  - vm_compute in E. assert (length (w_net w) = 1%nat) as -> by (injection E as <-; reflexivity). lia.
Defined.


Lemma large_load_aborts_witness :
  exists h msg, start (mkNode 2) 0 true (small_layout 0) small_mem (OLoad counter 513 8192) 77 = Done (inr (h, msg)) /\
  htable (m_type msg) (mkN (small_layout 1) small_mem ∅) (m_payload msg) 0 77 = Failed (Aborted "Could not send value").
Proof.
  destruct (start (mkNode 2) 0 true (small_layout 0) small_mem (OLoad counter 513 8192) 77) as [[|[h msg]]|] eqn:E;
    [exfalso; vm_compute in E; discriminate| |exfalso; vm_compute in E; discriminate].
  exists h, msg. split; [done|].
  refine (proj2 (large_load_aborts (mkNode 2) 0 true (small_layout 0) small_mem 77 counter 513 8192 h msg _ 8200 0 77 _ _ E) _ _);
    vm_compute; intuition congruence.
Defined.
End RemoteMemory.
