(* ===== verification/Threads.v ===== *)
(** * Threads over shared memory

    Code that harts run at the same time on shared words, as a tree of its accesses, and the interleavings of several such programs.  Memory is
    sequentially consistent: fences and memory orders are not part of the model. *)

From stdpp Require Import list relations.
From S2P Require Import Prelude.

(** A program that ends with an [A]: a load, store, compare-and-exchange or addition at an address, a choice the environment makes (a clock, for
    one), or a loop, whose body either goes round again with a new local state or leaves with a value. *)
Inductive prog : Type -> Type :=
| Ret {A} (a : A) : prog A
| Load {A} (p : Z) (k : Z -> prog A) : prog A
| Store {A} (p v : Z) (k : prog A) : prog A
| Cas {A} (p expected desired : Z) (k : bool -> prog A) : prog A
| Add {A} (p : Z) (f : Z -> Z) (k : Z -> prog A) : prog A
| Choose {A} (k : bool -> prog A) : prog A
| Loop {S B A} (body : S -> prog (S + B)) (s : S) (k : B -> prog A) : prog A.

Fixpoint bind {A} (q : prog A) : forall {B}, (A -> prog B) -> prog B :=
  match q in prog A return forall {B}, (A -> prog B) -> prog B with
  | Ret a => fun B f => f a
  | Load p k => fun B f => Load p (fun v => bind (k v) f)
  | Store p v k => fun B f => Store p v (bind k f)
  | Cas p e d k => fun B f => Cas p e d (fun b => bind (k b) f)
  | Add p g k => fun B f => Add p g (fun v => bind (k v) f)
  | Choose k => fun B f => Choose (fun b => bind (k b) f)
  | Loop body s k => fun B f => Loop body s (fun b => bind (k b) f)
  end.

Declare Scope prog_scope.
Delimit Scope prog_scope with prog.
Notation "x <- q ;; f" := (bind q (fun x => f)) (at level 100, q at next level, right associativity) : prog_scope.

(** What an action did. *)
Inductive access :=
| ALoad (p v : Z) | AStore (p v : Z) | ACas (p expected desired : Z) (done : bool) | AAdd (p old new : Z) | ATau.

(** One action of a program; [c] is the environment's choice. *)
Definition act {A} (q : prog A) : bool -> mem -> option (prog A * mem * access) :=
  match q in prog A return bool -> mem -> option (prog A * mem * access) with
  | Ret a => fun _ _ => None
  | Load p k => fun _ m => Some (k (load m p), m, ALoad p (load m p))
  | Store p v k => fun _ m => Some (k, store m p v, AStore p v)
  | Cas p e d k => fun _ m =>
      if load m p =? e then Some (k true, store m p d, ACas p e d true) else Some (k false, m, ACas p e d false)
  | Add p f k => fun _ m => Some (k (load m p), store m p (f (load m p)), AAdd p (load m p) (f (load m p)))
  | Choose k => fun c m => Some (k c, m, ATau)
  | Loop body s k => fun _ m => Some (bind (body s) (fun r => match r with inl s => Loop body s k | inr b => k b end), m, ATau)
  end.

Section Machine.
Context {A : Type}.

(** The memory and the threads. *)
Definition config : Type := mem * list (prog A).

Inductive step : config -> nat * access -> config -> Prop :=
| step_thread m ts i q c q' m' l : ts !! i = Some q -> act q c m = Some (q', m', l) -> step (m, ts) (i, l) (m', <[i := q']> ts).

(** Runs and what they did, in order. *)
Inductive run : config -> list (nat * access) -> config -> Prop :=
| run_nil s : run s [] s
| run_snoc s tr s' l s'' : run s tr s' -> step s' l s'' -> run s (tr ++ [l]) s''.

(** Rule induction: what holds at first and is kept by every step holds in every run. *)
Lemma run_invariant (I : list (nat * access) -> config -> Prop) s : I [] s ->
  (forall tr s' l s'', I tr s' -> step s' l s'' -> I (tr ++ [l]) s'') -> forall tr s', run s tr s' -> I tr s'.
Proof. intros H0 HS tr s' R. induction R; eauto. Qed.

(** A schedule of threads and choices, run as long as its threads can act. *)
Fixpoint schedule (sch : list (nat * bool)) (s : config) : config :=
  match sch with
  | [] => s
  | (i, c) :: sch =>
      match snd s !! i with
      | Some q => match act q c (fst s) with
                  | Some (q', m', _) => schedule sch (m', <[i := q']> (snd s))
                  | None => schedule sch s
                  end
      | None => schedule sch s
      end
  end.

Lemma run_app s tr s' tr' s'' : run s tr s' -> run s' tr' s'' -> run s (tr ++ tr') s''.
Proof. intros H. induction 1; [by rewrite app_nil_r|]. rewrite app_assoc. econstructor; eauto. Qed.

Lemma schedule_run sch : forall s, exists tr, run s tr (schedule sch s).
Proof.
  induction sch as [|[i c] sch IH]; intros [m ts]; cbn [schedule fst snd]; [exists []; constructor|].
  destruct (ts !! i) as [q|] eqn:E; [|apply IH]. destruct (act q c m) as [[[q' m'] l]|] eqn:Ea; [|apply IH].
  destruct (IH (m', <[i := q']> ts)) as [tr R]. exists ([(i, l)] ++ tr). eapply run_app; [|exact R].
  apply (run_snoc _ [] (m, ts)); [constructor|]. by econstructor.
Qed.

(** A thread that has ended, and what it returned. *)
Definition returned (q : prog A) : option A := match q with Ret a => Some a | _ => None end.
End Machine.
Arguments config : clear implicits.

(** ** Programs that keep to a protocol

    Each thread is given a ghost state, which says what it knows and what it may do: a request the protocol allows it, and for each access the
    ghost states it may lead to.  A program conforms when in every case it makes only requests it may make. *)

Inductive request := RLoad (p : Z) | RStore (p v : Z) | RCas (p expected desired : Z) | RAdd (p : Z) (f : Z -> Z).

(** What memory answers to a request. *)
Definition serve (r : request) (m : mem) : mem * access :=
  match r with
  | RLoad p => (m, ALoad p (load m p))
  | RStore p v => (store m p v, AStore p v)
  | RCas p e d => if load m p =? e then (store m p d, ACas p e d true) else (m, ACas p e d false)
  | RAdd p f => (store m p (f (load m p)), AAdd p (load m p) (f (load m p)))
  end.

Class Protocol (G : Type) := { may : G -> request -> Prop; leads : G -> access -> G -> Prop }.

Section Conforms.
Context {G : Type} `{!Protocol G}.

Fixpoint conforms {A} (q : prog A) : G -> (A -> G -> Prop) -> Prop :=
  match q in prog A return G -> (A -> G -> Prop) -> Prop with
  | Ret a => fun g post => post a g
  | Load p k => fun g post => may g (RLoad p) /\ forall v g', leads g (ALoad p v) g' -> conforms (k v) g' post
  | Store p v k => fun g post => may g (RStore p v) /\ forall g', leads g (AStore p v) g' -> conforms k g' post
  | Cas p e d k => fun g post => may g (RCas p e d) /\ forall b g', leads g (ACas p e d b) g' -> conforms (k b) g' post
  | Add p f k => fun g post => may g (RAdd p f) /\ forall v g', leads g (AAdd p v (f v)) g' -> conforms (k v) g' post
  | Choose k => fun g post => forall c, conforms (k c) g post
  | Loop body s k => fun g post => exists (J : _ -> G -> Prop) (mid : _ -> G -> Prop), J s g /\
      (forall s g, J s g -> conforms (body s) g (fun r g => match r with inl s => J s g | inr b => mid b g end)) /\
      (forall b g, mid b g -> conforms (k b) g post)
  end.

Lemma conforms_bind {A} (q : prog A) : forall {B} (f : A -> prog B) g (mid : A -> G -> Prop) post,
  conforms q g mid -> (forall a g, mid a g -> conforms (f a) g post) -> conforms (bind q f) g post.
Proof.
  induction q as [A a|A p k IH|A p v k IH|A p e d k IH|A p h k IH|A k IH|S B0 A body IHb s k IHk]; intros B f g mid post H Hf;
    cbn [bind conforms] in *; [by apply Hf|..]; try (destruct H as [M H]; split; [done|]; intros; eapply IH; eauto).
  - intros c. eapply IH; eauto.
  - destruct H as (J & mid' & Js & Hb & Hk). exists J, mid'. split_and!; [done|done|]. intros b g' Hm. eapply IHk; eauto.
Qed.

Lemma conforms_mono {A} (q : prog A) g (post post' : A -> G -> Prop) :
  conforms q g post -> (forall a g, post a g -> post' a g) -> conforms q g post'.
Proof.
  revert g post post'. induction q as [A a|A p k IH|A p v k IH|A p e d k IH|A p h k IH|A k IH|S B0 A body IHb s k IHk]; intros g post post' H Hp;
    cbn [conforms] in *; [by apply Hp|..]; try (destruct H as [M H]; split; [done|]; intros; eapply IH; eauto).
  - intros c. eapply IH; eauto.
  - destruct H as (J & mid' & Js & Hb & Hk). exists J, mid'. split_and!; [done|done|]. intros b g' Hm. eapply IHk; eauto.
Qed.

(** A loop whose body keeps [J] and establishes [mid] when it leaves. *)
Lemma conforms_loop {S B A} (body : S -> prog (S + B)) s (k : B -> prog A) g (J : S -> G -> Prop) mid post : J s g ->
  (forall s g, J s g -> conforms (body s) g (fun r g => match r with inl s => J s g | inr b => mid b g end)) ->
  (forall b g, mid b g -> conforms (k b) g post) -> conforms (Loop body s k) g post.
Proof. intros. by exists J, mid. Qed.

(** An action of a conforming program is silent, or a request it may make. *)
Lemma conforms_act {A} (q : prog A) c m q' m' l g post : conforms q g post -> act q c m = Some (q', m', l) ->
  (m' = m /\ l = ATau /\ conforms q' g post) \/
  (exists r, may g r /\ serve r m = (m', l) /\ forall g', leads g l g' -> conforms q' g' post).
Proof.
  intros H E. destruct q as [A a|A p k|A p v k|A p e d k|A p h k|A k|S B0 A body s k]; cbn [conforms act] in *.
  - done.
  - injection E as <- <- <-. right. exists (RLoad p). destruct H as [M H]. split_and!; [done|done|]. intros; by apply H.
  - injection E as <- <- <-. right. exists (RStore p v). destruct H as [M H]. split_and!; [done|done|]. intros; by apply H.
  - right. exists (RCas p e d). destruct H as [M H]. cbn [serve]. destruct (load m p =? e); injection E as <- <- <-; split_and!; try done; intros; by apply H.
  - injection E as <- <- <-. right. exists (RAdd p h). destruct H as [M H]. split_and!; [done|done|]. intros; by apply H.
  - injection E as <- <- <-. left. split_and!; [done|done|]. apply H.
  - injection E as <- <- <-. left. split_and!; [done|done|]. destruct H as (J & mid & Js & Hb & Hk).
    eapply conforms_bind; [by apply Hb|]. intros [s'|b] g' Hr; cbn in *; [by apply (conforms_loop _ _ _ _ J mid)|by apply Hk].
Qed.

(** The invariant [Inv] relates what was done so far, memory and the ghost states; a request that a thread may make leads it to a ghost state
    that keeps the invariant. *)
Class Sound (Inv : list (nat * access) -> mem -> list G -> Prop) : Prop := {
  sound_request tr m gs i g r m' l : Inv tr m gs -> gs !! i = Some g -> may g r -> serve r m = (m', l) ->
    exists g', leads g l g' /\ Inv (tr ++ [(i, l)]) m' (<[i := g']> gs);
  sound_silent tr m gs i : Inv tr m gs -> Inv (tr ++ [(i, ATau)]) m gs }.

(** Threads that conform keep conforming, and the invariant holds throughout. *)
Lemma conforming {A} (Inv : list (nat * access) -> mem -> list G -> Prop) `{!Sound Inv} (post : A -> G -> Prop) m ts gs :
  Inv [] m gs -> Forall2 (fun q g => conforms q g post) ts gs ->
  forall tr s, run (m, ts) tr s -> exists gs, Inv tr (fst s) gs /\ Forall2 (fun q g => conforms q g post) (snd s) gs.
Proof.
  intros I0 C0. apply run_invariant; [by exists gs|]. intros tr [m1 ts1] l [m2 ts2] (gs1 & I1 & C1) St. cbn [fst snd] in *.
  inversion St as [m' ts' i q c q' m'' a Hq Ha]; subst. destruct (Forall2_lookup_l _ _ _ _ _ C1 Hq) as (g & Hg & Cq).
  destruct (conforms_act q c m1 q' m2 a g post Cq Ha) as [(-> & -> & Cq')|(r & M & Sv & L)].
  - exists gs1. split; [by apply sound_silent|]. rewrite <- (list_insert_id gs1 i g) by done. by apply Forall2_insert.
  - destruct (sound_request tr m1 gs1 i g r m2 a I1 Hg M Sv) as (g' & Lg & I2). exists (<[i := g']> gs1). split; [done|].
    apply Forall2_insert; [done|by apply L].
Qed.
End Conforms.
