(* ===== verification/Mutex.v ===== *)
(** * Mutexes

    [Mutex] of [pando-rt/sync/mutex.hpp] and [SimpleLock] of [pando-lib-galois/sync/simple_lock.hpp]: a word that is 0 or 1, taken with
    compare-and-exchange and given back with a store. *)

From stdpp Require Import list.
From S2P Require Import Prelude GlobalPtr Threads.

Module Mutex.

(** src/pando-rt/include/pando-rt/sync/mutex.hpp:17-19 [State] *)
Definition IsUnlocked : Z := 0.
Definition IsLocked : Z := 1.

(** src/pando-rt/include/pando-rt/sync/mutex.hpp:23-27 [initialize] of the mutex at [p] *)
Definition initialize (p : Z) : prog unit := Store p IsUnlocked (Ret tt).
(** src/pando-rt/include/pando-rt/sync/mutex.hpp:70-76 [try_lock] *)
Definition try_lock (p : Z) : prog bool := Cas p IsUnlocked IsLocked Ret.
(** src/pando-rt/include/pando-rt/sync/mutex.hpp:61-63 [lock] *)
Definition lock (p : Z) : prog unit := Loop (fun _ => bind (try_lock p) (fun b => Ret (if b : bool then inr tt else inl tt))) tt Ret.
(** src/pando-rt/include/pando-rt/sync/mutex.hpp:80-84 [unlock] *)
Definition unlock (p : Z) : prog unit := Store p IsUnlocked (Ret tt).

(** ** [SimpleLock] *)

Module SimpleLock.
(** src/include/pando-lib-galois/sync/simple_lock.hpp:20-27 [SimpleLock] *)
Record SimpleLock := mkLock { m_state : Z }.
(** src/include/pando-lib-galois/sync/simple_lock.hpp:50-55 [initialize]; [answer] is that of the memory resource *)
Definition initialize (answer : Z + Status) (l : SimpleLock) (m : mem) : Status * SimpleLock * mem :=
  match answer with inr err => (err, l, m) | inl p => (Success, mkLock p, store m p IsUnlocked) end.
(** src/include/pando-lib-galois/sync/simple_lock.hpp:71-76 [deinitialize]; the pointers to free *)
Definition deinitialize (l : SimpleLock) : list Z * SimpleLock := if ptr_eqb (m_state l) nullptr then ([], l) else ([m_state l], mkLock nullptr).
(** src/include/pando-lib-galois/sync/simple_lock.hpp:91-97 [try_lock] *)
Definition try_lock (l : SimpleLock) : prog bool := Cas (m_state l) IsUnlocked IsLocked Ret.
(** src/include/pando-lib-galois/sync/simple_lock.hpp:81-83 [lock] *)
Definition lock (l : SimpleLock) : prog unit := Loop (fun _ => bind (try_lock l) (fun b => Ret (if b : bool then inr tt else inl tt))) tt Ret.
(** src/include/pando-lib-galois/sync/simple_lock.hpp:101-104 [unlock] *)
Definition unlock (l : SimpleLock) : prog unit := Store (m_state l) IsUnlocked (Ret tt).
End SimpleLock.

(** ** Critical sections *)

Section Exclusion.
Context (p : Z).

(** A body that keeps off the mutex. *)
Fixpoint keeps_off {A} (q : prog A) : Prop :=
  match q with
  | Ret _ => True
  | Load a k => a <> p /\ forall v, keeps_off (k v)
  | Store a v k => a <> p /\ keeps_off k
  | Cas a e d k => a <> p /\ forall b, keeps_off (k b)
  | Add a f k => a <> p /\ forall v, keeps_off (k v)
  | Choose k => forall c, keeps_off (k c)
  | Loop body s k => (forall s, keeps_off (body s)) /\ forall b, keeps_off (k b)
  end.

(** A thread that runs [bodies], each with the mutex held. *)
Fixpoint sections (bodies : list (prog unit)) : prog unit :=
  match bodies with
  | [] => Ret tt
  | body :: bodies => bind (lock p) (fun _ => bind body (fun _ => bind (unlock p) (fun _ => sections bodies)))
  end.

(** Who holds the mutex after one more access, when [h] did before; [None] when the access is not as it should be: the mutex taken while it is
    held, given back by another thread, or anything else accessed by a thread that does not hold it. *)
Definition audit1 (h : option nat) (x : nat * access) : option (option nat) :=
  let '(i, a) := x in
  let inside := if decide (h = Some i) then Some h else None in
  match a with
  | ATau => Some h
  | ACas q _ _ true => if q =? p then (if decide (h = None) then Some (Some i) else None) else inside
  | ACas q _ _ false => if q =? p then Some h else inside
  | AStore q _ => if q =? p then (if decide (h = Some i) then Some None else None) else inside
  | ALoad q _ | AAdd q _ _ => if q =? p then None else inside
  end.
Definition audit (tr : list (nat * access)) : option (option nat) :=
  fold_left (fun h x => match h with Some h => audit1 h x | None => None end) tr (Some None).

Lemma audit_snoc tr x : audit (tr ++ [x]) = match audit tr with Some h => audit1 h x | None => None end.
Proof. unfold audit. by rewrite fold_left_app. Qed.

(** The protocol: whether a thread holds the mutex. *)
#[local] Instance lock_protocol : Protocol bool := {
  may held r := match r with
    | RLoad a | RAdd a _ => a <> p /\ held = true
    | RStore a v => held = true /\ (a = p -> v = IsUnlocked)
    | RCas a e d => if a =? p then held = false /\ e = IsUnlocked /\ d = IsLocked else held = true
    end;
  leads held a held' := match a with
    | ACas a _ _ true => held' = if a =? p then true else held
    | AStore a _ => held' = if a =? p then false else held
    | _ => held' = held
    end }.

Definition lock_inv (tr : list (nat * access)) (m : mem) (gs : list bool) : Prop :=
  exists h, audit tr = Some h /\ load m p = (if h is Some _ then IsLocked else IsUnlocked) /\ forall i g, gs !! i = Some g -> g = bool_decide (h = Some i).

#[local] Instance lock_sound : Sound lock_inv.
Proof.
  constructor.
  - intros tr m gs i g r m' l (h & Ha & Hm & Hg) Gi M Sv. pose proof (Hg i g Gi) as Gh.
    assert (Same : forall l', audit1 h (i, l') = Some h -> lock_inv (tr ++ [(i, l')]) m (<[i := g]> gs)).
    { intros l' E. exists h. rewrite audit_snoc, Ha. split_and!; [done|done|]. intros j g' Hj. rewrite list_insert_id in Hj by done. by apply Hg. }
    assert (Other : forall a v l', a <> p -> audit1 h (i, l') = Some h -> lock_inv (tr ++ [(i, l')]) (store m a v) (<[i := g]> gs)).
    { intros a v l' N E. exists h. rewrite audit_snoc, Ha, load_store_ne by done. split_and!; [done|done|].
      intros j g' Hj. rewrite list_insert_id in Hj by done. by apply Hg. }
    destruct r as [a|a v|a e d|a f]; cbn [may lock_protocol serve] in *.
    + injection Sv as <- <-. destruct M as [N ->]. symmetry in Gh. apply bool_decide_eq_true in Gh. exists true. split; [done|].
      apply Same. cbn. rewrite (proj2 (Z.eqb_neq _ _)) by done. by rewrite decide_True.
    + injection Sv as <- <-. destruct M as [-> Mv]. symmetry in Gh. apply bool_decide_eq_true in Gh. cbn [leads lock_protocol].
      eexists. split; [done|]. destruct (Z.eqb_spec a p) as [->|N].
      * exists None. rewrite audit_snoc, Ha. cbn. rewrite Z.eqb_refl, decide_True, load_store_eq by done. split_and!; [done|by rewrite Mv|].
        intros j g' Hj. rewrite bool_decide_eq_false_2 by done. apply list_lookup_insert_Some in Hj as [(_ & <- & _)|(Nj & Hj)]; [done|].
        rewrite (Hg j g' Hj). apply bool_decide_eq_false_2. congruence.
      * apply Other; [done|]. cbn. rewrite (proj2 (Z.eqb_neq _ _)) by done. by rewrite decide_True.
    + destruct (Z.eqb_spec a p) as [->|N].
      * destruct M as (-> & -> & ->). destruct (Z.eqb_spec (load m p) IsUnlocked) as [E|E]; injection Sv as <- <-; cbn [leads lock_protocol]; rewrite ?Z.eqb_refl.
        -- assert (h = None) as -> by (destruct h; [rewrite Hm in E; done|done]). eexists. split; [done|]. exists (Some i).
           rewrite audit_snoc, Ha. cbn. rewrite Z.eqb_refl, load_store_eq. split_and!; [done|done|].
           intros j g' Hj. apply list_lookup_insert_Some in Hj as [(-> & <- & _)|(Nj & Hj)]; [by rewrite bool_decide_eq_true_2|].
           rewrite (Hg j g' Hj). by rewrite !bool_decide_eq_false_2 by congruence.
        -- exists false. split; [done|]. apply Same. cbn. by rewrite Z.eqb_refl.
      * symmetry in Gh. rewrite M in Gh. apply bool_decide_eq_true in Gh.
        assert (forall b, audit1 h (i, ACas a e d b) = Some h) as E by (intros []; cbn; rewrite (proj2 (Z.eqb_neq _ _)) by done; by rewrite decide_True).
        destruct (load m a =? e); injection Sv as <- <-; cbn [leads lock_protocol]; rewrite ?(proj2 (Z.eqb_neq a p)) by done; exists g;
          (split; [done|]); [by apply Other|by apply Same].
    + injection Sv as <- <-. destruct M as [N ->]. symmetry in Gh. apply bool_decide_eq_true in Gh. exists true. split; [done|].
      apply Other; [done|]. cbn. rewrite (proj2 (Z.eqb_neq _ _)) by done. by rewrite decide_True.
  - intros tr m gs i (h & Ha & Hm & Hg). exists h. rewrite audit_snoc, Ha. done.
Qed.

Lemma keeps_off_conforms {A} (q : prog A) : keeps_off q -> conforms q true (fun _ held => held = true).
Proof.
  induction q as [A a|A a k IH|A a v k IH|A a e d k IH|A a f k IH|A k IH|S B A body IHb s k IHk]; cbn [keeps_off conforms]; intros H; [done|..].
  - destruct H as [N H]. split; [done|]. intros v g' ->. by apply IH.
  - destruct H as [N H]. split; [by split|]. intros g' L. cbn in L. rewrite (proj2 (Z.eqb_neq _ _)) in L by done. subst g'. by apply IH.
  - destruct H as [N H]. cbn [may leads lock_protocol]. rewrite (proj2 (Z.eqb_neq _ _)) by done. split; [done|]. intros [] g' ->; by apply IH.
  - destruct H as [N H]. split; [done|]. intros v g' ->. by apply IH.
  - intros c. by apply IH.
  - destruct H as [Hb Hk]. exists (fun _ held => held = true), (fun _ held => held = true). split_and!; [done| |].
    + intros s' g ->. eapply conforms_mono; [by apply IHb|]. by intros [] g.
    + intros b g ->. by apply IHk.
Qed.

Lemma lock_conforms : conforms (lock p) false (fun _ held => held = true).
Proof.
  exists (fun _ held => held = false), (fun _ held => held = true). split_and!; [done| |done].
  intros [] g ->. cbn [bind try_lock conforms may leads lock_protocol]. rewrite Z.eqb_refl. split; [done|]. by intros [] g' ->.
Qed.
Lemma unlock_conforms : conforms (unlock p) true (fun _ held => held = false).
Proof. cbn. split; [by split|]. intros g' ->. by rewrite Z.eqb_refl. Qed.

Lemma sections_conforms bodies : Forall keeps_off bodies -> conforms (sections bodies) false (fun _ held => held = false).
Proof.
  induction 1 as [|body bodies K _ IH]; [done|]. cbn [sections]. eapply conforms_bind; [apply lock_conforms|]. intros _ g ->.
  eapply conforms_bind; [by apply keeps_off_conforms|]. intros _ g ->. eapply conforms_bind; [apply unlock_conforms|]. by intros _ g ->.
Qed.

(** C9: however threads that run critical sections are interleaved, the mutex is taken only when no thread holds it and given back by the
    thread that holds it, everything else is accessed by the thread that holds it only, and the word of the mutex says whether it is held. *)
Theorem mutex_exclusion (threads : list (list (prog unit))) (m : mem) tr s :
  Forall (Forall keeps_off) threads -> load m p = IsUnlocked -> run (m, map sections threads) tr s ->
  exists h, audit tr = Some h /\ load (fst s) p = (if h is Some _ then IsLocked else IsUnlocked).
Proof.
  intros K Hm R. destruct (conforming lock_inv (fun _ held => held = false) m (map sections threads) (map (fun _ => false) threads)) with (3 := R) as (gs & (h & Ha & Hl & _) & _).
  - exists None. split_and!; [done|done|]. intros i g Hg. rewrite list_lookup_fmap in Hg. by destruct (threads !! i); [injection Hg as <-|].
  - clear R. induction K as [|bodies threads Kb _ IH]; cbn [map]; constructor; [by apply sections_conforms|done].
  - by exists h.
Qed.
End Exclusion.

(** ** A counter

    Threads that add 1 to the word at [c] with a load and a store of their own, each time with the mutex held. *)

Section Counter.
Context (p c : Z) (Hpc : c <> p) (ks : list nat).

Definition increment : prog unit := Load c (fun v => Store c (u64 (v + 1)) (Ret tt)).

(** Where a thread is: the number of sections it is to run and has run, and how far it is in the current one. *)
Inductive phase := Out | In | Got (v : Z) | Put.
Record progress := mkProgress { target : nat; finished : nat; at_ : phase }.
Definition set_at g ph := mkProgress (target g) (finished g) ph.
(** The additions of a thread that have reached memory. *)
Definition added (g : progress) : nat := finished g + (match at_ g with Put => 1 | _ => 0 end).

#[local] Instance counter_protocol : Protocol progress := {
  may g r := match r with
    | RLoad a => a = c /\ at_ g = In
    | RStore a v => (exists x, a = c /\ at_ g = Got x /\ v = u64 (x + 1)) \/ (a = p /\ at_ g = Put /\ v = IsUnlocked)
    | RCas a e d => a = p /\ at_ g = Out /\ e = IsUnlocked /\ d = IsLocked
    | RAdd _ _ => False
    end;
  leads g a g' := match a with
    | ALoad _ v => g' = set_at g (Got v)
    | AStore a _ => g' = if a =? p then mkProgress (target g) (S (finished g)) Out else set_at g Put
    | ACas _ _ _ b => g' = if b then set_at g In else g
    | _ => g' = g
    end }.

Record counter_inv (tr : list (nat * access)) (m : mem) (gs : list progress) : Prop := mkCounter {
  c_targets : map target gs = ks;
  c_sum : load m c = u64 (Z.of_nat (sum_list (map added gs)));
  c_held : exists h : option nat, load m p = (if h is Some _ then IsLocked else IsUnlocked) /\ forall i g, gs !! i = Some g -> (at_ g = Out <-> h <> Some i);
  c_got : forall i g v, gs !! i = Some g -> at_ g = Got v -> v = load m c }.

Lemma sum_added gs i g g' : gs !! i = Some g -> (sum_list (map added (<[i := g']> gs)) + added g = sum_list (map added gs) + added g')%nat.
Proof.
  intros H. change (map added (<[i := g']> gs)) with (added <$> <[i := g']> gs). rewrite list_fmap_insert. apply sum_list_insert.
  by rewrite list_lookup_fmap, H.
Qed.

(** A thread changes its phase and what it has added, and memory accordingly. *)
Lemma counter_step tr tr' m m' gs i g g' (h h' : option nat) : counter_inv tr m gs -> gs !! i = Some g ->
  load m p = (if h is Some _ then IsLocked else IsUnlocked) -> (forall j g, gs !! j = Some g -> (at_ g = Out <-> h <> Some j)) ->
  load m' p = (if h' is Some _ then IsLocked else IsUnlocked) -> (at_ g' = Out <-> h' <> Some i) -> (forall j, j <> i -> h = Some j <-> h' = Some j) ->
  load m' c = u64 (load m c + Z.of_nat (added g') - Z.of_nat (added g)) ->
  (forall v, at_ g' = Got v -> v = load m' c) -> (load m' c = load m c \/ h = Some i) -> target g' = target g -> counter_inv tr' m' (<[i := g']> gs).
Proof.
  intros I Hg Hm Hh Hm' Hg' Ho Hc Hv Hs Ht. constructor.
  - change (map target (<[i := g']> gs)) with (target <$> <[i := g']> gs). rewrite list_fmap_insert, Ht, <- (c_targets _ _ _ I).
    apply list_insert_id. by rewrite list_lookup_fmap, Hg.
  - rewrite Hc, (c_sum _ _ _ I). pose proof (sum_added gs i g g' Hg) as E. unfold Z.sub. rewrite <- Z.add_assoc, wrapU_add_l. f_equal. lia.
  - exists h'. split; [done|]. intros j g1 Hj. apply list_lookup_insert_Some in Hj as [(<- & <- & _)|(N & Hj)]; [done|].
    rewrite (Hh j g1 Hj). rewrite (Ho j); done.
  - intros j g1 v Hj Ha. apply list_lookup_insert_Some in Hj as [(<- & <- & _)|(N & Hj)]; [by apply Hv|].
    destruct Hs as [->| ->]; [by apply (c_got _ _ _ I j g1)|]. exfalso.
    assert (at_ g1 = Out) by (apply (Hh j g1 Hj); congruence). congruence.
Qed.

Lemma same_sum tr m gs g g' : counter_inv tr m gs -> added g' = added g -> load m c = u64 (load m c + Z.of_nat (added g') - Z.of_nat (added g)).
Proof. intros I ->. rewrite (c_sum _ _ _ I). unfold wrapU. rewrite Z.add_simpl_r. by rewrite Z.mod_mod by lia. Qed.

#[local] Instance counter_sound : Sound counter_inv.
Proof.
  constructor; [|intros tr m gs i [A B C D]; by constructor].
  intros tr m gs i g r m' l I Hg M Sv. destruct (c_held _ _ _ I) as (h & Hm & Hh). pose proof (Hh i g Hg) as Hi.
  assert (Hin : at_ g <> Out -> h = Some i) by (intros X; destruct (decide (h = Some i)); [done|]; by destruct X; apply Hi).
  destruct r as [a|a v|a e d|a f]; cbn [may counter_protocol serve] in *; [| | |done].
  - destruct M as [-> E]. injection Sv as <- <-. cbn [leads counter_protocol]. eexists. split; [done|]. rewrite E in Hin, Hi. specialize (Hin ltac:(done)).
    eapply (counter_step tr _ m m gs i g _ h h I Hg Hm Hh Hm); cbn [at_ set_at]; [by split|done| |by intros v [= <-]|by left|done].
    apply (same_sum tr m gs); [done|]. unfold added. cbn. by rewrite E.
  - destruct M as [(x & -> & E & ->)|(-> & E & ->)]; injection Sv as <- <-; cbn [leads counter_protocol]; rewrite E in Hin, Hi; specialize (Hin ltac:(done)).
    + rewrite (proj2 (Z.eqb_neq c p)) by done. eexists. split; [done|]. pose proof (c_got _ _ _ I i g x Hg E) as ->.
      eapply (counter_step tr _ m _ gs i g _ h h I Hg Hm Hh); cbn [at_ set_at]; [by rewrite load_store_ne|by split|done| |done|by right|done].
      rewrite load_store_eq. f_equal. unfold added. cbn. rewrite E. lia.
    + rewrite Z.eqb_refl. eexists. split; [done|].
      eapply (counter_step tr _ m _ gs i g _ h None I Hg Hm Hh); cbn [at_]; [by rewrite load_store_eq|by split| | |done|left; by rewrite load_store_ne|done].
      * intros j Hj. rewrite Hin. split; [intros [= ->]; done|done].
      * rewrite load_store_ne by done. apply (same_sum tr m gs); [done|]. unfold added. cbn. rewrite E. lia.
  - destruct M as (-> & E & -> & ->). destruct (Z.eqb_spec (load m p) IsUnlocked) as [Q|Q]; injection Sv as <- <-; cbn [leads counter_protocol].
    + assert (h = None) as -> by (destruct h; [rewrite Hm in Q; done|done]). eexists. split; [done|].
      eapply (counter_step tr _ m _ gs i g _ None (Some i) I Hg Hm Hh); cbn [at_ set_at]; [by rewrite load_store_eq| | | |done|left; by rewrite load_store_ne|done].
      * split; [done|]. intros X. by destruct X.
      * intros j Hj. split; [done|]. intros [= ->]. done.
      * rewrite load_store_ne by done. apply (same_sum tr m gs); [done|]. unfold added. cbn. by rewrite E.
    + exists g. split; [done|]. rewrite list_insert_id by done. destruct I. by constructor.
Qed.

Definition between (k done : nat) (g : progress) : Prop := g = mkProgress k done Out.

Lemma increments_conform n : forall k done, (done + n = k)%nat ->
  conforms (sections p (repeat increment n)) (mkProgress k done Out) (fun _ g => between k k g).
Proof.
  induction n as [|n IH]; intros k done E; cbn [repeat sections]; [cbn; unfold between; do 2 f_equal; lia|].
  eapply (conforms_bind _ _ _ (fun _ g => g = mkProgress k done In)).
  { exists (fun _ g => g = mkProgress k done Out), (fun _ g => g = mkProgress k done In). split_and!; [done| |done].
    intros [] g ->. cbn. split; [done|]. by intros [] g' ->. }
  intros _ g ->. cbn [bind increment conforms may leads counter_protocol unlock]. split; [done|]. intros v g' ->. cbn [set_at target finished at_].
  split; [left; by exists v|]. intros g' ->. rewrite (proj2 (Z.eqb_neq c p)) by done. cbn [set_at target finished at_].
  split; [by right|]. intros g' ->. rewrite Z.eqb_refl. cbn [target finished]. apply IH. lia.
Qed.

(** No addition is lost: when all threads have ended, the counter has been increased once for every section they were to run, although each
    addition is a load and a store. *)
Theorem mutex_counter (m : mem) tr s : load m p = IsUnlocked -> load m c = 0 ->
  run (m, map (fun k => sections p (repeat increment k)) ks) tr s -> Forall (fun q => returned q <> None) (snd s) ->
  load (fst s) c = u64 (Z.of_nat (sum_list ks)).
Proof.
  intros Hp Hc R F.
  destruct (conforming counter_inv (fun _ g => between (target g) (target g) g) m (map (fun k => sections p (repeat increment k)) ks)
    (map (fun k => mkProgress k 0 Out) ks)) with (3 := R) as (gs & I & C).
  - constructor.
    + rewrite map_map. cbn. apply map_id.
    + rewrite Hc, map_map. unfold added. cbn. replace (sum_list _) with 0%nat; [done|]. clear. induction ks; cbn; congruence || lia.
    + exists None. split; [done|]. intros i g Hg. apply list_lookup_fmap_Some in Hg as (k & -> & _). cbn. by split.
    + intros i g v Hg. apply list_lookup_fmap_Some in Hg as (k & -> & _). done.
  - clear R. induction ks as [|k l IH]; cbn [map]; constructor; [|done]. eapply conforms_mono; [by apply increments_conform|].
    intros _ g ->. done.
  - rewrite (c_sum _ _ _ I), <- (c_targets _ _ _ I). do 3 f_equal. revert F. clear -C. induction C as [|q g ts gs Cq C IH]; [done|].
    intros [Fq F]%Forall_cons. cbn [map]. f_equal; [|by apply IH]. clear IH. destruct q; cbn in Fq; try done. cbn in Cq. rewrite Cq. unfold added. cbn. lia.
Qed.
End Counter.

(** Two threads that take turns until both have ended; [increment] twice each, the mutex at 8 and the counter at 16. *)
Definition empty : mem := ∅.
Definition turns (n : nat) : list (nat * bool) := concat (repeat [(0%nat, true); (1%nat, true)] n).

Lemma mutex_exclusion_witness : exists tr h,
  run (empty, map (sections 8) [[increment 16; increment 16]; [increment 16]]) tr (schedule (turns 9) (empty, map (sections 8) [[increment 16; increment 16]; [increment 16]])) /\
  audit 8 tr = Some h.
Proof.
  destruct (schedule_run (turns 9) (empty, map (sections 8) [[increment 16; increment 16]; [increment 16]])) as [tr R].
  destruct (fun K => mutex_exclusion 8 [[increment 16; increment 16]; [increment 16]] empty tr _ K ltac:(vm_compute; reflexivity) R) as (h & A & _); [|by exists tr, h].
  repeat constructor; cbn; intros; repeat split; discriminate.
Defined.

Lemma mutex_counter_witness : exists tr s,
  run (empty, map (fun k => sections 8 (repeat (increment 16) k)) [2; 1]%nat) tr s /\ load (fst s) 16 = 3.
Proof.
  destruct (schedule_run (turns 20) (empty, map (fun k => sections 8 (repeat (increment 16) k)) [2; 1]%nat)) as [tr R].
  exists tr. eexists. split; [exact R|]. apply (mutex_counter 8 16 ltac:(discriminate) [2; 1]%nat empty tr); [vm_compute; reflexivity|vm_compute; reflexivity|exact R|].
  vm_compute. repeat constructor; discriminate.
Defined.

End Mutex.
