(* ===== verification/Notification.v ===== *)
(** * Notifications, futures and barriers

    [pando-rt/sync/notification.hpp], [pando-rt/sync/future.hpp] and [pando-lib-galois/sync/global_barrier.hpp], with the busy waiting of
    [pando-rt/sync/wait.hpp] on the PREP backend.  A [bool] in memory is 0 or 1.  Whether a timeout has expired when a waiter asks is the
    environment's choice. *)

From stdpp Require Import list gmap.
From S2P Require Import Prelude GlobalPtr Threads.

Module Notification.

(** src/pando-rt/include/pando-rt/sync/wait.hpp:29-36 [monitorUntil] *)
Definition monitorUntil (ptr value : Z) : prog unit :=
  Loop (fun _ => Load ptr (fun v => Ret (if v =? value then inr tt else inl tt))) tt Ret.
(** src/pando-rt/include/pando-rt/sync/wait.hpp:60-67 [monitorUntilNot] *)
Definition monitorUntilNot (ptr value : Z) : prog unit :=
  Loop (fun _ => Load ptr (fun v => Ret (if v =? value then inl tt else inr tt))) tt Ret.

(** src/pando-rt/include/pando-rt/sync/notification.hpp:39-42 [NotificationHandle::notify] of the handle of [flag] *)
Definition notify (flag : Z) : prog unit := Store flag 1 (Ret tt).

(** ** A single flag *)

Module Single.
(** src/pando-rt/include/pando-rt/sync/notification.hpp:63-65 [Notification] *)
Record Notification := mkNotification { m_flag : Z; m_ownsFlag : bool }.
(** src/pando-rt/include/pando-rt/sync/notification.hpp:147-149 [reset] *)
Definition reset (n : Notification) (m : mem) : mem := store m (m_flag n) 0.
(** src/pando-rt/include/pando-rt/sync/notification.hpp:96-112 [init]; [flag] is what the memory resource answers *)
Definition init (flag : Z) (n : Notification) (m : mem) : Status * Notification * mem :=
  if negb (ptr_eqb (m_flag n) nullptr) then (AlreadyInit, n, m) else
  if ptr_eqb flag nullptr then (BadAlloc, mkNotification flag (m_ownsFlag n), m) else
  let n := mkNotification flag true in (Success, n, reset n m).
(** src/pando-rt/include/pando-rt/sync/notification.hpp:120-135 [init] with a flag of the caller *)
Definition init_with (flag : Z) (n : Notification) (m : mem) : Status * Notification * mem :=
  if ptr_eqb flag nullptr then (InvalidValue, n, m) else
  if negb (ptr_eqb (m_flag n) nullptr) then (AlreadyInit, n, m) else
  let n := mkNotification flag false in (Success, n, reset n m).
(** src/pando-rt/include/pando-rt/sync/notification.hpp:140-142 [getHandle] *)
Definition getHandle (n : Notification) : Z := m_flag n.
(** src/pando-rt/include/pando-rt/sync/notification.hpp:154-160 [done] *)
Definition done_ (n : Notification) : prog bool := Load (m_flag n) (fun v => Ret (v =? 1)).
(** src/pando-rt/include/pando-rt/sync/notification.hpp:165-167 [wait] *)
Definition wait (n : Notification) : prog unit := monitorUntil (m_flag n) 1.
(** src/pando-rt/include/pando-rt/sync/notification.hpp:177-193 [waitFor] *)
Definition waitFor (n : Notification) : prog bool :=
  Loop (fun _ => bind (done_ n) (fun d => if d : bool then Ret (inr true) else Choose (fun expired => Ret (if expired : bool then inr false else inl tt)))) tt Ret.
End Single.

(** ** An array of flags *)

(** src/pando-rt/include/pando-rt/sync/notification.hpp:216-218 [NotificationArray] *)
Record NotificationArray := mkArray { m_flags : Z; m_size : Z; m_ownsFlags : bool }.
(** src/pando-rt/include/pando-rt/sync/notification.hpp:301-303 [size] *)
Definition size (a : NotificationArray) : Z := m_size a.
(** src/pando-rt/include/pando-rt/sync/notification.hpp:310-312 [getHandle] *)
Definition getHandle (a : NotificationArray) (pos : Z) : Z := ptr_add 1 (m_flags a) pos.
(** src/pando-rt/include/pando-rt/sync/notification.hpp:317-321 [reset] *)
Definition reset (a : NotificationArray) (m : mem) : mem :=
  fold_left (fun m i => store m (ptr_add 1 (m_flags a) i) 0) (seqZ 0 (m_size a)) m.
(** src/pando-rt/include/pando-rt/sync/notification.hpp:251-272 [init]; [flags] is what the memory resource answers *)
Definition init (flags : Z) (n : Z) (a : NotificationArray) (m : mem) : Status * NotificationArray * mem :=
  if negb (ptr_eqb (m_flags a) nullptr) then (AlreadyInit, a, m) else
  if n =? 0 then (Success, a, m) else
  if ptr_eqb flags nullptr then (BadAlloc, mkArray flags (m_size a) (m_ownsFlags a), m) else
  let a := mkArray flags n true in (Success, a, reset a m).
(** src/pando-rt/include/pando-rt/sync/notification.hpp:280-296 [init] with flags of the caller *)
Definition init_with (flags : Z) (n : Z) (a : NotificationArray) (m : mem) : Status * NotificationArray * mem :=
  if ptr_eqb flags nullptr then (InvalidValue, a, m) else
  if negb (ptr_eqb (m_flags a) nullptr) then (AlreadyInit, a, m) else
  let a := mkArray flags n false in (Success, a, reset a m).
(** src/pando-rt/include/pando-rt/sync/notification.hpp:326-332 [done] of one event *)
Definition done_at (a : NotificationArray) (pos : Z) : prog bool := Load (ptr_add 1 (m_flags a) pos) (fun v => Ret (v =? 1)).
(** src/pando-rt/include/pando-rt/sync/notification.hpp:337-345 [done] of all events *)
Definition done_all (a : NotificationArray) : prog bool :=
  Loop (fun i => if i <? size a then Load (ptr_add 1 (m_flags a) i) (fun v => Ret (if v =? 0 then inr false else inl (u64 (i + 1)))) else Ret (inr true)) 0 Ret.
(** src/pando-rt/include/pando-rt/sync/notification.hpp:350-352 [wait] for one event *)
Definition wait_at (a : NotificationArray) (pos : Z) : prog unit := monitorUntil (ptr_add 1 (m_flags a) pos) 1.
(** src/pando-rt/include/pando-rt/sync/notification.hpp:357-361 [wait] for all events *)
Definition wait_all (a : NotificationArray) : prog unit :=
  Loop (fun doneIndex => if doneIndex <? size a
    then bind (monitorUntil (ptr_add 1 (m_flags a) doneIndex) 1) (fun _ => Ret (inl (u64 (doneIndex + 1)))) else Ret (inr tt)) 0 Ret.
(** src/pando-rt/include/pando-rt/sync/notification.hpp:373-389 [waitFor] one event *)
Definition waitFor_at (a : NotificationArray) (pos : Z) : prog bool :=
  Loop (fun _ => bind (done_at a pos) (fun d => if d : bool then Ret (inr true) else Choose (fun expired => Ret (if expired : bool then inr false else inl tt)))) tt Ret.
(** src/pando-rt/include/pando-rt/sync/notification.hpp:399-425 [waitFor] all events *)
Definition waitFor_all (a : NotificationArray) : prog bool :=
  Loop (fun doneIndex =>
    bind (Loop (fun i => if i <? size a then Load (ptr_add 1 (m_flags a) i) (fun v => Ret (if v =? 0 then inr i else inl (u64 (i + 1)))) else Ret (inr i)) doneIndex Ret)
      (fun doneIndex => if doneIndex =? size a then Ret (inr true) else Choose (fun expired => Ret (if expired : bool then inr false else inl doneIndex)))) 0 Ret.

(** ** Futures *)

Module Future.
(** src/pando-rt/include/pando-rt/sync/future.hpp:32-32 [s_errorPtr] *)
Definition s_errorPtr : Z := 2 ^ 64 - 1.
(** src/pando-rt/include/pando-rt/sync/future.hpp:70-70 [Future] *)
Record Future := mkFuture { m_ptr : Z }.
(** src/pando-rt/include/pando-rt/sync/future.hpp:94-104 [init] *)
Definition init (ptr : Z) (f : Future) (m : mem) : Status * Future * mem :=
  if ptr_eqb ptr nullptr then (InvalidValue, f, m) else
  if negb (ptr_eqb (m_ptr f) nullptr) then (AlreadyInit, f, m) else (Success, mkFuture ptr, store m ptr nullptr).
(** src/pando-rt/include/pando-rt/sync/future.hpp:113-122 [initNoReset] *)
Definition initNoReset (ptr : Z) (f : Future) (m : mem) : Status * Future * mem :=
  if ptr_eqb ptr nullptr then (InvalidValue, f, m) else
  if negb (ptr_eqb (m_ptr f) nullptr) then (AlreadyInit, f, m) else (Success, mkFuture ptr, m).
(** src/pando-rt/include/pando-rt/sync/future.hpp:129-131 [getPromise]: the pointer it sets *)
Definition getPromise (f : Future) : Z := m_ptr f.
(** src/pando-rt/include/pando-rt/sync/future.hpp:55-57 [Promise::setValue] *)
Definition setValue (promise val : Z) : prog unit := Store promise val (Ret tt).
(** src/pando-rt/include/pando-rt/sync/future.hpp:64-66 [Promise::setFailure] *)
Definition setFailure (promise : Z) : prog unit := Store promise s_errorPtr (Ret tt).
(** src/pando-rt/include/pando-rt/sync/future.hpp:138-141 [wait] *)
Definition wait (f : Future) : prog bool :=
  bind (monitorUntilNot (m_ptr f) nullptr) (fun _ => Load (m_ptr f) (fun v => Ret (negb (s_errorPtr =? v)))).
End Future.

(** ** Barriers *)

Module Barrier.
(** src/include/pando-lib-galois/sync/global_barrier.hpp:17-19 [GlobalBarrier] *)
Record GlobalBarrier := mkBarrier { m_count : Z }.
(** src/include/pando-lib-galois/sync/global_barrier.hpp:39-45 [initialize]; [answer] is that of the memory resource *)
Definition initialize (answer : Z + Status) (initialCount : Z) (b : GlobalBarrier) (m : mem) : Status * GlobalBarrier * mem :=
  match answer with inr err => (err, b, m) | inl p => (Success, mkBarrier p, store m p initialCount) end.
(** src/include/pando-lib-galois/sync/global_barrier.hpp:63-68 [deinitialize]; the pointers to free *)
Definition deinitialize (b : GlobalBarrier) : list Z * GlobalBarrier := if ptr_eqb (m_count b) nullptr then ([], b) else ([m_count b], mkBarrier nullptr).
(** src/include/pando-lib-galois/sync/global_barrier.hpp:75-77 [add]; [delta] has 32 bits *)
Definition add (b : GlobalBarrier) (delta : Z) : prog unit := Add (m_count b) (fun v => wrapS 64 (v + delta)) (fun _ => Ret tt).
(** src/include/pando-lib-galois/sync/global_barrier.hpp:82-84 [addOne] *)
Definition addOne (b : GlobalBarrier) : prog unit := add b 1.
(** src/include/pando-lib-galois/sync/global_barrier.hpp:89-91 [done] *)
Definition done_ (b : GlobalBarrier) : prog unit := Add (m_count b) (fun v => wrapS 64 (v - 1)) (fun _ => Ret tt).
(** src/include/pando-lib-galois/sync/global_barrier.hpp:96-104 [wait] *)
Definition wait (b : GlobalBarrier) : prog Status :=
  bind (monitorUntil (m_count b) 0) (fun _ => Load (m_count b) (fun v => Ret (if v <? 0 then Error else Success))).
End Barrier.

(** ** Clients: what is published before a notification

    Notifiers write a payload and notify; others wait for one event or for all, in every way there is, and read the payloads. *)

Section Publish.
Context (a : NotificationArray) (n : nat) (da : nat -> Z) (x : nat -> Z).
(** The flags are [n] consecutive bytes; the payloads are elsewhere, each in its place. *)
Context (Hsize : m_size a = Z.of_nat n) (Hlow : 0 <= m_flags a) (Hhigh : m_flags a + Z.of_nat n < 2 ^ 62).
Context (Hda : forall i j, (i < n)%nat -> (j < n)%nat -> da i = da j -> i = j).
Context (Hapart : forall i j, (i < n)%nat -> (j < n)%nat -> m_flags a + Z.of_nat i <> da j).

Local Abbreviation flag i := (m_flags a + Z.of_nat i).

Inductive client := Notifier (i : nat) | WaitAll | WaitForAll | PollAll | WaitAt (i : nat) | WaitForAt (i : nat) | PollAt (i : nat) | WaitSingle (i : nat) | WaitForSingle (i : nat).

Fixpoint read_payloads (es : list nat) : prog (list Z) :=
  match es with
  | [] => Ret []
  | i :: es => Load (da i) (fun v => bind (read_payloads es) (fun l => Ret (v :: l)))
  end.
Definition read_some (es : list nat) : prog (option (list Z)) := bind (read_payloads es) (fun l => Ret (Some l)).
Definition read_if (b : bool) (es : list nat) : prog (option (list Z)) := if b then read_some es else Ret None.
Definition single (i : nat) : Single.Notification := Single.mkNotification (getHandle a (Z.of_nat i)) false.

Definition run_client (k : client) : prog (option (list Z)) :=
  match k with
  | Notifier i => Store (da i) (x i) (bind (notify (getHandle a (Z.of_nat i))) (fun _ => Ret None))
  | WaitAll => bind (wait_all a) (fun _ => read_some (seq 0 n))
  | WaitForAll => bind (waitFor_all a) (fun b => read_if b (seq 0 n))
  | PollAll => bind (done_all a) (fun b => read_if b (seq 0 n))
  | WaitAt i => bind (wait_at a (Z.of_nat i)) (fun _ => read_some [i])
  | WaitForAt i => bind (waitFor_at a (Z.of_nat i)) (fun b => read_if b [i])
  | PollAt i => bind (done_at a (Z.of_nat i)) (fun b => read_if b [i])
  | WaitSingle i => bind (Single.wait (single i)) (fun _ => read_some [i])
  | WaitForSingle i => bind (Single.waitFor (single i)) (fun b => read_if b [i])
  end.

(** The events a client waits for. *)
Definition awaited (k : client) : list nat :=
  match k with
  | Notifier _ => []
  | WaitAll | WaitForAll | PollAll => seq 0 n
  | WaitAt i | WaitForAt i | PollAt i | WaitSingle i | WaitForSingle i => [i]
  end.
Definition valid (k : client) : Prop := match k with Notifier i => (i < n)%nat | _ => forall i, i ∈ awaited k -> (i < n)%nat end.

(** A thread: who it is, how far a notifier is, and the events it knows to have occurred. *)
Record thread := mkThread { who : client; stage : nat; known : gset nat }.
Definition learn (g : thread) (i : nat) : thread := mkThread (who g) (stage g) ({[i]} ∪ known g).

#[local] Instance publish_protocol : Protocol thread := {
  may g r := match r with
    | RLoad p => (exists i, (i < n)%nat /\ p = flag i) \/ (exists i, i ∈ known g /\ p = da i)
    | RStore p v => exists i, who g = Notifier i /\ (i < n)%nat /\ (p = da i /\ v = x i /\ stage g = 0%nat \/ p = flag i /\ v = 1 /\ stage g = 1%nat)
    | _ => False
    end;
  leads g l g' := match l with
    | ALoad p v => (exists i, (i < n)%nat /\ p = flag i /\ (v = 0 /\ g' = g \/ v = 1 /\ g' = learn g i)) \/ (exists i, i ∈ known g /\ (i < n)%nat /\ p = da i /\ v = x i /\ g' = g)
    | AStore _ _ => g' = mkThread (who g) (S (stage g)) (known g)
    | _ => g' = g
    end }.

Record publish_inv (clients : list client) (tr : list (nat * access)) (m : mem) (gs : list thread) : Prop := mkPublish {
  p_who : map who gs = clients;
  p_flag : forall i, (i < n)%nat -> load m (flag i) = 0 \/ load m (flag i) = 1 /\ load m (da i) = x i;
  p_stage : forall t g i, gs !! t = Some g -> who g = Notifier i -> (0 < stage g)%nat -> load m (da i) = x i;
  p_valid : forall t g i, gs !! t = Some g -> who g = Notifier i -> (i < n)%nat;
  p_known : forall t g i, gs !! t = Some g -> i ∈ known g -> (i < n)%nat /\ load m (flag i) = 1 }.

(** Only thread [t] changes, and not who it is. *)
Lemma publish_update clients tr tr' m m' gs t g g' : publish_inv clients tr m gs -> gs !! t = Some g -> who g' = who g ->
  (forall i, (i < n)%nat -> load m' (flag i) = 0 \/ load m' (flag i) = 1 /\ load m' (da i) = x i) ->
  (forall i, (i < n)%nat -> load m (flag i) = 1 -> load m' (flag i) = 1) -> (forall i, (i < n)%nat -> load m (da i) = x i -> load m' (da i) = x i) ->
  (forall i, who g' = Notifier i -> (0 < stage g')%nat -> load m' (da i) = x i) ->
  (forall i, i ∈ known g' -> (i < n)%nat /\ load m' (flag i) = 1) -> publish_inv clients tr' m' (<[t := g']> gs).
Proof.
  intros [W F S V K] Hg Hw F' Mf Md S' K'. constructor.
  - rewrite <- W. change (map who (<[t := g']> gs)) with (who <$> <[t := g']> gs). rewrite list_fmap_insert, Hw.
    apply list_insert_id. by rewrite list_lookup_fmap, Hg.
  - done.
  - intros t' h i [(<- & <- & _)|(_ & Hj)]%list_lookup_insert_Some Hh Hs; [by apply S'|]. apply Md; [by apply (V t' h)|by apply (S t' h)].
  - intros t' h i [(<- & <- & _)|(_ & Hj)]%list_lookup_insert_Some Hh; [apply (V t g); congruence|by apply (V t' h)].
  - intros t' h i [(<- & <- & _)|(_ & Hj)]%list_lookup_insert_Some Hk; [by apply K'|]. destruct (K t' h i Hj Hk). auto.
Qed.

#[local] Instance publish_sound clients : Sound (publish_inv clients).
Proof.
  constructor; [|intros tr m gs t [A B C D E]; by constructor].
  intros tr m gs t g r m' l I Hg M Sv. pose proof I as [W F S V K]. destruct r as [p|p v|p e d|p f]; cbn [may publish_protocol serve] in *; [| |done|done].
  - injection Sv as <- <-. destruct M as [(i & Hi & ->)|(i & Hi & ->)].
    + destruct (F i Hi) as [E|[E D]].
      * exists g. split; [left; exists i; auto|]. rewrite list_insert_id by done. by constructor.
      * exists (learn g i). split; [left; exists i; auto|]. eapply publish_update; try done; cbn [who stage known learn].
        -- intros j Hw Hs. by apply (S t g).
        -- intros j [->%elem_of_singleton_1|Hk]%elem_of_union; [done|]. by apply (K t g).
    + exists g. destruct (K t g i Hg Hi) as [Li Fi]. split; [right; exists i|]; [|rewrite list_insert_id by done; by constructor].
      destruct (F i Li) as [E|[_ D]]; [congruence|]. done.
  - destruct M as (i & Hw & Hi & [(-> & -> & St)|(-> & -> & St)]); injection Sv as <- <-; cbn [leads publish_protocol]; eexists; (split; [done|]).
    + assert (Ff : forall j, (j < n)%nat -> load (store m (da i) (x i)) (flag j) = load m (flag j)) by
        (intros j Hj; apply load_store_ne; intros E; by apply (Hapart j i)).
      assert (Fd : forall j, (j < n)%nat -> load m (da j) = x j \/ j = i -> load (store m (da i) (x i)) (da j) = x j).
      { intros j Hj Q. rewrite load_store. destruct (decide (da i = da j)) as [E|E]; [by rewrite (Hda i j Hi Hj E)|]. by destruct Q as [Q| ->]. }
      eapply publish_update; try done; cbn [who stage known].
      * intros j Hj. rewrite Ff by done. destruct (F j Hj) as [E|[E D]]; [by left|right]. split; [done|]. apply Fd; auto.
      * intros j Hj. by rewrite Ff.
      * intros j Hj E. apply Fd; auto.
      * intros j Hj _. rewrite Hw in Hj. injection Hj as <-. apply Fd; auto.
      * intros j Hk. destruct (K t g j Hg Hk). by rewrite Ff.
    + assert (Fd : forall j, (j < n)%nat -> load (store m (flag i) 1) (da j) = load m (da j)) by
        (intros j Hj; apply load_store_ne; by apply Hapart).
      assert (Ff : forall j, (j < n)%nat -> load (store m (flag i) 1) (flag j) = 1 /\ j = i \/ load (store m (flag i) 1) (flag j) = load m (flag j)).
      { intros j Hj. rewrite load_store. destruct (decide (flag i = flag j)) as [E|E]; [left; split; [done|lia]|by right]. }
      assert (Dx : load m (da i) = x i) by (apply (S t g i Hg Hw); lia).
      eapply publish_update; try done; cbn [who stage known].
      * intros j Hj. rewrite Fd by done. destruct (Ff j Hj) as [(E & ->)|E]; rewrite E; auto.
      * intros j Hj E. destruct (Ff j Hj) as [(Q & ->)|Q]; congruence.
      * intros j Hj E. by rewrite Fd.
      * intros j Hj _. rewrite Hw in Hj. injection Hj as <-. by rewrite Fd.
      * intros j Hk. destruct (K t g j Hg Hk) as [Lj Ej]. split; [done|]. destruct (Ff j Lj) as [(Q & ->)|Q]; congruence.
Qed.

(** *** The waits teach what they wait for *)

Lemma handle_flag i : (i < n)%nat -> ptr_add 1 (m_flags a) (Z.of_nat i) = flag i.
Proof. intros Hi. rewrite ptr_add_small; [lia| |]; unfold inU; lia. Qed.

Definition knows (w : client) (es : list nat) (g : thread) : Prop := who g = w /\ forall i, i ∈ es -> i ∈ known g.
Lemma knows_learn w es g i : knows w es g -> knows w (i :: es) (learn g i).
Proof. intros [W K]. split; [done|]. intros j [->|Hj]%elem_of_cons; cbn; set_solver. Qed.
Lemma knows_snoc w k g : knows w (seq 0 k) g -> knows w (seq 0 (S k)) (learn g k).
Proof. intros H. rewrite seq_S. destruct (knows_learn w _ g k H) as [W K]. split; [done|]. intros j Hj. apply K. set_solver. Qed.
Lemma knows_nil w es g : knows w es g -> knows w [] g.
Proof. intros [W _]. split; [done|]. intros j Hj. by apply elem_of_nil in Hj. Qed.

(** A load of the flag of event [i], and of a payload that is known to be there. *)
Lemma load_flag {A} (k : Z -> prog A) i g post : (i < n)%nat -> conforms (k 0) g post -> conforms (k 1) (learn g i) post -> conforms (Load (flag i) k) g post.
Proof.
  intros Hi H0 H1. split; [left; by exists i|]. intros v g1 [(j & Hj & E & [[-> ->]|[-> ->]])|(j & _ & Hj & E & _)].
  - done.
  - by replace j with i by lia.
  - by destruct (Hapart i j Hi Hj).
Qed.
Lemma load_payload {A} (k : Z -> prog A) i g post : (i < n)%nat -> i ∈ known g -> conforms (k (x i)) g post -> conforms (Load (da i) k) g post.
Proof.
  intros Hi Hk H. split; [right; by exists i|]. intros v g1 [(j & Hj & E & _)|(j & _ & Hj & E & -> & ->)].
  - by destruct (Hapart j i Hj Hi).
  - by rewrite <- (Hda i j Hi Hj E).
Qed.

Lemma monitor_flag w i g : (i < n)%nat -> forall es, knows w es g -> conforms (monitorUntil (flag i) 1) g (fun _ g => knows w (i :: es) g).
Proof.
  intros Hi es Hk. eapply (conforms_loop _ _ _ _ (fun _ g => knows w es g) (fun _ g => knows w (i :: es) g)); [done| |done].
  intros [] g' Hg. apply load_flag; [done|done|]. cbn. by apply knows_learn.
Qed.

(** A test of one event that may be given up. *)
Lemma polled_flag {S} w i es g (s : S) (body : S -> prog (S + bool)) : (i < n)%nat -> knows w es g ->
  (forall s, body s = bind (Load (flag i) (fun v => Ret (v =? 1))) (fun d => if d : bool then Ret (inr true) else Choose (fun expired => Ret (if expired : bool then inr false else inl s)))) ->
  conforms (Loop body s Ret) g (fun b g => knows w (if b : bool then i :: es else es) g).
Proof.
  intros Hi Hk Hb. eapply (conforms_loop _ _ _ _ (fun _ g => knows w es g) (fun b g => knows w (if b : bool then i :: es else es) g)); [done| |done].
  intros s' g' Hg. rewrite Hb. cbn [bind]. apply load_flag; [done| |].
  - cbn. by intros [].
  - cbn. by apply knows_learn.
Qed.

Lemma read_conforms w es : Forall (fun i => (i < n)%nat) es -> forall g es', knows w (es ++ es') g ->
  conforms (read_payloads es) g (fun l g => l = map x es /\ who g = w).
Proof.
  induction 1 as [|i es Hi _ IH]; intros g es' Hk; cbn [read_payloads map]; [cbn; by destruct Hk|].
  apply load_payload; [done|apply Hk; by left|]. eapply conforms_bind; [apply (IH g (i :: es'))|].
  - destruct Hk as [W K]. split; [done|]. intros j Hj. apply K. set_solver.
  - intros l g' [-> W]. done.
Qed.

(** What a client is to return: nothing, or the payloads of what it waits for. *)
Definition result_of (r : option (list Z)) (g : thread) : Prop := r = None \/ r = Some (map x (awaited (who g))).
Lemma read_some_conforms w g : Forall (fun i => (i < n)%nat) (awaited w) -> knows w (awaited w) g -> conforms (read_some (awaited w)) g result_of.
Proof.
  intros F Hk. unfold read_some. eapply conforms_bind; [apply (read_conforms w _ F g [])|]; [by rewrite app_nil_r|]. intros l g' [-> <-]. by right.
Qed.
Lemma read_if_conforms w g (b : bool) es : Forall (fun i => (i < n)%nat) (awaited w) -> knows w (if b then awaited w else es) g -> conforms (read_if b (awaited w)) g result_of.
Proof. intros F Hk. destruct b; [by apply read_some_conforms|by left]. Qed.

(** Walking over the flags from the first one on. *)
Lemma index_S k : (k < n)%nat -> u64 (Z.of_nat k + 1) = Z.of_nat (S k).
Proof. intros H. rewrite wrapU_id by (unfold inU; lia). lia. Qed.
Definition upto (w : client) (i : Z) (g : thread) : Prop := exists k, i = Z.of_nat k /\ (k <= n)%nat /\ knows w (seq 0 k) g.
Lemma upto_end w i g : upto w i g -> (i <? size a) = false -> knows w (seq 0 n) g.
Proof. unfold size. rewrite Hsize. intros (k & -> & Hk & K) E. apply Z.ltb_ge in E. by replace n with k by lia. Qed.
Lemma upto_next w i g : upto w i g -> (i <? size a) = true -> exists k, i = Z.of_nat k /\ (k < n)%nat /\ knows w (seq 0 k) g /\
  forall g, knows w (seq 0 (S k)) g -> upto w (u64 (i + 1)) g.
Proof.
  unfold size. rewrite Hsize. intros (k & -> & Hk & K) E. apply Z.ltb_lt in E. exists k. split_and!; [done|lia|done|].
  intros g' K'. exists (S k). rewrite index_S by lia. split_and!; [done|lia|done].
Qed.

(** A walk that may stop early at a flag that is not set. *)
Lemma done_all_conforms w g : knows w [] g -> conforms (done_all a) g (fun b g => knows w (if b : bool then seq 0 n else []) g).
Proof.
  intros Hg. eapply (conforms_loop _ _ _ _ (upto w) (fun b g => knows w (if b : bool then seq 0 n else []) g)).
  - exists 0%nat. split_and!; [done|lia|done].
  - intros i g' U. destruct (i <? size a) eqn:E; [|cbn; by apply upto_end with i].
    destruct (upto_next w i g' U E) as (k & -> & Lk & Kk & N). rewrite handle_flag by done. apply load_flag; [done| |]; cbn.
    + by apply knows_nil in Kk.
    + by apply N, knows_snoc.
  - done.
Qed.
Lemma wait_all_conforms w g : knows w [] g -> conforms (wait_all a) g (fun _ g => knows w (seq 0 n) g).
Proof.
  intros Hg. eapply (conforms_loop _ _ _ _ (upto w) (fun _ g => knows w (seq 0 n) g)); [exists 0%nat; split_and!; [done|lia|done]| |done].
  intros i g' U. destruct (i <? size a) eqn:E; [|cbn; by apply upto_end with i].
  destruct (upto_next w i g' U E) as (k & -> & Lk & Kk & N). rewrite handle_flag by done.
  eapply conforms_bind; [by apply (monitor_flag w k g' Lk (seq 0 k))|]. intros [] g1 K1. cbn. apply N. rewrite seq_S. destruct K1 as [W1 K2].
  split; [done|]. intros j Hj. apply K2. set_solver.
Qed.
Lemma waitFor_all_conforms w g : knows w [] g -> conforms (waitFor_all a) g (fun b g => knows w (if b : bool then seq 0 n else []) g).
Proof.
  intros Hg. eapply (conforms_loop _ _ _ _ (upto w) (fun b g => knows w (if b : bool then seq 0 n else []) g)); [exists 0%nat; split_and!; [done|lia|done]| |done].
  intros d g' U. eapply (conforms_bind _ _ _ (upto w)).
  - eapply (conforms_loop _ _ _ _ (upto w) (upto w)); [done| |done]. intros i g1 U1. destruct (i <? size a) eqn:E; [|done].
    destruct (upto_next w i g1 U1 E) as (k & -> & Lk & Kk & N). rewrite handle_flag by done. apply load_flag; [done| |]; cbn.
    + exists k. split_and!; [done|lia|done].
    + by apply N, knows_snoc.
  - intros i g1 U1. destruct (Z.eqb_spec i (size a)) as [E|E]; cbn.
    + apply upto_end with i; [done|]. apply Z.ltb_ge. lia.
    + intros []; cbn; [|done]. destruct U1 as (k & _ & _ & K). by apply knows_nil in K.
Qed.

Lemma client_conforms w : valid w -> conforms (run_client w) (mkThread w 0 ∅) result_of.
Proof.
  intros V. assert (K0 : knows w [] (mkThread w 0 ∅)) by (split; [done|]; intros j Hj; by apply elem_of_nil in Hj).
  assert (F : Forall (fun i => (i < n)%nat) (awaited w)) by (apply Forall_forall; destruct w; [intros j Hj; by apply elem_of_nil in Hj|exact V..]).
  assert (Hi : forall i, awaited w = [i] -> (i < n)%nat) by (intros i E; rewrite E in F; by inversion F).
  destruct w as [i| | | |i|i|i|i|i]; cbn [run_client]; cbn [awaited] in F, Hi.
  - cbn in V. cbn. split; [exists i; split_and!; [done|done|by left]|]. intros g ->. unfold getHandle. rewrite handle_flag by done.
    split; [exists i; split_and!; [done|done|by right]|]. intros g ->. by left.
  - eapply conforms_bind; [by apply (wait_all_conforms WaitAll)|]. intros [] g K. by apply (read_some_conforms WaitAll).
  - eapply conforms_bind; [by apply (waitFor_all_conforms WaitForAll)|]. intros b g K. by apply (read_if_conforms WaitForAll g b []).
  - eapply conforms_bind; [by apply (done_all_conforms PollAll)|]. intros b g K. by apply (read_if_conforms PollAll g b []).
  - specialize (Hi i eq_refl). unfold wait_at. rewrite handle_flag by done.
    eapply conforms_bind; [exact (monitor_flag (WaitAt i) i _ Hi [] K0)|]. intros [] g K. by apply (read_some_conforms (WaitAt i)).
  - specialize (Hi i eq_refl). unfold waitFor_at, done_at. rewrite handle_flag by done.
    eapply conforms_bind; [apply (polled_flag (WaitForAt i) i []); [done|done|by intros []]|]. intros b g K. by apply (read_if_conforms (WaitForAt i) g b []).
  - specialize (Hi i eq_refl). unfold done_at. rewrite handle_flag by done. cbn [bind]. apply load_flag; [done|by left|].
    apply (read_some_conforms (PollAt i)); [done|]. by apply knows_learn.
  - specialize (Hi i eq_refl). unfold Single.wait, single, getHandle. cbn [Single.m_flag]. rewrite handle_flag by done.
    eapply conforms_bind; [exact (monitor_flag (WaitSingle i) i _ Hi [] K0)|]. intros [] g K. by apply (read_some_conforms (WaitSingle i)).
  - specialize (Hi i eq_refl). unfold Single.waitFor, Single.done_, single, getHandle. cbn [Single.m_flag]. rewrite handle_flag by done.
    eapply conforms_bind; [apply (polled_flag (WaitForSingle i) i []); [done|done|by intros []]|]. intros b g K. by apply (read_if_conforms (WaitForSingle i) g b []).
Qed.

Lemma reset_loop k m q : (forall i, (i < k)%nat -> q <> flag i) -> (k <= n)%nat ->
  load (fold_left (fun m i => store m (ptr_add 1 (m_flags a) i) 0) (seqZ 0 (Z.of_nat k)) m) q = load m q.
Proof.
  intros H. induction k as [|k IH]; intros Hk; [done|]. rewrite Nat2Z.inj_succ, <- Z.add_1_r, seqZ_app, fold_left_app by lia.
  cbn [seqZ Z.to_nat seq fmap list_fmap Pos.to_nat Pos.iter_op fold_left]. change (seqZ (0 + Z.of_nat k) 1) with [0 + (0 + Z.of_nat k)]. cbn [fold_left].
  rewrite load_store_ne by (rewrite !Z.add_0_l, handle_flag by lia; specialize (H k ltac:(lia)); congruence). apply IH; [|lia]. intros i Hi. apply H. lia.
Qed.
Lemma reset_flag m i : (i < n)%nat -> load (reset a m) (flag i) = 0.
Proof.
  unfold reset. rewrite Hsize. intros Hi. assert (G : forall k, (i < k)%nat -> (k <= n)%nat ->
    load (fold_left (fun m i => store m (ptr_add 1 (m_flags a) i) 0) (seqZ 0 (Z.of_nat k)) m) (flag i) = 0); [|by apply G].
  induction k as [|k IH]; intros Hk Hn; [lia|]. rewrite Nat2Z.inj_succ, <- Z.add_1_r, seqZ_app, fold_left_app by lia.
  change (seqZ (0 + Z.of_nat k) 1) with [0 + (0 + Z.of_nat k)]. cbn [fold_left]. rewrite !Z.add_0_l, handle_flag by lia. rewrite load_store.
  destruct (decide (flag k = flag i)); [done|]. apply IH; lia.
Qed.

(** C10: after the flags were reset, under every interleaving of notifiers that write their payload and notify and of clients that wait, wait
    for some time or poll, for one event or for all, a client that reads at all reads the payloads of the events it waited for. *)
Theorem notification_publishes (clients : list client) (m : mem) tr s t k r : Forall valid clients ->
  run (reset a m, map run_client clients) tr s -> clients !! t = Some k -> snd s !! t = Some (Ret (Some r)) -> r = map x (awaited k).
Proof.
  intros V R Hk Hr.
  destruct (conforming (publish_inv clients) result_of (reset a m) (map run_client clients) (map (fun w => mkThread w 0 ∅) clients)) with (3 := R) as (gs & I & C).
  - constructor.
    + rewrite map_map. cbn. apply map_id.
    + intros i Hi. left. by apply reset_flag.
    + intros t' g i Hg. apply list_lookup_fmap_Some in Hg as (w & -> & _). cbn. lia.
    + intros t' g i Hg. apply list_lookup_fmap_Some in Hg as (w & -> & Hw). cbn. intros ->. rewrite Forall_lookup in V. by apply (V t' (Notifier i)).
    + intros t' g i Hg. apply list_lookup_fmap_Some in Hg as (w & -> & _). cbn. set_solver.
  - clear -V Hsize Hlow Hhigh Hda Hapart. induction V as [|w clients Vw _ IH]; cbn [map]; constructor; [by apply client_conforms|done].
  - destruct (Forall2_lookup_l _ _ _ _ _ C Hr) as (g & Hg & [E|E]); [done|]. injection E as ->. f_equal. f_equal.
    pose proof (p_who _ _ _ _ I) as W. apply (f_equal (.!! t)) in W. rewrite Hk, list_lookup_fmap, Hg in W. by injection W as ->.
Qed.
End Publish.

(** ** Clients of a future *)

Section FutureClients.
Import Future.
(** The future, and what the one setter does: a value, or failure. *)
Context (f : Future) (outcome : option Z).

Definition published : Z := match outcome with Some v => v | None => s_errorPtr end.

Definition set_future : prog (option (bool * Z)) :=
  bind (match outcome with Some v => setValue (getPromise f) v | None => setFailure (getPromise f) end) (fun _ => Ret None).
(** A waiter waits, and then reads the pointer. *)
Definition wait_future : prog (option (bool * Z)) := bind (wait f) (fun b => Load (m_ptr f) (fun q => Ret (Some (b, q)))).
Definition answer : bool * Z := (negb (s_errorPtr =? published), published).

(** Where a waiter is: it goes round the loop of [monitorUntilNot] or is about to load there, is about to load for the answer of [wait] or for the
    pointer, or has returned. *)
Definition waiting (q : prog (option (bool * Z))) : Prop := q = wait_future \/
  exists k, q = Load (m_ptr f) k /\ forall v, k v = if v =? nullptr then wait_future else
    Load (m_ptr f) (fun v => Load (m_ptr f) (fun q => Ret (Some (negb (s_errorPtr =? v), q)))).
Definition answering (q : prog (option (bool * Z))) : Prop :=
  q = Load (m_ptr f) (fun v => Load (m_ptr f) (fun q => Ret (Some (negb (s_errorPtr =? v), q)))) \/
  q = Load (m_ptr f) (fun q => Ret (Some (negb (s_errorPtr =? published), q))) \/ q = Ret (Some answer).

Lemma set_future_stores : set_future = Store (m_ptr f) published (Ret None).
Proof. unfold set_future, published. by destruct outcome. Qed.

(** The states a future and its clients go through: before and after the setting. *)
Inductive future_inv : config (option (bool * Z)) -> Prop :=
| future_unset m ws : load m (m_ptr f) = nullptr -> Forall waiting ws -> future_inv (m, set_future :: ws)
| future_set m ws : load m (m_ptr f) = published -> Forall (fun q => waiting q \/ published <> nullptr /\ answering q) ws -> future_inv (m, Ret None :: ws).

(** An action of a waiter leaves memory alone; in memory where the pointer is null it stays waiting. *)
Lemma waiting_act q c m q' m' l : waiting q -> act q c m = Some (q', m', l) ->
  m' = m /\ (waiting q' \/ load m (m_ptr f) <> nullptr /\ answering q').
Proof.
  intros [->|(k & -> & K)] E; cbn [act] in E.
  - injection E as <- <- _. split; [done|left; right]. eexists. split; [reflexivity|]. intros v. cbn. by destruct (v =? nullptr).
  - injection E as <- <- _. split; [done|]. rewrite K. destruct (Z.eqb_spec (load m (m_ptr f)) nullptr); [left; by left|right]. split; [done|by left].
Qed.
Lemma answering_act q c m q' m' l : load m (m_ptr f) = published -> answering q -> act q c m = Some (q', m', l) -> m' = m /\ answering q'.
Proof.
  intros L [->|[->| ->]] E; cbn [act] in E; [| |done]; injection E as <- <- _; rewrite L; (split; [done|]); right; [by left|by right].
Qed.

Lemma future_step s l s' : future_inv s -> step s l s' -> future_inv s'.
Proof.
  intros I St. inversion I as [m ws L F|m ws L F]; subst; inversion St as [? ? [|t] q c q' m' a Hq Ha]; subst; cbn in Hq.
  - injection Hq as <-. rewrite set_future_stores in Ha. injection Ha as <- <- <-. constructor; [apply load_store_eq|].
    apply (Forall_impl _ _ _ F). auto.
  - destruct (waiting_act q c m q' m' a (Forall_lookup_1 _ _ _ _ F Hq) Ha) as [-> [W|[N _]]]; [|done].
    constructor; [done|]. by apply Forall_insert.
  - by injection Hq as <-.
  - destruct (Forall_lookup_1 _ _ _ _ F Hq) as [W|[N A]].
    + destruct (waiting_act q c m q' m' a W Ha) as [-> H]. constructor; [done|]. apply Forall_insert; [done|].
      destruct H as [|[N A]]; [by left|right]. by rewrite L in N.
    + destruct (answering_act q c m q' m' a L A Ha) as [-> A']. constructor; [done|]. apply Forall_insert; [done|]. by right.
Qed.

Lemma future_run waiters m tr s : load m (m_ptr f) = nullptr -> run (m, set_future :: repeat wait_future waiters) tr s ->
  future_inv s /\ length (snd s) = S waiters.
Proof.
  intros Hm R. revert tr s R. apply run_invariant.
  - split; [constructor; [done|]|cbn; by rewrite repeat_length]. clear. induction waiters; cbn; constructor; [by left|done].
  - intros tr s l s' [I Ls] St. split; [by apply (future_step s l)|]. inversion St; subst. cbn in *. by rewrite length_insert.
Qed.

Lemma schedule_answering t c n m ws q : load m (m_ptr f) = published -> ws !! t = Some q -> answering q ->
  (2 <= n)%nat -> snd (schedule (repeat (t, c) n) (m, ws)) !! t = Some (Ret (Some answer)).
Proof.
  intros L. assert (D : forall n ws, ws !! t = Some (Ret (Some answer)) -> snd (schedule (repeat (t, c) n) (m, ws)) !! t = Some (Ret (Some answer))).
  { clear. induction n as [|n IH]; intros ws E; cbn [repeat schedule fst snd]; [done|]. rewrite E. cbn [act]. by apply IH. }
  intros E A Hn. destruct n as [|[|n]]; [lia|lia|]. pose proof (lookup_lt_Some _ _ _ E).
  destruct A as [->|[->| ->]]; [| |by apply D]; cbn [repeat schedule fst snd]; rewrite E; cbn [act]; rewrite L, list_lookup_insert_eq by done; cbn [act].
  - rewrite list_insert_insert_eq, L. apply D. by apply list_lookup_insert_eq.
  - by apply (D n), list_lookup_insert_eq.
Qed.
Lemma schedule_waiting t c m ws q : load m (m_ptr f) = published -> published <> nullptr -> ws !! t = Some q -> waiting q ->
  snd (schedule (repeat (t, c) 4) (m, ws)) !! t = Some (Ret (Some answer)).
Proof.
  intros L N E W. pose proof (lookup_lt_Some _ _ _ E). assert (G : forall n ws k, (2 <= n)%nat -> (t < length ws)%nat -> ws !! t = Some (Load (m_ptr f) k) ->
    (forall v, k v = if v =? nullptr then wait_future else Load (m_ptr f) (fun v => Load (m_ptr f) (fun q => Ret (Some (negb (s_errorPtr =? v), q))))) ->
    snd (schedule (repeat (t, c) (S n)) (m, ws)) !! t = Some (Ret (Some answer))).
  { intros n' ws' k Hn Lt E' K. cbn [repeat schedule fst snd]. rewrite E'. cbn [act]. rewrite L, K, (proj2 (Z.eqb_neq _ _)) by done.
    eapply schedule_answering; [done|by apply list_lookup_insert_eq|by left|done]. }
  destruct W as [->|(k & -> & K)]; [|apply (G 3%nat _ k); [lia|done|done|done]].
  change (repeat (t, c) 4) with ((t, c) :: repeat (t, c) 3). cbn [schedule fst snd]. rewrite E. unfold wait_future at 1, wait, monitorUntilNot. cbn [bind act].
  eapply (G 2%nat (<[t := _]> ws)); [lia|by rewrite length_insert|by apply list_lookup_insert_eq|]. intros v. cbn. by destruct (v =? nullptr).
Qed.

(** C12: a future that [init] made, with one setter and any number of waiters, under every interleaving: a waiter that has returned tells success
    from failure and has the pointer that was set; and wherever the threads are, a waiter returns when the setter has run and it has made four more
    steps of its own - unless the pointer set is null: then no waiter returns.  A pointer to the highest address is taken for a failure.  Only the
    word of the future is read and written: what the setter wrote elsewhere before is not claimed to be seen, as there is no fence. *)
Theorem future_publishes (ptr : Z) (waiters : nat) (m0 m : mem) tr s t : init ptr (mkFuture nullptr) m0 = (Success, f, m) ->
  run (m, set_future :: repeat wait_future waiters) tr s ->
  (forall r, snd s !! t = Some (Ret (Some r)) -> published <> nullptr /\ r = answer) /\
  (published <> nullptr -> (0 < t <= waiters)%nat ->
    snd (schedule ((0%nat, false) :: repeat (t, false) 4) s) !! t = Some (Ret (Some answer))).
Proof.
  intros E R. assert (Hm : load m (m_ptr f) = nullptr).
  { revert E. unfold init. destruct (ptr_eqb ptr nullptr); [done|]. cbn. intros [= <- <-]. apply load_store_eq. }
  clear E. destruct (future_run waiters m tr s Hm R) as [I Ls]. split.
  - intros r Hr. inversion I as [m1 ws L F|m1 ws L F]; subst; destruct t as [|t]; cbn in Hr.
    + by rewrite set_future_stores in Hr.
    + by destruct (Forall_lookup_1 _ _ _ _ F Hr) as [|(k & ? & _)].
    + by apply (f_equal (.≫= returned)) in Hr.
    + destruct (Forall_lookup_1 _ _ _ _ F Hr) as [[|(k & ? & _)]|[N [|[|E]]]]; try done.
      apply (f_equal returned) in E. by injection E as ->.
  - intros N [Ht Lt]. destruct t as [|t]; [lia|]. destruct (lookup_lt_is_Some_2 (snd s) (S t) ltac:(lia)) as [q Hq].
    inversion I as [m1 ws L F|m1 ws L F]; subst; cbn in Hq; cbn [schedule fst snd lookup list_lookup].
    + rewrite set_future_stores. cbn [act]. eapply schedule_waiting; [apply load_store_eq|done|exact Hq|]. apply (Forall_lookup_1 _ _ _ _ F Hq).
    + destruct (Forall_lookup_1 _ _ _ _ F Hq) as [W|[_ A]]; [by eapply schedule_waiting|]. by eapply schedule_answering; [..|lia].
Qed.
End FutureClients.

(** ** Clients of a barrier *)

Section BarrierClients.
Import Barrier.
(** Arrivals write a payload and are done; some add more arrivals before, for which they are done as well.  The barrier counts [n] arrivals. *)
Context (b : GlobalBarrier) (n : nat) (da : nat -> Z) (x : nat -> Z).
Context (Hda : forall i j, (i < n)%nat -> (j < n)%nat -> da i = da j -> i = j) (Hapart : forall i, (i < n)%nat -> m_count b <> da i).

Inductive party := Arrive (i extra : nat) | Await.

Fixpoint repeat_done (k : nat) : prog (option (Status * list Z)) :=
  match k with O => Ret None | S k => bind (done_ b) (fun _ => repeat_done k) end.
Fixpoint read_all (es : list nat) : prog (list Z) :=
  match es with
  | [] => Ret []
  | i :: es => Load (da i) (fun v => bind (read_all es) (fun l => Ret (v :: l)))
  end.
Definition run_party (k : party) : prog (option (Status * list Z)) :=
  match k with
  | Arrive i extra => Store (da i) (x i) (bind (add b (Z.of_nat extra)) (fun _ => repeat_done (S extra)))
  | Await => bind (wait b) (fun s => bind (read_all (seq 0 n)) (fun l => Ret (Some (s, l))))
  end.

(** The arrivals a thread may owe in the end. *)
Definition most (k : party) : nat := match k with Arrive _ extra => S extra | Await => 0 end.

Record bthread := mkBT { party_of : party; owes : nat; stored : bool; open : bool }.

#[local] Instance barrier_protocol : Protocol bthread := {
  may g r := match r with
    | RLoad p => p = m_count b \/ open g = true /\ exists i, (i < n)%nat /\ p = da i
    | RStore p v => exists i extra, party_of g = Arrive i extra /\ (i < n)%nat /\ p = da i /\ v = x i
    | RAdd p f => p = m_count b /\ stored g = true /\ (0 < owes g)%nat /\
        exists d, - 1 <= d /\ (forall v, f v = wrapS 64 (v + d)) /\ Z.of_nat (owes g) + d <= Z.of_nat (most (party_of g))
    | RCas _ _ _ => False
    end;
  leads g l g' := match l with
    | ALoad p v => p = m_count b /\ v <> 0 /\ open g = false /\ g' = g \/ p = m_count b /\ v = 0 /\ g' = mkBT (party_of g) (owes g) (stored g) true \/
        exists i, (i < n)%nat /\ p = da i /\ v = x i /\ g' = g
    | AStore _ _ => g' = mkBT (party_of g) (owes g) true (open g)
    | AAdd _ old new => 0 <= old < 2 ^ 62 /\ Z.of_nat (owes g') = Z.of_nat (owes g) + (new - old) /\
        party_of g' = party_of g /\ stored g' = stored g /\ open g' = open g
    | _ => g' = g
    end }.

Definition owed (gs : list bthread) : nat := sum_list (map owes gs).

Record barrier_inv (parties : list party) (tr : list (nat * access)) (m : mem) (gs : list bthread) : Prop := mkBarrier_inv {
  b_who : map party_of gs = parties;
  b_count : load m (m_count b) = Z.of_nat (owed gs);
  b_most : forall t g, gs !! t = Some g -> (owes g <= most (party_of g))%nat;
  b_stored : forall t g i extra, gs !! t = Some g -> party_of g = Arrive i extra -> if stored g then load m (da i) = x i else (0 < owes g)%nat;
  b_valid : forall t g i extra, gs !! t = Some g -> party_of g = Arrive i extra -> (i < n)%nat;
  b_open : forall t g, gs !! t = Some g -> open g = true -> owed gs = 0%nat }.

Context (parties : list party) (Hmost : Z.of_nat (sum_list (map most parties)) < 2 ^ 62).
Context (Hall : forall i, (i < n)%nat -> exists t extra, parties !! t = Some (Arrive i extra)).

Lemma owed_insert gs t g g' : gs !! t = Some g -> (owed (<[t := g']> gs) + owes g = owed gs + owes g')%nat.
Proof.
  intros H. unfold owed. change (map owes (<[t := g']> gs)) with (owes <$> <[t := g']> gs). rewrite list_fmap_insert. apply sum_list_insert.
  by rewrite list_lookup_fmap, H.
Qed.
Lemma owed_le gs t g : gs !! t = Some g -> (owes g <= owed gs)%nat.
Proof. intros H. pose proof (owed_insert gs t g (mkBT (party_of g) 0 (stored g) (open g)) H). cbn in *. lia. Qed.
Lemma owed_bound tr m gs : barrier_inv parties tr m gs -> Z.of_nat (owed gs) < 2 ^ 62.
Proof.
  intros I. enough (owed gs <= sum_list (map most parties))%nat by lia. rewrite <- (b_who _ _ _ _ I), map_map. unfold owed.
  pose proof (b_most _ _ _ _ I) as M. clear I. induction gs as [|g gs IH]; [done|]. cbn [map]. change (sum_list (?a :: ?l)) with (a + sum_list l)%nat.
  pose proof (M 0%nat g eq_refl). enough (sum_list (map owes gs) <= sum_list (map (fun g => most (party_of g)) gs))%nat by lia.
  apply IH. intros t h Ht. by apply (M (S t)).
Qed.
(** Once nothing is owed, every payload is there. *)
Lemma all_stored tr m gs i : barrier_inv parties tr m gs -> owed gs = 0%nat -> (i < n)%nat -> load m (da i) = x i.
Proof.
  intros I Z0 Hi. destruct (Hall i Hi) as (t & extra & Ht). rewrite <- (b_who _ _ _ _ I) in Ht.
  apply list_lookup_fmap_Some in Ht as (g & Ew & Hg). pose proof (b_stored _ _ _ _ I t g i extra Hg (eq_sym Ew)) as S.
  destruct (stored g); [done|]. pose proof (owed_le gs t g Hg). lia.
Qed.

Lemma barrier_update tr tr' m m' gs t g g' : barrier_inv parties tr m gs -> gs !! t = Some g -> party_of g' = party_of g ->
  load m' (m_count b) = load m (m_count b) + Z.of_nat (owes g') - Z.of_nat (owes g) -> (owes g' <= most (party_of g'))%nat ->
  (forall i, (i < n)%nat -> load m (da i) = x i -> load m' (da i) = x i) ->
  (forall i extra, party_of g' = Arrive i extra -> if stored g' then load m' (da i) = x i else (0 < owes g')%nat) ->
  (open g' = true -> owed (<[t := g']> gs) = 0%nat) -> (owed gs = 0%nat -> owes g' = 0%nat) -> barrier_inv parties tr' m' (<[t := g']> gs).
Proof.
  intros [W C M S V O] Hg Hw Hc Hm Hd Hs Ho Hz. pose proof (owed_insert gs t g g' Hg). constructor.
  - rewrite <- W. change (map party_of (<[t := g']> gs)) with (party_of <$> <[t := g']> gs). rewrite list_fmap_insert, Hw.
    apply list_insert_id. by rewrite list_lookup_fmap, Hg.
  - rewrite Hc, C. lia.
  - intros t' h [(<- & <- & _)|(_ & Hj)]%list_lookup_insert_Some; [done|by apply (M t')].
  - intros t' h i extra [(<- & <- & _)|(_ & Hj)]%list_lookup_insert_Some Hh; [by apply (Hs i extra)|].
    pose proof (S t' h i extra Hj Hh). destruct (stored h); [|done]. apply Hd; [by apply (V t' h i extra)|done].
  - intros t' h i extra [(<- & <- & _)|(_ & Hj)]%list_lookup_insert_Some Hh; [rewrite Hw in Hh; by apply (V t g i extra)|by apply (V t' h i extra)].
  - intros t' h [(<- & <- & _)|(_ & Hj)]%list_lookup_insert_Some Hh; [by apply Ho|]. pose proof (O t' h Hj Hh) as Z0. specialize (Hz Z0). lia.
Qed.

#[local] Instance barrier_sound : Sound (barrier_inv parties).
Proof.
  constructor; [|intros tr m gs t [A B C D E F]; by constructor].
  intros tr m gs t g r m' l I Hg M Sv. pose proof (owed_bound _ _ _ I) as Bo. pose proof I as [W C Mo S V O]. pose proof (owed_le gs t g Hg) as Lg.
  destruct r as [p|p v|p e v|p h]; cbn [may barrier_protocol serve] in *; [| |done|].
  - injection Sv as <- <-. cbn [leads barrier_protocol]. destruct M as [->|(Op & i & Hi & ->)].
    + destruct (decide (load m (m_count b) = 0)) as [E|E].
      * eexists. split; [right; left; done|]. eapply barrier_update; try done; cbn [party_of owes stored open].
        -- lia.
        -- by apply (Mo t).
        -- intros i extra Hp. by apply (S t g i extra).
        -- intros _. pose proof (owed_insert gs t g (mkBT (party_of g) (owes g) (stored g) true) Hg) as Q. cbn in Q. lia.
        -- intros Z0. lia.
      * exists g. rewrite list_insert_id by done. split; [left; split_and!; try done|by constructor]. destruct (open g) eqn:Op; [|done].
        pose proof (O t g Hg Op). lia.
    + exists g. rewrite list_insert_id by done. split; [|by constructor]. right. right. exists i. split_and!; try done.
      apply (all_stored tr m gs); [done|by apply (O t g)|done].
  - destruct M as (i & extra & Hp & Hi & -> & ->). injection Sv as <- <-. cbn [leads barrier_protocol]. eexists. split; [done|].
    assert (Nc : da i <> m_count b) by (intros E; by apply (Hapart i)).
    assert (Fd : forall j, (j < n)%nat -> load m (da j) = x j \/ j = i -> load (store m (da i) (x i)) (da j) = x j).
    { intros j Hj Q. rewrite load_store. destruct (decide (da i = da j)) as [E|E]; [by rewrite (Hda i j Hi Hj E)|]. by destruct Q as [Q| ->]. }
    eapply barrier_update; try done; cbn [party_of owes stored open].
    + rewrite load_store_ne by done. lia.
    + by apply (Mo t).
    + intros j Hj E. apply Fd; auto.
    + intros j extra' Hj. rewrite Hp in Hj. injection Hj as <- <-. apply Fd; auto.
    + intros Op. pose proof (owed_insert gs t g (mkBT (party_of g) (owes g) true (open g)) Hg) as Q. cbn in Q. pose proof (O t g Hg Op). lia.
    + lia.
  - destruct M as (-> & St & Ow & d & Hd & Hf & Hm). injection Sv as <- <-. cbn [leads barrier_protocol].
    assert (Lm : Z.of_nat (most (party_of g)) < 2 ^ 62).
    { enough (map most parties !! t = Some (most (party_of g))) as E by (pose proof (sum_list_insert _ t _ 0 E); lia).
      rewrite <- W, !list_lookup_fmap, Hg. done. }
    assert (Ef : h (load m (m_count b)) = load m (m_count b) + d).
    { rewrite Hf, wrapS_id; [done|lia|]. unfold inS. change (64 - 1) with 63. lia. }
    exists (mkBT (party_of g) (Z.to_nat (Z.of_nat (owes g) + d)) true (open g)). cbn [party_of owes stored open]. split; [split_and!; try done; lia|].
    eapply barrier_update; try done; cbn [party_of owes stored open].
    + rewrite load_store_eq, Ef. lia.
    + lia.
    + intros i Hi E. rewrite load_store_ne; [done|]. by apply Hapart.
    + intros i extra Hp. rewrite load_store_ne by (apply Hapart; by apply (V t g i extra)). pose proof (S t g i extra Hg Hp) as Q. by rewrite St in Q.
    + intros Op. pose proof (O t g Hg Op). lia.
    + lia.
Qed.

(** What a thread returns: nothing, or success and all payloads. *)
Definition barrier_result (r : option (Status * list Z)) (g : bthread) : Prop := r = None \/ r = Some (Success, map x (seq 0 n)).

Lemma done_conforms k : forall p, (k <= most p)%nat -> conforms (repeat_done k) (mkBT p k true false) (fun r _ => r = None).
Proof.
  induction k as [|k IH]; intros p Hk; cbn [repeat_done]; [done|]. cbn [done_ bind conforms may leads barrier_protocol party_of owes stored open]. split.
  - split_and!; [done|done|lia|]. exists (-1). split_and!; [done|done|lia].
  - intros v [p' o s' op] (Hv & Ho & Hp & Hs & Hop). cbn in *. subst. rewrite wrapS_id in Ho by (try unfold inS; lia || change (64 - 1) with 63; lia).
    replace o with k by lia. apply IH. lia.
Qed.
Lemma read_all_conforms es : Forall (fun i => (i < n)%nat) es -> forall g, open g = true -> conforms (read_all es) g (fun l g => l = map x es).
Proof.
  induction 1 as [|i es Hi _ IH]; intros g Op; cbn [read_all map]; [done|]. split; [right; split; [done|by exists i]|].
  intros v g' [(E & _)|[(E & _)|(j & Hj & E & -> & ->)]]; [by destruct (Hapart i Hi)|by destruct (Hapart i Hi)|].
  rewrite <- (Hda i j Hi Hj E). eapply conforms_bind; [by apply IH|]. by intros l g' ->.
Qed.

Lemma arrive_conforms i extra : (i < n)%nat -> Z.of_nat extra < 2 ^ 32 -> conforms (run_party (Arrive i extra)) (mkBT (Arrive i extra) 1 false false) barrier_result.
Proof.
  intros Hi He. cbn [run_party]. split; [exists i, extra; done|]. intros g ->. cbn [party_of owes stored open].
  cbn [add bind conforms may leads barrier_protocol party_of owes stored open most]. split.
  - split_and!; [done|done|lia|]. exists (Z.of_nat extra). split_and!; [lia|done|lia].
  - intros v [p' o s' op] (Hv & Ho & Hp & Hs & Hop). cbn [party_of owes stored open] in *. subst.
    rewrite wrapS_id in Ho by (try unfold inS; lia || change (64 - 1) with 63; lia).
    replace o with (S extra) by lia. eapply conforms_mono; [by apply done_conforms|]. intros r g ->. by left.
Qed.
Lemma await_conforms : conforms (run_party Await) (mkBT Await 0 false false) barrier_result.
Proof.
  cbn [run_party]. eapply (conforms_bind _ _ _ (fun s g => s = Success /\ open g = true)).
  - unfold wait. eapply (conforms_bind _ _ _ (fun _ g => open g = true)).
    + eapply (conforms_loop _ _ _ _ (fun _ _ => True) (fun _ g => open g = true)); [done| |done]. intros [] g _. split; [by left|].
      intros v g' [(_ & Hv & _ & ->)|[(_ & -> & ->)|(i & Hi & E & _)]]; [by rewrite (proj2 (Z.eqb_neq _ _))|done|by destruct (Hapart i Hi)].
    + intros u g Op. split; [by left|]. intros v g' [(_ & _ & E & _)|[(_ & -> & ->)|(i & Hi & E & _)]]; [congruence|done|by destruct (Hapart i Hi)].
  - intros s g [-> Op]. eapply conforms_bind; [apply read_all_conforms; [|done]|].
    + apply Forall_forall. intros i Hi%elem_of_seq. lia.
    + intros l g' ->. by right.
Qed.

Definition valid_party (p : party) : Prop := match p with Arrive i extra => (i < n)%nat /\ Z.of_nat extra < 2 ^ 32 | Await => True end.
Definition arrivals (p : party) : nat := match p with Arrive _ _ => 1 | Await => 0 end.

(** C11: a barrier that was initialised with the number of its arrivals, under every interleaving of parties that write their payload, add any
    number of further arrivals and are done with all of them, and of parties that wait: a party that has returned from [wait] has the answer
    [Success] and reads the payloads of all arrivals. *)
Theorem barrier_releases (m : mem) tr s t r : Forall valid_party parties -> load m (m_count b) = Z.of_nat (sum_list (map arrivals parties)) ->
  run (m, map run_party parties) tr s -> snd s !! t = Some (Ret (Some r)) -> r = (Success, map x (seq 0 n)).
Proof.
  intros V Hm R Hr. set (start := fun p => mkBT p (arrivals p) false false).
  destruct (conforming (barrier_inv parties) barrier_result m (map run_party parties) (map start parties)) with (3 := R) as (gs & I & C).
  - assert (G : forall t g, map start parties !! t = Some g -> exists p, g = start p /\ valid_party p).
    { intros t' g Hg. apply list_lookup_fmap_Some in Hg as (p & -> & Hp). exists p. split; [done|]. by apply (Forall_lookup_1 _ _ _ _ V Hp). }
    constructor.
    + rewrite map_map. cbn. apply map_id.
    + rewrite Hm. unfold owed. by rewrite map_map.
    + intros t' g Hg. destruct (G t' g Hg) as (p & -> & _). destruct p; cbn; lia.
    + intros t' g i extra Hg. destruct (G t' g Hg) as (p & -> & _). cbn. intros ->. cbn. lia.
    + intros t' g i extra Hg. destruct (G t' g Hg) as (p & -> & Vp). cbn. intros ->. apply Vp.
    + intros t' g Hg. by destruct (G t' g Hg) as (p & -> & _).
  - assert (G : forall ps, Forall valid_party ps -> Forall2 (fun q g => conforms q g barrier_result) (map run_party ps) (map start ps)); [|by apply G].
    induction 1 as [|p ps Vp _ IH]; cbn [map]; constructor; [|done].
    destruct p as [i extra|]; [by apply arrive_conforms; apply Vp|apply await_conforms].
  - destruct (Forall2_lookup_l _ _ _ _ _ C Hr) as (g & Hg & [E|E]); [done|]. by injection E as ->.
Qed.
End BarrierClients.

(** Waiting for a count that is not 0 and that nobody changes never ends, although [wait] has an answer for a negative count. *)
Section Stuck.
Import Barrier.
Context (b : GlobalBarrier) (v : Z) (Hv : v <> 0).

#[local] Instance stuck_protocol : Protocol unit := {
  may _ r := r = RLoad (m_count b); leads _ l _ := match l with ALoad _ u => u = v | _ => False end }.
#[local] Instance stuck_sound : Sound (fun _ m _ => load m (m_count b) = v).
Proof. constructor; [|done]. intros tr m gs t [] r m' l Hm _ -> [= <- <-]. by exists tt. Qed.

Theorem barrier_stuck (waiters : nat) (m : mem) tr s t st : load m (m_count b) = v ->
  run (m, repeat (wait b) waiters) tr s -> snd s !! t <> Some (Ret st).
Proof.
  intros Hm R Hr. destruct (conforming (fun _ m _ => load m (m_count b) = v) (fun _ _ => False) m (repeat (wait b) waiters) (repeat tt waiters)) with (3 := R) as (gs & _ & C).
  - done.
  - clear R. induction waiters as [|k IH]; cbn [repeat]; constructor; [|done]. unfold wait.
    eapply (conforms_bind _ _ _ (fun _ _ => False)); [|done].
    eapply (conforms_loop _ _ _ _ (fun _ _ => True) (fun _ _ => False)); [done| |done]. intros [] [] _. split; [done|]. intros u [] ->.
    by rewrite (proj2 (Z.eqb_neq _ _)).
  - by destruct (Forall2_lookup_l _ _ _ _ _ C Hr) as (g & _ & []).
Qed.
End Stuck.

(** ** Examples *)

Definition empty : mem := ∅.
(** [rounds] times each of [k] threads, one after the other, where no timeout expires. *)
Definition in_turn (k rounds : nat) : list (nat * bool) := concat (repeat (map (fun t => (t, false)) (seq 0 k)) rounds).

Definition example_clients : list client := [WaitAll; Notifier 1; WaitForAt 1; Notifier 0; WaitSingle 0].
Definition example_array : NotificationArray := mkArray 100 2 true.
Definition example_place (i : nat) : Z := 200 + 8 * Z.of_nat i.
Definition example_payload (i : nat) : Z := 7 + Z.of_nat i.

Lemma notification_publishes_witness : exists tr s r,
  run (reset example_array empty, map (run_client example_array 2 example_place example_payload) example_clients) tr s /\
  snd s !! 0%nat = Some (Ret (Some r)) /\ r = map example_payload [0; 1]%nat.
Proof.
  destruct (schedule_run (in_turn 5 20) (reset example_array empty, map (run_client example_array 2 example_place example_payload) example_clients)) as [tr R].
  set (s := schedule _ _) in R. assert (Hr : snd s !! 0%nat = Some (Ret (Some [7; 8]))) by (vm_compute; reflexivity).
  exists tr, s, [7; 8]. split; [exact R|]. split; [exact Hr|]. clearbody s.
  refine (notification_publishes example_array 2 example_place example_payload eq_refl ltac:(cbn; lia) ltac:(cbn; lia) _ _ example_clients empty tr s 0 WaitAll [7; 8] _ R eq_refl Hr);
    unfold example_place; [lia|cbn; lia|].
  unfold example_clients. rewrite !Forall_cons. split_and!; [..|constructor]; cbn; try lia; intros i Hi; repeat (apply elem_of_cons in Hi as [->|Hi]; [lia|]);
    by apply elem_of_nil in Hi.
Defined.

Lemma future_publishes_witness : exists tr s,
  run (store empty 100 0, set_future (Future.mkFuture 100) (Some 4000) :: repeat (wait_future (Future.mkFuture 100)) 2) tr s /\
  snd s !! 2%nat = Some (Ret (Some (true, 4000))) /\ published (Some 4000) <> nullptr.
Proof.
  destruct (schedule_run (in_turn 3 9) (store empty 100 0, set_future (Future.mkFuture 100) (Some 4000) :: repeat (wait_future (Future.mkFuture 100)) 2)) as [tr R].
  set (s := schedule _ _) in R. assert (Hr : snd s !! 2%nat = Some (Ret (Some (true, 4000)))) by (vm_compute; reflexivity).
  exists tr, s. split; [exact R|]. split; [exact Hr|]. clearbody s.
  destruct (future_publishes (Future.mkFuture 100) (Some 4000) 100 2 empty (store empty 100 0) tr s 2 ltac:(reflexivity) R) as [P _].
  exact (proj1 (P _ Hr)).
Defined.

Definition example_parties : list party := [Await; Arrive 0 0; Arrive 1 2; Await].
Lemma barrier_releases_witness : exists tr s r,
  run (store empty 100 2, map (run_party (Barrier.mkBarrier 100) 2 example_place example_payload) example_parties) tr s /\
  snd s !! 3%nat = Some (Ret (Some r)) /\ r = (Success, map example_payload [0; 1]%nat).
Proof.
  destruct (schedule_run (in_turn 4 20) (store empty 100 2, map (run_party (Barrier.mkBarrier 100) 2 example_place example_payload) example_parties)) as [tr R].
  set (s := schedule _ _) in R. assert (Hr : snd s !! 3%nat = Some (Ret (Some (Success, [7; 8])))) by (vm_compute; reflexivity).
  exists tr, s, (Success, [7; 8]). split; [exact R|]. split; [exact Hr|]. clearbody s.
  refine (barrier_releases (Barrier.mkBarrier 100) 2 example_place example_payload _ _ example_parties _ _ (store empty 100 2) tr s 3 (Success, [7; 8]) _ _ R Hr);
    unfold example_place; [lia|cbn; lia|cbn; lia| | |vm_compute; reflexivity].
  - intros [|[|i]] Hi; [by exists 1%nat, 0%nat|by exists 2%nat, 2%nat|lia].
  - repeat constructor; lia.
Defined.

End Notification.
