(* ===== verification/Sorting.v ===== *)
(** * Merge sort and binary search of the library

    [pando-lib-galois/sorts/merge_sort.hpp] and [utility/search.hpp].  A vector's elements are a list, indexed as the code indexes the
    buffer; an index outside the buffer has no meaning.  The loops are given fuel, which the theorems show to be enough. *)

From stdpp Require Import sorting.
From S2P Require Import Prelude.

Module Sorting.

Section Elements.
Context {T : Type}.

Definition outside : failure := Undefined "index outside the buffer".
Definition no_end : failure := Undefined "loop without end".

Definition get (l : list T) (i : Z) : outcome T :=
  if i <? 0 then Failed outside else match l !! Z.to_nat i with Some x => Done x | None => Failed outside end.
Definition set (l : list T) (i : Z) (x : T) : outcome (list T) :=
  if (0 <=? i) && (i <? Z.of_nat (length l)) then Done (<[Z.to_nat i := x]> l) else Failed outside.

(** ** Merge sort *)

Section MergeSort.
Context (comp : T -> T -> bool).

(** src/include/pando-lib-galois/sorts/merge_sort.hpp:25-36 [merge], the first loop; the indices into [arr] are signed, the one into
    [temp] is not *)
Fixpoint merge_both (fuel : nat) (arr temp : list T) (index l1 r1 l2 r2 : Z) : outcome (list T * Z * Z * Z) :=
  if (l1 <=? r1) && (l2 <=? r2) then
    match fuel with
    | O => Failed no_end
    | S fuel =>
        let! x := get arr l1 in
        let! y := get arr l2 in
        if negb (comp x y)
        then let! temp := set temp index x in merge_both fuel arr temp (u64 (index + 1)) (l1 + 1) r1 l2 r2
        else let! temp := set temp index y in merge_both fuel arr temp (u64 (index + 1)) l1 r1 (l2 + 1) r2
    end
  else Done (temp, index, l1, l2).

(** src/include/pando-lib-galois/sorts/merge_sort.hpp:37-48 [merge], the second and the third loop *)
Fixpoint merge_rest (fuel : nat) (arr temp : list T) (index l r : Z) : outcome (list T * Z) :=
  if l <=? r then
    match fuel with
    | O => Failed no_end
    | S fuel =>
        let! x := get arr l in
        let! temp := set temp index x in
        merge_rest fuel arr temp (u64 (index + 1)) (l + 1) r
    end
  else Done (temp, index).

(** src/include/pando-lib-galois/sorts/merge_sort.hpp:21-49 [merge] *)
Definition merge (fuel : nat) (arr temp : list T) (l1 r1 l2 r2 : Z) : outcome (list T) :=
  let index := u64 l1 in
  let! (temp, index, l1, l2) := merge_both fuel arr temp index l1 r1 l2 r2 in
  let! (temp, index) := merge_rest fuel arr temp index l1 r1 in
  let! (temp, _) := merge_rest fuel arr temp index l2 r2 in
  Done temp.

(** src/include/pando-lib-galois/sorts/merge_sort.hpp:73-76 [merge_sort_n], the copy back *)
Fixpoint copy_back (fuel : nat) (arr temp : list T) (j r2 : Z) : outcome (list T) :=
  if j <=? r2 then
    match fuel with
    | O => Failed no_end
    | S fuel =>
        let! x := get temp j in
        let! arr := set arr j x in
        copy_back fuel arr temp (u64 (j + 1)) r2
    end
  else Done arr.

(** src/include/pando-lib-galois/sorts/merge_sort.hpp:62-78 [merge_sort_n], one pass over the runs of [len] elements.  [merge] takes
    its bounds as signed numbers. *)
Fixpoint pass (fuel : nat) (arr temp : list T) (n len i : Z) : outcome (list T * list T) :=
  if i <? n then
    match fuel with
    | O => Failed no_end
    | S fuel =>
        let l1 := i in
        let r1 := u64 (u64 (i + len) - 1) in
        let l2 := u64 (i + len) in
        let r2 := Z.min (u64 (n - 1)) (u64 (u64 (i + u64 (2 * len)) - 1)) in
        if n <? l2 then Done (arr, temp) else
        let! temp := merge (Z.to_nat n) arr temp (i64 l1) (i64 r1) (i64 l2) (i64 r2) in
        let! arr := copy_back (Z.to_nat n) arr temp l1 r2 in
        pass fuel arr temp n len (u64 (i + u64 (2 * len)))
    end
  else Done (arr, temp).

(** src/include/pando-lib-galois/sorts/merge_sort.hpp:61-80 [merge_sort_n], the loop over the lengths of the runs *)
Fixpoint passes (fuel : nat) (arr temp : list T) (n len : Z) : outcome (list T * list T) :=
  if len <? n then
    match fuel with
    | O => Failed no_end
    | S fuel =>
        let! (arr, temp) := pass (Z.to_nat n) arr temp n len 0 in
        passes fuel arr temp n (u64 (len * 2))
    end
  else Done (arr, temp).

(** What [Vector::initialize] answers for the [n] elements of [temp]: their contents, or nothing when the memory is used up. *)
Context (fresh : Z -> option (list T)).

(** src/include/pando-lib-galois/sorts/merge_sort.hpp:54-82 [merge_sort_n] *)
Definition merge_sort_n (arr : list T) (n : Z) : outcome (list T) :=
  let len := 1 in
  match fresh n with
  | None => Failed (Aborted "BadAlloc")
  | Some temp => let! (arr, _) := passes 64 arr temp n len in Done arr
  end.

(** src/include/pando-lib-galois/sorts/merge_sort.hpp:87-90 [merge_sort] *)
Definition merge_sort (arr : list T) : outcome (list T) := merge_sort_n arr (Z.of_nat (length arr)).
End MergeSort.

(** ** Binary search *)

Section Search.
Context {V : Type}.

(** src/include/pando-lib-galois/utility/search.hpp:9-22 [lower_bound]; iterators are positions *)
Fixpoint lower_bound (fuel : nat) (func : Z -> V -> outcome bool) (lb ub : Z) (val : V) : outcome Z :=
  if lb <? ub then
    match fuel with
    | O => Failed no_end
    | S fuel =>
        let mid := lb + Z.quot (ub - lb) 2 in
        let! less := func mid val in
        if less then lower_bound fuel func (mid + 1) ub val else lower_bound fuel func lb mid val
    end
  else Done ub.
End Search.

(** src/include/pando-lib-galois/utility/search.hpp:24-31 [lower_bound] over the elements of a buffer *)
Definition lower_bound_elements (lt : T -> T -> bool) (l : list T) (start end_ : Z) (val : T) : outcome Z :=
  lower_bound 64 (fun mid val => let! x := get l mid in Done (lt x val)) start end_ val.

(** src/include/pando-lib-galois/utility/search.hpp:33-37 [binary_search] *)
Definition binary_search (lt eqb : T -> T -> bool) (l : list T) (start end_ : Z) (val : T) : outcome bool :=
  let! ub := lower_bound_elements lt l start end_ val in
  if ub <? end_ then let! x := get l ub in Done (eqb x val) else Done false.
End Elements.

(** ** The buffers *)

Section Buffers.
Context {T : Type}.
Implicit Types (l arr temp : list T).

Lemma get_drop l i x p : drop i l = x :: p -> get l (Z.of_nat i) = Done x /\ drop (S i) l = p.
Proof.
  intros E. assert (l !! i = Some x) as Hi.
  { pose proof (lookup_drop l i 0) as L. rewrite E, Nat.add_0_r in L. done. }
  split.
  - unfold get. destruct (Z.ltb_spec (Z.of_nat i) 0); [lia|]. by rewrite Nat2Z.id, Hi.
  - rewrite (drop_S l x i Hi) in E. congruence.
Qed.

Lemma set_app l1 x l2 y : set (l1 ++ x :: l2) (Z.of_nat (length l1)) y = Done (l1 ++ y :: l2).
Proof.
  unfold set. rewrite length_app. cbn [length].
  destruct (Z.leb_spec 0 (Z.of_nat (length l1))), (Z.ltb_spec (Z.of_nat (length l1)) (Z.of_nat (length l1 + S (length l2)))); try lia.
  cbn [andb]. rewrite Nat2Z.id, insert_app_r_alt, Nat.sub_diag by done. done.
Qed.

(** The segment of [temp] at [index] that the loop fills. *)
Lemma merge_rest_spec (xs : list T) : forall fuel arr p tpre tmid tpost (l : nat) (r : Z),
  drop l arr = xs ++ p -> Z.of_nat l + Z.of_nat (length xs) = r + 1 -> length tmid = length xs -> (length xs <= fuel)%nat ->
  Z.of_nat (length tpre + length xs) < 2 ^ 63 ->
  merge_rest fuel arr (tpre ++ tmid ++ tpost) (Z.of_nat (length tpre)) (Z.of_nat l) r =
  Done (tpre ++ xs ++ tpost, Z.of_nat (length tpre + length xs)).
Proof.
  induction xs as [|x xs IH]; intros fuel arr p tpre tmid tpost l r D R M F B; cbn [length] in *.
  - destruct tmid; [|done]. rewrite Nat.add_0_r. destruct fuel; cbn [merge_rest]; destruct (Z.leb_spec (Z.of_nat l) r); done || lia.
  - destruct tmid as [|t tmid]; [done|]. destruct fuel as [|fuel]; [lia|]. cbn [merge_rest app].
    destruct (Z.leb_spec (Z.of_nat l) r); [|lia]. destruct (get_drop arr l x (xs ++ p) D) as [-> D'].
    cbn [bindo]. rewrite set_app. cbn [bindo].
    rewrite wrapU_id by (unfold inU; lia).
    replace (Z.of_nat (length tpre) + 1) with (Z.of_nat (length (tpre ++ [x]))) by (rewrite length_app; cbn [length]; lia).
    replace (Z.of_nat l + 1) with (Z.of_nat (S l)) by lia.
    change (x :: tmid ++ tpost) with ([x] ++ (tmid ++ tpost)). rewrite app_assoc.
    rewrite (IH fuel arr p (tpre ++ [x]) tmid tpost (S l) r); [|done|lia|cbn in M; lia|lia|rewrite length_app; cbn [length]; lia].
    rewrite length_app. cbn [length]. rewrite <- app_assoc. do 2 f_equal. lia.
Qed.

Section Comp.
Context (comp : T -> T -> bool).
(** [x] may stand before [y]. *)
Definition before (x y : T) : Prop := comp x y = false.
#[local] Instance run_before_dec x y : Decision (before x y).
Proof. unfold before. solve_decision. Defined.

(** The merge of the first loop ends when one side is used up; what is left of the other follows. *)
Lemma merge_both_spec : forall fuel (xs ys : list T) arr p1 p2 tpre tmid tpost (l1 : nat) r1 (l2 : nat) r2,
  drop l1 arr = xs ++ p1 -> drop l2 arr = ys ++ p2 ->
  Z.of_nat l1 + Z.of_nat (length xs) = r1 + 1 -> Z.of_nat l2 + Z.of_nat (length ys) = r2 + 1 ->
  (length tmid = length xs + length ys)%nat -> (length xs + length ys <= fuel)%nat ->
  Z.of_nat (length tpre + length xs + length ys) < 2 ^ 63 ->
  exists (ms xs' ys' tmid' : list T) (l1' l2' : nat),
    merge_both comp fuel arr (tpre ++ tmid ++ tpost) (Z.of_nat (length tpre)) (Z.of_nat l1) r1 (Z.of_nat l2) r2 =
      Done (tpre ++ ms ++ tmid' ++ tpost, Z.of_nat (length (tpre ++ ms)), Z.of_nat l1', Z.of_nat l2') /\
    list_merge before xs ys = ms ++ xs' ++ ys' /\ (xs' = [] \/ ys' = []) /\
    drop l1' arr = xs' ++ p1 /\ drop l2' arr = ys' ++ p2 /\
    Z.of_nat l1' + Z.of_nat (length xs') = r1 + 1 /\ Z.of_nat l2' + Z.of_nat (length ys') = r2 + 1 /\
    (length tmid' = length xs' + length ys')%nat /\ (length ms + length xs' + length ys' = length xs + length ys)%nat.
Proof.
  induction fuel as [|fuel IH]; intros xs ys arr p1 p2 tpre tmid tpost l1 r1 l2 r2 D1 D2 R1 R2 M F B.
  { destruct xs, ys; cbn [length] in *; try lia. exists [], [], [], tmid, l1, l2. cbn [merge_both].
    destruct (Z.leb_spec (Z.of_nat l1) r1); [lia|]. cbn [andb]. rewrite app_nil_r. cbn [app length].
    split_and!; done || lia || by left. }
  destruct xs as [|x xs]; [|destruct ys as [|y ys]].
  - exists [], [], ys, tmid, l1, l2. cbn [merge_both length] in *. destruct (Z.leb_spec (Z.of_nat l1) r1); [lia|]. cbn [andb].
    rewrite app_nil_r, list_merge_nil_l. cbn [app length]. split_and!; done || lia || by left.
  - exists [], (x :: xs), [], tmid, l1, l2. cbn [merge_both]. cbn [length] in R2. destruct (Z.leb_spec (Z.of_nat l2) r2); [lia|].
    rewrite andb_false_r, app_nil_r, list_merge_nil_r. cbn [app]. rewrite app_nil_r. split_and!; done || lia || by right.
  - destruct tmid as [|t tmid]; [cbn in M; lia|]. cbn [length] in *. cbn [merge_both app].
    destruct (Z.leb_spec (Z.of_nat l1) r1), (Z.leb_spec (Z.of_nat l2) r2); try lia. cbn [andb].
    destruct (get_drop arr l1 x (xs ++ p1) D1) as [-> D1'], (get_drop arr l2 y (ys ++ p2) D2) as [-> D2'].
    cbn [bindo]. rewrite !set_app. cbn [bindo]. rewrite wrapU_id by (unfold inU; lia). rewrite list_merge_cons.
    assert (Step : forall z, tpre ++ z :: tmid ++ tpost = (tpre ++ [z]) ++ tmid ++ tpost /\
      Z.of_nat (length tpre) + 1 = Z.of_nat (length (tpre ++ [z]))) by (intros z; rewrite <- app_assoc, length_app; cbn; split; [done|lia]).
    destruct (decide (before x y)) as [c|c]; unfold before in c.
    + rewrite c. cbn [negb]. destruct (Step x) as [-> ->]. replace (Z.of_nat l1 + 1) with (Z.of_nat (S l1)) by lia.
      destruct (IH xs (y :: ys) arr p1 p2 (tpre ++ [x]) tmid tpost (S l1) r1 l2 r2)
        as (ms & xs' & ys' & tmid' & l1' & l2' & -> & -> & H1); try done; cbn [length]; try lia; [rewrite length_app; cbn [length]; lia|].
      exists (x :: ms), xs', ys', tmid', l1', l2'. rewrite <- !app_assoc. cbn [app length]. cbn [length] in H1. intuition lia.
    + destruct (comp x y); [|done]. cbn [negb]. destruct (Step y) as [-> ->]. replace (Z.of_nat l2 + 1) with (Z.of_nat (S l2)) by lia.
      destruct (IH (x :: xs) ys arr p1 p2 (tpre ++ [y]) tmid tpost l1 r1 (S l2) r2)
        as (ms & xs' & ys' & tmid' & l1' & l2' & -> & -> & H1); try done; cbn [length]; try lia; [rewrite length_app; cbn [length]; lia|].
      exists (y :: ms), xs', ys', tmid', l1', l2'. rewrite <- !app_assoc. cbn [app length]. cbn [length] in H1. intuition lia.
Qed.

(** Two neighbouring runs of [arr] end merged in [temp]. *)
Lemma merge_spec fuel (xs ys : list T) apre apost tpre tmid tpost :
  length tpre = length apre -> (length tmid = length xs + length ys)%nat -> (length xs + length ys <= fuel)%nat ->
  Z.of_nat (length apre + length xs + length ys) < 2 ^ 63 ->
  merge comp fuel (apre ++ xs ++ ys ++ apost) (tpre ++ tmid ++ tpost) (Z.of_nat (length apre))
    (Z.of_nat (length apre) + Z.of_nat (length xs) - 1) (Z.of_nat (length apre) + Z.of_nat (length xs))
    (Z.of_nat (length apre) + Z.of_nat (length xs) + Z.of_nat (length ys) - 1) =
  Done (tpre ++ list_merge before xs ys ++ tpost).
Proof.
  intros Ht M F B. unfold merge. cbv zeta. rewrite wrapU_id by (unfold inU; lia). rewrite <- Ht.
  replace (Z.of_nat (length tpre) + Z.of_nat (length xs)) with (Z.of_nat (length tpre + length xs)) by lia.
  destruct (merge_both_spec fuel xs ys (apre ++ xs ++ ys ++ apost) (ys ++ apost) apost tpre tmid tpost (length tpre)
    (Z.of_nat (length tpre + length xs) - 1) (length tpre + length xs)
    (Z.of_nat (length tpre + length xs) + Z.of_nat (length ys) - 1))
    as (ms & xs' & ys' & tmid' & l1' & l2' & -> & -> & E & D1 & D2 & R1 & R2 & M' & L); try lia.
  { by rewrite drop_app_length' by lia. }
  { rewrite app_assoc. by rewrite drop_app_length' by (rewrite length_app; lia). }
  cbn [bindo]. destruct E as [-> | ->].
  - rewrite (app_assoc tpre ms). change (tmid' ++ tpost) with ([] ++ (tmid' ++ tpost)).
    rewrite (merge_rest_spec [] fuel _ (ys ++ apost) (tpre ++ ms) [] (tmid' ++ tpost)) by (done || cbn [length] in *; rewrite ?length_app; lia).
    cbn [bindo length app]. rewrite Nat.add_0_r.
    rewrite (merge_rest_spec ys' fuel _ apost (tpre ++ ms) tmid') by (done || cbn [length] in *; rewrite ?length_app; lia).
    cbn [bindo]. by rewrite <- !app_assoc.
  - rewrite app_nil_r. rewrite (app_assoc tpre ms).
    rewrite (merge_rest_spec xs' fuel _ (ys ++ apost) (tpre ++ ms) tmid') by (done || cbn [length] in *; rewrite ?length_app; lia).
    cbn [bindo]. rewrite (app_assoc _ xs'), <- length_app.
    rewrite <- (app_nil_l tpost) at 1.
    rewrite (merge_rest_spec [] fuel _ apost ((tpre ++ ms) ++ xs') [] tpost) by (done || cbn [length] in *; rewrite ?length_app; lia).
    cbn [bindo app]. by rewrite <- !app_assoc.
Qed.

Lemma copy_back_spec (ms : list T) : forall fuel apre mid apost tpre tpost r2,
  length tpre = length apre -> length mid = length ms -> (length ms <= fuel)%nat ->
  r2 = Z.of_nat (length apre + length ms) - 1 -> Z.of_nat (length apre + length ms) < 2 ^ 63 ->
  copy_back fuel (apre ++ mid ++ apost) (tpre ++ ms ++ tpost) (Z.of_nat (length apre)) r2 = Done (apre ++ ms ++ apost).
Proof.
  induction ms as [|x ms IH]; intros fuel apre mid apost tpre tpost r2 L M F R B; cbn [length] in *.
  - destruct mid; [|done]. destruct fuel; cbn [copy_back]; destruct (Z.leb_spec (Z.of_nat (length apre)) r2); done || lia.
  - destruct mid as [|y mid]; [done|]. destruct fuel as [|fuel]; [lia|]. cbn [copy_back app].
    destruct (Z.leb_spec (Z.of_nat (length apre)) r2); [|lia]. rewrite <- L at 1.
    destruct (get_drop (tpre ++ x :: ms ++ tpost) (length tpre) x (ms ++ tpost)) as [-> _]; [by rewrite drop_app_length|].
    cbn [bindo]. rewrite set_app. cbn [bindo]. rewrite wrapU_id by (unfold inU; lia).
    replace (Z.of_nat (length apre) + 1) with (Z.of_nat (length (apre ++ [x]))) by (rewrite length_app; cbn [length]; lia).
    change (x :: mid ++ apost) with ([x] ++ (mid ++ apost)). change (x :: ms ++ tpost) with ([x] ++ (ms ++ tpost)).
    change (x :: ms ++ apost) with ([x] ++ (ms ++ apost)). rewrite !(app_assoc _ [x]).
    apply IH; rewrite ?length_app; cbn [length] in *; lia.
Qed.

(** What a pass does to the elements: it merges the runs of [len] elements two by two. *)
Fixpoint pass_list (fuel len : nat) (l : list T) : list T :=
  match fuel with
  | O => l
  | S fuel => if decide (length l < len)%nat then l
      else list_merge before (take len l) (take len (drop len l)) ++ pass_list fuel len (drop (len + len) l)
  end.

Lemma take_drop_min (k : nat) (l : list T) : length (take k l) = (k `min` length l)%nat.
Proof. apply length_take. Qed.

Lemma pass_stop fuel (arr temp : list T) n len i : n <= i -> pass comp fuel arr temp n len i = Done (arr, temp).
Proof. intros L. destruct fuel; cbn [pass]; by rewrite (proj2 (Z.ltb_ge _ _)) by lia. Qed.

Lemma pass_spec fuel : forall pre rest post tpre tmid tpost (len : nat),
  (1 <= len)%nat -> length tpre = length pre -> length tmid = length rest -> (length rest <= fuel)%nat ->
  Z.of_nat (length pre + length rest) < 2 ^ 61 -> Z.of_nat len < 2 ^ 61 ->
  exists temp', pass comp fuel (pre ++ rest ++ post) (tpre ++ tmid ++ tpost) (Z.of_nat (length pre + length rest)) (Z.of_nat len)
      (Z.of_nat (length pre)) = Done (pre ++ pass_list fuel len rest ++ post, temp') /\
    length temp' = length (tpre ++ tmid ++ tpost).
Proof.
  induction fuel as [|fuel IH]; intros pre rest post tpre tmid tpost len Hl Lt Lm F B Bl.
  { destruct rest; cbn [length] in F; [|lia]. rewrite Nat.add_0_r. cbn [pass].
    destruct (Z.ltb_spec (Z.of_nat (length pre)) (Z.of_nat (length pre))); [lia|]. eauto. }
  cbn [pass pass_list]. set (n := Z.of_nat (length pre + length rest)) in *.
  rewrite (wrapU_id 64 (2 * _)) by (unfold inU; lia).
  rewrite !(wrapU_id 64 (Z.of_nat (length pre) + _)) by (unfold inU; lia).
  destruct (Z.ltb_spec (Z.of_nat (length pre)) n).
  2: { destruct rest; [|cbn [length] in *; lia]. cbn [length]. destruct (decide (0 < len)%nat); [|lia]. eauto. }
  destruct (Z.ltb_spec n (Z.of_nat (length pre) + Z.of_nat len)), (decide (length rest < len)%nat); try lia; [eauto|].
  set (xs := take len rest). set (ys := take len (drop len rest)). set (rest' := drop (len + len) rest).
  assert (Er : rest = xs ++ ys ++ rest').
  { unfold xs, ys, rest'. rewrite <- drop_drop. by rewrite !take_drop. }
  assert (Lx : length xs = len) by (unfold xs; rewrite length_take; lia).
  assert (Ly : length ys = (len `min` (length rest - len))%nat) by (unfold ys; by rewrite length_take, length_drop).
  assert (Lr : length rest = (length xs + length ys + length rest')%nat).
  { transitivity (length (xs ++ ys ++ rest')); [by f_equal|]. rewrite !length_app. lia. }
  assert (Hn : n = Z.of_nat (length pre + length rest)) by done.
  rewrite !(wrapU_id 64 (_ - 1)) by (unfold inU; lia).
  rewrite !wrapS_id by (unfold inS; lia).
  set (tm := take (length xs + length ys) tmid). set (tr := drop (length xs + length ys) tmid).
  assert (Et : tmid = tm ++ tr) by (unfold tm, tr; by rewrite take_drop).
  assert (Lm' : length tm = (length xs + length ys)%nat) by (unfold tm; rewrite length_take; lia).
  assert (Ltr : length tr = length rest') by (unfold tr; rewrite length_drop; lia).
  replace (Z.min (n - 1) (Z.of_nat (length pre) + 2 * Z.of_nat len - 1))
    with (Z.of_nat (length pre) + Z.of_nat len + Z.of_nat (length ys) - 1) by lia.
  clearbody xs ys rest' tm tr n. subst rest tmid. rewrite <- !app_assoc.
  pose proof (merge_spec (Z.to_nat n) xs ys pre (rest' ++ post) tpre tm (tr ++ tpost) Lt Lm' ltac:(lia) ltac:(lia)) as M.
  rewrite Lx in M. rewrite M. cbn [bindo]. clear M.
  set (ms := list_merge before xs ys).
  assert (Lms : length ms = (length xs + length ys)%nat) by (unfold ms; by rewrite merge_Permutation, length_app).
  rewrite (app_assoc xs). rewrite copy_back_spec; [|lia|rewrite length_app; lia|lia|lia|lia]. cbn [bindo].
  assert (Ep : Z.of_nat (length pre) + 2 * Z.of_nat len = Z.of_nat (length (pre ++ ms)) \/ rest' = []).
  { rewrite length_app. destruct (decide (rest' = [])); [by right|left]. destruct rest'; [done|cbn [length] in *; lia]. }
  destruct Ep as [Ep|Ep].
  - rewrite Ep. rewrite (app_assoc pre), (app_assoc tpre).
    destruct (IH (pre ++ ms) rest' post (tpre ++ ms) tr tpost len) as (temp' & Ht & L'); try (rewrite ?length_app; lia).
    replace n with (Z.of_nat (length (pre ++ ms) + length rest')) by (rewrite length_app; lia). rewrite Ht.
    exists temp'. rewrite <- !app_assoc. split; [done|]. rewrite L', !length_app. lia.
  - rewrite Ep in *. cbn [length] in *. destruct tr; [|done].
    rewrite pass_stop by (rewrite Hn, !length_app; cbn [length]; lia).
    exists (tpre ++ ms ++ [] ++ tpost). split; [|by rewrite !length_app, Lms, Lm'; cbn [length]].
    assert (pass_list fuel len [] = []) as ->; [|done].
    destruct fuel; cbn [pass_list length]; [done|]. destruct (decide (0 < len)%nat); [done|lia].
Qed.

(** *** The runs *)

Context (asym : forall x y, comp x y = true -> comp y x = false)
        (trans : forall x y z, before x y -> before y z -> before x z).

#[local] Instance before_trans : Transitive before.
Proof. exact trans. Qed.
#[local] Instance run_before_total : Total before.
Proof. intros x y. unfold before. destruct (comp x y) eqn:E; [right; by apply asym | by left]. Qed.

(** Sorted runs of [len] elements, the last one perhaps shorter. *)
Inductive runs (len : nat) : list T -> Prop :=
| runs_last l : (length l <= len)%nat -> StronglySorted before l -> runs len l
| runs_cons l1 l : length l1 = len -> StronglySorted before l1 -> runs len l -> runs len (l1 ++ l).

Lemma sorted_merge l1 l2 : StronglySorted before l1 -> StronglySorted before l2 -> StronglySorted before (list_merge before l1 l2).
Proof.
  intros H1 H2. apply Sorted_StronglySorted; [apply _|]. apply Sorted_list_merge; [apply _| |]; by apply StronglySorted_Sorted.
Qed.

Lemma runs_split len l : runs len l -> (len <= length l)%nat ->
  StronglySorted before (take len l) /\ runs len (drop len l).
Proof.
  intros H L. destruct H as [l Hl Hs|l1 l Hl Hs Hr].
  - rewrite take_ge, drop_ge by lia. split; [done|]. apply runs_last; [cbn; lia|constructor].
  - rewrite take_app_length', drop_app_length' by done. done.
Qed.

(** Elements that neither has to stand before: the sort keeps their order. *)
Definition same (z x : T) : Prop := before z x /\ before x z.
#[local] Instance same_dec z x : Decision (same z x).
Proof. unfold same. solve_decision. Defined.

Lemma filter_merge z l1 l2 : StronglySorted before l1 -> StronglySorted before l2 ->
  filter (same z) (list_merge before l1 l2) = filter (same z) l1 ++ filter (same z) l2.
Proof.
  revert l2. induction l1 as [|x l1 IH1]; intros l2 H1 H2; [by rewrite list_merge_nil_l|].
  induction l2 as [|y l2 IH2]; [by rewrite list_merge_nil_r, app_nil_r|]. rewrite list_merge_cons.
  pose proof (StronglySorted_inv H1) as [H1' F1]. pose proof (StronglySorted_inv H2) as [H2' F2].
  destruct (decide (before x y)) as [c|c].
  - rewrite !filter_cons. rewrite (IH1 (y :: l2)), filter_cons by done. by destruct (decide (same z x)).
  - rewrite filter_cons, (IH2 H2'). rewrite (filter_cons _ y). destruct (decide (same z y)) as [Hy|]; [|done].
    assert (filter (same z) (x :: l1) = []) as ->; [|done].
    apply filter_none, Forall_forall. intros w Hw [W1 W2]. apply c. destruct Hy as [Y1 Y2].
    apply (trans x w y); [|by apply (trans w z y)].
    apply elem_of_cons in Hw as [->|Hw]; [by apply (trans x z x)|]. rewrite Forall_forall in F1. by apply F1.
Qed.

(** *** One pass, all passes *)

Lemma pass_list_perm fuel len l : pass_list fuel len l ≡ₚ l.
Proof.
  revert l. induction fuel as [|fuel IH]; intros l; cbn [pass_list]; [done|]. destruct (decide _); [done|].
  rewrite merge_Permutation, IH, <- app_assoc, <- drop_drop, !take_drop. done.
Qed.

Lemma pass_list_sorted fuel len l : (1 <= len)%nat -> (length l <= fuel)%nat -> runs len l ->
  runs (len + len) (pass_list fuel len l) /\ (forall z, filter (same z) (pass_list fuel len l) = filter (same z) l).
Proof.
  intros Hl. revert l. induction fuel as [|fuel IH]; intros l F R; cbn [pass_list].
  { destruct l; [|cbn in F; lia]. split; [|done]. apply runs_last; [cbn; lia|constructor]. }
  destruct (decide (length l < len)%nat).
  - split; [|done]. destruct R as [l Hs Ho|l1 l Hs Ho Hr]; [apply runs_last; [lia|done]|].
    rewrite length_app in *. lia.
  - destruct (runs_split len l R ltac:(lia)) as [S1 R1].
    assert (S2 : StronglySorted before (take len (drop len l)) /\ runs len (drop (len + len) l)).
    { destruct (decide (len <= length (drop len l))%nat) as [L|L].
      - rewrite <- drop_drop. by apply runs_split.
      - rewrite take_ge, (drop_ge l (len + len)) by (rewrite ?length_drop in *; lia). split; [|apply runs_last; [cbn; lia|constructor]].
        destruct R1 as [l' Hs Ho|l1 l' Hs Ho Hr]; [done|]. rewrite length_app in L. lia. }
    destruct S2 as [S2 R2]. destruct (IH (drop (len + len) l)) as [I1 I2]; [rewrite length_drop; lia|done|].
    set (ms := list_merge before (take len l) (take len (drop len l))).
    assert (Sm : StronglySorted before ms) by (by apply sorted_merge).
    assert (Lm : length ms = (len + (len `min` (length l - len)))%nat)
      by (unfold ms; rewrite merge_Permutation, length_app, !length_take, length_drop; lia).
    split.
    + destruct (decide (len <= length l - len)%nat); [apply runs_cons; [lia|done|done]|].
      rewrite drop_ge by lia. assert (pass_list fuel len [] = []) as ->.
      { apply Permutation_nil_r. by rewrite pass_list_perm. }
      rewrite app_nil_r. apply runs_last; [lia|done].
    + intros z. rewrite filter_app, I2. unfold ms. rewrite filter_merge by done.
      rewrite <- !filter_app, <- app_assoc, <- drop_drop, !take_drop. done.
Qed.

(** What the sort does to the elements. *)
Fixpoint passes_list (fuel len : nat) (l : list T) : list T :=
  match fuel with
  | O => l
  | S fuel => if decide (len < length l)%nat then passes_list fuel (len + len) (pass_list (length l) len l) else l
  end.

Lemma passes_list_perm fuel len l : passes_list fuel len l ≡ₚ l.
Proof.
  revert len l. induction fuel as [|fuel IH]; intros len l; cbn [passes_list]; [done|].
  destruct (decide _); [|done]. by rewrite IH, pass_list_perm.
Qed.

Lemma passes_list_sorted fuel len l : (1 <= len)%nat -> (Z.of_nat (length l) <= Z.of_nat len * 2 ^ Z.of_nat fuel) -> runs len l ->
  StronglySorted before (passes_list fuel len l) /\ (forall z, filter (same z) (passes_list fuel len l) = filter (same z) l).
Proof.
  revert len l. induction fuel as [|fuel IH]; intros len l Hl F R; cbn [passes_list].
  - split; [|done]. destruct R as [l Hs Ho|l1 l Hs Ho Hr]; [done|]. rewrite length_app in F. destruct l; [by rewrite app_nil_r|].
    cbn [length] in F. change (Z.of_nat 0) with 0 in F. lia.
  - destruct (decide (len < length l)%nat).
    + destruct (pass_list_sorted (length l) len l Hl ltac:(lia) R) as [R1 E1].
      assert (EL : length (pass_list (length l) len l) = length l) by (by rewrite pass_list_perm).
      destruct (IH (len + len)%nat (pass_list (length l) len l)) as [S2 E2]; [lia| |done|split; [done|]; intros z; by rewrite E2, E1].
      rewrite EL. rewrite Nat2Z.inj_succ, Z.pow_succ_r in F by lia. lia.
    + split; [|done]. destruct R as [l Hs Ho|l1 l Hs Ho Hr]; [done|]. rewrite length_app in n. destruct l; [by rewrite app_nil_r|].
      cbn [length] in n. lia.
Qed.

Lemma passes_spec fuel : forall (len : nat) l post temp, (1 <= len)%nat -> length temp = length l ->
  Z.of_nat (length l) < 2 ^ 61 -> Z.of_nat len < 2 ^ 61 -> Z.of_nat (length l) <= Z.of_nat len * 2 ^ Z.of_nat fuel ->
  exists temp', passes comp fuel (l ++ post) temp (Z.of_nat (length l)) (Z.of_nat len) =
    Done (passes_list fuel len l ++ post, temp').
Proof.
  induction fuel as [|fuel IH]; intros len l post temp Hl Ht B Bl F; cbn [passes passes_list].
  - destruct (Z.ltb_spec (Z.of_nat len) (Z.of_nat (length l))); [|eauto]. change (Z.of_nat 0) with 0 in F. lia.
  - destruct (Z.ltb_spec (Z.of_nat len) (Z.of_nat (length l))), (decide (len < length l)%nat); try lia; [|eauto].
    destruct (pass_spec (Z.to_nat (Z.of_nat (length l))) [] l post [] temp [] len) as (temp' & Hp & Lt); try done; cbn [length]; try lia.
    cbn [app length] in Hp, Lt. rewrite app_nil_r in Hp, Lt. rewrite Nat.add_0_l in Hp. change (Z.of_nat 0) with 0 in Hp. rewrite Hp.
    cbn [bindo]. rewrite Nat2Z.id. rewrite wrapU_id by (unfold inU; lia).
    assert (EL : length (pass_list (length l) len l) = length l) by (by rewrite pass_list_perm).
    replace (Z.of_nat len * 2) with (Z.of_nat (len + len)) by lia.
    destruct (decide (Z.of_nat (len + len) < 2 ^ 61)).
    + rewrite Nat2Z.inj_succ, Z.pow_succ_r in F by lia.
      destruct (IH (len + len)%nat (pass_list (length l) len l) post temp') as [t E]; rewrite ?EL; try lia.
      rewrite EL in E. eauto.
    + exists temp'. destruct fuel; cbn [passes passes_list]; rewrite (proj2 (Z.ltb_ge _ _)) by lia; [done|].
      by rewrite decide_False by (rewrite EL; lia).
Qed.

Lemma runs_singles l : runs 1 l.
Proof.
  induction l as [|x l IH]; [apply runs_last; [cbn; lia|constructor]|]. apply (runs_cons 1 [x]); [done| |done].
  repeat constructor.
Qed.
End Comp.
End Buffers.

#[export] Instance same_decision {T} (comp : T -> T -> bool) z x : Decision (same comp z x).
Proof. unfold same, before. solve_decision. Defined.

(** C15: [merge_sort_n] ends, without an access outside its buffers, and rearranges the first [n] elements of the vector and only them,
    whatever the comparison; with a comparison that is a strict weak order the result is sorted - no element stands before one it
    compares greater than - and elements the comparison does not tell apart keep their order.  It stops the program when the
    temporary vector cannot be allocated. *)
Theorem merge_sort_n_spec {T} (comp : T -> T -> bool) fresh (arr : list T) (n : nat) :
  (n <= length arr)%nat -> Z.of_nat n < 2 ^ 61 -> (forall temp, fresh (Z.of_nat n) = Some temp -> length temp = n) ->
  match fresh (Z.of_nat n) with
  | None => merge_sort_n comp fresh arr (Z.of_nat n) = Failed (Aborted "BadAlloc")
  | Some _ => exists res, merge_sort_n comp fresh arr (Z.of_nat n) = Done (res ++ drop n arr) /\ res ≡ₚ take n arr /\
      ((forall x y, comp x y = true -> comp y x = false) ->
       (forall x y z, before comp x y -> before comp y z -> before comp x z) ->
       StronglySorted (before comp) res /\ forall z, filter (same comp z) res = filter (same comp z) (take n arr))
  end.
Proof.
  intros Hn B Hf. unfold merge_sort_n. destruct (fresh (Z.of_nat n)) as [temp|]; [|done].
  assert (L : length (take n arr) = n) by (rewrite length_take; lia). pose proof (Hf temp eq_refl) as Ht.
  exists (passes_list comp 64 1 (take n arr)).
  destruct (passes_spec comp 64 1 (take n arr) (drop n arr) temp) as [t E]; rewrite ?L; try lia.
  rewrite L, take_drop in E. change (Z.of_nat 1) with 1 in E. rewrite E. cbn [bindo]. split_and!; [done|apply passes_list_perm|].
  intros A Tr. destruct (passes_list_sorted comp A Tr 64 1 (take n arr)) as [S F]; [lia|rewrite L; lia|by apply runs_singles|].
  split; [done|]. intros z. etransitivity; [|etransitivity; [apply (F z)|]]; apply list_filter_iff; done.
Qed.

Lemma merge_sort_n_spec_witness :
  exists res, merge_sort_n Z.gtb (fun n => Some (repeat 0 (Z.to_nat n))) [5; 3; 8; 1; 9; 2; 0] 6 = Done (res ++ [0]) /\ res ≡ₚ [5; 3; 8; 1; 9; 2] /\
    StronglySorted (before Z.gtb) res.
Proof.
  destruct (merge_sort_n_spec Z.gtb (fun n => Some (repeat 0 (Z.to_nat n))) [5; 3; 8; 1; 9; 2; 0] 6) as (res & E & P & S).
  - cbn. lia.
  - lia.
  - intros temp [= <-]. reflexivity.
  - exists res. split; [exact E|]. split; [exact P|]. refine (proj1 (S _ _)); unfold before; intros; rewrite Z.gtb_ltb in *; lia.
Defined.

(** ** Binary search *)

Section Search.
Context {V : Type}.

(** The loop ends at the border of a predicate that holds up to it. *)
Lemma lower_bound_spec (func : Z -> V -> outcome bool) (p : Z -> bool) val fuel : forall lb ub,
  lb <= ub -> ub - lb < 2 ^ Z.of_nat fuel ->
  (forall i, lb <= i < ub -> func i val = Done (p i)) ->
  (forall i j, lb <= i <= j -> j < ub -> p j = true -> p i = true) ->
  exists r, lower_bound fuel func lb ub val = Done r /\ lb <= r <= ub /\
    (forall i, lb <= i < r -> p i = true) /\ (forall i, r <= i < ub -> p i = false).
Proof.
  induction fuel as [|fuel IH]; intros lb ub L F Hf Hp; cbn [lower_bound].
  { change (2 ^ Z.of_nat 0) with 1 in F. destruct (Z.ltb_spec lb ub); [lia|]. exists ub. split_and!; done || lia || (intros; lia). }
  destruct (Z.ltb_spec lb ub); [|exists ub; split_and!; done || lia || (intros; lia)].
  rewrite Nat2Z.inj_succ, Z.pow_succ_r in F by lia. rewrite Z.quot_div_nonneg by lia.
  set (mid := lb + (ub - lb) / 2). assert (Hm : lb <= mid < ub) by (unfold mid; pose proof (Z.div_lt (ub - lb) 2 ltac:(lia) ltac:(lia)); pose proof (Z.div_pos (ub - lb) 2 ltac:(lia) ltac:(lia)); lia).
  assert (Hd : 2 * ((ub - lb) / 2) <= ub - lb < 2 * ((ub - lb) / 2) + 2)
    by (pose proof (Z.div_mod (ub - lb) 2 ltac:(lia)); pose proof (Z.mod_pos_bound (ub - lb) 2 ltac:(lia)); lia).
  rewrite (Hf mid Hm). cbn [bindo]. destruct (p mid) eqn:Pm.
  - destruct (IH (mid + 1) ub) as (r & -> & Hr & H1 & H2); [lia|unfold mid in *; lia|intros; apply Hf; lia|intros i j ? ?; apply Hp; lia|].
    exists r. split_and!; [done|lia|lia| |done]. intros i Hi. destruct (decide (i <= mid)); [apply (Hp i mid); [lia|lia|done]|]. apply H1. lia.
  - destruct (IH lb mid) as (r & -> & Hr & H1 & H2); [lia|unfold mid in *; lia|intros; apply Hf; lia|intros i j ? ?; apply Hp; lia|].
    exists r. split_and!; [done|lia|lia|done|]. intros i Hi. destruct (decide (i < mid)); [apply H2; lia|].
    apply not_true_iff_false. intros Pi. rewrite (Hp mid i) in Pm; [done|lia|lia|done].
Qed.
End Search.

Lemma get_Done {T} (l : list T) (i : nat) x : l !! i = Some x -> get l (Z.of_nat i) = Done x.
Proof. intros E. unfold get. destruct (Z.ltb_spec (Z.of_nat i) 0); [lia|]. by rewrite Nat2Z.id, E. Qed.

(** On a range of a buffer that is sorted by a strict weak order, [binary_search] ends, stays inside the range, and tells whether the range
    holds an element equal to the value. *)
Theorem binary_search_spec {T} (lt eqb : T -> T -> bool) (l : list T) (start end_ : nat) val :
  (start <= end_ <= length l)%nat -> Z.of_nat (length l) < 2 ^ 63 ->
  (forall x y z, lt x y = false -> lt y z = false -> lt x z = false) ->
  (forall x, eqb x val = true <-> lt x val = false /\ lt val x = false) ->
  (forall i j x y, (start <= i <= j)%nat -> (j < end_)%nat -> l !! i = Some x -> l !! j = Some y -> lt y x = false) ->
  exists b, binary_search lt eqb l (Z.of_nat start) (Z.of_nat end_) val = Done b /\
    (b = true <-> exists i x, (start <= i < end_)%nat /\ l !! i = Some x /\ eqb x val = true).
Proof.
  intros Hr B Tr He Hs. unfold binary_search, lower_bound_elements.
  set (p := fun i : Z => match l !! Z.to_nat i with Some x => lt x val | None => false end).
  assert (Pi : forall i x, l !! i = Some x -> p (Z.of_nat i) = lt x val) by (intros i x E; unfold p; by rewrite Nat2Z.id, E).
  destruct (lower_bound_spec (fun mid v => let! x := get l mid in Done (lt x v)) p val 64 (Z.of_nat start) (Z.of_nat end_))
    as (r & -> & R & H1 & H2); [lia|lia| | |].
  - intros i Hi. destruct (lookup_lt_is_Some_2 l (Z.to_nat i)) as [x E]; [lia|]. pose proof (get_Done l _ x E) as G.
    rewrite Z2Nat.id in G by lia. cbn beta. rewrite G. cbn [bindo]. unfold p. by rewrite E.
  - intros i j Hij Hj. destruct (lookup_lt_is_Some_2 l (Z.to_nat i)) as [x Ei]; [lia|].
    destruct (lookup_lt_is_Some_2 l (Z.to_nat j)) as [y Ej]; [lia|]. unfold p. rewrite Ei, Ej. intros Hy.
    apply not_false_iff_true. intros Hx. rewrite (Tr y x val) in Hy; [done| |done].
    apply (Hs (Z.to_nat i) (Z.to_nat j)); done || lia.
  - cbn [bindo]. destruct (Z.ltb_spec r (Z.of_nat end_)) as [L|L].
    + destruct (lookup_lt_is_Some_2 l (Z.to_nat r)) as [x E]; [lia|]. pose proof (get_Done l _ x E) as G.
      rewrite Z2Nat.id in G by lia. rewrite G. cbn [bindo]. exists (eqb x val). split; [done|]. split; [intros; exists (Z.to_nat r), x; split_and!; done || lia|].
      intros (i & y & Hi & Ey & Eq). apply He in Eq as [Q1 Q2].
      assert (Hri : (Z.to_nat r <= i)%nat).
      { destruct (decide (Z.to_nat r <= i)%nat); [done|]. pose proof (H1 (Z.of_nat i) ltac:(lia)) as Q. rewrite (Pi i y Ey) in Q. congruence. }
      apply He. split; [|apply (Tr val y x); [done|]; apply (Hs (Z.to_nat r) i x y); done || lia].
      pose proof (H2 r ltac:(lia)) as Q. rewrite <- (Z2Nat.id r), (Pi _ x E) in Q by lia. done.
    + exists false. split; [done|]. split; [done|]. intros (i & y & Hi & Ey & Eq). apply He in Eq as [Q1 Q2].
      pose proof (H1 (Z.of_nat i) ltac:(lia)) as Q. rewrite (Pi i y Ey) in Q. congruence.
Qed.

Lemma binary_search_spec_witness : binary_search Z.ltb Z.eqb [1; 3; 5; 7] 1 4 7 = Done true.
Proof.
  destruct (binary_search_spec Z.ltb Z.eqb [1; 3; 5; 7] 1 4 7) as (b & E & H).
  - cbn. lia.
  - cbn. lia.
  - intros. lia.
  - intros. lia.
  - intros i j x y Hij Hj Ei Ej.
    destruct i as [|[|[|[|i]]]], j as [|[|[|[|j]]]]; try lia; cbn in Ei, Ej; try discriminate;
      injection Ei as <-; injection Ej as <-; reflexivity.
  - change (Z.of_nat 1) with 1 in E. change (Z.of_nat 4) with 4 in E. rewrite E. f_equal. apply H.
    exists 3%nat, 7. split_and!; [lia|lia|reflexivity|reflexivity].
Defined.
End Sorting.
