(* ===== verification/DistArray.v ===== *)
(** * Distributed arrays

    [pando-lib-galois/containers/dist_array.hpp]: an array in equal blocks on several hosts.  A block is the list of its elements; a
    pointer to an element is the block's number and the position in it.  The tasks of a parallel loop run in any order; their
    element accesses are to separate parts of the arrays, so that tasks are taken one after the other. *)

From stdpp Require Import list.
From S2P Require Import Prelude Addressing.
Import BitManip Index AddressMap.

Module DistArray.

(** A place and the type of its memory. *)
Definition PlaceType : Type := Place * MemoryType.

Section DistArray.
Context {T : Type}.

(** src/include/pando-lib-galois/containers/dist_array.hpp:60-63 [DistArray] *)
Record DistArray := mkDA { m_data : list (list T); size_ : Z }.
Definition DistArray0 : DistArray := mkDA [] 0.

(** A new array of [n] elements on the place asked: what its memory holds, or the error.  The array of the [n] blocks themselves is on
    the node that runs; it is not initialised either. *)
Context (fresh : PlaceType -> Z -> list T + Status) (fresh_blocks : Z -> list (list T) + Status).
(** What reading an element through the null pointer gives.  The standard gives it no meaning; on a node of the PREP backend it reads the
    first bytes of a stack. *)
Context (null_read : outcome T).

Definition beyond : failure := Undefined "index outside the block".
Definition no_end : failure := Undefined "loop without end".

(** The size of block 0. *)
Definition block_size (d : DistArray) : Z := Z.of_nat (length (default [] (m_data d !! 0%nat))).

(** src/include/pando-lib-galois/containers/dist_array.hpp:68-78 [get]; [None] is the null pointer *)
Definition get (d : DistArray) (i : Z) : option (nat * nat) :=
  let m_data_size := Z.of_nat (length (m_data d)) in
  if (m_data_size =? 0) || (u64 (m_data_size * block_size d) <=? i) then None
  else
    let index := i mod block_size d in
    let blockId := i / block_size d in
    Some (Z.to_nat blockId, Z.to_nat index).

(** src/include/pando-lib-galois/containers/dist_array.hpp:288-290 [operator[]], read *)
Definition read (d : DistArray) (pos : Z) : outcome T :=
  match get d pos with
  | None => null_read
  | Some (b, k) => match (let? blk := m_data d !! b in blk !! k) with Some x => Done x | None => Failed beyond end
  end.
(** src/include/pando-lib-galois/containers/dist_array.hpp:284-286 [operator[]], written *)
Definition write (d : DistArray) (pos : Z) (x : T) : outcome DistArray :=
  match get d pos with
  | None => Failed (Undefined "write through the null pointer")
  | Some (b, k) =>
      match m_data d !! b with
      | Some blk => if decide (k < length blk)%nat then Done (mkDA (<[b := <[k := x]> blk]> (m_data d)) (size_ d)) else Failed beyond
      | None => Failed beyond
      end
  end.

(** src/include/pando-lib-galois/containers/dist_array.hpp:304-310 [capacity] *)
Definition capacity (d : DistArray) : Z := if size_ d =? 0 then 0 else u64 (Z.of_nat (length (m_data d)) * block_size d).

(** src/include/pando-lib-galois/containers/dist_array.hpp:135-140 [initialize], the loop over the places; [blocks] are those set so far and, from
    [i] on, what the memory held *)
Fixpoint initialize_blocks (places : list PlaceType) (bucketSize : Z) (i : nat) (blocks : list (list T)) : Status * list (list T) :=
  match places with
  | [] => (Success, blocks)
  | p :: places =>
      match (if bucketSize =? 0 then inl [] else fresh p bucketSize) with
      | inl arr => initialize_blocks places bucketSize (S i) (<[i := arr]> blocks)
      | inr status => (status, blocks)
      end
  end.

(** src/include/pando-lib-galois/containers/dist_array.hpp:120-142 [initialize] *)
Definition initialize (d : DistArray) (places : list PlaceType) (size : Z) : outcome (Status * DistArray) :=
  if decide (m_data d <> []) then Done (AlreadyInit, d) else
  if size =? 0 then Done (Success, mkDA (m_data d) size) else
  let buckets := Z.of_nat (length places) in
  if buckets =? 0 then Failed (Undefined "division by zero") else
  let bucketSize := u64 (size / buckets + (if size mod buckets =? 0 then 0 else 1)) in
  match fresh_blocks buckets with
  | inl garbage => let (status, blocks) := initialize_blocks places bucketSize 0 garbage in Done (status, mkDA blocks size)
  | inr status => Done (status, mkDA [] size)
  end.

(** src/include/pando-lib-galois/containers/dist_array.hpp:150-163 [initialize] over the [nodes] hosts; [fresh_places] is the status of the
    allocation of the array of places *)
Definition initialize_hosts (d : DistArray) (nodes : nat) (fresh_places : Status) (size : Z) : outcome (Status * DistArray) :=
  match fresh_places with
  | Success =>
      let hostsPlaces := map (fun i => (mkPlace (mkNode (Z.of_nat i)) anyPod anyCore, Main)) (seq 0 nodes) in
      initialize (mkDA (m_data d) size) hostsPlaces size
  | status => Done (status, mkDA (m_data d) size)
  end.

(** src/include/pando-lib-galois/containers/dist_array.hpp:271-282 [deinitialize]; what becomes of the memory is not part of this model *)
Definition deinitialize (d : DistArray) : DistArray := match m_data d with [] => d | _ => mkDA [] (size_ d) end.

(** ** Parallel loops

    [galois::doAllEvenlyPartition] runs the task of each of its [workItems] once, in some order. *)
Fixpoint tasks {S} (task : Z -> S -> outcome S) (order : list Z) (s : S) : outcome S :=
  match order with
  | [] => Done s
  | t :: order => let! s := task t s in tasks task order s
  end.

(** src/include/pando-lib-galois/containers/dist_array.hpp:177-179 [from], the loop of a task *)
Fixpoint copy_loop (n : nat) (data : list T) (i : Z) (to : DistArray) : outcome DistArray :=
  match n with
  | O => Done to
  | S n =>
      match data !! Z.to_nat i with
      | Some x => let! to := write to i x in copy_loop n data (i + 1) to
      | None => Failed beyond
      end
  end.
(** src/include/pando-lib-galois/containers/dist_array.hpp:170-180 [from], the task of [thread] *)
Definition from_task (data : list T) (total_threads thread : Z) (to : DistArray) : outcome DistArray :=
  let workPerHost := size_ to / total_threads in
  let start := u64 (thread * workPerHost) in
  let end_ := u64 (start + workPerHost) in
  let end_ := if thread =? total_threads - 1 then size_ to else end_ in
  copy_loop (Z.to_nat end_) data 0 to.

(** src/include/pando-lib-galois/containers/dist_array.hpp:165-182 [from]; the tasks of the [total_threads] run in the [order] given *)
Definition from (d : DistArray) (nodes : nat) (fresh_places : Status) (data : list T) (size total_threads : Z) (order : list Z)
    : outcome (Status * DistArray) :=
  let! (err, d) := initialize_hosts d nodes fresh_places size in
  match err with
  | Success => let! d := tasks (from_task data total_threads) order d in Done (err, d)
  | _ => Done (err, d)
  end.

End DistArray.

(** ** The array as one list *)

Section Flat.
Context {T : Type} (fresh : PlaceType -> Z -> list T + Status) (fresh_blocks : Z -> list (list T) + Status) (null_read : outcome T).
Implicit Types (l : list T) (d : @DistArray T).

Section Blocks.
Context (bs : nat).
Definition uniform (bl : list (list T)) : Prop := Forall (fun b => length b = bs) bl.

Lemma concat_length bl : uniform bl -> length (concat bl) = (length bl * bs)%nat.
Proof. induction 1 as [|b bl E _ IH]; [done|]. cbn [concat length]. rewrite length_app, IH, E. lia. Qed.

Lemma concat_lookup bl i : uniform bl -> (0 < bs)%nat ->
  concat bl !! i = (let? b := bl !! (i / bs)%nat in b !! (i mod bs)%nat).
Proof.
  intros U Hb. revert i. induction U as [|b bl E _ IH]; intros i; [by destruct (_ / _)%nat|]. cbn [concat].
  destruct (decide (i < bs)%nat).
  - rewrite lookup_app_l by lia. by rewrite Nat.div_small, Nat.mod_small.
  - rewrite lookup_app_r by lia. rewrite E, IH.
    assert (i / bs = S ((i - bs) / bs) /\ i mod bs = (i - bs) mod bs)%nat as [-> ->]; [|done].
    replace i with (i - bs + 1 * bs)%nat at 1 3 by lia. rewrite Nat.Div0.mod_add, Nat.div_add by lia. lia.
Qed.

Lemma uniform_lookup bl b i : uniform bl -> bl !! i = Some b -> length b = bs.
Proof. intros U E. unfold uniform in U. rewrite Forall_lookup in U. by apply (U i). Qed.

Lemma concat_insert bl i b x : uniform bl -> (0 < bs)%nat -> bl !! (i / bs)%nat = Some b ->
  concat (<[(i / bs)%nat := <[(i mod bs)%nat := x]> b]> bl) = <[i := x]> (concat bl) /\
  uniform (<[(i / bs)%nat := <[(i mod bs)%nat := x]> b]> bl).
Proof.
  intros U Hb Eb. assert (U' : uniform (<[(i / bs)%nat := <[(i mod bs)%nat := x]> b]> bl)).
  { apply Forall_insert; [done|]. rewrite length_insert. by apply (uniform_lookup bl b (i / bs)). }
  split; [|done]. apply list_eq. intros j. rewrite concat_lookup by done.
  pose proof (lookup_lt_Some _ _ _ Eb) as Li. pose proof (uniform_lookup _ _ _ U Eb) as Lb.
  pose proof (Nat.mod_upper_bound i bs ltac:(lia)) as Lm. pose proof (Nat.div_mod_eq i bs) as Di. pose proof (Nat.div_mod_eq j bs) as Dj.
  rewrite list_lookup_insert. destruct (decide (i = j)) as [<-|Hij].
  - rewrite decide_True by done. rewrite list_lookup_insert_eq by lia. rewrite list_lookup_insert_eq; [done|].
    rewrite concat_length by done. nia.
  - rewrite (list_lookup_insert_ne (concat bl)) by done. rewrite concat_lookup by done.
    destruct (decide (_ /\ _)) as [[Hq _]|]; [|done]. rewrite <- Hq, Eb. apply list_lookup_insert_ne. intros Hm. apply Hij. congruence.
Qed.
End Blocks.

(** [d]'s blocks are as long as each other and hold [l]. *)
Record holds (bs : nat) d l : Prop := mkHolds {
  h_concat : concat (m_data d) = l;
  h_uniform : uniform bs (m_data d);
  h_pos : (0 < length l)%nat;
  h_bound : Z.of_nat (length l) < 2 ^ 63 }.

Lemma holds_shape bs d l : holds bs d l ->
  block_size d = Z.of_nat bs /\ (0 < bs)%nat /\ (0 < length (m_data d))%nat /\ length l = (length (m_data d) * bs)%nat.
Proof.
  intros [C U P _]. pose proof (concat_length bs _ U) as L. rewrite C in L.
  assert (0 < length (m_data d))%nat by lia. split_and!; [|lia|done|done].
  unfold block_size. destruct (m_data d) as [|b bl]; [cbn in *; lia|]. cbn [lookup list_lookup default]. f_equal.
  by apply (uniform_lookup bs (b :: bl) b 0).
Qed.

Lemma holds_get bs d l i : holds bs d l ->
  get d (Z.of_nat i) = if decide (i < length l)%nat then Some ((i / bs)%nat, (i mod bs)%nat) else None.
Proof.
  intros H. destruct (holds_shape _ _ _ H) as (B & Hb & Hn & L). pose proof (h_bound _ _ _ H). unfold get. cbv zeta. rewrite B.
  rewrite <- Nat2Z.inj_mul, <- L. rewrite wrapU_id by (unfold inU; lia). rewrite (proj2 (Z.eqb_neq _ _)) by lia. cbn [orb].
  destruct (Z.leb_spec (Z.of_nat (length l)) (Z.of_nat i)); [by rewrite decide_False by lia|]. rewrite decide_True by lia.
  rewrite <- Nat2Z.inj_div, <- Nat2Z.inj_mod, !Nat2Z.id. done.
Qed.

Lemma holds_block bs d l i : holds bs d l -> (i < length l)%nat -> exists b, m_data d !! (i / bs)%nat = Some b.
Proof.
  intros H Hi. destruct (holds_shape _ _ _ H) as (_ & Hb & _ & L). apply lookup_lt_is_Some_2.
  apply Nat.Div0.div_lt_upper_bound. lia.
Qed.

Lemma holds_read bs d l i x : holds bs d l -> l !! i = Some x -> read null_read d (Z.of_nat i) = Done x.
Proof.
  intros H E. pose proof (lookup_lt_Some _ _ _ E) as Hi. destruct (holds_shape _ _ _ H) as (_ & Hb & _ & _).
  unfold read. rewrite (holds_get bs d l) by done. rewrite decide_True by done.
  rewrite <- concat_lookup by (apply H || done). by rewrite (h_concat _ _ _ H), E.
Qed.
Lemma holds_read_null bs d l i : holds bs d l -> (length l <= i)%nat -> read null_read d (Z.of_nat i) = null_read.
Proof. intros H L. unfold read. rewrite (holds_get bs d l) by done. by rewrite decide_False by lia. Qed.

Lemma holds_write bs d l i x : holds bs d l -> (i < length l)%nat ->
  exists d', write d (Z.of_nat i) x = Done d' /\ holds bs d' (<[i := x]> l) /\ size_ d' = size_ d.
Proof.
  intros H Hi. destruct (holds_shape _ _ _ H) as (_ & Hb & _ & _). destruct (holds_block bs d l i H Hi) as [b Eb].
  unfold write. rewrite (holds_get bs d l), decide_True by done. rewrite Eb.
  rewrite decide_True by (rewrite (uniform_lookup bs _ _ _ (h_uniform _ _ _ H) Eb); by apply Nat.mod_upper_bound; lia).
  eexists. split; [reflexivity|]. split; [|done]. destruct H as [C U P B].
  destruct (concat_insert bs (m_data d) i b x U Hb Eb) as [C' U']. constructor; cbn [m_data]; [by rewrite C', C|done| |]; rewrite length_insert; done.
Qed.

(** ** Initialisation and filling *)

(** The memory asked for is there. *)
Definition memory_available : Prop :=
  (forall n, 0 <= n -> exists garbage, fresh_blocks n = inl garbage /\ length garbage = Z.to_nat n) /\
  (forall p n, 0 < n -> exists arr, fresh p n = inl arr /\ length arr = Z.to_nat n).

Lemma initialize_blocks_success places bucketSize : forall done rest, 0 < bucketSize -> length rest = length places ->
  (forall p, p ∈ places -> exists arr, fresh p bucketSize = inl arr /\ length arr = Z.to_nat bucketSize) ->
  exists bl, initialize_blocks fresh places bucketSize (length done) (done ++ rest) = (Success, done ++ bl) /\
    length bl = length places /\ uniform (Z.to_nat bucketSize) bl.
Proof.
  induction places as [|p places IH]; intros done rest Hb Hr Hf; cbn [initialize_blocks].
  - destruct rest; [|done]. exists []. split_and!; [done|done|constructor].
  - destruct rest as [|g rest]; [done|]. rewrite (proj2 (Z.eqb_neq _ _)) by lia. destruct (Hf p ltac:(left)) as (arr & -> & L).
    rewrite insert_app_r_alt, Nat.sub_diag by done. cbn [insert list_insert].
    destruct (IH (done ++ [arr]) rest Hb ltac:(cbn in Hr; lia)) as (bl & E & Lb & U); [intros q Hq; apply Hf; by right|].
    rewrite length_app, Nat.add_1_r, <- !app_assoc in E. cbn [app] in E. rewrite E.
    exists (arr :: bl). cbn [length]. split_and!; [done|lia|by constructor].
Qed.

(** The blocks of the [n] places hold [size] elements, and no block is empty only because of the others. *)
Definition bucket (size n : Z) : Z := size / n + (if size mod n =? 0 then 0 else 1).
Lemma bucket_bounds size n : 0 < size -> 0 < n -> 0 < bucket size n /\ size <= n * bucket size n < size + n /\ bucket size n <= size.
Proof.
  intros Hs Hn. unfold bucket. pose proof (Z.div_mod size n ltac:(lia)). pose proof (Z.mod_pos_bound size n Hn).
  pose proof (Z.div_pos size n ltac:(lia) Hn). destruct (Z.eqb_spec (size mod n) 0); nia.
Qed.

Lemma initialize_success d places size : m_data d = [] -> places <> [] -> 0 < size < 2 ^ 62 -> Z.of_nat (length places) < 2 ^ 62 ->
  memory_available ->
  exists d' l, initialize fresh fresh_blocks d places size = Done (Success, d') /\ size_ d' = size /\ length (m_data d') = length places /\
    holds (Z.to_nat (bucket size (Z.of_nat (length places)))) d' l /\ Z.of_nat (length l) = Z.of_nat (length places) * bucket size (Z.of_nat (length places)).
Proof.
  intros D P Hs Hp [Hb Hf]. set (n := Z.of_nat (length places)) in *.
  assert (Hn : 0 < n) by (unfold n; destruct places; cbn [length]; [done|lia]).
  pose proof (bucket_bounds size n ltac:(lia) Hn) as (B1 & B2 & B3). unfold initialize. rewrite decide_False by (intros Nn; by apply Nn). fold n.
  rewrite !(proj2 (Z.eqb_neq _ _)) by lia. cbv zeta. fold (bucket size n). rewrite wrapU_id by (unfold inU; lia).
  destruct (Hb n ltac:(lia)) as (garbage & -> & Lg).
  destruct (initialize_blocks_success places (bucket size n) [] garbage B1) as (bl & E & Lb & U); [lia|intros; by apply Hf|].
  cbn [app length] in E. rewrite E.
  assert (L : Z.of_nat (length (concat bl)) = n * bucket size n).
  { rewrite (concat_length _ _ U), Lb, Nat2Z.inj_mul, Z2Nat.id by lia. done. }
  exists (mkDA bl size), (concat bl). split_and!; try done. constructor; cbn [m_data]; [done|done|lia|lia].
Qed.

Lemma initialize_hosts_success (nodes : nat) size : (0 < nodes)%nat -> Z.of_nat nodes < 2 ^ 62 -> 0 < size < 2 ^ 62 ->
  memory_available -> exists d l bs, initialize_hosts fresh fresh_blocks DistArray0 nodes Success size = Done (Success, d) /\ size_ d = size /\ holds bs d l /\
    Z.of_nat (length l) = Z.of_nat nodes * bucket size (Z.of_nat nodes).
Proof.
  intros Hn Bn Hs Hm. unfold initialize_hosts. cbv zeta.
  set (places := map _ _). assert (Lp : @length PlaceType places = nodes) by (unfold places; by rewrite length_map, length_seq).
  pose proof (bucket_bounds size (Z.of_nat nodes) ltac:(lia) ltac:(lia)) as (B1 & _ & _).
  destruct (initialize_success (mkDA [] size) places size) as (d & l & E & Sz & Ld & H & L); [done| |done|by rewrite Lp|done|].
  - intros E. rewrite E in Lp. cbn in Lp. lia.
  - eexists d, l, _. rewrite Lp in *. split_and!; [exact E|done|exact H|done].
Qed.

Lemma copy_loop_spec n : forall bs (data : list T) (i : nat) to l, holds bs to l -> (i + n <= length l)%nat -> (i + n <= length data)%nat ->
  exists to' l', copy_loop n data (Z.of_nat i) to = Done to' /\ holds bs to' l' /\ size_ to' = size_ to /\ length l' = length l /\
    (forall j, (i <= j < i + n)%nat -> l' !! j = data !! j) /\ (forall j, ~ (i <= j < i + n)%nat -> l' !! j = l !! j).
Proof.
  induction n as [|n IH]; intros bs data i to l H Hl Hd; cbn [copy_loop].
  { exists to, l. split_and!; try done. intros; lia. }
  rewrite Nat2Z.id. destruct (lookup_lt_is_Some_2 data i ltac:(lia)) as [x Ex]. rewrite Ex.
  destruct (holds_write bs to l i x H ltac:(lia)) as (to1 & -> & H1 & S1). cbn [bindo].
  replace (Z.of_nat i + 1) with (Z.of_nat (S i)) by lia.
  destruct (IH bs data (S i) to1 (<[i := x]> l) H1) as (to' & l' & -> & H' & S' & L' & E1 & E2); [rewrite length_insert; lia|lia|].
  exists to', l'. rewrite length_insert in L'. split_and!; [done|done|congruence|done| |].
  - intros j Hj. destruct (decide (j = i)) as [->|]; [|apply E1; lia].
    rewrite E2 by lia. rewrite list_lookup_insert_eq by lia. done.
  - intros j Hj. rewrite E2 by lia. apply list_lookup_insert_ne. lia.
Qed.

(** The tasks of [from] leave the data's elements where they are. *)
Lemma from_tasks_spec bs (data : list T) total : forall order to l, holds bs to l -> 0 < total < 2 ^ 62 -> 0 <= size_ to < 2 ^ 62 ->
  (Z.to_nat (size_ to) <= length l)%nat -> (Z.to_nat (size_ to) <= length data)%nat ->
  Forall (fun t => 0 <= t < total) order ->
  exists to' l', tasks (from_task data total) order to = Done to' /\ holds bs to' l' /\ size_ to' = size_ to /\ length l' = length l /\
    (forall j, l !! j = data !! j -> l' !! j = data !! j) /\
    ((total - 1) ∈ order -> forall j, (j < Z.to_nat (size_ to))%nat -> l' !! j = data !! j).
Proof.
  induction order as [|t order IH]; intros to l H Ht Hs Hl Hd Ho; cbn [tasks].
  { exists to, l. split_and!; try done. intros Hin. by apply not_elem_of_nil in Hin. }
  apply Forall_cons in Ho as [Hr Ho]. unfold from_task at 1.
  pose proof (Z.div_mod (size_ to) total ltac:(lia)) as Dv. pose proof (Z.mod_pos_bound (size_ to) total ltac:(lia)) as Mp.
  pose proof (Z.div_pos (size_ to) total ltac:(lia) ltac:(lia)) as Dp.
  assert (0 <= t * (size_ to / total) <= size_ to /\ 0 <= size_ to / total <= size_ to) by nia.
  rewrite (wrapU_id 64 (t * _)) by (unfold inU; lia). rewrite wrapU_id by (unfold inU; lia). cbv zeta.
  set (e := if t =? total - 1 then size_ to else t * (size_ to / total) + size_ to / total).
  assert (He : 0 <= e <= size_ to) by (unfold e; destruct (t =? total - 1); nia).
  destruct (copy_loop_spec (Z.to_nat e) bs data 0 to l H) as (to1 & l1 & E & H1 & S1 & L1 & A1 & A2); [lia|lia|].
  change (Z.of_nat 0) with 0 in E. rewrite E. cbn [bindo].
  destruct (IH to1 l1 H1 Ht) as (to' & l' & -> & H' & S' & L' & A3 & A4); rewrite ?S1, ?L1; try done.
  exists to', l'. rewrite S', L'. split_and!; try done.
  - intros j Hj. apply A3. destruct (decide (j < Z.to_nat e)%nat); [apply A1; lia|rewrite A2 by lia; done].
  - intros Hin j Hj. apply elem_of_cons in Hin as [Hin|Hin]; [|apply A4; [done|lia]].
    apply A3, A1. unfold e. rewrite Hin, Z.eqb_refl. lia.
Qed.

End Flat.

(** On an array whose blocks are as long as each other, every slot of every block is reached by exactly one index below the capacity and
    an index beyond it gives the null pointer; a write through an index changes what that index reads, and nothing else. *)
Theorem dist_array_get_spec {T} (null_read : outcome T) (d : @DistArray T) (bs : nat) :
  uniform bs (m_data d) -> (0 < bs)%nat -> Z.of_nat (length (m_data d) * bs) < 2 ^ 63 ->
  (forall i, 0 <= i -> get d i = None <-> Z.of_nat (length (m_data d) * bs) <= i) /\
  (forall b k, (b < length (m_data d))%nat -> (k < bs)%nat -> exists i, 0 <= i /\ get d i = Some (b, k) /\ forall j, 0 <= j -> get d j = Some (b, k) -> j = i) /\
  (forall i x, 0 <= i < Z.of_nat (length (m_data d) * bs) -> exists d', write d i x = Done d' /\
     forall j, 0 <= j -> read null_read d' j = if j =? i then Done x else read null_read d j).
Proof.
  intros U Hb B. destruct (decide (length (m_data d) = 0%nat)) as [N|N].
  { unfold get, write. rewrite N in *. split_and!; intros; cbn in *; done || lia. }
  pose proof (concat_length bs _ U) as L. set (l := concat (m_data d)) in *.
  assert (H : holds bs d l) by (constructor; [done|done|nia|lia]). split_and!.
  - intros i Hi. rewrite <- (Z2Nat.id i) by done. rewrite (holds_get bs d l) by done.
    destruct (decide _); split; intros; done || lia.
  - intros b k Hl Hk. exists (Z.of_nat (b * bs + k)). rewrite (holds_get bs d l) by done. rewrite decide_True by nia.
    assert (E : ((b * bs + k) / bs = b /\ (b * bs + k) mod bs = k)%nat).
    { rewrite (Nat.add_comm (b * bs)), Nat.div_add, Nat.Div0.mod_add, Nat.div_small, Nat.mod_small by lia. done. }
    destruct E as [-> ->]. split_and!; [lia|done|]. intros j Hj. rewrite <- (Z2Nat.id j) by done. rewrite (holds_get bs d l) by done.
    destruct (decide _); [|done]. intros [= E1 E2]. rewrite (Nat.div_mod_eq (Z.to_nat j) bs). nia.
  - intros i x Hi. rewrite <- (Z2Nat.id i) by lia. destruct (holds_write bs d l (Z.to_nat i) x H) as (d' & -> & H' & _); [lia|].
    exists d'. split; [done|]. intros j Hj. rewrite <- (Z2Nat.id j) by lia. set (jn := Z.to_nat j). set (i_ := Z.to_nat i).
    destruct (decide (jn < length l)%nat) as [Lj|Lj].
    + destruct (lookup_lt_is_Some_2 l jn Lj) as [y Ey]. destruct (Z.eqb_spec (Z.of_nat jn) (Z.of_nat i_)) as [E|E].
      * apply (holds_read null_read bs d' (<[i_ := x]> l)); [done|]. replace jn with i_ by lia. apply list_lookup_insert_eq. lia.
      * rewrite (holds_read null_read bs d l jn y), (holds_read null_read bs d' (<[i_ := x]> l) jn y); try done.
        rewrite list_lookup_insert_ne; [done|lia].
    + rewrite (proj2 (Z.eqb_neq _ _)) by lia. rewrite !(holds_read_null null_read bs _ _ _ H), (holds_read_null null_read bs _ _ _ H'); try done; rewrite ?length_insert; lia.
Qed.

Lemma dist_array_get_spec_witness : exists d', write (mkDA [[1; 2]; [3; 4]; [5; 6]] 5) 3 9 = Done d' /\ read (Done 0) d' 3 = Done 9 /\ read (Done 0) d' 4 = Done 5.
Proof.
  destruct (dist_array_get_spec (Done 0) (mkDA [[1; 2]; [3; 4]; [5; 6]] 5) 2) as (_ & _ & H).
  - repeat constructor.
  - lia.
  - cbn. lia.
  - destruct (H 3 9) as (d' & E & R); [cbn; lia|]. exists d'. split; [exact E|]. split; rewrite R by lia; reflexivity.
Defined.

(** C14: [from] on a vector with at least [size] elements and on a place for every host, with the memory there is: whichever the order in
    which the threads' tasks run, it succeeds, the array has the size asked and a capacity that wastes less than an element per host,
    and its first [size] elements are the vector's. *)
Theorem dist_array_from_spec {T} (fresh : PlaceType -> Z -> list T + Status) fresh_blocks null_read (data : list T) (nodes : nat) size total order :
  (0 < nodes)%nat -> Z.of_nat nodes < 2 ^ 62 -> 0 < size < 2 ^ 62 -> size <= Z.of_nat (length data) -> 0 < total < 2 ^ 62 ->
  order ≡ₚ seqZ 0 total -> memory_available fresh fresh_blocks ->
  exists d, from fresh fresh_blocks DistArray0 nodes Success data size total order = Done (Success, d) /\ size_ d = size /\
    size <= capacity d < size + Z.of_nat nodes /\
    forall i, (i < Z.to_nat size)%nat -> exists x, data !! i = Some x /\ read null_read d (Z.of_nat i) = Done x.
Proof.
  intros Hn Bn Hs Hd Ht Po Hm. unfold from.
  pose proof (bucket_bounds size (Z.of_nat nodes) ltac:(lia) ltac:(lia)) as (B1 & B2 & _).
  destruct (initialize_hosts_success fresh fresh_blocks nodes size) as (d & l & bs & -> & Sz & H & L); try done.
  cbn [bindo]. destruct (from_tasks_spec _ data total order d l H) as (d' & l' & -> & H' & S' & L' & _ & A); rewrite ?Sz; try lia.
  { rewrite Po. apply Forall_forall. intros t Hin. apply elem_of_seqZ in Hin. lia. }
  cbn [bindo]. exists d'. destruct (holds_shape _ _ _ H') as (Bs & _ & _ & Ll). split_and!; [done|congruence| | |].
  1, 2: unfold capacity; rewrite S', Sz, (proj2 (Z.eqb_neq size 0)), Bs, <- Nat2Z.inj_mul, <- Ll, L', L, wrapU_id by (unfold inU; lia); lia.
  intros i Hi. destruct (lookup_lt_is_Some_2 data i ltac:(lia)) as [x Ex]. exists x. split; [done|].
  apply (holds_read null_read bs d' l'); [done|]. rewrite A; [done| |by rewrite Sz]. rewrite Po. apply elem_of_seqZ. lia.
Qed.

Lemma dist_array_from_spec_witness :
  exists d, from (fun _ n => inl (repeat 0 (Z.to_nat n))) (fun n => inl (repeat [] (Z.to_nat n))) DistArray0 2 Success [7; 8; 9; 10] 3 4 [2; 0; 3; 1] = Done (Success, d) /\
    size_ d = 3 /\ capacity d = 4.
Proof.
  destruct (dist_array_from_spec (fun _ n => inl (repeat 0 (Z.to_nat n))) (fun n => inl (repeat [] (Z.to_nat n))) (Done 0) [7; 8; 9; 10] 2 3 4 [2; 0; 3; 1])
    as (d & E & S & C & _); try lia; try reflexivity.
  - cbn. lia.
  - apply (bool_decide_unpack _). vm_compute. exact I.
  - split; intros; eexists; (split; [reflexivity|apply repeat_length]).
  - exists d. split; [exact E|]. split; [exact S|]. assert (Ed : Done (Success, d) = Done (Success, mkDA [[7; 8]; [9; 0]] 3)).
    { rewrite <- E. vm_compute. reflexivity. }
    injection Ed as ->. reflexivity.
Defined.
End DistArray.
