(* ===== verification/DistViews.v ===== *)
(** * Iterators and slices of distributed arrays

    [DAIterator] and [DistArraySlice] of [pando-lib-galois/containers/dist_array.hpp], and the counted iterators of
    [pando-lib-galois/utility/counted_iterator.hpp].  An iterator of a distributed array is its position; iterators are compared only when they
    are of the same array.  What [CountedIterator] asks of the iterator it wraps is the class [Iterator]. *)

From stdpp Require Import list.
From S2P Require Import Prelude DistArray.
Import DistArray.

Module DistViews.

(** ** Iterators *)

(** What a loop and a wrapper need of an iterator [It] whose references read as [R]. *)
Class Iterator (It R : Type) := {
  next : It -> It; prev : It -> It; equal : It -> It -> bool; deref : It -> outcome R }.
(** The same of one with arithmetic. *)
Class RandomAccess (It : Type) := { plus : It -> Z -> It; less : It -> It -> bool }.

(** [for (; !(b == e); ++b)] with a use of [*b], [fuel] turns at most: the values in order. *)
Fixpoint loop {It R} `{Iterator It R} (fuel : nat) (b e : It) : outcome (list R) :=
  if equal b e then Done [] else
  match fuel with
  | O => Failed no_end
  | S fuel => let! x := deref b in let! l := loop fuel (next b) e in Done (x :: l)
  end.

(** What the standard asks of iterators: [at_ i] is the one [i] elements from the first; up to the [n]-th they are distinct and [next]
    and [prev] move along them. *)
Class IteratorLaws {It R} `{Iterator It R} (at_ : nat -> It) (n : nat) : Prop := {
  next_at i : (i < n)%nat -> next (at_ i) = at_ (S i);
  equal_at i j : (i <= n)%nat -> (j <= n)%nat -> equal (at_ i) (at_ j) = (i =? j)%nat;
  prev_at i : (i < n)%nat -> prev (at_ (S i)) = at_ i }.

Lemma loop_spec {It R} `{Iterator It R} at_ n `{!IteratorLaws at_ n} (l : list R) :
  length l = n -> (forall i x, l !! i = Some x -> deref (at_ i) = Done x) ->
  forall k fuel, (k <= n)%nat -> (n - k <= fuel)%nat -> loop fuel (at_ k) (at_ n) = Done (drop k l).
Proof.
  intros L D k fuel. revert k. induction fuel as [|fuel IH]; intros k Hk Hf; cbn [loop]; rewrite equal_at by lia; destruct (Nat.eqb_spec k n) as [->|N].
  1, 3: by rewrite drop_ge by lia.
  - lia.
  - destruct (lookup_lt_is_Some_2 l k ltac:(lia)) as [x Ex]. rewrite (D k x Ex). cbn [bindo]. rewrite next_at by lia. rewrite IH by lia.
    by rewrite (drop_S l x k).
Qed.

(** ** Iterators of an array *)

Section DAIterator.
Context {T : Type} (null_read : outcome T) (d : @DistArray T).

(** src/include/pando-lib-galois/containers/dist_array.hpp:388-393 [DAIterator] of the array [d] *)
Record DAIterator := mkDAI { m_pos : Z }.
(** src/include/pando-lib-galois/containers/dist_array.hpp:410-412 [operator*] *)
Definition da_deref (i : DAIterator) : outcome T := read null_read d (m_pos i).
(** src/include/pando-lib-galois/containers/dist_array.hpp:422-425 [operator++] *)
Definition da_next (i : DAIterator) : DAIterator := mkDAI (u64 (m_pos i + 1)).
(** src/include/pando-lib-galois/containers/dist_array.hpp:433-436 [operator--] *)
Definition da_prev (i : DAIterator) : DAIterator := mkDAI (u64 (m_pos i - 1)).
(** src/include/pando-lib-galois/containers/dist_array.hpp:444-451 [operator+], [operator+=] *)
Definition da_plus (i : DAIterator) (n : Z) : DAIterator := mkDAI (u64 (m_pos i + n)).
(** src/include/pando-lib-galois/containers/dist_array.hpp:453-455 [operator-] of a number *)
Definition da_minus (i : DAIterator) (n : Z) : DAIterator := mkDAI (u64 (m_pos i - n)).
(** src/include/pando-lib-galois/containers/dist_array.hpp:457-459 [operator-] of an iterator *)
Definition da_diff (a b : DAIterator) : Z := wrapS 64 (u64 (m_pos a - m_pos b)).
(** src/include/pando-lib-galois/containers/dist_array.hpp:461-467 [operator[]] *)
Definition da_at (i : DAIterator) (n : Z) : outcome T := read null_read d (u64 (m_pos i + n)).
(** src/include/pando-lib-galois/containers/dist_array.hpp:469-472 [operator==], of iterators of one array *)
Definition da_equal (a b : DAIterator) : bool := m_pos a =? m_pos b.
(** src/include/pando-lib-galois/containers/dist_array.hpp:478-480 [operator<] *)
Definition da_less (a b : DAIterator) : bool := m_pos a <? m_pos b.

#[export] Instance DAIterator_iterator : Iterator DAIterator T :=
  { next := da_next; prev := da_prev; equal := da_equal; deref := da_deref }.
#[export] Instance DAIterator_random : RandomAccess DAIterator := { plus := da_plus; less := da_less }.

(** src/include/pando-lib-galois/containers/dist_array.hpp:338-348 [begin], [end] *)
Definition begin : DAIterator := mkDAI 0.
Definition end_ : DAIterator := mkDAI (size_ d).
End DAIterator.

(** ** Counted iterators *)

Section CountedIterator.
Context {It R : Type} `{Iterator It R} `{!RandomAccess It}.

(** src/include/pando-lib-galois/utility/counted_iterator.hpp:16-19 [CountedIterator] *)
Record CountedIterator := mkCI { m_count : Z; m_iter : It }.
(** src/include/pando-lib-galois/utility/counted_iterator.hpp:20-31 [RetType]: the count and the value *)
Record RetType := mkRet { curr : Z; value : R }.
(** src/include/pando-lib-galois/utility/counted_iterator.hpp:49-51 [operator*] *)
Definition ci_deref (i : CountedIterator) : outcome RetType := let! x := deref (m_iter i) in Done (mkRet (m_count i) x).
(** src/include/pando-lib-galois/utility/counted_iterator.hpp:61-65 [operator++] *)
Definition ci_next (i : CountedIterator) : CountedIterator := mkCI (u64 (m_count i + 1)) (next (m_iter i)).
(** src/include/pando-lib-galois/utility/counted_iterator.hpp:73-77 [operator--] *)
Definition ci_prev (i : CountedIterator) : CountedIterator := mkCI (u64 (m_count i - 1)) (prev (m_iter i)).
(** src/include/pando-lib-galois/utility/counted_iterator.hpp:85-87 [operator+] *)
Definition ci_plus (i : CountedIterator) (n : Z) : CountedIterator := mkCI (u64 (m_count i + n)) (plus (m_iter i) n).
(** src/include/pando-lib-galois/utility/counted_iterator.hpp:89-91 [operator-]: its result type is [bool] *)
Definition ci_diff (a b : CountedIterator) : bool := negb (u64 (m_count a - m_count b) =? 0).
(** src/include/pando-lib-galois/utility/counted_iterator.hpp:93-95 [operator==] *)
Definition ci_equal (a b : CountedIterator) : bool := (m_count a =? m_count b) && equal (m_iter a) (m_iter b).
(** src/include/pando-lib-galois/utility/counted_iterator.hpp:101-103 [operator<] *)
Definition ci_less (a b : CountedIterator) : bool := (m_count a <? m_count b) && less (m_iter a) (m_iter b).

#[export] Instance CountedIterator_iterator : Iterator CountedIterator RetType :=
  { next := ci_next; prev := ci_prev; equal := ci_equal; deref := ci_deref }.
#[export] Instance CountedIterator_random : RandomAccess CountedIterator := { plus := ci_plus; less := ci_less }.

(** Counting from [c] keeps the laws as long as the count stays in its 64 bits. *)
#[export] Instance CountedIterator_laws (at_ : nat -> It) n `{!IteratorLaws at_ n} (c : nat) `{!TCEq (Z.of_nat (c + n) <? 2 ^ 64) true} :
  IteratorLaws (fun i => mkCI (Z.of_nat (c + i)) (at_ i)) n.
Proof.
  match goal with T : TCEq _ _ |- _ => apply TCEq_eq, Z.ltb_lt in T end. constructor; cbn.
  - intros i Hi. unfold ci_next. cbn. rewrite next_at, wrapU_id by (unfold inU; lia). f_equal; lia.
  - intros i j Hi Hj. unfold ci_equal. cbn. rewrite equal_at by done. destruct (Nat.eqb_spec i j) as [->|]; [by rewrite Z.eqb_refl|].
    apply andb_false_r.
  - intros i Hi. unfold ci_prev. cbn. rewrite prev_at, wrapU_id by (unfold inU; lia). f_equal; lia.
Qed.
End CountedIterator.
#[global] Arguments CountedIterator : clear implicits.
#[global] Arguments RetType : clear implicits.

(** [CountedIterator<void>] and [IotaRange]: the numbers of a range. *)

(** src/include/pando-lib-galois/utility/counted_iterator.hpp:126-131 [CountedIterator<void>] *)
Record VoidIterator := mkVI { v_count : Z }.
(** src/include/pando-lib-galois/utility/counted_iterator.hpp:154-157 [operator++] *)
Definition void_next (i : VoidIterator) : VoidIterator := mkVI (u64 (v_count i + 1)).
(** src/include/pando-lib-galois/utility/counted_iterator.hpp:165-168 [operator--] *)
Definition void_prev (i : VoidIterator) : VoidIterator := mkVI (u64 (v_count i - 1)).
#[export] Instance VoidIterator_iterator : Iterator VoidIterator Z :=
  { next := void_next; prev := void_prev; equal a b := v_count a =? v_count b; deref i := Done (v_count i) }.
(** src/include/pando-lib-galois/utility/counted_iterator.hpp:194-199 [IotaRange] *)
Record IotaRange := mkIota { m_beg : Z; i_end : Z }.
(** src/include/pando-lib-galois/utility/counted_iterator.hpp:211-217 [begin], [end] *)
Definition iota_begin (r : IotaRange) : VoidIterator := mkVI (m_beg r).
Definition iota_end (r : IotaRange) : VoidIterator := mkVI (i_end r).
(** src/include/pando-lib-galois/utility/counted_iterator.hpp:219-221 [size] *)
Definition iota_size (r : IotaRange) : Z := wrapS 64 (u64 (i_end r - m_beg r)).

(** ** Slices *)

Section Slice.
Context {T : Type} (null_read : outcome T).

(** src/include/pando-lib-galois/containers/dist_array.hpp:508-518 [DistArraySlice] *)
Record DistArraySlice := mkSlice { m_arr : @DistArray T; m_begin : Z; m_end : Z }.
(** src/include/pando-lib-galois/containers/dist_array.hpp:529-535 [size] *)
Definition slice_size (s : DistArraySlice) : Z := u64 (m_end s - m_begin s).
(** src/include/pando-lib-galois/containers/dist_array.hpp:537-543 [begin] *)
Definition slice_begin (s : DistArraySlice) : CountedIterator DAIterator := mkCI (m_begin s) (mkDAI (m_begin s)).
(** src/include/pando-lib-galois/containers/dist_array.hpp:545-551 [end] *)
Definition slice_end (s : DistArraySlice) : CountedIterator DAIterator := mkCI (m_end s) (mkDAI (m_end s)).

(** A loop over the slice. *)
Definition slice_loop (fuel : nat) (s : DistArraySlice) : outcome (list (RetType T)) :=
  @loop _ _ (@CountedIterator_iterator _ _ (DAIterator_iterator null_read (m_arr s))) fuel (slice_begin s) (slice_end s).
End Slice.
#[global] Arguments DistArraySlice : clear implicits.

(** ** What loops over them give *)

Section Laws.
Context {T : Type} (null_read : outcome T) (d : @DistArray T).

(** Positions from [c] on, within 64 bits. *)
Lemma DAIterator_laws (c n : nat) : Z.of_nat (c + n) < 2 ^ 64 ->
  @IteratorLaws _ _ (DAIterator_iterator null_read d) (fun i => mkDAI (Z.of_nat (c + i))) n.
Proof.
  intros B. constructor; cbn.
  - intros i Hi. unfold da_next. cbn. rewrite wrapU_id by (unfold inU; lia). f_equal. lia.
  - intros i j _ _. unfold da_equal. cbn. destruct (Nat.eqb_spec i j) as [->|]; [apply Z.eqb_refl|]. apply Z.eqb_neq. lia.
  - intros i Hi. unfold da_prev. cbn. rewrite wrapU_id by (unfold inU; lia). f_equal. lia.
Qed.

(** A loop over the slice from [b] to [b] + length of [l] sees the elements of [l], each with its position. *)
Lemma slice_loop_spec (l : list T) (b fuel : nat) : Z.of_nat (b + length l) < 2 ^ 64 -> (length l <= fuel)%nat ->
  (forall i x, l !! i = Some x -> read null_read d (Z.of_nat (b + i)) = Done x) ->
  slice_loop null_read fuel (mkSlice d (Z.of_nat b) (Z.of_nat (b + length l))) = Done (imap (fun i x => mkRet (Z.of_nat (b + i)) x) l).
Proof.
  intros B Hf R. pose proof (DAIterator_laws b (length l) B) as L. unfold slice_loop, slice_begin, slice_end. cbn [m_arr m_begin m_end].
  assert (TE : TCEq (Z.of_nat (b + length l) <? 2 ^ 64) true) by (apply TCEq_eq, Z.ltb_lt; exact B).
  pose proof (@loop_spec _ _ (@CountedIterator_iterator _ _ (DAIterator_iterator null_read d)) _ _
    (@CountedIterator_laws _ _ (DAIterator_iterator null_read d) _ _ L b TE) (imap (fun i x => mkRet (Z.of_nat (b + i)) x) l)
    (length_imap _ _)) as S.
  specialize (fun A => S A 0%nat fuel ltac:(lia) ltac:(lia)). cbn beta in S. rewrite Nat.add_0_r, drop_0 in S. apply S.
  intros i r. rewrite list_lookup_imap. intros (x & E & ->)%fmap_Some. cbn. unfold ci_deref. cbn. unfold da_deref. cbn. by rewrite (R i x E).
Qed.
End Laws.

(** A loop over [IotaRange(b, e)] sees the numbers from [b] up to [e]. *)
Lemma iota_loop_spec (b n fuel : nat) : Z.of_nat (b + n) < 2 ^ 64 -> (n <= fuel)%nat ->
  loop fuel (iota_begin (mkIota (Z.of_nat b) (Z.of_nat (b + n)))) (iota_end (mkIota (Z.of_nat b) (Z.of_nat (b + n)))) = Done (seqZ (Z.of_nat b) (Z.of_nat n)).
Proof.
  intros B Hf. assert (L : IteratorLaws (fun i => mkVI (Z.of_nat (b + i))) n).
  { constructor; cbn.
    - intros i Hi. unfold void_next. cbn. rewrite wrapU_id by (unfold inU; lia). f_equal. lia.
    - intros i j _ _. destruct (Nat.eqb_spec i j) as [->|]; [apply Z.eqb_refl|]. apply Z.eqb_neq. lia.
      - intros i Hi. unfold void_prev. cbn. rewrite wrapU_id by (unfold inU; lia). f_equal. lia. }
  pose proof (loop_spec (fun i => mkVI (Z.of_nat (b + i))) n (seqZ (Z.of_nat b) (Z.of_nat n))) as S. rewrite length_seqZ, Nat2Z.id in S.
  specialize (fun A => S eq_refl A 0%nat fuel ltac:(lia) ltac:(lia)). cbn beta in S. rewrite Nat.add_0_r, drop_0 in S. apply S.
  intros i x (-> & _)%lookup_seqZ. cbn. do 2 f_equal. lia.
Qed.

(** The distance of two counted iterators is a truth value: two steps apart and one step apart are the same. *)
Lemma ci_diff_bool {It} `{RandomAccess It} (i : CountedIterator It) n : inU 64 (m_count i) -> 0 < n < 2 ^ 64 -> ci_diff (ci_plus i n) i = true.
Proof.
  intros Hc Hn. unfold ci_diff, ci_plus. cbn. rewrite wrapU_sub_l. replace (m_count i + n - m_count i) with n by lia.
  rewrite wrapU_id by (unfold inU; lia). apply negb_true_iff, Z.eqb_neq. lia.
Qed.

Example slice_example : slice_loop (Done 0) 3 (mkSlice (mkDA [[1; 2]; [3; 4]; [5; 6]] 5) 1 4) = Done [mkRet 1 2; mkRet 2 3; mkRet 3 4].
Proof. reflexivity. Qed.

End DistViews.
