(* ===== verification/DistArrayCSR.v ===== *)
(** * The graph on distributed arrays

    [DistArrayCSR] of [pando-lib-galois/graphs/dist_array_csr.hpp]: compressed sparse rows in five distributed arrays.  A vertex is its number,
    an edge the position of its destination; the offset kept for a vertex is where its edges end, those of vertex 0 begin at 0. *)

From Stdlib Require Import Sorting.Sorted.
From stdpp Require Import list.
From S2P Require Import Prelude Addressing DistArray DistViews Adjacency.
Import Index AddressMap DistArray DistViews.

Module DistArrayCSR.

(** What the memory resources answer to the requests of one distributed array: see [DistArray]. *)
Record Memory (T : Type) := mkMemory { fresh : PlaceType -> Z -> list T + Status; fresh_blocks : Z -> list (list T) + Status }.
Arguments mkMemory {T}. Arguments fresh {T}. Arguments fresh_blocks {T}.

(** src/include/pando-lib-galois/graphs/graph_traits.hpp:14-22 [GenericEdge] *)
Record GenericEdge (E : Type) := mkEdge { src : Z; dst : Z; data : E }.
Arguments mkEdge {E}. Arguments src {E}. Arguments dst {E}. Arguments data {E}.

Section CSR.
Context {V E : Type} (memO memT memD : Memory Z) (memV : Memory V) (memE : Memory E).
Context (null_Z : outcome Z) (null_V : outcome V) (null_E : outcome E).

(** src/include/pando-lib-galois/graphs/dist_array_csr.hpp:822-836 [DistArrayCSR] *)
Record DistArrayCSR := mkCSR {
  numVertices : Z; numEdges : Z; vertexEdgeOffsets : @DistArray Z; vertexTokenIDs : @DistArray Z; edgeDestinations : @DistArray Z;
  vertexData : @DistArray V; edgeData : @DistArray E }.
Definition set_sizes g n m := mkCSR n m (vertexEdgeOffsets g) (vertexTokenIDs g) (edgeDestinations g) (vertexData g) (edgeData g).
Definition set_vertexEdgeOffsets g a := mkCSR (numVertices g) (numEdges g) a (vertexTokenIDs g) (edgeDestinations g) (vertexData g) (edgeData g).
Definition set_vertexTokenIDs g a := mkCSR (numVertices g) (numEdges g) (vertexEdgeOffsets g) a (edgeDestinations g) (vertexData g) (edgeData g).
Definition set_edgeDestinations g a := mkCSR (numVertices g) (numEdges g) (vertexEdgeOffsets g) (vertexTokenIDs g) a (vertexData g) (edgeData g).
Definition set_vertexData g a := mkCSR (numVertices g) (numEdges g) (vertexEdgeOffsets g) (vertexTokenIDs g) (edgeDestinations g) a (edgeData g).
Definition set_edgeData g a := mkCSR (numVertices g) (numEdges g) (vertexEdgeOffsets g) (vertexTokenIDs g) (edgeDestinations g) (vertexData g) a.
Implicit Types g : DistArrayCSR.

(** ** Memory *)

(** [array.initialize(vec.begin(), vec.end(), n)] of each of the five arrays. *)
Definition init_array {T} (M : Memory T) (d : @DistArray T) (vec : list PlaceType) (n : Z) := DistArray.initialize (fresh M) (fresh_blocks M) d vec n.
Definition init_vertexEdgeOffsets vec g n : outcome (Status * DistArrayCSR) :=
  let! (err, a) := init_array memO (vertexEdgeOffsets g) vec n in Done (err, set_vertexEdgeOffsets g a).
Definition init_vertexTokenIDs vec g n : outcome (Status * DistArrayCSR) :=
  let! (err, a) := init_array memT (vertexTokenIDs g) vec n in Done (err, set_vertexTokenIDs g a).
Definition init_edgeDestinations vec g n : outcome (Status * DistArrayCSR) :=
  let! (err, a) := init_array memD (edgeDestinations g) vec n in Done (err, set_edgeDestinations g a).
Definition init_vertexData vec g n : outcome (Status * DistArrayCSR) :=
  let! (err, a) := init_array memV (vertexData g) vec n in Done (err, set_vertexData g a).
Definition init_edgeData vec g n : outcome (Status * DistArrayCSR) :=
  let! (err, a) := init_array memE (edgeData g) vec n in Done (err, set_edgeData g a).
(** [array.deinitialize()] of each. *)
Definition free_offsets g := set_vertexEdgeOffsets g (DistArray.deinitialize (vertexEdgeOffsets g)).
Definition free_tokens g := set_vertexTokenIDs g (DistArray.deinitialize (vertexTokenIDs g)).
Definition free_destinations g := set_edgeDestinations g (DistArray.deinitialize (edgeDestinations g)).
Definition free_vertexData g := set_vertexData g (DistArray.deinitialize (vertexData g)).
Definition free_edgeData g := set_edgeData g (DistArray.deinitialize (edgeData g)).

(** src/include/pando-lib-galois/graphs/dist_array_csr.hpp:545-551 [deinitialize] *)
Definition deinitialize g : DistArrayCSR := free_edgeData (free_vertexData (free_destinations (free_tokens (free_offsets g)))).

(** src/include/pando-lib-galois/graphs/dist_array_csr.hpp:172-175 [initialize], the loop that fills [vec] *)
Definition hosts (nodes : nat) : list PlaceType := map (fun i => (mkPlace (mkNode (Z.of_nat i)) anyPod anyCore, Main)) (seq 0 nodes).

(** src/include/pando-lib-galois/graphs/dist_array_csr.hpp:177-195 [initialize], the arrays of the vertices; a failure of the second one is not
    returned *)
Definition initialize_vertices (vec : list PlaceType) g (n : Z) : outcome (Status * list PlaceType * DistArrayCSR) :=
  let! (err, g) := init_vertexEdgeOffsets vec g n in
  if negb (bool_decide (err = Success)) then Done (err, [], g) else
  let! (err, g) := init_vertexTokenIDs vec g n in
  let '(vec, g) := if negb (bool_decide (err = Success)) then ([], free_offsets g) else (vec, g) in
  let! (err, g) := init_vertexData vec g n in
  if negb (bool_decide (err = Success)) then Done (err, [], free_tokens (free_offsets g)) else Done (err, vec, g).
(** src/include/pando-lib-galois/graphs/dist_array_csr.hpp:197-214 [initialize], the arrays of the edges *)
Definition initialize_edges (vec : list PlaceType) g (m : Z) : outcome (Status * DistArrayCSR) :=
  let! (err, g) := init_edgeDestinations vec g m in
  if negb (bool_decide (err = Success)) then Done (err, free_vertexData (free_tokens (free_offsets g))) else
  let! (err, g) := init_edgeData vec g m in
  if negb (bool_decide (err = Success)) then Done (err, free_destinations (free_vertexData (free_tokens (free_offsets g)))) else Done (err, g).

(** ** From vertices and edges *)

(** src/include/pando-lib-galois/graphs/dist_array_csr.hpp:216-219 [initialize], the loop over the vertices *)
Fixpoint vertices_loop (vertices : list V) (vertex : Z) g : outcome DistArrayCSR :=
  match vertices with
  | [] => Done g
  | v :: vertices =>
      let! a := write (vertexTokenIDs g) vertex vertex in let g := set_vertexTokenIDs g a in
      let! a := write (vertexData g) vertex v in let g := set_vertexData g a in
      vertices_loop vertices (u64 (vertex + 1)) g
  end.
(** src/include/pando-lib-galois/graphs/dist_array_csr.hpp:227-229 [initialize], the loop over the vertices left behind; [n] of them *)
Fixpoint offsets_loop (n : nat) (vertexCurr i : Z) (a : @DistArray Z) : outcome (@DistArray Z) :=
  match n with O => Done a | S n => let! a := write a vertexCurr i in offsets_loop n (u64 (vertexCurr + 1)) i a end.
(** src/include/pando-lib-galois/graphs/dist_array_csr.hpp:221-231 [initialize], the loop over the edges *)
Fixpoint edges_loop (edges : list (GenericEdge E)) (i vertexCurr : Z) g : outcome DistArrayCSR :=
  match edges with
  | [] => Done g
  | edge :: edges =>
      let! a := write (edgeData g) i (data edge) in let g := set_edgeData g a in
      let! a := write (edgeDestinations g) i (dst edge) in let g := set_edgeDestinations g a in
      let! a := (if src edge =? vertexCurr then Done (vertexEdgeOffsets g)
                 else offsets_loop (Z.to_nat (src edge - vertexCurr)) vertexCurr i (vertexEdgeOffsets g)) in
      edges_loop edges (u64 (i + 1)) (Z.max vertexCurr (src edge)) (set_vertexEdgeOffsets g a)
  end.
(** src/include/pando-lib-galois/graphs/dist_array_csr.hpp:162-235 [initialize]; [vec_status] is that of the allocation of [vec] *)
Definition initialize (nodes : nat) (vec_status : Status) g (vertices : list V) (edges : list (GenericEdge E)) : outcome (Status * DistArrayCSR) :=
  let n := Z.of_nat (length vertices) in let m := Z.of_nat (length edges) in
  let g := set_sizes g n m in
  if negb (bool_decide (vec_status = Success)) then Done (vec_status, g) else
  let! (err, vec, g) := initialize_vertices (hosts nodes) g n in
  if negb (bool_decide (err = Success)) then Done (err, g) else
  let! (err, g) := initialize_edges vec g m in
  if negb (bool_decide (err = Success)) then Done (err, g) else
  let! g := vertices_loop vertices 0 g in
  let! g := edges_loop edges 0 0 g in
  let! a := write (vertexEdgeOffsets g) (u64 (n - 1)) m in
  Done (err, set_vertexEdgeOffsets g a).

(** ** From an edge list *)

Context (edge_dst : E -> Z).

(** src/include/pando-lib-galois/graphs/dist_array_csr.hpp:521-522 [initialize], the loop over the edges of a vertex *)
Fixpoint bucket_loop (edges : list E) (edgeCurr : Z) (a : @DistArray Z) : outcome (Z * @DistArray Z) :=
  match edges with
  | [] => Done (edgeCurr, a)
  | e :: edges => let! a := write a edgeCurr (edge_dst e) in bucket_loop edges (u64 (edgeCurr + 1)) a
  end.
(** src/include/pando-lib-galois/graphs/dist_array_csr.hpp:518-525 [initialize], the loop over the vertices *)
Fixpoint lists_loop (edgeList : list (list E)) (vertexCurr edgeCurr : Z) g : outcome DistArrayCSR :=
  match edgeList with
  | [] => Done g
  | edges :: edgeList =>
      let! (edgeCurr, a) := bucket_loop edges edgeCurr (edgeDestinations g) in let g := set_edgeDestinations g a in
      let! a := write (vertexEdgeOffsets g) vertexCurr edgeCurr in let g := set_vertexEdgeOffsets g a in
      let! a := write (vertexTokenIDs g) vertexCurr vertexCurr in let g := set_vertexTokenIDs g a in
      lists_loop edgeList (u64 (vertexCurr + 1)) edgeCurr g
  end.
(** src/include/pando-lib-galois/graphs/dist_array_csr.hpp:532-536 [initialize], the loop over the offsets without a vertex; [n] of them *)
Fixpoint padding_loop (n : nat) (remainingIndex : Z) (a : @DistArray Z) : outcome (@DistArray Z) :=
  match n with
  | O => Done a
  | S n => let! x := read null_Z a (u64 (remainingIndex - 1)) in let! a := write a remainingIndex x in padding_loop n (u64 (remainingIndex + 1)) a
  end.
(** src/include/pando-lib-galois/graphs/dist_array_csr.hpp:461-540 [initialize] *)
Definition initialize_lists (nodes : nat) (vec_status : Status) g (edgeList : list (list E)) : outcome (Status * DistArrayCSR) :=
  if negb (bool_decide (vec_status = Success)) then Done (vec_status, g) else
  let n := Z.of_nat (length edgeList) in
  let! (err, vec, g) := initialize_vertices (hosts nodes) g n in
  if negb (bool_decide (err = Success)) then Done (err, g) else
  let edgeNums := fold_left (fun s bucket => u64 (s + Z.of_nat (length bucket))) edgeList 0 in
  let g := set_sizes g n edgeNums in
  let! (err, g) := initialize_edges vec g edgeNums in
  if negb (bool_decide (err = Success)) then Done (err, g) else
  let! g := lists_loop edgeList 0 0 g in
  let! a := (if (0 <? n) && (n <? size_ (vertexEdgeOffsets g))
             then padding_loop (Z.to_nat (size_ (vertexEdgeOffsets g) - n)) n (vertexEdgeOffsets g) else Done (vertexEdgeOffsets g)) in
  Done (err, set_vertexEdgeOffsets g a).

(** ** Reading and writing the graph *)

(** src/include/pando-lib-galois/graphs/dist_array_csr.hpp:556-558 [size] *)
Definition size g : Z := numVertices g.
(** src/include/pando-lib-galois/graphs/dist_array_csr.hpp:570-572 [sizeEdges] *)
Definition sizeEdges g : Z := numEdges g.
(** src/include/pando-lib-galois/graphs/dist_array_csr.hpp:584-586 [getTokenID] *)
Definition getTokenID g (vertex : Z) : outcome Z := read null_Z (vertexTokenIDs g) vertex.
(** src/include/pando-lib-galois/graphs/dist_array_csr.hpp:593-607 [getTopologyID], [getTopologyIDFromIndex], [getVertexIndex] *)
Definition getTopologyID (vertex : Z) : Z := vertex.
(** src/include/pando-lib-galois/graphs/dist_array_csr.hpp:612-614 [setData] *)
Definition setData g (vertex : Z) (x : V) : outcome DistArrayCSR := let! a := write (vertexData g) vertex x in Done (set_vertexData g a).
(** src/include/pando-lib-galois/graphs/dist_array_csr.hpp:627-629 [getData], read *)
Definition getData g (vertex : Z) : outcome V := read null_V (vertexData g) vertex.
(** src/include/pando-lib-galois/graphs/dist_array_csr.hpp:775-777 [edgeBegin] *)
Definition edgeBegin g (v : Z) : outcome Z := if v =? 0 then Done 0 else read null_Z (vertexEdgeOffsets g) (u64 (v - 1)).
(** src/include/pando-lib-galois/graphs/dist_array_csr.hpp:782-784 [edgeEnd] *)
Definition edgeEnd g (v : Z) : outcome Z := read null_Z (vertexEdgeOffsets g) v.
(** src/include/pando-lib-galois/graphs/dist_array_csr.hpp:619-622 [mintEdgeHandle] *)
Definition mintEdgeHandle g (vertex off : Z) : outcome Z := let! beg := edgeBegin g vertex in Done (u64 (beg + off)).
(** src/include/pando-lib-galois/graphs/dist_array_csr.hpp:634-636 [setEdgeData] *)
Definition setEdgeData g (eh : Z) (x : E) : outcome DistArrayCSR := let! a := write (edgeData g) eh x in Done (set_edgeData g a).
(** src/include/pando-lib-galois/graphs/dist_array_csr.hpp:641-643 [setEdgeData] of an edge of a vertex *)
Definition setEdgeData_off g (vertex off : Z) (x : E) : outcome DistArrayCSR := let! eh := mintEdgeHandle g vertex off in setEdgeData g eh x.
(** src/include/pando-lib-galois/graphs/dist_array_csr.hpp:648-650 [getEdgeData], read *)
Definition getEdgeData g (eh : Z) : outcome E := read null_E (edgeData g) eh.
(** src/include/pando-lib-galois/graphs/dist_array_csr.hpp:655-657 [getEdgeData] of an edge of a vertex *)
Definition getEdgeData_off g (vertex off : Z) : outcome E := let! eh := mintEdgeHandle g vertex off in getEdgeData g eh.
(** src/include/pando-lib-galois/graphs/dist_array_csr.hpp:662-666 [getNumEdges] *)
Definition getNumEdges g (vertex : Z) : outcome Z := let! beg := edgeBegin g vertex in let! e := edgeEnd g vertex in Done (u64 (e - beg)).
(** src/include/pando-lib-galois/graphs/dist_array_csr.hpp:671-673 [getEdgeDst] *)
Definition getEdgeDst g (eh : Z) : outcome Z := read null_Z (edgeDestinations g) eh.
(** src/include/pando-lib-galois/graphs/dist_array_csr.hpp:678-680 [getEdgeDst] of an edge of a vertex *)
Definition getEdgeDst_off g (vertex off : Z) : outcome Z := let! eh := mintEdgeHandle g vertex off in getEdgeDst g eh.
(** src/include/pando-lib-galois/graphs/dist_array_csr.hpp:682-685 [getLocalityVertex]: the node of the block, for arrays on the hosts in order; the
    current node [here] for the null pointer *)
Definition getLocalityVertex (here : Z) g (vertex : Z) : outcome Z :=
  let! beg := edgeBegin g vertex in Done (match DistArray.get (edgeDestinations g) beg with Some (b, _) => Z.of_nat b | None => here end).
(** src/include/pando-lib-galois/graphs/dist_array_csr.hpp:687-693 [isLocal], [isOwned] *)
Definition isLocal (here : Z) g (vertex : Z) : outcome bool := let! n := getLocalityVertex here g vertex in Done (n =? here).

(** ** Ranges *)

(** src/include/pando-lib-galois/graphs/dist_array_csr.hpp:38-47 [VertexInfo] *)
Record VertexInfo := mkInfo { lid : Z; i_edges : DistArraySlice Z }.
(** src/include/pando-lib-galois/graphs/dist_array_csr.hpp:53-56 [VertexIt] of the graph [g] *)
Record VertexIt := mkVertexIt { m_vertex : Z }.
(** src/include/pando-lib-galois/graphs/dist_array_csr.hpp:75-78 [operator*] *)
Definition it_deref g (i : VertexIt) : outcome VertexInfo :=
  let! beg := (if m_vertex i =? 0 then Done 0 else read null_Z (vertexEdgeOffsets g) (u64 (m_vertex i - 1))) in
  let! e := read null_Z (vertexEdgeOffsets g) (m_vertex i) in
  Done (mkInfo (m_vertex i) (mkSlice (edgeDestinations g) beg e)).
(** src/include/pando-lib-galois/graphs/dist_array_csr.hpp:85-88 [operator++] *)
Definition it_next (i : VertexIt) : VertexIt := mkVertexIt (u64 (m_vertex i + 1)).
(** src/include/pando-lib-galois/graphs/dist_array_csr.hpp:96-99 [operator--] *)
Definition it_prev (i : VertexIt) : VertexIt := mkVertexIt (u64 (m_vertex i - 1)).
(** src/include/pando-lib-galois/graphs/dist_array_csr.hpp:107-110 [operator==], of iterators of one graph *)
Definition it_equal (a b : VertexIt) : bool := m_vertex a =? m_vertex b.
Definition VertexIt_iterator g : Iterator VertexIt VertexInfo :=
  {| next := it_next; prev := it_prev; equal := it_equal; deref := it_deref g |}.
(** src/include/pando-lib-galois/graphs/dist_array_csr.hpp:740-749 [begin] *)
Definition begin : VertexIt := mkVertexIt 0.
(** src/include/pando-lib-galois/graphs/dist_array_csr.hpp:754-763 [end] *)
Definition end_ g : VertexIt := mkVertexIt (size g).
(** A loop over [vertices()], the graph itself. *)
Definition vertices (fuel : nat) g : outcome (list VertexInfo) := @loop _ _ (VertexIt_iterator g) fuel begin (end_ g).
(** src/include/pando-lib-galois/graphs/dist_array_csr.hpp:768-770 [edges] *)
Definition edges g (vertex : Z) : outcome (DistArraySlice Z) := let! i := it_deref g (mkVertexIt vertex) in Done (i_edges i).
(** src/include/pando-lib-galois/graphs/dist_array_csr.hpp:789-791 [vertexDataRange] *)
Definition vertexDataRange g : DistArraySlice V := mkSlice (vertexData g) 0 (size g).
(** src/include/pando-lib-galois/graphs/dist_array_csr.hpp:796-800 [edgeDataRange] *)
Definition edgeDataRange g (vertex : Z) : outcome (DistArraySlice E) :=
  let! beg := mintEdgeHandle g vertex 0 in let! e := read null_Z (vertexEdgeOffsets g) vertex in Done (mkSlice (edgeData g) beg e).

(** src/include/pando-lib-galois/graphs/dist_array_csr.hpp:802-807 [addVertexTopologyOnly], [addVertex]: nothing is added *)
Definition addVertex : Z := 2 ^ 64 - 1.
(** src/include/pando-lib-galois/graphs/dist_array_csr.hpp:809-820 [addEdgesTopologyOnly], [addEdges], [deleteEdges]: not supported *)
Definition addEdges : Status := Error.

End CSR.
#[global] Arguments DistArrayCSR : clear implicits.

(** ** Arrays as lists *)

(** The first elements of [d] are [l]. *)
Definition contains {T} (d : @DistArray T) (l : list T) : Prop := (l = [] /\ m_data d = []) \/ exists bs k, holds bs d (l ++ k).

Section Arrays.
Context {T : Type} (M : Memory T) (null_read : outcome T).
Implicit Types (d : @DistArray T) (l : list T).

(** The memory asked for is there; what it holds satisfies [P]. *)
Definition available : Prop := memory_available (fresh M) (fresh_blocks M).
Definition filled (P : T -> Prop) : Prop := forall p n arr, fresh M p n = inl arr -> Forall P arr.

Lemma contains_read d l i x : contains d l -> l !! i = Some x -> read null_read d (Z.of_nat i) = Done x.
Proof. intros [[-> _]|(bs & k & H)] E; [done|]. apply (holds_read null_read bs d (l ++ k)); [done|]. by apply lookup_app_l_Some. Qed.

Lemma contains_write d l i x : contains d l -> (i < length l)%nat ->
  exists d', write d (Z.of_nat i) x = Done d' /\ contains d' (<[i := x]> l) /\ size_ d' = size_ d.
Proof.
  intros [[-> _]|(bs & k & H)] Hi; [cbn in Hi; lia|].
  destruct (holds_write bs d (l ++ k) i x H) as (d' & E & H' & S); [rewrite length_app; lia|].
  exists d'. split_and!; [done| |done]. right. exists bs, k. by rewrite <- insert_app_l.
Qed.

Lemma initialize_blocks_all (P : T -> Prop) places bucketSize : filled P -> 0 < bucketSize -> available ->
  forall i blocks s bl, initialize_blocks (fresh M) places bucketSize i blocks = (s, bl) ->
  (forall j b, (j < i)%nat -> blocks !! j = Some b -> Forall P b) ->
  forall j b, (j < i + length places)%nat -> bl !! j = Some b -> Forall P b.
Proof.
  intros F Hb [_ A]. induction places as [|p places IH]; intros i blocks s bl E B j b Hj Lb; cbn [initialize_blocks] in E.
  { injection E as <- <-. apply (B j); [cbn in Hj; lia|done]. }
  rewrite (proj2 (Z.eqb_neq _ _)) in E by lia. destruct (A p bucketSize Hb) as (arr & Ea & _). rewrite Ea in E.
  apply (IH (S i) _ _ _ E) with j; [|cbn in Hj; lia|done].
  intros j' b' Hj' [(<- & -> & _)|(N & L)]%list_lookup_insert_Some; [by apply (F p bucketSize)|]. apply (B j'); [lia|done].
Qed.

(** A new array of [n] elements. *)
Lemma init_contains d vec n : available -> m_data d = [] -> vec <> [] -> Z.of_nat (length vec) < 2 ^ 62 -> 0 <= n < 2 ^ 62 ->
  exists d' l, DistArray.initialize (fresh M) (fresh_blocks M) d vec n = Done (Success, d') /\ size_ d' = n /\ contains d' l /\
    length l = Z.to_nat n /\ forall P, filled P -> Forall P l.
Proof.
  intros A D V Bv Hn. destruct (decide (n = 0)) as [->|N].
  { exists (mkDA [] 0), []. unfold DistArray.initialize. rewrite decide_False by (intros X; by apply X). rewrite D. split_and!; [by rewrite Z.eqb_refl|done|by left|done|intros P _; constructor]. }
  pose proof (bucket_bounds n (Z.of_nat (length vec)) ltac:(lia)) as B. destruct vec as [|p vec]; [done|].
  destruct (B ltac:(cbn; lia)) as (B1 & B2 & B3). destruct (initialize_success (fresh M) (fresh_blocks M) d (p :: vec) n) as (d' & l & E & S & Ld & H & L); try done; [lia|].
  exists d', (take (Z.to_nat n) l). rewrite length_take. split_and!; [done|done| |lia|].
  { right. eexists _, _. rewrite take_drop. exact H. }
  intros P F. apply Forall_take. rewrite <- (h_concat _ _ _ H). apply Forall_concat, Forall_lookup. intros j b Lb.
  pose proof (lookup_lt_Some _ _ _ Lb). unfold DistArray.initialize in E. rewrite decide_False in E by (intros X; by apply X).
  rewrite !(proj2 (Z.eqb_neq _ _)) in E by (cbn; lia). cbv zeta in E. fold (bucket n (Z.of_nat (length (p :: vec)))) in E.
  rewrite wrapU_id in E by (unfold inU; lia). destruct (proj1 A (Z.of_nat (length (p :: vec))) ltac:(lia)) as (garbage & Eg & _). rewrite Eg in E.
  destruct (initialize_blocks (fresh M) (p :: vec) _ 0 garbage) as [s bl] eqn:Ei. injection E as _ <-.
  apply (initialize_blocks_all P _ _ F B1 A 0 garbage s bl Ei) with j; [lia|cbn [m_data] in *; lia|done].
Qed.
End Arrays.

(** ** The loops *)

Section Loops.
Context {V E : Type} (null_Z : outcome Z) (edge_dst : E -> Z).
Local Abbreviation CSR := (DistArrayCSR V E).
Implicit Types (g : CSR) (l : list Z).

Ltac fits := cbn [length] in *; rewrite ?length_insert in *; lia.

(** Numbers below [2 ^ 62] do not wrap around when they are counted up. *)
Lemma u64_S (i : nat) : Z.of_nat i < 2 ^ 62 -> u64 (Z.of_nat i + 1) = Z.of_nat (S i).
Proof. intros H. rewrite wrapU_id by (unfold inU; lia). lia. Qed.

Lemma dist_vertices_loop_spec (vs : list V) : forall i g toks vd, contains (vertexTokenIDs g) toks -> contains (vertexData g) vd ->
  (i + length vs <= length toks)%nat -> (i + length vs <= length vd)%nat -> Z.of_nat (length toks) < 2 ^ 62 ->
  exists a b, vertices_loop vs (Z.of_nat i) g = Done (set_vertexData (set_vertexTokenIDs g a) b) /\
    contains a (splice i (map Z.of_nat (seq i (length vs))) toks) /\ contains b (splice i vs vd).
Proof.
  induction vs as [|v vs IH]; intros i g toks vd Ct Cv Lt Lv B; cbn [vertices_loop length seq map].
  { exists (vertexTokenIDs g), (vertexData g). rewrite !splice_nil. by destruct g. }
  destruct (contains_write (vertexTokenIDs g) toks i (Z.of_nat i) Ct) as (a1 & -> & C1 & _); [fits|]. cbn [bindo].
  destruct (contains_write (vertexData (set_vertexTokenIDs g a1)) vd i v Cv) as (b1 & -> & C2 & _); [fits|]. cbn [bindo].
  rewrite u64_S by fits. destruct (IH (S i) (set_vertexData (set_vertexTokenIDs g a1) b1) _ _ C1 C2) as (a & b & -> & Ca & Cb); [fits..|].
  exists a, b. split; [done|]. rewrite splice_cons in Ca by fits. rewrite splice_cons in Cb by fits. done.
Qed.

Lemma offsets_loop_spec n : forall c i (a : @DistArray Z) l, contains a l -> (c + n <= length l)%nat -> Z.of_nat (length l) < 2 ^ 62 ->
  exists a', offsets_loop n (Z.of_nat c) i a = Done a' /\ contains a' (splice c (repeat i n) l).
Proof.
  induction n as [|n IH]; intros c i a l C L B; cbn [offsets_loop repeat]; [exists a; by rewrite splice_nil|].
  destruct (contains_write a l c i C) as (a1 & -> & C1 & _); [fits|]. cbn [bindo]. rewrite u64_S by fits.
  destruct (IH (S c) i a1 _ C1) as (a' & -> & C'); [fits..|]. exists a'. split; [done|]. by rewrite splice_cons in C' by fits.
Qed.

(** What the loop over the edges writes from the offset of vertex [c] on, when [i] edges were before. *)
Fixpoint ends (es : list (GenericEdge E)) (i c : nat) : list Z :=
  match es with
  | [] => []
  | e :: es => repeat (Z.of_nat i) (Z.to_nat (src e) - c) ++ ends es (S i) (Nat.max c (Z.to_nat (src e)))
  end.

Lemma dist_edges_loop_spec (es : list (GenericEdge E)) : forall i c g offs dsts ed, contains (vertexEdgeOffsets g) offs ->
  contains (edgeDestinations g) dsts -> contains (edgeData g) ed ->
  (i + length es <= length dsts)%nat -> (i + length es <= length ed)%nat -> Z.of_nat (length dsts) < 2 ^ 62 -> Z.of_nat (length offs) < 2 ^ 62 ->
  Forall (fun e => 0 <= src e < Z.of_nat (length offs)) es -> (c <= length offs)%nat ->
  exists o d e, edges_loop es (Z.of_nat i) (Z.of_nat c) g = Done (set_vertexEdgeOffsets (set_edgeDestinations (set_edgeData g e) d) o) /\
    contains o (splice c (ends es i c) offs) /\ contains d (splice i (map dst es) dsts) /\ contains e (splice i (map data es) ed) /\
    (c + length (ends es i c) <= length offs)%nat.
Proof.
  induction es as [|x es IH]; intros i c g offs dsts ed Co Cd Ce Ld Le Bd Bo F Hc; cbn [edges_loop length map ends].
  { exists (vertexEdgeOffsets g), (edgeDestinations g), (edgeData g). rewrite !splice_nil. destruct g; split_and!; done || cbn; lia. }
  apply Forall_cons in F as [Hx F].
  destruct (contains_write (edgeData g) ed i (data x) Ce) as (e1 & -> & C1 & _); [fits|]. cbn [bindo].
  destruct (contains_write (edgeDestinations (set_edgeData g e1)) dsts i (dst x) Cd) as (d1 & -> & C2 & _); [fits|]. cbn [bindo].
  set (g1 := set_edgeDestinations _ _). set (n := (Z.to_nat (src x) - c)%nat).
  assert (exists o1, (if src x =? Z.of_nat c then Done (vertexEdgeOffsets g1)
      else offsets_loop (Z.to_nat (src x - Z.of_nat c)) (Z.of_nat c) (Z.of_nat i) (vertexEdgeOffsets g1)) = Done o1 /\
      contains o1 (splice c (repeat (Z.of_nat i) n) offs)) as (o1 & -> & C3).
  { replace (Z.to_nat (src x - Z.of_nat c)) with n by lia. destruct (Z.eqb_spec (src x) (Z.of_nat c)) as [Q|Q].
    - exists (vertexEdgeOffsets g1). split; [done|]. replace n with 0%nat by lia. cbn [repeat]. by rewrite splice_nil.
    - apply offsets_loop_spec; [exact Co|lia|done]. }
  cbn [bindo]. rewrite u64_S by fits. replace (Z.max (Z.of_nat c) (src x)) with (Z.of_nat (Nat.max c (Z.to_nat (src x)))) by lia.
  assert (Ls : length (splice c (repeat (Z.of_nat i) n) offs) = length offs) by (rewrite splice_length; rewrite ?repeat_length; lia).
  destruct (IH (S i) (Nat.max c (Z.to_nat (src x))) (set_vertexEdgeOffsets g1 o1) _ _ _ C3 C2 C1) as (o & d & e & -> & Ko & Kd & Ke & L);
    rewrite ?Ls; [fits|fits|fits|fits|done|lia|].
  exists o, d, e. rewrite splice_cons in Kd by fits. rewrite splice_cons in Ke by fits. rewrite Ls in L. split_and!; [done| |done|done|].
  - rewrite <- splice_splice by (rewrite repeat_length; lia). rewrite repeat_length. replace (c + n)%nat with (Nat.max c (Z.to_nat (src x))) by lia. exact Ko.
  - rewrite length_app, repeat_length. lia.
Qed.

Lemma bucket_loop_spec (es : list E) : forall i (a : @DistArray Z) l, contains a l -> (i + length es <= length l)%nat -> Z.of_nat (length l) < 2 ^ 62 ->
  exists a', bucket_loop edge_dst es (Z.of_nat i) a = Done (Z.of_nat (i + length es), a') /\ contains a' (splice i (map edge_dst es) l).
Proof.
  induction es as [|e es IH]; intros i a l C L B; cbn [bucket_loop map length]; [exists a; by rewrite splice_nil, Nat.add_0_r|].
  destruct (contains_write a l i (edge_dst e) C) as (a1 & -> & C1 & _); [fits|]. cbn [bindo]. rewrite u64_S by fits.
  destruct (IH (S i) a1 _ C1) as (a' & -> & C'); [fits..|]. exists a'. rewrite splice_cons in C' by fits.
  replace (S i + length es)%nat with (i + S (length es))%nat by lia. done.
Qed.

(** What the loop over the lists writes to the offsets, when [c] edges were before. *)
Fixpoint list_ends (el : list (list E)) (c : nat) : list Z :=
  match el with [] => [] | es :: el => Z.of_nat (c + length es) :: list_ends el (c + length es) end.
Lemma list_ends_length el : forall c, length (list_ends el c) = length el.
Proof. induction el as [|es el IH]; intros c; cbn; [done|]. by rewrite IH. Qed.

Lemma lists_loop_spec (el : list (list E)) : forall v c g offs toks dsts, contains (vertexEdgeOffsets g) offs ->
  contains (vertexTokenIDs g) toks -> contains (edgeDestinations g) dsts ->
  (v + length el <= length offs)%nat -> (v + length el <= length toks)%nat -> (c + length (concat el) <= length dsts)%nat ->
  Z.of_nat (length offs) < 2 ^ 62 -> Z.of_nat (length dsts) < 2 ^ 62 ->
  exists o t d, lists_loop edge_dst el (Z.of_nat v) (Z.of_nat c) g = Done (set_vertexTokenIDs (set_vertexEdgeOffsets (set_edgeDestinations g d) o) t) /\
    contains o (splice v (list_ends el c) offs) /\ contains t (splice v (map Z.of_nat (seq v (length el))) toks) /\
    contains d (splice c (map edge_dst (concat el)) dsts) /\ size_ o = size_ (vertexEdgeOffsets g).
Proof.
  induction el as [|es el IH]; intros v c g offs toks dsts Co Ct Cd Lo Lt Ld Bo Bd; cbn [lists_loop length seq map concat list_ends] in *.
  { exists (vertexEdgeOffsets g), (vertexTokenIDs g), (edgeDestinations g). rewrite !splice_nil. by destruct g. }
  rewrite length_app in Ld.
  destruct (bucket_loop_spec es c (edgeDestinations g) dsts Cd) as (d1 & -> & C1); [lia|done|]. cbn [bindo].
  destruct (contains_write (vertexEdgeOffsets (set_edgeDestinations g d1)) offs v (Z.of_nat (c + length es)) Co) as (o1 & -> & C2 & S2); [lia|]. cbn [bindo].
  destruct (contains_write (vertexTokenIDs (set_vertexEdgeOffsets (set_edgeDestinations g d1) o1)) toks v (Z.of_nat v) Ct) as (t1 & -> & C3 & _); [lia|]. cbn [bindo].
  rewrite u64_S by lia.
  assert (Ls : length (splice c (map edge_dst es) dsts) = length dsts) by (apply splice_length; rewrite length_map; lia).
  destruct (IH (S v) (c + length es)%nat (set_vertexTokenIDs (set_vertexEdgeOffsets (set_edgeDestinations g d1) o1) t1) _ _ _ C2 C3 C1)
    as (o & t & d & -> & Ko & Kt & Kd & So); rewrite ?Ls, ?length_insert; try lia.
  exists o, t, d. rewrite splice_cons in Ko by lia. rewrite splice_cons in Kt by lia. split_and!; [done|done|done| |by rewrite So].
  rewrite map_app, <- splice_splice by (rewrite !length_map; lia). by rewrite length_map.
Qed.
End Loops.

(** ** The edges of a vertex in an edge list *)

Section Sorted.
Context {E : Type}.
Implicit Types (es : list (GenericEdge E)).

Definition below (v : nat) es := filter (fun e => src e < Z.of_nat v) es.
(** The adjacency lists of the first [n] vertices. *)
Definition adjacency (n : nat) es : list (list Z) := map (fun v => map dst (filter (fun e => src e = Z.of_nat v) es)) (seq 0 n).
(** The last vertex that has edges, or [c]. *)
Definition last_source es (c : nat) : nat := fold_left (fun _ e => Z.to_nat (src e)) es c.
Definition sorted_from (c : nat) es : Prop := StronglySorted Z.le (map src es) /\ Forall (fun e => Z.of_nat c <= src e) es.

Lemma sorted_from_cons c e es : sorted_from c (e :: es) -> (c <= Z.to_nat (src e))%nat /\ 0 <= src e /\ sorted_from (Z.to_nat (src e)) es.
Proof.
  intros [S F]. apply Forall_cons in F as [H F]. cbn [map] in S. apply StronglySorted_inv in S as [S G]. split_and!; [lia|lia|].
  split; [done|]. rewrite Forall_map in G. rewrite Z2Nat.id by lia. exact G.
Qed.
Lemma below_none v es : Forall (fun e => Z.of_nat v <= src e) es -> below v es = [].
Proof.
  induction 1 as [|e es H _ IH]; [done|]. unfold below in *. rewrite filter_cons_False by lia. exact IH.
Qed.
Lemma below_S v c es : sorted_from c es -> below (S v) es = below v es ++ filter (fun e => src e = Z.of_nat v) es.
Proof.
  revert c. induction es as [|e es IH]; intros c S; [done|]. apply sorted_from_cons in S as (Hc & H0 & S). unfold below in *.
  rewrite !filter_cons. destruct (decide (src e < Z.of_nat v)) as [L|L].
  - rewrite decide_True by lia. rewrite decide_False by lia. cbn [app]. f_equal. by apply (IH (Z.to_nat (src e))).
  - destruct (decide (src e = Z.of_nat v)) as [Q|Q].
    + rewrite decide_True by lia. assert (N : below v es = []).
      { apply below_none. destruct S as [_ F]. eapply Forall_impl; [exact F|]. cbn. intros; lia. }
      unfold below in N. rewrite N. cbn [app]. f_equal. rewrite (IH (Z.to_nat (src e))) by done. by rewrite N.
    + rewrite decide_False by lia. by apply (IH (Z.to_nat (src e))).
Qed.
Lemma adjacency_take n c es v : sorted_from c es -> (v <= n)%nat -> concat (take v (adjacency n es)) = map dst (below v es).
Proof.
  intros S. induction v as [|v IH]; intros Hv.
  - rewrite below_none; [done|]. eapply Forall_impl; [apply S|]. cbn. intros; lia.
  - rewrite (take_S_r _ _ (map dst (filter (fun e => src e = Z.of_nat v) es))).
    + rewrite concat_app, IH by lia. rewrite (below_S v c) by done. rewrite map_app. cbn [concat]. by rewrite app_nil_r.
    + unfold adjacency. rewrite list_lookup_fmap, lookup_seq_lt by lia. done.
Qed.
Lemma adjacency_length n es : length (adjacency n es) = n.
Proof. unfold adjacency. by rewrite length_map, length_seq. Qed.
Lemma below_all n es : Forall (fun e => src e < Z.of_nat n) es -> below n es = es.
Proof. induction 1 as [|e es H _ IH]; [done|]. unfold below in *. by rewrite filter_cons_True, IH. Qed.
Lemma adjacency_all n c es : sorted_from c es -> Forall (fun e => src e < Z.of_nat n) es -> concat (adjacency n es) = map dst es.
Proof.
  intros S F. rewrite <- (firstn_all (adjacency n es)), adjacency_length. rewrite (adjacency_take n c) by done. by rewrite below_all.
Qed.

Lemma ends_lookup es : forall i c k, sorted_from c es -> (c + k < last_source es c)%nat ->
  ends es i c !! k = Some (Z.of_nat (i + length (below (S (c + k)) es))).
Proof.
  induction es as [|e es IH]; intros i c k S Hk; cbn [ends last_source fold_left] in *; [lia|].
  apply sorted_from_cons in S as (Hc & H0 & S). rewrite Nat.max_r by done. set (s := Z.to_nat (src e)) in *.
  destruct (decide (k < s - c)%nat) as [L|L].
  - rewrite lookup_app_l by (rewrite repeat_length; lia). rewrite lookup_repeat by lia. do 2 f_equal. rewrite below_none; [cbn; lia|]. apply Forall_cons. split; [lia|].
    eapply Forall_impl; [apply S|]. cbn. intros; lia.
  - rewrite lookup_app_r by (rewrite repeat_length; lia). rewrite repeat_length, IH; [|done|].
    + unfold below. rewrite filter_cons_True by lia. cbn [length]. do 2 f_equal. replace (s + (k - (s - c)))%nat with (c + k)%nat by lia. lia.
    + unfold last_source in *. replace (s + (k - (s - c)))%nat with (c + k)%nat by lia. done.
Qed.
Lemma ends_length es : forall i c, sorted_from c es -> (length (ends es i c) + c = Nat.max c (last_source es c))%nat /\ (c <= last_source es c)%nat.
Proof.
  induction es as [|e es IH]; intros i c S; cbn [ends last_source fold_left length] in *; [lia|].
  apply sorted_from_cons in S as (Hc & H0 & S). rewrite Nat.max_r by done. set (s := Z.to_nat (src e)) in *.
  destruct (IH (Datatypes.S i) s S). unfold last_source in *. rewrite length_app, repeat_length. lia.
Qed.
End Sorted.

(** ** The graph of adjacency lists *)

Section Graph.
Context {V E : Type} (null_Z : outcome Z).
Local Abbreviation CSR := (DistArrayCSR V E).
Implicit Types (g : CSR) (adj : list (list Z)).

(** [g] keeps the adjacency lists [adj]. *)
Record represents g adj : Prop := mkRepresents {
  r_vertices : numVertices g = Z.of_nat (length adj);
  r_edges : numEdges g = Z.of_nat (length (concat adj));
  r_bounds : Z.of_nat (length adj) < 2 ^ 62 /\ Z.of_nat (length (concat adj)) < 2 ^ 62;
  r_offsets : contains (vertexEdgeOffsets g) (map (fun v => Z.of_nat (first_edge adj (S v))) (seq 0 (length adj)));
  r_tokens : contains (vertexTokenIDs g) (map Z.of_nat (seq 0 (length adj)));
  r_destinations : contains (edgeDestinations g) (concat adj) }.

(** What the queries answer on the graph of [adj]. *)
Record answers g adj : Prop := mkAnswers {
  a_size : size g = Z.of_nat (length adj);
  a_sizeEdges : sizeEdges g = Z.of_nat (length (concat adj));
  a_vertex v l : adj !! v = Some l ->
    getTokenID null_Z g (Z.of_nat v) = Done (Z.of_nat v) /\ getNumEdges null_Z g (Z.of_nat v) = Done (Z.of_nat (length l)) /\
    edgeBegin null_Z g (Z.of_nat v) = Done (Z.of_nat (first_edge adj v));
  a_edge v l k d : adj !! v = Some l -> l !! k = Some d ->
    mintEdgeHandle null_Z g (Z.of_nat v) (Z.of_nat k) = Done (Z.of_nat (first_edge adj v + k)) /\
    getEdgeDst_off null_Z g (Z.of_nat v) (Z.of_nat k) = Done d;
  a_edges v l : adj !! v = Some l -> exists s, edges null_Z g (Z.of_nat v) = Done s /\
    slice_loop null_Z (length l) s = Done (imap (fun k d => mkRet (Z.of_nat (first_edge adj v + k)) d) l);
  a_vertices : exists infos, vertices null_Z (length adj) g = Done infos /\ length infos = length adj /\
    forall v info, infos !! v = Some info -> lid info = Z.of_nat v /\ edges null_Z g (Z.of_nat v) = Done (i_edges info) }.

Section Represented.
Context g adj (R : represents g adj).

Lemma edges_le v l : adj !! v = Some l -> (first_edge adj v + length l <= length (concat adj))%nat.
Proof. intros H. rewrite <- first_edge_S by done. apply first_edge_le. Qed.

Lemma offset_read v : (v < length adj)%nat -> read null_Z (vertexEdgeOffsets g) (Z.of_nat v) = Done (Z.of_nat (first_edge adj (S v))).
Proof. intros H. apply contains_read with (1 := r_offsets _ _ R). by rewrite list_lookup_fmap, lookup_seq_lt. Qed.
Lemma begin_read v : (v < length adj)%nat -> edgeBegin null_Z g (Z.of_nat v) = Done (Z.of_nat (first_edge adj v)).
Proof.
  intros H. destruct R as [_ _ [B _] _ _ _]. unfold edgeBegin. destruct v as [|v]; [done|]. rewrite (proj2 (Z.eqb_neq _ _)) by lia.
  rewrite wrapU_id by (unfold inU; lia). replace (Z.of_nat (S v) - 1) with (Z.of_nat v) by lia. apply offset_read. lia.
Qed.
Lemma it_deref_spec v l : adj !! v = Some l -> it_deref null_Z g (mkVertexIt (Z.of_nat v)) =
  Done (mkInfo (Z.of_nat v) (mkSlice (edgeDestinations g) (Z.of_nat (first_edge adj v)) (Z.of_nat (first_edge adj v + length l)))).
Proof.
  intros H. pose proof (lookup_lt_Some _ _ _ H) as L. pose proof (begin_read v L) as B. unfold edgeBegin in B.
  unfold it_deref. cbn [m_vertex]. rewrite B. cbn [bindo]. rewrite offset_read by done. cbn [bindo]. by rewrite (first_edge_S adj v l).
Qed.

Lemma represents_answers : answers g adj.
Proof.
  destruct R as [Rn Rm [Bn Bm] Ro Rt Rd]. constructor; [done|done| | | |].
  - intros v l H. pose proof (lookup_lt_Some _ _ _ H) as L. pose proof (edges_le v l H). split_and!.
    + apply contains_read with (1 := Rt). by rewrite list_lookup_fmap, lookup_seq_lt.
    + unfold getNumEdges, edgeEnd. rewrite begin_read by done. cbn [bindo]. rewrite offset_read by done. cbn [bindo].
      rewrite (first_edge_S adj v l) by done. rewrite wrapU_id by (unfold inU; lia). f_equal. lia.
    + by apply begin_read.
  - intros v l k d H Hk. pose proof (lookup_lt_Some _ _ _ H) as L. pose proof (lookup_lt_Some _ _ _ Hk) as Lk. pose proof (edges_le v l H).
    assert (M : mintEdgeHandle null_Z g (Z.of_nat v) (Z.of_nat k) = Done (Z.of_nat (first_edge adj v + k))).
    { unfold mintEdgeHandle. rewrite begin_read by done. cbn [bindo]. rewrite wrapU_id by (unfold inU; lia). f_equal. lia. }
    split; [done|]. unfold getEdgeDst_off. rewrite M. cbn [bindo]. apply contains_read with (1 := Rd). by rewrite (concat_edge adj v l).
  - intros v l H. pose proof (edges_le v l H). unfold edges. rewrite (it_deref_spec v l) by done. cbn [bindo i_edges]. eexists. split; [done|].
    apply slice_loop_spec; [lia|done|]. intros i x Hi. apply contains_read with (1 := Rd).
    rewrite (concat_edge adj v l); [done|done|by apply lookup_lt_Some in Hi].
  - set (info := fun (v : nat) (l : list Z) => mkInfo (Z.of_nat v) (mkSlice (edgeDestinations g) (Z.of_nat (first_edge adj v)) (Z.of_nat (first_edge adj v + length l)))).
    exists (imap info adj). rewrite length_imap.
    assert (L : @IteratorLaws _ _ (VertexIt_iterator null_Z g) (fun i => mkVertexIt (Z.of_nat i)) (length adj)).
    { constructor; cbn.
      - intros i Hi. unfold it_next. cbn. by rewrite u64_S by lia.
      - intros i j _ _. unfold it_equal. cbn. destruct (Nat.eqb_spec i j) as [->|]; [apply Z.eqb_refl|]. apply Z.eqb_neq. lia.
      - intros i Hi. unfold it_prev. cbn. rewrite wrapU_id by (unfold inU; lia). f_equal. lia. }
    split_and!; [|done|].
    + pose proof (@loop_spec _ _ (VertexIt_iterator null_Z g) _ _ L (imap info adj) (length_imap _ _)) as S.
      unfold vertices, begin, end_, size. rewrite Rn. refine (S _ 0%nat (length adj) _ _); [|lia|lia].
      intros i x. rewrite list_lookup_imap. intros (l & H & ->)%fmap_Some. by apply it_deref_spec.
    + intros v x. rewrite list_lookup_imap. intros (l & H & ->)%fmap_Some. split; [done|]. unfold edges. by rewrite (it_deref_spec v l).
Qed.
End Represented.
End Graph.

(** ** Building it *)

Section Build.
Context {V E : Type} (memO memT memD : Memory Z) (memV : Memory V) (memE : Memory E).
Context (null_Z : outcome Z).
Local Abbreviation CSR := (DistArrayCSR V E).
Implicit Types (g : CSR).

(** Nothing is allocated yet. *)
Definition blank g : Prop :=
  m_data (vertexEdgeOffsets g) = [] /\ m_data (vertexTokenIDs g) = [] /\ m_data (edgeDestinations g) = [] /\ m_data (vertexData g) = [] /\ m_data (edgeData g) = [].

Definition all_available : Prop := available memO /\ available memT /\ available memD /\ available memV /\ available memE.

Lemma hosts_length nodes : length (hosts nodes) = nodes.
Proof. unfold hosts. by rewrite length_map, length_seq. Qed.
Lemma hosts_nonempty nodes : (0 < nodes)%nat -> hosts nodes <> [].
Proof. intros H E0. apply (f_equal length) in E0. rewrite hosts_length in E0. cbn in E0. lia. Qed.

Lemma initialize_vertices_ok vec g n : all_available -> blank g -> vec <> [] -> Z.of_nat (length vec) < 2 ^ 62 -> 0 <= n < 2 ^ 62 ->
  exists o t v lo lt lv, initialize_vertices memO memT memV vec g n =
      Done (Success, vec, set_vertexData (set_vertexTokenIDs (set_vertexEdgeOffsets g o) t) v) /\
    contains o lo /\ contains t lt /\ contains v lv /\ length lo = Z.to_nat n /\ length lt = Z.to_nat n /\ length lv = Z.to_nat n /\ size_ o = n /\
    forall P, filled memO P -> Forall P lo.
Proof.
  intros (AO & AT & AD & AV & AE) (BO & BT & BD & BV & BE) V0 Bv Hn.
  destruct (init_contains memO (vertexEdgeOffsets g) vec n AO BO V0 Bv Hn) as (o & lo & Eo & So & Co & Lo & Fo).
  destruct (init_contains memT (vertexTokenIDs g) vec n AT BT V0 Bv Hn) as (t & lt & Et & _ & Ct & Lt & _).
  destruct (init_contains memV (vertexData g) vec n AV BV V0 Bv Hn) as (v & lv & Ev & _ & Cv & Lv & _).
  exists o, t, v, lo, lt, lv. split; [|done]. unfold initialize_vertices, init_vertexEdgeOffsets, init_vertexTokenIDs, init_vertexData, init_array.
  rewrite Eo. cbn [bindo]. rewrite bool_decide_eq_true_2 by done. cbn [negb]. cbn [vertexTokenIDs set_vertexEdgeOffsets]. rewrite Et. cbn [bindo]. rewrite bool_decide_eq_true_2 by done. cbn [negb].
  cbn [vertexData set_vertexTokenIDs set_vertexEdgeOffsets]. rewrite Ev. cbn [bindo]. rewrite bool_decide_eq_true_2 by done. done.
Qed.

Lemma initialize_edges_ok vec g m : all_available -> m_data (edgeDestinations g) = [] -> m_data (edgeData g) = [] ->
  vec <> [] -> Z.of_nat (length vec) < 2 ^ 62 -> 0 <= m < 2 ^ 62 ->
  exists d e ld le, initialize_edges memD memE vec g m = Done (Success, set_edgeData (set_edgeDestinations g d) e) /\
    contains d ld /\ contains e le /\ length ld = Z.to_nat m /\ length le = Z.to_nat m.
Proof.
  intros (AO & AT & AD & AV & AE) BD BE V0 Bv Hm.
  destruct (init_contains memD (edgeDestinations g) vec m AD BD V0 Bv Hm) as (d & ld & Ed & _ & Cd & Ld & _).
  destruct (init_contains memE (edgeData g) vec m AE BE V0 Bv Hm) as (e & le & Ee & _ & Ce & Le & _).
  exists d, e, ld, le. split; [|done]. unfold initialize_edges, init_edgeDestinations, init_edgeData, init_array.
  rewrite Ed. cbn [bindo]. rewrite bool_decide_eq_true_2 by done. cbn [negb]. cbn [edgeData set_edgeDestinations]. rewrite Ee.
  cbn [bindo]. by rewrite bool_decide_eq_true_2.
Qed.

(** The arrays after [initialize] from sorted edges, whatever memory held before. *)
Lemma initialize_spec (nodes : nat) g (vs : list V) (es : list (GenericEdge E)) : all_available -> (0 < nodes)%nat -> Z.of_nat nodes < 2 ^ 62 -> blank g ->
  (0 < length vs)%nat -> Z.of_nat (length vs) < 2 ^ 62 -> Z.of_nat (length es) < 2 ^ 62 ->
  sorted_from 0 es -> Forall (fun e => src e < Z.of_nat (length vs)) es ->
  exists g' junk, initialize memO memT memD memV memE nodes Success g vs es = Done (Success, g') /\
    numVertices g' = Z.of_nat (length vs) /\ numEdges g' = Z.of_nat (length es) /\ length junk = length vs /\ (forall P, filled memO P -> Forall P junk) /\
    contains (vertexEdgeOffsets g') (<[(length vs - 1)%nat := Z.of_nat (length es)]> (splice 0 (ends es 0 0) junk)) /\
    contains (vertexTokenIDs g') (map Z.of_nat (seq 0 (length vs))) /\ contains (edgeDestinations g') (map dst es) /\
    contains (vertexData g') vs /\ contains (edgeData g') (map data es) /\ (length (ends es 0 0) <= length vs)%nat.
Proof.
  intros A Hn Bn (BO & BT & BD & BV & BE) Hv Bv Bm S F. unfold initialize. cbv zeta. rewrite bool_decide_eq_true_2 by done. cbn [negb].
  set (g0 := set_sizes g _ _).
  destruct (initialize_vertices_ok (hosts nodes) g0 (Z.of_nat (length vs)) A) as (o & t & v & lo & lt & lv & -> & Co & Ct & Cv & Lo & Lt & Lv & _ & Fo);
    [done|by apply hosts_nonempty|by rewrite hosts_length|lia|].
  cbn [bindo]. rewrite bool_decide_eq_true_2 by done. cbn [negb].
  destruct (initialize_edges_ok (hosts nodes) (set_vertexData (set_vertexTokenIDs (set_vertexEdgeOffsets g0 o) t) v) (Z.of_nat (length es)) A)
    as (d & e & ld & le & -> & Cd & Ce & Ld & Le); [done|done|by apply hosts_nonempty|by rewrite hosts_length|lia|].
  cbn [bindo]. rewrite bool_decide_eq_true_2 by done. cbn [negb]. rewrite Nat2Z.id in *.
  set (g1 := set_edgeData _ _).
  destruct (dist_vertices_loop_spec vs 0 g1 lt lv Ct Cv) as (t' & v' & E1 & Ct' & Cv'); [lia|lia|lia|].
  change (Z.of_nat 0) with 0 in E1. rewrite E1. cbn [bindo].
  set (g2 := set_vertexData _ _).
  destruct (dist_edges_loop_spec es 0 0 g2 lo ld le Co Cd Ce) as (o' & d' & e' & E2 & Co' & Cd' & Ce' & L'); [lia|lia|lia|lia| |lia|].
  { rewrite Lo. destruct S as [_ S]. clear -S F. induction es as [|x es IH]; [constructor|]. apply Forall_cons in S as [? ?]. apply Forall_cons in F as [? ?].
    constructor; [lia|by apply IH]. }
  change (Z.of_nat 0) with 0 in E2. rewrite E2. cbn [bindo].
  assert (Ls : length (splice 0 (ends es 0 0) lo) = length vs) by (rewrite splice_length; lia).
  rewrite wrapU_id by (unfold inU; lia). replace (Z.of_nat (length vs) - 1) with (Z.of_nat (length vs - 1)) by lia.
  destruct (contains_write o' _ (length vs - 1) (Z.of_nat (length es)) Co') as (o2 & E3 & Co2 & _); [lia|].
  cbn [vertexEdgeOffsets set_vertexEdgeOffsets]. rewrite E3. cbn [bindo]. eexists _, lo. split; [done|].
  rewrite splice_all in Ct' by (rewrite length_map, length_seq; lia). rewrite splice_all in Cv' by lia.
  rewrite splice_all in Cd' by (rewrite length_map; lia). rewrite splice_all in Ce' by (rewrite length_map; lia).
  cbn [numVertices numEdges vertexEdgeOffsets vertexTokenIDs edgeDestinations vertexData edgeData set_vertexEdgeOffsets set_edgeDestinations set_edgeData
    set_vertexTokenIDs set_vertexData]. split_and!; try done. lia.
Qed.
End Build.

(** ** The theorems *)

Section Theorems.
Context {V E : Type} (memO memT memD : Memory Z) (memV : Memory V) (memE : Memory E).
Context (null_Z : outcome Z) (null_V : outcome V) (null_E : outcome E).
Local Abbreviation CSR := (DistArrayCSR V E).
Local Abbreviation init := (initialize memO memT memD memV memE).
Local Abbreviation available_all := (all_available memO memT memD memV memE).

Lemma sources_sorted (es : list (GenericEdge E)) n : Sorted Z.le (map src es) -> Forall (fun e => 0 <= src e < n) es ->
  sorted_from 0 es /\ Forall (fun e => src e < n) es.
Proof.
  intros S F. split; [split|].
  - apply Sorted_StronglySorted in S; [done|]. intros x y z. apply Z.le_trans.
  - eapply Forall_impl; [exact F|]. cbn. intros; lia.
  - eapply Forall_impl; [exact F|]. cbn. intros; lia.
Qed.

(** C21: from edges in the order of their sources, the last of them at the last vertex, and with the memory there is, [initialize] builds
    the graph of the adjacency lists of the vertices: all queries and ranges answer accordingly, and vertices and edges have the data given. *)
Theorem csr_from_edges (nodes : nat) (g : CSR) (vs : list V) (es : list (GenericEdge E)) :
  available_all -> (0 < nodes)%nat -> Z.of_nat nodes < 2 ^ 62 -> blank g ->
  (0 < length vs)%nat -> Z.of_nat (length vs) < 2 ^ 62 -> Z.of_nat (length es) < 2 ^ 62 ->
  Sorted Z.le (map src es) -> Forall (fun e => 0 <= src e < Z.of_nat (length vs)) es -> last_source es 0 = (length vs - 1)%nat ->
  exists g', init nodes Success g vs es = Done (Success, g') /\ answers null_Z g' (adjacency (length vs) es) /\
    (forall v x, vs !! v = Some x -> getData null_V g' (Z.of_nat v) = Done x) /\
    (forall i e, es !! i = Some e -> getEdgeDst null_Z g' (Z.of_nat i) = Done (dst e) /\ getEdgeData null_E g' (Z.of_nat i) = Done (data e)).
Proof.
  intros A Hn Bn Bl Hv Bv Bm S0 F0 Hl. destruct (sources_sorted es _ S0 F0) as [Ss F].
  destruct (initialize_spec memO memT memD memV memE nodes g vs es A Hn Bn Bl Hv Bv Bm Ss F)
    as (g' & junk & E1 & En & Em & Lj & _ & Co & Ct & Cd & Cv & Ce & Le).
  exists g'. split; [done|]. destruct (ends_length es 0 0 Ss) as [Lend _]. split_and!.
  - apply represents_answers. pose proof (adjacency_all (length vs) 0 es Ss F) as Ca.
    constructor; rewrite ?Ca, ?adjacency_length, ?length_map; try done.
    replace (map _ _) with (<[(length vs - 1)%nat := Z.of_nat (length es)]> (splice 0 (ends es 0 0) junk)); [done|].
    apply list_eq. intros v. destruct (decide (v < length vs)%nat) as [Lv|Lv].
    2: { rewrite !lookup_ge_None_2; [done| |]; rewrite ?length_insert, ?splice_length, ?length_map, ?length_seq by lia; lia. }
    rewrite list_lookup_fmap, lookup_seq_lt by done. cbn [fmap option_fmap option_map Nat.add]. unfold first_edge.
    rewrite (adjacency_take (length vs) 0) by (done || lia). rewrite length_map.
    destruct (decide (v = length vs - 1)%nat) as [->|Nv].
    + rewrite list_lookup_insert_eq by (rewrite splice_length by lia; lia). replace (S (length vs - 1))%nat with (length vs) by lia. by rewrite below_all.
    + rewrite list_lookup_insert_ne by done. change v with (0 + v)%nat at 1. rewrite splice_lookup_in by lia. rewrite ends_lookup; [done|done|lia].
  - intros v x Hx. by apply contains_read with (1 := Cv).
  - intros i e He. split; [apply contains_read with (1 := Cd)|apply contains_read with (1 := Ce)]; by rewrite list_lookup_fmap, He.
Qed.

Context (edge_dst : E -> Z).

(** From the lists of edges of each vertex, with the memory there is, [initialize] builds the graph of the lists of their destinations, of
    which every query and every range gives what the lists say. *)
Theorem csr_from_lists (nodes : nat) (g : CSR) (el : list (list E)) :
  available_all -> (0 < nodes)%nat -> Z.of_nat nodes < 2 ^ 62 -> blank g -> Z.of_nat (length el) < 2 ^ 62 -> Z.of_nat (length (concat el)) < 2 ^ 62 ->
  exists g', initialize_lists memO memT memD memV memE null_Z edge_dst nodes Success g el = Done (Success, g') /\
    answers null_Z g' (map (map edge_dst) el).
Proof.
  intros A Hn Bn (BO & BT & BD & BV & BE) Bl Bm. unfold initialize_lists. rewrite bool_decide_eq_true_2 by done. cbn [negb].
  destruct (initialize_vertices_ok memO memT memD memV memE (hosts nodes) g (Z.of_nat (length el)) A) as (o & t & v & lo & lt & lv & -> & Co & Ct & Cv & Lo & Lt & Lv & So & _);
    [done|by apply hosts_nonempty|by rewrite hosts_length|lia|].
  cbn [bindo]. rewrite bool_decide_eq_true_2 by done. cbn [negb]. rewrite numEdges_fold by lia. rewrite Z.add_0_l.
  set (g1 := set_sizes _ _ _).
  destruct (initialize_edges_ok memO memT memD memV memE (hosts nodes) g1 (Z.of_nat (length (concat el))) A)
    as (d & e & ld & le & -> & Cd & Ce & Ld & Le); [done|done|by apply hosts_nonempty|by rewrite hosts_length|lia|].
  cbn [bindo]. rewrite bool_decide_eq_true_2 by done. cbn [negb]. set (g2 := set_edgeData _ _).
  destruct (lists_loop_spec edge_dst el 0 0 g2 lo lt ld Co Ct Cd) as (o' & t' & d' & E1 & Co' & Ct' & Cd' & So'); [lia..|].
  change (Z.of_nat 0) with 0 in E1. rewrite E1. cbn [bindo]. change (vertexEdgeOffsets g2) with o in So'.
  cbn [vertexEdgeOffsets set_vertexTokenIDs set_vertexEdgeOffsets]. rewrite So', So.
  rewrite (proj2 (Z.ltb_ge (Z.of_nat (length el)) _)) by lia. rewrite andb_false_r. cbn [bindo].
  eexists. split; [done|]. apply represents_answers. assert (Ec : concat (map (map edge_dst) el) = map edge_dst (concat el)) by (symmetry; apply concat_map).
  rewrite splice_all in Co' by (rewrite list_ends_length; lia). rewrite splice_all in Ct' by (rewrite length_map, length_seq; lia).
  rewrite splice_all in Cd' by (rewrite length_map; lia).
  constructor; rewrite ?Ec, ?length_map; try done. cbn [vertexEdgeOffsets set_vertexEdgeOffsets].
  replace (map _ _) with (list_ends el 0); [done|]. clear. 
  enough (G : forall c, list_ends el c = map (fun v => Z.of_nat (c + first_edge (map (map edge_dst) el) (S v))) (seq 0 (length el))) by apply G.
  induction el as [|es el IH]; intros c; [done|]. cbn [list_ends length seq map]. f_equal.
  - unfold first_edge. cbn. rewrite app_nil_r, length_map. done.
  - rewrite IH. rewrite <- fmap_S_seq, map_map. apply map_ext. intros v. unfold first_edge. cbn [take concat map]. rewrite length_app, length_map. f_equal. lia.
Qed.

(** Where [initialize] goes wrong.  The offset of a vertex that is neither before the last source nor the last vertex is whatever memory
    held; a graph without vertices has the last offset written through the null pointer; and when the array of tokens cannot be had, its error
    is not returned and the program divides by zero. *)
Theorem csr_departures (nodes : nat) (g : CSR) (vs : list V) (es : list (GenericEdge E)) : (0 < nodes)%nat -> Z.of_nat nodes < 2 ^ 62 -> blank g ->
  Z.of_nat (length vs) < 2 ^ 62 -> Z.of_nat (length es) < 2 ^ 62 -> available memO -> available memD -> available memV -> available memE ->
  (forall x v, available memT -> filled memO (fun y => y = x) -> Sorted Z.le (map src es) -> Forall (fun e => 0 <= src e < Z.of_nat (length vs)) es ->
     (last_source es 0 <= v)%nat -> (v + 1 < length vs)%nat ->
     exists g', init nodes Success g vs es = Done (Success, g') /\ edgeEnd null_Z g' (Z.of_nat v) = Done x) /\
  (available memT -> init nodes Success g [] [] = Failed (Undefined "write through the null pointer")) /\
  (forall err, (0 < length vs)%nat -> (forall n, fresh_blocks memT n = inr err) -> err <> Success ->
     init nodes Success g vs es = Failed (Undefined "division by zero")).
Proof.
  intros Hn Bn Bl Bv Bm AO AD AV AE. split_and!.
  - intros x v AT Fx S0 F0 Hv Lv. destruct (sources_sorted es _ S0 F0) as [S F].
    destruct (initialize_spec memO memT memD memV memE nodes g vs es ltac:(done) Hn Bn Bl ltac:(lia) Bv Bm S F)
      as (g' & junk & E1 & En & Em & Lj & Fj & Co & _ & _ & _ & _ & Le).
    exists g'. split; [done|]. apply contains_read with (1 := Co). rewrite list_lookup_insert_ne by lia.
    destruct (ends_length es 0 0 S) as [Lend _]. rewrite splice_lookup_out by lia.
    destruct (lookup_lt_is_Some_2 junk v ltac:(lia)) as [y Ey]. rewrite Ey. f_equal. exact (Forall_lookup_1 _ _ _ _ (Fj _ Fx) Ey).
  - intros AT. unfold initialize. cbv zeta. rewrite bool_decide_eq_true_2 by done. cbn [negb length]. set (g0 := set_sizes g _ _).
    assert (A : available_all) by done.
    destruct (initialize_vertices_ok memO memT memD memV memE (hosts nodes) g0 0 A) as (o & t & v & lo & lt & lv & E1 & Co & Ct & Cv & Lo & Lt & Lv & _ & _);
      [by destruct Bl as (? & ? & ? & ? & ?)|by apply hosts_nonempty|by rewrite hosts_length|lia|].
    change (Z.of_nat 0) with 0. rewrite E1. cbn [bindo]. rewrite bool_decide_eq_true_2 by done. cbn [negb].
    destruct (initialize_edges_ok memO memT memD memV memE (hosts nodes) (set_vertexData (set_vertexTokenIDs (set_vertexEdgeOffsets g0 o) t) v) 0 A)
      as (d & e & ld & le & E2 & Cd & Ce & Ld & Le); [apply Bl|apply Bl|by apply hosts_nonempty|by rewrite hosts_length|lia|].
    rewrite E2. cbn [bindo]. rewrite bool_decide_eq_true_2 by done. cbn [negb vertices_loop edges_loop bindo vertexEdgeOffsets set_edgeData set_edgeDestinations
      set_vertexData set_vertexTokenIDs set_vertexEdgeOffsets].
    unfold write, DistArray.get. destruct Co as [[_ D]|(bs & k & H)].
    + by rewrite D.
    + rewrite (proj2 (Z.leb_le _ _)); [by rewrite orb_true_r|]. pose proof (h_bound _ _ _ H). destruct (holds_shape _ _ _ H) as (-> & _ & _ & L').
      rewrite <- Nat2Z.inj_mul, <- L'. change (u64 (0 - 1)) with (2 ^ 64 - 1). rewrite wrapU_id by (unfold inU; lia). lia.
  - intros err Hv Em Ne. unfold initialize. cbv zeta. rewrite bool_decide_eq_true_2 by done. cbn [negb].
    destruct Bl as (BO & BT & BD & BV & BE). unfold initialize_vertices, init_vertexEdgeOffsets, init_vertexTokenIDs, init_vertexData, init_array.
    destruct (init_contains memO (vertexEdgeOffsets g) (hosts nodes) (Z.of_nat (length vs)) AO BO) as (o & lo & Eo & _);
      [by apply hosts_nonempty|by rewrite hosts_length|lia|].
    cbn [vertexEdgeOffsets set_sizes]. rewrite Eo. cbn [bindo]. rewrite bool_decide_eq_true_2 by done. cbn [negb vertexTokenIDs set_vertexEdgeOffsets set_sizes].
    unfold DistArray.initialize at 1. rewrite decide_False by (intros X; by apply X). rewrite (proj2 (Z.eqb_neq (Z.of_nat (length vs)) 0)) by lia.
    rewrite (proj2 (Z.eqb_neq (Z.of_nat (length (hosts nodes))) 0)) by (rewrite hosts_length; lia). cbv zeta. rewrite Em.
    cbn [bindo]. rewrite bool_decide_eq_false_2 by done. cbn [negb]. unfold DistArray.initialize.
    cbn [vertexData free_offsets set_vertexTokenIDs set_vertexEdgeOffsets set_sizes]. rewrite decide_False by (intros X; by apply X).
    by rewrite (proj2 (Z.eqb_neq (Z.of_nat (length vs)) 0)) by lia.
Qed.
End Theorems.

(** ** Examples *)

Definition plenty {T} (x : T) : Memory T := mkMemory (fun _ n => inl (repeat x (Z.to_nat n))) (fun n => inl (repeat [] (Z.to_nat n))).
Lemma plenty_available {T} (x : T) : available (plenty x).
Proof. split; cbn; intros; eexists; (split; [done|apply repeat_length]). Qed.
Lemma plenty_filled {T} (x : T) : filled (plenty x) (fun y => y = x).
Proof. intros p n arr [= <-]. cbn. induction (Z.to_nat n); cbn; by constructor. Qed.
Definition blank_csr {V E} : DistArrayCSR V E := mkCSR 0 0 DistArray0 DistArray0 DistArray0 DistArray0 DistArray0.
Definition example_edges : list (GenericEdge Z) := [mkEdge 0 1 10; mkEdge 0 2 20; mkEdge 2 0 30].

Lemma csr_from_edges_witness : exists g',
  initialize (plenty 0) (plenty 0) (plenty 0) (plenty 0) (plenty 0) 2 Success blank_csr [5; 6; 7] example_edges = Done (Success, g') /\
  answers (Done 0) g' [[1; 2]; []; [0]] /\ getData (Done 0) g' 1 = Done 6 /\ getEdgeData (Done 0) g' 2 = Done 30.
Proof.
  destruct (csr_from_edges (plenty 0) (plenty 0) (plenty 0) (plenty 0) (plenty 0) (Done 0) (Done 0) (Done 0) 2 blank_csr [5; 6; 7] example_edges)
    as (g' & E1 & A & D & F); [split_and!; apply plenty_available|lia|lia|done|cbn; lia|cbn; lia|cbn; lia| |repeat constructor; cbn; lia|reflexivity|].
  - repeat constructor; cbn; lia.
  - exists g'. split; [exact E1|]. split; [exact A|]. split; [exact (D 1%nat 6 eq_refl)|]. exact (proj2 (F 2%nat _ eq_refl)).
Defined.
Lemma csr_from_lists_witness : exists g',
  initialize_lists (plenty 0) (plenty 0) (plenty 0) (@plenty Z 0) (plenty 0) (Done 0) Z.succ 2 Success blank_csr [[0; 1]; []; [2]] = Done (Success, g') /\
  answers (Done 0) g' [[1; 2]; []; [3]].
Proof.
  destruct (csr_from_lists (plenty 0) (plenty 0) (plenty 0) (@plenty Z 0) (plenty 0) (Done 0) Z.succ 2 blank_csr [[0; 1]; []; [2]])
    as (g' & E1 & A); [split_and!; apply plenty_available|lia|lia|done|cbn; lia|cbn; lia|].
  exists g'. split; [exact E1|exact A].
Defined.
Lemma csr_departures_witness : exists g',
  initialize (plenty 77) (plenty 0) (plenty 0) (plenty 0) (plenty 0) 2 Success blank_csr [5; 6; 7] [mkEdge 0 1 10] = Done (Success, g') /\
  edgeEnd (Done 0) g' 1 = Done 77.
Proof.
  destruct (csr_departures (plenty 77) (plenty 0) (plenty 0) (plenty 0) (plenty 0) (Done 0) 2 blank_csr [5; 6; 7] [mkEdge 0 1 10])
    as (D & _); [lia|lia|done|cbn; lia|cbn; lia|apply plenty_available..|].
  apply (D 77 1%nat); [apply plenty_available|apply plenty_filled|repeat constructor|repeat constructor; cbn; lia|cbn; lia|cbn; lia].
Defined.

End DistArrayCSR.
