(* ===== verification/DistSort.v ===== *)
(** * The parallel sort of a distributed array

    [DistArray::sort] of [pando-lib-galois/containers/dist_array.hpp]: the parts of the array are sorted by one task each, then merged two by
    two between the array and a temporary one.  The tasks of a loop run in any order. *)

From stdpp Require Import sorting.
From S2P Require Import Prelude Addressing DistArray.
Import BitManip DistArray.

Module DistSort.

Section Sort.
Context {T : Type}.
Implicit Types (from to d this tmp arr : @DistArray T).
Abbreviation DistArray := (@DistArray T).
(** What new memory holds, and what a read through the null pointer gives: [dist_sort_spec] takes it to be undefined. *)
Context (fresh : PlaceType -> Z -> list T + Status) (fresh_blocks : Z -> list (list T) + Status) (null_read : outcome T).
(** [operator<] of the elements, and what [std::sort] does to a list. *)
Context (lt : T -> T -> bool) (std_sort : list T -> list T).

Fixpoint read_range (n : nat) (d : DistArray) (i : Z) : outcome (list T) :=
  match n with
  | O => Done []
  | S n => let! x := read null_read d i in let! l := read_range n d (i + 1) in Done (x :: l)
  end.
Fixpoint write_range (l : list T) (d : DistArray) (i : Z) : outcome DistArray :=
  match l with
  | [] => Done d
  | x :: l => let! d := write d i x in write_range l d (i + 1)
  end.
(** [std::sort] on the elements at [start, end). *)
Definition sort_range (d : DistArray) (start end_ : Z) : outcome DistArray :=
  let! l := read_range (Z.to_nat (end_ - start)) d start in write_range (std_sort l) d start.

(** src/include/pando-lib-galois/containers/dist_array.hpp:206-220 [sort], the task that sorts a part *)
Definition part_task (totalThreads thread : Z) (arr : DistArray) : outcome DistArray :=
  let workPerHost := capacity arr / totalThreads in
  let workPerHost := if u64 (workPerHost * totalThreads) <? size_ arr then u64 (workPerHost + 1) else workPerHost in
  let start := u64 (thread * workPerHost) in
  let end_ := u64 (start + workPerHost) in
  let end_ := if (thread =? totalThreads - 1) || (size_ arr <? end_) then size_ arr else end_ in
  if end_ <=? start then Done arr else sort_range arr start end_.

(** src/include/pando-lib-galois/containers/dist_array.hpp:243-251 [sort], the first loop of a merge; a value is read ahead on each side *)
Fixpoint merge_both (fuel : nat) (from to : DistArray) (startA endA endB i a b : Z) (val1 val2 : T) : outcome (DistArray * Z * Z * Z) :=
  if (a <? endA) && (b <? endB) then
    match fuel with
    | O => Failed no_end
    | S fuel =>
        if lt val1 val2 then
          let! to := write to (u64 (startA + i)) val1 in
          let a := u64 (a + 1) in
          let! val1 := read null_read from a in
          merge_both fuel from to startA endA endB (u64 (i + 1)) a b val1 val2
        else
          let! to := write to (u64 (startA + i)) val2 in
          let b := u64 (b + 1) in
          let! val2 := read null_read from b in
          merge_both fuel from to startA endA endB (u64 (i + 1)) a b val1 val2
    end
  else Done (to, i, a, b).

(** src/include/pando-lib-galois/containers/dist_array.hpp:252-257 [sort], the other two loops of a merge *)
Fixpoint merge_rest (fuel : nat) (from to : DistArray) (startA end_ i a : Z) : outcome (DistArray * Z) :=
  if a <? end_ then
    match fuel with
    | O => Failed no_end
    | S fuel =>
        let! x := read null_read from a in
        let! to := write to (u64 (startA + i)) x in
        merge_rest fuel from to startA end_ (u64 (i + 1)) (u64 (a + 1))
    end
  else Done (to, i).

(** src/include/pando-lib-galois/containers/dist_array.hpp:226-258 [sort], the task that merges two parts of [from] into [to] *)
Definition merge_task (from : DistArray) (subArraySize workArraySize total_threads thread : Z) (to : DistArray) : outcome DistArray :=
  let startA := u64 (thread * workArraySize) in
  let startB := u64 (startA + subArraySize) in
  let endA := startB in
  let endB := u64 (startA + workArraySize) in
  let endB := if thread =? total_threads - 1 then size_ from else endB in
  if endB <=? endA then Done to else
  let! val1 := read null_read from startA in
  let! val2 := read null_read from startB in
  let fuel := Z.to_nat (endB - startA) in
  let! (to, i, a, b) := merge_both fuel from to startA endA endB 0 startA startB val1 val2 in
  let! (to, i) := merge_rest fuel from to startA endA i a in
  let! (to, _) := merge_rest fuel from to startA endB i b in
  Done to.

(** The order in which the tasks of each parallel loop run, by their number. *)
Context (order : Z -> list Z).

(** src/include/pando-lib-galois/containers/dist_array.hpp:221-263 [sort], the levels of the merge; the arrays are swapped after each *)
Fixpoint levels (fuel : nat) (this tmp : DistArray) (subArraySize threads : Z) : outcome DistArray :=
  if subArraySize <? size_ this then
    match fuel with
    | O => Failed no_end
    | S fuel =>
        let workArraySize := u64 (subArraySize * 2) in
        let! to := tasks (merge_task this subArraySize workArraySize threads) (order threads) tmp in
        levels fuel (mkDA (m_data to) (size_ this)) (mkDA (m_data this) (size_ tmp)) (u64 (subArraySize * 2)) (threads / 2)
    end
  else Done this.

(** src/include/pando-lib-galois/containers/dist_array.hpp:184-266 [sort] with [actualThreads] threads in all, on [nodes] hosts *)
Definition sort (this : DistArray) (nodes : nat) (fresh_places : Status) (actualThreads : Z) : outcome (Status * DistArray) :=
  let! totalThreads := up2 actualThreads in
  let totalThreads := if actualThreads <? totalThreads then totalThreads / 2 else totalThreads in
  let subArraySize := capacity this / totalThreads in
  if subArraySize <=? 0 then
    let! this := sort_range this 0 (size_ this) in Done (Success, this)
  else
  let subArraySize := if u64 (subArraySize * totalThreads) <? size_ this then u64 (subArraySize + 1) else subArraySize in
  let! (err, tmp) := initialize_hosts fresh fresh_blocks DistArray0 nodes fresh_places (size_ this) in
  match err with
  | Success =>
      let! this := tasks (part_task totalThreads) (order totalThreads) this in
      let! this := levels 64 this tmp subArraySize (totalThreads / 2) in
      Done (Success, this)
  | _ => Done (err, this)
  end.
End Sort.


(** ** Writing and reading stretches of an array *)

Section Stretches.
Context {T : Type} (null_read : outcome T).
Implicit Types (from to d : @DistArray T) (l s : list T).

Lemma drop_cons_inv l i x p : drop i l = x :: p -> l !! i = Some x /\ drop (S i) l = p.
Proof.
  intros E. assert (l !! i = Some x) as Hi.
  { pose proof (lookup_drop l i 0) as L. rewrite E, Nat.add_0_r in L. done. }
  split; [done|]. rewrite (drop_S l x i Hi) in E. congruence.
Qed.

Lemma list_inserts_cons_r l i x s : list_inserts (S i) s (<[i := x]> l) = list_inserts i (x :: s) l.
Proof. cbn [list_inserts]. symmetry. apply list_insert_inserts_lt. lia. Qed.

Lemma write_range_spec bs s : forall d l i, holds bs d l -> (i + length s <= length l)%nat ->
  exists d', write_range s d (Z.of_nat i) = Done d' /\ holds bs d' (list_inserts i s l) /\ size_ d' = size_ d.
Proof.
  induction s as [|x s IH]; intros d l i H L; cbn [write_range length] in *; [by exists d|].
  destruct (holds_write bs d l i x H) as (d1 & -> & H1 & S1); [lia|]. cbn [bindo]. replace (Z.of_nat i + 1) with (Z.of_nat (S i)) by lia.
  destruct (IH d1 (<[i := x]> l) (S i) H1) as (d' & -> & H' & S'); [rewrite length_insert; lia|].
  exists d'. rewrite list_inserts_cons_r in H'. split_and!; [done|done|congruence].
Qed.

Lemma read_range_spec bs s : forall d l i p, holds bs d l -> drop i l = s ++ p -> read_range null_read (length s) d (Z.of_nat i) = Done s.
Proof.
  induction s as [|x s IH]; intros d l i p H E; cbn [read_range length]; [done|]. destruct (drop_cons_inv l i x (s ++ p) E) as [Ex E'].
  rewrite (holds_read null_read bs d l i x H Ex). cbn [bindo]. replace (Z.of_nat i + 1) with (Z.of_nat (S i)) by lia.
  by rewrite (IH d l (S i) p).
Qed.

Lemma dist_merge_rest_spec bsf bst from lf (xs : list T) : holds bsf from lf -> forall fuel p startA i a e to l,
  holds bst to l -> drop a lf = xs ++ p -> (a + length xs)%nat = e -> (startA + i + length xs <= length l)%nat -> (length xs <= fuel)%nat ->
  exists to', merge_rest null_read fuel from to (Z.of_nat startA) (Z.of_nat e) (Z.of_nat i) (Z.of_nat a) = Done (to', Z.of_nat (i + length xs)) /\
    holds bst to' (list_inserts (startA + i) xs l) /\ size_ to' = size_ to.
Proof.
  intros Hf. induction xs as [|x xs IH]; intros fuel p startA i a e to l H E Ee L F; cbn [length] in *.
  { exists to. rewrite Nat.add_0_r in *. subst e. split_and!; [|done|done].
    destruct fuel; cbn [merge_rest]; by rewrite Z.ltb_irrefl. }
  destruct fuel as [|fuel]; [lia|]. cbn [merge_rest]. rewrite (proj2 (Z.ltb_lt _ _)) by lia.
  destruct (drop_cons_inv lf a x (xs ++ p) E) as [Ex E']. rewrite (holds_read null_read bsf from lf a x Hf Ex). cbn [bindo].
  pose proof (h_bound _ _ _ H). pose proof (h_bound _ _ _ Hf). pose proof (lookup_lt_Some _ _ _ Ex).
  assert (Z.of_nat (length lf) < 2 ^ 63 /\ Z.of_nat (length l) < 2 ^ 63) by done.
  rewrite !wrapU_id by (unfold inU; lia). rewrite <- Nat2Z.inj_add.
  destruct (holds_write bst to l (startA + i) x H) as (to1 & -> & Hto1 & S1); [lia|]. cbn [bindo].
  replace (Z.of_nat i + 1) with (Z.of_nat (S i)) by lia. replace (Z.of_nat a + 1) with (Z.of_nat (S a)) by lia.
  destruct (IH fuel p startA (S i) (S a) e to1 (<[(startA + i)%nat := x]> l)) as (to' & -> & H' & S'); try done; rewrite ?length_insert; try lia.
  exists to'. rewrite Nat.add_succ_r, list_inserts_cons_r in H'. split_and!; [do 2 f_equal; lia|done|congruence].
Qed.

Section Merge.
Context (lt : T -> T -> bool).
Definition less (x y : T) : Prop := lt x y = true.
#[local] Instance less_dec x y : Decision (less x y).
Proof. unfold less. solve_decision. Defined.

(** What stands first at a position a loop has reached: the value read ahead. *)
Definition ahead (val : T) (s : list T) : Prop := forall x, head s = Some x -> val = x.

Lemma ahead_read bsf from lf (i : nat) s p v : holds bsf from lf -> drop i lf = s ++ p -> read null_read from (Z.of_nat i) = Done v -> ahead v s.
Proof.
  intros Hf E Hv x Hx. destruct s as [|y s]; [done|]. injection Hx as ->. destruct (drop_cons_inv lf i x (s ++ p) E) as [Ex _].
  rewrite (holds_read null_read bsf from lf i x Hf Ex) in Hv. congruence.
Qed.

Lemma next_ahead bsf from lf (b : nat) y ys p (n : nat) :
  holds bsf from lf -> (forall j : nat, (j <= n)%nat -> exists v, read null_read from (Z.of_nat j) = Done v) ->
  drop b lf = (y :: ys) ++ p -> (b < n)%nat -> (n <= length lf)%nat ->
  drop (S b) lf = ys ++ p /\ u64 (Z.of_nat b + 1) = Z.of_nat (S b) /\
  exists val, read null_read from (Z.of_nat (S b)) = Done val /\ ahead val ys.
Proof.
  intros Hf Hr E L Ln. destruct (drop_cons_inv lf b y (ys ++ p) E) as [Ey E']. pose proof (h_bound _ _ _ Hf).
  split; [done|]. split; [rewrite wrapU_id by (unfold inU; lia); lia|].
  destruct (Hr (S b) ltac:(lia)) as [v Hv]. exists v. split; [done|]. by apply (ahead_read bsf from lf (S b) ys p).
Qed.

Lemma dist_merge_both_spec bsf bst from lf (n : nat) (startA endA endB : nat) p1 p2 :
  holds bsf from lf -> (forall j : nat, (j <= n)%nat -> exists v, read null_read from (Z.of_nat j) = Done v) ->
  (n <= length lf)%nat -> (endA <= n)%nat -> (endB <= n)%nat ->
  forall fuel (xs ys : list T) (i a b : nat) val1 val2 to l, holds bst to l ->
  drop a lf = xs ++ p1 -> (a + length xs)%nat = endA -> ahead val1 xs ->
  drop b lf = ys ++ p2 -> (b + length ys)%nat = endB -> ahead val2 ys ->
  (startA + i + length xs + length ys <= length l)%nat -> (length xs + length ys <= fuel)%nat ->
  exists (ms xs' ys' : list T) (a' b' : nat) to',
    merge_both null_read lt fuel from to (Z.of_nat startA) (Z.of_nat endA) (Z.of_nat endB) (Z.of_nat i) (Z.of_nat a) (Z.of_nat b) val1 val2 =
      Done (to', Z.of_nat (i + length ms), Z.of_nat a', Z.of_nat b') /\
    holds bst to' (list_inserts (startA + i) ms l) /\ size_ to' = size_ to /\
    list_merge less xs ys = ms ++ xs' ++ ys' /\ (xs' = [] \/ ys' = []) /\
    drop a' lf = xs' ++ p1 /\ (a' + length xs')%nat = endA /\ drop b' lf = ys' ++ p2 /\ (b' + length ys')%nat = endB.
Proof.
  intros Hf Hr Ln LA LB. induction fuel as [|fuel IH]; intros xs ys i a b val1 val2 to l H E1 A1 V1 E2 A2 V2 L F.
  { exists [], xs, ys, a, b, to. destruct xs, ys; cbn [length] in *; try lia. cbn [merge_both]. rewrite (proj2 (Z.ltb_ge _ _)) by lia.
    cbn [andb app]. rewrite Nat.add_0_r. split_and!; done || by left. }
  cbn [merge_both]. destruct xs as [|x xs]; [|destruct ys as [|y ys]].
  - exists [], [], ys, a, b, to. cbn [length] in A1. rewrite (proj2 (Z.ltb_ge _ _)) by lia. cbn [andb app length].
    rewrite list_merge_nil_l, Nat.add_0_r. split_and!; done || by left.
  - exists [], (x :: xs), [], a, b, to. cbn [length] in A2. rewrite (proj2 (Z.ltb_ge _ (Z.of_nat endB))) by lia. rewrite andb_false_r.
    cbn [app length]. rewrite list_merge_nil_r, Nat.add_0_r, app_nil_r. split_and!; done || by right.
  - cbn [length] in *. rewrite !(proj2 (Z.ltb_lt _ _)) by lia. cbn [andb]. rewrite (V1 x eq_refl), (V2 y eq_refl), list_merge_cons.
    pose proof (h_bound _ _ _ H) as Bl. rewrite !(wrapU_id 64 (Z.of_nat _ + Z.of_nat _)) by (unfold inU; lia).
    rewrite (wrapU_id 64 (Z.of_nat i + 1)) by (unfold inU; lia). rewrite <- Nat2Z.inj_add. replace (Z.of_nat i + 1) with (Z.of_nat (S i)) by lia.
    destruct (decide (less x y)) as [c|c]; unfold less in c.
    + rewrite c. destruct (holds_write bst to l (startA + i) x H) as (to1 & -> & Hto1 & S1); [lia|]. cbn [bindo].
      destruct (next_ahead bsf from lf a x xs p1 n Hf Hr E1) as (E1' & Eu & v & Ev & V1'); [lia|lia|]. rewrite Eu, Ev. cbn [bindo].
      destruct (IH xs (y :: ys) (S i) (S a) b v y to1 _ Hto1 E1' ltac:(lia) V1' E2 A2 ltac:(intros ? [=]; done)) as (ms & xs' & ys' & a' & b' & to' & -> & H' & S' & -> & R);
        rewrite ?length_insert; cbn [length]; try lia.
      exists (x :: ms), xs', ys', a', b', to'. rewrite Nat.add_succ_r, list_inserts_cons_r in H'. cbn [length app].
      split_and!; [do 4 f_equal; lia|done|congruence|done|apply R..].
    + destruct (lt x y); [done|]. destruct (holds_write bst to l (startA + i) y H) as (to1 & -> & Hto1 & S1); [lia|]. cbn [bindo].
      destruct (next_ahead bsf from lf b y ys p2 n Hf Hr E2) as (E2' & Eu & v & Ev & V2'); [lia|lia|]. rewrite Eu, Ev. cbn [bindo].
      destruct (IH (x :: xs) ys (S i) a (S b) x v to1 _ Hto1 E1 A1 ltac:(intros ? [=]; done) E2' ltac:(lia) V2') as (ms & xs' & ys' & a' & b' & to' & -> & H' & S' & -> & R);
        rewrite ?length_insert; cbn [length]; try lia.
      exists (y :: ms), xs', ys', a', b', to'. rewrite Nat.add_succ_r, list_inserts_cons_r in H'. cbn [length app].
      split_and!; [do 4 f_equal; lia|done|congruence|done|apply R..].
Qed.

Lemma merge_task_spec bsf bst from lf (n sub t m : nat) (xs ys p : list T) to l :
  holds bsf from lf -> (forall j : nat, (j <= n)%nat -> exists v, read null_read from (Z.of_nat j) = Done v) ->
  (n <= length lf)%nat -> size_ from = Z.of_nat n -> (t < m)%nat -> Z.of_nat m * (2 * Z.of_nat sub) < 2 ^ 63 ->
  drop (t * (2 * sub)) lf = xs ++ ys ++ p -> length xs = sub ->
  (t * (2 * sub) + sub + length ys)%nat = (if decide (t = m - 1)%nat then n else S t * (2 * sub))%nat -> (t * (2 * sub) + sub + length ys <= n)%nat -> (0 < length ys)%nat ->
  holds bst to l -> (n <= length l)%nat ->
  exists to', merge_task null_read lt from (Z.of_nat sub) (2 * Z.of_nat sub) (Z.of_nat m) (Z.of_nat t) to = Done to' /\
    holds bst to' (list_inserts (t * (2 * sub)) (list_merge less xs ys) l) /\ size_ to' = size_ to.
Proof.
  intros Hf Hr Ln Sz Ht B E Lx Ly Le Lp H Ll. unfold merge_task. cbv zeta.
  assert (Z.of_nat t * (2 * Z.of_nat sub) + 2 * Z.of_nat sub < 2 ^ 63) by nia.
  rewrite !(wrapU_id 64 (Z.of_nat t * _)) by (unfold inU; lia). rewrite !wrapU_id by (unfold inU; lia). rewrite Sz.
  set (sA := (t * (2 * sub))%nat). replace (Z.of_nat t * (2 * Z.of_nat sub)) with (Z.of_nat sA) by (unfold sA; lia).
  rewrite <- Nat2Z.inj_add. set (eB := (sA + sub + length ys)%nat).
  replace (if Z.of_nat t =? Z.of_nat m - 1 then Z.of_nat n else Z.of_nat sA + 2 * Z.of_nat sub) with (Z.of_nat eB).
  2: { unfold eB, sA. rewrite Ly. destruct (Z.eqb_spec (Z.of_nat t) (Z.of_nat m - 1)), (decide (t = m - 1)%nat); lia. }
  rewrite (proj2 (Z.leb_gt _ _)) by lia. fold sA in E, Le.
  assert (E2 : drop (sA + sub) lf = ys ++ p) by (rewrite <- drop_drop, E, drop_app_length'; done).
  destruct (Hr sA ltac:(lia)) as [v1 R1], (Hr (sA + sub)%nat ltac:(lia)) as [v2 R2]. rewrite R1, R2. cbn [bindo].
  assert (Hd : (sA + sub + length ys <= length l)%nat) by lia.
  destruct (dist_merge_both_spec bsf bst from lf n sA (sA + sub) eB (ys ++ p) p Hf Hr Ln ltac:(lia) ltac:(lia) (Z.to_nat (Z.of_nat eB - Z.of_nat sA))
    xs ys 0 sA (sA + sub) v1 v2 to l H E ltac:(lia) (ahead_read _ _ _ _ _ _ _ Hf E R1) E2 ltac:(lia) (ahead_read _ _ _ _ _ _ _ Hf E2 R2))
    as (ms & xs' & ys' & a' & b' & to1 & M & H1 & S1 & Em & Ex & D1 & A1 & D2 & A2); [lia|lia|].
  assert (Lm : (length ms + length xs' + length ys' = sub + length ys)%nat).
  { rewrite <- Lx. transitivity (length (list_merge less xs ys)); [by rewrite Em, !length_app, Nat.add_assoc|]. by rewrite merge_Permutation, length_app. }
  change (Z.of_nat 0) with 0 in M. rewrite M. cbn [bindo]. rewrite Nat.add_0_r in H1. rewrite Nat.add_0_l. clear M.
  destruct (dist_merge_rest_spec bsf bst from lf xs' Hf (Z.to_nat (Z.of_nat eB - Z.of_nat sA)) (ys ++ p) sA (length ms) a' (sA + sub)%nat to1 _ H1)
    as (to2 & -> & H2 & S2); [done|lia|rewrite length_inserts; lia|lia|].
  cbn [bindo].
  destruct (dist_merge_rest_spec bsf bst from lf ys' Hf (Z.to_nat (Z.of_nat eB - Z.of_nat sA)) p sA (length ms + length xs') b' eB to2 _ H2)
    as (to3 & -> & H3 & S3); [done|lia|rewrite !length_inserts; lia|lia|].
  cbn [bindo]. exists to3. split; [done|]. split; [|congruence].
  rewrite Em, !list_inserts_app_l.
  replace (length xs' + (length ms + sA))%nat with (sA + (length ms + length xs'))%nat by lia.
  by replace (length ms + sA)%nat with (sA + length ms)%nat by lia.
Qed.
End Merge.

(** ** The tasks of a loop fill separate stretches *)

Lemma tasks_fill {bs : nat} (task : Z -> @DistArray T -> outcome (@DistArray T)) (m : nat) (lo hi : nat -> nat) (o g : list T) sz :
  length g = length o ->
  (forall t d l, (t < m)%nat -> holds bs d l -> size_ d = sz -> length l = length o ->
     (forall i, (lo t <= i < hi t)%nat -> l !! i = o !! i) ->
     exists d' l', task (Z.of_nat t) d = Done d' /\ holds bs d' l' /\ size_ d' = sz /\ length l' = length o /\
       (forall i, (lo t <= i < hi t)%nat -> l' !! i = g !! i) /\ (forall i, ~ (lo t <= i < hi t)%nat -> l' !! i = l !! i)) ->
  (forall t t' i, (lo t <= i < hi t)%nat -> (lo t' <= i < hi t')%nat -> t = t') ->
  (forall i, (forall t, (t < m)%nat -> ~ (lo t <= i < hi t)%nat) -> g !! i = o !! i) ->
  forall d order, order ≡ₚ seqZ 0 (Z.of_nat m) -> holds bs d o -> size_ d = sz ->
  exists d', tasks task order d = Done d' /\ holds bs d' g /\ size_ d' = sz.
Proof.
  intros Lg Htask Disj Hout.
  assert (K : forall order, NoDup order -> Forall (fun t => (t < m)%nat) order -> forall d l, holds bs d l -> size_ d = sz -> length l = length o ->
    (forall t i, t ∈ order -> (lo t <= i < hi t)%nat -> l !! i = o !! i) ->
    exists d' l', tasks task (map Z.of_nat order) d = Done d' /\ holds bs d' l' /\ size_ d' = sz /\
      (forall t i, t ∈ order -> (lo t <= i < hi t)%nat -> l' !! i = g !! i) /\
      (forall i, (forall t, t ∈ order -> ~ (lo t <= i < hi t)%nat) -> l' !! i = l !! i)).
  { induction order as [|t order IH]; intros Nd Fo d l H Hs Hl Ho; cbn [tasks map].
    { exists d, l. split_and!; try done. intros t i Hin. by apply not_elem_of_nil in Hin. }
    apply NoDup_cons in Nd as [Nt Nd]. apply Forall_cons in Fo as [Ft Fo].
    destruct (Htask t d l Ft H Hs Hl) as (d1 & l1 & -> & H1 & S1 & L1 & G1 & O1); [intros i; apply Ho; by left|]. cbn [bindo].
    destruct (IH Nd Fo d1 l1 H1 S1 L1) as (d' & l' & -> & H' & S' & G' & O').
    { intros t' i Hin Hi. rewrite O1; [apply (Ho t'); [by right|done]|]. intros Hi'. apply Nt. by rewrite (Disj t t' i Hi' Hi). }
    exists d', l'. split_and!; try done.
    - intros t' i Hin Hi. apply elem_of_cons in Hin as [->|Hin]; [|by apply (G' t')].
      rewrite O'; [by apply G1|]. intros t' Hin Hi'. apply Nt. by rewrite (Disj t t' i Hi Hi').
    - intros i Hi. rewrite O' by (intros t' Hin; apply Hi; by right). apply O1, Hi. by left. }
  intros d order Po H Hs.
  assert (exists on, order = map Z.of_nat on /\ on ≡ₚ seq 0 m) as (on & -> & Pn).
  { exists (map Z.to_nat order). assert (R : Forall (fun t => 0 <= t) order).
    { rewrite Po. apply Forall_forall. intros t Hin. apply elem_of_seqZ in Hin. lia. }
    split; [|etransitivity; [by apply Permutation_map|]].
    - clear -R. induction R as [|t order Ht _ IH]; [done|]. cbn [map]. rewrite Z2Nat.id, <- IH by done. done.
    - unfold seqZ. rewrite Nat2Z.id. clear. induction (seq 0 m) as [|t s IH]; [done|]. cbn [fmap list_fmap map] in *.
      rewrite Z.add_0_r, Nat2Z.id. by constructor. }
  assert (Nd : NoDup on) by (rewrite Pn; apply NoDup_seq).
  assert (Fo : Forall (fun t => (t < m)%nat) on) by (rewrite Pn; apply Forall_forall; intros t Hin; apply elem_of_seq in Hin; lia).
  destruct (K on Nd Fo d o H Hs eq_refl) as (d' & l' & -> & H' & S' & G & O); [done|].
  exists d'. split_and!; try done. replace g with l'; [done|]. apply list_eq. intros i.
  destruct (decide (Exists (fun t => (lo t <= i < hi t)%nat) on)) as [Hex|Hex].
  - apply Exists_exists in Hex as (t & Hin & Hi). by apply (G t).
  - rewrite O, Hout; [done| |].
    + intros t Ht Hi. apply Hex, Exists_exists. exists t. split; [|done]. rewrite Pn. apply elem_of_seq. lia.
    + intros t Hin Hi. apply Hex, Exists_exists. by exists t.
Qed.

(** ** What a loop does to the elements: it rearranges each stretch of [w] *)

Section Chunks.
Context (f : list T -> list T) (f_perm : forall s, f s ≡ₚ s).

Fixpoint chunks (k w : nat) (l : list T) : list T :=
  match k with O => l | S k => f (take w l) ++ chunks k w (drop w l) end.

Lemma chunks_perm k w l : chunks k w l ≡ₚ l.
Proof. revert l. induction k as [|k IH]; intros l; cbn [chunks]; [done|]. by rewrite f_perm, IH, take_drop. Qed.

Lemma chunks_seg k w l t : (t < k)%nat -> take w (drop (t * w) (chunks k w l)) = f (take w (drop (t * w) l)).
Proof.
  revert l t. induction k as [|k IH]; intros l t Ht; [lia|]. cbn [chunks].
  assert (Lf : length (f (take w l)) = (w `min` length l)%nat) by (by rewrite f_perm, length_take).
  assert (Nil : (length l < w)%nat -> chunks k w (drop w l) = []).
  { intros L. apply Permutation_nil_r. rewrite chunks_perm, drop_ge by lia. done. }
  destruct t as [|t].
  - rewrite Nat.mul_0_l, !drop_0. destruct (decide (w <= length l)%nat); [rewrite take_app_length'; [done|lia]|].
    rewrite Nil, app_nil_r by lia. apply take_ge. lia.
  - cbn [Nat.mul]. rewrite <- !drop_drop. destruct (decide (w <= length l)%nat).
    + rewrite drop_app_length' by lia. apply IH. lia.
    + rewrite Nil, app_nil_r, !drop_ge, take_nil by (rewrite ?length_drop; lia). symmetry. apply Permutation_nil_r. by rewrite f_perm.
Qed.

Lemma stretch_lookup k w n (src rest : list T) t i : (t < k)%nat -> (n <= length src)%nat -> (t * w <= i < (t * w + w) `min` n)%nat ->
  (chunks k w (take n src) ++ rest) !! i = f (take w (drop (t * w) (take n src))) !! (i - t * w)%nat.
Proof.
  intros Ht Ln Hi. rewrite lookup_app_l by (rewrite chunks_perm, length_take; lia).
  rewrite <- chunks_seg with (k := k) by done. rewrite lookup_take_lt by lia. rewrite lookup_drop. f_equal. lia.
Qed.

Lemma stretch_length w n (src : list T) t : (n <= length src)%nat ->
  length (f (take w (drop (t * w) (take n src)))) = (w `min` (n - t * w))%nat.
Proof. intros Ln. rewrite f_perm, length_take, length_drop, length_take. lia. Qed.

(** Tasks that write each its stretch have filled the array. *)
Lemma stretches_fill {bs : nat} (task : Z -> @DistArray T -> outcome (@DistArray T)) (m w n : nat) (src o : list T) sz (own : bool) :
  (n <= length src)%nat -> (n <= length o)%nat -> (own = true -> src = o) -> (n <= m * w)%nat ->
  (forall t d l, (t < m)%nat -> holds bs d l -> size_ d = sz -> length l = length o ->
     (own = true -> take w (drop (t * w) (take n l)) = take w (drop (t * w) (take n src))) ->
     exists d', task (Z.of_nat t) d = Done d' /\ holds bs d' (list_inserts (t * w) (f (take w (drop (t * w) (take n src)))) l) /\ size_ d' = sz) ->
  forall d order, order ≡ₚ seqZ 0 (Z.of_nat m) -> holds bs d o -> size_ d = sz ->
  exists d', tasks task order d = Done d' /\ holds bs d' (chunks m w (take n src) ++ drop n o) /\ size_ d' = sz.
Proof.
  intros Ls Lo Own Lm Htask. apply tasks_fill with (lo := fun t => (t * w)%nat) (hi := fun t => ((t * w + w) `min` n)%nat).
  - rewrite length_app, chunks_perm, length_take, length_drop. lia.
  - intros t d l Ht H Hs Hl Ho. destruct (Htask t d l Ht H Hs Hl) as (d' & E & H' & S').
    { intros Eo. rewrite (Own Eo) in *. apply list_eq. intros i. destruct (decide (i < w)%nat); [|rewrite !lookup_take_ge by lia; done].
      rewrite !lookup_take_lt, !lookup_drop by lia. destruct (decide (t * w + i < n)%nat); [|rewrite !lookup_take_ge by lia; done].
      rewrite !lookup_take_lt by lia. apply Ho. lia. }
    eexists d', _. split; [exact E|]. split; [exact H'|]. split; [done|]. pose proof (stretch_length w n src t Ls) as Lf.
    split; [by rewrite length_inserts|]. split; intros i Hi.
    + rewrite (stretch_lookup m w n src (drop n o) t) by done. rewrite list_lookup_inserts by lia. done.
    + destruct (decide (i < t * w)%nat); [by apply list_lookup_inserts_lt|]. apply list_lookup_inserts_ge. lia.
  - intros t t' i H1 H2. nia.
  - intros i Hi. destruct (decide (i < n)%nat).
    + exfalso. assert (0 < w)%nat by nia. apply (Hi (i / w)%nat).
      * apply Nat.Div0.div_lt_upper_bound. lia.
      * pose proof (Nat.div_mod_eq i w). pose proof (Nat.mod_upper_bound i w ltac:(lia)). lia.
    + rewrite lookup_app_r by (rewrite chunks_perm, length_take; lia). rewrite chunks_perm, length_take, lookup_drop. f_equal. lia.
Qed.
End Chunks.

(** ** Sorted stretches *)

Section Order.
Context (lt : T -> T -> bool) (std_sort : list T -> list T).
(** [x] may stand before [y]. *)
Definition le (x y : T) : Prop := lt y x = false.
Context (asym : forall x y, lt x y = true -> lt y x = false) (trans : forall x y z, le x y -> le y z -> le x z).
Context (sort_perm : forall l, std_sort l ≡ₚ l) (sort_sorted : forall l, StronglySorted le (std_sort l)).
#[local] Existing Instance less_dec.

Definition runs (w : nat) (l : list T) : Prop := forall t, StronglySorted le (take w (drop (t * w) l)).
Definition merge_halves (sub : nat) (s : list T) : list T := list_merge (less lt) (take sub s) (drop sub s).

Lemma merge_halves_perm sub s : merge_halves sub s ≡ₚ s.
Proof. unfold merge_halves. by rewrite merge_Permutation, take_drop. Qed.

Lemma merge_le xs ys : StronglySorted le xs -> StronglySorted le ys -> StronglySorted le (list_merge (less lt) xs ys).
Proof.
  revert ys. induction xs as [|x xs IH1]; intros ys H1 H2; [by rewrite list_merge_nil_l|].
  induction ys as [|y ys IH2]; [by rewrite list_merge_nil_r|]. rewrite list_merge_cons.
  apply StronglySorted_inv in H1 as K1. destruct K1 as [H1' F1]. apply StronglySorted_inv in H2 as K2. destruct K2 as [H2' F2].
  destruct (decide (less lt x y)) as [c|c]; unfold less in c; constructor; auto; rewrite merge_Permutation.
  - apply Forall_app. split; [done|]. constructor; [by apply asym|]. eapply Forall_impl; [exact F2|]. intros z Hz.
    apply (trans x y z); [by apply asym|done].
  - apply not_true_is_false in c. apply Forall_app. split; [|done]. constructor; [done|]. eapply Forall_impl; [exact F1|]. intros z Hz.
    by apply (trans y x z).
Qed.

Lemma chunks_runs f (f_perm : forall s, f s ≡ₚ s) k w l : (length l <= k * w)%nat ->
  (forall t, (t < k)%nat -> StronglySorted le (f (take w (drop (t * w) l)))) -> runs w (chunks f k w l).
Proof.
  intros L S t. destruct (decide (t < k)%nat).
  - rewrite (chunks_seg f f_perm k w l t) by done. by apply S.
  - rewrite drop_ge, take_nil by (rewrite (chunks_perm f f_perm k w l); nia). constructor.
Qed.

Lemma runs_double k sub l : runs sub l -> (length l <= k * (2 * sub))%nat -> runs (2 * sub) (chunks (merge_halves sub) k (2 * sub) l).
Proof.
  intros R L. apply chunks_runs; [apply merge_halves_perm|done|]. intros t _. unfold merge_halves. apply merge_le.
  - rewrite take_take, Nat.min_l by lia. replace (t * (2 * sub))%nat with ((2 * t) * sub)%nat by lia. apply R.
  - replace (take (2 * sub)) with (@take T (sub + sub)) by (f_equal; lia). rewrite <- take_drop_commute, drop_drop.
    replace (t * (2 * sub) + sub)%nat with ((2 * t + 1) * sub)%nat by lia. apply R.
Qed.

(** ** The merge levels *)

(** Reading ahead, up to the element after the last of [n], has an outcome. *)
Definition readable (n : nat) (l : list T) : Prop := (n < length l)%nat \/ exists v, null_read = Done v.
Lemma readable_spec bs d l n : holds bs d l -> (n <= length l)%nat -> readable n l ->
  forall j : nat, (j <= n)%nat -> exists v, read null_read d (Z.of_nat j) = Done v.
Proof.
  intros H L R j Hj. destruct (decide (j < length l)%nat) as [Lj|Lj].
  - destruct (lookup_lt_is_Some_2 l j Lj) as [x Ex]. exists x. by apply (holds_read null_read bs d l).
  - destruct R as [R|[v R]]; [lia|]. exists v. rewrite (holds_read_null null_read bs d l) by (done || lia). done.
Qed.

Lemma level_spec {bsf bst : nat} from lf to lo (n sub m : nat) order :
  holds bsf from lf -> (n <= length lf)%nat -> size_ from = Z.of_nat n -> readable n lf ->
  holds bst to lo -> (n <= length lo)%nat ->
  Z.of_nat m * (2 * Z.of_nat sub) < 2 ^ 63 -> (n <= m * (2 * sub))%nat -> (m * (2 * sub) < n + sub)%nat -> order ≡ₚ seqZ 0 (Z.of_nat m) ->
  exists to', tasks (merge_task null_read lt from (Z.of_nat sub) (2 * Z.of_nat sub) (Z.of_nat m)) order to = Done to' /\
    holds bst to' (chunks (merge_halves sub) m (2 * sub) (take n lf) ++ drop n lo) /\ size_ to' = size_ to.
Proof.
  intros Hf Lf Sz Rd H Ll B Hn Hm Po.
  apply (stretches_fill (merge_halves sub) (merge_halves_perm sub) _ m (2 * sub) n lf lo (size_ to) false); try done.
  intros t d l Ht Hd Sd Ld _. set (seg := take (2 * sub) (drop (t * (2 * sub)) (take n lf))).
  assert (Lseg : length seg = ((2 * sub) `min` (n - t * (2 * sub)))%nat) by (unfold seg; rewrite length_take, length_drop, length_take; lia).
  assert (Eseg : drop (t * (2 * sub)) lf = seg ++ drop (length seg) (drop (t * (2 * sub)) lf)).
  { rewrite <- (take_drop (length seg) (drop (t * (2 * sub)) lf)) at 1. f_equal. unfold seg at 2.
    rewrite <- (Nat.sub_add (t * (2 * sub)) n) at 1 by nia. rewrite Nat.add_comm, <- take_drop_commute, take_take. f_equal. lia. }
  assert (T1 : (t * (2 * sub) + sub < n)%nat) by nia.
  assert (T2 : (t = m - 1 \/ S t * (2 * sub) <= (m - 1) * (2 * sub))%nat) by nia.
  destruct (merge_task_spec lt bsf bst from lf n sub t m (take sub seg) (drop sub seg) (drop (length seg) (drop (t * (2 * sub)) lf)) d l)
    as (to' & E & H' & S'); try done.
  - by apply (readable_spec bsf from lf).
  - by rewrite app_assoc, take_drop.
  - rewrite length_take. lia.
  - rewrite length_drop, Lseg. destruct (decide (t = m - 1)%nat); nia.
  - rewrite length_drop. lia.
  - rewrite length_drop. lia.
  - lia.
  - exists to'. split_and!; [done|done|congruence].
Qed.

Context (order : Z -> list Z) (order_all : forall m, order m ≡ₚ seqZ 0 m).

Lemma levels_spec k : forall {bs1 bs2 : nat} (fuel : nat) this tmp l1 l2 (n sub : nat), (k <= fuel)%nat ->
  holds bs1 this l1 -> holds bs2 tmp l2 -> (n <= length l1)%nat -> (n <= length l2)%nat -> size_ this = Z.of_nat n ->
  readable n l1 -> readable n l2 -> (n <= 2 ^ k * sub)%nat -> (2 ^ k * sub < n + sub)%nat -> Z.of_nat (2 ^ k * sub) < 2 ^ 63 ->
  runs sub (take n l1) ->
  exists d' l' bs', levels null_read lt order fuel this tmp (Z.of_nat sub) (2 ^ Z.of_nat k / 2) = Done d' /\ holds bs' d' l' /\
    size_ d' = Z.of_nat n /\ (n <= length l')%nat /\ take n l' ≡ₚ take n l1 /\ StronglySorted le (take n l').
Proof.
  induction k as [|k IH]; intros bs1 bs2 fuel this tmp l1 l2 n sub F H1 H2 L1 L2 Sz R1 R2 Ln Lm B Rn.
  { change (2 ^ 0)%nat with 1%nat in *. exists this, l1, bs1. assert (E : levels null_read lt order fuel this tmp (Z.of_nat sub) (2 ^ Z.of_nat 0 / 2) = Done this).
    { destruct fuel; cbn [levels]; rewrite Sz, (proj2 (Z.ltb_ge _ _)) by lia; done. }
    split_and!; try done. specialize (Rn 0%nat). rewrite Nat.mul_0_l, drop_0, take_ge in Rn by (rewrite length_take; lia). done. }
  rewrite Nat.pow_succ_r' in *. destruct fuel as [|fuel]; [lia|]. cbn [levels]. rewrite Sz.
  assert (0 < 2 ^ k)%nat by (pose proof (Nat.pow_nonzero 2 k ltac:(lia)); lia).
  assert (Em : 2 ^ Z.of_nat (S k) / 2 = Z.of_nat (2 ^ k)).
  { rewrite Nat2Z.inj_succ, Z.pow_succ_r, Z.mul_comm, Z.div_mul, Nat2Z.inj_pow by lia. done. }
  rewrite Em. destruct (Z.ltb_spec (Z.of_nat sub) (Z.of_nat n)); [|exfalso; nia].
  rewrite !wrapU_id by (unfold inU; nia). rewrite (Z.mul_comm (Z.of_nat sub)).
  destruct (@level_spec bs1 bs2 this l1 tmp l2 n sub (2 ^ k) (order (Z.of_nat (2 ^ k))) H1) as (to & -> & Ht & St); try done; try lia.
  cbn [bindo]. set (l' := chunks (merge_halves sub) (2 ^ k) (2 * sub) (take n l1)) in *.
  assert (Pl : l' ≡ₚ take n l1) by (apply chunks_perm, merge_halves_perm).
  assert (Ll : length l' = n) by (rewrite Pl, length_take; lia).
  assert (Tl : take n (l' ++ drop n l2) = l') by (by apply take_app_length').
  replace (2 * Z.of_nat sub) with (Z.of_nat (2 * sub)) by lia. rewrite Nat2Z.inj_pow. change (Z.of_nat 2) with 2.
  destruct (IH bs2 bs1 fuel (mkDA (m_data to) (Z.of_nat n)) (mkDA (m_data this) (size_ tmp)) (l' ++ drop n l2) l1 n (2 * sub)%nat)
    as (d' & lr & bs' & E & Hd & Sd & Lr & P & S); try done; try lia.
  - destruct Ht; constructor; done.
  - destruct H1; constructor; done.
  - rewrite length_app. lia.
  - destruct R2 as [R2|R2]; [left; rewrite length_app, length_drop; lia|by right].
  - rewrite Tl. apply runs_double; [done|]. rewrite length_take. lia.
  - exists d', lr, bs'. rewrite Tl in P. split_and!; try done. by rewrite P.
Qed.

(** ** The parts *)

Lemma sort_range_spec bs d l (start end_ : nat) : holds bs d l -> (start <= end_ <= length l)%nat ->
  exists d', sort_range null_read std_sort d (Z.of_nat start) (Z.of_nat end_) = Done d' /\
    holds bs d' (list_inserts start (std_sort (take (end_ - start) (drop start l))) l) /\ size_ d' = size_ d.
Proof.
  intros H L. unfold sort_range. rewrite <- Nat2Z.inj_sub, Nat2Z.id by lia. set (s := take (end_ - start) (drop start l)).
  assert (Ls : length s = (end_ - start)%nat) by (unfold s; rewrite length_take, length_drop; lia). rewrite <- Ls.
  rewrite (read_range_spec bs s d l start (drop (end_ - start) (drop start l))) by (done || unfold s; by rewrite take_drop). cbn [bindo].
  apply write_range_spec; [done|]. rewrite sort_perm. lia.
Qed.

(** The elements of a part, rounded up. *)
Definition part (cap total : Z) (n : Z) : Z := if cap / total * total <? n then cap / total + 1 else cap / total.
Lemma part_bounds cap total n : 0 < total -> 0 <= n <= cap -> n <= part cap total n * total <= cap + total /\ 0 <= cap / total.
Proof.
  intros Ht Hn. unfold part. pose proof (Z.div_mod cap total ltac:(lia)). pose proof (Z.mod_pos_bound cap total Ht).
  pose proof (Z.div_pos cap total ltac:(lia) Ht). destruct (Z.ltb_spec (cap / total * total) n); nia.
Qed.

Lemma parts_spec bs d l (n T_ sub : nat) ord : holds bs d l -> size_ d = Z.of_nat n -> (n <= length l)%nat -> (0 < T_)%nat ->
  Z.of_nat (length l) + Z.of_nat T_ < 2 ^ 62 -> Z.of_nat sub = part (Z.of_nat (length l)) (Z.of_nat T_) (Z.of_nat n) -> (0 < n)%nat ->
  ord ≡ₚ seqZ 0 (Z.of_nat T_) ->
  exists d', tasks (part_task null_read std_sort (Z.of_nat T_)) ord d = Done d' /\
    holds bs d' (chunks std_sort T_ sub (take n l) ++ drop n l) /\ size_ d' = Z.of_nat n.
Proof.
  intros H Sz Ln HT B Hsub Hn Po.
  destruct (part_bounds (Z.of_nat (length l)) (Z.of_nat T_) (Z.of_nat n)) as [P1 P2]; [lia|lia|]. rewrite <- Hsub in P1.
  apply (stretches_fill std_sort sort_perm _ T_ sub n l l (Z.of_nat n) true); try done; [lia|].
  intros t d1 l1 Ht H1 S1 L1 Own. rewrite <- Own by done. destruct (holds_shape _ _ _ H1) as (Bs & _ & _ & Ls).
  unfold part_task, capacity. rewrite S1, (proj2 (Z.eqb_neq (Z.of_nat n) 0)) by lia. rewrite Bs, <- Nat2Z.inj_mul, <- Ls, L1. cbv zeta.
  rewrite (wrapU_id 64 (Z.of_nat (length l))) by (unfold inU; lia). pose proof (Z.div_mod (Z.of_nat (length l)) (Z.of_nat T_) ltac:(lia)).
  pose proof (Z.mod_pos_bound (Z.of_nat (length l)) (Z.of_nat T_) ltac:(lia)).
  rewrite (wrapU_id 64 (Z.of_nat (length l) / _ * _)) by (unfold inU; nia).
  rewrite (wrapU_id 64 (Z.of_nat (length l) / _ + 1)) by (unfold inU; nia). fold (part (Z.of_nat (length l)) (Z.of_nat T_) (Z.of_nat n)).
  rewrite <- Hsub. rewrite (wrapU_id 64 (Z.of_nat t * _)) by (unfold inU; nia). rewrite wrapU_id by (unfold inU; nia).
  set (e := ((t * sub + sub) `min` n)%nat).
  replace (if (Z.of_nat t =? Z.of_nat T_ - 1) || (Z.of_nat n <? Z.of_nat t * Z.of_nat sub + Z.of_nat sub) then Z.of_nat n
    else Z.of_nat t * Z.of_nat sub + Z.of_nat sub) with (Z.of_nat e).
  2: { unfold e. destruct (Z.ltb_spec (Z.of_nat n) (Z.of_nat t * Z.of_nat sub + Z.of_nat sub)); [rewrite orb_true_r; lia|]. rewrite orb_false_r.
    destruct (Z.eqb_spec (Z.of_nat t) (Z.of_nat T_ - 1)); [nia|lia]. }
  rewrite <- Nat2Z.inj_mul. assert (Et : take sub (drop (t * sub) (take n l1)) = take (e - t * sub) (drop (t * sub) l1)).
  { destruct (decide (t * sub <= n)%nat).
    - rewrite <- (Nat.sub_add (t * sub) n) at 1 by lia. rewrite Nat.add_comm, <- take_drop_commute, take_take. f_equal. lia.
    - rewrite drop_ge by (rewrite length_take; lia). unfold e. replace (_ - _)%nat with 0%nat by lia. by rewrite take_nil. }
  rewrite Et. destruct (Z.leb_spec (Z.of_nat e) (Z.of_nat (t * sub))).
  - exists d1. replace (e - t * sub)%nat with 0%nat by lia. rewrite take_0.
    assert (std_sort [] = []) as -> by apply Permutation_nil_r, sort_perm.
    split_and!; done.
  - destruct (sort_range_spec bs d1 l1 (t * sub) e H1) as (d' & E & H' & S'); [lia|]. exists d'. split_and!; [done|done|congruence].
Qed.
(** The parts and then the levels, with [2^k] tasks for the parts. *)
Lemma parallel_spec {bs bt : nat} d l tmp lo (n sub k : nat) : (forall s, StronglySorted le (std_sort s)) -> (k <= 64)%nat ->
  holds bs d l -> holds bt tmp lo -> size_ d = Z.of_nat n -> (0 < n <= length l)%nat -> (n <= length lo)%nat ->
  Z.of_nat (length l) + 2 ^ Z.of_nat k < 2 ^ 62 -> Z.of_nat sub = part (Z.of_nat (length l)) (2 ^ Z.of_nat k) (Z.of_nat n) ->
  (2 ^ Z.of_nat k - 1) * Z.of_nat sub < Z.of_nat n -> readable n l -> readable n lo ->
  exists d1 d' l' bs', tasks (part_task null_read std_sort (2 ^ Z.of_nat k)) (order (2 ^ Z.of_nat k)) d = Done d1 /\
    levels null_read lt order 64 d1 tmp (Z.of_nat sub) (2 ^ Z.of_nat k / 2) = Done d' /\ holds bs' d' l' /\
    size_ d' = Z.of_nat n /\ (n <= length l')%nat /\ take n l' ≡ₚ take n l /\ StronglySorted le (take n l').
Proof.
  intros Ss Hk H Ht Sz Hn Lo Bl Es Hw R1 R2. pose proof (pow2_pos (Z.of_nat k) ltac:(lia)) as Pk.
  assert (Ek : Z.of_nat (2 ^ k) = 2 ^ Z.of_nat k) by (by rewrite Nat2Z.inj_pow).
  pose proof (part_bounds (Z.of_nat (length l)) (2 ^ Z.of_nat k) (Z.of_nat n) ltac:(lia) ltac:(lia)) as [P1 _]. rewrite <- Es in P1.
  destruct (parts_spec bs d l n (2 ^ k) sub (order (2 ^ Z.of_nat k)) H) as (d1 & Ep & H1 & S1); rewrite ?Ek; try done; try lia.
  rewrite Ek in Ep. set (l1 := chunks std_sort (2 ^ k) sub (take n l)) in *.
  assert (Pl : l1 ≡ₚ take n l) by (apply chunks_perm, sort_perm). assert (Ll : length l1 = n) by (rewrite Pl, length_take; lia).
  assert (Tl : take n (l1 ++ drop n l) = l1) by (by apply take_app_length').
  destruct (levels_spec k (bs1 := bs) (bs2 := bt) 64 d1 tmp (l1 ++ drop n l) lo n sub)
    as (d' & l' & bs' & E & H' & S' & L' & P' & Sd'); try done; try lia.
  - rewrite length_app. lia.
  - destruct R1 as [R1|R1]; [left; rewrite length_app, length_drop; lia|by right].
  - rewrite Tl. apply chunks_runs; [done|rewrite length_take; nia|]. intros t _. apply Ss.
  - exists d1, d', l', bs'. rewrite Tl in P'. split_and!; try done. by rewrite P'.
Qed.
End Order.
End Stretches.

Lemma threads_pow2 (actual : Z) (k : nat) : 2 ^ Z.of_nat k <= actual < 2 ^ Z.of_nat (S k) -> actual < 2 ^ 63 ->
  exists up, up2 actual = Done up /\ (if actual <? up then up / 2 else up) = Z.of_nat (2 ^ k).
Proof.
  intros Ha B. pose proof (pow2_pos (Z.of_nat k) ltac:(lia)). pose proof (up2_correct actual ltac:(unfold inU; lia)) as U.
  destruct (up2 actual) as [up|e]; [|lia]. destruct U as (_ & (j & -> & Hj) & [U1 U2] & U3). exists (2 ^ j). split; [done|].
  rewrite (proj2 (Z.ltb_lt _ _)) by lia. pose proof (U3 (Z.of_nat (S k)) ltac:(lia) ltac:(lia)) as U4.
  assert (j <= Z.of_nat (S k)) by (apply (Z.pow_le_mono_r_iff 2); lia).
  assert (Z.of_nat k < j) by (apply (Z.pow_lt_mono_r_iff 2); lia). replace j with (Z.succ (Z.of_nat k)) by lia.
  rewrite Z.pow_succ_r, Z.mul_comm, Z.div_mul, Nat2Z.inj_pow by lia. done.
Qed.

(** [sort] where reading the element after the last has an outcome. *)
Lemma sort_readable {T} fresh fresh_blocks (null_read : outcome T) lt std_sort order (d : @DistArray T) (bs : nat) l (n nodes k : nat) actual :
  (forall x y, lt x y = true -> lt y x = false) -> (forall x y z, le lt x y -> le lt y z -> le lt x z) ->
  (forall s, std_sort s ≡ₚ s) -> (forall s, StronglySorted (le lt) (std_sort s)) -> (forall m, order m ≡ₚ seqZ 0 m) ->
  memory_available fresh fresh_blocks ->
  holds bs d l -> size_ d = Z.of_nat n -> (0 < n <= length l)%nat -> Z.of_nat (length l) < 2 ^ 60 -> (0 < nodes)%nat -> Z.of_nat nodes < 2 ^ 60 ->
  2 ^ Z.of_nat k <= actual < 2 ^ Z.of_nat (S k) -> actual < 2 ^ 60 ->
  (Z.of_nat (length l) < 2 ^ Z.of_nat k \/ (2 ^ Z.of_nat k - 1) * part (Z.of_nat (length l)) (2 ^ Z.of_nat k) (Z.of_nat n) < Z.of_nat n) ->
  (exists v, null_read = Done v) \/ ((n < length l)%nat /\ Z.of_nat n mod Z.of_nat nodes <> 0 \/ Z.of_nat (length l) < 2 ^ Z.of_nat k) ->
  exists d' l' bs', sort fresh fresh_blocks null_read lt std_sort order d nodes Success actual = Done (Success, d') /\ holds bs' d' l' /\
    size_ d' = Z.of_nat n /\ (n <= length l')%nat /\ take n l' ≡ₚ take n l /\ StronglySorted (le lt) (take n l').
Proof.
  intros Asym Trans Sp Ss Ho Hm H Sz Hn Bl Hnodes Bn Ha Ba Hw Hr. destruct (holds_shape _ _ _ H) as (Bs & _ & _ & Ls).
  unfold sort. destruct (threads_pow2 actual k Ha ltac:(lia)) as (up & -> & Et). cbn [bindo]. rewrite Et. clear up Et.
  pose proof (pow2_pos (Z.of_nat k) ltac:(lia)) as Pk. assert (Ek : Z.of_nat (2 ^ k) = 2 ^ Z.of_nat k) by (by rewrite Nat2Z.inj_pow).
  assert (Ec : capacity d = Z.of_nat (length l)).
  { unfold capacity. rewrite Sz, (proj2 (Z.eqb_neq (Z.of_nat n) 0)) by lia. rewrite Bs, <- Nat2Z.inj_mul, <- Ls.
    apply wrapU_id. unfold inU. lia. }
  rewrite Ec, Ek. pose proof (Z.div_mod (Z.of_nat (length l)) (2 ^ Z.of_nat k) ltac:(lia)).
  pose proof (Z.mod_pos_bound (Z.of_nat (length l)) (2 ^ Z.of_nat k) ltac:(lia)).
  destruct (Z.leb_spec (Z.of_nat (length l) / 2 ^ Z.of_nat k) 0) as [L|L].
  - rewrite Sz. destruct (sort_range_spec null_read std_sort Sp bs d l 0 n H) as (d' & E & H' & S'); [lia|].
    change (Z.of_nat 0) with 0 in E. rewrite E. cbn [bindo]. rewrite Nat.sub_0_r, drop_0 in H'.
    eexists d', _, bs. split; [done|]. split; [exact H'|].
    assert (Et : take n (list_inserts 0 (std_sort (take n l)) l) = std_sort (take n l)).
    { assert (Lss : length (std_sort (take n l)) = n) by (rewrite (Permutation_length (Sp _)), length_take; lia).
      pose proof (take_drop_inserts 0 (std_sort (take n l)) l ltac:(lia)) as I. by rewrite Lss, drop_0 in I. }
    rewrite Et, length_inserts. split_and!; [congruence|lia|apply Sp|apply Ss].
  - destruct Hw as [Hw|Hw]; [rewrite Z.div_small in L; lia|]. rewrite (wrapU_id 64 (_ / _ * _)) by (unfold inU; nia).
    rewrite (wrapU_id 64 (_ + 1)) by (unfold inU; nia). rewrite Sz. fold (part (Z.of_nat (length l)) (2 ^ Z.of_nat k) (Z.of_nat n)).
    destruct (part_bounds (Z.of_nat (length l)) (2 ^ Z.of_nat k) (Z.of_nat n)) as [P1 P2]; [lia|lia|].
    set (sub := Z.to_nat (part (Z.of_nat (length l)) (2 ^ Z.of_nat k) (Z.of_nat n))).
    assert (Es : Z.of_nat sub = part (Z.of_nat (length l)) (2 ^ Z.of_nat k) (Z.of_nat n)) by (unfold sub; rewrite Z2Nat.id; [done|unfold part; destruct (_ <? _); lia]).
    rewrite <- Es in *. pose proof (bucket_bounds (Z.of_nat n) (Z.of_nat nodes) ltac:(lia) ltac:(lia)) as (_ & B2 & _).
    destruct (initialize_hosts_success fresh fresh_blocks nodes (Z.of_nat n)) as (tmp & lt0 & bt & -> & St & Ht & Lt); try done; try lia. cbn [bindo].
    assert (Hk : Z.of_nat k < 60) by (apply (Z.pow_lt_mono_r_iff 2); lia).
    destruct (parallel_spec null_read lt std_sort Asym Trans Sp order Ho d l tmp lt0 n sub k Ss (bs := bs) (bt := bt))
      as (d1 & d' & l' & bs' & -> & E & R); try done; try lia.
    + destruct Hr as [Hr|[[Hr _]|Hr]]; [by right|by left|rewrite Z.div_small in L; lia].
    + destruct Hr as [Hr|[[_ Hr]|Hr]]; [by right|left|rewrite Z.div_small in L; lia]. apply Nat2Z.inj_lt. rewrite Lt.
      destruct (decide (Z.of_nat n = Z.of_nat nodes * bucket (Z.of_nat n) (Z.of_nat nodes))) as [Eq|]; [|lia].
      exfalso. apply Hr. rewrite Eq, Z.mul_comm. apply Z.mod_mul. lia.
    + cbn [bindo]. rewrite E. cbn [bindo]. by exists d', l', bs'.
Qed.

(** ** Reading through the null pointer *)

Section Undefined.
(** Two runs of the same code that differ only in what a read through the null pointer gives: [v], or the failure [e]. *)
Context {T : Type} (lt : T -> T -> bool) (std_sort : list T -> list T) (order : Z -> list Z).
Context (fresh : PlaceType -> Z -> list T + Status) (fresh_blocks : Z -> list (list T) + Status) (e : failure) (v : T).
Abbreviation N := (Failed e).
Abbreviation V := (Done v).

Definition agree {A} (x y : outcome A) : Prop := x = y \/ x = Failed e.

Lemma agree_refl {A} (x : outcome A) : agree x x.
Proof. by left. Qed.
Lemma agree_bind {A B} (x y : outcome A) (f g : A -> outcome B) : agree x y -> (forall a, agree (f a) (g a)) -> agree (bindo x f) (bindo y g).
Proof. intros [->| ->] H; [|by right]. destruct y; [apply H|by left]. Qed.
Lemma agree_read (d : @DistArray T) i : agree (read N d i) (read V d i).
Proof. unfold read. destruct (get d i) as [[b k]|]; [by left|by right]. Qed.
Lemma agree_tasks {S} (f g : Z -> S -> outcome S) l : (forall t s, agree (f t s) (g t s)) -> forall s, agree (tasks f l s) (tasks g l s).
Proof. intros H. induction l as [|t l IH]; intros s; cbn [tasks]; [by left|]. apply agree_bind; [apply H|done]. Qed.

#[local] Hint Resolve agree_refl agree_bind agree_read : core.

Lemma agree_sort_range d i j : agree (sort_range N std_sort d i j) (sort_range V std_sort d i j).
Proof.
  unfold sort_range. apply agree_bind; [|auto]. set (n := Z.to_nat (j - i)). clearbody n. revert i. induction n as [|n IH]; intros i; cbn [read_range]; [auto|].
  apply agree_bind; [auto|intros x]. apply agree_bind; auto.
Qed.
Lemma agree_part total t d : agree (part_task N std_sort total t d) (part_task V std_sort total t d).
Proof. unfold part_task. cbv zeta. destruct (_ <=? _); [auto|apply agree_sort_range]. Qed.
Lemma agree_both fuel : forall from to sA eA eB i a b x y, agree (merge_both N lt fuel from to sA eA eB i a b x y) (merge_both V lt fuel from to sA eA eB i a b x y).
Proof. induction fuel as [|fuel IH]; intros; cbn [merge_both]; [auto|]. destruct (_ && _); [|auto].
  destruct (lt x y); (apply agree_bind; [auto|intros ?]; apply agree_bind; [auto|intros ?]; apply IH).
Qed.
Lemma agree_rest fuel : forall from to s e i a, agree (merge_rest N fuel from to s e i a) (merge_rest V fuel from to s e i a).
Proof.
  induction fuel as [|fuel IH]; intros; cbn [merge_rest]; destruct (_ <? _); [auto..| |auto].
  do 2 (apply agree_bind; [auto|intros ?]). apply IH.
Qed.
Lemma agree_merge from sub work total t to : agree (merge_task N lt from sub work total t to) (merge_task V lt from sub work total t to).
Proof.
  unfold merge_task. cbv zeta. destruct (_ <=? _); [auto|]. do 2 (apply agree_bind; [auto|intros ?]).
  apply agree_bind; [apply agree_both|intros [[[? ?] ?] ?]]. do 2 (apply agree_bind; [apply agree_rest|intros [? ?]]). auto.
Qed.
Lemma agree_levels fuel : forall this tmp sub threads, agree (levels N lt order fuel this tmp sub threads) (levels V lt order fuel this tmp sub threads).
Proof.
  induction fuel as [|fuel IH]; intros; cbn [levels]; destruct (_ <? _); auto. apply agree_bind; [|auto]. apply agree_tasks. intros; apply agree_merge.
Qed.
Lemma agree_sort d nodes places actual : agree (sort fresh fresh_blocks N lt std_sort order d nodes places actual) (sort fresh fresh_blocks V lt std_sort order d nodes places actual).
Proof.
  unfold sort. apply agree_bind; [apply agree_refl|intros total]. cbv zeta.
  destruct (_ <=? 0); [apply agree_bind; [apply agree_sort_range|intros; apply agree_refl]|].
  apply agree_bind; [apply agree_refl|intros [err tmp]]. destruct err; [|apply agree_refl..]. apply agree_bind; [apply agree_tasks; intros; apply agree_part|intros].
  apply agree_bind; [apply agree_levels|intros; apply agree_refl].
Qed.
End Undefined.

(** C13: [sort] on an array of [n] elements with at least [2^k] threads, when the rounded-up parts leave something for the last of them or the array
    is smaller than the threads are many: whichever the order the tasks of each loop run in, it ends with [Success], and the first [n] elements are
    those there were, in an order in which none stands before one it is greater than - or a merge has read the element after the last of an array
    that has no room for it, through the null pointer, which is undefined.  When the array has more room than its [n] elements and [n] is no multiple of the number
    of hosts, so that the temporary array has too, or when it is sorted sequentially, it is always the former; no other access is outside the arrays. *)
Theorem dist_sort_spec {T} fresh fresh_blocks lt std_sort order (d : @DistArray T) (bs : nat) l (n nodes k : nat) actual :
  (forall x y, lt x y = true -> lt y x = false) -> (forall x y z, le lt x y -> le lt y z -> le lt x z) ->
  (forall s, std_sort s ≡ₚ s) -> (forall s, StronglySorted (le lt) (std_sort s)) -> (forall m, order m ≡ₚ seqZ 0 m) ->
  memory_available fresh fresh_blocks ->
  holds bs d l -> size_ d = Z.of_nat n -> (0 < n <= length l)%nat -> Z.of_nat (length l) < 2 ^ 60 -> (0 < nodes)%nat -> Z.of_nat nodes < 2 ^ 60 ->
  2 ^ Z.of_nat k <= actual < 2 ^ Z.of_nat (S k) -> actual < 2 ^ 60 ->
  (Z.of_nat (length l) < 2 ^ Z.of_nat k \/ (2 ^ Z.of_nat k - 1) * part (Z.of_nat (length l)) (2 ^ Z.of_nat k) (Z.of_nat n) < Z.of_nat n) ->
  let null_read := Undefined "read through the null pointer" in
  let r := sort fresh fresh_blocks (Failed null_read) lt std_sort order d nodes Success actual in
  let sorted := exists d' l' bs', r = Done (Success, d') /\ holds bs' d' l' /\
    size_ d' = Z.of_nat n /\ (n <= length l')%nat /\ take n l' ≡ₚ take n l /\ StronglySorted (le lt) (take n l') in
  (sorted \/ r = Failed null_read) /\
  ((n < length l)%nat /\ Z.of_nat n mod Z.of_nat nodes <> 0 \/ Z.of_nat (length l) < 2 ^ Z.of_nat k -> sorted).
Proof.
  intros Asym Trans Sp Ss Ho Hm H Sz Hn Bl Hnodes Bn Ha Ba Hw. cbv zeta. split.
  - destruct l as [|v l0] eqn:El; [cbn in Hn; lia|]. rewrite <- El in *. clear El l0.
    destruct (sort_readable fresh fresh_blocks (Done v) lt std_sort order d bs l n nodes k actual Asym Trans Sp Ss Ho Hm H Sz Hn Bl Hnodes Bn Ha Ba Hw)
      as (d' & l' & bs' & E & R); [left; by exists v|].
    destruct (agree_sort lt std_sort order fresh fresh_blocks (Undefined "read through the null pointer") v d nodes Success actual) as [E'|E']; [left|right; exact E'].
    exists d', l', bs'. split; [exact (eq_trans E' E)|exact R].
  - intros Hr. apply (sort_readable fresh fresh_blocks _ lt std_sort order d bs l n nodes k actual Asym Trans Sp Ss Ho Hm H Sz Hn Bl Hnodes Bn Ha Ba Hw). right. exact Hr.
Qed.

(** The arguments of the examples: memory filled with zeros, tasks in the order of their numbers, a sort of numbers. *)
Definition zeros (_ : PlaceType) (n : Z) : list Z + Status := inl (repeat 0 (Z.to_nat n)).
Definition sort_numbers (s : list Z) : list Z := merge_sort Z.le s.
Definition dist_sort_numbers (d : DistArray) (hosts : nat) (threads : Z) : outcome (Status * DistArray) :=
  sort zeros (fun n => inl (repeat [] (Z.to_nat n))) (Failed (Undefined "read through the null pointer")) Z.ltb sort_numbers (seqZ 0) d hosts Success threads.

Lemma dist_sort_spec_witness : exists d' l' bs', dist_sort_numbers (mkDA [[5; 3; 8]; [1; 9; 2]] 5) 2 2 = Done (Success, d') /\
  holds bs' d' l' /\ take 5 l' ≡ₚ [5; 3; 8; 1; 9] /\ StronglySorted (le Z.ltb) (take 5 l').
Proof.
  destruct (dist_sort_spec zeros (fun n => inl (repeat [] (Z.to_nat n))) Z.ltb sort_numbers (seqZ 0) (mkDA [[5; 3; 8]; [1; 9; 2]] 5) 3 [5; 3; 8; 1; 9; 2] 5 2 1 2)
    as [_ F].
  - intros x y. rewrite Z.ltb_lt, Z.ltb_ge. lia.
  - intros x y z. unfold le. rewrite !Z.ltb_ge. lia.
  - intros s. apply merge_sort_Permutation.
  - intros s. pose proof (StronglySorted_merge_sort Z.le s) as S. unfold sort_numbers. induction S as [|x s' S IH F]; constructor; [exact IH|].
    eapply Forall_impl; [exact F|]. intros y. unfold le. rewrite Z.ltb_ge. exact id.
  - intros m. reflexivity.
  - split; intros; eexists; (split; [reflexivity|apply repeat_length]).
  - constructor; cbn; [reflexivity|repeat constructor|lia|lia].
  - reflexivity.
  - cbn. lia.
  - cbn. lia.
  - lia.
  - lia.
  - cbn. lia.
  - lia.
  - right. vm_compute. reflexivity.
  - destruct F as (d' & l' & bs' & E & H & _ & _ & P & S); [left; split; [cbn; lia|discriminate]|]. exists d', l', bs'. split; [exact E|]. split; [exact H|]. split; [exact P|exact S].
Defined.

(** When the rounded-up parts leave nothing for the last of them, [sort] answers [Success] and elements are gone: of nine elements with
    four threads in all, the last three, which are the smallest, are not in the result.  With eight threads and ten elements a task writes through the
    null pointer.  On an array as large as its blocks, the value read ahead after the last element is read through the null pointer. *)
Theorem dist_sort_loses_elements :
  dist_sort_numbers (mkDA [[9; 8; 7; 6; 5]; [4; 3; 2; 1; 0]] 9) 2 4 = Done (Success, mkDA [[0; 0; 0; 4; 5]; [6; 7; 8; 9; 0]] 9) /\
  dist_sort_numbers (mkDA [[10; 9; 8; 7; 6; 5; 4; 3; 2; 1; 0; 0; 0; 0; 0]] 10) 2 8 = Failed (Undefined "write through the null pointer") /\
  dist_sort_numbers (mkDA [[4; 3; 2; 1]] 4) 1 2 = Failed (Undefined "read through the null pointer").
Proof. split_and!; vm_compute; reflexivity. Qed.
End DistSort.
