(* ===== verification/Locality.v ===== *)
(** * Threads, places and schedulers of the library

    [pando-lib-galois/utility/locality.hpp]: the number of threads and the correspondence of threads and numbers; [loops/do_all.hpp]: where
    the loops put their tasks. *)

From S2P Require Import Prelude Addressing Termination.
Import Index Termination.

Module Locality.

Section Locality.
(** The dimensions of the machine and what [getThreadDims] answers. *)
Context (d : dims) (threadDims : ThreadIndex).

Definition nodes_ : Z := u64 (node_id (nodeDims d)).
Definition pods_ : Z := u64 (u64 (pod_x (podDims d)) * u64 (pod_y (podDims d))).
Definition cores_ : Z := u64 (u64 (core_x (coreDims d)) * u64 (core_y (coreDims d))).

(** src/include/pando-lib-galois/utility/locality.hpp:15-18 [getThreadsPerCore] *)
Definition getThreadsPerCore : Z := u64 (thread_id threadDims).
(** src/include/pando-lib-galois/utility/locality.hpp:20-25 [getThreadsPerPod] *)
Definition getThreadsPerPod : Z := u64 (cores_ * getThreadsPerCore).
(** src/include/pando-lib-galois/utility/locality.hpp:27-32 [getThreadsPerHost] *)
Definition getThreadsPerHost : Z := u64 (pods_ * getThreadsPerPod).
(** src/include/pando-lib-galois/utility/locality.hpp:34-38 [getNumThreads] *)
Definition getNumThreads : Z := u64 (nodes_ * getThreadsPerHost).

(** src/include/pando-lib-galois/utility/locality.hpp:40-55 [getThreadIdxFromPlace]; the indices of a pod and of a core are computed as [int] *)
Definition getThreadIdxFromPlace (place : Place) (thread : ThreadIndex) : Z :=
  let threadsPerCore := u64 (thread_id threadDims) in
  let threadsPerPod := u64 (u64 (threadsPerCore * u64 (core_x (coreDims d))) * u64 (core_y (coreDims d))) in
  let threadsPerHost := u64 (u64 (threadsPerPod * u64 (pod_x (podDims d))) * u64 (pod_y (podDims d))) in
  let hostIdx := u64 (node_id (node place)) in
  let podIdx := u64 (pod_x (pod place) * pod_y (podDims d) + pod_y (pod place)) in
  let coreIdx := u64 (core_x (core place) * core_y (coreDims d) + core_y (core place)) in
  let threadIdx := u64 (thread_id thread) in
  u64 (hostIdx * threadsPerHost + podIdx * threadsPerPod + coreIdx * threadsPerCore + threadIdx).

(** src/include/pando-lib-galois/utility/locality.hpp:57-77 [getPlaceFromThreadIdx]; a machine without threads divides by zero *)
Definition getPlaceFromThreadIdx (idx : Z) : outcome (Place * ThreadIndex) :=
  let threadsPerCore := u64 (thread_id threadDims) in
  let threadsPerPod := u64 (u64 (threadsPerCore * u64 (core_x (coreDims d))) * u64 (core_y (coreDims d))) in
  let threadsPerHost := u64 (u64 (threadsPerPod * u64 (pod_x (podDims d))) * u64 (pod_y (podDims d))) in
  if threadsPerHost =? 0 then Failed (Undefined "division by zero") else
  let node := mkNode (i64 (idx / threadsPerHost)) in
  let threadPerHostIdx := idx mod threadsPerHost in
  let podPerHostIdx := threadPerHostIdx / threadsPerPod in
  let pod := mkPod (i8 (podPerHostIdx / u64 (pod_y (podDims d)))) (i8 (podPerHostIdx mod u64 (pod_y (podDims d)))) in
  let threadPerPodIdx := threadPerHostIdx mod threadsPerPod in
  let corePerPodIdx := threadPerPodIdx / threadsPerCore in
  let core := mkCore (i8 (corePerPodIdx / u64 (core_y (coreDims d)))) (i8 (corePerPodIdx mod u64 (core_y (coreDims d)))) in
  let threadPerCoreIdx := threadPerPodIdx mod threadsPerCore in
  Done (mkPlace node pod core, mkThread (i8 threadPerCoreIdx)).

(** src/include/pando-lib-galois/loops/do_all.hpp:43-49 [getTotalThreads] *)
Definition getTotalThreads : Z :=
  let coreY := u64 (core_y (coreDims d)) in
  let cores := u64 (u64 (core_x (coreDims d)) * coreY) in
  let threads := u64 (thread_id threadDims) in
  let hosts := u64 (node_id (nodeDims d)) in
  u64 (u64 (hosts * cores) * threads).

(** ** Schedulers *)

(** src/include/pando-lib-galois/loops/do_all.hpp:51-57 [SchedulerPolicy] *)
Inductive SchedulerPolicy := RANDOM | UNSAFE_STRIPE | CORE_STRIPE | NODE_ONLY | NAIVE.

(** src/include/pando-lib-galois/loops/do_all.hpp:80-111 [schedulerImpl]; [rng] is the draw of the core's generator, [this] the current node and
    [loopLocal] the last index a stripe gave *)
Definition schedulerImpl (policy : SchedulerPolicy) (rng : Z) (this : NodeIndex) (preferred : Place) (loopLocal : Z) : outcome (Place * Z) :=
  match policy with
  | RANDOM =>
      if rng <? core_x (coreDims d) then Done (mkPlace (node preferred) anyPod (mkCore rng 0), loopLocal) else Failed (Aborted "assert")
  | UNSAFE_STRIPE =>
      let threadIdx := u64 (loopLocal + 1) in
      if getNumThreads =? 0 then Failed (Undefined "division by zero") else
      let! (place, _) := getPlaceFromThreadIdx (threadIdx mod getNumThreads) in Done (place, threadIdx)
  | CORE_STRIPE =>
      let coreIdx := u64 (loopLocal + 1) in
      if core_x (coreDims d) =? 0 then Failed (Undefined "division by zero") else
      Done (mkPlace (node preferred) anyPod (mkCore (i8 (coreIdx mod u64 (core_x (coreDims d)))) 0), coreIdx)
  | NODE_ONLY => Done (mkPlace (node preferred) anyPod anyCore, loopLocal)
  | NAIVE =>
      if rng <? core_x (coreDims d) then Done (mkPlace this anyPod (mkCore rng 0), loopLocal) else Failed (Aborted "assert")
  end.

(** src/include/pando-lib-galois/loops/do_all.hpp:492-512 [DoAll::doAllEvenlyPartition], the node of work item [curr] *)
Definition assignedHost (workItems curr : Z) : outcome Z :=
  let hosts := u64 (node_id (nodeDims d)) in
  if hosts =? 0 then Failed (Undefined "division by zero") else
  let workPerHost := workItems / hosts in
  let assignedHost :=
    if 0 <? workPerHost then i64 (curr / workPerHost)
    else if hosts mod workItems =? 0 then i64 (u64 (curr * (hosts / workItems)))
    else i64 curr in
  Done (if node_id (nodeDims d) <=? assignedHost then node_id (nodeDims d) - 1 else assignedHost).

(** A machine: every dimension is positive and in the range of its type, and its threads can be counted. *)
Record machine : Prop := mkMachine {
  m_node : 0 < node_id (nodeDims d); m_podx : 0 < pod_x (podDims d) < 128; m_pody : 0 < pod_y (podDims d) < 128;
  m_corex : 0 < core_x (coreDims d) < 128; m_corey : 0 < core_y (coreDims d) < 128; m_thread : 0 < thread_id threadDims < 128;
  m_count : node_id (nodeDims d) * (thread_id threadDims * core_x (coreDims d) * core_y (coreDims d) * pod_x (podDims d) * pod_y (podDims d)) < 2 ^ 63 }.

(** A place and a thread of it. *)
Definition exists_at (p : Place) (t : ThreadIndex) : Prop :=
  0 <= node_id (node p) < node_id (nodeDims d) /\
  (0 <= pod_x (pod p) < pod_x (podDims d) /\ 0 <= pod_y (pod p) < pod_y (podDims d)) /\
  (0 <= core_x (core p) < core_x (coreDims d) /\ 0 <= core_y (core p) < core_y (coreDims d)) /\
  0 <= thread_id t < thread_id threadDims.

(** A number in a mixed base, and its digits. *)
Lemma digits_bound hi lo H L : 0 <= hi < H -> 0 <= lo < L -> 0 <= hi * L + lo < H * L.
Proof. nia. Qed.
Lemma digits_div hi lo L : 0 <= lo < L -> (hi * L + lo) / L = hi.
Proof. intros. rewrite Z.div_add_l, Z.div_small by lia. lia. Qed.
Lemma digits_mod hi lo L : 0 <= lo < L -> (hi * L + lo) mod L = lo.
Proof. intros. rewrite Z.add_comm, Z.mod_add, Z.mod_small by lia. done. Qed.
Lemma digits_split v H L : 0 < L -> 0 <= v < H * L -> v = v / L * L + v mod L /\ 0 <= v / L < H /\ 0 <= v mod L < L.
Proof.
  intros HL Hv. pose proof (Z.div_mod v L ltac:(lia)). pose proof (Z.mod_pos_bound v L HL). pose proof (Z.div_pos v L ltac:(lia) HL).
  split_and!; try lia. apply Z.div_lt_upper_bound; lia.
Qed.

Lemma prod_bound a b A B : 0 < a < A -> 0 < b < B -> 0 < a * b < A * B.
Proof. nia. Qed.

Section Machine.
Context (M : machine).
Let t := thread_id threadDims.
Let cx := core_x (coreDims d).
Let cy := core_y (coreDims d).
Let px := pod_x (podDims d).
Let py := pod_y (podDims d).

Let h := node_id (nodeDims d).

Lemma ranges : 0 < cx < 128 /\ 0 < cy < 128 /\ 0 < px < 128 /\ 0 < py < 128 /\ 0 < t < 128 /\ 0 < h /\ h * (t * (cx * cy) * (px * py)) < 2 ^ 63.
Proof. destruct M. unfold h, t, cx, cy, px, py. split_and!; lia. Qed.

Lemma per_core : 0 < cx * cy < 2 ^ 14 /\ 0 < px * py < 2 ^ 14 /\ 0 < t * (cx * cy) < 2 ^ 21 /\ 0 < t * (cx * cy) * (px * py) < 2 ^ 35.
Proof.
  destruct ranges as (X & Y & PX & PY & T & _). pose proof (prod_bound cx cy 128 128 X Y) as C. pose proof (prod_bound px py 128 128 PX PY) as P.
  pose proof (prod_bound t (cx * cy) 128 (128 * 128) T C) as TC. pose proof (prod_bound _ _ _ _ TC P) as H. lia.
Qed.

Lemma threads_core : u64 (thread_id threadDims) = t.
Proof. apply wrapU_id. unfold inU. pose proof ranges. fold t. lia. Qed.
Lemma threads_pod : u64 (u64 (t * u64 (core_x (coreDims d))) * u64 (core_y (coreDims d))) = t * (cx * cy).
Proof.
  fold cx cy. pose proof ranges. pose proof per_core. rewrite (wrapU_id 64 cx), (wrapU_id 64 cy) by (unfold inU; lia).
  rewrite (wrapU_id 64 (t * cx)) by (unfold inU; nia). rewrite wrapU_id by (unfold inU; nia). lia.
Qed.
Lemma threads_host : u64 (u64 (t * (cx * cy) * u64 (pod_x (podDims d))) * u64 (pod_y (podDims d))) = t * (cx * cy) * (px * py).
Proof.
  fold px py. pose proof ranges. pose proof per_core. rewrite (wrapU_id 64 px), (wrapU_id 64 py) by (unfold inU; lia).
  rewrite (wrapU_id 64 (_ * px)) by (unfold inU; nia). rewrite wrapU_id by (unfold inU; nia). lia.
Qed.

Lemma numThreads : getNumThreads = h * (t * (cx * cy) * (px * py)).
Proof.
  pose proof ranges. pose proof per_core. unfold getNumThreads, getThreadsPerHost, getThreadsPerPod, getThreadsPerCore, nodes_, pods_, cores_.
  rewrite threads_core. fold cx cy px py h. rewrite (wrapU_id 64 cx), (wrapU_id 64 cy), (wrapU_id 64 px), (wrapU_id 64 py) by (unfold inU; lia).
  rewrite (wrapU_id 64 (cx * cy)), (wrapU_id 64 (px * py)) by (unfold inU; lia). rewrite (wrapU_id 64 (cx * cy * t)) by (unfold inU; lia).
  rewrite (wrapU_id 64 (px * py * _)) by (unfold inU; lia). rewrite (wrapU_id 64 h) by (unfold inU; nia). rewrite wrapU_id by (unfold inU; lia). lia.
Qed.

(** The number of a thread, as digits: the node, the pod, the core, the thread. *)
Definition number (p : Place) (th : ThreadIndex) : Z :=
  node_id (node p) * (t * (cx * cy) * (px * py)) + ((pod_x (pod p) * py + pod_y (pod p)) * (t * (cx * cy)) +
    ((core_x (core p) * cy + core_y (core p)) * t + thread_id th)).

Lemma number_bounds p th : exists_at p th ->
  0 <= pod_x (pod p) * py + pod_y (pod p) < px * py /\ 0 <= core_x (core p) * cy + core_y (core p) < cx * cy /\
  0 <= (core_x (core p) * cy + core_y (core p)) * t + thread_id th < t * (cx * cy) /\
  0 <= (pod_x (pod p) * py + pod_y (pod p)) * (t * (cx * cy)) + ((core_x (core p) * cy + core_y (core p)) * t + thread_id th) < t * (cx * cy) * (px * py) /\
  0 <= number p th < getNumThreads.
Proof.
  intros (Hn & [Hpx Hpy] & [Hcx Hcy] & Ht). pose proof (digits_bound _ _ px py Hpx Hpy) as P. pose proof (digits_bound _ _ cx cy Hcx Hcy) as C.
  pose proof (digits_bound _ _ (cx * cy) t C Ht) as T. rewrite (Z.mul_comm (cx * cy) t) in T.
  pose proof (digits_bound _ _ _ _ P T) as D. rewrite (Z.mul_comm (px * py)) in D. pose proof (digits_bound _ _ _ _ Hn D) as N.
  rewrite numThreads. split_and!; first [apply P | apply C | apply T | apply D | apply N].
Qed.

Lemma getThreadIdxFromPlace_number p th : exists_at p th -> getThreadIdxFromPlace p th = number p th.
Proof.
  intros E. pose proof (number_bounds p th E) as (P & C & _ & D & N). pose proof ranges as (_ & _ & _ & _ & TT & Hh & B). rewrite numThreads in N. pose proof per_core.
  destruct E as (Hn & _ & _ & Ht). fold h in Hn. fold t in Ht. unfold getThreadIdxFromPlace. cbv zeta. rewrite threads_core, threads_pod, threads_host.
  fold py cy. rewrite (wrapU_id 64 (node_id _)) by (unfold inU; nia). rewrite (wrapU_id 64 (pod_x _ * _ + _)) by (unfold inU; lia).
  rewrite (wrapU_id 64 (core_x _ * _ + _)) by (unfold inU; lia). rewrite (wrapU_id 64 (thread_id th)) by (unfold inU; lia).
  rewrite wrapU_id; [unfold number; lia|]. unfold inU, number in *. lia.
Qed.

Lemma getPlaceFromThreadIdx_number p th : exists_at p th -> getPlaceFromThreadIdx (number p th) = Done (p, th).
Proof.
  intros E. pose proof (number_bounds p th E) as (P & C & T & D & N). pose proof ranges as (X & Y & PX & PY & TT & Hh & B). rewrite numThreads in N. pose proof per_core.
  destruct E as (Hn & [Hpx Hpy] & [Hcx Hcy] & Ht). unfold getPlaceFromThreadIdx. cbv zeta. rewrite threads_core, threads_pod, threads_host.
  rewrite (proj2 (Z.eqb_neq _ _)) by lia. fold py cy. rewrite (wrapU_id 64 py), (wrapU_id 64 cy) by (unfold inU; lia). unfold number.
  rewrite !(digits_div _ _ _ D), !(digits_mod _ _ _ D), !(digits_div _ _ _ T), !(digits_mod _ _ _ T), !(digits_div _ _ _ Ht), !(digits_mod _ _ _ Ht).
  rewrite !(digits_div _ _ _ Hpy), !(digits_mod _ _ _ Hpy), !(digits_div _ _ _ Hcy), !(digits_mod _ _ _ Hcy).
  rewrite (wrapS_id 64) by (unfold inS; nia). fold px in Hpx. fold cx in Hcx. fold py in Hpy. fold cy in Hcy. fold t in Ht.
  rewrite !(wrapS_id 8) by (unfold inS; lia). by destruct p as [[] [] []], th.
Qed.

Lemma number_exists v : 0 <= v < getNumThreads -> exists p th, exists_at p th /\ v = number p th.
Proof.
  rewrite numThreads. intros Hv. pose proof per_core as (C & P & T & D). pose proof ranges as (X & Y & PX & PY & TT & _).
  destruct (digits_split v h _ (proj1 D) Hv) as (E1 & B1 & R1). set (r1 := v mod _) in *.
  destruct (digits_split r1 (px * py) _ (proj1 T) ltac:(lia)) as (E2 & B2 & R2). destruct (digits_split _ px py ltac:(lia) B2) as (E3 & B3 & R3).
  set (r2 := r1 mod _) in *.
  destruct (digits_split r2 (cx * cy) t ltac:(lia) ltac:(lia)) as (E4 & B4 & R4). destruct (digits_split _ cx cy ltac:(lia) B4) as (E5 & B5 & R5).
  set (r3 := r1 / _) in *. set (r4 := r2 / _) in *.
  exists (mkPlace (mkNode (v / (t * (cx * cy) * (px * py)))) (mkPod (r3 / py) (r3 mod py)) (mkCore (r4 / cy) (r4 mod cy))), (mkThread (r2 mod t)). split.
  { unfold exists_at. cbn. split_and!; first [apply B1|apply B3|apply R3|apply B5|apply R5|apply R4]. }
  unfold number. cbn. rewrite <- E3, <- E5, <- E4, <- E2. exact E1.
Qed.

Lemma totalThreads : getTotalThreads = h * (t * (cx * cy)).
Proof.
  pose proof ranges. pose proof per_core. unfold getTotalThreads. cbv zeta. rewrite threads_core. fold cx cy h.
  rewrite (wrapU_id 64 cx), (wrapU_id 64 cy) by (unfold inU; lia). rewrite (wrapU_id 64 (cx * cy)) by (unfold inU; lia).
  assert (h * (t * (cx * cy)) < 2 ^ 63) by nia. assert (h * (cx * cy) < 2 ^ 63) by nia.
  rewrite (wrapU_id 64 h) by (unfold inU; nia). rewrite (wrapU_id 64 (h * (cx * cy))) by (unfold inU; lia). rewrite wrapU_id by (unfold inU; lia). lia.
Qed.

(** A place that a loop may hand to [executeOn]: its node exists, its pod is open or exists, its core is open or exists. *)
Definition schedulable (p : Place) : Prop :=
  0 <= node_id (node p) < h /\ (pod p = anyPod \/ 0 <= pod_x (pod p) < px /\ 0 <= pod_y (pod p) < py) /\
  (core p = anyCore \/ 0 <= core_x (core p) < cx /\ 0 <= core_y (core p) < cy).

Lemma schedulable_accepted this pod_ rng p : schedulable p -> 0 <= pod_x pod_ < px -> 0 <= pod_y pod_ < py -> 0 <= rng < cx ->
  exists c, chooseCore d rng (resolve this pod_ p) = Done c /\ 0 <= core_x c < cx.
Proof.
  intros (Hn & Hp & Hc) Qx Qy Hr. unfold chooseCore, resolve. cbn [node pod core].
  assert (N : node_eqb (node p) anyNode = false) by (unfold node_eqb; cbn; lia). rewrite N.
  set (q := if pod_eqb (pod p) anyPod then pod_ else pod p).
  assert (Hq : 0 <= pod_x q < px /\ 0 <= pod_y q < py).
  { unfold q. destruct Hp as [->|[? ?]]; [cbn; done|]. replace (pod_eqb _ _) with false; [done|]. unfold pod_eqb. cbn. lia. }
  clearbody q. unfold node_ltb, pod_ltb. cbn [node_id pod_x pod_y]. fold h px py.
  replace (node_id (node p) <? 0) with false by lia. replace (node_id (node p) <? h) with true by lia. cbn [orb negb].
  replace (pod_x q <? 0) with false by lia. replace (pod_y q <? 0) with false by lia. rewrite andb_false_r.
  replace (px <=? pod_x q) with false by lia. replace (py <=? pod_y q) with false by lia. cbn [orb].
  destruct Hc as [->|[Hx Hy]].
  - cbn. fold cx. replace (rng <? cx) with true by lia. exists (mkCore rng 0). split; [done|exact Hr].
  - replace (core_eqb (core p) anyCore) with false by (unfold core_eqb; cbn; lia). unfold core_ltb. cbn [core_x core_y]. fold cx cy.
    replace (core_x (core p) <? 0) with false by lia. replace (core_y (core p) <? 0) with false by lia. rewrite andb_false_r.
    replace (cx <=? core_x (core p)) with false by lia. replace (cy <=? core_y (core p)) with false by lia. cbn [orb]. by exists (core p).
Qed.

Lemma scheduler_schedulable policy rng this preferred loopLocal : 0 <= node_id (node preferred) < h -> 0 <= node_id this < h -> 0 <= rng < cx ->
  exists p l, schedulerImpl policy rng this preferred loopLocal = Done (p, l) /\ schedulable p /\
    (policy = RANDOM \/ policy = CORE_STRIPE \/ policy = NODE_ONLY -> node p = node preferred).
Proof.
  intros Hn Ht Hr. pose proof ranges as (X & Y & PX & PY & TT & Hh & B). pose proof per_core as PC. unfold schedulerImpl. destruct policy.
  1, 5: fold cx; replace (rng <? cx) with true by lia; eexists _, _; split; [reflexivity|]; split; [|by intros [|[|]]];
    unfold schedulable; cbn; split_and!; try lia; by left.
  - assert (NT : 0 < getNumThreads) by (rewrite numThreads; nia). rewrite (proj2 (Z.eqb_neq _ _)) by lia.
    destruct (number_exists (u64 (loopLocal + 1) mod getNumThreads)) as (p & th & E & ->); [by apply Z.mod_pos_bound|].
    rewrite getPlaceFromThreadIdx_number by done. cbn [bindo]. eexists _, _. split; [reflexivity|]. split; [|intros [|[|]]; done].
    destruct E as (E1 & E2 & E3 & _). unfold schedulable. split_and!; [apply E1..|by right|by right].
  - fold cx. rewrite (proj2 (Z.eqb_neq _ _)) by lia. rewrite (wrapU_id 64 cx) by (unfold inU; lia).
    pose proof (Z.mod_pos_bound (u64 (loopLocal + 1)) cx ltac:(lia)). rewrite (wrapS_id 8) by (unfold inS; lia).
    eexists _, _. split; [reflexivity|]. split; [|done]. unfold schedulable; cbn; split_and!; try lia; by left.
  - eexists _, _. split; [reflexivity|]. split; [|done]. unfold schedulable; cbn; split_and!; try lia; by left.
Qed.
End Machine.
End Locality.

(** On a machine whose dimensions are positive and fit their types, places with their threads and the numbers below [getNumThreads] correspond one
    to one by [getThreadIdxFromPlace] and [getPlaceFromThreadIdx]; [getTotalThreads], which the loops use, counts the threads of one pod of
    each node only. *)
Theorem thread_index_roundtrip d threadDims : machine d threadDims ->
  (forall p th, exists_at d threadDims p th -> 0 <= getThreadIdxFromPlace d threadDims p th < getNumThreads d threadDims /\
     getPlaceFromThreadIdx d threadDims (getThreadIdxFromPlace d threadDims p th) = Done (p, th)) /\
  (forall v, 0 <= v < getNumThreads d threadDims -> exists p th, exists_at d threadDims p th /\
     getPlaceFromThreadIdx d threadDims v = Done (p, th) /\ getThreadIdxFromPlace d threadDims p th = v) /\
  getNumThreads d threadDims = pod_x (podDims d) * pod_y (podDims d) * getTotalThreads d threadDims.
Proof.
  intros M. split_and!.
  - intros p th E. rewrite (getThreadIdxFromPlace_number d threadDims M) by done. split; [by apply number_bounds|by apply getPlaceFromThreadIdx_number].
  - intros v Hv. destruct (number_exists d threadDims M v Hv) as (p & th & E & ->). exists p, th.
    rewrite (getThreadIdxFromPlace_number d threadDims M), (getPlaceFromThreadIdx_number d threadDims M) by done. done.
  - rewrite (numThreads d threadDims M), (totalThreads d threadDims M). lia.
Qed.

Definition small_machine : dims := mkDims (mkNode 4) (mkPod 2 3) (mkCore 5 6).
Lemma small_machine_ok : machine small_machine (mkThread 16).
Proof. constructor; cbn; lia. Qed.
Lemma thread_index_roundtrip_witness : exists p th, getPlaceFromThreadIdx small_machine (mkThread 16) 5000 = Done (p, th) /\
  getThreadIdxFromPlace small_machine (mkThread 16) p th = 5000.
Proof.
  destruct (thread_index_roundtrip small_machine (mkThread 16) small_machine_ok) as (_ & H & _).
  destruct (H 5000) as (p & th & _ & E1 & E2); [vm_compute; split; [discriminate|reflexivity]|]. exists p, th. split; [exact E1|exact E2].
Defined.

(** The place a loop's scheduler picks, under every policy, is one [executeOn] accepts, and the policies that take a preferred place keep its
    node. *)
Theorem scheduler_accepted d threadDims policy rng this preferred loopLocal pod_ rng' : machine d threadDims ->
  0 <= node_id (node preferred) < node_id (nodeDims d) -> 0 <= node_id this < node_id (nodeDims d) ->
  0 <= rng < core_x (coreDims d) -> 0 <= rng' < core_x (coreDims d) ->
  0 <= pod_x pod_ < pod_x (podDims d) -> 0 <= pod_y pod_ < pod_y (podDims d) ->
  exists p l c, schedulerImpl d threadDims policy rng this preferred loopLocal = Done (p, l) /\
    chooseCore d rng' (resolve (node_id this) pod_ p) = Done c /\ 0 <= core_x c < core_x (coreDims d) /\
    (policy = RANDOM \/ policy = CORE_STRIPE \/ policy = NODE_ONLY -> node p = node preferred).
Proof.
  intros M Hn Ht Hr Hr' Qx Qy. destruct (scheduler_schedulable d threadDims M policy rng this preferred loopLocal Hn Ht Hr) as (p & l & E & S & Nd).
  destruct (schedulable_accepted d threadDims (node_id this) pod_ rng' p S Qx Qy Hr') as (c & Ec & Bc). by exists p, l, c.
Qed.

Lemma scheduler_accepted_witness : exists p l c, schedulerImpl small_machine (mkThread 16) CORE_STRIPE 0 (mkNode 1) (mkPlace (mkNode 3) anyPod anyCore) 6 = Done (p, l) /\
  chooseCore small_machine 2 (resolve 1 (mkPod 0 0) p) = Done c /\ node p = mkNode 3.
Proof.
  destruct (scheduler_accepted small_machine (mkThread 16) CORE_STRIPE 0 (mkNode 1) (mkPlace (mkNode 3) anyPod anyCore) 6 (mkPod 0 0) 2 small_machine_ok)
    as (p & l & c & E1 & E2 & _ & E3); try (cbn; lia). exists p, l, c. split; [exact E1|]. split; [exact E2|]. apply E3. right. left. reflexivity.
Defined.

Lemma div_interval q x c : 0 < q -> x / q = c <-> c * q <= x < (c + 1) * q.
Proof.
  intros Hq. pose proof (Z.div_mod x q ltac:(lia)). pose proof (Z.mod_pos_bound x q Hq). split; [intros <-; lia|].
  intros Hx. symmetry. apply (Z.div_unique x q c (x - c * q)); lia.
Qed.
Lemma div_at_least q x c : 0 < q -> c <= x / q <-> c * q <= x.
Proof. intros Hq. split; intros H; [pose proof (Z.mul_div_le x q Hq); nia|apply Z.div_le_lower_bound; lia]. Qed.

(** [doAllEvenlyPartition] gives every work item a node that exists.  With at least as many items as nodes, a node but the last gets the
    [workItems / hosts] items that follow those of the nodes before it, and the last one all that remain; with fewer items than nodes, no
    node gets two. *)
Theorem assignedHost_spec d workItems curr : let hosts := node_id (nodeDims d) in
  0 < hosts < 2 ^ 62 -> 0 < workItems < 2 ^ 62 -> 0 <= curr < workItems ->
  exists host, assignedHost d workItems curr = Done host /\ 0 <= host < hosts /\
    (hosts <= workItems -> (forall h, 0 <= h < hosts - 1 -> host = h <-> h * (workItems / hosts) <= curr < (h + 1) * (workItems / hosts)) /\
       (host = hosts - 1 <-> (hosts - 1) * (workItems / hosts) <= curr)) /\
    (workItems < hosts -> forall curr', 0 <= curr' < workItems -> assignedHost d workItems curr' = Done host -> curr' = curr).
Proof.
  intros hosts Hh Hw Hc. unfold assignedHost. fold hosts. rewrite (wrapU_id 64 hosts) by (unfold inU; lia). rewrite (proj2 (Z.eqb_neq _ _)) by lia. cbv zeta.
  pose proof (Z.div_mod workItems hosts ltac:(lia)) as Dw. pose proof (Z.mod_pos_bound workItems hosts ltac:(lia)) as Mw.
  destruct (decide (hosts <= workItems)) as [L|L].
  - set (q := workItems / hosts) in *. assert (Hq : 0 < q) by (unfold q; apply Z.div_str_pos; lia). rewrite (proj2 (Z.ltb_lt _ _)) by lia.
    pose proof (Z.div_pos curr q ltac:(lia) Hq). pose proof (Z.div_le_upper_bound curr q curr Hq ltac:(nia)). rewrite wrapS_id by (unfold inS; lia).
    eexists. split; [reflexivity|]. split; [destruct (Z.leb_spec hosts (curr / q)); lia|]. split; [|lia]. intros _. rewrite <- (div_at_least q curr) by done. split.
    + intros x Hx. rewrite <- (div_interval q curr) by done. destruct (Z.leb_spec hosts (curr / q)); lia.
    + destruct (Z.leb_spec hosts (curr / q)); lia.
  - assert (E : workItems / hosts = 0) by (apply Z.div_small; lia). rewrite E. change (0 <? 0) with false. cbv iota.
    destruct (Z.eqb_spec (hosts mod workItems) 0) as [Dv|Dv].
    + pose proof (Z.div_mod hosts workItems ltac:(lia)) as Dh. rewrite Dv in Dh. set (q := hosts / workItems) in *. assert (0 < q) by nia.
      assert (K : forall x, 0 <= x < workItems -> i64 (u64 (x * q)) = x * q /\ x * q < hosts).
      { intros x Hx. assert (x * q < hosts) by nia. rewrite wrapU_id by (unfold inU; nia). rewrite wrapS_id by (unfold inS; nia). done. }
      destruct (K curr Hc) as [-> K2]. rewrite (proj2 (Z.leb_gt _ _)) by lia. eexists. split; [reflexivity|]. split; [nia|]. split; [lia|].
      intros _ x Hx. destruct (K x Hx) as [-> K3]. rewrite (proj2 (Z.leb_gt _ _)) by lia. intros [= Eq]. nia.
    + rewrite wrapS_id by (unfold inS; lia). rewrite (proj2 (Z.leb_gt _ _)) by lia. eexists. split; [reflexivity|]. split; [lia|]. split; [lia|].
      intros _ x Hx. rewrite wrapS_id by (unfold inS; lia). rewrite (proj2 (Z.leb_gt _ _)) by lia. by intros [= ->].
Qed.

Lemma assignedHost_spec_witness : exists host, assignedHost small_machine 7 6 = Done host /\ host = 3.
Proof.
  destruct (assignedHost_spec small_machine 7 6) as (host & E & _ & H & _); try (cbn; lia). exists host. split; [exact E|].
  apply (proj2 (proj2 (H ltac:(cbn; lia)))). vm_compute. discriminate.
Defined.
End Locality.
