(* ===== verification/DoAll.v ===== *)
(** * Parallel loops

    [galois::doAll] and [galois::doAllEvenlyPartition] of [pando-lib-galois/loops/do_all.hpp], with the wait groups of
    [sync/wait_group.hpp] they end with.  A loop places a task for each item of a range; the harts run the tasks; the thread that called the loop
    continues when the count of the wait group is zero.

    A step is one access to memory that others see.  The body of the loop is any sequence of accesses to what the program shares, each
    of which may depend on what was read before.  The overloads of a loop differ in where a task is placed, which is [executeOn]'s matter. *)

From S2P Require Import Prelude.

Module DoAll.

(** ** Wait groups *)

(** The counter of a group, when it has one: it is allocated by [initialize] and given back by [deinitialize]. *)
Definition WaitGroup := option Z.

Definition no_counter : failure := Undefined "access to a counter that is not allocated".

(** src/include/pando-lib-galois/sync/wait_group.hpp:43-45 [HandleType::add]; the argument is converted to 32 bits *)
Definition add (delta : Z) (wg : WaitGroup) : outcome WaitGroup :=
  match wg with Some m_count => Done (Some (i64 (m_count + u32 delta))) | None => Failed no_counter end.
(** src/include/pando-lib-galois/sync/wait_group.hpp:49-51 [HandleType::addOne] *)
Definition addOne (wg : WaitGroup) : outcome WaitGroup := add 1 wg.
(** src/include/pando-lib-galois/sync/wait_group.hpp:55-57 [HandleType::done] *)
Definition done_ (wg : WaitGroup) : outcome WaitGroup :=
  match wg with Some m_count => Done (Some (i64 (m_count - 1))) | None => Failed no_counter end.
(** src/include/pando-lib-galois/sync/wait_group.hpp:77-87 [initialize]; [memory] is what the allocation answers *)
Definition initialize (memory : Status) (initialCount : Z) (wg : WaitGroup) : Status * WaitGroup :=
  match memory with Success => (Success, Some (u32 initialCount)) | err => (err, wg) end.
(** src/include/pando-lib-galois/sync/wait_group.hpp:105-110 [deinitialize] *)
Definition deinitialize (wg : WaitGroup) : WaitGroup := None.
(** src/include/pando-lib-galois/sync/wait_group.hpp:120-120 [wait]: whether the thread stays in [monitorUntil] *)
Definition monitored (wg : WaitGroup) : outcome bool :=
  match wg with Some m_count => Done (negb (m_count =? 0)) | None => Failed no_counter end.
(** src/include/pando-lib-galois/sync/wait_group.hpp:119-127 [wait], what it answers after that *)
Definition wait_status (wg : WaitGroup) : outcome Status :=
  match wg with Some m_count => Done (if m_count <? 0 then Error else Success) | None => Failed no_counter end.

(** ** Bodies of loops *)

(** What a task still has to do to the shared state: an access [f], and then something that depends on the state it found. *)
Inductive body (S : Type) := Finished | Act (f : S -> S) (k : S -> body S).
Arguments Finished {S}.
Arguments Act {S} _ _.

(** What it does when nobody else accesses the state. *)
Fixpoint run_body {S} (b : body S) (s : S) : S :=
  match b with Finished => s | Act f k => run_body (k s) (f s) end.

(** A body that makes at most [n] accesses. *)
Fixpoint bounded {S} (n : nat) (b : body S) {struct b} : Prop :=
  match b with
  | Finished => True
  | Act f k => match n with O => False | S n => forall s, bounded n (k s) end
  end.

(** ** The loop *)

(** Where the thread that called the loop is: before the allocation of its group, before [add] or [addOne], at the launch of item [i], giving back
    [n] counts after a launch that failed, in [wait] before and after the count was zero, before [deinitialize], back. *)
Inductive point :=
| Initialize | AddAll | AddOne (i : nat) | Launch (i : nat) | Undo (n : nat) (err : Status)
| Monitor | CheckCount | Deinitialize (err : Status) | Returned (err : Status).

Section Loop.
Context {St It : Type}.

(** The group's count; the share of it that belongs to others who use the group; the shared state; the calling thread; the items placed and not yet
    taken by a hart; those a hart is in, with what is left to do; those that are over. *)
Record loop := mkLoop {
  m_count : WaitGroup; others : Z; shared : St; caller : point; placed : list It; active : list (It * body St); completed : list It }.

Definition with_caller (s : loop) (wg : WaitGroup) (p : point) : loop :=
  mkLoop wg (others s) (shared s) p (placed s) (active s) (completed s).
Definition with_placed (s : loop) (p : point) (it : It) : loop :=
  mkLoop (m_count s) (others s) (shared s) p (placed s ++ [it]) (active s) (completed s).

(** The range of the loop, its function, how many harts there are, whether the loop has its own group or was given a handle, whether it adds the whole
    range up front ([doAll]) or item by item ([doAllEvenlyPartition]), what the allocation of the group's counter answers, and what
    [executeOn] answers when item [i] is launched. *)
Context (range : list It) (func : It -> body St) (harts : nat) (own upfront : bool) (memory : Status) (executeOn : nat -> Status).

(** After the loop: the caller of a loop with its own group waits, whatever the loop answered; with a handle the answer is returned. *)
Definition after (err : Status) : point := if own then Monitor else Returned err.

(** src/include/pando-lib-galois/loops/do_all.hpp:245-260 [DoAll::doAll], the loop at item [i]; a failed launch takes back the counts of all
    items not launched *)
Definition doAll_loop (i : nat) (s : loop) : loop :=
  match range !! i with
  | None => with_caller s (m_count s) (after Success)
  | Some it =>
      match executeOn i with
      | Success => with_placed s (Launch (i + 1)) it
      | err => with_caller s (m_count s) (Undo (length range - i) err)
      end
  end.

(** src/include/pando-lib-galois/loops/do_all.hpp:497-513 [DoAll::doAllEvenlyPartition], before [addOne] and the launch of item [i] *)
Definition doAllEvenlyPartition_add (i : nat) (s : loop) : outcome loop :=
  match range !! i with
  | None => Done (with_caller s (m_count s) (after Success))
  | Some _ => let! wg := addOne (m_count s) in Done (with_caller s wg (Launch i))
  end.
(** src/include/pando-lib-galois/loops/do_all.hpp:514-521 [DoAll::doAllEvenlyPartition], the launch; a failed one takes back its own count *)
Definition doAllEvenlyPartition_launch (i : nat) (s : loop) : loop :=
  match range !! i with
  | None => s
  | Some it =>
      match executeOn i with
      | Success => with_placed s (AddOne (i + 1)) it
      | err => with_caller s (m_count s) (Undo 1 err)
      end
  end.

(** src/include/pando-lib-galois/loops/do_all.hpp:402-414 [DoAll::doAll], and the other overloads: the steps of the calling thread; [None] while it
    has to wait *)
Definition caller_step (s : loop) : option (outcome loop) :=
  match caller s with
  | Initialize =>
      let (err, wg) := initialize memory 0 (m_count s) in
      Some (Done (with_caller s wg (match err with Success => if upfront then AddAll else AddOne 0 | _ => Returned err end)))
  | AddAll => Some (let! wg := add (Z.of_nat (length range)) (m_count s) in Done (with_caller s wg (Launch 0)))
  | AddOne i => Some (doAllEvenlyPartition_add i s)
  | Launch i => Some (Done (if upfront then doAll_loop i s else doAllEvenlyPartition_launch i s))
  | Undo 0 err => Some (Done (with_caller s (m_count s) (after err)))
  | Undo (S n) err => Some (let! wg := done_ (m_count s) in Done (with_caller s wg (Undo n err)))
  | Monitor =>
      match monitored (m_count s) with
      | Done true => None
      | Done false => Some (Done (with_caller s (m_count s) CheckCount))
      | Failed e => Some (Failed e)
      end
  | CheckCount => Some (let! err := wait_status (m_count s) in Done (with_caller s (m_count s) (Deinitialize err)))
  | Deinitialize err => Some (Done (with_caller s (deinitialize (m_count s)) (Returned err)))
  | Returned _ => None
  end.

(** A free hart takes the [k]-th task that was placed. *)
Definition take_task (k : nat) (s : loop) : option (outcome loop) :=
  if decide (length (active s) < harts)%nat then
    let? it := placed s !! k in
    Some (Done (mkLoop (m_count s) (others s) (shared s) (caller s) (delete k (placed s)) (active s ++ [(it, func it)]) (completed s)))
  else None.

(** src/include/pando-lib-galois/loops/do_all.hpp:151-155 [DoAll::notifyFunc], the [k]-th running task: an access of its function, or [done] *)
Definition notifyFunc (k : nat) (s : loop) : option (outcome loop) :=
  let? t := active s !! k in
  match t with
  | (it, Act f next) =>
      Some (Done (mkLoop (m_count s) (others s) (f (shared s)) (caller s) (placed s) (<[k := (it, next (shared s))]> (active s)) (completed s)))
  | (it, Finished) =>
      Some (let! wg := done_ (m_count s) in
            Done (mkLoop wg (others s) (shared s) (caller s) (placed s) (delete k (active s)) (completed s ++ [it])))
  end.

(** What can happen: the calling thread goes on, a hart takes a task, a running task goes on, or the others who use the group of a handle change their
    share of its count. *)
Inductive event := Call | Take (k : nat) | Run (k : nat) | Others (z : Z).

Definition step (e : event) (s : loop) : option (outcome loop) :=
  match e with
  | Call => caller_step s
  | Take k => take_task k s
  | Run k => notifyFunc k s
  | Others z =>
      if negb own && ((0 <=? z) && (z <? 2 ^ 62)) then
        let? c := m_count s in
        Some (Done (mkLoop (Some (i64 (c + (z - others s)))) z (shared s) (caller s) (placed s) (active s) (completed s)))
      else None
  end.

Fixpoint run (es : list event) (s : loop) : option (outcome loop) :=
  match es with
  | [] => Some (Done s)
  | e :: es => let? r := step e s in match r with Done s => run es s | Failed f => Some (Failed f) end
  end.

(** A call: with an own group, or with the handle of one that counts [z] for others. *)
Definition start (z : Z) (s : St) : loop :=
  if own then mkLoop None 0 s Initialize [] [] []
  else mkLoop (Some z) z s (if upfront then AddAll else AddOne 0) [] [] [].
End Loop.
Arguments loop : clear implicits.

(** ** Independent bodies *)

Section Bodies.
Context {S : Type}.

(** Two bodies whose accesses commute, whatever the state, and do not change what the other one goes on with. *)
Inductive independent : body S -> body S -> Prop :=
| independent_l b : independent Finished b
| independent_r b : independent b Finished
| independent_act f k g h :
    (forall s, g (f s) = f (g s)) -> (forall s, h (f s) = h s) -> (forall s, k (g s) = k s) ->
    (forall s, independent (k s) (Act g h)) -> (forall s, independent (Act f k) (h s)) -> independent (Act f k) (Act g h).

Lemma independent_sym b b' : independent b b' -> independent b' b.
Proof. induction 1; constructor; auto. Qed.

Lemma independent_next f k b s : independent (Act f k) b -> independent (k s) b.
Proof. inversion 1; subst; auto using independent. Qed.

Lemma run_after_access f k b : independent (Act f k) b -> forall s, run_body b (f s) = f (run_body b s) /\ k (run_body b s) = k s.
Proof.
  induction b as [|g h IH]; intros H s; [done|]. cbn [run_body]. inversion H as [| |? ? ? ? C1 C2 C3 _ I2]; subst.
  rewrite C1, C2. destruct (IH s (I2 s) (g s)) as [-> ->]. by rewrite C3.
Qed.

Lemma run_body_swap b b' : independent b b' -> forall s, run_body b' (run_body b s) = run_body b (run_body b' s).
Proof.
  revert b'. induction b as [|f k IH]; intros b' H s; [done|]. cbn [run_body].
  destruct (run_after_access f k b' H s) as [E1 E2]. rewrite IH by (by apply (independent_next f)). by rewrite E1, E2.
Qed.

(** Bodies run one after the other. *)
Fixpoint run_all (l : list (body S)) (s : S) : S := match l with [] => s | b :: l => run_all l (run_body b s) end.

Inductive pairwise : list (body S) -> Prop :=
| pairwise_nil : pairwise []
| pairwise_cons b l : Forall (independent b) l -> pairwise l -> pairwise (b :: l).

Lemma pairwise_perm l l' : l ≡ₚ l' -> pairwise l -> pairwise l' /\ forall s, run_all l s = run_all l' s.
Proof.
  induction 1 as [|b l l' P IH|b c l|l1 l2 l3 P1 IH1 P2 IH2]; intros H.
  - done.
  - inversion H as [|? ? F H']; subst. destruct (IH H') as [H1 H2]. split; [constructor; [by rewrite <- P|done]|].
    intros s. cbn [run_all]. apply H2.
  - inversion H as [|? ? F H']; subst. inversion H' as [|? ? F' H'']; subst. apply Forall_cons in F as [I F]. split.
    + constructor; [constructor; [by apply independent_sym|done]|by constructor].
    + intros s. cbn [run_all]. by rewrite run_body_swap.
  - destruct (IH1 H) as [H1 E1]. destruct (IH2 H1) as [H2 E2]. split; [done|]. intros s. by rewrite E1.
Qed.

(** One access of one of them changes what is left to do, not what it amounts to. *)
Lemma run_all_access l1 f k l2 s : pairwise (l1 ++ Act f k :: l2) ->
  pairwise (l1 ++ k s :: l2) /\ run_all (l1 ++ k s :: l2) (f s) = run_all (l1 ++ Act f k :: l2) s.
Proof.
  intros H. destruct (pairwise_perm (l1 ++ Act f k :: l2) (Act f k :: l1 ++ l2)) as [H1 E1]; [symmetry; apply Permutation_middle|done|].
  inversion H1 as [|? ? F H']; subst. assert (H2 : pairwise (k s :: l1 ++ l2)).
  { constructor; [|done]. eapply Forall_impl; [exact F|]. intros b. by apply (independent_next f). }
  destruct (pairwise_perm (k s :: l1 ++ l2) (l1 ++ k s :: l2) (Permutation_middle l1 l2 (k s)) H2) as [H3 E3]. split; [done|].
  rewrite E1, <- E3. done.
Qed.
End Bodies.

(** ** The invariant of a loop *)

Section Invariant.
Context {St It : Type} (range : list It) (func : It -> body St) (harts : nat) (own upfront : bool) (memory : Status) (executeOn : nat -> Status).
Implicit Types (s : loop St It) (p : point).
Abbreviation step := (step range func harts own upfront memory executeOn).
Abbreviation run := (run range func harts own upfront memory executeOn).
Abbreviation start := (@start St It own upfront).

(** The first launch from [i] on that fails, among [n]. *)
Fixpoint stop_from (n i : nat) : nat :=
  match n with O => i | Datatypes.S n => if decide (executeOn i = Success) then stop_from n (Datatypes.S i) else i end.
(** How many items are launched. *)
Definition stop : nat := stop_from (length range) 0.
(** What the loop over the launches answers. *)
Definition loop_status : Status := if decide (stop < length range)%nat then executeOn stop else Success.

Lemma stop_from_spec n i : (i <= stop_from n i <= i + n)%nat /\
  (forall j, (i <= j < stop_from n i)%nat -> executeOn j = Success) /\ ((stop_from n i < i + n)%nat -> executeOn (stop_from n i) <> Success).
Proof.
  revert i. induction n as [|n IH]; intros i; cbn [stop_from]; [split_and!; intros; lia|]. destruct (decide (executeOn i = Success)) as [e|e].
  - destruct (IH (Datatypes.S i)) as (I1 & I2 & I3). split_and!; [lia|lia| |intros; apply I3; lia].
    intros j Hj. destruct (decide (j = i)) as [->|]; [done|]. apply I2. lia.
  - split_and!; [lia|lia|intros; lia|done].
Qed.

Lemma stop_le : (stop <= length range)%nat.
Proof. pose proof (stop_from_spec (length range) 0). unfold stop. lia. Qed.
Lemma stop_none : (forall i, (i < length range)%nat -> executeOn i = Success) -> stop = length range.
Proof.
  intros H. pose proof stop_le. destruct (decide (stop < length range)%nat) as [L|]; [|lia].
  destruct (stop_from_spec (length range) 0) as (_ & _ & F). fold stop in F. by destruct F; [lia|apply H].
Qed.
Lemma stop_Success i : (i <= stop)%nat -> executeOn i = Success -> (i < length range)%nat -> (i + 1 <= stop)%nat.
Proof.
  intros Hi E L. destruct (stop_from_spec (length range) 0) as (_ & _ & F). fold stop in F.
  destruct (decide (i = stop)) as [->|]; [|lia]. exfalso. apply F; [lia|done].
Qed.
Lemma stop_Error i : (i <= stop)%nat -> executeOn i <> Success -> i = stop.
Proof.
  intros Hi E. destruct (stop_from_spec (length range) 0) as (_ & F & _). fold stop in F.
  destruct (decide (i = stop)); [done|]. exfalso. apply E, F. lia.
Qed.

(** The counts the calling thread still holds, and the items it has launched. *)
Definition reserved p : nat := match p with Launch i => if upfront then length range - i else 1 | Undo n _ => n | _ => 0 end.
Definition launched p : nat :=
  match p with
  | Initialize | AddAll => 0
  | AddOne i | Launch i => i
  | Returned _ => if own && bool_decide (memory <> Success) then 0 else stop
  | _ => stop
  end.
Definition pending s : nat := length (placed s) + length (active s).
Lemma pending_0 s : pending s = 0%nat -> placed s = [] /\ active s = [].
Proof. unfold pending. intros H. split; apply nil_length_inv; lia. Qed.
Definition counter p (o : Z) (n : nat) : WaitGroup := Some (o + Z.of_nat (reserved p + n)).

(** What holds where the calling thread is: [o] counts belong to others, [n] items are placed or running, the group is [wg]. *)
Definition at_point p (o : Z) (n : nat) (wg : WaitGroup) : Prop :=
  match p with
  | Initialize => own = true /\ n = 0%nat /\ wg = None
  | AddAll => upfront = true /\ wg = counter p o n
  | AddOne i => upfront = false /\ (i <= stop)%nat /\ wg = counter p o n
  | Launch i => (i <= stop)%nat /\ (upfront = false -> i < length range)%nat /\ wg = counter p o n
  | Undo k err => (k <= length range)%nat /\ loop_status = err /\ wg = counter p o n
  | Monitor => own = true /\ wg = counter p o n
  | CheckCount => own = true /\ n = 0%nat /\ wg = counter p o n
  | Deinitialize err => own = true /\ n = 0%nat /\ err = Success
  | Returned err => if own then wg = None /\ n = 0%nat /\ err = memory else err = loop_status /\ wg = counter p o n
  end.

Record inv s : Prop := mkInv {
  i_items : take (launched (caller s)) range ≡ₚ completed s ++ placed s ++ map fst (active s);
  i_point : at_point (caller s) (others s) (pending s) (m_count s);
  i_own : own = true -> others s = 0 /\ (caller s = Initialize \/ (exists e, caller s = Returned e) \/ memory = Success);
  i_others : 0 <= others s < 2 ^ 62 }.

Context (small : Z.of_nat (length range) < 2 ^ 32).

Lemma launched_le p : (match p with AddOne i | Launch i => i <= stop | _ => True end)%nat -> (launched p <= length range)%nat.
Proof. pose proof stop_le. destruct p; cbn; try lia. destruct (own && _); lia. Qed.

Lemma pending_launched s : inv s -> (pending s + length (completed s) = launched (caller s) `min` length range)%nat.
Proof.
  intros I. pose proof (Permutation_length (i_items s I)) as L. rewrite !length_app, length_map, length_take in L. unfold pending. lia.
Qed.
Lemma reserved_le s : inv s -> (reserved (caller s) <= length range)%nat.
Proof.
  intros I. pose proof (i_point s I) as P. unfold at_point in P. destruct (caller s); cbn [reserved]; try lia; destruct upfront; lia.
Qed.

Lemma wrap_count s z : inv s -> Z.abs z <= 2 ^ 62 -> (others s + Z.of_nat (reserved (caller s) + pending s)) + z < 2 ^ 63 ->
  i64 (others s + Z.of_nat (reserved (caller s) + pending s) + z) = others s + Z.of_nat (reserved (caller s) + pending s) + z.
Proof. intros I Hz B. pose proof (i_others s I). apply wrapS_id; [lia|]. unfold inS. lia. Qed.

Lemma inv_start z init : 0 <= z < 2 ^ 62 -> inv (start z init).
Proof.
  intros Hz. pose proof stop_le. unfold start, DoAll.start. destruct own eqn:Eo.
  - constructor; cbn; rewrite ?Eo; [done|done|intros _; split; [done|by left]|lia].
  - constructor; cbn; [by destruct upfront| |intros E; congruence|lia].
    destruct upfront eqn:Eu; cbn; unfold counter, pending; cbn; rewrite ?Z.add_0_r, ?Eu; [done|]. split_and!; [done|lia|done].
Qed.

Lemma inv_move s p wg : inv s -> launched p = launched (caller s) -> at_point p (others s) (pending s) wg ->
  (own = true -> (exists e, p = Returned e) \/ memory = Success) -> inv (with_caller s wg p).
Proof.
  intros I L P M. constructor; cbn; [rewrite L; apply I|exact P| |apply I]. intros E. split; [by apply I|]. right. destruct (M E) as [[e ->]|]; eauto.
Qed.

Lemma memory_ok s : inv s -> own = true -> caller s <> Initialize -> (forall e, caller s <> Returned e) -> memory = Success.
Proof. intros I E N1 N2. destruct (i_own s I E) as [_ [?|[[e ?]|?]]]; [done|by destruct (N2 e)|done]. Qed.

(** The loop is over. *)
Lemma inv_after s err : inv s -> launched (caller s) = stop -> (forall e, caller s <> Returned e) -> caller s <> Initialize ->
  m_count s = Some (others s + Z.of_nat (pending s)) -> err = loop_status -> inv (with_caller s (m_count s) (after own err)).
Proof.
  intros I L N1 N2 W ->. apply inv_move; [done| | |].
  - rewrite L. unfold after. destruct own eqn:Eo; cbn [launched]; by rewrite ?Eo.
  - unfold after. rewrite W. destruct own eqn:Eo; cbn; by rewrite ?Eo.
  - intros E. right. by apply (memory_ok s).
Qed.

Lemma status_stop : (stop = length range -> loop_status = Success) /\ (stop < length range -> loop_status = executeOn stop)%nat.
Proof. unfold loop_status. destruct (decide _); split; done || lia. Qed.

Lemma inv_launch s i it : inv s -> launched (caller s) = i -> (i + 1 <= stop)%nat -> range !! i = Some it ->
  (forall e, caller s <> Returned e) -> caller s <> Initialize ->
  reserved (caller s) = (if upfront then length range - i else 1)%nat -> m_count s = counter (caller s) (others s) (pending s) ->
  inv (with_placed s (if upfront then Launch (i + 1) else AddOne (i + 1)) it).
Proof.
  intros I L B E N1 N2 R C. pose proof stop_le. pose proof (lookup_lt_Some _ _ _ E) as Li. constructor; cbn [with_placed caller completed placed active others].
  - assert (Et : take (i + 1) range = take i range ++ [it]) by (by rewrite Nat.add_1_r, (take_S_r _ _ it)).
    destruct upfront; cbn [launched]; rewrite Et, <- L, (i_items s I), <- !app_assoc; do 2 f_equiv; apply Permutation_app_comm.
  - unfold counter in C. rewrite R in C. unfold pending in *. destruct upfront eqn:U; cbn; rewrite ?U, length_app; cbn [length]; unfold counter; cbn [reserved];
      rewrite ?U, C; split_and!; try done; try lia; f_equal; lia.
  - intros Eo. split; [by apply I|]. right. right. by apply (memory_ok s).
  - apply I.
Qed.

Lemma add_counter s z : inv s -> m_count s = counter (caller s) (others s) (pending s) -> 0 <= z < 2 ^ 32 ->
  add z (m_count s) = Done (Some (others s + Z.of_nat (reserved (caller s) + pending s) + z)).
Proof.
  intros I C Hz. rewrite C. unfold add, counter. rewrite (wrapU_id 32) by (unfold inU; lia). do 2 f_equal.
  pose proof (pending_launched s I). pose proof (reserved_le s I). pose proof (i_others s I). apply wrap_count; [done|lia|lia].
Qed.
Lemma done_counter s : inv s -> m_count s = counter (caller s) (others s) (pending s) -> (0 < reserved (caller s) + pending s)%nat ->
  done_ (m_count s) = Done (Some (others s + Z.of_nat (reserved (caller s) + pending s - 1))).
Proof.
  intros I C Hp. rewrite C. unfold done_, counter. do 2 f_equal. pose proof (pending_launched s I). pose proof (reserved_le s I). pose proof (i_others s I).
  rewrite <- Z.add_opp_r, wrap_count by (done || lia). lia.
Qed.

Lemma caller_inv_add s r : inv s -> (caller s = Initialize \/ caller s = AddAll \/ exists i, caller s = AddOne i) ->
  caller_step range own upfront memory executeOn s = Some r -> exists s', r = Done s' /\ inv s'.
Proof.
  intros I Hc. pose proof (i_point s I) as P. pose proof (pending_launched s I) as Lp. pose proof stop_le as Ls. unfold caller_step.
  destruct Hc as [C|[C|[i C]]]; rewrite C in *; cbn [launched at_point] in *.
  - destruct P as (Eo & N & P). destruct (i_own s I Eo) as [O _].
    unfold initialize. destruct memory eqn:M; intros [= <-]; (eexists; split; [reflexivity|]).
    all: apply inv_move; rewrite ?C, ?N, ?O; [done| | |eauto].
    all: cbn; rewrite ?Eo, ?M; try done; try (by destruct upfront).
    unfold counter. destruct upfront eqn:U; cbn; rewrite ?U; first [done | split_and!; [done|lia|done]].
  - destruct P as [U P]. intros [= <-]. rewrite add_counter by (rewrite ?C; done || lia). eexists. split; [reflexivity|].
    apply inv_move; rewrite ?C; [done|done| |intros E; right; apply (memory_ok s); rewrite ?C; done].
    cbn. unfold counter. cbn. rewrite U. split_and!; [lia|done|f_equal; lia].
  - destruct P as (U & Hi & P). intros [= <-]. unfold doAllEvenlyPartition_add. destruct (range !! i) as [it|] eqn:Ei.
    + apply lookup_lt_Some in Ei. unfold addOne. rewrite add_counter by (rewrite ?C; done || lia). eexists. split; [reflexivity|].
      apply inv_move; rewrite ?C; [done|done| |intros E; right; apply (memory_ok s); rewrite ?C; done].
      cbn. unfold counter. cbn. rewrite U. split_and!; [lia|done|f_equal; lia].
    + apply lookup_ge_None in Ei. eexists. split; [reflexivity|].
      apply inv_after; rewrite ?C; cbn; try done; [lia|symmetry; apply status_stop; lia].
Qed.

Lemma caller_inv_launch s i r : inv s -> caller s = Launch i ->
  caller_step range own upfront memory executeOn s = Some r -> exists s', r = Done s' /\ inv s'.
Proof.
  intros I C. pose proof (i_point s I) as P. pose proof (pending_launched s I) as Lp. pose proof stop_le as Ls. unfold caller_step.
  rewrite C in *; cbn [launched at_point] in *. destruct P as (Hi & Hu & P). intros [= <-]. eexists. split; [reflexivity|].
  destruct (range !! i) as [it|] eqn:Ei.
  - pose proof (lookup_lt_Some _ _ _ Ei) as Li. destruct (decide (executeOn i = Success)) as [e|e].
    + replace (if upfront then _ else _) with (with_placed s (if upfront then Launch (i + 1) else AddOne (i + 1)) it)
        by (unfold doAll_loop, doAllEvenlyPartition_launch; rewrite Ei, e; by destruct upfront).
      apply (inv_launch s i); rewrite ?C; try done. by apply stop_Success.
    + replace (if upfront then _ else _) with (with_caller s (m_count s) (Undo (reserved (Launch i)) (executeOn i)))
        by (unfold doAll_loop, doAllEvenlyPartition_launch; rewrite Ei; cbn; destruct upfront, (executeOn i); done).
      pose proof (stop_Error i Hi e) as ->. apply inv_move; rewrite ?C; [done|done| |intros E; right; apply (memory_ok s); rewrite ?C; done].
      cbn [at_point]. split_and!; [cbn; destruct upfront; lia|by apply status_stop|done].
  - apply lookup_ge_None in Ei. destruct upfront eqn:U; [|pose proof (Hu eq_refl); lia]. unfold doAll_loop. rewrite lookup_ge_None_2 by lia.
    apply inv_after; rewrite ?C; cbn; try done; [lia| |symmetry; apply status_stop; lia].
    rewrite P. unfold counter. cbn. rewrite U. f_equal. lia.
Qed.

Lemma caller_inv s r : inv s -> caller_step range own upfront memory executeOn s = Some r -> exists s', r = Done s' /\ inv s'.
Proof.
  intros I. destruct (caller s) as [| |i|i|n err| | |err|err] eqn:C; try solve [apply caller_inv_add; [done|rewrite C; eauto]]; [by apply (caller_inv_launch s i)|..].
  all: pose proof (i_point s I) as P; unfold caller_step; rewrite C in *; cbn [at_point] in P.
  - destruct P as (Hn & <- & P). destruct n as [|n]; intros [= <-].
    + eexists. split; [reflexivity|]. apply inv_after; rewrite ?C; done.
    + rewrite done_counter by (rewrite ?C; cbn; done || lia). eexists. split; [reflexivity|]. rewrite C. apply inv_move; rewrite ?C; [done|done| |].
      * cbn. unfold counter. cbn. split_and!; [lia|done|f_equal; lia].
      * intros E. right. apply (memory_ok s); rewrite ?C; done.
  - destruct P as [Eo P]. rewrite P. unfold counter, monitored. cbn [reserved]. destruct (i_own s I Eo) as [O _]. rewrite O in *.
    destruct (Z.eqb_spec (0 + Z.of_nat (0 + pending s)) 0) as [N|]; [|done]. intros [= <-]. eexists. split; [reflexivity|].
    apply inv_move; rewrite ?C; [done|done| |intros _; right; apply (memory_ok s); rewrite ?C; done].
    cbn. rewrite O. split_and!; [done|lia|done].
  - destruct P as (Eo & N & P). destruct (i_own s I Eo) as [O _]. rewrite P, N, O. intros [= <-]. eexists. split; [reflexivity|].
    apply inv_move; rewrite ?C; [done|done| |intros _; right; apply (memory_ok s); rewrite ?C; done]. done.
  - destruct P as (Eo & N & ->). intros [= <-]. eexists. split; [reflexivity|]. assert (M : memory = Success) by (apply (memory_ok s); rewrite ?C; done).
    apply inv_move; rewrite ?C; [done| | |intros _; left; eauto]; cbn; rewrite ?Eo, M; done.
  - done.
Qed.

(** While tasks are pending, or others use the group, the counter is there and a change of what is pending goes with it. *)
Lemma at_point_counter p o n wg : at_point p o n wg -> (0 < n)%nat \/ own = false ->
  wg = counter p o n /\ forall o' n', (own = true -> o' = o) -> at_point p o' n' (counter p o' n').
Proof.
  intros H Hn. assert (Hn' : own = true -> (0 < n)%nat) by (intros E; rewrite E in Hn; by destruct Hn).
  destruct p; cbn in *; intuition (try lia). all: destruct own; intuition lia.
Qed.

Lemma tasks_inv s s' : inv s -> caller s' = caller s -> others s' = others s -> completed s' ++ placed s' ++ map fst (active s') ≡ₚ completed s ++ placed s ++ map fst (active s) ->
  at_point (caller s) (others s) (pending s') (m_count s') -> inv s'.
Proof. intros I C O P A. constructor; rewrite ?C, ?O, ?P; try done; apply I. Qed.

Lemma take_inv s k r : inv s -> take_task func harts k s = Some r -> exists s', r = Done s' /\ inv s'.
Proof.
  intros I. unfold take_task. destruct (decide _); [|done]. destruct (placed s !! k) as [it|] eqn:E; [|done]. intros [= <-]. eexists. split; [reflexivity|].
  pose proof (length_delete (placed s) k (ex_intro _ it E)) as Ld. pose proof (lookup_lt_Some _ _ _ E).
  apply (tasks_inv s); try done; cbn [completed placed active].
  - pose proof (delete_Permutation _ _ _ E) as P. set (d := delete k (placed s)) in *. clearbody d. rewrite P, map_app. cbn [map fst]. solve_Permutation.
  - replace (pending _) with (pending s); [apply I|]. unfold pending. cbn [placed active]. rewrite length_app. cbn [length]. lia.
Qed.

Lemma notifyFunc_inv s k r : inv s -> notifyFunc k s = Some r -> exists s', r = Done s' /\ inv s'.
Proof.
  intros I. unfold notifyFunc. destruct (active s !! k) as [[it [|f next]]|] eqn:E; [| |done].
  - pose proof (length_delete (active s) k (ex_intro _ _ E)) as Ld. pose proof (lookup_lt_Some _ _ _ E) as Lk.
    assert (N : (0 < pending s)%nat) by (unfold pending; lia).
    destruct (at_point_counter _ _ _ _ (i_point s I) (or_introl N)) as [W A]. rewrite done_counter by (done || lia). intros [= <-].
    eexists. split; [reflexivity|]. apply (tasks_inv s); try done; cbn [completed placed active m_count].
    + pose proof (delete_Permutation _ _ _ E) as P. set (d := delete k (active s)) in *. clearbody d. rewrite P. cbn [map fst]. solve_Permutation.
    + specialize (A (others s) (length (placed s) + length (delete k (active s)))%nat ltac:(done)).
      replace (Some _) with (counter (caller s) (others s) (length (placed s) + length (delete k (active s)))); [exact A|].
      unfold counter. do 2 f_equal. unfold pending. lia.
  - intros [= <-]. eexists. split; [reflexivity|]. apply (tasks_inv s); try done; cbn [completed placed active m_count].
    + assert (Em : map fst (<[k := (it, next (shared s))]> (active s)) = map fst (active s)); [|by rewrite Em].
      etransitivity; [apply (list_fmap_insert fst)|]. apply list_insert_id. by rewrite list_lookup_fmap, E.
    + replace (pending _) with (pending s); [apply I|]. unfold pending. cbn [placed active]. by rewrite length_insert.
Qed.

Lemma others_inv s z r : inv s -> step (Others z) s = Some r -> exists s', r = Done s' /\ inv s'.
Proof.
  intros I. cbn. destruct own eqn:Eo; [done|]. cbn [negb andb]. destruct (Z.leb_spec 0 z); [|done]. destruct (Z.ltb_spec z (2 ^ 62)); [|done].
  destruct (at_point_counter _ _ _ _ (i_point s I) (or_intror Eo)) as [W A]. rewrite W. cbn [andb]. unfold counter. intros [= <-].
  eexists. split; [reflexivity|]. pose proof (pending_launched s I). pose proof (reserved_le s I). pose proof (i_others s I).
  constructor; cbn [caller completed placed active others m_count]; [apply I| |congruence|lia].
  rewrite wrap_count by (done || lia).
  change (pending _) with (pending s). replace (Some _) with (counter (caller s) z (pending s)); [apply A; congruence|]. unfold counter. f_equal. lia.
Qed.

Lemma step_inv e s r : inv s -> step e s = Some r -> exists s', r = Done s' /\ inv s'.
Proof. destruct e; [apply caller_inv|apply take_inv|apply notifyFunc_inv|apply others_inv]. Qed.

Lemma loop_run_inv es s r : inv s -> run es s = Some r -> exists s', r = Done s' /\ inv s'.
Proof.
  revert s. induction es as [|e es IH]; intros s I; cbn [DoAll.run]; [intros [= <-]; eauto|].
  destruct (step e s) as [r1|] eqn:E; [|done]. destruct (step_inv e s r1 I E) as (s1 & -> & I1). by apply IH.
Qed.

(** *** What is left to do amounts to the same *)

(** The bodies that are not over, of the items that are or will be launched. *)
Definition work s : list (body St) := map snd (active s) ++ map func (placed s) ++ map func (drop (launched (caller s)) (take stop range)).

Lemma caller_work s s' : inv s -> caller_step range own upfront memory executeOn s = Some (Done s') -> work s' = work s /\ shared s' = shared s.
Proof.
  intros I. pose proof (i_point s I) as P. pose proof stop_le as Ls.
  assert (K : forall wg p, launched p = launched (caller s) -> work (with_caller s wg p) = work s) by (intros wg p L; unfold work; cbn; by rewrite L).
  assert (KA : forall err, launched (after own err) = stop) by (intros err; unfold after; destruct own eqn:Eo; cbn; by rewrite ?Eo).
  assert (D : drop stop (take stop range) = []) by (apply drop_ge; rewrite length_take; lia).
  unfold caller_step. destruct (caller s) as [| |i|i|n err| | |err|err] eqn:C; cbn [at_point] in P.
  - destruct (initialize memory 0 (m_count s)) as [err wg] eqn:E. intros [= <-]. split; [|done]. apply K. destruct P as [Eo _].
    unfold initialize in E. destruct memory eqn:M; injection E as <- <-; cbn; rewrite ?Eo, ?M; try done. by destruct upfront.
  - destruct (add _ _); intros [= <-]. split; [|done]. by apply K.
  - unfold doAllEvenlyPartition_add. destruct (range !! i) eqn:Ei.
    + destruct (addOne _); intros [= <-]. split; [|done]. by apply K.
    + intros [= <-]. split; [|done]. apply K. rewrite KA. cbn. apply lookup_ge_None in Ei. lia.
  - destruct P as (Hi & Hu & _). assert (Kp : forall it p, range !! i = Some it -> executeOn i = Success -> launched p = (i + 1)%nat -> work (with_placed s p it) = work s).
    { intros it p Ei e L. unfold work. cbn. rewrite L, C. cbn [launched]. rewrite map_app, <- app_assoc. do 2 f_equal.
      assert (i < stop)%nat. { pose proof (lookup_lt_Some _ _ _ Ei). pose proof (stop_Success i Hi e ltac:(lia)). lia. }
      rewrite (drop_S (take stop range) it i) by (by rewrite lookup_take_lt). by rewrite Nat.add_1_r. }
    assert (Ku : executeOn i <> Success -> stop = i) by (intros e; symmetry; by apply stop_Error).
    intros [= <-]. destruct upfront eqn:U.
    + unfold doAll_loop. destruct (range !! i) eqn:Ei; [|apply lookup_ge_None in Ei; split; [|done]; apply K; rewrite KA; cbn; lia].
      destruct (executeOn i) eqn:e; (split; [|done]); [by apply Kp|..]; apply K; cbn; apply Ku; by rewrite ?e.
    + unfold doAllEvenlyPartition_launch. destruct (range !! i) eqn:Ei; [|done].
      destruct (executeOn i) eqn:e; (split; [|done]); [by apply Kp|..]; apply K; cbn; apply Ku; by rewrite ?e.
  - destruct n; [|destruct (done_ _)]; intros [= <-]; (split; [|done]); apply K; [apply KA|done].
  - destruct (monitored _) as [[]|]; [done| |done]. intros [= <-]. split; [|done]. by apply K.
  - destruct (wait_status _); intros [= <-]. split; [|done]. by apply K.
  - destruct P as (Eo & _ & _). intros [= <-]. split; [|done]. apply K. cbn. rewrite Eo.
    rewrite (memory_ok s) by (rewrite ?C; done). done.
  - done.
Qed.

Definition work_inv (init : St) s : Prop := pairwise (work s) /\ run_all (work s) (shared s) = run_all (map func (take stop range)) init.

Lemma work_perm init s s' : work_inv init s -> work s ≡ₚ work s' -> shared s' = shared s -> work_inv init s'.
Proof. intros [W1 W2] P E. destruct (pairwise_perm _ _ P W1) as [H1 H2]. split; [done|]. by rewrite E, <- H2. Qed.

Lemma step_work init e s s' : inv s -> step e s = Some (Done s') -> work_inv init s -> work_inv init s'.
Proof.
  intros I E W. destruct e as [|k|k|z]; cbn [DoAll.step] in E.
  - destruct (caller_work s s' I E) as [E1 E2]. apply (work_perm init s); [done|by rewrite E1|done].
  - unfold take_task in E. destruct (decide _); [|done]. destruct (placed s !! k) as [it|] eqn:Ek; [|done]. injection E as <-.
    apply (work_perm init s); [done| |done]. unfold work. cbn [active placed caller]. pose proof (delete_Permutation _ _ _ Ek) as P.
    set (d := delete k (placed s)) in *. clearbody d. rewrite (Permutation_map func P), map_app. cbn [map snd]. solve_Permutation.
  - unfold notifyFunc in E. destruct (active s !! k) as [[it [|f next]]|] eqn:Ek; [| |done].
    + destruct (done_ _); [|done]. injection E as <-. destruct W as [W1 W2].
      assert (P : work s ≡ₚ Finished :: map snd (delete k (active s)) ++ map func (placed s) ++ map func (drop (launched (caller s)) (take stop range))).
      { unfold work. pose proof (delete_Permutation _ _ _ Ek) as P. rewrite (Permutation_map snd P). done. }
      destruct (pairwise_perm _ _ P W1) as [H1 H2]. inversion H1; subst. split; [done|]. cbn [shared]. rewrite <- W2, H2. done.
    + injection E as <-. destruct W as [W1 W2]. unfold work in *. cbn [active placed caller shared] in *.
      assert (Es : map snd (active s) = map snd (take k (active s)) ++ Act f next :: map snd (drop (S k) (active s))).
      { rewrite <- (take_drop_middle _ _ _ Ek) at 1. by rewrite map_app. }
      assert (Ei : map snd (<[k := (it, next (shared s))]> (active s)) = map snd (take k (active s)) ++ next (shared s) :: map snd (drop (S k) (active s))).
      { rewrite insert_take_drop by (by eapply lookup_lt_Some). by rewrite map_app. }
      rewrite Es, <- app_assoc in W1, W2. cbn [app] in W1, W2. destruct (run_all_access _ _ _ _ (shared s) W1) as [H1 H2].
      split; unfold work; cbn [shared active placed caller]; rewrite Ei, <- app_assoc; cbn [app]; [done|]. by rewrite H2.
  - destruct (negb own && _); [|done]. destruct (m_count s); [|done]. injection E as <-. by apply (work_perm init s).
Qed.

(** *** The loop ends *)

Section Bound.
Context (N : nat) (bodies : forall it, bounded N (func it)).

(** A bound for the steps of the calling thread, and for the whole state. *)
Definition caller_weight p : nat :=
  let L := length range in
  match p with
  | Initialize => L * (N + 5) + 7 | AddAll => L * (N + 5) + 6 | AddOne i => (L - i) * (N + 5) + 6 | Launch i => (L - i) * (N + 5) + 5
  | Undo n _ => n + 4 | Monitor => 3 | CheckCount => 2 | Deinitialize _ => 1 | Returned _ => 0
  end.
Definition weighs s (m : nat) : Prop := exists ns, Forall2 (fun n t => bounded n (snd t)) ns (active s) /\
  m = (caller_weight (caller s) + (N + 2) * length (placed s) + sum_list ns + length (active s))%nat.

Lemma caller_weight_step s s' m : inv s -> caller_step range own upfront memory executeOn s = Some (Done s') -> weighs s m ->
  exists m', weighs s' m' /\ (m' < m)%nat.
Proof.
  intros I E (ns & F & ->). pose proof (i_point s I) as P. pose proof stop_le as Ls.
  assert (K : forall wg p, (caller_weight p < caller_weight (caller s))%nat -> exists m', weighs (with_caller s wg p) m' /\
    (m' < caller_weight (caller s) + (N + 2) * length (placed s) + sum_list ns + length (active s))%nat).
  { intros wg p L. eexists. split; [exists ns; split; [exact F|reflexivity]|]. cbn [with_caller caller placed active]. lia. }
  assert (Kp : forall it p, (caller_weight p + N + 2 < caller_weight (caller s))%nat -> exists m', weighs (with_placed s p it) m' /\
    (m' < caller_weight (caller s) + (N + 2) * length (placed s) + sum_list ns + length (active s))%nat).
  { intros it p L. eexists. split; [exists ns; split; [exact F|reflexivity]|]. cbn [with_placed caller placed active]. rewrite length_app. cbn [length]. lia. }
  assert (KA : forall err, (caller_weight (after own err) <= 3)%nat) by (intros err; unfold after; destruct own; cbn; lia).
  unfold caller_step in E. destruct (caller s) as [| |i|i|n err| | |err|err] eqn:C; cbn [at_point] in P.
  - destruct (initialize memory 0 (m_count s)) as [err wg]. revert E; intros [= <-]. apply K. destruct err, upfront; cbn [caller_weight]; nia.
  - destruct (add _ _); revert E; intros [= <-]. apply K. cbn [caller_weight]; nia.
  - unfold doAllEvenlyPartition_add in E. destruct (range !! i) eqn:Ei.
    + destruct (addOne _); revert E; intros [= <-]. apply K. cbn [caller_weight]; nia.
    + revert E; intros [= <-]. apply K. eapply Nat.le_lt_trans; [apply KA|]. cbn [caller_weight]. nia.
  - destruct P as (Hi & Hu & _). revert E; intros [= <-]. destruct (range !! i) as [it|] eqn:Ei.
    + pose proof (lookup_lt_Some _ _ _ Ei). assert (length range - i = S (length range - (i + 1)))%nat as Ed by lia.
      unfold doAll_loop, doAllEvenlyPartition_launch. rewrite Ei.
      destruct upfront, (executeOn i); (apply K || apply Kp); cbn [caller_weight]; nia.
    + apply lookup_ge_None in Ei. destruct upfront; [|pose proof (Hu eq_refl); lia]. unfold doAll_loop. rewrite lookup_ge_None_2 by lia. apply K. eapply Nat.le_lt_trans; [apply KA|]. cbn [caller_weight]. nia.
  - destruct n; [|destruct (done_ _)]; revert E; intros [= <-]; apply K; [eapply Nat.le_lt_trans; [apply KA|]|]; cbn [caller_weight]; nia.
  - destruct (monitored _) as [[]|]; [done| |done]. revert E; intros [= <-]. apply K. cbn [caller_weight]; nia.
  - destruct (wait_status _); revert E; intros [= <-]. apply K. cbn [caller_weight]; nia.
  - revert E; intros [= <-]. apply K. cbn [caller_weight]; nia.
  - done.
Qed.

Lemma bounded_mono n n' (b : body St) : (n <= n')%nat -> bounded n b -> bounded n' b.
Proof.
  revert n n'. induction b as [|f k IH]; intros n n' L H; [done|]. destruct n as [|n]; [by destruct H|]. destruct n' as [|n']; [lia|].
  intros st. apply (IH st n n'); [lia|apply H].
Qed.

Lemma step_weight e s s' m : inv s -> (forall z, e <> Others z) -> step e s = Some (Done s') -> weighs s m -> exists m', weighs s' m' /\ (m' < m)%nat.
Proof.
  intros I No E W. destruct e as [|k|k|z]; cbn [DoAll.step] in E; [by apply (caller_weight_step s)| | |by destruct (No z)].
  - unfold take_task in E. destruct (decide _); [|done]. destruct (placed s !! k) as [it|] eqn:Ek; [|done]. injection E as <-.
    destruct W as (ns & F & ->). pose proof (length_delete (placed s) k (ex_intro _ _ Ek)). pose proof (lookup_lt_Some _ _ _ Ek).
    eexists. split; [exists (ns ++ [N]); split; [apply Forall2_app; [exact F|constructor; [apply bodies|constructor]]|reflexivity]|].
    cbn [caller placed active]. rewrite sum_list_with_app, length_app. cbn [length sum_list_with]. unfold id. nia.
  - destruct W as (ns & F & ->). unfold notifyFunc in E. destruct (active s !! k) as [[it b]|] eqn:Ek; [|done].
    destruct (Forall2_lookup_r _ _ _ _ _ F Ek) as (n & En & B). pose proof (lookup_lt_Some _ _ _ Ek). destruct b as [|f next].
    + destruct (done_ _); [|done]. injection E as <-. pose proof (length_delete (active s) k (ex_intro _ _ Ek)).
      eexists. split; [exists (delete k ns); split; [by apply Forall2_delete|reflexivity]|]. cbn [caller placed active].
      assert (sum_list ns = n + sum_list (delete k ns))%nat; [|lia].
      pose proof (delete_Permutation _ _ _ En) as P. set (d := delete k ns) in *. clearbody d. by rewrite P.
    + injection E as <-. destruct n as [|n]; [by destruct B|]. cbn in B.
      eexists. split; [exists (<[k := n]> ns); split; [apply Forall2_insert; [done|apply B]|reflexivity]|]. cbn [caller placed active]. rewrite length_insert.
      assert (sum_list ns = S (sum_list (<[k := n]> ns)))%nat; [|lia].
      pose proof (sum_list_insert _ _ _ n En). lia.
Qed.
End Bound.

Lemma progress s : inv s -> (0 < harts)%nat -> (forall err, caller s <> Returned err) \/ (0 < pending s)%nat ->
  exists e s', (forall z, e <> Others z) /\ step e s = Some (Done s').
Proof.
  intros I Hh Hs. assert (T : (0 < pending s)%nat -> exists e r, (forall z, e <> Others z) /\ step e s = Some r).
  { intros Hp. unfold pending in Hp. destruct (active s) as [|[it [|f k]] l] eqn:Ea.
    - destruct (placed s) as [|it l] eqn:Epl; [cbn in Hp; lia|]. exists (Take 0). eexists. split; [done|]. cbn. unfold take_task.
      rewrite Ea, Epl. cbn [length lookup list_lookup]. destruct (decide (0 < harts)%nat); [done|lia].
    - exists (Run 0). eexists. split; [done|]. cbn. unfold notifyFunc. rewrite Ea. reflexivity.
    - exists (Run 0). eexists. split; [done|]. cbn. unfold notifyFunc. rewrite Ea. reflexivity. }
  assert (R : exists e r, (forall z, e <> Others z) /\ step e s = Some r).
  { destruct (decide (0 < pending s)%nat) as [Hp|Hp]; [by apply T|]. assert (N : pending s = 0%nat) by lia.
    destruct Hs as [Hs|]; [|lia]. exists Call. pose proof (i_point s I) as P. cbn [DoAll.step]. unfold caller_step.
    destruct (caller s) as [| |i|i|[|n] err| | |err|err]; try (eexists; split; [done|reflexivity]).
    - destruct (initialize memory 0 (m_count s)). eexists. split; [done|reflexivity].
    - cbn in P. destruct P as [Eo P]. destruct (i_own s I Eo) as [O _]. rewrite P, N, O. eexists. split; [done|reflexivity].
    - by destruct (Hs err). }
  destruct R as (e & r & Ne & E). destruct (step_inv e s r I E) as (s' & -> & _). by exists e, s'.
Qed.

Lemma run_weight N es s s' m : (forall it, bounded N (func it)) -> inv s -> Forall (fun e => forall z, e <> Others z) es ->
  run es s = Some (Done s') -> weighs N s m -> (length es <= m)%nat.
Proof.
  intros HN. revert s m. induction es as [|e es IH]; intros s m I F E W; cbn [DoAll.run length] in *; [lia|].
  apply Forall_cons in F as [Fe F]. destruct (step e s) as [[s1|]|] eqn:Es; [|done|done].
  destruct (step_weight N HN e s s1 m I Fe Es W) as (m1 & W1 & L). destruct (step_inv e s _ I Es) as (? & [= <-] & I1).
  pose proof (IH s1 m1 I1 F E W1). lia.
Qed.

Lemma run_work init es s s' : inv s -> run es s = Some (Done s') -> work_inv init s -> work_inv init s'.
Proof.
  revert s. induction es as [|e es IH]; intros s I E W; cbn [DoAll.run] in E; [by injection E as <-|].
  destruct (step e s) as [[s1|]|] eqn:Es; [|done|done]. destruct (step_inv e s _ I Es) as (? & [= <-] & I1).
  apply (IH s1); [done|done|]. by apply (step_work init e s).
Qed.

End Invariant.

(** ** What the loops promise *)

(** C7: under every interleaving of the calling thread, the harts and the bodies of a loop over fewer than 2^32 items, no counter is touched
    that is not allocated, and when the call returns: with an own wait group, every item that was launched - all of them before the first launch
    that failed - has been run, each once, and nothing else, and the answer is that of the group's allocation; with a handle, the answer is that
    of the failed launch, and the group counts one for each item that is not over besides what it counts for others. *)
Theorem doAll_safe {St It : Type} (range : list It) (func : It -> body St) harts own upfront memory executeOn z init es r :
  Z.of_nat (length range) < 2 ^ 32 -> 0 <= z < 2 ^ 62 ->
  run range func harts own upfront memory executeOn es (start own upfront z init) = Some r ->
  exists s, r = Done s /\ forall err, caller s = Returned err ->
    if own then m_count s = None /\ placed s = [] /\ active s = [] /\ err = memory /\
      completed s ≡ₚ (if decide (memory = Success) then take (stop range executeOn) range else [])
    else err = loop_status range executeOn /\ completed s ++ placed s ++ map fst (active s) ≡ₚ take (stop range executeOn) range /\
      m_count s = Some (others s + Z.of_nat (length (placed s) + length (active s))).
Proof.
  intros Hs Hz E. pose proof (inv_start range own upfront memory executeOn z init Hz) as I.
  destruct (loop_run_inv range func harts own upfront memory executeOn Hs es _ r I E) as (s & -> & I'). exists s. split; [done|]. intros err C.
  pose proof (i_items _ _ _ _ _ s I') as P. pose proof (i_point _ _ _ _ _ s I') as A. rewrite C in P, A. cbn in P, A. destruct own.
  - destruct A as (M & N & Er). destruct (pending_0 s N) as [E1 E2]. rewrite E1, E2 in P. cbn [app map] in P. rewrite app_nil_r in P.
    split_and!; try done. rewrite <- P. destruct (decide (memory = Success)) as [->|Nm]; [done|]. by rewrite bool_decide_true.
  - destruct A as (-> & W). split_and!; [done|by rewrite P|exact W].
Qed.

(** C8: the items launched are those before the first launch that fails ([stop]), the whole range if none fails.  When their bodies are
    independent - their accesses commute - the shared state at the end is the one of running the items launched one after the other in the order
    of the range, whichever the interleaving was: for a loop with its own group when the call returns, with a handle when besides none of its
    items is pending.  So it is the state after the sequential loop over the whole range if no launch fails. *)
Theorem doAll_result {St It : Type} (range : list It) (func : It -> body St) harts own upfront executeOn z init es s err :
  Z.of_nat (length range) < 2 ^ 32 -> 0 <= z < 2 ^ 62 -> pairwise (map func (take (stop range executeOn) range)) ->
  run range func harts own upfront Success executeOn es (start own upfront z init) = Some (Done s) -> caller s = Returned err ->
  (own = false -> placed s = [] /\ active s = []) ->
  shared s = fold_left (fun st it => run_body (func it) st) (take (stop range executeOn) range) init /\
  ((forall i, (i < length range)%nat -> executeOn i = Success) -> shared s = fold_left (fun st it => run_body (func it) st) range init).
Proof.
  intros Hs Hz Hp E C Ho.
  assert (R : shared s = fold_left (fun st it => run_body (func it) st) (take (stop range executeOn) range) init).
  2: { split; [exact R|]. intros Hx. by rewrite R, (stop_none range executeOn Hx), firstn_all. } pose proof (inv_start range own upfront Success executeOn z init Hz) as I.
  destruct (loop_run_inv range func harts own upfront Success executeOn Hs es _ _ I E) as (? & [= <-] & I').
  assert (W : work_inv range func own Success executeOn init (start own upfront z init)).
  { unfold work_inv, work, start. destruct own; [done|]. by destruct upfront. }
  pose proof (run_work range func harts own upfront Success executeOn Hs init es _ s I E W) as [_ W'].
  assert (placed s = [] /\ active s = []) as [E1 E2].
  { destruct own; [|by apply Ho]. pose proof (i_point _ _ _ _ _ s I') as A. rewrite C in A. apply pending_0, A. }
  unfold work in W'. rewrite E1, E2, C in W'. cbn in W'. rewrite (bool_decide_false (Success <> Success)), andb_false_r, drop_ge in W' by ((intros Nn; by apply Nn) || (rewrite length_take; lia)).
  cbn in W'. rewrite W'. clear. revert init. induction (take _ range) as [|it l IH]; intros st; [done|]. cbn. apply IH.
Qed.

(** C40: a loop whose bodies make at most [N] accesses each ends: no run of the calling thread, the harts and the bodies is longer than
    [length range * (N + 5) + 7] steps, and with a hart there is a next step until the call has returned and no item is pending. *)
Theorem doAll_terminates {St It : Type} (range : list It) (func : It -> body St) harts own upfront memory executeOn z init N es s :
  Z.of_nat (length range) < 2 ^ 32 -> 0 <= z < 2 ^ 62 -> (0 < harts)%nat -> (forall it, bounded N (func it)) ->
  Forall (fun e => forall z, e <> Others z) es ->
  run range func harts own upfront memory executeOn es (start own upfront z init) = Some (Done s) ->
  (length es <= length range * (N + 5) + 7)%nat /\
  ((exists err, caller s = Returned err) /\ placed s = [] /\ active s = [] \/
   exists e s', (forall z, e <> Others z) /\ step range func harts own upfront memory executeOn e s = Some (Done s')).
Proof.
  intros Hs Hz Hh HN F E. pose proof (inv_start range own upfront memory executeOn z init Hz) as I.
  destruct (loop_run_inv range func harts own upfront memory executeOn Hs es _ _ I E) as (? & [= <-] & I'). split.
  - assert (W : exists m, weighs range N (start own upfront z init) m /\ (m <= length range * (N + 5) + 7)%nat).
    { eexists. split; [exists []; split; [|reflexivity]|]; unfold start; destruct own; cbn -[Nat.mul Nat.add]; try constructor; try lia. destruct upfront; cbn -[Nat.mul Nat.add]; nia. }
    destruct W as (m & W & L). pose proof (run_weight range func harts own upfront memory executeOn Hs N es _ s m HN I F E W). lia.
  - destruct (decide (0 < pending s)%nat) as [Hp|Hp]; [right; apply (progress range func harts own upfront memory executeOn Hs s I' Hh); by right|].
    destruct (caller s) as [| |i|i|n e| | |e|e] eqn:C; try (right; apply (progress range func harts own upfront memory executeOn Hs s I' Hh); left; rewrite C; done).
    left. split; [eauto|]. apply pending_0. lia.
Qed.

(** The loop of the examples adds each item to one number. *)
Definition adding (it : Z) : body Z := Act (fun s => s + it) (fun _ => Finished).
Lemma adding_independent x y : independent (adding x) (adding y).
Proof. apply independent_act; intros; [lia|done|done|apply independent_l|apply independent_r]. Qed.
Definition two_items : list event := [Call; Call; Call; Take 0; Call; Run 0; Call; Run 0; Take 0; Run 0; Run 0; Call; Call; Call].

Lemma doAll_safe_witness : exists s, run [3; 4] adding 1 true true Success (fun _ => Success) two_items (start true true 0 10) = Some (Done s) /\
  caller s = Returned Success /\ completed s ≡ₚ [3; 4].
Proof.
  eexists. split; [vm_compute; reflexivity|]. split; [reflexivity|].
  destruct (doAll_safe [3; 4] adding 1 true true Success (fun _ => Success) 0 10 two_items
    (Done (mkLoop None 0 17 (Returned Success) [] [] [3; 4]))) as (s & E & H); [reflexivity|split; [discriminate|reflexivity]|vm_compute; reflexivity|].
  injection E as <-. exact (proj2 (proj2 (proj2 (proj2 (H Success eq_refl))))).
Defined.

Lemma doAll_result_witness : exists s, run [3; 4] adding 1 true true Success (fun _ => Success) two_items (start true true 0 10) = Some (Done s) /\ shared s = 17.
Proof.
  eexists. split; [vm_compute; reflexivity|].
  exact (proj2 (doAll_result [3; 4] adding 1 true true (fun _ => Success) 0 10 two_items (mkLoop None 0 17 (Returned Success) [] [] [3; 4]) Success
    ltac:(reflexivity) ltac:(split; [discriminate|reflexivity])
    ltac:(repeat first [apply adding_independent | constructor]) ltac:(vm_compute; reflexivity) ltac:(reflexivity) ltac:(discriminate)) (fun _ _ => eq_refl)).
Defined.

Lemma doAll_terminates_witness : exists s, run [3; 4] adding 1 true true Success (fun _ => Success) two_items (start true true 0 10) = Some (Done s) /\
  (length two_items <= 2 * (1 + 5) + 7)%nat.
Proof.
  eexists. split; [vm_compute; reflexivity|].
  refine (proj1 (doAll_terminates [3; 4] adding 1 true true Success (fun _ => Success) 0 10 1 two_items (mkLoop None 0 17 (Returned Success) [] [] [3; 4])
    ltac:(reflexivity) ltac:(split; [discriminate|reflexivity]) ltac:(lia) ltac:(cbn; intros; exact I) _ ltac:(vm_compute; reflexivity))).
  repeat constructor; discriminate.
Defined.

Lemma doAll_run_app {St It : Type} (range : list It) (func : It -> body St) harts own upfront memory executeOn es es' s s' :
  run range func harts own upfront memory executeOn es s = Some (Done s') ->
  run range func harts own upfront memory executeOn (es ++ es') s = run range func harts own upfront memory executeOn es' s'.
Proof.
  revert s. induction es as [|e es IH]; intros s E; cbn [app run] in *; [by injection E as ->|].
  destruct (step _ _ _ _ _ _ _ e s) as [[s1|]|]; [by apply IH|done|done].
Qed.

Lemma run_launches {St It : Type} (range : list It) (func : It -> body St) harts s k n :
  caller s = Launch k -> (k + n = length range)%nat ->
  run range func harts true true Success (fun _ => Success) (repeat Call n) s =
    Some (Done (mkLoop (m_count s) (others s) (shared s) (Launch (length range)) (placed s ++ drop k range) (active s) (completed s))).
Proof.
  revert s k. induction n as [|n IH]; intros s k C L; cbn [repeat DoAll.run].
  - rewrite drop_ge, app_nil_r by lia. replace (length range) with k by lia. rewrite <- C. by destruct s.
  - cbn [DoAll.step]. unfold caller_step. rewrite C. unfold doAll_loop. destruct (lookup_lt_is_Some_2 range k ltac:(lia)) as [it E]. rewrite E.
    rewrite (IH _ (k + 1)%nat); [|done|lia]. cbn. rewrite (drop_S range it k E), <- app_assoc, Nat.add_1_r. done.
Qed.

(** A loop with its own group answers [Success] also when a launch failed and items were not run; and when the number of its items is a multiple
    of 2^32, of which [add] keeps nothing, it can return before any of them has run, and the first task that ends then touches a counter that
    was given back. *)
Theorem doAll_departures :
  (exists es s, run [3; 4] adding 1 true true Success (fun i => match i with 1%nat => EnqueueError | _ => Success end) es (start true true 0 10) = Some (Done s) /\
     caller s = Returned Success /\ completed s = [3] /\ shared s = 13) /\
  (forall (St It : Type) (range : list It) (func : It -> body St) harts init, Z.of_nat (length range) mod 2 ^ 32 = 0 ->
     exists es s, run range func harts true true Success (fun _ => Success) es (start true true 0 init) = Some (Done s) /\
       caller s = Returned Success /\ completed s = [] /\ placed s = range /\
       forall it rest, range = it :: rest -> func it = Finished -> (0 < harts)%nat ->
         run range func harts true true Success (fun _ => Success) [Take 0; Run 0] s = Some (Failed no_counter)).
Proof.
  split.
  - exists [Call; Call; Call; Call; Call; Take 0; Run 0; Run 0; Call; Call; Call; Call]. eexists. split; [vm_compute; reflexivity|]. done.
  - intros St It range func harts init H.
    assert (A : run range func harts true true Success (fun _ => Success) [Call; Call] (start true true 0 init) =
      Some (Done (mkLoop (Some 0) 0 init (Launch 0) [] [] []))).
    { cbn. change (u32 0) with 0. unfold wrapU at 1. rewrite H. done. }
    pose proof (run_launches range func harts (mkLoop (Some 0) 0 init (Launch 0) [] [] []) 0 (length range) eq_refl eq_refl) as B.
    exists ([Call; Call] ++ repeat Call (length range) ++ [Call; Call; Call; Call]).
    rewrite (doAll_run_app _ _ _ _ _ _ _ _ _ _ _ A), (doAll_run_app _ _ _ _ _ _ _ _ _ _ _ B). cbn [m_count others shared placed active completed app].
    cbn [run step]. unfold caller_step at 1. cbn [caller]. unfold doAll_loop. rewrite lookup_ge_None_2 by done. cbn.
    eexists. split; [reflexivity|]. split_and!; try done. cbn. intros it rest -> F Hh. unfold take_task. cbn. rewrite decide_True by done.
    cbn. unfold notifyFunc. cbn. by rewrite F.
Qed.
End DoAll.
