(* ===== verification/TextInput.v ===== *)
(** * Reading text

    The input side of the graph importers: the file stream of [include/pando-lib-galois/import/ifstream.hpp] over [pread], the string
    view of [utility/string_view.hpp], the splitting of a line into fields ([src/src/schema.cpp]) and the parser of edge-list lines
    ([src/src/ingest_rmat_el.cpp]).  A character is its byte, 0 to 255; a [char*] is the list of the characters from it to the end of
    its buffer, and reading past that end has no meaning. *)

From S2P Require Import Prelude.

Module TextInput.

(** ** Characters *)

Definition newline : Z := 10.
Definition underscore : Z := 95.

(** [isspace] and [isdigit] of the C library in the "C" locale. *)
Definition isspace (c : Z) : bool := (c =? 32) || ((9 <=? c) && (c <=? 13)).
Definition isdigit (c : Z) : bool := (48 <=? c) && (c <=? 57).

(** ** The file stream *)

Section Stream.

(** [pread(fd, buf, count, offset)]: the bytes put into [buf], none at the end of the file, or [None] for the answer -1. *)
Context (pread : Z -> Z -> Z -> option (list Z)).
(** [open(filepath, O_RDONLY)] and [fstat]'s [st_size]. *)
Context (open_ : list Z -> Z) (fstat : Z -> option Z).
(** What a vector of characters answers when it is pushed to at this size. *)
Context (room : nat -> Status).

(** src/include/pando-lib-galois/import/ifstream.hpp:19-28 [ifstream] *)
Record ifstream := mkStream { m_fd : Z; m_pos : Z; m_err : Status }.
Definition ifstream0 : ifstream := mkStream (-1) 0 Success.

Definition with_err (s : ifstream) (e : Status) : ifstream := mkStream (m_fd s) (m_pos s) e.

(** src/include/pando-lib-galois/import/ifstream.hpp:52-63 [status], [operator bool] *)
Definition ok (s : ifstream) : bool := bool_decide (m_err s = Success).

(** src/src/ifstream.cpp:13-25 [open] *)
Definition open (s : ifstream) (filepath : list Z) : Status * ifstream :=
  if negb (m_fd s =? -1) then (AlreadyInit, s) else
  let s := mkStream (open_ filepath) (m_pos s) (m_err s) in
  if m_fd s <? 0 then (InvalidValue, s) else (Success, s).

(** src/src/ifstream.cpp:45-54 [close] *)
Definition close (s : ifstream) : ifstream :=
  if m_fd s =? -1 then with_err s NotInit else mkStream (-1) 0 Success.

(** src/src/ifstream.cpp:56-63 [size] *)
Definition size (s : ifstream) : Z := match fstat (m_fd s) with Some n => u64 n | None => 0 end.

(** src/src/ifstream.cpp:65-77 [get]; the character is [None] as long as nothing has been stored in it.  The answer -1 of [pread]
    counts as a character, although none is stored *)
Definition get (s : ifstream) (c : option Z) : ifstream * option Z :=
  if m_fd s =? -1 then (with_err s NotInit, c) else
  match pread (m_fd s) 1 (m_pos s) with
  | Some [] => (with_err s OutOfBounds, c)
  | Some (x :: _) => (mkStream (m_fd s) (u64 (m_pos s + 1)) (m_err s), Some x)
  | None => (mkStream (m_fd s) (u64 (m_pos s + 1)) (m_err s), c)
  end.

(** src/src/ifstream.cpp:79-86 [unget] *)
Definition unget (s : ifstream) : ifstream :=
  if m_pos s =? 0 then with_err s OutOfBounds else mkStream (m_fd s) (m_pos s - 1) (m_err s).

(** src/src/ifstream.cpp:144-147 [seekg] *)
Definition seekg (s : ifstream) (off : Z) : ifstream := mkStream (m_fd s) off (m_err s).

Definition SSIZE_MAX : Z := 2 ^ 63 - 1.

(** src/src/ifstream.cpp:93-107 [read]: the loop; the bytes are what it stores from [str] on *)
Fixpoint read_loop (fuel : nat) (s : ifstream) (n : Z) (acc : list Z) : option (ifstream * list Z) :=
  match fuel with
  | O => None
  | S fuel =>
      match pread (m_fd s) (Z.min n SSIZE_MAX) (m_pos s) with
      | None => Some (with_err s Error, acc)
      | Some [] => Some (with_err s OutOfBounds, acc)
      | Some l =>
          let s := mkStream (m_fd s) (u64 (m_pos s + Z.of_nat (length l))) Success in
          let n := u64 (n - Z.of_nat (length l)) in
          if 0 <? n then read_loop fuel s n (acc ++ l) else Some (s, acc ++ l)
      end
  end.

(** src/src/ifstream.cpp:88-108 [read] *)
Definition read (fuel : nat) (s : ifstream) (n : Z) : option (ifstream * list Z) :=
  if m_fd s =? -1 then Some (with_err s NotInit, []) else read_loop fuel s n [].

(** A character that is used. *)
Definition stored (c : option Z) : outcome Z :=
  match c with Some c => Done c | None => Failed (Undefined "indeterminate character") end.

(** src/src/ifstream.cpp:120-122 [getline]: the loop into a vector; [None] when the fuel does not suffice *)
Fixpoint getline_loop (fuel : nat) (s : ifstream) (c : option Z) (vec : list Z) (delim i : Z) : option (outcome (ifstream * list Z * Z)) :=
  match fuel with
  | O => None
  | S fuel =>
      let (s, c) := get s c in
      if negb (ok s) then Some (Done (s, vec, i)) else
      match stored c with
      | Failed e => Some (Failed e)
      | Done x =>
          if x =? delim then Some (Done (s, vec, i)) else
          match room (length vec) with
          | Success => getline_loop fuel s c (vec ++ [x]) delim (u64 (i + 1))
          | e => getline_loop fuel (with_err s e) c vec delim (u64 (i + 1))
          end
      end
  end.

(** src/src/ifstream.cpp:117-124 [getline] *)
Definition getline (fuel : nat) (s : ifstream) (vec : list Z) (delim : Z) : option (outcome (ifstream * list Z * Z)) :=
  getline_loop fuel s None vec delim 0.

(** src/src/ifstream.cpp:112-112 [getline]: the loop into a buffer of characters *)
Fixpoint getline_into (fuel : nat) (s : ifstream) (str : list (option Z)) (n delim i : Z) : option (outcome (ifstream * list (option Z) * Z)) :=
  match fuel with
  | O => None
  | S fuel =>
      if negb (i <? u64 (n - 1)) then Some (Done (s, str, i)) else
      match str !! Z.to_nat i with
      | None => Some (Failed (Undefined "write past the end of a buffer"))
      | Some c =>
          let (s, c) := get s c in
          let str := <[Z.to_nat i := c]> str in
          if negb (ok s) then Some (Done (s, str, i)) else
          match stored c with
          | Failed e => Some (Failed e)
          | Done x => if x =? delim then Some (Done (s, str, i)) else getline_into fuel s str n delim (u64 (i + 1))
          end
      end
  end.

(** src/src/ifstream.cpp:110-115 [getline] *)
Definition getline_str (fuel : nat) (s : ifstream) (str : list (option Z)) (n delim : Z) : option (outcome (ifstream * list (option Z) * Z)) :=
  match getline_into fuel s str n delim 0 with
  | Some (Done (s, str, i)) =>
      if decide (Z.to_nat i < length str)%nat then Some (Done (s, <[Z.to_nat i := Some 0]> str, i))
      else Some (Failed (Undefined "write past the end of a buffer"))
  | r => r
  end.

(** src/src/ifstream.cpp:129-129 [operator>>]: the blanks *)
Fixpoint skip_blanks (fuel : nat) (s : ifstream) (c : option Z) : option (outcome (ifstream * option Z)) :=
  match fuel with
  | O => None
  | S fuel =>
      let (s, c) := get s c in
      if negb (ok s) then Some (Done (s, c)) else
      match stored c with
      | Failed e => Some (Failed e)
      | Done x => if isspace x then skip_blanks fuel s c else Some (Done (s, c))
      end
  end.

(** src/src/ifstream.cpp:130-140 [operator>>]: the digits *)
Fixpoint read_digits (fuel : nat) (s : ifstream) (c : option Z) (val : Z) : option (outcome (ifstream * Z)) :=
  match fuel with
  | O => None
  | S fuel =>
      match stored c with
      | Failed e => Some (Failed e)
      | Done x =>
          if isdigit x || (x =? underscore) then
            let val := if isdigit x then u64 (u64 (val * 10) + (x - 48)) else val in
            let (s, c) := get s c in
            if ok s then read_digits fuel s c val else Some (Done (s, val))
          else Some (Done (unget s, val))
      end
  end.

(** src/src/ifstream.cpp:126-142 [operator>>] *)
Definition read_u64 (fuel : nat) (s : ifstream) : option (outcome (ifstream * Z)) :=
  match skip_blanks fuel s None with
  | Some (Done (s, c)) => read_digits fuel s c 0
  | Some (Failed e) => Some (Failed e)
  | None => None
  end.

End Stream.

(** ** String views *)

(** src/include/pando-lib-galois/utility/string_view.hpp:24-29 [StringView]: the characters of a terminated string *)
Fixpoint StringView (start : list Z) : outcome (list Z) :=
  match start with
  | [] => Failed (Undefined "read past the end of a buffer")
  | c :: l => if c =? 0 then Done [] else let! v := StringView l in Done (c :: v)
  end.

(** src/include/pando-lib-galois/utility/string_view.hpp:36-45 [StringView]: of an array, which need not be terminated *)
Fixpoint StringView_array (str : list Z) : list Z :=
  match str with
  | [] => []
  | c :: l => if c =? 0 then [] else c :: StringView_array l
  end.

(** src/src/ifstream.cpp:27-43 [open]: a file name in an array *)
Definition open_array (open_ : list Z -> Z) (s : ifstream) (filepath : list Z) : Status * ifstream :=
  if negb (m_fd s =? -1) then (AlreadyInit, s) else
  let sv := StringView_array filepath in
  if Z.of_nat (length sv) =? 0 then (InvalidValue, s) else open open_ s sv.

(** src/include/pando-lib-galois/utility/string_view.hpp:47-58 [toArray]; [memory] is what the array's allocation answers *)
Definition toArray (memory : Status) (v : list Z) : list Z := if bool_decide (memory = Success) then v else [].

(** src/include/pando-lib-galois/utility/string_view.hpp:65-69 [operator==]: the loop *)
Fixpoint equal_from (a b : list Z) (i n : nat) : bool :=
  match n with
  | O => true
  | S n => if bool_decide (a !! i = b !! i) then equal_from a b (i + 1) n else false
  end.
(** src/include/pando-lib-galois/utility/string_view.hpp:60-71 [operator==] *)
Definition view_eqb (a b : list Z) : bool :=
  if negb (Z.of_nat (length a) =? Z.of_nat (length b)) then false else equal_from a b 0 (length a).

(** src/include/pando-lib-galois/utility/string_view.hpp:73-79 [getU64]; a [char] is signed *)
Fixpoint getU64_loop (l : list Z) (res : Z) : Z :=
  match l with [] => res | c :: l => getU64_loop l (u64 (10 * res + (wrapS 8 c - 48))) end.
Definition getU64 (v : list Z) : Z := getU64_loop v 0.

Definition slash : Z := 47.

(** src/include/pando-lib-galois/utility/string_view.hpp:85-92 [getUSDate]: [charToInt], whose answer is the number and the characters
    from [pos] on *)
Fixpoint charToInt (l : list Z) (result : Z) : outcome (Z * list Z) :=
  match l with
  | [] => Done (result, [])
  | c :: l' =>
      if c =? slash then Done (result, l) else
      let r := result * 10 + (wrapS 8 c - 48) in
      let! _ := guard_or (fitsS 32 (result * 10) && fitsS 32 r) (Undefined "signed overflow") in
      charToInt l' r
  end.

Record tm := mkTm { tm_sec : Z; tm_min : Z; tm_hour : Z; tm_mday : Z; tm_mon : Z; tm_year : Z }.

(** src/include/pando-lib-galois/utility/string_view.hpp:84-112 [getUSDate]; [mktime] is the C library's.  [pos++] past the end is
    harmless: [charToInt] then stops at once *)
Definition getUSDate (mktime : tm -> Z) (v : list Z) : outcome Z :=
  let! (mon, l) := charToInt v 0 in
  let! (mday, l) := charToInt (tail l) 0 in
  let! (year, l) := charToInt (tail l) 0 in
  let! _ := guard_or (fitsS 32 (year - 1900) && fitsS 32 (mon - 1)) (Undefined "signed overflow") in
  Done (mktime (mkTm 0 0 0 mday (mon - 1) (year - 1900))).

(** ** Fields of a line *)

(** src/src/schema.cpp:14-24 [splitLine]: the loop.  [field] holds the characters from [start] to [end]; [tokens] are the views found,
    [None] the view of the default constructor, a null pointer *)
Fixpoint split_loop (line : list Z) (delim numTokens ndx : Z) (field : list Z) (tokens : list (option (list Z))) : outcome (list (option (list Z))) :=
  let flush := if ndx <? numTokens then Done (<[Z.to_nat (numTokens - 1) := Some field]> tokens) else Done tokens in
  match line with
  | [] => Failed (Undefined "read past the end of a buffer")
  | c :: line =>
      if (c =? 0) || (c =? newline) || negb (ndx <? numTokens) then flush else
      if c =? delim then split_loop line delim numTokens (ndx + 1) [] (<[Z.to_nat ndx := Some field]> tokens)
      else split_loop line delim numTokens ndx (field ++ [c]) tokens
  end.

(** src/src/schema.cpp:8-25 [splitLine]; the vector is initialised or the program stops *)
Definition splitLine (memory : Status) (line : list Z) (delim numTokens : Z) : outcome (list (option (list Z))) :=
  if bool_decide (memory = Success) then split_loop line delim numTokens 0 [] (repeat None (Z.to_nat numTokens))
  else Failed (Aborted "PANDO_CHECK").

(** src/include/pando-lib-galois/import/schema.hpp:22-37 [splitLine]: into an array of the caller *)
Definition splitLine_into (line : list Z) (delim numTokens : Z) (tokens : list (option (list Z))) : outcome (list (option (list Z))) :=
  let! _ := guard_or (Z.of_nat (length tokens) =? numTokens) (Aborted "assert") in
  split_loop line delim numTokens 0 [] tokens.

(** ** Edge-list lines *)

(** src/src/ingest_rmat_el.cpp:40-40 [elGetOne]: the blanks; the answer is the character that ended the loop and the rest *)
Fixpoint el_blanks (line : list Z) : outcome (Z * list Z) :=
  match line with
  | [] => Failed (Undefined "read past the end of a buffer")
  | c :: line => if negb (c =? 0) && isspace c then el_blanks line else Done (c, line)
  end.

(** src/src/ingest_rmat_el.cpp:41-51 [elGetOne]: the digits *)
Fixpoint el_digits (c : Z) (line : list Z) (found : bool) (val : Z) : outcome (list Z * bool * Z) :=
  if isdigit c || (c =? underscore) then
    let found := found || isdigit c in
    let val := if isdigit c then u64 (u64 (val * 10) + (c - 48)) else val in
    match line with
    | [] => Failed (Undefined "read past the end of a buffer")
    | c :: line => if negb (c =? 0) && negb (isspace c) then el_digits c line found val else Done (line, found, val)
    end
  else Done (line, found, val).

Definition UINT64_MAX : Z := 2 ^ 64 - 1.

(** src/src/ingest_rmat_el.cpp:36-55 [elGetOne] *)
Definition elGetOne (line : list Z) : outcome (list Z * Z) :=
  let! (c, line) := el_blanks line in
  let! (line, found, val) := el_digits c line false 0 in
  Done (line, if found then val else UINT64_MAX).

(** src/include/pando-lib-galois/import/ingest_rmat_el.hpp:46-53 [elParse] *)
Definition elParse {A} (line : list Z) (efunc : Z -> Z -> outcome A) : outcome A :=
  let! (line, src) := elGetOne line in
  let! (line, dst) := elGetOne line in
  efunc src dst.

(** ** Reference definitions *)

(** The longest prefix of characters that satisfy [p], and the rest. *)
Fixpoint span (p : Z -> bool) (l : list Z) : list Z * list Z :=
  match l with
  | [] => ([], [])
  | c :: l' => if p c then let (a, b) := span p l' in (c :: a, b) else ([], l)
  end.

Lemma span_app p l : fst (span p l) ++ snd (span p l) = l.
Proof. induction l as [|c l IH]; [done|]. cbn. destruct (p c); [|done]. destruct (span p l). cbn in *. by rewrite IH. Qed.

Lemma span_all p a t b : forallb p a = true -> p t = false -> span p (a ++ t :: b) = (a, t :: b).
Proof.
  induction a as [|c a IH]; cbn; intros H Ht; [by rewrite Ht|].
  apply andb_true_iff in H as [-> H]. by rewrite IH.
Qed.

Lemma span_prefix p l : forallb p (fst (span p l)) = true.
Proof. induction l as [|c l IH]; [done|]. cbn. destruct (p c) eqn:E; [|done]. destruct (span p l). cbn in *. by rewrite E. Qed.

(** The characters of a number: digits, and underscores that separate them. *)
Definition numeral (c : Z) : bool := isdigit c || (c =? underscore).

(** The number a sequence of digits and underscores stands for. *)
Definition digit_step (v c : Z) : Z := if isdigit c then v * 10 + (c - 48) else v.
Definition value (l : list Z) : Z := fold_left digit_step l 0.

(** The digits of a number: at most [k] of them. *)
Fixpoint decimal (k : nat) (n : Z) : list Z :=
  match k with
  | O => []
  | S k => (if n <? 10 then [] else decimal k (n / 10)) ++ [48 + n mod 10]
  end.

Lemma decimal_digits k : forall n, forallb isdigit (decimal k n) = true.
Proof.
  induction k as [|k IH]; intros n; [done|]. cbn. rewrite forallb_app. cbn. unfold isdigit.
  assert (0 <= n mod 10 < 10) by (apply Z.mod_pos_bound; lia).
  rewrite !(proj2 (Z.leb_le _ _)) by lia. destruct (n <? 10); [done|]. by rewrite IH.
Qed.

Lemma decimal_numeral k n : forallb numeral (decimal k n) = true.
Proof.
  apply forallb_forall. intros c Hc. unfold numeral. apply orb_true_iff. left.
  revert c Hc. apply forallb_forall, decimal_digits.
Qed.

Lemma decimal_value k : forall n, 0 <= n < 10 ^ Z.of_nat k -> value (decimal k n) = n.
Proof.
  unfold value. induction k as [|k IH]; intros n Hn; [cbn in *; lia|]. cbn [decimal].
  rewrite fold_left_app. cbn [fold_left]. unfold digit_step at 1.
  pose proof (Z.mod_pos_bound n 10 ltac:(lia)). pose proof (Z.div_mod n 10 ltac:(lia)).
  assert (isdigit (48 + n mod 10) = true) as -> by (unfold isdigit; rewrite !(proj2 (Z.leb_le _ _)) by lia; done).
  destruct (Z.ltb_spec n 10) as [L|L].
  - cbn. rewrite Z.mod_small by lia. lia.
  - rewrite IH; [lia|]. rewrite Nat2Z.inj_succ, Z.pow_succ_r in Hn by lia.
    split; [apply Z.div_pos; lia | apply Z.div_lt_upper_bound; lia].
Qed.

Lemma decimal_nonempty k n : (0 < k)%nat -> existsb isdigit (decimal k n) = true.
Proof.
  intros Hk. destruct k as [|k]; [lia|]. pose proof (decimal_digits (S k) n) as H. revert H. cbn [decimal].
  rewrite forallb_app, existsb_app. cbn. intros H. apply andb_true_iff in H as [_ H]. rewrite andb_true_r in H. rewrite H. by rewrite orb_true_r.
Qed.

(** ** The parser of edge-list lines *)

Lemma value_app a c : value (a ++ [c]) = digit_step (value a) c.
Proof. unfold value. by rewrite fold_left_app. Qed.

Lemma numeral_range c : numeral c = true -> (c =? 0) = false /\ isspace c = false.
Proof. unfold numeral, isdigit, isspace, underscore. intros H. split; lia. Qed.

Lemma digit_wrap v c : u64 (u64 (u64 v * 10) + (c - 48)) = u64 (v * 10 + (c - 48)).
Proof. rewrite wrapU_add_l. unfold wrapU. rewrite Zplus_mod, Zmult_mod_idemp_l, <- Zplus_mod. done. Qed.

Lemma el_blanks_spec line : el_blanks line =
  match snd (span isspace line) with c :: l => Done (c, l) | [] => Failed (Undefined "read past the end of a buffer") end.
Proof.
  induction line as [|c l IH]; [done|]. cbn. destruct (isspace c) eqn:E.
  - assert ((c =? 0) = false) as -> by (unfold isspace in E; lia). cbn. rewrite IH. by destruct (span isspace l).
  - by rewrite andb_false_r.
Qed.

Lemma el_digits_spec line : forall c seen, el_digits c line (existsb isdigit seen) (u64 (value seen)) =
  let (w, l) := span numeral (c :: line) in
  match l with
  | t :: rest => Done (rest, existsb isdigit (seen ++ w), u64 (value (seen ++ w)))
  | [] => Failed (Undefined "read past the end of a buffer")
  end.
Proof.
  induction line as [|c' l IH]; intros c seen; cbn [el_digits span]; fold (numeral c); destruct (numeral c) eqn:N;
    rewrite ?app_nil_r; try done.
  assert (existsb isdigit seen || isdigit c = existsb isdigit (seen ++ [c]))%bool as -> by (rewrite existsb_app; cbn; by rewrite orb_false_r).
  assert ((if isdigit c then u64 (u64 (u64 (value seen) * 10) + (c - 48)) else u64 (value seen)) = u64 (value (seen ++ [c]))) as ->.
  { rewrite value_app. unfold digit_step. destruct (isdigit c); [apply digit_wrap | done]. }
  destruct (numeral c') eqn:N'.
  - destruct (numeral_range _ N') as [-> ->]. cbn [negb andb]. rewrite IH. cbn [span]. rewrite N'. destruct (span numeral l) as [w [|t r]]; [done|].
    by rewrite <- !app_assoc.
  - destruct (negb (c' =? 0) && negb (isspace c')); [|done].
    destruct l; cbn [el_digits]; fold (numeral c'); by rewrite N'.
Qed.

(** Whatever the text, [elGetOne] reads the number of the first run of digits and underscores behind the blanks modulo 2^64, or
    [UINT64_MAX] when the run has no digit, and goes past one more character, even when that is the terminator or a newline. *)
Lemma elGetOne_run line : elGetOne line =
  let (w, l) := span numeral (snd (span isspace line)) in
  match l with
  | t :: rest => Done (rest, if existsb isdigit w then u64 (value w) else UINT64_MAX)
  | [] => Failed (Undefined "read past the end of a buffer")
  end.
Proof.
  unfold elGetOne. rewrite el_blanks_spec. destruct (snd (span isspace line)) as [|c l]; [done|]. cbn [bindo].
  change (el_digits c l false 0) with (el_digits c l (existsb isdigit []) (u64 (value []))). rewrite el_digits_spec. cbn [app]. by destruct (span numeral (c :: l)) as [w [|t r]].
Qed.

Lemma elGetOne_number blanks digits t rest : forallb isspace blanks = true -> forallb numeral digits = true -> existsb isdigit digits = true ->
  numeral t = false -> elGetOne (blanks ++ digits ++ t :: rest) = Done (rest, u64 (value digits)).
Proof.
  intros Hb Hd He Ht. rewrite elGetOne_run. destruct digits as [|d ds]; [done|].
  assert (isspace d = false) by (cbn in Hd; apply andb_true_iff in Hd as [? _]; by apply numeral_range).
  change ((d :: ds) ++ t :: rest) with (d :: (ds ++ t :: rest)). rewrite (span_all isspace) by done. cbn [snd].
  change (d :: ds ++ t :: rest) with ((d :: ds) ++ t :: rest). by rewrite (span_all numeral), He.
Qed.

(** ** Fields *)

(** The fields of a text: what the occurrences of the delimiter separate. *)
Fixpoint fields (delim : Z) (field l : list Z) : list (list Z) :=
  match l with
  | [] => [field]
  | c :: l => if c =? delim then field :: fields delim [] l else fields delim (field ++ [c]) l
  end.

Definition line_char (c : Z) : bool := negb (c =? 0) && negb (c =? newline).

Lemma fields_cons delim l : forall field, exists f fs, fields delim field l = f :: fs.
Proof. induction l as [|c l IH]; intros field; cbn; [eauto|]. destruct (c =? delim); eauto. Qed.

(** The views a vector of tokens ends with: the first fields, one per token, or all the fields, the last one at the last index. *)
Definition views (old : list (option (list Z))) (fs : list (list Z)) : list (option (list Z)) :=
  if (length old <? length fs)%nat then Some <$> take (length old) fs
  else <[(length old - 1)%nat := Some (List.last fs [])]> ((Some <$> removelast fs) ++ drop (length fs - 1) old).

Lemma views_full tokens fs f g : length fs = length tokens -> take (length fs) tokens = Some <$> fs -> views tokens (fs ++ f :: g) = tokens.
Proof.
  intros E T. unfold views. rewrite length_app. cbn [length]. rewrite (proj2 (Nat.ltb_lt _ _)) by lia.
  by rewrite <- E, take_app_length, <- T, E, firstn_all.
Qed.

Lemma views_insert tokens fs k x : (k + 1 < length fs)%nat -> views (<[k := x]> tokens) fs = views tokens fs.
Proof.
  intros Hk. unfold views. rewrite length_insert. destruct (length tokens <? length fs)%nat; [done|].
  by rewrite drop_insert_lt by lia.
Qed.

Lemma split_loop_spec delim t rest l : line_char t = false -> forall field tokens fs,
  forallb line_char l = true -> (length fs <= length tokens)%nat -> take (length fs) tokens = Some <$> fs ->
  split_loop (l ++ t :: rest) delim (Z.of_nat (length tokens)) (Z.of_nat (length fs)) field tokens = Done (views tokens (fs ++ fields delim field l)).
Proof.
  intros Ht. induction l as [|c l IH]; intros field tokens fs Hl Hle Htake; cbn [app split_loop fields].
  - assert ((t =? 0) || (t =? newline) = true)%bool as -> by (unfold line_char in Ht; destruct (t =? 0), (t =? newline); done). cbn [orb].
    destruct (Z.ltb_spec (Z.of_nat (length fs)) (Z.of_nat (length tokens))) as [L|L].
    + unfold views. rewrite length_app. cbn [length].
      rewrite (proj2 (Nat.ltb_ge _ _)), removelast_last, last_last by lia. f_equal. f_equal; [lia|].
      rewrite <- Htake, Nat.add_sub. by rewrite take_drop.
    + rewrite views_full by (lia || done). done.
  - cbn in Hl. apply andb_true_iff in Hl as [Hc Hl]. unfold line_char in Hc. apply andb_true_iff in Hc as [->%negb_true_iff ->%negb_true_iff].
    cbn [orb]. destruct (Z.ltb_spec (Z.of_nat (length fs)) (Z.of_nat (length tokens))) as [L|L]; cbn [negb].
    + destruct (c =? delim).
      * rewrite Nat2Z.id. rewrite <- (length_insert tokens (length fs) (Some field)).
        replace (Z.of_nat (length fs) + 1) with (Z.of_nat (length (fs ++ [field]))) by (rewrite length_app; cbn; lia).
        rewrite IH; [|done|rewrite length_insert, length_app; cbn; lia|].
        -- destruct (fields_cons delim l []) as (f & g & ->). rewrite <- app_assoc. rewrite views_insert by (rewrite length_app; cbn; lia). done.
        -- rewrite length_app. cbn. rewrite Nat.add_1_r, take_insert_snoc, Htake, fmap_app by lia. done.
      * by rewrite IH.
    + destruct (fields_cons delim (c :: l) field) as (f & g & E). cbn [fields] in E. rewrite E. rewrite views_full by (lia || done). done.
Qed.

(** The text with these fields. *)
Fixpoint join (delim : Z) (fs : list (list Z)) : list Z :=
  match fs with [] => [] | [f] => f | f :: fs => f ++ delim :: join delim fs end.

Lemma join_cons delim f g fs : join delim (f :: g :: fs) = f ++ delim :: join delim (g :: fs).
Proof. done. Qed.

Lemma join_fields delim l : forall field, join delim (fields delim field l) = field ++ l.
Proof.
  induction l as [|c l IH]; intros field; cbn [fields]; [by rewrite app_nil_r|].
  destruct (Z.eqb_spec c delim) as [->|N].
  - specialize (IH []). destruct (fields_cons delim l []) as (f & fs & E). rewrite E in *. by rewrite join_cons, IH.
  - rewrite IH, <- app_assoc. done.
Qed.

Lemma fields_app delim a : forallb (fun c => negb (c =? delim)) a = true -> forall field l, fields delim field (a ++ l) = fields delim (field ++ a) l.
Proof.
  induction a as [|c a IH]; cbn; intros H field l; [by rewrite app_nil_r|].
  apply andb_true_iff in H as [->%negb_true_iff H]. rewrite IH, <- app_assoc by done. done.
Qed.

Lemma fields_join delim fs : Forall (fun f => forallb (fun c => negb (c =? delim)) f = true) fs -> fs <> [] -> fields delim [] (join delim fs) = fs.
Proof.
  induction fs as [|f [|g fs] IH]; intros H N; [done| |]; apply Forall_cons in H as [Hf H].
  - cbn. rewrite <- (app_nil_r f) at 1. by rewrite fields_app.
  - rewrite join_cons, fields_app by done. cbn [fields app]. rewrite Z.eqb_refl. f_equal. by apply IH.
Qed.

(** ** Numbers in views *)

Lemma digit_signed c : isdigit c = true -> wrapS 8 c = c.
Proof. intros H. unfold isdigit in H. apply wrapS_id; [lia|]. unfold inS. cbn. lia. Qed.

Lemma getU64_digits l : forallb isdigit l = true -> forall a, getU64_loop l (u64 a) = u64 (fold_left digit_step l a).
Proof.
  induction l as [|c l IH]; intros H a; [done|]. cbn in *. apply andb_true_iff in H as [Hc H]. rewrite digit_signed by done.
  unfold digit_step at 2. rewrite Hc, <- IH by done. f_equal. unfold wrapU. rewrite Zplus_mod, Zmult_mod_idemp_r, <- Zplus_mod. f_equal. lia.
Qed.

Lemma getU64_decimal n : inU 64 n -> getU64 (decimal 20 n) = n.
Proof.
  intros Hn. unfold getU64. pose proof (getU64_digits _ (decimal_digits 20 n) 0) as E. change (u64 0) with 0 in E. rewrite E.
  fold (value (decimal 20 n)). unfold inU in Hn. rewrite decimal_value by lia. apply wrapU_id. done.
Qed.

Lemma charToInt_digits l rest : forallb isdigit l = true -> (rest = [] \/ exists r, rest = slash :: r) -> forall a, 0 <= a ->
  fold_left digit_step l a < 2 ^ 31 -> charToInt (l ++ rest) a = Done (fold_left digit_step l a, rest).
Proof.
  assert (forall l a, 0 <= a -> forallb isdigit l = true -> a <= fold_left digit_step l a) as mono.
  { clear. induction l as [|c l IH]; cbn; intros a Ha H; [lia|]. apply andb_true_iff in H as [Hc H]. unfold digit_step at 2. rewrite Hc.
    unfold isdigit in Hc. etransitivity; [|apply IH; [lia|done]]. lia. }
  intros H Hr. induction l as [|c l IH]; intros a Ha Hl; cbn [app fold_left charToInt] in *.
  - destruct Hr as [->|[r ->]]; [done|]. cbn. done.
  - cbn in H. apply andb_true_iff in H as [Hc H]. assert (digit_step a c = a * 10 + (c - 48)) as Es by (unfold digit_step; by rewrite Hc).
    rewrite Es in *. unfold isdigit in Hc.
    assert ((c =? slash) = false) as -> by (unfold slash; lia). rewrite digit_signed by (unfold isdigit; lia).
    pose proof (mono l (a * 10 + (c - 48)) ltac:(lia) H).
    assert (fitsS 32 (a * 10) && fitsS 32 (a * 10 + (c - 48)) = true) as -> by (unfold fitsS; cbn; lia). cbn [guard_or bindo].
    apply IH; [done|lia|done].
Qed.

Lemma charToInt_decimal n rest : 0 <= n < 2 ^ 31 -> (rest = [] \/ exists r, rest = slash :: r) ->
  charToInt (decimal 20 n ++ rest) 0 = Done (n, rest).
Proof.
  intros Hn Hr. pose proof (decimal_value 20 n ltac:(lia)) as V. unfold value in V.
  rewrite charToInt_digits; [by rewrite V | apply decimal_digits | done | lia | rewrite V; lia].
Qed.

(** A date written as month/day/year gives [mktime] the fields of that date. *)
Lemma getUSDate_decimal mktime mon mday year : 0 <= mon < 2 ^ 31 -> 0 <= mday < 2 ^ 31 -> 0 <= year < 2 ^ 31 ->
  getUSDate mktime (decimal 20 mon ++ slash :: decimal 20 mday ++ slash :: decimal 20 year) = Done (mktime (mkTm 0 0 0 mday (mon - 1) (year - 1900))).
Proof.
  intros Hm Hd Hy. unfold getUSDate. rewrite charToInt_decimal by eauto. cbn [bindo tail]. rewrite charToInt_decimal by eauto. cbn [bindo tail].
  rewrite <- (app_nil_r (decimal 20 year)), charToInt_decimal by eauto. cbn [bindo].
  assert (fitsS 32 (year - 1900) && fitsS 32 (mon - 1) = true) as -> by (unfold fitsS; cbn; lia). done.
Qed.

(** Two views are equal exactly when their characters are. *)
Lemma view_eqb_spec a b : view_eqb a b = true <-> a = b.
Proof.
  unfold view_eqb. destruct (Z.eqb_spec (Z.of_nat (length a)) (Z.of_nat (length b))) as [E|E]; cbn [negb];
    [|split; [done | intros ->; done]]. apply Nat2Z.inj in E.
  assert (forall n i, equal_from a b i n = true <-> forall k, (i <= k < i + n)%nat -> a !! k = b !! k) as loop.
  { induction n as [|n IH]; intros i; cbn; [split; [lia | done]|].
    destruct (bool_decide_reflect (a !! i = b !! i)) as [Ei|Ei].
    - rewrite IH. split; intros Hk k ?; [destruct (decide (k = i)) as [->|]; [done|]|]; apply Hk; lia.
    - split; [done|]. intros Hk. destruct Ei. apply Hk. lia. }
  rewrite loop. split; [|by intros ->]. intros Hk. apply list_eq. intros k. destruct (decide (k < length a)%nat); [apply Hk; lia|].
  rewrite !lookup_ge_None_2 by lia. done.
Qed.

(** ** Streams over a file *)

(** What [pread] is documented to answer for a file of these contents: some of the bytes from the offset on, at least one unless the
    offset is at the end or none is asked for. *)
Definition serves_file (pread : Z -> Z -> Z -> option (list Z)) (fd : Z) (f : list Z) : Prop := forall n k, 0 <= n -> Z.of_nat k < 2 ^ 63 ->
  exists l, pread fd n (Z.of_nat k) = Some l /\ l `prefix_of` drop k f /\ Z.of_nat (length l) <= n /\ (l = [] -> n = 0 \/ (length f <= k)%nat).

Section File.
Context {pread : Z -> Z -> Z -> option (list Z)} {fd : Z} {f : list Z}.
Hypothesis served : serves_file pread fd f.
Hypothesis opened : 0 <= fd.
Hypothesis small : Z.of_nat (length f) < 2 ^ 63.

Local Abbreviation at_ k e := (mkStream fd (Z.of_nat k) e).

Lemma get_file k e c : (k <= length f)%nat ->
  get pread (at_ k e) c = match f !! k with Some x => (at_ (k + 1) e, Some x) | None => (at_ k OutOfBounds, c) end.
Proof.
  intros Hk. unfold get. cbn [m_fd m_pos m_err]. rewrite (proj2 (Z.eqb_neq _ _)) by lia.
  destruct (served 1 k ltac:(lia) ltac:(lia)) as (l & -> & [r E] & Hl & Hn). destruct l as [|x [|y l]]; [| |cbn in Hl; lia].
  - specialize (Hn eq_refl) as [?|Hn]; [lia|]. by rewrite lookup_ge_None_2.
  - assert (f !! k = Some x) as -> by (rewrite <- (Nat.add_0_r k), <- lookup_drop, E; done). f_equal. f_equal.
    rewrite wrapU_id by (unfold inU; lia). f_equal. lia.
Qed.

Lemma lookup_drop_cons k x l : drop k f = x :: l -> f !! k = Some x /\ drop (k + 1) f = l /\ (k < length f)%nat.
Proof.
  intros E. assert (f !! k = Some x) as L by (rewrite <- (Nat.add_0_r k), <- lookup_drop, E; done).
  split; [done|]. split; [by rewrite <- drop_drop, E | by eapply lookup_lt_Some].
Qed.

(** [getline] into a vector that takes every character: the characters before the next delimiter, and the position behind it; or what
    is left of the file, and a stream that has gone bad. *)
Lemma getline_loop_file room delim l : (forall n, room n = Success) -> forall fuel k c vec i, drop k f = l -> (k <= length f)%nat -> (length l < fuel)%nat -> 0 <= i ->
  Z.of_nat (length l) + i < 2 ^ 64 ->
  getline_loop pread room fuel (at_ k Success) c vec delim i = Some (Done
    (let (w, r) := span (fun x => negb (x =? delim)) l in
     (match r with [] => at_ (length f) OutOfBounds | _ => at_ (k + length w + 1) Success end, vec ++ w, i + Z.of_nat (length w)))).
Proof.
  intros Hroom. induction l as [|x l IH]; intros [|fuel] k c vec i E Hk Hf Hi Hb; [cbn in Hf; lia| |cbn in Hf; lia|]; cbn [getline_loop].
  - assert (k = length f) as -> by (apply (f_equal length) in E; rewrite length_drop in E; cbn in E; lia).
    rewrite get_file, lookup_ge_None_2 by lia. cbn. rewrite app_nil_r. do 4 f_equal. lia.
  - destruct (lookup_drop_cons _ _ _ E) as (L & E' & Hlt). rewrite get_file, L by lia. unfold ok at 1. cbn [m_err stored span].
    rewrite bool_decide_true by done. cbn [negb]. destruct (Z.eqb_spec x delim) as [->|N]; cbn [negb].
    + cbn. rewrite app_nil_r. do 4 f_equal; [f_equal; lia|lia].
    + rewrite Hroom. cbn [length] in Hf, Hb. rewrite wrapU_id by (unfold inU; lia).
      rewrite IH by (done || lia). destruct (span _ l) as [w [|y r]]; cbn [length]; rewrite <- app_assoc;
        repeat (f_equal; try lia).
Qed.

Lemma getline_file room delim fuel k : (forall n, room n = Success) -> (k <= length f)%nat -> (length f < fuel)%nat ->
  getline pread room fuel (at_ k Success) [] delim = Some (Done
    (let (w, r) := span (fun x => negb (x =? delim)) (drop k f) in
     (match r with [] => at_ (length f) OutOfBounds | _ => at_ (k + length w + 1) Success end, w, Z.of_nat (length w)))).
Proof.
  intros Hroom Hk Hf. unfold getline. pose proof (length_drop f k).
  rewrite (getline_loop_file room delim (drop k f)) by (done || lia). done.
Qed.

(** A stream that has gone bad: [getline] gives no line, although the position moves on. *)
Lemma getline_bad room delim fuel k e vec : (k <= length f)%nat -> e <> Success -> exists s,
  getline pread room (S fuel) (at_ k e) vec delim = Some (Done (s, vec, 0)) /\ m_err s <> Success.
Proof.
  intros Hk He. unfold getline. cbn [getline_loop]. rewrite get_file by done.
  destruct (f !! k); unfold ok; cbn [m_err]; rewrite bool_decide_false by done; eexists; (split; [done|]); cbn; done.
Qed.

(** [read] puts short reads together: it stores the bytes asked for, or what is left of the file. *)
Lemma read_loop_file fuel : forall k n e acc, (k <= length f)%nat -> (n < fuel)%nat -> (0 < n)%nat -> Z.of_nat n < 2 ^ 64 ->
  read_loop pread fuel (at_ k e) (Z.of_nat n) acc = Some
    (if (k + n <=? length f)%nat then at_ (k + n) Success else at_ (length f) OutOfBounds, acc ++ take n (drop k f)).
Proof.
  induction fuel as [|fuel IH]; intros k n e acc Hk Hf Hn Hb; [lia|]. cbn [read_loop m_fd m_pos].
  destruct (served (Z.min (Z.of_nat n) SSIZE_MAX) k ltac:(unfold SSIZE_MAX; lia) ltac:(lia)) as (l & -> & [r E] & Hl & He).
  pose proof (length_drop f k) as Hd. rewrite E, length_app in Hd.
  destruct l as [|x l].
  - specialize (He eq_refl) as [He|He]; [unfold SSIZE_MAX in *; lia|]. rewrite drop_ge, take_nil, app_nil_r by lia.
    rewrite (proj2 (Nat.leb_gt _ _)) by lia. unfold with_err. cbn. replace k with (length f) by lia. done.
  - set (a := x :: l) in *. assert (0 < length a)%nat by (unfold a; cbn; lia).
    rewrite !wrapU_id by (unfold inU; lia).
    replace (Z.of_nat k + Z.of_nat (length a)) with (Z.of_nat (k + length a)) by lia.
    replace (Z.of_nat n - Z.of_nat (length a)) with (Z.of_nat (n - length a)) by lia.
    assert (take n (drop k f) = a ++ take (n - length a) (drop (k + length a) f)) as Et.
    { rewrite <- drop_drop, E, drop_app_length, take_app. f_equal. apply take_ge. lia. }
    rewrite Et. destruct (Z.ltb_spec 0 (Z.of_nat (n - length a))) as [L|L].
    + rewrite IH by lia. rewrite <- app_assoc. replace (k + length a + (n - length a))%nat with (k + n)%nat by lia. done.
    + replace (n - length a)%nat with 0%nat by lia. cbn [take]. rewrite app_nil_r.
      rewrite (proj2 (Nat.leb_le _ _)) by lia. by replace (k + length a)%nat with (k + n)%nat by lia.
Qed.

Lemma skip_blanks_file b : forall fuel k c x l, forallb isspace b = true -> isspace x = false -> drop k f = b ++ x :: l -> (length b < fuel)%nat ->
  skip_blanks pread fuel (at_ k Success) c = Some (Done (at_ (k + length b + 1) Success, Some x)).
Proof.
  induction b as [|y b IH]; intros [|fuel] k c x l Hb Hx E Hf; cbn [length] in *; try lia; cbn [skip_blanks app] in *;
    destruct (lookup_drop_cons _ _ _ E) as (L & E' & Hlt); rewrite get_file, L by lia; unfold ok; cbn [m_err stored];
    rewrite bool_decide_true by done; cbn [negb].
  - rewrite Hx. repeat (f_equal; try lia).
  - cbn in Hb. apply andb_true_iff in Hb as [-> Hb]. rewrite (IH _ _ _ x l) by (done || lia). repeat (f_equal; try lia).
Qed.

Lemma read_digits_file w : forall fuel k x l seen, drop k f = w ++ l -> (k <= length f)%nat -> forallb numeral (x :: w) = true ->
  match l with [] => True | t :: _ => numeral t = false end -> (length w + 1 < fuel)%nat ->
  read_digits pread fuel (at_ k Success) (Some x) (u64 (value seen)) = Some (Done
    (match l with [] => at_ (length f) OutOfBounds | _ => at_ (k + length w) Success end, u64 (value (seen ++ x :: w)))).
Proof.
  induction w as [|y w IH]; intros [|fuel] k x l seen E Hk Hw Hl Hf; cbn [length] in *; try lia; cbn [read_digits stored app] in *;
    cbn [forallb] in Hw; apply andb_true_iff in Hw as [Hx Hw]; fold (numeral x); rewrite Hx;
    (assert ((if isdigit x then u64 (u64 (u64 (value seen) * 10) + (x - 48)) else u64 (value seen)) = u64 (value (seen ++ [x]))) as ->;
      [rewrite value_app; unfold digit_step; destruct (isdigit x); [apply digit_wrap | done]|]).
  - destruct l as [|t l].
    + assert (k = length f) as -> by (apply (f_equal length) in E; rewrite length_drop in E; cbn in E; lia).
      rewrite get_file, lookup_ge_None_2 by lia. unfold ok. cbn [m_err]. by rewrite bool_decide_false.
    + destruct (lookup_drop_cons _ _ _ E) as (L & E' & Hlt). rewrite get_file, L by lia. unfold ok. cbn [m_err]. rewrite bool_decide_true by done.
      destruct fuel as [|fuel]; [lia|]. cbn [read_digits stored]. fold (numeral t). rewrite Hl. unfold unget. cbn [m_pos m_fd m_err].
      rewrite (proj2 (Z.eqb_neq _ _)) by lia. repeat (f_equal; try lia).
  - destruct (lookup_drop_cons _ _ _ E) as (L & E' & Hlt). rewrite get_file, L by lia. unfold ok. cbn [m_err]. rewrite bool_decide_true by done.
    rewrite (IH _ _ _ l) by (done || lia). rewrite <- app_assoc. destruct l; repeat (f_equal; try lia).
Qed.

(** A number behind blanks is read from a stream modulo 2^64, up to the first character that is no part of it; at the end of the file the
    stream goes bad, although the number has been read. *)
Lemma read_u64_file fuel k b w l : drop k f = b ++ w ++ l -> forallb isspace b = true -> forallb numeral w = true -> w <> [] ->
  match l with [] => True | t :: _ => numeral t = false end -> (length f + 1 < fuel)%nat ->
  read_u64 pread fuel (at_ k Success) = Some (Done
    (match l with [] => at_ (length f) OutOfBounds | _ => at_ (k + length b + length w) Success end, u64 (value w))).
Proof.
  intros E Hb Hw Hn Hl Hf. destruct w as [|x w]; [done|]. pose proof (f_equal length E) as Len.
  rewrite length_drop, !length_app in Len. cbn [length] in Len.
  unfold read_u64. assert (isspace x = false) by (cbn in Hw; apply andb_true_iff in Hw as [? _]; by apply numeral_range).
  rewrite (skip_blanks_file b fuel k None x (w ++ l)) by (done || lia).
  change (read_digits pread fuel (at_ (k + length b + 1) Success) (Some x) 0)
    with (read_digits pread fuel (at_ (k + length b + 1) Success) (Some x) (u64 (value []))).
  assert (drop (k + length b + 1) f = w ++ l).
  { rewrite <- !drop_drop, E, drop_app_length. done. }
  rewrite (read_digits_file w _ _ _ l) by (done || lia). cbn [app length]. destruct l; repeat (f_equal; try lia).
Qed.

End File.

(** ** What the parsers promise *)

(** C25: [elParse] reads the two numbers of a line modulo 2^64 when they are written in digits, with underscores at will, and separated by one
    character that is neither digit nor underscore and by blanks behind it, and when such a character follows the second; so it reads back the decimal
    digits of any two 64-bit numbers.  But when behind the separator and blanks comes another such character, as in 17;;42, the destination is
    [UINT64_MAX], whatever follows. *)
Theorem el_parse_reads {A} b1 b2 t1 t2 rest (efunc : Z -> Z -> outcome A) :
  forallb isspace b1 = true -> forallb isspace b2 = true -> numeral t1 = false -> numeral t2 = false ->
  (forall d1 d2, forallb numeral d1 = true -> forallb numeral d2 = true -> existsb isdigit d1 = true -> existsb isdigit d2 = true ->
    elParse (b1 ++ d1 ++ t1 :: b2 ++ d2 ++ t2 :: rest) efunc = efunc (u64 (value d1)) (u64 (value d2))) /\
  (forall src dst, inU 64 src -> inU 64 dst ->
    elParse (b1 ++ decimal 20 src ++ t1 :: b2 ++ decimal 20 dst ++ t2 :: rest) efunc = efunc src dst) /\
  (forall d1 u, forallb numeral d1 = true -> existsb isdigit d1 = true -> numeral u = false -> isspace u = false ->
    elParse (b1 ++ d1 ++ t1 :: b2 ++ u :: rest) efunc = efunc (u64 (value d1)) UINT64_MAX).
Proof.
  intros Hb1 Hb2 Ht1 Ht2.
  assert (forall d1 d2, forallb numeral d1 = true -> forallb numeral d2 = true -> existsb isdigit d1 = true -> existsb isdigit d2 = true ->
    elParse (b1 ++ d1 ++ t1 :: b2 ++ d2 ++ t2 :: rest) efunc = efunc (u64 (value d1)) (u64 (value d2))) as reads.
  { intros d1 d2 ? ? ? ?. unfold elParse. do 2 (rewrite elGetOne_number by done; cbn [bindo]). done. }
  split; [done|]. split.
  2: { intros d1 u N1 D1 Nu Su. unfold elParse. rewrite elGetOne_number by done. cbn [bindo]. rewrite elGetOne_run.
       rewrite (span_all isspace) by done. cbn [snd span]. rewrite Nu. done. }
  intros src dst Hs Hd. unfold inU in *.
  rewrite reads by (apply decimal_numeral || (apply decimal_nonempty; lia)). rewrite !decimal_value by lia. by rewrite !wrapU_id.
Qed.

(** The line "17 4_2" and its newline, "17 42", and "17 ;42". *)
Lemma el_parse_reads_witness : elParse [49; 55; 32; 52; 95; 50; 10] (fun s d => Done (s, d)) = Done (17, 42) /\
  elParse (decimal 20 17 ++ 32 :: decimal 20 42 ++ [10]) (fun s d => Done (s, d)) = Done (17, 42) /\
  elParse [49; 55; 32; 59; 52; 50; 10] (fun s d => Done (s, d)) = Done (17, UINT64_MAX).
Proof.
  destruct (el_parse_reads [] [] 32 10 [] (fun s d => Done (s, d)) eq_refl eq_refl eq_refl eq_refl) as (R & D & _).
  destruct (el_parse_reads [] [] 32 10 [52; 50; 10] (fun s d => Done (s, d)) eq_refl eq_refl eq_refl eq_refl) as (_ & _ & U). split_and!.
  - by apply (R [49; 55] [52; 95; 50]).
  - apply (D 17 42); unfold inU; lia.
  - by apply (U [49; 55] 59).
Defined.

(** A line with one number takes its destination from the line behind it, and a string that ends behind its only number is read past
    its terminator. *)
Lemma el_parse_overruns : elParse [55; newline; 56; 32; 57; newline] (fun s d => Done (s, d)) = Done (7, 8) /\
  elParse [55; 0] (fun s d => Done (s, d)) = Failed (Undefined "read past the end of a buffer").
Proof. split; reflexivity. Qed.

(** A line is split at its delimiters into fields that joined give the line again.  When the vector has a token for each of them, they
    are its first tokens, except that the last one goes to the last token, and the tokens between stay null views; when there
    are more fields than tokens, the first ones are kept.  Lines written from fields without delimiters are split into these fields. *)
Theorem split_line_fields line delim t rest n : forallb line_char line = true -> line_char t = false ->
  let fs := fields delim [] line in
  join delim fs = line /\
  ((length fs <= n)%nat -> splitLine Success (line ++ t :: rest) delim (Z.of_nat n) =
    Done ((Some <$> removelast fs) ++ repeat None (n - length fs) ++ [Some (List.last fs [])])) /\
  ((n < length fs)%nat -> splitLine Success (line ++ t :: rest) delim (Z.of_nat n) = Done (Some <$> take n fs)) /\
  (forall gs, gs <> [] -> Forall (fun g => forallb (fun c => negb (c =? delim)) g = true) gs -> line = join delim gs -> length gs = n ->
    splitLine Success (line ++ t :: rest) delim (Z.of_nat n) = Done (Some <$> gs)).
Proof.
  intros Hl Ht fs.
  assert (splitLine Success (line ++ t :: rest) delim (Z.of_nat n) = Done (views (repeat None n) fs)) as split.
  { unfold splitLine. rewrite bool_decide_true, Nat2Z.id by done.
    pose proof (split_loop_spec delim t rest line Ht [] (repeat None n) [] Hl ltac:(cbn; lia) eq_refl) as S.
    rewrite repeat_length in S. exact S. }
  destruct (fields_cons delim line []) as (f & g & Ef). fold fs in Ef.
  assert ((length fs <= n)%nat -> views (repeat None n) fs = (Some <$> removelast fs) ++ repeat None (n - length fs) ++ [Some (List.last fs [])]) as fit.
  { intros Hn. unfold views. rewrite repeat_length, (proj2 (Nat.ltb_ge _ _)) by done.
    assert (length (removelast fs) = length fs - 1)%nat as Lr by (rewrite removelast_firstn_len, length_take; lia).
    assert (0 < length fs)%nat by (rewrite Ef; cbn; lia).
    rewrite insert_app_r_alt by (rewrite length_fmap; lia). f_equal. rewrite length_fmap, Lr.
    replace (repeat None n) with (repeat (@None (list Z)) (length fs - 1) ++ repeat None (n - length fs) ++ [None])
      by (change [None] with (repeat (@None (list Z)) 1); rewrite <- !repeat_app; f_equal; lia).
    rewrite drop_app_length' by (by rewrite repeat_length).
    rewrite insert_app_r_alt by (rewrite repeat_length; lia). rewrite repeat_length. by replace (n - 1 - (length fs - 1) - (n - length fs))%nat with 0%nat by lia. }
  split; [apply (join_fields delim line [])|]. rewrite split. split; [intros Hn; by rewrite fit|].
  split; [intros Hn; unfold views; rewrite repeat_length; by rewrite (proj2 (Nat.ltb_lt _ _))|].
  intros gs Hn Hgs -> Hlen. unfold fs in *. rewrite fields_join in * by done. rewrite fit by lia. rewrite Hlen, Nat.sub_diag. cbn [repeat app].
  change [Some (List.last gs [])] with (Some <$> [List.last gs []]). by rewrite <- fmap_app, <- app_removelast_last.
Qed.

(** "a,,b" in three tokens and in two and five. *)
Lemma split_line_fields_witness : splitLine Success [97; 44; 44; 98; 10] 44 3 = Done [Some [97]; Some []; Some [98]] /\
  splitLine Success [97; 44; 44; 98; 10] 44 2 = Done [Some [97]; Some []] /\
  splitLine Success [97; 44; 44; 98; 10] 44 5 = Done [Some [97]; Some []; None; None; Some [98]].
Proof.
  pose proof (fun n => split_line_fields [97; 44; 44; 98] 44 newline [] n eq_refl eq_refl) as S.
  split; [destruct (S 3%nat) as (_ & _ & _ & R); apply (R [[97]; []; [98]]); [discriminate | repeat constructor | reflexivity | reflexivity]|].
  split; [apply (S 2%nat); vm_compute; lia | apply (S 5%nat); vm_compute; lia].
Defined.

End TextInput.
