(* ===== verification/FileImport.v ===== *)
(** * Loading a text file in parallel

    [include/pando-lib-galois/import/wmd_graph_importer.hpp]: a file is cut into segments of about the same size, each segment is moved
    to the beginnings of lines, and the threads read and parse the lines of their segments. *)

From S2P Require Import Prelude TextInput.

Module FileImport.
Import TextInput.

Section Import.
Context (pread : Z -> Z -> Z -> option (list Z)) (open_ : list Z -> Z) (fstat : Z -> option Z) (room : nat -> Status).
(** Whether [new char[n]] gets memory. *)
Context (new_ : Z -> bool).

(** src/include/pando-lib-galois/import/wmd_graph_importer.hpp:558-580 [getFileReadOffset] *)
Definition getFileReadOffset (fuel : nat) (file : ifstream) (segment numSegments : Z) : option (outcome (ifstream * Z)) :=
  let fileSize := size fstat file in
  if segment =? 0 then Some (Done (file, 0)) else
  if segment >=? numSegments then Some (Done (file, fileSize)) else
  let bytesPerSegment := fileSize / numSegments in
  let offset := u64 (segment * bytesPerSegment) in
  let file := seekg file (u64 (offset - 1)) in
  let* (file, line, _) := getline pread room fuel file [] newline in
  let offset := if bool_decide (line = []) then offset else u64 (offset + Z.of_nat (length line)) in
  Some (Done (file, offset)).

(** [strchr(s, c)]: the characters behind the first [c] before the terminator, if there is one. *)
Fixpoint strchr (s : list Z) (c : Z) : outcome (option (list Z)) :=
  match s with
  | [] => Failed (Undefined "read past the end of a buffer")
  | x :: s => if x =? c then Done (Some s) else if x =? 0 then Done None else strchr s c
  end.

Definition hash_sign : Z := 35.

Section Parse.
(** The parser of a line: it is given the characters from the beginning of the line to the end of the segment, and changes a state. *)
Context {St : Type} (parseFunc : list Z -> St -> outcome (Status * St)).

(** src/include/pando-lib-galois/import/wmd_graph_importer.hpp:630-642 [loadGraphFilePerThread]: the loop over the lines of a segment *)
Fixpoint lines_loop (fuel : nat) (currentLine : list Z) (st : St) : option (outcome (Status * St)) :=
  match fuel with
  | O => None
  | S fuel =>
      match currentLine with
      | [] => Some (Done (Success, st))
      | c :: _ =>
          let* nextLine := Some (strchr currentLine newline) in
          match nextLine with
          | None => Some (Failed (Aborted "assert"))
          | Some nextLine =>
              if c =? hash_sign then lines_loop fuel nextLine st else
              let* (err, st) := Some (parseFunc currentLine st) in
              if bool_decide (err = Success) then lines_loop fuel nextLine st else Some (Done (err, st))
          end
      end
  end.

(** src/include/pando-lib-galois/import/wmd_graph_importer.hpp:610-644 [loadGraphFilePerThread]: the segments from number [cur] on, [n]
    of them; the characters of the buffer that [read] did not fill are indeterminate, and left out *)
Fixpoint segments_loop (fuel n : nat) (cur : Z) (numThreads threadID numSegments : Z) (graphFile : ifstream) (st : St)
  : option (outcome (Status * ifstream * St)) :=
  match n with
  | O => Some (Done (Success, graphFile, st))
  | S n =>
      let segmentID := u64 (threadID + u64 (cur * numThreads)) in
      let* (graphFile, start) := getFileReadOffset fuel graphFile segmentID numSegments in
      let* (graphFile, end_) := getFileReadOffset fuel graphFile (u64 (segmentID + 1)) numSegments in
      if start =? end_ then segments_loop fuel n (cur + 1) numThreads threadID numSegments graphFile st else
      let graphFile := seekg graphFile start in
      let segmentLength := u64 (end_ - start) in
      if negb (new_ segmentLength) then Some (Failed (Aborted "std::bad_alloc")) else
      match read pread fuel graphFile segmentLength with
      | None => None
      | Some (graphFile, segmentBuffer) =>
          let* (err, st) := lines_loop fuel segmentBuffer st in
          if bool_decide (err = Success) then segments_loop fuel n (cur + 1) numThreads threadID numSegments graphFile st
          else Some (Done (err, graphFile, st))
      end
  end.

(** src/include/pando-lib-galois/import/wmd_graph_importer.hpp:598-647 [loadGraphFilePerThread]; the stream is part of the answer, so
    that it shows whether the file has been closed *)
Definition loadGraphFilePerThread (fuel : nat) (filename : list Z) (segmentsPerThread numThreads threadID : Z) (st : St)
  : option (outcome (Status * ifstream * St)) :=
  let (err, graphFile) := open_array open_ ifstream0 filename in
  if negb (bool_decide (err = Success)) then Some (Done (err, graphFile, st)) else
  let numSegments := u64 (numThreads * segmentsPerThread) in
  let* (err, graphFile, st) := segments_loop fuel (Z.to_nat segmentsPerThread) 0 numThreads threadID numSegments graphFile st in
  if bool_decide (err = Success) then Some (Done (Success, close graphFile, st)) else Some (Done (err, graphFile, st)).

End Parse.
End Import.

(** ** Lines *)

(** The lines of a text, each with its newline. *)
Fixpoint lines (l : list Z) : list (list Z) :=
  match l with
  | [] => []
  | c :: l => if c =? newline then [c] :: lines l else match lines l with [] => [[c]] | x :: xs => (c :: x) :: xs end
  end.

Lemma concat_lines l : concat (lines l) = l.
Proof.
  induction l as [|c l IH]; [done|]. cbn. destruct (c =? newline); [cbn; by rewrite IH|].
  destruct (lines l); cbn in *; by rewrite <- IH.
Qed.

Definition ends_line (l : list Z) : Prop := l = [] \/ exists l', l = l' ++ [newline].

Lemma lines_app l l' : ends_line l -> lines (l ++ l') = lines l ++ lines l'.
Proof.
  intros [->|[k ->]]; [done|]. rewrite <- app_assoc. cbn [app].
  induction k as [|c k IH]; cbn; [done|]. destruct (c =? newline); [by rewrite IH|].
  rewrite IH. destruct (lines (k ++ [newline])) eqn:E; [|done].
  apply (f_equal (@concat Z)) in E. rewrite concat_lines in E. by destruct k.
Qed.

Definition not_newline (c : Z) : bool := negb (c =? newline).

(** A line with its newline. *)
Definition is_line (l : list Z) : Prop := exists w, l = w ++ [newline] /\ forallb not_newline w = true.

Lemma lines_are_lines l : ends_line l -> Forall is_line (lines l).
Proof.
  intros [->|[k ->]]; [constructor|]. induction k as [|c k IH]; cbn.
  - constructor; [by exists []|constructor].
  - destruct (Z.eqb_spec c newline) as [->|N]; [constructor; [by exists [] | done]|].
    destruct (lines (k ++ [newline])) as [|x xs] eqn:E.
    { apply (f_equal (@concat Z)) in E. rewrite concat_lines in E. by destruct k. }
    apply Forall_cons in IH as [(w & -> & Hw) IH]. constructor; [|done].
    exists (c :: w). split; [done|]. cbn. rewrite Hw, andb_true_r. unfold not_newline. apply negb_true_iff. by apply Z.eqb_neq.
Qed.

(** ** Cutting a text at the beginnings of lines *)

(** Where a line of the text begins, or the text ends. *)
Definition boundary (f : list Z) (p : nat) : Prop := p = 0%nat \/ (f !! (p - 1)%nat = Some newline /\ (0 < p)%nat).

(** The first beginning of a line at an offset or behind it. *)
Definition cut (f : list Z) (k : nat) : nat :=
  match k with
  | O => O
  | S j => (k + length (fst (span not_newline (drop j f))))%nat
  end.

Lemma ends_line_last f : ends_line f -> f <> [] -> f !! (length f - 1)%nat = Some newline /\ (0 < length f)%nat.
Proof.
  intros [->|[k ->]] N; [done|]. rewrite length_app. cbn [length]. rewrite Nat.add_sub. rewrite lookup_app_r, Nat.sub_diag by lia. split; [done|lia].
Qed.

Lemma cut_spec f k : ends_line f -> (k <= length f)%nat ->
  (k <= cut f k <= length f)%nat /\ boundary f (cut f k) /\ (forall q, (k <= q < cut f k)%nat -> ~ boundary f q).
Proof.
  intros Hf Hk. destruct k as [|j]; [split; [cbn; lia|]; split; [by left|]; cbn; lia|].
  assert (f <> []) as N by (intros ->; cbn in Hk; lia). destruct (ends_line_last f Hf N) as [Hlast _].
  unfold cut. set (p := not_newline).
  pose proof (span_app p (drop j f)) as E. pose proof (span_prefix p (drop j f)) as P.
  destruct (span p (drop j f)) as [w r] eqn:Sp. cbn [fst snd] in *.
  assert (forall i c, w !! i = Some c -> c <> newline /\ f !! (j + i)%nat = Some c) as Hw.
  { intros i c L. split.
    - rewrite forallb_forall in P. specialize (P c (proj1 (list_elem_of_In _ _) (list_elem_of_lookup_2 _ _ _ L))). unfold p, not_newline in P.
      apply negb_true_iff, Z.eqb_neq in P. done.
    - rewrite <- lookup_drop, <- E. by apply lookup_app_l_Some. }
  assert (exists r', r = newline :: r') as [r' ->].
  { destruct r as [|x r'].
    - rewrite app_nil_r in E. destruct (Hw (length f - 1 - j)%nat newline) as [? _]; [|done].
      rewrite E, lookup_drop. rewrite <- Hlast. f_equal. lia.
    - exists r'. f_equal. assert (p x = false) as Hx; [|apply negb_false_iff, Z.eqb_eq in Hx; done].
      revert Sp. clear. revert w. induction (drop j f) as [|c l IH]; cbn; intros w Sp; [done|].
      destruct (p c) eqn:Ec; [|by simplify_eq]. destruct (span p l) as [a b]. simplify_eq. by eapply IH. }
  assert (f !! (j + length w)%nat = Some newline) as Hn.
  { rewrite <- lookup_drop, <- E. by rewrite lookup_app_r, Nat.sub_diag by lia. }
  assert (j + length w < length f)%nat by (eapply lookup_lt_Some; done).
  split; [lia|]. split; [right; split; [|lia]; rewrite <- Hn; f_equal; lia|].
  intros q Hq [->|[L _]]; [lia|]. destruct (lookup_lt_is_Some_2 w (q - 1 - j)%nat ltac:(lia)) as [c Lc].
  destruct (Hw _ _ Lc) as [Nc Lf]. replace (j + (q - 1 - j))%nat with (q - 1)%nat in Lf by lia. congruence.
Qed.

Lemma cut_mono f k k' : ends_line f -> (k <= k' <= length f)%nat -> (cut f k <= cut f k')%nat.
Proof.
  intros Hf Hk. destruct (cut_spec f k Hf ltac:(lia)) as (A & B & C), (cut_spec f k' Hf ltac:(lia)) as (A' & B' & C').
  destruct (decide (cut f k <= cut f k')%nat); [done|]. destruct (C (cut f k')); [lia|done].
Qed.

Lemma boundary_ends f p : (p <= length f)%nat -> boundary f p -> ends_line (take p f).
Proof.
  intros Hp [->|[L H0]]; [by left|]. right. exists (take (p - 1) f). replace p with (S (p - 1)) at 1 by lia. by apply take_S_r.
Qed.

Lemma boundary_drop_ends f p : ends_line f -> ends_line (drop p f).
Proof.
  intros [->|[k ->]]; [left; apply drop_nil|]. destruct (decide (p <= length k)%nat).
  - right. exists (drop p k). by rewrite drop_app_le.
  - left. apply drop_ge. rewrite length_app. cbn. lia.
Qed.

(** The text between two beginnings of lines. *)
Definition between (f : list Z) (a b : nat) : list Z := take (b - a) (drop a f).

Lemma lines_between f a b : (a <= b <= length f)%nat -> boundary f a -> boundary f b ->
  lines (take b f) = lines (take a f) ++ lines (between f a b) /\ ends_line (between f a b).
Proof.
  intros H Ba Bb. unfold between. pose proof (boundary_ends f a ltac:(lia) Ba) as Ea. pose proof (boundary_ends f b ltac:(lia) Bb) as Eb.
  rewrite take_drop_commute. replace (a + (b - a))%nat with b by lia. split.
  - rewrite <- lines_app by done. f_equal. rewrite <- (take_drop a (take b f)) at 1. rewrite take_take. by rewrite Nat.min_l by lia.
  - by apply boundary_drop_ends.
Qed.

Lemma span_rest_newline f k : ends_line f -> (k < length f)%nat -> exists r, snd (span not_newline (drop k f)) = newline :: r.
Proof.
  intros Hf Hk. pose proof (cut_spec f (S k) Hf Hk) as (A & [B|[L _]] & _); [unfold cut in B; lia|].
  unfold cut in L, A. pose proof (span_app not_newline (drop k f)) as E. destruct (span not_newline (drop k f)) as [w r] eqn:Sp. cbn [fst snd] in *.
  assert (r !! 0%nat = Some newline) as R.
  { replace 0%nat with (length w - length w)%nat by lia. rewrite <- (lookup_app_r w) by lia. rewrite E, lookup_drop. rewrite <- L. f_equal. lia. }
  destruct r as [|x r]; [done|]. cbn in R. injection R as ->. eauto.
Qed.

(** ** Segments *)

(** Each segment belongs to one turn of one thread. *)
Lemma segment_numbers numThreads segments :
  (seq 0 numThreads ≫= fun t => (fun cur => t + cur * numThreads)%nat <$> seq 0 segments) ≡ₚ seq 0 (numThreads * segments).
Proof.
  apply NoDup_Permutation; [|apply NoDup_seq|].
  - apply NoDup_bind; [|intros t Ht; apply elem_of_seq in Ht; apply NoDup_fmap_2_strong; [|apply NoDup_seq]|apply NoDup_seq].
    + intros t1 t2 y H1 H2 (c1 & -> & _)%list_elem_of_fmap (c2 & E & _)%list_elem_of_fmap. apply elem_of_seq in H1, H2.
      assert (c1 = c2) as -> by nia. lia.
    + intros c1 c2 _ _ E. apply Nat.mul_cancel_r with (p := numThreads); lia.
  - intros x. rewrite elem_of_seq, list_elem_of_bind. setoid_rewrite list_elem_of_fmap. setoid_rewrite elem_of_seq. split.
    + intros (t & (c & -> & Hc) & Ht). nia.
    + intros Hx. exists (x mod numThreads)%nat. assert (0 < numThreads)%nat by nia.
      pose proof (Nat.mod_upper_bound x numThreads ltac:(lia)). pose proof (Nat.div_mod_eq x numThreads).
      split; [|lia]. exists (x / numThreads)%nat. split; [lia|]. split; [lia|]. cbn. apply Nat.Div0.div_lt_upper_bound. lia.
Qed.

Section Load.
Context {pread : Z -> Z -> Z -> option (list Z)} {open_ : list Z -> Z} {fstat : Z -> option Z} {room : nat -> Status} {new_ : Z -> bool}.
Context {fd : Z} {f : list Z}.
Hypothesis served : serves_file pread fd f.
Hypothesis opened : 0 <= fd.
Hypothesis small : Z.of_nat (length f) < 2 ^ 63.
Hypothesis sized : fstat fd = Some (Z.of_nat (length f)).
Hypothesis roomy : forall n, room n = Success.
Hypothesis terminated : ends_line f.

(** Where segment [seg] of [n] begins. *)
Definition segment_start (n seg : nat) : nat := if (n <=? seg)%nat then length f else cut f (seg * (length f / n)).

Lemma segment_product n seg : (seg < n)%nat -> (seg * (length f / n) <= length f)%nat.
Proof. intros H. pose proof (Nat.Div0.mul_div_le (length f) n). nia. Qed.

Lemma segment_start_spec n seg : (0 < n)%nat -> boundary f (segment_start n seg) /\ (segment_start n seg <= length f)%nat /\
  (segment_start n seg <= segment_start n (S seg))%nat.
Proof.
  intros Hn. unfold segment_start. destruct (Nat.leb_spec n seg) as [L|L].
  - rewrite (proj2 (Nat.leb_le n (S seg))) by lia. split; [|lia].
    destruct (decide (f = [])) as [->|N]; [by left|]. right. by apply ends_line_last.
  - pose proof (segment_product n seg L) as P. destruct (cut_spec f _ terminated P) as (A & B & _). split; [done|]. split; [lia|].
    destruct (Nat.leb_spec n (S seg)) as [L'|L']; [lia|]. pose proof (segment_product n (S seg) L') as P'. apply cut_mono; [done|nia].
Qed.

Lemma getFileReadOffset_spec fuel pos n seg : (0 < n <= length f)%nat -> (length f < fuel)%nat -> exists pos',
  getFileReadOffset pread fstat room fuel (mkStream fd pos Success) (Z.of_nat seg) (Z.of_nat n) =
    Some (Done (mkStream fd pos' Success, Z.of_nat (segment_start n seg))).
Proof.
  intros Hn Hf. unfold getFileReadOffset, segment_start. unfold size. cbn [m_fd]. rewrite sized, wrapU_id by (unfold inU; lia).
  destruct seg as [|seg']; [exists pos; cbn; rewrite (proj2 (Nat.leb_gt _ _)) by lia; done|].
  set (seg := S seg') in *. rewrite (proj2 (Z.eqb_neq _ _)) by lia. destruct (Nat.leb_spec n seg) as [L|L].
  { exists pos. by rewrite (proj2 (Z.geb_le _ _)) by lia. }
  assert ((Z.of_nat seg >=? Z.of_nat n) = false) as -> by lia.
  pose proof (segment_product n seg L) as P. rewrite <- Nat2Z.inj_div, <- Nat2Z.inj_mul.
  assert (0 < length f / n)%nat by (apply Nat.div_str_pos; lia). destruct (seg * (length f / n))%nat as [|j] eqn:Ej; [nia|].
  rewrite (wrapU_id 64 (Z.of_nat (S j))), (wrapU_id 64 (Z.of_nat (S j) - 1)) by (unfold inU; lia). unfold seekg. cbn [m_fd m_err].
  replace (Z.of_nat (S j) - 1) with (Z.of_nat j) by lia. rewrite (getline_file (f := f)) by (done || lia).
  change (fun x : Z => negb (x =? newline)) with not_newline.
  destruct (span_rest_newline f j terminated ltac:(lia)) as [r Er]. pose proof (cut_spec f (S j) terminated ltac:(lia)) as (A & _).
  unfold cut in *. destruct (span not_newline (drop j f)) as [w r0]. cbn [snd] in Er. subst r0. cbn [fst bindr] in *. eexists. repeat f_equal.
  destruct (bool_decide_reflect (w = [])) as [->|Nw]; [cbn; lia|]. rewrite wrapU_id by (unfold inU; lia). lia.
Qed.

(** The lines of segment [seg] of [n]. *)
Definition segment_lines (n seg : nat) : list (list Z) := lines (between f (segment_start n seg) (segment_start n (S seg))).

Lemma segments_lines n m : (0 < n)%nat -> concat (segment_lines n <$> seq 0 m) = lines (take (segment_start n m) f).
Proof.
  intros Hn. induction m as [|m IH].
  - unfold segment_start. rewrite (proj2 (Nat.leb_gt _ _)) by lia. cbn. by rewrite take_0.
  - rewrite seq_S, fmap_app, concat_app, IH. cbn. rewrite app_nil_r.
    destruct (segment_start_spec n m Hn) as (B & Le & Mono), (segment_start_spec n (S m) Hn) as (B' & Le' & _).
    symmetry. apply lines_between; [lia|done|done].
Qed.

Lemma all_segments n : (0 < n)%nat -> concat (segment_lines n <$> seq 0 n) = lines f.
Proof.
  intros Hn. rewrite segments_lines by done. unfold segment_start. rewrite Nat.leb_refl. by rewrite firstn_all.
Qed.

(** Lines that are no comments. *)
Definition content (l : list Z) : bool := match l with c :: _ => negb (c =? hash_sign) | [] => true end.

Section Parser.
Context {St : Type} (parseFunc : list Z -> St -> outcome (Status * St)).
(** What the parser promises: [I ls st] when it has made [st] from the lines [ls]; [bad ls] are the errors it may answer in the course of them. *)
Context (I : list (list Z) -> St -> Prop) (bad : list (list Z) -> Status -> Prop).
Hypothesis bad_more : forall ls ls' err, bad ls err -> bad (ls ++ ls') err.

Definition outcome_ok (ls : list (list Z)) (err : Status) (st : St) : Prop := (err = Success -> I ls st) /\ (err <> Success -> bad ls err).

(** The parser keeps the promise for every line of the file that is no comment, whatever comes behind the line. *)
Hypothesis parsed : forall ls l rest st, l ∈ lines f -> content l = true -> I ls st ->
  exists err st', parseFunc (l ++ rest) st = Done (err, st') /\ outcome_ok (ls ++ [l]) err st'.
Hypothesis no_terminator : Forall (fun c => c <> 0) f.

Lemma strchr_line l rest : is_line l -> Forall (fun c => c <> 0) l -> strchr (l ++ rest) newline = Done (Some rest).
Proof.
  intros (w & -> & Hw) H0. induction w as [|c w IH]; [done|]. cbn in *. apply andb_true_iff in Hw as [Hc Hw]. apply Forall_cons in H0 as [Nc H0].
  unfold not_newline in Hc. apply negb_true_iff in Hc. rewrite Hc, (proj2 (Z.eqb_neq c 0)) by done. apply IH; done.
Qed.

Lemma lines_loop_spec fuel ls : forall pre st, Forall is_line ls -> (forall l, l ∈ ls -> l ∈ lines f) -> (length (concat ls) < fuel)%nat -> I pre st ->
  exists err st', lines_loop parseFunc fuel (concat ls) st = Some (Done (err, st')) /\ outcome_ok (pre ++ filter (fun l => content l = true) ls) err st'.
Proof.
  revert fuel. induction ls as [|l ls IH]; intros [|fuel] pre st Hl Hin Hf HI; [cbn in Hf; lia| |lia|].
  { exists Success, st. split; [done|]. rewrite app_nil_r. done. }
  apply Forall_cons in Hl as [Hl Hls]. assert (l ∈ lines f) as Lf by (apply Hin; constructor).
  assert (Forall (fun c => c <> 0) l) as L0.
  { apply Forall_forall. intros c Hc. eapply Forall_forall in no_terminator; [done|]. rewrite <- (concat_lines f). 
    apply list_elem_of_In, in_concat. exists l. split; by apply list_elem_of_In. }
  pose proof (strchr_line l (concat ls) Hl L0) as St'. cbn [concat] in *. rewrite length_app in Hf.
  destruct Hl as (w & -> & Hw). rewrite length_app in Hf. cbn [length] in Hf.
  assert (forall pre st, I pre st -> exists err st', lines_loop parseFunc fuel (concat ls) st = Some (Done (err, st')) /\
    outcome_ok (pre ++ filter (fun l => content l = true) ls) err st') as IH'.
  { intros pre' st' HI'. apply IH; [done| |lia|done]. intros l' ?. apply Hin. by constructor. }
  cbn [lines_loop]. destruct ((w ++ [newline]) ++ concat ls) as [|c t] eqn:Et; [by destruct w|]. rewrite St'. cbn [bindr].
  assert (content (w ++ [newline]) = negb (c =? hash_sign)) as Ec by (destruct w; cbn in Et; simplify_eq; done).
  rewrite filter_cons. destruct (c =? hash_sign); cbn [negb] in Ec.
  - rewrite Ec. rewrite decide_False by done. by apply IH'.
  - rewrite Ec, decide_True by done. rewrite <- Et. destruct (parsed pre _ (concat ls) st Lf Ec HI) as (err & st' & -> & Ok). cbn [bindr].
    destruct (bool_decide_reflect (err = Success)) as [->|N].
    + destruct (IH' (pre ++ [w ++ [newline]]) st') as (err & st2 & -> & Ok2); [by apply Ok|]. exists err, st2. split; [done|].
      by rewrite <- app_assoc in Ok2.
    + exists err, st'. split; [done|]. split; [done|]. intros _. rewrite (app_assoc pre [_] _ : pre ++ _ :: _ = _). by apply bad_more, Ok.
Qed.

(** The lines of the segments of a thread. *)
Definition thread_lines (segmentsPerThread numThreads threadID : nat) : list (list Z) :=
  concat (segment_lines (numThreads * segmentsPerThread) <$> ((fun cur => threadID + cur * numThreads)%nat <$> seq 0 segmentsPerThread)).

Lemma segment_lines_in n seg l : (0 < n)%nat -> (seg < n)%nat -> l ∈ segment_lines n seg -> l ∈ lines f.
Proof.
  intros Hn Hs Hl. rewrite <- (all_segments n Hn). apply list_elem_of_In, in_concat. exists (segment_lines n seg).
  split; [|by apply list_elem_of_In]. apply list_elem_of_In, list_elem_of_fmap. exists seg. split; [done|]. apply elem_of_seq. lia.
Qed.

Lemma between_lines n seg : (0 < n)%nat -> concat (segment_lines n seg) = between f (segment_start n seg) (segment_start n (S seg)) /\
  Forall is_line (segment_lines n seg).
Proof.
  intros Hn. split; [apply concat_lines|]. apply lines_are_lines.
  destruct (segment_start_spec n seg Hn) as (B & Le & Mono), (segment_start_spec n (S seg) Hn) as (B' & Le' & _).
  apply lines_between; [lia|done|done].
Qed.

Hypothesis allocated : forall n, n <= Z.of_nat (length f) -> new_ n = true.

Lemma segments_loop_spec fuel numThreads segments t : (length f < fuel)%nat -> (0 < numThreads * segments <= length f)%nat -> (t < numThreads)%nat ->
  forall n cur pos pre st, (cur + n = segments)%nat -> I pre st -> exists err pos' st',
  segments_loop pread fstat room new_ parseFunc fuel n (Z.of_nat cur) (Z.of_nat numThreads) (Z.of_nat t) (Z.of_nat (numThreads * segments))
    (mkStream fd pos Success) st = Some (Done (err, mkStream fd pos' Success, st')) /\
  outcome_ok (pre ++ filter (fun l => content l = true)
    (concat (segment_lines (numThreads * segments) <$> ((fun cur => t + cur * numThreads)%nat <$> seq cur n)))) err st'.
Proof.
  intros Hf Hs Ht. set (N := (numThreads * segments)%nat) in *.
  induction n as [|n IH]; intros cur pos pre st Hc HI; [exists Success, pos, st; split; [done|]; by rewrite app_nil_r|]. cbn [segments_loop].
  set (seg := (t + cur * numThreads)%nat). assert (seg < N)%nat as Hseg by (unfold seg, N; nia).
  assert (Z.of_nat cur * Z.of_nat numThreads = Z.of_nat (cur * numThreads)) as -> by lia.
  assert (cur * numThreads <= seg)%nat by (unfold seg; lia).
  rewrite (wrapU_id 64 (Z.of_nat (cur * numThreads))) by (unfold inU; lia).
  replace (Z.of_nat t + Z.of_nat (cur * numThreads)) with (Z.of_nat seg) by (unfold seg; lia).
  rewrite (wrapU_id 64 (Z.of_nat seg)) by (unfold inU; lia). replace (Z.of_nat seg + 1) with (Z.of_nat (S seg)) by lia.
  rewrite (wrapU_id 64 (Z.of_nat (S seg))) by (unfold inU; lia).
  destruct (getFileReadOffset_spec fuel pos N seg Hs Hf) as [pos1 ->]. cbn [bindr].
  destruct (getFileReadOffset_spec fuel pos1 N (S seg) Hs Hf) as [pos2 ->]. cbn [bindr].
  destruct (segment_start_spec N seg ltac:(lia)) as (B & Le & Mono), (segment_start_spec N (S seg) ltac:(lia)) as (_ & Le' & _).
  destruct (between_lines N seg ltac:(lia)) as [Eb Fl].
  replace (Z.of_nat cur + 1) with (Z.of_nat (S cur)) by lia.
  change (seq cur (S n)) with (cur :: seq (S cur) n). rewrite !fmap_cons. cbn [concat]. fold seg.
  rewrite filter_app, app_assoc.
  destruct (Z.eqb_spec (Z.of_nat (segment_start N seg)) (Z.of_nat (segment_start N (S seg)))) as [E|E].
  - assert (segment_lines N seg = []) as ->; [|cbn; rewrite app_nil_r; apply IH; [lia|done]].
    unfold segment_lines, between. replace (segment_start N (S seg) - segment_start N seg)%nat with 0%nat by lia. by rewrite take_0.
  - unfold seekg. cbn [m_fd m_err]. rewrite wrapU_id by (unfold inU; lia).
    replace (Z.of_nat (segment_start N (S seg)) - Z.of_nat (segment_start N seg)) with (Z.of_nat (segment_start N (S seg) - segment_start N seg)) by lia.
    rewrite allocated by lia. cbn [negb]. unfold read. cbn [m_fd]. rewrite (proj2 (Z.eqb_neq _ _)) by lia.
    rewrite (read_loop_file (f := f)) by (done || lia).
    rewrite (proj2 (Nat.leb_le _ _)) by lia. cbn [app]. fold (between f (segment_start N seg) (segment_start N (S seg))). rewrite <- Eb.
    destruct (lines_loop_spec fuel (segment_lines N seg) pre st) as (err & st' & -> & Ok); [done| | |done|].
    + intros l Hl. eapply segment_lines_in; [|apply Hseg|done]. lia.
    + rewrite Eb. unfold between. rewrite length_take, length_drop. lia.
    + cbn [bindr]. destruct (bool_decide_reflect (err = Success)) as [->|Ne].
      * apply IH; [lia|]. by apply Ok.
      * eexists err, _, st'. split; [done|]. split; [done|]. intros _. by apply bad_more, Ok.
Qed.

Lemma thread_lines_all numThreads segments : (0 < numThreads * segments)%nat ->
  concat (thread_lines segments numThreads <$> seq 0 numThreads) ≡ₚ lines f.
Proof.
  intros Hn. rewrite <- (all_segments _ Hn).
  rewrite <- (segment_numbers numThreads segments). unfold thread_lines. clear.
  induction (seq 0 numThreads) as [|t l IH]; [done|]. cbn. rewrite fmap_app, concat_app. by rewrite IH.
Qed.

End Parser.
End Load.

(** ** Files that are not as the import expects them *)

(** A text is its complete lines and what is behind the last newline. *)
Lemma complete_lines f : exists g w, f = g ++ w /\ ends_line g /\ forallb not_newline w = true /\ (w = [] -> ends_line f).
Proof.
  induction f as [|c f (g & w & -> & Hg & Hw & _)] using rev_ind; [exists [], []; split_and!; try done; by left|].
  destruct (Z.eqb_spec c newline) as [->|N].
  - exists ((g ++ w) ++ [newline]), []. rewrite app_nil_r. split_and!; [done|right; by eexists|done|right; by eexists].
  - exists g, (w ++ [c]). rewrite app_assoc. split_and!; [done|done| |intros E; by destruct w]. rewrite forallb_app, Hw. cbn. unfold not_newline.
    by rewrite (proj2 (Z.eqb_neq _ _)).
Qed.

Lemma span_complete l w : forallb not_newline l = true -> span not_newline (l ++ newline :: w) = (l, newline :: w).
Proof. intros H. by apply span_all. Qed.
Lemma span_none l : forallb not_newline l = true -> span not_newline l = (l, []).
Proof. induction l as [|c l IH]; [done|]. cbn. intros [-> H]%andb_true_iff. by rewrite IH. Qed.

Lemma cut_complete g w k : ends_line g -> (k <= length g)%nat -> cut (g ++ w) k = cut g k.
Proof.
  intros Hg Hk. destruct k as [|j]; [done|]. unfold cut. do 2 f_equal. rewrite drop_app_le by lia.
  destruct (span_rest_newline g j Hg ltac:(lia)) as [r Er]. pose proof (span_app not_newline (drop j g)) as E.
  pose proof (span_prefix not_newline (drop j g)) as P. destruct (span not_newline (drop j g)) as [u v]. cbn [fst snd] in *. subst v.
  rewrite <- E, <- app_assoc. cbn [app]. by rewrite span_complete.
Qed.
Lemma cut_tail g w k : forallb not_newline w = true -> (length g < k <= length (g ++ w))%nat -> cut (g ++ w) k = S (length (g ++ w)).
Proof.
  intros Hw Hk. destruct k as [|j]; [lia|]. unfold cut. rewrite drop_app_ge by lia. rewrite span_none.
  - cbn [fst]. rewrite length_drop. rewrite length_app in *. lia.
  - rewrite forallb_forall in *. intros x Hx. apply Hw. rewrite <- (take_drop (j - length g) w). apply in_app_iff. by right.
Qed.

Lemma strchr_span l : Forall (fun c => c <> 0) l -> strchr l newline =
  match snd (span not_newline l) with [] => Failed (Undefined "read past the end of a buffer") | _ :: r => Done (Some r) end.
Proof.
  induction 1 as [|c l Hc _ IH]; [done|]. cbn. unfold not_newline at 1. destruct (c =? newline); [done|].
  rewrite (proj2 (Z.eqb_neq _ _)) by done. cbn [negb]. rewrite IH. by destruct (span not_newline l).
Qed.

Lemma ends_line_app l r : ends_line (l ++ newline :: r) <-> ends_line r.
Proof.
  split.
  - intros [E|[k E]]; [by destruct l|]. destruct r as [|x r _] using rev_ind; [by left|right].
    change (newline :: r ++ [x]) with ((newline :: r) ++ [x]) in E. rewrite app_assoc in E. apply app_inj_tail in E as [_ ->]. by exists r.
  - intros [->|[k ->]]; right; [by exists l|]. exists (l ++ newline :: k). by rewrite <- app_assoc.
Qed.

Section Departures.
Context {pread : Z -> Z -> Z -> option (list Z)} {open_ : list Z -> Z} {fstat : Z -> option Z} {room : nat -> Status} {new_ : Z -> bool}.
Context {fd : Z} {f : list Z}.
Hypothesis served : serves_file pread fd f.
Hypothesis opened : 0 <= fd.
Hypothesis small : Z.of_nat (length f) < 2 ^ 63.
Hypothesis sized : fstat fd = Some (Z.of_nat (length f)).
Hypothesis roomy : forall n, room n = Success.
Hypothesis no_terminator : Forall (fun c => c <> 0) f.
(** Memory: for what is no larger than the file with one more byte; nothing of half the address space. *)
Hypothesis allocated : forall n, n <= Z.of_nat (length f) + 1 -> new_ n = true.
Hypothesis refused : forall n, 2 ^ 63 <= n -> new_ n = false.

Context {St : Type} (parseFunc : list Z -> St -> outcome (Status * St)).
Hypothesis answers : forall l st, exists err st', parseFunc l st = Done (err, st').

(** An error that the parser answers. *)
Definition parser_error (err : Status) : Prop := err <> Success /\ exists l st st', parseFunc l st = Done (err, st').

Lemma lines_loop_any fuel : forall buf st, Forall (fun c => c <> 0) buf -> (length buf < fuel)%nat ->
  (ends_line buf /\ exists st', lines_loop parseFunc fuel buf st = Some (Done (Success, st'))) \/
  (exists err st', lines_loop parseFunc fuel buf st = Some (Done (err, st')) /\ parser_error err) \/
  ~ ends_line buf /\ lines_loop parseFunc fuel buf st = Some (Failed (Undefined "read past the end of a buffer")).
Proof.
  induction fuel as [|fuel IH]; intros buf st H0 Hf; [lia|]. cbn [lines_loop].
  destruct buf as [|c t] eqn:Eb; [left; split; [by left|by eexists]|]. rewrite <- Eb in *.
  rewrite strchr_span by done. pose proof (span_app not_newline buf) as E. pose proof (span_prefix not_newline buf) as P.
  destruct (span not_newline buf) as [u v] eqn:Sp. cbn [fst snd] in *. destruct v as [|x v]; cbn [bindr].
  - right. right. split; [|done]. rewrite app_nil_r in E. rewrite <- E. intros [->|[k ->]]; [by subst|]. by rewrite forallb_app, andb_comm in P.
  - assert (x = newline) as ->.
    { revert Sp. clear. revert u. induction buf as [|c l IH]; cbn; intros u Sp; [done|]. destruct (not_newline c) eqn:Ec.
      - destruct (span not_newline l) as [a b]. simplify_eq. by eapply IH.
      - injection Sp as <- <- <-. unfold not_newline in Ec. by apply negb_false_iff, Z.eqb_eq in Ec. }
    assert (H0' : Forall (fun c => c <> 0) v) by (rewrite <- E in H0; apply Forall_app in H0 as [_ H0]; by apply Forall_cons in H0 as [_ H0]).
    assert (Hl : (length v < fuel)%nat) by (apply (f_equal length) in E; rewrite length_app in E; cbn in E; lia).
    assert (EL : ends_line buf <-> ends_line v) by (rewrite <- E; apply ends_line_app). rewrite EL.
    destruct (c =? hash_sign); [by apply IH|]. destruct (answers buf st) as (err & st' & Ep). rewrite Ep. cbn [bindr].
    destruct (bool_decide_reflect (err = Success)) as [->|N]; [by apply IH|]. right. left. exists err, st'. split; [done|]. split; [done|]. by exists buf, st, st'.
Qed.

Section Tail.
(** The file: complete lines, and something behind the last newline. *)
Context {g w : list Z}.
Hypothesis parts : f = g ++ w.
Hypothesis lines_g : ends_line g.
Hypothesis no_newline : forallb not_newline w = true.
Hypothesis tail_there : w <> [].

Lemma tail_shorter : (length g < length f)%nat.
Proof. rewrite parts, length_app. destruct w; [done|cbn; lia]. Qed.

Lemma getFileReadOffset_tail fuel pos n seg : (0 < n <= length f)%nat -> (length f < fuel)%nat ->
  exists pos', getFileReadOffset pread fstat room fuel (mkStream fd pos Success) (Z.of_nat seg) (Z.of_nat n) = Some (Done
    (if decide (n <= seg)%nat then (mkStream fd pos' Success, Z.of_nat (length f)) else
     if decide (seg * (length f / n) <= length g)%nat then (mkStream fd pos' Success, Z.of_nat (cut g (seg * (length f / n))))
     else (mkStream fd pos' OutOfBounds, Z.of_nat (length f) + 1))).
Proof.
  intros Hn Hf. unfold getFileReadOffset. unfold size. cbn [m_fd]. rewrite sized, wrapU_id by (unfold inU; lia). pose proof tail_shorter as Hg.
  destruct seg as [|seg']; [exists pos; rewrite decide_False, decide_True by lia; done|].
  set (seg := S seg') in *. rewrite (proj2 (Z.eqb_neq _ _)) by lia. destruct (decide (n <= seg)%nat) as [L|L].
  { exists pos. by rewrite (proj2 (Z.geb_le _ _)) by lia. }
  assert ((Z.of_nat seg >=? Z.of_nat n) = false) as -> by lia.
  pose proof (segment_product (f := f) n seg ltac:(lia)) as P. rewrite <- Nat2Z.inj_div, <- Nat2Z.inj_mul.
  assert (0 < length f / n)%nat by (apply Nat.div_str_pos; lia). destruct (seg * (length f / n))%nat as [|j] eqn:Ej; [nia|].
  rewrite (wrapU_id 64 (Z.of_nat (S j))), (wrapU_id 64 (Z.of_nat (S j) - 1)) by (unfold inU; lia). unfold seekg. cbn [m_fd m_err].
  replace (Z.of_nat (S j) - 1) with (Z.of_nat j) by lia. rewrite (getline_file (f := f)) by (done || lia).
  change (fun x : Z => negb (x =? newline)) with not_newline. destruct (decide (S j <= length g)%nat) as [C|C].
  - rewrite <- (cut_complete g w) by done. rewrite <- parts. unfold cut.
    pose proof (cut_complete g w (S j) lines_g C) as E. pose proof (cut_spec g (S j) lines_g C) as (A & _). rewrite <- E, <- parts in A. unfold cut in A.
    assert (exists v, snd (span not_newline (drop j f)) = newline :: v) as [v Ev].
    { destruct (span_rest_newline g j lines_g ltac:(lia)) as [r Er]. rewrite parts, drop_app_le by lia.
      pose proof (span_app not_newline (drop j g)) as Ea. pose proof (span_prefix not_newline (drop j g)) as Pa.
      destruct (span not_newline (drop j g)) as [u v]. cbn [fst snd] in *. subst v. rewrite <- Ea, <- app_assoc. cbn [app]. rewrite span_complete by done. by exists (r ++ w). }
    destruct (span not_newline (drop j f)) as [u v']. cbn [fst snd] in *. subst v'. cbn [bindr]. eexists. repeat f_equal.
    destruct (bool_decide_reflect (u = [])) as [->|Nw]; [cbn; lia|]. rewrite wrapU_id by (unfold inU; lia). lia.
  - assert (Es : span not_newline (drop j f) = (drop j f, [])).
    { apply span_none. rewrite parts, drop_app_ge by lia. rewrite forallb_forall in *. intros x Hx. apply no_newline.
      rewrite <- (take_drop (j - length g) w). apply in_app_iff. by right. }
    rewrite Es. cbn [bindr]. eexists. repeat f_equal. rewrite bool_decide_false.
    + rewrite length_drop, wrapU_id by (unfold inU; lia). lia.
    + intros E. apply (f_equal length) in E. rewrite length_drop in E. cbn in E. lia.
Qed.

(** Behind the end of the file the stream is bad, and the offset of a segment is not moved to the beginning of a line. *)
Lemma getFileReadOffset_bad fuel pos n seg : (0 < n <= length f)%nat -> (0 < fuel)%nat -> (0 < seg)%nat ->
  exists s b, getFileReadOffset pread fstat room fuel (mkStream fd pos OutOfBounds) (Z.of_nat seg) (Z.of_nat n) = Some (Done (s, Z.of_nat b)) /\ (b <= length f)%nat.
Proof.
  intros Hn Hf Hs. unfold getFileReadOffset. unfold size. cbn [m_fd]. rewrite sized, wrapU_id by (unfold inU; lia).
  rewrite (proj2 (Z.eqb_neq _ _)) by lia. destruct (Z.geb_spec (Z.of_nat seg) (Z.of_nat n)) as [L|L]; [by do 2 eexists|].
  pose proof (segment_product (f := f) n seg ltac:(lia)) as P. rewrite <- Nat2Z.inj_div, <- Nat2Z.inj_mul.
  assert (0 < length f / n)%nat by (apply Nat.div_str_pos; lia). destruct (seg * (length f / n))%nat as [|j] eqn:Ej; [nia|].
  rewrite (wrapU_id 64 (Z.of_nat (S j))), (wrapU_id 64 (Z.of_nat (S j) - 1)) by (unfold inU; lia). unfold seekg. cbn [m_fd m_err].
  replace (Z.of_nat (S j) - 1) with (Z.of_nat j) by lia. destruct fuel as [|fuel]; [lia|].
  destruct (getline_bad served opened small room newline fuel j OutOfBounds [] ltac:(lia) ltac:(done)) as (s & -> & _). cbn [bindr].
  rewrite bool_decide_true by done. exists s, (S j). done.
Qed.

(** One way for a thread to stop: a read past the end of a buffer, or no memory for a segment of more than 2^63 bytes. *)
Definition stops {A} (r : option (outcome A)) : Prop :=
  r = Some (Failed (Undefined "read past the end of a buffer")) \/ r = Some (Failed (Aborted "std::bad_alloc")).

Lemma segments_loop_tail fuel numThreads segments t : (length f + 1 < fuel)%nat -> (0 < numThreads * segments <= length f)%nat -> (t < numThreads)%nat ->
  (t = numThreads - 1)%nat -> forall n cur pos st, (cur + n = segments)%nat -> (0 < n)%nat ->
  let r := segments_loop pread fstat room new_ parseFunc fuel n (Z.of_nat cur) (Z.of_nat numThreads) (Z.of_nat t) (Z.of_nat (numThreads * segments))
    (mkStream fd pos Success) st in
  stops r \/ exists err file st', r = Some (Done (err, file, st')) /\ parser_error err.
Proof.
  intros Hf Hs Ht Et. set (N := (numThreads * segments)%nat) in *. pose proof tail_shorter as Hg.
  induction n as [|n IH]; intros cur pos st Hc Hn; [lia|]. cbn [segments_loop].
  set (seg := (t + cur * numThreads)%nat). assert (seg < N)%nat as Hseg by (unfold seg, N; nia).
  assert (Z.of_nat cur * Z.of_nat numThreads = Z.of_nat (cur * numThreads)) as -> by lia.
  assert (cur * numThreads <= seg)%nat by (unfold seg; lia).
  rewrite (wrapU_id 64 (Z.of_nat (cur * numThreads))) by (unfold inU; lia).
  replace (Z.of_nat t + Z.of_nat (cur * numThreads)) with (Z.of_nat seg) by (unfold seg; lia).
  rewrite (wrapU_id 64 (Z.of_nat seg)) by (unfold inU; lia). replace (Z.of_nat seg + 1) with (Z.of_nat (S seg)) by lia.
  rewrite (wrapU_id 64 (Z.of_nat (S seg))) by (unfold inU; lia).
  destruct (getFileReadOffset_tail fuel pos N seg Hs ltac:(lia)) as [pos1 ->]. rewrite decide_False by lia.
  set (k := (seg * (length f / N))%nat). destruct (decide (k <= length g)%nat) as [Ck|Ck]; cbn [bindr].
  2: { destruct (getFileReadOffset_bad fuel pos1 N (S seg) Hs ltac:(lia) ltac:(lia)) as (s & b & -> & Hb). cbn [bindr].
       rewrite (proj2 (Z.eqb_neq _ _)) by lia. rewrite refused; [left; by right|].
       replace (Z.of_nat b - (Z.of_nat (length f) + 1)) with ((2 ^ 64 + Z.of_nat b - (Z.of_nat (length f) + 1)) + (-1) * 2 ^ 64) by lia.
       unfold wrapU. rewrite Z.mod_add, Z.mod_small by lia. lia. }
  destruct (cut_spec g k lines_g Ck) as (Ca & Ba & _). set (a := cut g k) in *.
  (* The segment up to [b], which is behind the last newline, is read past its end. *)
  assert (Last : forall b s, (length f <= b <= length f + 1)%nat -> m_fd s = fd ->
    let r := (let graphFile := seekg s (Z.of_nat a) in let segmentLength := u64 (Z.of_nat b - Z.of_nat a) in
      if negb (new_ segmentLength) then Some (Failed (Aborted "std::bad_alloc")) else
      match read pread fuel graphFile segmentLength with
      | None => None
      | Some (graphFile, segmentBuffer) =>
          let* (err, st) := lines_loop parseFunc fuel segmentBuffer st in
          if bool_decide (err = Success) then segments_loop pread fstat room new_ parseFunc fuel n (Z.of_nat cur + 1) (Z.of_nat numThreads) (Z.of_nat t) (Z.of_nat N) graphFile st
          else Some (Done (err, graphFile, st))
      end) in stops r \/ exists err file st', r = Some (Done (err, file, st')) /\ parser_error err).
  { intros b [fd' p e] Hb Efd. cbn in Efd. subst fd'. cbv zeta. unfold seekg. cbn [m_fd m_err].
    replace (Z.of_nat b - Z.of_nat a) with (Z.of_nat (b - a)) by lia. rewrite wrapU_id by (unfold inU; lia). rewrite allocated by lia. cbn [negb].
    unfold read. cbn [m_fd]. rewrite (proj2 (Z.eqb_neq _ _)) by lia.
    rewrite (read_loop_file (f := f)) by (done || lia). cbn [app].
    assert (E : take (b - a) (drop a f) = drop a g ++ w) by (rewrite parts, drop_app_le, take_ge by (rewrite ?length_app, ?length_drop; rewrite parts, length_app in Hb; lia); done).
    rewrite E. destruct (lines_loop_any fuel (drop a g ++ w) st) as [[El _]|[(err & st' & -> & Ne & Pe)|[_ ->]]].
    - rewrite parts in no_terminator. apply Forall_app in no_terminator as [T1 T2]. apply Forall_app. split; [by apply Forall_drop|done].
    - rewrite length_app, length_drop. rewrite parts, length_app in Hf. lia.
    - exfalso. destruct El as [El|[x El]]; [by destruct (drop a g), w|]. destruct w as [|y w' _] using rev_ind; [done|].
      rewrite app_assoc in El. apply app_inj_tail in El as [_ ->]. by rewrite forallb_app, andb_comm in no_newline.
    - right. cbn [bindr]. rewrite bool_decide_false by done. by eexists _, _, _.
    - left. by left. }
  destruct (getFileReadOffset_tail fuel pos1 N (S seg) Hs ltac:(lia)) as [pos2 ->]. destruct (decide (N <= S seg)%nat) as [Ln|Ln]; cbn [bindr].
  { rewrite (proj2 (Z.eqb_neq _ _)) by lia. by apply (Last (length f)); [lia|]. }
  set (k' := (S seg * (length f / N))%nat). destruct (decide (k' <= length g)%nat) as [Ck'|Ck']; cbn [bindr].
  2: { rewrite (proj2 (Z.eqb_neq _ _)) by lia. replace (Z.of_nat (length f) + 1) with (Z.of_nat (S (length f))) by lia. by apply Last; [lia|]. }
  destruct (cut_spec g k' lines_g Ck') as (Cb & Bb & _). pose proof (cut_mono g k k' lines_g ltac:(unfold k, k'; nia)) as Mono. fold a in Mono.
  set (b := cut g k') in *. assert (Next : (0 < n)%nat). { destruct n; [|lia]. exfalso. assert (cur = segments - 1)%nat by lia. unfold seg, N in *. nia. }
  replace (Z.of_nat cur + 1) with (Z.of_nat (S cur)) by lia.
  destruct (Z.eqb_spec (Z.of_nat a) (Z.of_nat b)) as [E|E]; [by apply IH; [lia|]|].
  unfold seekg. cbn [m_fd m_err]. replace (Z.of_nat b - Z.of_nat a) with (Z.of_nat (b - a)) by lia. rewrite wrapU_id by (unfold inU; lia).
  rewrite allocated by lia. cbn [negb]. unfold read. cbn [m_fd]. rewrite (proj2 (Z.eqb_neq _ _)) by lia. rewrite (read_loop_file (f := f)) by (done || lia).
  rewrite (proj2 (Nat.leb_le _ _)) by lia. cbn [app].
  destruct (lines_loop_any fuel (take (b - a) (drop a f)) st) as [[_ [st' ->]]|[(err & st' & -> & Ne & Pe)|[El _]]].
  - by apply Forall_take, Forall_drop.
  - rewrite length_take, length_drop. lia.
  - cbn [bindr]. rewrite bool_decide_true by done. apply IH; lia.
  - right. cbn [bindr]. rewrite bool_decide_false by done. by eexists _, _, _.
  - destruct El. rewrite parts, drop_app_le, take_app_le by (rewrite ?length_drop; lia). exact (proj2 (lines_between g a b ltac:(lia) Ba Bb)).
Qed.
End Tail.

(** With fewer bytes than segments every segment but the first starts with a read in front of the file, which [pread] refuses: nothing is
    stored in the character, and the character is used. *)
Lemma getFileReadOffset_short fuel pos seg n : (length f < n)%nat -> (0 < seg < n)%nat -> pread fd 1 (2 ^ 64 - 1) = None ->
  getFileReadOffset pread fstat room (S fuel) (mkStream fd pos Success) (Z.of_nat seg) (Z.of_nat n) = Some (Failed (Undefined "indeterminate character")).
Proof.
  intros Hl Hs Hp. unfold getFileReadOffset. unfold size. cbn [m_fd]. rewrite sized, wrapU_id by (unfold inU; lia).
  rewrite (proj2 (Z.eqb_neq _ _)) by lia. assert ((Z.of_nat seg >=? Z.of_nat n) = false) as -> by lia.
  rewrite Z.div_small, Z.mul_0_r by lia. change (u64 0) with 0. change (u64 (0 - 1)) with (2 ^ 64 - 1).
  unfold getline, seekg. cbn [getline_loop]. unfold get. cbn [m_fd m_pos m_err]. rewrite (proj2 (Z.eqb_neq _ _)) by lia. rewrite Hp.
  unfold ok. cbn [m_err]. rewrite bool_decide_true by done. done.
Qed.

Lemma segments_loop_short fuel n pos numThreads segments t st : (0 < fuel)%nat -> (length f < numThreads * segments)%nat -> (2 <= numThreads * segments)%nat ->
  (t < numThreads)%nat -> Z.of_nat (numThreads * segments) < 2 ^ 64 -> pread fd 1 (2 ^ 64 - 1) = None ->
  segments_loop pread fstat room new_ parseFunc fuel (S n) 0 (Z.of_nat numThreads) (Z.of_nat t) (Z.of_nat (numThreads * segments))
    (mkStream fd pos Success) st = Some (Failed (Undefined "indeterminate character")).
Proof.
  intros Hf Hl H2 Ht Hb Hp. cbn [segments_loop]. rewrite Z.mul_0_l. change (u64 0) with 0. rewrite Z.add_0_r.
  assert (0 < segments)%nat by (destruct segments; lia). assert (t < numThreads * segments)%nat by (clear - Ht H; nia). rewrite (wrapU_id 64 (Z.of_nat t)) by (unfold inU; lia).
  replace (Z.of_nat t + 1) with (Z.of_nat (S t)) by lia. rewrite (wrapU_id 64 (Z.of_nat (S t))) by (unfold inU; lia).
  destruct fuel as [|fuel]; [lia|]. destruct t as [|t].
  - change (getFileReadOffset pread fstat room (S fuel) (mkStream fd pos Success) (Z.of_nat 0) (Z.of_nat (numThreads * segments)))
      with (Some (Done (mkStream fd pos Success, 0))). cbn [bindr]. by rewrite getFileReadOffset_short by (done || lia).
  - by rewrite getFileReadOffset_short by (done || lia).
Qed.
End Departures.

(** Reading does not change what file a stream is at. *)
Lemma getline_loop_fd pread room fuel : forall s c vec delim i s' l k,
  getline_loop pread room fuel s c vec delim i = Some (Done (s', l, k)) -> m_fd s' = m_fd s.
Proof.
  induction fuel as [|fuel IH]; intros s c vec delim i s' l k E; [done|]. cbn [getline_loop] in E.
  assert (G : m_fd (fst (get pread s c)) = m_fd s) by (unfold get; destruct (m_fd s =? -1); [done|]; by destruct (pread _ _ _) as [[]|]).
  destruct (get pread s c) as [s1 c1]. cbn [fst] in G. destruct (negb (ok s1)); [by injection E as <- <- <-|].
  destruct (stored c1) as [x|]; [|done]. destruct (x =? delim); [by injection E as <- <- <-|].
  destruct (room (length vec)); apply IH in E; rewrite E; done.
Qed.
Lemma read_loop_fd pread fuel : forall s n acc s' l, read_loop pread fuel s n acc = Some (s', l) -> m_fd s' = m_fd s.
Proof.
  induction fuel as [|fuel IH]; intros s n acc s' l E; [done|]. cbn [read_loop] in E.
  destruct (pread _ _ _) as [[|x r]|]; [by injection E as <- <-| |by injection E as <- <-].
  destruct (0 <? _); [by apply IH in E|by injection E as <- <-].
Qed.
Lemma getFileReadOffset_fd pread fstat room fuel s seg n s' off : getFileReadOffset pread fstat room fuel s seg n = Some (Done (s', off)) -> m_fd s' = m_fd s.
Proof.
  unfold getFileReadOffset. destruct (seg =? 0); [by intros [= <- <-]|]. destruct (seg >=? n); [by intros [= <- <-]|].
  unfold getline. destruct (getline_loop _ _ _ _ _ _ _ _) as [[[[s1 l] k]|]|] eqn:E; [|done|done]. intros [= <- _]. by apply getline_loop_fd in E.
Qed.
Lemma segments_loop_fd {St} pread fstat room new_ (parseFunc : list Z -> St -> outcome (Status * St)) fuel numThreads t N n : forall cur s st err s' st',
  segments_loop pread fstat room new_ parseFunc fuel n cur numThreads t N s st = Some (Done (err, s', st')) -> m_fd s' = m_fd s.
Proof.
  induction n as [|n IH]; intros cur s st err s' st' E; [by injection E as <- <- <-|]. cbn [segments_loop] in E.
  destruct (getFileReadOffset _ _ _ _ s _ _) as [[[s1 a]|]|] eqn:E1; [|done|done]. apply getFileReadOffset_fd in E1. cbn [bindr] in E.
  destruct (getFileReadOffset _ _ _ _ s1 _ _) as [[[s2 b]|]|] eqn:E2; [|done|done]. apply getFileReadOffset_fd in E2. cbn [bindr] in E.
  rewrite <- E1, <- E2. destruct (a =? b); [by apply IH in E|]. destruct (negb _); [done|].
  destruct (read _ _ _ _) as [[s3 l]|] eqn:E3; [|done].
  assert (m_fd s3 = m_fd s2) as <-.
  { unfold read in E3. destruct (m_fd (seekg s2 a) =? -1); [by injection E3 as <- <-|]. by apply read_loop_fd in E3. }
  destruct (lines_loop _ _ _ _) as [[[e st1]|]|]; [|done|done]. cbn [bindr] in E.
  destruct (bool_decide _); [by apply IH in E|]. by injection E as <- <- <-.
Qed.

(** ** Import of a file *)

(** A file name, the descriptor it is opened with, and the contents of the file. *)
Record text_file (pread : Z -> Z -> Z -> option (list Z)) (open_ : list Z -> Z) (fstat : Z -> option Z) (filename : list Z) (f : list Z) : Prop := mkTextFile {
  file_name : StringView_array filename <> [];
  file_opened : 0 <= open_ (StringView_array filename);
  file_served : serves_file pread (open_ (StringView_array filename)) f;
  file_size : fstat (open_ (StringView_array filename)) = Some (Z.of_nat (length f));
  file_small : Z.of_nat (length f) < 2 ^ 63
}.

(** A file whose last line ends in a newline, with no terminator in it and at least a byte per segment, is read completely: the lines
    that are no comments are shared out among the threads, each line exactly once, wherever the segments are cut and however short the
    reads of the system are; and a thread's call parses its share, line by line, and answers Success with the file closed, or passes on
    the error of the parser. *)
Theorem import_reads_lines {St} pread open_ fstat room new_ filename f (parseFunc : list Z -> St -> outcome (Status * St))
    (I : list (list Z) -> St -> Prop) (bad : list (list Z) -> Status -> Prop) (numThreads segments fuel : nat) :
  text_file pread open_ fstat filename f -> (forall n, room n = Success) -> (forall n, n <= Z.of_nat (length f) -> new_ n = true) ->
  ends_line f -> Forall (fun c => c <> 0) f -> (0 < numThreads * segments <= length f)%nat -> (length f < fuel)%nat ->
  (forall ls ls' err, bad ls err -> bad (ls ++ ls') err) ->
  (forall ls l rest st, l ∈ lines f -> content l = true -> I ls st ->
    exists err st', parseFunc (l ++ rest) st = Done (err, st') /\ outcome_ok I bad (ls ++ [l]) err st') ->
  exists share : nat -> list (list Z), concat (share <$> seq 0 numThreads) ≡ₚ filter (fun l => content l = true) (lines f) /\
    forall t st, (t < numThreads)%nat -> I [] st -> exists err file st',
      loadGraphFilePerThread pread open_ fstat room new_ parseFunc fuel filename (Z.of_nat segments) (Z.of_nat numThreads) (Z.of_nat t) st =
        Some (Done (err, file, st')) /\ outcome_ok I bad (share t) err st' /\ (err = Success -> file = ifstream0).
Proof.
  intros [Fn Fo Fs Fz Fl] Hroom Hnew Hend H0 Hn Hf Hb Hp. set (fd := open_ (StringView_array filename)) in *.
  exists (fun t => filter (fun l => content l = true) (thread_lines (f := f) segments numThreads t)). split.
  - rewrite <- (thread_lines_all Fs Fl Fz Hend numThreads segments) by lia. clear. induction (seq 0 numThreads) as [|t l IH]; [done|].
    cbn. by rewrite filter_app, IH.
  - intros t st Ht HI. unfold loadGraphFilePerThread, open_array, open. cbn [m_fd ifstream0]. rewrite Z.eqb_refl. cbn [negb].
    rewrite (proj2 (Z.eqb_neq _ 0)) by (destruct (StringView_array filename); [done | cbn; lia]). fold fd.
    rewrite (proj2 (Z.ltb_ge fd 0)) by done. rewrite bool_decide_true by done. cbn [negb m_pos m_err ifstream0].
    rewrite <- Nat2Z.inj_mul, wrapU_id by (unfold inU; lia). rewrite Nat2Z.id.
    destruct (segments_loop_spec Fs Fo Fl Fz Hroom Hend parseFunc I bad Hb Hp H0 Hnew fuel numThreads segments t Hf Hn Ht segments 0 0 [] st eq_refl HI)
      as (err & pos & st' & E & Ok). change (Z.of_nat 0) with 0 in E. rewrite E. cbn [bindr].
    destruct (bool_decide_reflect (err = Success)) as [->|N].
    + eexists _, _, st'. split; [done|]. split; [done|]. intros _. unfold close. cbn [m_fd]. by rewrite (proj2 (Z.eqb_neq _ _)) by lia.
    + eexists _, _, st'. split; [done|]. done.
Qed.

(** A file in memory as [pread] gives it. *)
Definition file_pread (f : list Z) (fd n off : Z) : option (list Z) :=
  if off <? 2 ^ 63 then Some (take (Z.to_nat n) (drop (Z.to_nat off) f)) else None.

Lemma file_pread_serves fd f : serves_file (file_pread f) fd f.
Proof.
  intros n k Hn Hk. unfold file_pread. rewrite (proj2 (Z.ltb_lt _ _)), Nat2Z.id by done. eexists. split; [done|].
  split; [exists (drop (Z.to_nat n) (drop k f)); symmetry; apply take_drop|]. rewrite length_take, length_drop.
  split; [lia|]. intros E. apply (f_equal length) in E. rewrite length_take, length_drop in E. cbn in E. lia.
Qed.

(** A parser that keeps the first characters of the lines. *)
Definition first_char (l : list Z) (st : list Z) : outcome (Status * list Z) := Done (Success, st ++ take 1 l).

Lemma import_reads_lines_witness :
  let f := [49; newline; hash_sign; newline; 50; 51; newline] in
  exists share : nat -> list (list Z), concat (share <$> seq 0 3) ≡ₚ [[49; newline]; [50; 51; newline]] /\
    forall t, (t < 3)%nat -> exists file st',
      loadGraphFilePerThread (file_pread f) (fun _ => 5) (fun _ => Some 7) (fun _ => Success) (fun _ => true) first_char
        10 [120; 0] 2 3 (Z.of_nat t) [] = Some (Done (Success, file, st')) /\ st' = concat (take 1 <$> share t).
Proof.
  intros f.
  assert (text_file (file_pread f) (fun _ => 5) (fun _ => Some 7) [120; 0] f) as F.
  { constructor; [done|lia|apply file_pread_serves|done|cbn; lia]. }
  destruct (import_reads_lines (file_pread f) (fun _ => 5) (fun _ => Some 7) (fun _ => Success) (fun _ => true) [120; 0] f first_char
    (fun ls st => st = concat (take 1 <$> ls)) (fun _ _ => False) 3 2 10) as (share & P & L);
    [done|done|done| |repeat constructor; done|cbn; lia|cbn; lia|done| |].
  - right. exists [49; newline; hash_sign; newline; 50; 51]. done.
  - intros ls l rest st Hl _ ->. unfold first_char. assert (take 1 (l ++ rest) = take 1 l) as ->.
    { change (lines f) with [[49; newline]; [hash_sign; newline]; [50; 51; newline]] in Hl. rewrite !elem_of_cons in Hl.
      destruct Hl as [->|[->|[->|Hl]]]; [done..|]. by apply not_elem_of_nil in Hl. }
    do 2 eexists. split; [done|]. split; [|done]. intros _. rewrite fmap_app, concat_app. cbn. by rewrite app_nil_r.
  - exists share. split; [exact P|]. intros t Ht. destruct (L t [] Ht eq_refl) as (err & file & st' & E & [Ok Bad] & _).
    destruct (decide (err = Success)) as [->|N]; [|by destruct (Bad N)]. exists file, st'. split; [exact E|]. by apply Ok.
Defined.

(** C26: Where the import departs from that, whatever the parser, which always answers.  In a file of at least as many bytes as segments whose last line has
    no newline, the last thread does not answer [Success]: it reads past the end of a segment's buffer, or asks for more than 2^63 bytes, which are
    refused, unless an error of the parser was answered before.  In a file with fewer bytes than segments, every thread uses a character that a
    refused read in front of the file left indeterminate.  And whenever an error is answered, the file is left open. *)
Theorem import_departures {St} pread open_ fstat room new_ filename f (parseFunc : list Z -> St -> outcome (Status * St)) (numThreads segments fuel : nat) :
  text_file pread open_ fstat filename f -> (forall n, room n = Success) ->
  (forall n, n <= Z.of_nat (length f) + 1 -> new_ n = true) -> (forall n, 2 ^ 63 <= n -> new_ n = false) ->
  Forall (fun c => c <> 0) f -> (forall l st, exists err st', parseFunc l st = Done (err, st')) ->
  (length f + 1 < fuel)%nat -> (0 < numThreads * segments)%nat -> Z.of_nat (numThreads * segments) < 2 ^ 64 ->
  let load t st := loadGraphFilePerThread pread open_ fstat room new_ parseFunc fuel filename (Z.of_nat segments) (Z.of_nat numThreads) (Z.of_nat t) st in
  (~ ends_line f -> (numThreads * segments <= length f)%nat -> forall st, stops (load (numThreads - 1)%nat st) \/
    exists err file st', load (numThreads - 1)%nat st = Some (Done (err, file, st')) /\ parser_error parseFunc err) /\
  ((length f < numThreads * segments)%nat -> (2 <= numThreads * segments)%nat -> pread (open_ (StringView_array filename)) 1 (2 ^ 64 - 1) = None ->
    forall t st, (t < numThreads)%nat -> load t st = Some (Failed (Undefined "indeterminate character"))) /\
  (forall t st err file st', load t st = Some (Done (err, file, st')) -> err <> Success -> m_fd file = open_ (StringView_array filename)).
Proof.
  intros [Fn Fo Fs Fz Fl] Hroom Hnew Hno H0 Hp Hf HN Hb. set (fd := open_ (StringView_array filename)) in *. cbv zeta.
  assert (E : forall t st, loadGraphFilePerThread pread open_ fstat room new_ parseFunc fuel filename (Z.of_nat segments) (Z.of_nat numThreads) (Z.of_nat t) st =
    let* (err, graphFile, st) := segments_loop pread fstat room new_ parseFunc fuel segments 0 (Z.of_nat numThreads) (Z.of_nat t)
      (Z.of_nat (numThreads * segments)) (mkStream fd 0 Success) st in
    if bool_decide (err = Success) then Some (Done (Success, close graphFile, st)) else Some (Done (err, graphFile, st))).
  { intros t st. unfold loadGraphFilePerThread, open_array, open. cbn [m_fd ifstream0]. rewrite Z.eqb_refl. cbn [negb].
    rewrite (proj2 (Z.eqb_neq _ 0)) by (destruct (StringView_array filename); [done | cbn; lia]). fold fd.
    rewrite (proj2 (Z.ltb_ge fd 0)) by done. rewrite bool_decide_true by done. cbn [negb m_pos m_err ifstream0].
    rewrite <- Nat2Z.inj_mul, wrapU_id by (unfold inU; lia). by rewrite Nat2Z.id. }
  split; [|split].
  - intros Ne Hl st. rewrite E. destruct (complete_lines f) as (g & w & Ef & Hg & Hw & Hnil).
    destruct (segments_loop_tail Fs Fo Fl Fz Hroom H0 Hnew Hno parseFunc Hp Ef Hg Hw ltac:(intros Ew; by apply Ne, Hnil) fuel numThreads segments (numThreads - 1)
      ltac:(lia) ltac:(lia) ltac:(lia) eq_refl segments 0 0 st eq_refl ltac:(lia)) as [[R|R]|(err & file & st' & R & Pe)]; change (Z.of_nat 0) with 0 in R; rewrite R; cbn [bindr].
    + left. by left.
    + left. by right.
    + right. rewrite bool_decide_false by apply Pe. by eexists _, _, _.
  - intros Hl H2 Hneg t st Ht. rewrite E. destruct segments as [|n]; [lia|].
    rewrite (segments_loop_short Fo Fl Fz parseFunc fuel n 0 numThreads (S n) t st) by (done || lia). done.
  - intros t st err file st' R N. rewrite E in R. destruct (segments_loop _ _ _ _ _ _ _ _ _ _ _ _ _) as [[[[e s] st1]|]|] eqn:Es; [|done|done]. cbn [bindr] in R.
    apply segments_loop_fd in Es. destruct (bool_decide _); [injection R as <- _ _; by destruct N|]. by injection R as _ <- _.
Qed.

(** Two threads: the files 1, newline, 2 and 1, newline, 2, 3, 4, 5, 6, 7 without a final newline; and three segments of a file of two bytes. *)
Lemma import_departures_witness :
  let load f numThreads t parse := loadGraphFilePerThread (file_pread f) (fun _ => 5) (fun _ => Some (Z.of_nat (length f))) (fun _ => Success)
    (fun n => n <? 2 ^ 47) parse 40 [120; 0] 1 numThreads t [] in
  stops (load [49; newline; 50] 2 1 first_char) /\ stops (load [49; newline; 50; 51; 52; 53; 54; 55] 2 1 first_char) /\
  load [49; newline] 3 1 first_char = Some (Failed (Undefined "indeterminate character")) /\
  exists file, load [49; newline] 1 0 (fun _ st => Done (InvalidValue, st)) = Some (Done (InvalidValue, file, [])) /\ m_fd file = 5.
Proof.
  intros load.
  assert (F : forall f, Z.of_nat (length f) < 2 ^ 63 -> text_file (file_pread f) (fun _ => 5) (fun _ => Some (Z.of_nat (length f))) [120; 0] f).
  { intros f Hf. constructor; [done|lia|apply file_pread_serves|done|done]. }
  assert (Big : forall n : Z, 2 ^ 63 <= n -> (n <? 2 ^ 47) = false) by (intros n Hn; apply Z.ltb_ge; lia).
  assert (Ans : forall l st : list Z, exists err st', first_char l st = Done (err, st')) by (intros l st; by do 2 eexists).
  assert (Open : forall c k, c <> newline -> ~ ends_line (k ++ [c])).
  { intros c k Nc [E|[k' E]]; [by destruct k|]. by apply app_inj_tail in E as [_ ->]. }
  split; [|split; [|split]].
  - destruct (import_departures (file_pread [49; newline; 50]) (fun _ => 5) (fun _ => Some 3) (fun _ => Success) (fun n => n <? 2 ^ 47) [120; 0] [49; newline; 50]
      first_char 2 1 40) as [D _]; [by apply F|done|intros n Hn; apply Z.ltb_lt; cbn in Hn; lia|done|repeat constructor; done|done|cbn; lia|lia|lia|].
    destruct (D ltac:(by apply (Open 50 [49; newline])) ltac:(cbn; lia) []) as [D'|(err & file & st' & _ & N & l & st & st1 & E)]; [exact D'|].
    unfold first_char in E. congruence.
  - set (f := [49; newline; 50; 51; 52; 53; 54; 55]).
    destruct (import_departures (file_pread f) (fun _ => 5) (fun _ => Some 8) (fun _ => Success) (fun n => n <? 2 ^ 47) [120; 0] f
      first_char 2 1 40) as [D _]; [by apply F|done|intros n Hn; apply Z.ltb_lt; cbn in Hn; lia|done|repeat constructor; done|done|cbn; lia|lia|lia|].
    destruct (D ltac:(by apply (Open 55 [49; newline; 50; 51; 52; 53; 54])) ltac:(cbn; lia) []) as [D'|(err & file & st' & _ & N & l & st & st1 & E)]; [exact D'|].
    unfold first_char in E. congruence.
  - destruct (import_departures (file_pread [49; newline]) (fun _ => 5) (fun _ => Some 2) (fun _ => Success) (fun n => n <? 2 ^ 47) [120; 0] [49; newline]
      first_char 3 1 40) as (_ & D & _); [by apply F|done|intros n Hn; apply Z.ltb_lt; cbn in Hn; lia|done|repeat constructor; done|done|cbn; lia|lia|lia|].
    apply (D ltac:(cbn; lia) ltac:(lia) eq_refl 1%nat []). lia.
  - destruct (import_departures (file_pread [49; newline]) (fun _ => 5) (fun _ => Some 2) (fun _ => Success) (fun n => n <? 2 ^ 47) [120; 0] [49; newline]
      (fun _ (st : list Z) => Done (InvalidValue, st)) 1 1 40) as (_ & _ & D); [by apply F|done|intros n Hn; apply Z.ltb_lt; cbn in Hn; lia|done|repeat constructor; done| |cbn; lia|lia|lia|].
    { intros l st. by do 2 eexists. }
    exists (mkStream 5 2 Success). split; [vm_compute; reflexivity|]. apply (D 0%nat ([] : list Z) InvalidValue (mkStream 5 2 Success) []); [vm_compute; reflexivity|discriminate].
Defined.

End FileImport.
