(* ===== verification/EdgePartition.v ===== *)
(** * Distributing edges among hosts

    The part of [include/pando-lib-galois/import/wmd_graph_importer.hpp] and [src/src/wmd_graph_importer.cpp] behind the reading of a file:
    each thread groups its edges by their source, the sources are counted per virtual host, the virtual hosts are mapped to hosts so that
    the numbers of edges balance, and the edges go to the hosts of their sources. *)

From Stdlib Require Import Sorting.Sorted Floats.SpecFloat.
From S2P Require Import Prelude HashTable Adjacency.

Module EdgePartition.

(** ** Grouping by source *)

Section Insert.
(** An edge and its source. *)
Context {E : Type} (src : E -> Z).
(** [std::hash], and what the memory resources answer: to the tables, to a vector of a number of elements that is pushed to, and to
    [initialize(1)]. *)
Context (hash : Z -> Z) (ok : Z -> bool) (pushed : nat -> Status) (pushed_outer : nat -> Status) (initialized : Status).

Local Abbreviation table := (HashTable.table (Key := Z) (T := Z)).
Local Abbreviation hash_fuel t := (2 * length (HashTable.m_buffer t) + 8)%nat.

(** A thread's table of sources and its vectors of edges. *)
Definition local_edges : Type := table * list (list E).

(** src/include/pando-lib-galois/import/wmd_graph_importer.hpp:40-56 [insertLocalEdgesPerThread] *)
Definition insertLocalEdgesPerThread (st : local_edges) (edge : E) : option (outcome (Status * local_edges)) :=
  let (hashRef, localEdges) := st in
  let? found := HashTable.get 0 0 hash (hash_fuel hashRef) hashRef (src edge) in
  match found with
  | Some result =>
      match localEdges !! Z.to_nat result with
      | None => Some (Failed (Undefined "outside a block"))
      | Some vec =>
          match pushed (length vec) with
          | Success => Some (Done (Success, (hashRef, <[Z.to_nat result := vec ++ [edge]]> localEdges)))
          | err => Some (Done (err, st))
          end
      end
  | None =>
      let? (err, hashRef) := HashTable.put 0 0 hash (hash_fuel hashRef) ok hashRef (src edge) (Z.of_nat (length localEdges)) in
      if negb (bool_decide (err = Success)) then Some (Done (err, (hashRef, localEdges))) else
      if negb (bool_decide (initialized = Success)) then Some (Done (initialized, (hashRef, localEdges))) else
      match pushed_outer (length localEdges) with
      | Success => Some (Done (Success, (hashRef, localEdges ++ [[edge]])))
      | err => Some (Done (err, (hashRef, localEdges)))
      end
  end.

(** A loop that inserts, up to the first error. *)
Fixpoint insert_all (st : local_edges) (edges : list E) : option (outcome (Status * local_edges)) :=
  match edges with
  | [] => Some (Done (Success, st))
  | e :: edges =>
      let* (err, st) := insertLocalEdgesPerThread st e in
      if bool_decide (err = Success) then insert_all st edges else Some (Done (err, st))
  end.

(** The sources of edges, in the order of their first edges. *)
Definition add_source (seen : list Z) (e : E) : list Z := if bool_decide (src e ∈ seen) then seen else seen ++ [src e].
Definition sources (es : list E) : list Z := fold_left add_source es [].

(** Edges grouped by their source. *)
Definition from (s : Z) (es : list E) : list E := filter (fun e => src e = s) es.
Definition groups (es : list E) : list (list E) := (fun s => from s es) <$> sources es.

Lemma sources_app es e : sources (es ++ [e]) = add_source (sources es) e.
Proof. unfold sources. by rewrite fold_left_app. Qed.

Lemma sources_spec es : NoDup (sources es) /\ forall s, s ∈ sources es <-> exists e, e ∈ es /\ src e = s.
Proof.
  induction es as [|e es IH] using rev_ind.
  - split; [constructor|]. intros s. split; [by intros H%elem_of_nil | by intros (e & H%elem_of_nil & _)].
  - destruct IH as [N S]. rewrite sources_app. unfold add_source. case_bool_decide as H.
    + split; [done|]. intros s. rewrite S. split; intros (e' & He & <-).
      * exists e'. split; [apply elem_of_app; by left|done].
      * apply elem_of_app in He as [He|He%list_elem_of_singleton]; subst; [by exists e'|]. by apply S.
    + split; [apply NoDup_app; split; [done|]; split; [|apply NoDup_singleton]; by intros x Hx ->%list_elem_of_singleton|].
      intros s. rewrite elem_of_app, S, list_elem_of_singleton. split.
      * intros [(e' & He & <-)| ->]; [exists e'|exists e]; (split; [apply elem_of_app; set_solver|done]).
      * intros (e' & He & <-). apply elem_of_app in He as [He|He%list_elem_of_singleton]; subst; [left; by exists e'|by right].
Qed.

Lemma from_app s es e : from s (es ++ [e]) = from s es ++ if bool_decide (src e = s) then [e] else [].
Proof. unfold from. rewrite filter_app, filter_cons, filter_nil. by case_decide; case_bool_decide. Qed.

(** The groups hold the edges, each in the group of its source. *)
Lemma groups_perm es : concat (groups es) ≡ₚ es.
Proof.
  induction es as [|e es IH] using rev_ind; [done|]. unfold groups in *. rewrite sources_app. unfold add_source.
  pose proof (sources_spec es) as [N S]. case_bool_decide as H.
  - apply list_elem_of_split in H as (l1 & l2 & El). rewrite El in *. rewrite !fmap_app, !fmap_cons, !concat_app in *. cbn [concat] in *.
    apply NoDup_app in N as (_ & N1 & [N2 _]%NoDup_cons).
    assert (forall l, src e ∉ l -> @fmap list _ _ _ (fun s => from s (es ++ [e])) l = @fmap list _ _ _ (fun s => from s es) l) as Same.
    { intros l Hl. apply list_fmap_ext. intros i s L. rewrite from_app. rewrite bool_decide_false; [by rewrite app_nil_r|].
      intros <-. by apply list_elem_of_lookup_2 in L. }
    rewrite !Same; [| done | intros ?; eapply N1; [done|by left]]. rewrite from_app, bool_decide_true by done.
    rewrite <- IH at 2. rewrite <- !app_assoc. do 2 f_equiv. by rewrite (Permutation_app_comm [e]).
  - rewrite fmap_app, concat_app. cbn. rewrite app_nil_r. f_equiv.
    + etrans; [|exact IH]. apply reflexive_eq. f_equal. apply list_fmap_ext. intros i s L. cbn. rewrite from_app, bool_decide_false; [by rewrite app_nil_r|].
      intros <-. by apply list_elem_of_lookup_2 in L.
    + rewrite from_app, bool_decide_true by done. assert (from (src e) es = []) as ->; [|done].
      apply elem_of_nil_inv. intros x [Hx He]%list_elem_of_filter. apply H, S. by exists x.
Qed.

(** The table gives the place of every source among the groups. *)
Definition indexes (M : gmap Z Z) (ss : list Z) : Prop := forall s i, M !! s = Some i <-> exists k, i = Z.of_nat k /\ ss !! k = Some s.

(** The table and the vectors of a thread that has inserted [es]. *)
Definition holds_edges (es : list E) (st : local_edges) : Prop :=
  exists M, HashTable.rep 0 0 hash (fst st) M /\ HashTable.maxLoadFactor (fst st) = HashTable.to_float HashTable.lit_0_8 /\ indexes M (sources es) /\
    snd st = groups es.

(** The errors that memory can cause when [es] have been inserted: the table has to grow and is refused, there is no memory for a new vector, or
    none for one more element of a vector. *)
Definition refused (es : list E) (e : Status) : Prop :=
  e <> Success /\ ((e = BadAlloc /\ exists st, holds_edges es st /\ HashTable.crowded (fst st) = true /\ ok (HashTable.nextCapacity (fst st)) = false) \/
    e = initialized \/ (exists s, e = pushed (length (from s es))) \/ e = pushed_outer (length (groups es))).
Definition stopped (es : list E) (e : Status) : Prop := exists es0, es0 `prefix_of` es /\ refused es0 e.

Definition inserted (es : list E) (err : Status) (st : local_edges) : Prop := (err = Success -> holds_edges es st) /\ (err <> Success -> stopped es err).

Lemma stopped_app es es' e : stopped es e -> stopped (es ++ es') e.
Proof. intros (es0 & P & R). exists es0. split; [by apply prefix_app_r|done]. Qed.
Lemma stopped_at es es' e : refused es e -> stopped (es ++ es') e.
Proof. intros R. exists es. split; [by apply prefix_app_r|done]. Qed.

Lemma groups_lookup es k s : sources es !! k = Some s -> groups es !! k = Some (from s es).
Proof. intros H. unfold groups. by rewrite list_lookup_fmap, H. Qed.

Lemma groups_insert es e k : sources es !! k = Some (src e) -> groups (es ++ [e]) = <[k := from (src e) es ++ [e]]> (groups es).
Proof.
  intros L. pose proof (sources_spec es) as [N _]. unfold groups. rewrite sources_app. unfold add_source.
  rewrite bool_decide_true by (by eapply list_elem_of_lookup_2). apply list_eq. intros i. rewrite list_lookup_fmap.
  destruct (decide (i = k)) as [->|Ne].
  - rewrite L. cbn. rewrite list_lookup_insert_eq by (rewrite length_fmap; by eapply lookup_lt_Some). by rewrite from_app, bool_decide_true.
  - rewrite list_lookup_insert_ne, list_lookup_fmap by done. destruct (sources es !! i) as [s|] eqn:Li; [|done]. cbn.
    rewrite from_app, bool_decide_false; [by rewrite app_nil_r|]. intros <-. by destruct (Ne (NoDup_lookup _ _ _ _ N Li L)).
Qed.

Lemma groups_new es e : src e ∉ sources es -> groups (es ++ [e]) = groups es ++ [[e]].
Proof.
  intros H. pose proof (sources_spec es) as [N S]. unfold groups. rewrite sources_app. unfold add_source. rewrite bool_decide_false by done.
  rewrite fmap_app. f_equal.
  - apply list_fmap_ext. intros i s L. rewrite from_app, bool_decide_false; [by rewrite app_nil_r|].
    intros <-. by apply list_elem_of_lookup_2 in L.
  - cbn. rewrite from_app, bool_decide_true by done. assert (from (src e) es = []) as ->; [|done].
    apply elem_of_nil_inv. intros x [Hx He]%list_elem_of_filter. apply H, S. by exists x.
Qed.

Lemma insert_correct es st e : HashTable.bounded ok -> holds_edges es st ->
  exists err st', insertLocalEdgesPerThread st e = Some (Done (err, st')) /\ inserted (es ++ [e]) err st'.
Proof.
  intros Hok (M & R & Load & Ix & Eg). destruct st as [t l]. cbn [fst snd] in *. subst l.
  pose proof HashTable.default_roomy as Room. rewrite <- Load in Room.
  assert (HashTable.enough t (hash_fuel t)) as En by (unfold HashTable.enough; lia).
  unfold insertLocalEdgesPerThread. rewrite (HashTable.get_correct 0 0 hash t M (src e) _ R En).
  destruct (M !! src e) as [i|] eqn:Mi.
  - destruct (proj1 (Ix _ _) Mi) as (k & -> & Lk). rewrite Nat2Z.id, (groups_lookup _ _ _ Lk).
    destruct (pushed (length (from (src e) es))) eqn:Ep; eexists _, _; (split; [reflexivity|]); split; intros N;
      first [discriminate N | destruct (N eq_refl) | apply stopped_at; split; [exact N|]; right; right; left; eexists; symmetry; exact Ep | idtac].
    exists M. split; [done|]. split; [done|]. cbn [snd]. rewrite (groups_insert _ _ _ Lk). split; [|done].
    rewrite sources_app. unfold add_source. rewrite bool_decide_true; [done|]. by eapply list_elem_of_lookup_2.
  - destruct (HashTable.put_correct 0 0 hash ok Hok t M (src e) (Z.of_nat (length (groups es))) (hash_fuel t) R Room En)
      as (s & t' & -> & El & [[-> R']|(-> & -> & Cr & No)]).
    + rewrite bool_decide_true by done. cbn [negb]. destruct (bool_decide_reflect (initialized = Success)) as [Ei|Ni]; cbn [negb].
      * assert (src e ∉ sources es) as Hn.
        { intros [k Lk]%list_elem_of_lookup_1. assert (M !! src e = Some (Z.of_nat k)) by (apply Ix; by exists k). congruence. }
        destruct (pushed_outer (length (groups es))) eqn:Ep; eexists _, _; (split; [reflexivity|]); split; intros N;
          first [discriminate N | destruct (N eq_refl) | apply stopped_at; split; [exact N|]; right; right; right; symmetry; exact Ep | idtac].
        eexists. split; [exact R'|]. cbn [fst snd]. rewrite El. split; [done|]. rewrite groups_new by done. split; [|done].
        intros s i. rewrite sources_app. unfold add_source. rewrite bool_decide_false by done.
        assert (length (groups es) = length (sources es)) as -> by apply length_fmap.
        destruct (decide (s = src e)) as [->|Ns].
        -- rewrite lookup_insert_eq. split.
           ++ intros [= <-]. exists (length (sources es)). by rewrite lookup_app_r, Nat.sub_diag by lia.
           ++ intros (k & -> & L). apply lookup_app_Some in L as [L|[Hk L]]; [by apply list_elem_of_lookup_2 in L|].
              apply list_lookup_singleton_Some in L as [Hk' _]. do 2 f_equal. lia.
        -- unfold indexes in Ix. rewrite lookup_insert_ne, Ix by done. split; intros (k & -> & L); exists k; (split; [done|]).
           ++ by apply lookup_app_l_Some.
           ++ apply lookup_app_Some in L as [L|[Hk L]]; [done|]. apply list_lookup_singleton_Some in L as [_ Es]. congruence.
      * eexists _, _. split; [done|]. split; [done|]. intros _. apply stopped_at. split; [done|]. right. by left.
    + rewrite bool_decide_false by done. cbn [negb]. eexists _, _. split; [done|]. split; [done|]. intros _. apply stopped_at. split; [done|]. left.
      split; [done|]. exists (t, groups es). split; [exists M; split_and!; [exact R|exact Load|exact Ix|reflexivity]|split; [exact Cr|exact No]].
Qed.

Lemma insert_all_correct edges : HashTable.bounded ok -> forall es st, holds_edges es st ->
  exists err st', insert_all st edges = Some (Done (err, st')) /\ inserted (es ++ edges) err st'.
Proof.
  intros Hok. induction edges as [|e edges IH]; intros es st H; cbn [insert_all].
  - exists Success, st. split; [done|]. by rewrite app_nil_r.
  - destruct (insert_correct es st e Hok H) as (err & st' & -> & Ok). cbn [bindr].
    destruct (bool_decide_reflect (err = Success)) as [->|N].
    + destruct (IH (es ++ [e]) st') as (err & st2 & -> & Ok2); [by apply Ok|]. exists err, st2. split; [done|]. by rewrite <- app_assoc in Ok2.
    + exists err, st'. split; [done|]. split; [done|]. intros _. rewrite (app_assoc es [e] edges : es ++ e :: edges = _). by apply stopped_app, Ok.
Qed.

Lemma holds_nil t : HashTable.rep 0 0 hash t ∅ -> HashTable.maxLoadFactor t = HashTable.to_float HashTable.lit_0_8 -> holds_edges [] (t, []).
Proof.
  intros R Room. exists ∅. split; [done|]. split; [done|]. split; [|done]. intros s i. rewrite lookup_empty.
  split; [done|]. by intros (k & _ & L).
Qed.

End Insert.

(** ** Counting per virtual host *)

(** src/include/pando-lib-galois/utility/pair.hpp:63-70 [less]: the order of pairs of numbers *)
Definition less (a b : Z * Z) : bool := if a.1 <? b.1 then true else if a.1 =? b.1 then a.2 <? b.2 else false.

Section Counts.
Context {E : Type} (src : E -> Z).

(** src/include/pando-lib-galois/import/wmd_graph_importer.hpp:68-71 [buildEdgeCountToSend]: no edges for each virtual host *)
Definition zero_counts (numVirtualHosts : nat) : list (Z * Z) := (fun i => (0, Z.of_nat i)) <$> seq 0 numVirtualHosts.

(** An atomic addition to [counts[i].first]. *)
Definition add_count (counts : list (Z * Z)) (i n : Z) : outcome (list (Z * Z)) :=
  match counts !! Z.to_nat i with
  | None => Failed (Undefined "outside a block")
  | Some (c, v) => Done (<[Z.to_nat i := (u64 (c + n), v)]> counts)
  end.

(** [a % b] of unsigned numbers. *)
Definition modulo (a b : Z) : outcome Z := if b =? 0 then Failed (Undefined "division by zero") else Done (a mod b).

(** src/include/pando-lib-galois/import/wmd_graph_importer.hpp:77-87 [buildEdgeCountToSend]: the addition for a group of edges *)
Definition count_group (counts : list (Z * Z)) (v : list E) : outcome (list (Z * Z)) :=
  match v with
  | [] => Failed (Aborted "assert")
  | e :: _ => let! i := modulo (src e) (Z.of_nat (length counts)) in add_count counts i (Z.of_nat (length v))
  end.

(** src/include/pando-lib-galois/import/wmd_graph_importer.hpp:118-125 [buildEdgeCountToSend]: the addition for one edge *)
Definition count_edge (counts : list (Z * Z)) (e : E) : outcome (list (Z * Z)) :=
  let! i := modulo (src e) (Z.of_nat (length counts)) in add_count counts i 1.

Fixpoint foldo {A B} (f : A -> B -> outcome A) (a : A) (l : list B) : outcome A :=
  match l with [] => Done a | b :: l => let! a := f a b in foldo f a l end.

(** src/include/pando-lib-galois/import/wmd_graph_importer.hpp:61-90 [buildEdgeCountToSend]; [order] is the order in which the additions of
    the parallel loops take place, [memory] what the array is answered *)
Definition buildEdgeCountToSend (memory : Status) (numVirtualHosts : nat) (order : list (list E)) : outcome (Status + list (Z * Z)) :=
  if negb (bool_decide (memory = Success)) then Done (inl memory) else
  let! counts := foldo count_group (zero_counts numVirtualHosts) order in Done (inr counts).

(** src/include/pando-lib-galois/import/wmd_graph_importer.hpp:95-129 [buildEdgeCountToSend]: for edges that are not grouped *)
Definition buildEdgeCountToSend_edges (memory : Status) (numVirtualHosts : nat) (order : list E) : outcome (Status + list (Z * Z)) :=
  if negb (bool_decide (memory = Success)) then Done (inl memory) else
  let! counts := foldo count_edge (zero_counts numVirtualHosts) order in Done (inr counts).

(** How many edges belong to virtual host [i] of [n]. *)
Definition count_of (n i : nat) (es : list E) : Z := Z.of_nat (length (filter (fun e => src e mod Z.of_nat n = Z.of_nat i) es)).

(** The array of counts. *)
Definition counted (n : nat) (es : list E) : list (Z * Z) := (fun i => (u64 (count_of n i es), Z.of_nat i)) <$> seq 0 n.

Lemma counted_add n es g e : (0 < n)%nat -> e ∈ g -> Forall (fun e' => src e' = src e) g ->
  (let! i := modulo (src e) (Z.of_nat (length (counted n es))) in add_count (counted n es) i (Z.of_nat (length g))) = Done (counted n (es ++ g)).
Proof.
  intros Hn He Hg. unfold counted at 1. rewrite length_fmap, length_seq. unfold modulo. rewrite (proj2 (Z.eqb_neq _ _)) by lia. cbn [bindo].
  set (k := Z.to_nat (src e mod Z.of_nat n)). pose proof (Z.mod_pos_bound (src e) (Z.of_nat n) ltac:(lia)) as B.
  assert (k < n)%nat by lia. unfold add_count. fold k. unfold counted at 1. rewrite list_lookup_fmap, lookup_seq_lt by done. cbn.
  f_equal. unfold counted. apply list_eq. intros i. rewrite list_lookup_insert, !list_lookup_fmap, length_fmap, length_seq.
  assert (forall j, (j < n)%nat -> count_of n j (es ++ g) = count_of n j es + if decide (j = k) then Z.of_nat (length g) else 0) as C.
  { intros j Hj. unfold count_of. rewrite filter_app, length_app, Nat2Z.inj_add. f_equal. case_decide as D.
    - rewrite filter_all; [done|]. eapply Forall_impl; [exact Hg|]. intros x ->. cbn. subst j. unfold k. lia.
    - rewrite filter_none; [done|]. eapply Forall_impl; [exact Hg|]. intros x ->. cbn. unfold k in D. lia. }
  case_decide as D; [destruct D as [-> _] | destruct (decide (i < n)%nat)].
  - rewrite lookup_seq_lt by done. cbn. rewrite C, decide_True by done. by rewrite wrapU_add_l.
  - rewrite lookup_seq_lt by done. cbn. rewrite C by done. rewrite decide_False, Z.add_0_r by (intros ->; tauto). done.
  - by rewrite lookup_seq_ge by lia.
Qed.

Lemma zero_counted n : zero_counts n = counted n [].
Proof. done. Qed.

(** Whatever the order of the additions, the count of a virtual host is the number of its edges modulo 2^64. *)
Lemma count_groups n gs : (0 < n)%nat -> Forall (fun g => exists e, e ∈ g /\ Forall (fun e' => src e' = src e) g) gs ->
  forall es, foldo count_group (counted n es) gs = Done (counted n (es ++ concat gs)).
Proof.
  intros Hn. induction 1 as [|g gs (e & He & Hg) _ IH]; intros es; cbn [foldo concat]; [by rewrite app_nil_r|].
  assert (count_group (counted n es) g = Done (counted n (es ++ g))) as ->.
  { destruct g as [|e0 g]; [by apply elem_of_nil in He|]. unfold count_group. apply Forall_cons in Hg as [E0 Hg]. 
    apply counted_add; [done|by left|]. constructor; [done|]. eapply Forall_impl; [exact Hg|]. cbn. intros ? ->. done. }
  cbn [bindo]. rewrite IH. by rewrite app_assoc.
Qed.

Lemma count_edges n l : (0 < n)%nat -> forall es, foldo count_edge (counted n es) l = Done (counted n (es ++ l)).
Proof.
  intros Hn. induction l as [|e l IH]; intros es; cbn [foldo]; [by rewrite app_nil_r|].
  assert (count_edge (counted n es) e = Done (counted n (es ++ [e]))) as -> by (apply (counted_add n es [e] e Hn); [by left|by repeat constructor]).
  cbn [bindo]. rewrite IH. by rewrite <- app_assoc.
Qed.

Lemma count_of_perm n i es es' : es ≡ₚ es' -> count_of n i es = count_of n i es'.
Proof. intros P. unfold count_of. by rewrite P. Qed.

Lemma groups_sources es : Forall (fun g => exists e, e ∈ g /\ Forall (fun e' => src e' = src e) g) (groups src es).
Proof.
  apply Forall_forall. intros g (s & -> & Hs)%list_elem_of_fmap. apply sources_spec in Hs as (e & He & <-).
  exists e. split; [apply list_elem_of_filter; done|]. apply Forall_forall. intros e' [? _]%list_elem_of_filter. done.
Qed.

End Counts.

(** The counts of the edges that the threads have grouped, whatever the order of the additions. *)
Lemma build_counts {E} (src : E -> Z) n (threads : list (list E)) order : (0 < n)%nat -> order ≡ₚ concat (groups src <$> threads) ->
  buildEdgeCountToSend src Success n order = Done (inr (counted src n (concat threads))).
Proof.
  intros Hn P. unfold buildEdgeCountToSend. rewrite bool_decide_true by done. cbn [negb]. rewrite (zero_counted src n), count_groups; [|done|].
  - cbn. do 2 f_equal. unfold counted. apply list_fmap_ext. intros i k _. f_equal. f_equal. apply count_of_perm. rewrite P. clear.
    induction threads as [|es l IH]; [done|]. cbn. rewrite concat_app, IH. by rewrite groups_perm.
  - rewrite P. clear. induction threads as [|es l IH]; cbn; [constructor|]. apply Forall_app. split; [apply groups_sources|done].
Qed.

(** The same for edges that are not grouped. *)
Lemma build_counts_edges {E} (src : E -> Z) n es order : (0 < n)%nat -> order ≡ₚ es ->
  buildEdgeCountToSend_edges src Success n order = Done (inr (counted src n es)).
Proof.
  intros Hn P. unfold buildEdgeCountToSend_edges. rewrite bool_decide_true by done. cbn [negb]. rewrite (zero_counted src n), count_edges by done.
  cbn. do 2 f_equal. unfold counted. apply list_fmap_ext. intros i k _. f_equal. f_equal. by apply count_of_perm.
Qed.

(** ** Mapping virtual hosts to hosts *)

Section Mapping.
(** [std::sort] on pairs, with a comparison. *)
Context (std_sort : (Z * Z -> Z * Z -> bool) -> list (Z * Z) -> list (Z * Z)).

(** src/src/wmd_graph_importer.cpp:34-37 [buildVirtualToPhysicalMapping]: the comparison of the loads *)
Definition less_load (a b : Z * Z) : bool := a.1 <? b.1.

(** The mapping, the numbers of edges and the sorted loads. *)
Record assignment := mkAssignment { vTPH : list Z; numEdges : list Z; intermediateSort : list (Z * Z) }.

(** src/src/wmd_graph_importer.cpp:30-47 [buildVirtualToPhysicalMapping]: one turn of the loop *)
Definition assign (a : assignment) (virtualPair : Z * Z) : outcome assignment :=
  let sorted := std_sort less_load (intermediateSort a) in
  match sorted with
  | [] => Failed (Undefined "outside a block")
  | physicalPair :: rest =>
      let! _ := guard_or (bool_decide (Z.to_nat virtualPair.2 < length (vTPH a))%nat && bool_decide (Z.to_nat physicalPair.2 < length (numEdges a))%nat)
        (Undefined "outside a block") in
      let load := u64 (physicalPair.1 + virtualPair.1) in
      Done (mkAssignment (<[Z.to_nat virtualPair.2 := physicalPair.2]> (vTPH a)) (<[Z.to_nat physicalPair.2 := load]> (numEdges a))
        ((load, physicalPair.2) :: rest))
  end.

(** src/src/wmd_graph_importer.cpp:8-52 [buildVirtualToPhysicalMapping]; [junk] is what the mapping's memory held, [hosts] the number of
    hosts of the machine, and the three statuses are those of the allocations *)
Definition buildVirtualToPhysicalMapping (m1 m2 m3 : Status) (junk : list Z) (hosts numHosts : nat) (labeledVirtualCounts : list (Z * Z))
  : outcome (Status + list Z * list Z) :=
  let labeledVirtualCounts := std_sort less labeledVirtualCounts in
  if negb (bool_decide (m1 = Success)) then Done (inl m1) else
  if negb (bool_decide (m2 = Success)) then Done (inl m2) else
  if negb (bool_decide (m3 = Success)) then Done (inl m3) else
  let! _ := guard_or (bool_decide (numHosts <= hosts)%nat) (Undefined "outside a block") in
  let a := mkAssignment junk (repeat 0 numHosts) ((fun i => (0, Z.of_nat i)) <$> seq 0 numHosts) in
  let! a := foldo assign a (reverse labeledVirtualCounts) in
  Done (inr (vTPH a, numEdges a)).

(** src/include/pando-lib-galois/import/wmd_graph_importer.hpp:137-140 [getPhysical] *)
Definition getPhysical (id : Z) (virtualToPhysicalMapping : list Z) : outcome Z :=
  let! i := modulo id (Z.of_nat (length virtualToPhysicalMapping)) in
  match virtualToPhysicalMapping !! Z.to_nat i with Some h => Done h | None => Failed (Undefined "outside a block") end.

End Mapping.

(** What [std::sort] is documented to do with a strict weak order: the elements, none of them in front of a smaller one. *)
Definition strict_weak {T} (lt : T -> T -> bool) : Prop :=
  (forall x, lt x x = false) /\ (forall x y z, lt x y = true -> lt y z = true -> lt x z = true) /\
  (forall x y z, lt x y = false -> lt y z = false -> lt x z = false).
Definition sorts {T} (std_sort : (T -> T -> bool) -> list T -> list T) : Prop := forall lt l, strict_weak lt ->
  std_sort lt l ≡ₚ l /\ StronglySorted (fun a b => lt b a = false) (std_sort lt l).

Lemma less_load_weak : strict_weak less_load.
Proof. unfold less_load. split; [intros x; lia|]. split; intros x y z; lia. Qed.

Lemma less_weak : strict_weak less.
Proof.
  unfold less. split; [intros [x x']; cbn; destruct (Z.ltb_spec x x), (Z.eqb_spec x x); lia|]. 
  split; intros [a a'] [b b'] [c c']; cbn; 
    destruct (Z.ltb_spec a b), (Z.ltb_spec b c), (Z.ltb_spec a c), (Z.eqb_spec a b), (Z.eqb_spec b c), (Z.eqb_spec a c); lia.
Qed.

Section Balance.
Context (std_sort : (Z * Z -> Z * Z -> bool) -> list (Z * Z) -> list (Z * Z)) (sorted_by : sorts std_sort).

(** The load of host [h]: the counts of the virtual hosts of [done] that are mapped to it. *)
Definition share_of (v2p : list Z) (h : nat) (p : Z * Z) : Z := if decide (v2p !! Z.to_nat p.2 = Some (Z.of_nat h)) then p.1 else 0.
Definition load_of (v2p : list Z) (h : nat) (done : list (Z * Z)) : Z := foldr (fun p acc => share_of v2p h p + acc) 0 done.
Definition total (l : list (Z * Z)) : Z := foldr (fun p acc => p.1 + acc) 0 l.

Lemma load_of_bound v2p h l : Forall (fun p => 0 <= p.1) l -> 0 <= load_of v2p h l <= total l.
Proof.
  induction 1 as [|p l Hp _ IH]; [cbn; lia|]. cbn [load_of total foldr]. fold (load_of v2p h l) (total l).
  unfold share_of. case_decide; lia.
Qed.

Lemma load_of_insert v2p h l v x : Forall (fun p => Z.to_nat p.2 <> Z.to_nat v) l -> load_of (<[Z.to_nat v := x]> v2p) h l = load_of v2p h l.
Proof. induction 1; [done|]. cbn. f_equal; [|done]. unfold share_of. by rewrite list_lookup_insert_ne by congruence. Qed.

Lemma load_of_perm v2p h l l' : l ≡ₚ l' -> load_of v2p h l = load_of v2p h l'.
Proof. unfold load_of. induction 1; cbn; lia. Qed.

Lemma total_perm l l' : l ≡ₚ l' -> total l = total l'.
Proof. unfold total. induction 1; cbn; lia. Qed.

(** Each host with its load. *)
Definition loads (numEdges : list Z) : list (Z * Z) := imap (fun h x => (x, Z.of_nat h)) numEdges.

Lemma insert_permutation {A} (l : list A) i x y r : l !! i = Some x -> l ≡ₚ x :: r -> <[i := y]> l ≡ₚ y :: r.
Proof.
  intros L P. assert (i < length l)%nat by (by eapply lookup_lt_Some).
  assert (x :: r ≡ₚ x :: (take i l ++ drop (S i) l)) as Q%Permutation_cons_inv.
  { rewrite <- P. rewrite <- (take_drop_middle l i x L) at 1. by rewrite <- Permutation_middle. }
  rewrite insert_take_drop, <- Permutation_middle by done. by rewrite Q.
Qed.

Record balanced (n H : nat) (M : Z) (done : list (Z * Z)) (a : assignment) : Prop := mkBalanced {
  mapping_length : length (vTPH a) = n;
  edges_length : length (numEdges a) = H;
  sorted_loads : intermediateSort a ≡ₚ loads (numEdges a);
  mapped : Forall (fun p => exists h, vTPH a !! Z.to_nat p.2 = Some (Z.of_nat h) /\ (h < H)%nat) done;
  load_sums : forall h, (h < H)%nat -> numEdges a !! h = Some (load_of (vTPH a) h done);
  load_balance : forall h h' x x', numEdges a !! h = Some x -> numEdges a !! h' = Some x' -> x <= x' + M
}.

Lemma assign_balanced n H M done a c v : (0 < H)%nat -> balanced n H M done a -> Forall (fun p => 0 <= p.1) done -> 0 <= c <= M -> total done + c < 2 ^ 64 ->
  (Z.to_nat v < n)%nat -> Forall (fun p => Z.to_nat p.2 <> Z.to_nat v) done ->
  exists a', assign std_sort a (c, v) = Done a' /\ balanced n H M ((c, v) :: done) a'.
Proof.
  intros HH [Lm Le Ps Mp Sum Bal] Hpos Hc Ht Hv Hnew. unfold assign. cbn [fst snd].
  destruct (sorted_by less_load (intermediateSort a) less_load_weak) as [P S]. apply (fun P => Permutation_trans P Ps) in P.
  assert (length (loads (numEdges a)) = H) as Ll by (unfold loads; by rewrite length_imap).
  destruct (std_sort less_load (intermediateSort a)) as [|[x h0] rest]; [apply Permutation_length in P; cbn in P; lia|].
  assert (exists h, h0 = Z.of_nat h /\ numEdges a !! h = Some x) as (h & -> & Lh).
  { assert ((x, h0) ∈ loads (numEdges a)) as I by (rewrite <- P; by left). unfold loads in I.
    apply elem_of_lookup_imap_1 in I as (h & y & [= -> ->] & L). by exists h. }
  assert (h < H)%nat by (rewrite <- Le; by eapply lookup_lt_Some).
  assert (forall h' x', numEdges a !! h' = Some x' -> x <= x') as Min.
  { intros h' x' L'. assert ((x', Z.of_nat h') ∈ (x, Z.of_nat h) :: rest) as I.
    { rewrite P. unfold loads. apply elem_of_lookup_imap. by exists h', x'. }
    apply elem_of_cons in I as [[= -> _]|I]; [lia|]. apply StronglySorted_inv in S as [_ S]. rewrite Forall_forall in S.
    specialize (S _ I). unfold less_load in S. cbn in S. lia. }
  pose proof (Sum h ltac:(done)) as Sh. rewrite Lh in Sh. injection Sh as Sh.
  pose proof (load_of_bound (vTPH a) h done Hpos) as Lb. rewrite <- Sh in Lb.
  cbn [fst snd]. rewrite !Nat2Z.id, bool_decide_true, bool_decide_true by lia. cbn [andb guard_or bindo].
  rewrite (wrapU_id 64 (x + c)) by (unfold inU; lia). eexists. split; [done|].
  constructor; cbn [vTPH numEdges intermediateSort].
  - by rewrite length_insert.
  - by rewrite length_insert.
  - symmetry. unfold loads. 
    assert (imap (fun (h : nat) x => (x, Z.of_nat h)) (<[h := x + c]> (numEdges a)) = <[h := (x + c, Z.of_nat h)]> (loads (numEdges a))) as ->.
    { apply list_eq. intros i. rewrite list_lookup_imap, !list_lookup_insert. unfold loads. rewrite length_imap, list_lookup_imap.
      case_decide as D; [|done]. by destruct D as [-> _]. }
    apply (insert_permutation _ _ (x, Z.of_nat h)); [|by symmetry]. unfold loads. by rewrite list_lookup_imap, Lh.
  - constructor.
    + exists h. cbn. by rewrite list_lookup_insert_eq by lia.
    + apply Forall_forall. intros p Hp. rewrite Forall_forall in Mp, Hnew.
      destruct (Mp p Hp) as (h' & L' & ?). exists h'. rewrite list_lookup_insert_ne; [done|]. by apply not_eq_sym, Hnew.
  - intros h' Hh'. cbn [load_of foldr]. fold (load_of (<[Z.to_nat v:=Z.of_nat h]> (vTPH a)) h' done). rewrite load_of_insert by done.
    unfold share_of. cbn [fst snd]. rewrite list_lookup_insert_eq by lia. destruct (decide (h' = h)) as [->|Ne].
    + rewrite list_lookup_insert_eq, decide_True by (lia || done). f_equal. lia.
    + rewrite list_lookup_insert_ne, decide_False by (done || congruence || (intros [= E]; lia)). by rewrite Sum.
  - intros h1 h2 x1 x2 [(<- & <- & _)|[_ L1]]%list_lookup_insert_Some [(<- & <- & _)|[_ L2]]%list_lookup_insert_Some.
    + lia.
    + pose proof (Min _ _ L2). lia.
    + pose proof (Bal _ _ _ _ L1 Lh). lia.
    + by eapply Bal.
Qed.

Lemma assign_all n H M l : (0 < H)%nat -> forall done a, balanced n H M done a -> Forall (fun p => 0 <= p.1) done -> Forall (fun p => 0 <= p.1 <= M) l ->
  total done + total l < 2 ^ 64 -> NoDup ((fun p => Z.to_nat p.2) <$> l ++ done) -> Forall (fun p => (Z.to_nat p.2 < n)%nat) l ->
  exists a', foldo (assign std_sort) a l = Done a' /\ balanced n H M (reverse l ++ done) a'.
Proof.
  intros HH. induction l as [|[c v] l IH]; intros done a B Hd Hl Ht Nd Hn; [by exists a|].
  apply Forall_cons in Hl as [Hc Hl]. apply Forall_cons in Hn as [Hv Hn]. cbn [fst snd] in *.
  cbn [total foldr fst] in Ht. fold (total l) in Ht. cbn [app] in Nd. rewrite fmap_cons in Nd. apply NoDup_cons in Nd as [Nv Nd]. cbn [snd] in Nv.
  assert (0 <= total l) as T0.
  { clear - Hl. induction Hl as [|p l Hp _ IH]; [cbn; lia|]. cbn. fold (total l). lia. }
  destruct (assign_balanced n H M done a c v HH B Hd Hc ltac:(lia) Hv) as (a1 & E & B1).
  { apply Forall_forall. intros p Hp Ep. apply Nv. apply list_elem_of_fmap. exists p. split; [by rewrite Ep|]. apply elem_of_app. by right. }
  cbn [foldo]. rewrite E. cbn [bindo].
  destruct (IH ((c, v) :: done) a1 B1) as (a' & E' & B'); [by constructor; [cbn; lia|]|done|cbn; fold (total done); lia| |done|].
  - rewrite <- Permutation_middle, fmap_cons. cbn. by constructor.
  - exists a'. split; [done|]. by rewrite reverse_cons, <- app_assoc.
Qed.

End Balance.

(** What the mapping of virtual hosts with these counts is. *)
Lemma mapping_result std_sort junk hosts numHosts (counts : list Z) M : sorts std_sort -> length junk = length counts ->
  (0 < numHosts <= hosts)%nat -> 0 <= M -> Forall (fun c => 0 <= c <= M) counts -> total (loads counts) < 2 ^ 64 ->
  exists v2p edges, buildVirtualToPhysicalMapping std_sort Success Success Success junk hosts numHosts (loads counts) = Done (inr (v2p, edges)) /\
    length v2p = length counts /\ length edges = numHosts /\
    (forall v, (v < length counts)%nat -> exists h, v2p !! v = Some (Z.of_nat h) /\ (h < numHosts)%nat) /\
    (forall h, (h < numHosts)%nat -> edges !! h = Some (load_of v2p h (loads counts))) /\
    (forall h h' x x', edges !! h = Some x -> edges !! h' = Some x' -> x <= x' + M).
Proof.
  intros Hs Hj HH HM Hc Ht. unfold buildVirtualToPhysicalMapping. rewrite !bool_decide_true by (done || lia). cbn [negb guard_or bindo].
  destruct (Hs less (loads counts) less_weak) as [P _]. set (sorted := std_sort less (loads counts)) in *.
  assert (reverse sorted ≡ₚ loads counts) as P' by (by rewrite reverse_Permutation).
  assert (Forall (fun p => 0 <= p.1 <= M /\ (Z.to_nat p.2 < length counts)%nat) (loads counts)) as F.
  { apply Forall_forall. intros p (h & x & -> & L)%elem_of_lookup_imap_1. cbn. rewrite Nat2Z.id.
    split; [|by eapply lookup_lt_Some]. rewrite Forall_forall in Hc. apply Hc. by eapply list_elem_of_lookup_2. }
  rewrite <- P' in F. destruct (assign_all std_sort Hs (length counts) numHosts M (reverse sorted) ltac:(lia) []
    (mkAssignment junk (repeat 0 numHosts) ((fun i => (0, Z.of_nat i)) <$> seq 0 numHosts))) as (a & -> & [Lm Le Ps Mp Sum Bal]).
  - constructor; cbn [vTPH numEdges intermediateSort]; [done|by rewrite repeat_length| |constructor| |].
    + apply reflexive_eq. unfold loads. apply list_eq. intros i. rewrite list_lookup_imap, list_lookup_fmap.
      destruct (decide (i < numHosts)%nat); [by rewrite lookup_seq_lt, Adjacency.lookup_repeat by done|].
      rewrite lookup_seq_ge, lookup_ge_None_2 by (rewrite ?repeat_length; lia). done.
    + intros h Hh. cbn. by rewrite Adjacency.lookup_repeat.
    + intros h h' x x' L L'. assert (h < numHosts)%nat by (apply lookup_lt_Some in L; by rewrite repeat_length in L).
      assert (h' < numHosts)%nat by (apply lookup_lt_Some in L'; by rewrite repeat_length in L'). rewrite Adjacency.lookup_repeat in L, L' by done.
      injection L as <-. injection L' as <-. lia.
  - constructor.
  - eapply Forall_impl; [exact F|]. tauto.
  - cbn. by rewrite (total_perm _ _ P').
  - rewrite app_nil_r, P'. apply NoDup_alt. intros i j v Li Lj. rewrite list_lookup_fmap in Li, Lj. unfold loads in Li, Lj.
    rewrite list_lookup_imap in Li, Lj. destruct (counts !! i); [|done]. destruct (counts !! j); [|done]. cbn in *. 
    rewrite Nat2Z.id in Li, Lj. congruence.
  - eapply Forall_impl; [exact F|]. tauto.
  - cbn [bindo]. exists (vTPH a), (numEdges a). rewrite app_nil_r, reverse_involutive in *. split; [done|]. split; [done|]. split; [done|]. split; [|split; [|done]].
    + intros v Hv. destruct (lookup_lt_is_Some_2 counts v Hv) as [c Lc]. rewrite Forall_forall in Mp. destruct (Mp (c, Z.of_nat v)) as (h & L & ?).
      * rewrite P. unfold loads. apply elem_of_lookup_imap. by exists v, c.
      * cbn in L. rewrite Nat2Z.id in L. by exists h.
    + intros h Hh. by rewrite (Sum h Hh), (load_of_perm _ _ _ _ P).
Qed.

(** C23: The virtual hosts are mapped to hosts whose loads differ by no more than the largest count: with one count for each virtual host,
    whose sum is below 2^64, each virtual host is mapped to one of the hosts, the numbers of edges are the sums of the counts of the
    virtual hosts mapped there, and no host has more edges than another one and the largest count together. *)
Theorem mapping_balances std_sort junk hosts numHosts (counts : list Z) M : sorts std_sort -> length junk = length counts ->
  (0 < numHosts <= hosts)%nat -> 0 <= M -> Forall (fun c => 0 <= c <= M) counts -> total (loads counts) < 2 ^ 64 ->
  exists v2p edges, buildVirtualToPhysicalMapping std_sort Success Success Success junk hosts numHosts (loads counts) = Done (inr (v2p, edges)) /\
    length v2p = length counts /\ length edges = numHosts /\
    (forall v, (v < length counts)%nat -> exists h, v2p !! v = Some (Z.of_nat h) /\ (h < numHosts)%nat) /\
    (forall h, (h < numHosts)%nat -> edges !! h = Some (load_of v2p h (loads counts))) /\
    (forall h h' x x', edges !! h = Some x -> edges !! h' = Some x' -> x <= x' + M).
Proof. apply mapping_result. Qed.

(** A sort by insertion. *)
Fixpoint insert_sorted {T} (lt : T -> T -> bool) (x : T) (l : list T) : list T :=
  match l with [] => [x] | y :: l' => if lt y x then y :: insert_sorted lt x l' else x :: l end.
Definition insertion_sort {T} (lt : T -> T -> bool) (l : list T) : list T := foldr (insert_sorted lt) [] l.

Lemma insertion_sort_sorts {T} : sorts (@insertion_sort T).
Proof.
  intros lt l (Irr & Tr & Neg).
  assert (forall x l, insert_sorted lt x l ≡ₚ x :: l) as Perm.
  { intros x k. induction k as [|y k IH]; cbn; [done|]. destruct (lt y x); [|done]. rewrite IH. apply Permutation_swap. }
  assert (forall x l, StronglySorted (fun a b => lt b a = false) l -> StronglySorted (fun a b => lt b a = false) (insert_sorted lt x l)) as Srt.
  { intros x k. induction 1 as [|y k S IH F]; cbn; [repeat constructor|]. destruct (lt y x) eqn:E.
    - constructor; [done|]. rewrite Perm. constructor; [|done]. destruct (lt x y) eqn:E'; [|done]. pose proof (Tr y x y E E') as C. by rewrite Irr in C.
    - constructor; [by constructor|]. constructor; [done|]. eapply Forall_impl; [exact F|]. cbn. intros z Hz. by eapply Neg. }
  induction l as [|x l [IHp IHs]]; cbn; [split; [done|constructor]|]. split; [by rewrite Perm, IHp|by apply Srt].
Qed.

(** Four virtual hosts with 5, 1, 3 and 3 edges on two hosts. *)
Lemma mapping_balances_witness : exists v2p edges,
  buildVirtualToPhysicalMapping insertion_sort Success Success Success [7; 7; 7; 7] 2 2 (loads [5; 1; 3; 3]) = Done (inr (v2p, edges)) /\
  (forall h h' x x', edges !! h = Some x -> edges !! h' = Some x' -> x <= x' + 5).
Proof.
  destruct (mapping_balances insertion_sort [7; 7; 7; 7] 2 2 [5; 1; 3; 3] 5) as (v2p & edges & E & _ & _ & _ & _ & B).
  - apply insertion_sort_sorts.
  - reflexivity.
  - lia.
  - lia.
  - repeat constructor; lia.
  - vm_compute. reflexivity.
  - exists v2p, edges. split; [exact E | exact B].
Defined.

(** ** Partition among the hosts *)

Section Serial.
Context {E : Type} (src : E -> Z).
Context (hash : Z -> Z) (ok : Z -> bool) (pushed pushed_outer : nat -> Status) (initialized : Status).

Local Abbreviation local_edges := (@local_edges E).

(** src/include/pando-lib-galois/import/wmd_graph_importer.hpp:339-343 [partitionEdgesSerially]: an edge goes to the host of its source *)
Definition partition_edge (virtualToPhysicalMapping : list Z) (hosts : list local_edges) (edge : E) : option (outcome (Status * list local_edges)) :=
  let* tgtHost := Some (getPhysical (src edge) virtualToPhysicalMapping) in
  match hosts !! Z.to_nat tgtHost with
  | None => Some (Failed (Undefined "outside a block"))
  | Some st =>
      let* (err, st) := insertLocalEdgesPerThread src hash ok pushed pushed_outer initialized st edge in
      Some (Done (err, <[Z.to_nat tgtHost := st]> hosts))
  end.

(** src/include/pando-lib-galois/import/wmd_graph_importer.hpp:336-345 [partitionEdgesSerially]: the loops over the edges of the threads *)
Fixpoint partition_loop (virtualToPhysicalMapping : list Z) (hosts : list local_edges) (edges : list E) : option (outcome (Status * list local_edges)) :=
  match edges with
  | [] => Some (Done (Success, hosts))
  | e :: edges =>
      let* (err, hosts) := partition_edge virtualToPhysicalMapping hosts e in
      if bool_decide (err = Success) then partition_loop virtualToPhysicalMapping hosts edges else Some (Done (err, hosts))
  end.

(** src/include/pando-lib-galois/import/wmd_graph_importer.hpp:331-335 [partitionEdgesSerially]: each host gets an empty table; asking for
    no entries is not refused *)
Definition new_tables (hosts : list local_edges) : outcome (list local_edges) :=
  let! (_, t) := HashTable.initialize 0 0 ok (HashTable.HashTable HashTable.lit_0_8) 0 in
  Done ((fun st => (t, snd st)) <$> hosts).

(** src/include/pando-lib-galois/import/wmd_graph_importer.hpp:325-347 [partitionEdgesSerially]; [hosts] are the tables and the vectors of
    the hosts, [localEdges] the grouped edges of the threads *)
Definition partitionEdgesSerially (localEdges : list (list (list E))) (virtualToPhysicalMapping : list Z) (hosts : list local_edges)
  : option (outcome (Status * list local_edges)) :=
  let* hosts := Some (new_tables hosts) in partition_loop virtualToPhysicalMapping hosts (concat (concat localEdges)).

(** src/include/pando-lib-galois/import/wmd_graph_importer.hpp:352-372 [partitionEdgesSerially]: for edges that are not grouped *)
Definition partitionEdgesSerially_flat (localEdges : list (list E)) (virtualToPhysicalMapping : list Z) (hosts : list local_edges)
  : option (outcome (Status * list local_edges)) :=
  let* hosts := Some (new_tables hosts) in partition_loop virtualToPhysicalMapping hosts (concat localEdges).

(** src/include/pando-lib-galois/import/wmd_graph_importer.hpp:530-556 [partitionEdgesPerHost]: with empty vectors for the hosts;
    [PANDO_CHECK] stops the program at the first error *)
Definition partitionEdgesPerHost (hosts : nat) (localEdges : list (list (list E))) (v2PM : list Z) : option (outcome (list local_edges)) :=
  let* (err, partEdges) := partitionEdgesSerially localEdges v2PM (repeat (HashTable.HashTable_default, []) hosts) in
  if bool_decide (err = Success) then Some (Done partEdges) else Some (Failed (Aborted "PANDO_CHECK")).

(** The host of a source. *)
Definition host_of (v2p : list Z) (s : Z) : option Z := v2p !! Z.to_nat (s mod Z.of_nat (length v2p)).

(** Each host holds the edges whose sources are its own, grouped. *)
Definition partitioned (v2p : list Z) (es : list E) (hosts : list local_edges) : Prop := forall h st, hosts !! h = Some st ->
  holds_edges src hash (filter (fun e => host_of v2p (src e) = Some (Z.of_nat h)) es) st.

Lemma partition_loop_correct v2p edges H : HashTable.bounded ok -> (0 < length v2p)%nat -> Forall (fun h => 0 <= h < Z.of_nat H) v2p ->
  forall es hosts, length hosts = H -> partitioned v2p es hosts ->
  exists err hosts', partition_loop v2p hosts edges = Some (Done (err, hosts')) /\
    (err = Success -> length hosts' = H /\ partitioned v2p (es ++ edges) hosts') /\ 
    (err <> Success -> exists h, stopped src hash ok pushed pushed_outer initialized (filter (fun e => host_of v2p (src e) = Some h) (es ++ edges)) err).
Proof.
  intros Hok Hv Hh. induction edges as [|e edges IH]; intros es hosts Hl Hp; cbn [partition_loop].
  { exists Success, hosts. split; [done|]. by rewrite app_nil_r. }
  pose proof (Z.mod_pos_bound (src e) (Z.of_nat (length v2p)) ltac:(lia)) as Hm.
  destruct (lookup_lt_is_Some_2 v2p (Z.to_nat (src e mod Z.of_nat (length v2p))) ltac:(lia)) as [h Lh].
  assert (0 <= h < Z.of_nat H) as Bh by (rewrite Forall_forall in Hh; apply Hh; by eapply list_elem_of_lookup_2).
  destruct (lookup_lt_is_Some_2 hosts (Z.to_nat h) ltac:(lia)) as [st Ls].
  unfold partition_edge, getPhysical, modulo. rewrite (proj2 (Z.eqb_neq _ _)) by lia. cbn [bindo]. rewrite Lh. cbn [bindr]. rewrite Ls.
  destruct (insert_correct src hash ok pushed pushed_outer initialized _ st e Hok (Hp _ _ Ls)) as (err & st' & -> & Ok & Bad). cbn [bindr].
  destruct (bool_decide_reflect (err = Success)) as [->|N].
  2: { exists err; eexists; split; [done|]; split; [done|]. intros _. exists (Z.of_nat (Z.to_nat h)). rewrite filter_app, filter_cons.
       rewrite decide_True by (unfold host_of; by rewrite Lh, Z2Nat.id by lia). rewrite (app_assoc _ [e] _ : _ ++ e :: _ = _). by apply stopped_app, Bad. }
  destruct (IH (es ++ [e]) (<[Z.to_nat h := st']> hosts)) as (err & hosts' & E' & Ok').
  - by rewrite length_insert.
  - intros j st2 L2. rewrite filter_app, filter_cons, filter_nil. apply list_lookup_insert_Some in L2 as [(<- & <- & _)|[Nj L2]].
    + rewrite decide_True by (unfold host_of; by rewrite Lh, Z2Nat.id by lia). by apply Ok.
    + rewrite decide_False, app_nil_r; [by apply Hp|]. unfold host_of. rewrite Lh. intros [= ->]. lia.
  - exists err, hosts'. split; [done|]. by rewrite <- app_assoc in Ok'.
Qed.

End Serial.

(** C24: Partitioning the grouped edges of the threads leaves every host with the edges whose sources are mapped to it, each source a group
    with its place in the host's table, in the order of the first edges; or memory was refused, and the answer says so. *)
Theorem partition_serially_spec {E} (src : E -> Z) hash ok pushed pushed_outer initialized localEdges v2p (hosts : list (list (list E))) tables :
  HashTable.bounded ok -> (0 < length v2p)%nat -> Forall (fun h => 0 <= h < Z.of_nat (length hosts)) v2p -> Forall (fun l => l = []) hosts ->
  length tables = length hosts ->
  exists err parts, partitionEdgesSerially src hash ok pushed pushed_outer initialized localEdges v2p (zip tables hosts) = Some (Done (err, parts)) /\
    (err = Success -> length parts = length hosts /\ forall h st, parts !! h = Some st ->
      holds_edges src hash (filter (fun e => host_of v2p (src e) = Some (Z.of_nat h)) (concat (concat localEdges))) st /\
      concat (snd st) ≡ₚ filter (fun e => host_of v2p (src e) = Some (Z.of_nat h)) (concat (concat localEdges))) /\
    (err <> Success -> exists h, stopped src hash ok pushed pushed_outer initialized
      (filter (fun e => host_of v2p (src e) = Some h) (concat (concat localEdges))) err).
Proof.
  intros Hok Hv Hh He Hl. unfold partitionEdgesSerially, new_tables.
  destruct (HashTable.initialize_rep 0 0 hash ok (HashTable.HashTable HashTable.lit_0_8) 0) as (s & t & -> & Em & R & _);
    [split; [done|by left]|done|lia|]. cbn [bindr bindo].
  destruct (partition_loop_correct src hash ok pushed pushed_outer initialized v2p (concat (concat localEdges)) (length hosts) Hok Hv Hh []
    ((fun st => (t, snd st)) <$> zip tables hosts)) as (err & parts & -> & Ok & Bad).
  - rewrite length_fmap, length_zip. lia.
  - intros h st L. rewrite list_lookup_fmap in L. destruct (zip tables hosts !! h) as [[t0 l0]|] eqn:Lz; [|done]. injection L as <-.
    cbn [snd]. assert (l0 = []) as ->.
    { apply lookup_zip_Some in Lz as [_ Lz]. rewrite Forall_forall in He. apply He. by eapply list_elem_of_lookup_2. }
    by apply holds_nil.
  - exists err, parts. split; [done|]. split; [|done]. intros ->. destruct (Ok eq_refl) as [Lp P]. split; [done|]. intros h st L.
    specialize (P h st L). cbn [app] in P. split; [done|]. destruct P as (M & _ & _ & _ & ->). apply groups_perm.
Qed.

(** Edges of two threads on two hosts, where the third of three virtual hosts is with the first one. *)
Lemma partition_serially_spec_witness :
  let edges := [[[(3, 1); (3, 2)]; [(7, 0)]]; [[(5, 5)]; [(3, 9)]]] in
  exists err parts, partitionEdgesSerially fst (fun s => s) (fun n => n <=? 2 ^ 20) (fun _ => Success) (fun _ => Success) Success edges [0; 1; 0]
      (zip (repeat HashTable.HashTable_default 2) (repeat [] 2)) = Some (Done (err, parts)) /\
    (err = Success -> length parts = 2%nat).
Proof.
  intros edges.
  destruct (partition_serially_spec fst (fun s => s) (fun n => n <=? 2 ^ 20) (fun _ => Success) (fun _ => Success) Success edges [0; 1; 0]
    (repeat [] 2) (repeat HashTable.HashTable_default 2)) as (err & parts & E & Ok & _).
  - intros n Hn%Z.leb_le. apply Z.le_trans with (2 ^ 20); [done|]. by vm_compute.
  - cbn. lia.
  - repeat constructor; cbn; lia.
  - repeat constructor.
  - reflexivity.
  - exists err, parts. split; [exact E|]. intros Es. by apply Ok.
Defined.

End EdgePartition.
