(* ===== verification/PartitionParallel.v ===== *)
(** * Distributing vertices and edges among hosts in parallel

    [partitionVerticesParallel] and [partitionEdgesParallely] of [include/pando-lib-galois/import/wmd_graph_importer.hpp].  Each thread sorts
    what it has read by host; for each host, prefix sums over the numbers of items of the threads say where in the host's vector each thread
    writes its share, and the threads write their shares at once.  For edges, the items are groups with the same source, and each host then
    appends the groups it got to the list of their source.  The tasks of a launch run in any order. *)

From Stdlib Require Import Sorting.Sorted Floats.SpecFloat.
From S2P Require Import Prelude HashTable Adjacency PrefixSum EdgePartition.
Import EdgePartition.

Module PartitionParallel.

Local Abbreviation table := (HashTable.table (Key := Z) (T := Z)).
Local Abbreviation hash_fuel t := (2 * length (HashTable.m_buffer t) + 8)%nat.

Definition PANDO_CHECK (s : Status) : outcome unit := guard_or (bool_decide (s = Success)) (Aborted "PANDO_CHECK").

(** The element of a container, which has to be there. *)
Definition elem {A} (l : list A) (i : Z) : outcome A :=
  match (if 0 <=? i then l !! Z.to_nat i else None) with Some a => Done a | None => Failed (Undefined "outside a block") end.

(** ** Prefix sums of counts *)

(** src/include/pando-lib-galois/import/wmd_graph_importer.hpp:142-145 [transmute] *)
Definition transmute (p : Z) : Z := p.
(** src/include/pando-lib-galois/import/wmd_graph_importer.hpp:146-149 [scan_op] *)
Definition scan_op (p l : Z) : Z := u64 (p + l).
(** src/include/pando-lib-galois/import/wmd_graph_importer.hpp:150-153 [combiner] *)
Definition combiner (f s : Z) : Z := u64 (f + s).

Section Sums.
(** [getPlaceDims().core.x * getPlaceDims().core.y], [getThreadDims().id], what the memory of the paste array and of the lock held, and the order
    in which the workers move. *)
Context (cores dim : Z) (paste : list Z) (lock : list Z) (sched : list Z).

(** src/include/pando-lib-galois/utility/prefix_sum.hpp:211-246 [computePrefixSum]: from the counts [arr] into [prefixArr]; no result when
    [sched] leaves a worker that has not ended *)
Definition computePrefixSum (arr prefixArr : list Z) (ns : Z) : option (outcome (list Z)) :=
  let* nt := Some (PrefixSum.workers_of cores ns dim) in
  let* s := Some (PrefixSum.run transmute scan_op combiner arr ns nt sched (PrefixSum.start prefixArr paste lock nt)) in
  if forallb (fun c => match c with PrefixSum.Finished => true | _ => false end) (PrefixSum.pcs s) then Some (Done (PrefixSum.dst s)) else None.
End Sums.

(** ** Sorting by host and writing side by side *)

Section Exchange.
Context {X : Type} (key : X -> outcome Z) (pushed : nat -> Status).
Context (hosts : nat).
(** What the memory of the vector of a host holds before it is written. *)
Context (garbage : nat -> nat -> X).

(** src/include/pando-lib-galois/import/wmd_graph_importer.hpp:238-242 [partitionEdgesParallely]: a thread puts its items into its vectors, one
    per host; the same at lines 420-423 *)
Fixpoint bucket (v2PM : list Z) (items : list X) (vecs : list (list X)) : outcome (list (list X)) :=
  match items with
  | [] => Done vecs
  | x :: items =>
      let! k := key x in
      let! hostID := getPhysical k v2PM in
      let! vec := elem vecs hostID in
      let! _ := PANDO_CHECK (pushed (length vec)) in
      bucket v2PM items (<[Z.to_nat hostID := vec ++ [x]]> vecs)
  end.

(** src/include/pando-lib-galois/import/wmd_graph_importer.hpp:243-247 [partitionEdgesParallely]: the numbers of the items of thread [tid] for
    each host; the same at lines 424-428 *)
Fixpoint store_sizes (tid : nat) (vecs : list (list X)) (counts : list (list Z)) : outcome (list (list Z)) :=
  match vecs, counts with
  | [], [] => Done []
  | vec :: vecs, arr :: counts =>
      let! _ := guard_or (bool_decide (tid < length arr)%nat) (Undefined "outside a block") in
      let! counts := store_sizes tid vecs counts in Done (<[tid := Z.of_nat (length vec)]> arr :: counts)
  | _, _ => Failed (Undefined "outside a block")
  end.

(** src/include/pando-lib-galois/import/wmd_graph_importer.hpp:230-248 [partitionEdgesParallely]: the task of thread [tid]; [v2PM] is the copy
    of the map on its host.  The same at lines 412-429 *)
Definition sort_task (v2PM : list Z) (local : list (list X)) (st : list (list (list X)) * list (list Z)) (tid : nat)
    : outcome (list (list (list X)) * list (list Z)) :=
  let (perThread, counts) := st in
  let! items := elem local (Z.of_nat tid) in
  let! vecs := elem perThread (Z.of_nat tid) in
  let! vecs := bucket v2PM items vecs in
  let! counts := store_sizes tid vecs counts in
  Done (<[tid := vecs]> perThread, counts).

(** src/include/pando-lib-galois/import/wmd_graph_importer.hpp:291-294 [partitionEdgesParallely]: [n] items from [vert] to [vec] *)
Fixpoint paste_loop (n : nat) (vert : list X) (idx it : nat) (vec : list X) : outcome (list X) :=
  match n with
  | O => Done vec
  | S n =>
      let! x := elem vert (Z.of_nat idx) in
      let! _ := guard_or (bool_decide (it < length vec)%nat) (Undefined "outside a block") in
      paste_loop n vert (S idx) (S it) (<[it := x]> vec)
  end.

(** src/include/pando-lib-galois/import/wmd_graph_importer.hpp:280-294 [partitionEdgesParallely]: the share of a thread in the vector of a host;
    from a start behind its end the iterator leaves the vector.  The same at lines 465-479 *)
Definition paste_host (threadID : nat) (prefixArr : list Z) (vert : list X) (vec : list X) : outcome (list X) :=
  let! start := match threadID with O => Done 0 | S t => elem prefixArr (Z.of_nat t) end in
  let! end_ := elem prefixArr (Z.of_nat threadID) in
  let! _ := guard_or (start <=? end_) (Undefined "outside a block") in
  paste_loop (Z.to_nat (end_ - start)) vert 0 (Z.to_nat start) vec.

Fixpoint paste_hosts (threadID : nat) (prefixes : list (list Z)) (vecs phVec : list (list X)) : outcome (list (list X)) :=
  match prefixes, vecs, phVec with
  | [], _, _ => Done phVec
  | prefixArr :: prefixes, vert :: vecs, vec :: phVec =>
      let! vec := paste_host threadID prefixArr vert vec in
      let! phVec := paste_hosts threadID prefixes vecs phVec in Done (vec :: phVec)
  | _, _, _ => Failed (Undefined "outside a block")
  end.

(** src/include/pando-lib-galois/import/wmd_graph_importer.hpp:275-296 [partitionEdgesParallely]: the task of thread [threadID]; the same at
    lines 460-481 *)
Definition paste_task (prefixes : list (list Z)) (perThread : list (list (list X))) (phVec : list (list X)) (threadID : nat) : outcome (list (list X)) :=
  let! vecs := elem perThread (Z.of_nat threadID) in paste_hosts threadID prefixes vecs phVec.

(** src/include/pando-lib-galois/import/wmd_graph_importer.hpp:269-272 [partitionEdgesParallely]: a vector for each host, as large as the last
    prefix sum; the same at lines 452-457 *)
Fixpoint new_vectors (i : nat) (granted : nat -> Status) (prefixes : list (list Z)) (numThreads : nat) : outcome (list (list X)) :=
  match prefixes with
  | [] => Done []
  | prefixArr :: prefixes =>
      let! n := elem prefixArr (Z.of_nat numThreads - 1) in
      let! _ := PANDO_CHECK (granted i) in
      let! rest := new_vectors (S i) granted prefixes numThreads in Done ((garbage i <$> seq 0 (Z.to_nat n)) :: rest)
  end.

(** The prefix sums of all hosts, by [sums], into arrays that held [old]. *)
Fixpoint sum_hosts (sums : list Z -> list Z -> Z -> option (outcome (list Z))) (granted : nat -> Status) (i : nat) (counts old : list (list Z)) (ns : Z)
    : option (outcome (list (list Z))) :=
  match counts, old with
  | arr :: counts, prefixArr :: old =>
      let* _ := Some (PANDO_CHECK (granted i)) in
      let* prefixArr := sums arr prefixArr ns in
      let* rest := sum_hosts sums granted (S i) counts old ns in Some (Done (prefixArr :: rest))
  | _, _ => Some (Done [])
  end.

(** src/include/pando-lib-galois/import/wmd_graph_importer.hpp:210-296 [partitionEdgesParallely]: from the items of the threads to the vectors of
    the hosts; [granted k i] is what memory answers for host [i] at the [k]-th place where it is asked, [old_counts] and [old_sums] are what the
    arrays of counts and sums held, and [sorts] and [pastes] the orders in which the tasks run.  The same at lines 376-486 *)
Definition exchange (sums : list Z -> list Z -> Z -> option (outcome (list Z))) (granted : nat -> nat -> Status) (old_counts old_sums : list (list Z))
    (v2PM : list Z) (local : list (list X)) (sorts pastes : list nat) : option (outcome (list (list X))) :=
  let numThreads := length local in
  let* _ := Some (PANDO_CHECK (granted 0 0)%nat) in
  let perThread := replicate numThreads (replicate hosts []) in
  let* (perThread, counts) := Some (foldo (sort_task v2PM local) (perThread, old_counts) sorts) in
  let* prefixes := sum_hosts sums (granted 1%nat) 0 counts old_sums (Z.of_nat numThreads) in
  let* phVec := Some (new_vectors 0 (granted 2%nat) prefixes numThreads) in
  Some (foldo (paste_task prefixes perThread) phVec pastes).
End Exchange.

(** ** Vertices and edges *)

Section Partition.
Context {VT E : Type} (id : VT -> Z) (src : E -> Z) (hash : Z -> Z) (ok : Z -> bool).
Context (pushed : nat -> Status) (appended : nat -> nat -> Status).
Context (hosts : nat) (garbageV : nat -> nat -> VT) (garbageE : nat -> nat -> list E).
Context (sums : list Z -> list Z -> Z -> option (outcome (list Z))).

(** src/include/pando-lib-galois/import/wmd_graph_importer.hpp:374-487 [partitionVerticesParallel]; the threads free their memory *)
Definition partitionVerticesParallel (granted : nat -> nat -> Status) (old_counts old_sums : list (list Z)) (v2PM : list Z)
    (localReadVertices : list (list VT)) (sorts pastes : list nat) : option (outcome (list (list VT))) :=
  exchange (fun v => Done (id v)) pushed hosts garbageV sums granted old_counts old_sums v2PM localReadVertices sorts pastes.

(** src/include/pando-lib-galois/import/wmd_graph_importer.hpp:186-194 [partitionEdgesParallely]: the places of the vertices of a host *)
Fixpoint rename_loop (partVert : list VT) (idx : Z) (hashRef : table) : option (outcome table) :=
  match partVert with
  | [] => Some (Done hashRef)
  | vertex :: partVert =>
      let? (err, hashRef) := HashTable.put 0 0 hash (hash_fuel hashRef) ok hashRef (id vertex) idx in
      let* _ := Some (PANDO_CHECK err) in
      rename_loop partVert (u64 (idx + 1)) hashRef
  end.
(** src/include/pando-lib-galois/import/wmd_graph_importer.hpp:172-195 [partitionEdgesParallely]: the task of host [i] *)
Definition rename_task (partitionedVertices : list (list VT)) (renamePerHost : list table) (i : nat) : option (outcome (list table)) :=
  let* partVert := Some (elem partitionedVertices (Z.of_nat i)) in
  let* hashRef := Some (elem renamePerHost (Z.of_nat i)) in
  let* hashRef := rename_loop partVert 0 hashRef in Some (Done (<[i := hashRef]> renamePerHost)).

(** src/include/pando-lib-galois/import/wmd_graph_importer.hpp:306-317 [partitionEdgesParallely]: a host appends the groups it got to the lists
    of their sources *)
Fixpoint merge_loop (hashMap : table) (exchangedVec : list (list E)) (partEdges : list (list E)) : option (outcome (Status * list (list E))) :=
  match exchangedVec with
  | [] => Some (Done (Success, partEdges))
  | v :: exchangedVec =>
      let* e := Some (elem v 0) in
      let? ret := HashTable.get 0 0 hash (hash_fuel hashMap) hashMap (src e) in
      match ret with
      | None => Some (Done (Error, partEdges))
      | Some result =>
          let* edgeVec := Some (elem partEdges result) in
          let* _ := Some (PANDO_CHECK (appended (length edgeVec) (length v))) in
          merge_loop hashMap exchangedVec (<[Z.to_nat result := edgeVec ++ v]> partEdges)
      end
  end.
(** src/include/pando-lib-galois/import/wmd_graph_importer.hpp:300-318 [partitionEdgesParallely]: the task of host [host_id], whose answer is not
    looked at *)
Definition merge_task (renamePH : list table) (pHVEdge : list (list (list E))) (partEdges : list (list (list E))) (host_id : nat)
    : option (outcome (list (list (list E)))) :=
  let* exchangedVec := Some (elem pHVEdge (Z.of_nat host_id)) in
  let* hashMap := Some (elem renamePH (Z.of_nat host_id)) in
  let* part := Some (elem partEdges (Z.of_nat host_id)) in
  let* (_, part) := merge_loop hashMap exchangedVec part in Some (Done (<[host_id := part]> partEdges)).

Fixpoint in_order {A} (task : A -> nat -> option (outcome A)) (st : A) (order : list nat) : option (outcome A) :=
  match order with [] => Some (Done st) | i :: order => let* st := task st i in in_order task st order end.

(** src/include/pando-lib-galois/import/wmd_graph_importer.hpp:197-206 [partitionEdgesParallely]: an empty list for each entry of a host's table *)
Definition empty_lists (t : table) : list (list E) := replicate (Z.to_nat (HashTable.size t)) [].

(** src/include/pando-lib-galois/import/wmd_graph_importer.hpp:161-320 [partitionEdgesParallely]; [grants i] is what memory answers to the
    [i]-th request that is no part of [exchange], and [renames] and [merges] are the orders in which the hosts run their tasks *)
Definition partitionEdgesParallely (grants : nat -> Status) (granted : nat -> nat -> Status) (old_counts old_sums : list (list Z))
    (partitionedVertices : list (list VT)) (v2PM : list Z) (localReadEdges : list (list (list E))) (renames sorts pastes merges : list nat)
    : option (outcome (list (list (list E)) * list table)) :=
  let* _ := Some (PANDO_CHECK (grants 0%nat)) in
  let* _ := Some (PANDO_CHECK (grants 1%nat)) in
  let* (s, t) := Some (HashTable.initialize 0 0 ok (HashTable.HashTable HashTable.lit_0_8) 0) in
  let* _ := Some (PANDO_CHECK s) in
  let* renamePerHost := in_order (rename_task partitionedVertices) (replicate hosts t) renames in
  let* _ := Some (PANDO_CHECK (grants 2%nat)) in
  let partEdges := empty_lists <$> renamePerHost in
  let* pHVEdge := exchange (fun v => let! e := elem v 0 in Done (src e)) pushed hosts garbageE sums granted old_counts old_sums v2PM localReadEdges sorts pastes in
  let* partEdges := in_order (merge_task renamePerHost pHVEdge) partEdges merges in
  Some (Done (partEdges, renamePerHost)).
End Partition.

(** ** Prefix sums *)

(** The sums of the first elements of a list of lengths. *)
Definition running {A} (adj : list (list A)) : list Z := (fun k => Z.of_nat (first_edge adj (S k))) <$> seq 0 (length adj).

(** The interface between prefix sums and their users: [sums] computes running sums of [n] counts. *)
Definition sums_counts (n : nat) (sums : list Z -> list Z -> Z -> option (outcome (list Z))) : Prop :=
  forall A (adj : list (list A)) old, length adj = n -> length old = n -> Z.of_nat (length (concat adj)) < 2 ^ 64 ->
    sums ((fun l => Z.of_nat (length l)) <$> adj) old (Z.of_nat n) = Some (Done (running adj)).

Lemma foldl_scan (l : list Z) acc : foldl (fun b a => scan_op a b) acc l = if decide (l = []) then acc else u64 (acc + foldr Z.add 0 l).
Proof.
  revert acc. induction l as [|a l IH]; intros acc; cbn [foldl foldr]; [done|]. rewrite IH. rewrite (decide_False (P := a :: l = [])) by done.
  unfold scan_op. case_decide as D; [subst l; cbn; f_equal; lia|]. rewrite wrapU_add_l. f_equal. lia.
Qed.

Lemma scan_lookup (l : list Z) : forall acc k, PrefixSum.scan_from scan_op acc l !! k =
  if decide (k < length l)%nat then Some (foldl (fun b a => scan_op a b) acc (take (S k) l)) else None.
Proof.
  induction l as [|a l IH]; intros acc k; cbn [PrefixSum.scan_from length]; [by rewrite lookup_nil, decide_False by lia|].
  rewrite lookup_cons. destruct k as [|k]; [by rewrite decide_True by lia|]. rewrite IH. repeat case_decide; (done || lia).
Qed.

Lemma sum_of_lengths {A} (adj : list (list A)) : foldr Z.add 0 ((fun l => Z.of_nat (length l)) <$> adj) = Z.of_nat (length (concat adj)).
Proof. induction adj as [|l adj IH]; [done|]. cbn. rewrite IH, length_app. lia. Qed.

(** The code's prefix sum keeps that promise when there are at least two workers and fewer than counts, and the schedule lets them end. *)
Lemma computePrefixSum_counts cores dim paste lock sched n nt : PrefixSum.workers_of cores (Z.of_nat n) dim = Done nt -> 2 <= nt < Z.of_nat n -> Z.of_nat n < 2 ^ 64 ->
  nt <= Z.of_nat (length paste) < 2 ^ 64 -> nt <= Z.of_nat (length lock) < 2 ^ 64 -> Forall (fun w => 0 <= w < nt) sched ->
  (forall arr old, length arr = n -> length old = n -> computePrefixSum cores dim paste lock sched arr old (Z.of_nat n) <> None) ->
  sums_counts n (computePrefixSum cores dim paste lock sched).
Proof.
  intros Hw Hnt Hn Hp Hl Hs Hc A adj old La Lo Ht. set (arr := (fun l => Z.of_nat (length l)) <$> adj).
  assert (Lr : length arr = n) by (unfold arr; by rewrite length_fmap).
  specialize (Hc arr old Lr Lo). unfold computePrefixSum in *. rewrite Hw in *. cbn [bindr] in *.
  destruct (PrefixSum.prefix_sum_run transmute scan_op combiner arr old paste lock (Z.of_nat n) nt sched) as (s & E & F & _); try done; try lia.
  - intros x y z. unfold combiner. by rewrite wrapU_add_l, wrapU_add_r, Z.add_assoc.
  - intros x y. unfold combiner. f_equal. lia.
  - rewrite E in *. cbn [bindr] in *. destruct (forallb _ _) eqn:B; [|done]. do 2 f_equal.
    assert (Fin : PrefixSum.finished s). { apply Forall_forall. intros c Hc'. apply list_elem_of_In in Hc'. rewrite forallb_forall in B. specialize (B c Hc'). by destruct c. }
    destruct (F Fin) as [T D]. rewrite Nat2Z.id in *. rewrite (take_ge arr) in T by lia. rewrite (drop_ge old) in D by lia.
    rewrite <- (take_drop n (PrefixSum.dst s)), T, D, app_nil_r. destruct adj as [|l adj]; [cbn in La; lia|].
    cbn [arr fmap list_fmap PrefixSum.prefix_sums]. unfold running. apply list_eq. intros k. rewrite list_lookup_fmap. cbn [length].
    destruct k as [|k].
    + cbn. unfold transmute, first_edge. cbn. by rewrite app_nil_r.
    + change (seq 0 (S (length adj))) with (0%nat :: seq 1 (length adj)). rewrite !lookup_cons, scan_lookup, length_fmap.
      case_decide as Dk; [|rewrite lookup_seq_ge by lia; done]. rewrite lookup_seq_lt by done. cbn [fmap option_fmap option_map]. f_equal.
      rewrite foldl_scan. rewrite decide_False by (intros E0; apply (f_equal length) in E0; rewrite length_take, length_fmap in E0; cbn [length] in E0; lia).
      rewrite <- fmap_take, sum_of_lengths. unfold transmute, first_edge.
      change (S (1 + k)) with (S (S k)). change (take (S (S k)) (l :: adj)) with (l :: take (S k) adj). cbn [concat]. rewrite length_app.
      cbn [concat] in Ht. rewrite length_app in Ht. pose proof (first_edge_le adj (S k)) as L. unfold first_edge in L. rewrite wrapU_id by (unfold inU; lia). lia.
Qed.

(** ** The exchange *)

Lemma PANDO_CHECK_ok s : s = Success -> PANDO_CHECK s = Done tt.
Proof. by intros ->. Qed.
Lemma elem_lookup {A} (l : list A) (i : nat) a : l !! i = Some a -> elem l (Z.of_nat i) = Done a.
Proof. intros H. unfold elem. rewrite (proj2 (Z.leb_le 0 (Z.of_nat i))), Nat2Z.id, H by lia. done. Qed.

Section ExchangeSpec.
Context {X : Type} (key : X -> outcome Z) (pushed : nat -> Status) (Hpushed : forall n, pushed n = Success).
Context (hosts : nat) (garbage : nat -> nat -> X) (v2PM : list Z).
Context (Hmap : v2PM <> [] /\ Forall (fun h => 0 <= h < Z.of_nat hosts) v2PM).
Implicit Types (items : list X) (local : list (list X)).

(** The host an item belongs to. *)
Definition dest (x : X) : option Z := match key x with Done k => host_of v2PM k | Failed _ => None end.
Definition mine (h : nat) items : list X := filter (fun x => dest x = Some (Z.of_nat h)) items.
(** What a thread's vectors hold. *)
Definition sorted_by_host items : list (list X) := (fun h => mine h items) <$> seq 0 hosts.

Lemma mine_app h a b : mine h (a ++ b) = mine h a ++ mine h b.
Proof. apply filter_app. Qed.
Lemma mine_concat h local : concat (mine h <$> local) = mine h (concat local).
Proof. induction local as [|l local IH]; [done|]. rewrite fmap_cons. cbn [concat]. by rewrite mine_app, IH. Qed.
Lemma sorted_lookup items h : (h < hosts)%nat -> sorted_by_host items !! h = Some (mine h items).
Proof. intros H. unfold sorted_by_host. by rewrite list_lookup_fmap, lookup_seq_lt. Qed.

Lemma getPhysical_host k : exists h, (h < hosts)%nat /\ host_of v2PM k = Some (Z.of_nat h) /\ getPhysical k v2PM = Done (Z.of_nat h).
Proof.
  destruct Hmap as [Hn Hf]. assert (0 < length v2PM)%nat by (destruct v2PM; [done|cbn; lia]).
  pose proof (Z.mod_pos_bound k (Z.of_nat (length v2PM)) ltac:(lia)).
  destruct (lookup_lt_is_Some_2 v2PM (Z.to_nat (k mod Z.of_nat (length v2PM))) ltac:(lia)) as [h L].
  rewrite Forall_forall in Hf. pose proof (Hf h (list_elem_of_lookup_2 _ _ _ L)). exists (Z.to_nat h). rewrite Z2Nat.id by lia.
  split; [lia|]. split; [exact L|]. unfold getPhysical, modulo. rewrite (proj2 (Z.eqb_neq _ _)) by lia. cbn [bindo]. by rewrite L.
Qed.

Lemma bucket_spec items : (forall x, x ∈ items -> is_done (key x) = true) ->
  forall pre, bucket key pushed v2PM items (sorted_by_host pre) = Done (sorted_by_host (pre ++ items)).
Proof.
  intros Hk. induction items as [|x items IH]; intros pre; cbn [bucket]; [by rewrite app_nil_r|].
  pose proof (Hk x ltac:(by left)) as K. destruct (key x) as [k|] eqn:E; [|done]. cbn [bindo].
  destruct (getPhysical_host k) as (h & Hh & Ho & ->). cbn [bindo]. rewrite (elem_lookup _ h _ (sorted_lookup pre h Hh)). cbn [bindo].
  rewrite PANDO_CHECK_ok by done. cbn [bindo]. rewrite Nat2Z.id.
  replace (<[h := mine h pre ++ [x]]> (sorted_by_host pre)) with (sorted_by_host (pre ++ [x])).
  - rewrite IH by (intros y Hy; apply Hk; by right). by rewrite <- app_assoc.
  - apply list_eq. intros j. rewrite list_lookup_insert. unfold sorted_by_host. rewrite !list_lookup_fmap, length_fmap, length_seq.
    destruct (decide (j < hosts)%nat); [|rewrite lookup_seq_ge by lia; rewrite decide_False by lia; done]. rewrite lookup_seq_lt by done.
    cbn [fmap option_fmap option_map Nat.add]. rewrite mine_app. unfold mine at 2. rewrite filter_cons, filter_nil. unfold dest. rewrite E, Ho.
    destruct (decide (j = h)) as [->|Ne]; [by rewrite !decide_True by done|].
    rewrite !decide_False by (intros D; first [destruct D; lia|simplify_eq; lia]). by rewrite app_nil_r.
Qed.

Lemma store_sizes_spec tid vecs counts : length counts = length vecs -> (forall arr, arr ∈ counts -> (tid < length arr)%nat) ->
  store_sizes tid vecs counts = Done (zip_with (fun vec arr => <[tid := Z.of_nat (length (vec : list X))]> arr) vecs counts).
Proof.
  revert counts. induction vecs as [|vec vecs IH]; intros [|arr counts] L Hc; try done. cbn [store_sizes zip_with].
  rewrite bool_decide_true by (apply Hc; by left). cbn [guard_or bindo]. rewrite IH; [done|by injection L|]. intros a Ha. apply Hc. by right.
Qed.

(** *** The threads sort *)

(** The threads in [done] have sorted their items. *)
Record sorted_phase local (done : list nat) (perThread : list (list (list X))) (counts : list (list Z)) : Prop := mkSorted {
  sp_vecs : length perThread = length local /\ forall t items, local !! t = Some items ->
    perThread !! t = Some (if decide (t ∈ done) then sorted_by_host items else replicate hosts []);
  sp_counts : length counts = hosts /\ forall h arr, counts !! h = Some arr -> length arr = length local /\
    forall t items, local !! t = Some items -> t ∈ done -> arr !! t = Some (Z.of_nat (length (mine h items))) }.

Lemma sort_task_spec local don st t : (forall x, x ∈ concat local -> is_done (key x) = true) -> (t < length local)%nat -> t ∉ don ->
  sorted_phase local don st.1 st.2 -> exists st', sort_task key pushed v2PM local st t = Done st' /\ sorted_phase local (t :: don) st'.1 st'.2.
Proof.
  destruct st as [perThread counts]. cbn [fst snd]. intros Hk Ht Nt [[Lv Hv] [Lc Hc]]. unfold sort_task.
  destruct (lookup_lt_is_Some_2 local t Ht) as [items Li]. rewrite (elem_lookup _ _ _ Li). cbn [bindo].
  pose proof (Hv t items Li) as Lt. rewrite decide_False in Lt by done. rewrite (elem_lookup _ _ _ Lt). cbn [bindo].
  assert (replicate hosts [] = sorted_by_host []) as ->.
  { unfold sorted_by_host. rewrite <- (length_seq hosts 0) at 1. by rewrite <- const_fmap with (f := fun h => mine h []). }
  rewrite bucket_spec by (intros x Hx; apply Hk; apply list_elem_of_In, in_concat; exists items; split; apply list_elem_of_In; [by eapply list_elem_of_lookup_2|done]).
  cbn [bindo app].
  assert (Ls : length (sorted_by_host items) = hosts) by (unfold sorted_by_host; by rewrite length_fmap, length_seq).
  rewrite store_sizes_spec; [|lia|intros arr Ha; apply list_elem_of_lookup in Ha as [h Ha]; by destruct (Hc h arr Ha) as [-> _]].
  cbn [bindo]. eexists. split; [done|]. cbn [fst snd]. constructor.
  - split; [by rewrite length_insert|]. intros u it Lu. destruct (decide (u = t)) as [->|Ne].
    + rewrite list_lookup_insert_eq by lia. rewrite decide_True by (by left). congruence.
    + rewrite list_lookup_insert_ne by done. rewrite (Hv u it Lu). do 2 case_decide; try done; set_solver.
  - split; [rewrite length_zip_with; lia|]. intros h arr La. apply lookup_zip_with_Some in La as (vec & old & -> & Lvec & Lold).
    destruct (Hc h old Lold) as [Lo Ho]. rewrite length_insert. split; [done|]. intros u it Lu Hu.
    assert (h < hosts)%nat by (rewrite <- Ls; by eapply lookup_lt_Some). rewrite sorted_lookup in Lvec by done. injection Lvec as <-.
    destruct (decide (u = t)) as [->|Ne]; [rewrite list_lookup_insert_eq by lia; congruence|]. rewrite list_lookup_insert_ne by done.
    apply Ho; [done|]. set_solver.
Qed.

Lemma sort_run local order : (forall x, x ∈ concat local -> is_done (key x) = true) -> forall don st, NoDup order ->
  (forall t, t ∈ order -> (t ∉ don) /\ (t < length local)%nat) -> sorted_phase local don st.1 st.2 ->
  exists st', foldo (sort_task key pushed v2PM local) st order = Done st' /\ sorted_phase local (order ++ don) st'.1 st'.2.
Proof.
  intros Hk. induction order as [|t order IH]; intros don st N Ho P; cbn [foldo]; [by exists st|].
  apply NoDup_cons in N as [Nt N]. destruct (Ho t ltac:(by left)) as [Nd Ht].
  destruct (sort_task_spec local don st t Hk Ht Nd P) as (st1 & -> & P1). cbn [bindo].
  destruct (IH (t :: don) st1 N) as (st' & -> & P'); [|done|].
  - intros u Hu. destruct (Ho u ltac:(by right)) as [Nu Hu']. split; [|done]. intros [->|?]%elem_of_cons; done.
  - exists st'. split; [done|]. destruct P' as [[A B] [C D]]. constructor; (split; [done|]).
    + intros u it Lu. rewrite (B u it Lu). do 2 case_decide; try done; set_solver.
    + intros h arr La. destruct (D h arr La) as [L K]. split; [done|]. intros u it Lu Hu. apply K; [done|]. set_solver.
Qed.
(** *** The threads write *)

Lemma edge_split {A} (adj : list (list A)) : forall j, (j < length (concat adj))%nat ->
  exists t l k, adj !! t = Some l /\ (k < length l)%nat /\ j = (first_edge adj t + k)%nat.
Proof.
  induction adj as [|l adj IH]; intros j Hj; cbn [concat] in Hj; [cbn in Hj; lia|]. rewrite length_app in Hj.
  destruct (decide (j < length l)%nat) as [Hl|Hl]; [by exists 0%nat, l, j|].
  destruct (IH (j - length l)%nat ltac:(lia)) as (t & l' & k & L & Hk & E). exists (S t), l', k. split; [done|]. split; [done|].
  unfold first_edge in *. change (take (S t) (l :: adj)) with (l :: take t adj). cbn [concat]. rewrite length_app. lia.
Qed.

Lemma paste_loop_spec n : forall (vert : list X) idx it vec, (idx + n <= length vert)%nat -> (it + n <= length vec)%nat ->
  paste_loop n vert idx it vec = Done (splice it (take n (drop idx vert)) vec).
Proof.
  induction n as [|n IH]; intros vert idx it vec Hi Hv; cbn [paste_loop]; [by rewrite take_0, splice_nil|].
  destruct (lookup_lt_is_Some_2 vert idx ltac:(lia)) as [x Lx]. rewrite (elem_lookup _ _ _ Lx). cbn [bindo].
  rewrite bool_decide_true by lia. cbn [guard_or bindo]. rewrite IH by (rewrite ?length_insert; lia).
  rewrite splice_cons by lia. rewrite (drop_S vert x idx Lx). done.
Qed.

Lemma paste_host_spec (adj : list (list X)) t l vec : adj !! t = Some l -> length vec = length (concat adj) ->
  paste_host t (running adj) l vec = Done (splice (first_edge adj t) l vec).
Proof.
  intros Hl Lv. pose proof (lookup_lt_Some _ _ _ Hl). unfold paste_host.
  assert (R : forall k, (k < length adj)%nat -> elem (running adj) (Z.of_nat k) = Done (Z.of_nat (first_edge adj (S k)))).
  { intros k Hk. apply elem_lookup. unfold running. by rewrite list_lookup_fmap, lookup_seq_lt. }
  assert (match t with O => Done 0 | S t => elem (running adj) (Z.of_nat t) end = Done (Z.of_nat (first_edge adj t))) as ->.
  { destruct t; [done|]. apply R. lia. }
  cbn [bindo]. rewrite R by done. cbn [bindo]. pose proof (first_edge_S adj t l Hl). pose proof (first_edge_le adj (S t)).
  rewrite (proj2 (Z.leb_le _ _)) by lia. cbn [guard_or bindo]. rewrite Nat2Z.id.
  replace (Z.to_nat (Z.of_nat (first_edge adj (S t)) - Z.of_nat (first_edge adj t))) with (length l) by lia.
  rewrite paste_loop_spec by lia. by rewrite drop_0, take_ge by lia.
Qed.

Lemma paste_hosts_spec t prefixes : forall (vecs phVec : list (list X)) (f : nat -> list X -> list X),
  length prefixes = length phVec -> length vecs = length phVec ->
  (forall h pf vt v, prefixes !! h = Some pf -> vecs !! h = Some vt -> phVec !! h = Some v -> paste_host t pf vt v = Done (f h v)) ->
  paste_hosts t prefixes vecs phVec = Done (imap f phVec).
Proof.
  induction prefixes as [|pf prefixes IH]; intros [|vt vecs] [|v phVec] f L1 L2 Hf; try done.
  cbn [paste_hosts]. rewrite (Hf 0%nat pf vt v) by done. cbn [bindo].
  rewrite (IH vecs phVec (fun h => f (S h))); [done|by injection L1|by injection L2|]. intros h pf' vt' v' A B C. by apply (Hf (S h) pf').
Qed.

(** The threads in [done] have written their items. *)
Definition pasted local (done : list nat) (phVec : list (list X)) : Prop := length phVec = hosts /\
  forall h vec, phVec !! h = Some vec -> let adj := mine h <$> local in length vec = length (concat adj) /\
    forall t l k, t ∈ done -> adj !! t = Some l -> (k < length l)%nat -> vec !! (first_edge adj t + k)%nat = l !! k.

Lemma paste_task_spec local don prefixes perThread phVec t : (t < length local)%nat ->
  prefixes = (fun h => running (mine h <$> local)) <$> seq 0 hosts -> (forall items, local !! t = Some items -> perThread !! t = Some (sorted_by_host items)) ->
  pasted local don phVec -> exists phVec', paste_task prefixes perThread phVec t = Done phVec' /\ pasted local (t :: don) phVec'.
Proof.
  intros Ht -> Hp [Lp P]. unfold paste_task. destruct (lookup_lt_is_Some_2 local t Ht) as [items Li]. rewrite (elem_lookup _ _ _ (Hp items Li)). cbn [bindo].
  rewrite (paste_hosts_spec t _ _ _ (fun h v => splice (first_edge (mine h <$> local) t) (mine h items) v)).
  - eexists. split; [done|]. split; [by rewrite length_imap|]. intros h vec Lv. rewrite list_lookup_imap in Lv.
    destruct (phVec !! h) as [v|] eqn:Lh; [|done]. injection Lv as <-. destruct (P h v Lh) as [Lv Q].
    assert (La : (mine h <$> local) !! t = Some (mine h items)) by (by rewrite list_lookup_fmap, Li).
    pose proof (first_edge_S _ _ _ La). pose proof (first_edge_le (mine h <$> local) (S t)). rewrite splice_length by lia. split; [done|].
    intros u l k Hu Lu Hk. destruct (decide (u = t)) as [->|Ne].
    + replace l with (mine h items) in * by congruence. by apply splice_lookup_in; lia.
    + rewrite splice_lookup_out; [apply Q; try done; set_solver|lia|]. pose proof (first_edge_S _ _ _ Lu).
      destruct (decide (u < t)%nat) as [C|C]; [left; pose proof (first_edge_mono (mine h <$> local) (S u) t); lia|right].
      pose proof (first_edge_mono (mine h <$> local) (S t) u). lia.
  - by rewrite length_fmap, length_seq.
  - unfold sorted_by_host. by rewrite length_fmap, length_seq.
  - intros h pf vt v A B C. assert (h < hosts)%nat by (rewrite <- Lp; by eapply lookup_lt_Some).
    rewrite list_lookup_fmap, lookup_seq_lt in A by done. injection A as <-. rewrite sorted_lookup in B by done. injection B as <-.
    apply paste_host_spec; [by rewrite list_lookup_fmap, Li|by destruct (P h v C)].
Qed.

Lemma paste_run local prefixes perThread order : prefixes = (fun h => running (mine h <$> local)) <$> seq 0 hosts ->
  (forall t items, local !! t = Some items -> perThread !! t = Some (sorted_by_host items)) -> forall don phVec,
  (forall t, t ∈ order -> (t < length local)%nat) -> pasted local don phVec ->
  exists phVec', foldo (paste_task prefixes perThread) phVec order = Done phVec' /\ pasted local (order ++ don) phVec'.
Proof.
  intros Hpf Hp. induction order as [|t order IH]; intros don phVec Ho P; cbn [foldo]; [by exists phVec|].
  destruct (paste_task_spec local don prefixes perThread phVec t (Ho t ltac:(by left)) Hpf (Hp t) P) as (ph1 & -> & P1). cbn [bindo].
  destruct (IH (t :: don) ph1) as (phVec' & -> & L & P'); [intros u Hu; apply Ho; by right|done|].
  exists phVec'. split; [done|]. split; [done|]. intros h vec Lv. destruct (P' h vec Lv) as [Lc Q]. split; [done|].
  intros u l k Hu. apply Q. set_solver.
Qed.

Lemma pasted_all local done phVec : (forall t, (t < length local)%nat -> t ∈ done) -> pasted local done phVec ->
  phVec = (fun h => mine h (concat local)) <$> seq 0 hosts.
Proof.
  intros Hd [Lp P]. apply list_eq. intros h. destruct (decide (h < hosts)%nat) as [Hh|Hh].
  2: { rewrite !lookup_ge_None_2; [done|rewrite length_fmap, length_seq; lia|lia]. }
  rewrite list_lookup_fmap, lookup_seq_lt by done. cbn [fmap option_fmap option_map Nat.add].
  destruct (lookup_lt_is_Some_2 phVec h ltac:(lia)) as [vec Lv]. rewrite Lv. f_equal. destruct (P h vec Lv) as [Lc Q].
  rewrite <- mine_concat. apply list_eq. intros j. destruct (decide (j < length vec)%nat) as [Hj|Hj]; [|rewrite !lookup_ge_None_2; (done || lia)].
  rewrite Lc in Hj. destruct (edge_split _ j Hj) as (t & l & k & L & Hk & ->). rewrite (Q t l k) by (done || (apply Hd; apply lookup_lt_Some in L; by rewrite length_fmap in L)).
  symmetry. by apply concat_edge.
Qed.
(** *** All together *)

Lemma sum_hosts_spec sums granted ns counts prefixes : Forall2 (fun arr pf => forall old, Z.of_nat (length old) = ns -> sums arr old ns = Some (Done pf)) counts prefixes ->
  (forall i, granted i = Success) -> forall i old, length old = length counts -> Forall (fun l : list Z => Z.of_nat (length l) = ns) old ->
  sum_hosts sums granted i counts old ns = Some (Done prefixes).
Proof.
  intros F Hg. induction F as [|arr pf counts prefixes H F IH]; intros i [|o old] L Fo; try done. cbn [sum_hosts].
  apply Forall_cons in Fo as [Ho Fo]. rewrite PANDO_CHECK_ok by done. cbn [bindr]. rewrite (H o Ho). cbn [bindr].
  rewrite IH; [done|by injection L|done].
Qed.

Lemma new_vectors_spec granted numThreads prefixes : (forall i, granted i = Success) -> forall i,
  Forall (fun pf => exists n, elem pf (Z.of_nat numThreads - 1) = Done (Z.of_nat n)) prefixes ->
  exists r, new_vectors garbage i granted prefixes numThreads = Done r /\ length r = length prefixes /\
    forall h pf v, prefixes !! h = Some pf -> r !! h = Some v -> elem pf (Z.of_nat numThreads - 1) = Done (Z.of_nat (length v)).
Proof.
  intros Hg. induction prefixes as [|pf prefixes IH]; intros i F; cbn [new_vectors]; [by exists []|].
  apply Forall_cons in F as [[n En] F]. rewrite En. cbn [bindo]. rewrite PANDO_CHECK_ok by done. cbn [bindo].
  destruct (IH (S i) F) as (r & -> & L & R). cbn [bindo]. eexists. split; [done|]. split; [cbn; by rewrite L|].
  intros [|h] pf' v A B; [|by apply (R h)]. injection A as <-. injection B as <-. by rewrite length_fmap, length_seq, Nat2Z.id.
Qed.

Lemma exchange_result sums granted old_counts old_sums local sorts pastes :
  sums_counts (length local) sums -> (forall k i, granted k i = Success) -> (0 < length local)%nat ->
  length old_counts = hosts -> Forall (fun l => length l = length local) old_counts ->
  length old_sums = hosts -> Forall (fun l => length l = length local) old_sums ->
  sorts ≡ₚ seq 0 (length local) -> pastes ≡ₚ seq 0 (length local) -> Z.of_nat (length (concat local)) < 2 ^ 64 ->
  (forall x, x ∈ concat local -> is_done (key x) = true) ->
  exchange key pushed hosts garbage sums granted old_counts old_sums v2PM local sorts pastes =
    Some (Done ((fun h => mine h (concat local)) <$> seq 0 hosts)).
Proof.
  intros Hs Hg HN Lc Fc Ls Fs Ps Pp Ht Hk. unfold exchange. rewrite PANDO_CHECK_ok by done. cbn [bindr].
  assert (In : forall order, order ≡ₚ seq 0 (length local) -> forall t, (t < length local)%nat -> t ∈ order ++ []).
  { intros order P t Hlt. rewrite app_nil_r, P. apply elem_of_seq. lia. }
  destruct (sort_run local sorts Hk [] (replicate (length local) (replicate hosts []), old_counts)) as ([perThread counts] & -> & [[Lv Hv] [Lcs Hc]]).
  - rewrite Ps. apply NoDup_seq.
  - intros t Hlt. rewrite Ps in Hlt. apply elem_of_seq in Hlt. split; [by intros ?%elem_of_nil|lia].
  - constructor; cbn [fst snd].
    + split; [by rewrite length_replicate|]. intros t items L. rewrite decide_False by (by intros ?%elem_of_nil). apply lookup_replicate_2. by eapply lookup_lt_Some.
    + split; [done|]. intros h arr L. rewrite Forall_forall in Fc. split; [apply Fc; by eapply list_elem_of_lookup_2|]. by intros t items _ ?%elem_of_nil.
  - cbn [fst snd bindr] in *. set (prefixes := (fun h => running (mine h <$> local)) <$> seq 0 hosts).
    assert (Lt : forall h, (length (concat (mine h <$> local)) <= length (concat local))%nat).
    { intros h. rewrite mine_concat. apply length_filter. }
    rewrite (sum_hosts_spec sums _ _ counts prefixes); [|apply Forall2_same_length_lookup_2|done|lia|].
    + cbn [bindr]. assert (Fp : Forall (fun pf => exists n, elem pf (Z.of_nat (length local) - 1) = Done (Z.of_nat n)) prefixes).
      { apply Forall_forall. intros pf (h & -> & _)%list_elem_of_fmap. replace (Z.of_nat (length local) - 1) with (Z.of_nat (length local - 1)) by lia.
        eexists. apply elem_lookup. unfold running. by rewrite list_lookup_fmap, length_fmap, lookup_seq_lt by lia. }
      destruct (new_vectors_spec (granted 2%nat) (length local) prefixes (Hg 2%nat) 0 Fp) as (r & -> & Lr & Hr). cbn [bindr].
      destruct (paste_run local prefixes perThread pastes eq_refl) with (don := @nil nat) (phVec := r) as (phVec & -> & P).
      * intros t items L. rewrite (Hv t items L), decide_True; [done|]. apply In; [done|]. by eapply lookup_lt_Some.
      * intros t Hlt. rewrite Pp in Hlt. apply elem_of_seq in Hlt. lia.
      * unfold prefixes in Lr. rewrite length_fmap, length_seq in Lr. split; [done|]. intros h vec L. assert (h < hosts)%nat by (rewrite <- Lr; by eapply lookup_lt_Some).
        split; [|by intros t l k ?%elem_of_nil].
        assert (Lp : prefixes !! h = Some (running (mine h <$> local))) by (unfold prefixes; by rewrite list_lookup_fmap, lookup_seq_lt).
        pose proof (Hr h _ vec Lp L) as Er. replace (Z.of_nat (length local) - 1) with (Z.of_nat (length local - 1)) in Er by lia.
        assert (Es : elem (running (mine h <$> local)) (Z.of_nat (length local - 1)) = Done (Z.of_nat (first_edge (mine h <$> local) (S (length local - 1))))).
        { apply elem_lookup. unfold running. by rewrite list_lookup_fmap, length_fmap, lookup_seq_lt by lia. }
        rewrite Er in Es. injection Es as Es. rewrite first_edge_all in Es by (rewrite length_fmap; lia). lia.
      * f_equal. f_equal. apply (pasted_all local (pastes ++ [])); [by apply In|done].
    + unfold prefixes. by rewrite length_fmap, length_seq.
    + intros h arr pf La Lpf. assert (h < hosts)%nat by (rewrite <- Lcs; by eapply lookup_lt_Some).
      unfold prefixes in Lpf. rewrite list_lookup_fmap, lookup_seq_lt in Lpf by done. injection Lpf as <-.
      assert (arr = (fun l => Z.of_nat (length l)) <$> (mine h <$> local)) as ->.
      { destruct (Hc h arr La) as [L K]. apply list_eq. intros t. rewrite !list_lookup_fmap. destruct (local !! t) as [items|] eqn:Li.
        - rewrite (K t items Li); [done|]. apply In; [done|]. by eapply lookup_lt_Some.
        - apply lookup_ge_None_1 in Li. rewrite lookup_ge_None_2 by lia. done. }
      intros old Lo. apply Hs; [by rewrite length_fmap|lia|]. pose proof (Lt h). cbn [Nat.add]. lia.
    + eapply Forall_impl; [exact Fs|]. intros l. cbn. lia.
Qed.
End ExchangeSpec.

(** ** The edges of the hosts *)

Section EdgesSpec.
Context {VT E : Type} (id : VT -> Z) (src : E -> Z) (hash : Z -> Z) (ok : Z -> bool) (Hok : HashTable.bounded ok).
Implicit Types (t : table) (ids : list Z) (g : list E).

(** The table gives each of [ids] its place. *)
Definition named t ids : Prop := exists M, HashTable.rep 0 0 hash t M /\ HashTable.maxLoadFactor t = HashTable.to_float HashTable.lit_0_8 /\ indexes M ids.
(** Some of [ids] have been put in a table, which has to grow and is refused. *)
Definition naming_refused ids : Prop := exists ids0 t, ids0 `prefix_of` ids /\ named t ids0 /\ HashTable.crowded t = true /\ ok (HashTable.nextCapacity t) = false.

Lemma indexes_snoc M ids s : indexes M ids -> s ∉ ids -> indexes (<[s := Z.of_nat (length ids)]> M) (ids ++ [s]).
Proof.
  intros Ix Hs s' i. destruct (decide (s' = s)) as [->|N].
  - rewrite lookup_insert_eq. split.
    + intros [= <-]. exists (length ids). by rewrite lookup_app_r, Nat.sub_diag by lia.
    + intros (k & -> & L). apply lookup_app_Some in L as [L|[Hk L]]; [by apply list_elem_of_lookup_2 in L|].
      apply list_lookup_singleton_Some in L as [Hk' _]. do 2 f_equal. lia.
  - rewrite lookup_insert_ne by done. rewrite (Ix s' i). split; intros (k & -> & L); exists k; (split; [done|]).
    + by apply lookup_app_l_Some.
    + apply lookup_app_Some in L as [L|[_ L]]; [done|]. by apply list_lookup_singleton_Some in L as [_ <-].
Qed.

Lemma indexes_size M ids : indexes M ids -> NoDup ids -> base.size M = length ids.
Proof.
  intros Ix N. rewrite <- (size_dom (D := gset Z)), <- (size_list_to_set (C := gset Z) ids N). f_equal. apply set_eq. intros s.
  rewrite elem_of_dom, elem_of_list_to_set. split.
  - intros [i Hi]. apply Ix in Hi as (k & _ & L). by eapply list_elem_of_lookup_2.
  - intros [k L]%list_elem_of_lookup. exists (Z.of_nat k). apply Ix. by exists k.
Qed.

Lemma rename_loop_spec (vs : list VT) : forall (pre : list VT) t, named t (id <$> pre) -> NoDup (id <$> pre ++ vs) -> Z.of_nat (length (pre ++ vs)) < 2 ^ 64 ->
  rename_loop id hash ok vs (Z.of_nat (length pre)) t = Some (Failed (Aborted "PANDO_CHECK")) /\ naming_refused (id <$> pre ++ vs) \/
  exists t', rename_loop id hash ok vs (Z.of_nat (length pre)) t = Some (Done t') /\ named t' (id <$> pre ++ vs).
Proof.
  induction vs as [|v vs IH]; intros pre t Ht N B; cbn [rename_loop]; [right; exists t; by rewrite app_nil_r|].
  destruct Ht as (M & R & L & Ix). pose proof HashTable.default_roomy as Room. rewrite <- L in Room.
  destruct (HashTable.put_correct 0 0 hash ok Hok t M (id v) (Z.of_nat (length pre)) (2 * length (HashTable.m_buffer t) + 8) R Room
    ltac:(unfold HashTable.enough; lia)) as (s & t' & -> & El & [[-> R']|(-> & -> & Cr & No)]).
  - rewrite PANDO_CHECK_ok by done. cbn [bindr]. rewrite (app_assoc pre [v] vs : pre ++ v :: vs = _) in *.
    pose proof B as B'. rewrite !length_app in B'. cbn in B'. rewrite wrapU_id by (unfold inU; lia).
    replace (Z.of_nat (length pre) + 1) with (Z.of_nat (length (pre ++ [v]))) by (rewrite length_app; cbn; lia).
    apply IH; [|done|done].
    exists (<[id v := Z.of_nat (length pre)]> M). split; [done|]. split; [by rewrite El|]. rewrite fmap_app.
    replace (length pre) with (length (id <$> pre)) by apply length_fmap. apply indexes_snoc; [done|].
    rewrite <- app_assoc, fmap_app in N. apply NoDup_app in N as (_ & N & _). intros H. apply (N _ H). rewrite fmap_app. apply elem_of_app. left. by left.
  - left. unfold PANDO_CHECK. rewrite bool_decide_false by done. split; [done|]. exists (id <$> pre), t. split; [rewrite fmap_app; by apply prefix_app_r|].
    split; [by exists M; split_and!|split; [exact Cr|exact No]].
Qed.

Lemma rename_run hosts (pvs : list (list VT)) t0 order : named t0 [] -> length pvs = hosts ->
  (forall vs, vs ∈ pvs -> NoDup (id <$> vs) /\ Z.of_nat (length vs) < 2 ^ 64) -> forall don tables, NoDup order ->
  (forall i, i ∈ order -> (i ∉ don) /\ (i < hosts)%nat) -> length tables = hosts ->
  (forall i vs, pvs !! i = Some vs -> exists t, tables !! i = Some t /\ if decide (i ∈ don) then named t (id <$> vs) else t = t0) ->
  in_order (rename_task id hash ok pvs) tables order = Some (Failed (Aborted "PANDO_CHECK")) /\ (exists vs, vs ∈ pvs /\ naming_refused (id <$> vs)) \/
  exists tables', in_order (rename_task id hash ok pvs) tables order = Some (Done tables') /\ length tables' = hosts /\
    forall i vs, pvs !! i = Some vs -> i ∈ order ++ don -> exists t, tables' !! i = Some t /\ named t (id <$> vs).
Proof.
  intros H0 Lp Hv. induction order as [|i order IH]; intros don tables N Ho Lt Ht; cbn [in_order].
  { right. exists tables. split; [done|]. split; [done|]. intros i vs L Hi. destruct (Ht i vs L) as (t & Et & D). exists t. by rewrite decide_True in D. }
  apply NoDup_cons in N as [Ni N]. destruct (Ho i ltac:(by left)) as [Nd Hi]. destruct (lookup_lt_is_Some_2 pvs i ltac:(lia)) as [vs L].
  destruct (Ht i vs L) as (t & Et & Dt). rewrite decide_False in Dt by done. subst t. unfold rename_task at 1 3.
  rewrite (elem_lookup _ _ _ L), (elem_lookup _ _ _ Et). cbn [bindr].
  destruct (Hv vs (list_elem_of_lookup_2 _ _ _ L)) as [Nvs Bvs].
  destruct (rename_loop_spec vs [] t0 H0 Nvs Bvs) as [[W R]|(t' & W & R)]; change (Z.of_nat (length [])) with 0 in W; rewrite W; cbn [bindr].
  { left. split; [done|]. exists vs. split; [by eapply list_elem_of_lookup_2|done]. }
  destruct (IH (i :: don) (<[i := t']> tables) N) as [[-> F]|(tables' & -> & Lt' & Q)].
  - intros j Hj. destruct (Ho j ltac:(by right)) as [Nj Hj']. split; [|done]. intros [->|?]%elem_of_cons; done.
  - by rewrite length_insert.
  - intros j vs' L'. destruct (decide (j = i)) as [->|Ne].
    + exists t'. rewrite list_lookup_insert_eq, decide_True by (lia || by left). replace vs' with vs by congruence. done.
    + rewrite list_lookup_insert_ne by done. destruct (Ht j vs' L') as (u & Eu & Du). exists u. split; [done|].
      do 2 case_decide; try done; set_solver.
  - by left.
  - right. exists tables'. split; [done|]. split; [done|]. intros j vs' L' Hj. apply Q; [done|]. set_solver.
Qed.

(** *** Appending groups *)

(** The source of a group. *)
Definition starts (s : Z) g : bool := match g with e :: _ => src e =? s | [] => false end.
Definition collected (s : Z) (gs : list (list E)) : list E := concat (filter (fun g => starts s g = true) gs).

Lemma collected_app s a b : collected s (a ++ b) = collected s a ++ collected s b.
Proof. unfold collected. by rewrite filter_app, concat_app. Qed.

Lemma merge_loop_spec (appended : nat -> nat -> Status) t ids gs : (forall a b, appended a b = Success) -> named t ids -> NoDup ids ->
  (forall g, g ∈ gs -> exists s, starts s g = true /\ s ∈ ids) -> forall pre,
  merge_loop src hash appended t gs ((fun s => collected s pre) <$> ids) = Some (Done (Success, (fun s => collected s (pre ++ gs)) <$> ids)).
Proof.
  intros Ha (M & R & _ & Ix) N. induction gs as [|g gs IH]; intros Hg pre; cbn [merge_loop]; [by rewrite app_nil_r|].
  destruct (Hg g ltac:(by left)) as (s & Sg & Is). destruct g as [|e g]; [done|]. cbn [starts] in Sg. apply Z.eqb_eq in Sg.
  change (elem (e :: g) 0) with (Done e). cbn [bindr].
  rewrite (HashTable.get_correct 0 0 hash t M (src e) _ R) by (unfold HashTable.enough; lia).
  apply list_elem_of_lookup in Is as [k Lk]. assert (M !! src e = Some (Z.of_nat k)) as -> by (apply Ix; exists k; by rewrite Sg).
  rewrite (elem_lookup _ k (collected s pre)) by (by rewrite list_lookup_fmap, Lk). cbn [bindr].
  rewrite PANDO_CHECK_ok by done. cbn [bindr]. rewrite Nat2Z.id.
  replace (<[k := collected s pre ++ e :: g]> ((fun s => collected s pre) <$> ids)) with ((fun s => collected s (pre ++ [e :: g])) <$> ids).
  - rewrite IH by (intros g' Hg'; apply Hg; by right). by rewrite <- app_assoc.
  - apply list_eq. intros j. rewrite list_lookup_insert, !list_lookup_fmap, length_fmap. pose proof (lookup_lt_Some _ _ _ Lk).
    assert (C : forall s', collected s' (pre ++ [e :: g]) = collected s' pre ++ if decide (s' = s) then e :: g else []).
    { intros s'. rewrite collected_app. f_equal. unfold collected. rewrite filter_cons, filter_nil. cbn [starts]. rewrite Sg.
      destruct (decide (s' = s)) as [->|Ne]; [rewrite decide_True by apply Z.eqb_refl; cbn; by rewrite app_nil_r|].
      rewrite decide_False; [done|]. rewrite Z.eqb_eq. congruence. }
    destruct (decide (j = k)) as [->|Ne].
    + rewrite Lk, decide_True by done. cbn. by rewrite C, decide_True by done.
    + rewrite (decide_False (P := k = j /\ _)) by (intros [? _]; congruence). destruct (ids !! j) as [s'|] eqn:Lj; [|done]. cbn.
      rewrite C, decide_False, app_nil_r; [done|]. intros ->. apply Ne. by eapply NoDup_lookup.
Qed.

(** The groups of all threads with source [s] are its edges. *)
Lemma collected_groups s es : collected s (groups src es) = from src s es.
Proof.
  unfold groups. pose proof (sources_spec src es) as [N S].
  assert (forall l, NoDup l -> (forall x, x ∈ l -> x ∈ sources src es) ->
    collected s ((fun s => from src s es) <$> l) = if decide (s ∈ l) then from src s es else []) as K.
  { induction l as [|x l IH]; intros Nl Hl; [done|]. apply NoDup_cons in Nl as [Nx Nl]. rewrite fmap_cons.
    change (from src x es :: ((fun s => from src s es) <$> l)) with ([from src x es] ++ ((fun s => from src s es) <$> l)).
    rewrite collected_app, IH by (done || (intros y Hy; apply Hl; by right)).
    assert (starts s (from src x es) = bool_decide (x = s)) as Hs.
    { destruct (proj1 (S x) (Hl x ltac:(by left))) as (e & He & Ex). assert (e ∈ from src x es) as Hf by (by apply list_elem_of_filter).
      destruct (from src x es) as [|e' f] eqn:F; [by apply elem_of_nil in Hf|]. assert (src e' = x) as E'.
      { assert (e' ∈ from src x es) as K by (rewrite F; by left). by apply list_elem_of_filter in K as [? _]. }
      cbn. rewrite E'. by destruct (Z.eqb_spec x s); [rewrite bool_decide_true|rewrite bool_decide_false]. }
    unfold collected at 1. rewrite filter_cons, filter_nil. rewrite Hs. destruct (decide (x = s)) as [->|Ne].
    - rewrite bool_decide_true, decide_True by done. cbn. rewrite decide_False, app_nil_r, app_nil_r by done. by rewrite decide_True by (by left).
    - rewrite bool_decide_false, decide_False by done. cbn. destruct (decide (s ∈ l)) as [Hs'|Hs']; [by rewrite decide_True by (by right)|].
      rewrite decide_False; [done|]. intros [->|?]%elem_of_cons; done. }
  rewrite K by done. case_decide as D; [done|]. symmetry. apply filter_none, Forall_forall. intros e He Es. apply D, S. by exists e.
Qed.

Lemma collected_threads s (threads : list (list E)) : collected s (concat (groups src <$> threads)) = from src s (concat threads).
Proof.
  induction threads as [|es l IH]; [done|]. rewrite fmap_cons. cbn [concat]. rewrite collected_app, collected_groups, IH. unfold from. by rewrite filter_app.
Qed.

Lemma merge_run hosts (pvs : list (list VT)) (appended : nat -> nat -> Status) tables (exchanged : list (list (list E))) order : (forall a b, appended a b = Success) ->
  (forall i vs, pvs !! i = Some vs -> NoDup (id <$> vs) /\ exists t, tables !! i = Some t /\ named t (id <$> vs)) ->
  (forall i vs, pvs !! i = Some vs -> exists gs, exchanged !! i = Some gs /\ forall g, g ∈ gs -> exists s, starts s g = true /\ s ∈ id <$> vs) ->
  length pvs = hosts -> forall don parts, NoDup order -> (forall i, i ∈ order -> (i ∉ don) /\ (i < hosts)%nat) -> length parts = hosts ->
  (forall i vs gs, pvs !! i = Some vs -> exchanged !! i = Some gs ->
    parts !! i = Some ((fun s => collected s (if decide (i ∈ don) then gs else [])) <$> (id <$> vs))) ->
  exists parts', in_order (merge_task src hash appended tables exchanged) parts order = Some (Done parts') /\ length parts' = hosts /\
    forall i vs gs, pvs !! i = Some vs -> exchanged !! i = Some gs -> i ∈ order ++ don -> parts' !! i = Some ((fun s => collected s gs) <$> (id <$> vs)).
Proof.
  intros Ha Ht Hx Lp. induction order as [|i order IH]; intros don parts N Ho Ln Hp; cbn [in_order].
  { exists parts. split; [done|]. split; [done|]. intros i vs gs L Lg Hi. rewrite (Hp i vs gs L Lg). by rewrite decide_True. }
  apply NoDup_cons in N as [Ni N]. destruct (Ho i ltac:(by left)) as [Nd Hi]. destruct (lookup_lt_is_Some_2 pvs i ltac:(lia)) as [vs L].
  destruct (Ht i vs L) as (Nv & t & Et & Dt), (Hx i vs L) as (gs & Lg & Hg). pose proof (Hp i vs gs L Lg) as Hpi. rewrite decide_False in Hpi by done.
  unfold merge_task at 1. rewrite (elem_lookup _ _ _ Lg), (elem_lookup _ _ _ Et), (elem_lookup _ _ _ Hpi). cbn [bindr].
  rewrite (merge_loop_spec appended t (id <$> vs) gs Ha Dt Nv Hg []). cbn [bindr app].
  destruct (IH (i :: don) (<[i := (fun s => collected s gs) <$> (id <$> vs)]> parts) N) as (parts' & -> & Ln' & Q).
  - intros j Hj. destruct (Ho j ltac:(by right)) as [Nj Hj']. split; [|done]. intros [->|?]%elem_of_cons; done.
  - by rewrite length_insert.
  - intros j vs' gs' L' Lg'. destruct (decide (j = i)) as [->|Ne].
    + rewrite list_lookup_insert_eq, decide_True by (lia || by left). by replace gs' with gs by congruence; replace vs' with vs by congruence.
    + rewrite list_lookup_insert_ne by done. rewrite (Hp j vs' gs' L' Lg'). destruct (decide (j ∈ don)) as [D|D].
      * by rewrite decide_True by (by right).
      * rewrite decide_False; [done|]. intros [->|?]%elem_of_cons; done.
  - exists parts'. split; [done|]. split; [done|]. intros j vs' gs' L' Lg' Hj. apply Q; [done..|].
    apply elem_of_cons in Hj as [->|[Hj|Hj]%elem_of_app]; apply elem_of_app; [right; by left|by left|right; by right].
Qed.

Lemma collected_mine v2PM h s (gs : list (list E)) : host_of v2PM s = Some (Z.of_nat h) ->
  collected s (mine (fun v => let! e := elem v 0 in Done (src e)) v2PM h gs) = collected s gs.
Proof.
  intros Hh. unfold collected, mine. rewrite list_filter_filter. f_equal. apply list_filter_iff. intros g. cbv beta. split; [by intros [? ?]|intros S; split; [exact S|]].
  unfold dest. destruct g as [|e g]; [done|]. cbn [starts] in S. apply Z.eqb_eq in S. change (elem (e :: g) 0) with (Done e). cbn [bindo]. by rewrite S.
Qed.
End EdgesSpec.

(** From the vertices of the hosts, each on the host of its token, and the groups of edges of the threads, each host gets, for each of its
    vertices, the edges from it of all threads, in the order of the threads, and a table of the places of its vertices; or a table has to
    grow and is refused. *)
Lemma partition_edges_result {VT E} (id : VT -> Z) (src : E -> Z) hash ok pushed appended hosts garbage sums grants granted old_counts old_sums
    (pvs : list (list VT)) v2PM (threads : list (list E)) renames sorts pastes merges :
  HashTable.bounded ok -> (forall n, pushed n = Success) -> (forall a b, appended a b = Success) -> (forall i, grants i = Success) ->
  (forall k i, granted k i = Success) -> sums_counts (length threads) sums -> (0 < length threads)%nat ->
  v2PM <> [] -> Forall (fun h => 0 <= h < Z.of_nat hosts) v2PM ->
  length pvs = hosts -> (forall vs, vs ∈ pvs -> NoDup (id <$> vs) /\ Z.of_nat (length vs) < 2 ^ 64) ->
  (forall e h, e ∈ concat threads -> host_of v2PM (src e) = Some (Z.of_nat h) -> exists vs, pvs !! h = Some vs /\ src e ∈ id <$> vs) ->
  Z.of_nat (length (concat threads)) < 2 ^ 64 ->
  length old_counts = hosts -> Forall (fun l => length l = length threads) old_counts ->
  length old_sums = hosts -> Forall (fun l => length l = length threads) old_sums ->
  renames ≡ₚ seq 0 hosts -> sorts ≡ₚ seq 0 (length threads) -> pastes ≡ₚ seq 0 (length threads) -> merges ≡ₚ seq 0 hosts ->
  (forall h vs v, pvs !! h = Some vs -> v ∈ vs -> host_of v2PM (id v) = Some (Z.of_nat h)) ->
  let r := partitionEdgesParallely id src hash ok pushed appended hosts garbage sums grants granted old_counts old_sums pvs v2PM
    (groups src <$> threads) renames sorts pastes merges in
  (exists partEdges tables, r = Some (Done (partEdges, tables)) /\ length partEdges = hosts /\ length tables = hosts /\
     forall h vs, pvs !! h = Some vs -> partEdges !! h = Some ((fun v => from src (id v) (concat threads)) <$> vs) /\
       exists t, tables !! h = Some t /\ named hash t (id <$> vs)) \/
  r = Some (Failed (Aborted "PANDO_CHECK")) /\ exists vs, vs ∈ pvs /\ naming_refused hash ok (id <$> vs).
Proof.
  intros Hok Hpu Hap Hgr Hgd Hs H0 Hne Hf Lp Hv Hsrc Ht Lc Fc Ls Fs Pr Ps Pp Pm Hown r. subst r. unfold partitionEdgesParallely.
  rewrite !PANDO_CHECK_ok by done. cbn [bindr].
  destruct (HashTable.initialize_none 0 0 hash ok (HashTable.HashTable HashTable.lit_0_8)) as (t0 & -> & Em & R); [split; [done|by left]|done|].
  cbn [bindr]. rewrite !PANDO_CHECK_ok by done. cbn [bindr].
  assert (N0 : named hash t0 []).
  { exists ∅. split; [done|]. split; [by rewrite Em|]. intros x i. rewrite lookup_empty. split; [done|]. intros (k & _ & L). by rewrite lookup_nil in L. }
  assert (Seq : forall order n, order ≡ₚ seq 0 n -> NoDup order /\ (forall i : nat, i ∈ order -> (i ∉ @nil nat) /\ (i < n)%nat) /\ forall i, (i < n)%nat -> i ∈ order ++ []).
  { intros order n P. split; [rewrite P; apply NoDup_seq|]. split.
    - intros i Hi. rewrite P in Hi. apply elem_of_seq in Hi. split; [by intros ?%elem_of_nil|lia].
    - intros i Hi. rewrite app_nil_r, P. apply elem_of_seq. lia. }
  destruct (Seq _ _ Pr) as (Nr & Or & Ar), (Seq _ _ Pm) as (Nm & Om & Am).
  destruct (rename_run id hash ok Hok hosts pvs t0 renames N0 Lp Hv [] (replicate hosts t0) Nr Or) as [[-> (vs & Hvs & F)]|(tables & -> & Lt & Q)].
  { by rewrite length_replicate. }
  { intros i vs L. exists t0. split; [apply lookup_replicate_2; rewrite <- Lp; by eapply lookup_lt_Some|]. by rewrite decide_False by (by intros ?%elem_of_nil). }
  { right. split; [reflexivity|]. exists vs. split; [exact Hvs|exact F]. }
  cbn [bindr]. set (key := fun v : list E => let! e := elem v 0 in Done (src e)).
  assert (Len : length (groups src <$> threads) = length threads) by apply length_fmap.
  assert (Hgroup : forall g, g ∈ concat (groups src <$> threads) -> exists e, e ∈ concat threads /\ starts src (src e) g = true /\ key g = Done (src e)).
  { intros g Hg. apply list_elem_of_In, in_concat in Hg as (gs & Hgs & Hg). apply list_elem_of_In in Hgs, Hg.
    apply list_elem_of_fmap in Hgs as (es & -> & Hes). pose proof (groups_sources src es) as G. rewrite Forall_forall in G.
    destruct (G g Hg) as (e & He & Fg). assert (e ∈ es) as Ee.
    { rewrite <- (groups_perm src es). apply list_elem_of_In, in_concat. exists g. split; by apply list_elem_of_In. }
    exists e. split; [apply list_elem_of_In, in_concat; exists es; split; by apply list_elem_of_In|].
    destruct g as [|e0 g]; [by apply elem_of_nil in He|]. apply Forall_cons in Fg as [E0 _]. clear - E0. cbn [starts]. rewrite E0, Z.eqb_refl. split; [done|].
    unfold key. change (elem (e0 :: g) 0) with (Done e0). cbn [bindo]. by rewrite E0. }
  rewrite (exchange_result key pushed Hpu hosts garbage v2PM (conj Hne Hf)); rewrite ?Len;
    [|exact Hs|exact Hgd|exact H0|exact Lc|exact Fc|exact Ls|exact Fs|exact Ps|exact Pp| |].
  - cbn [bindr]. set (exchanged := (fun h => mine key v2PM h (concat (groups src <$> threads))) <$> seq 0 hosts).
    assert (Lx : forall h, (h < hosts)%nat -> exchanged !! h = Some (mine key v2PM h (concat (groups src <$> threads)))).
    { intros h Hh. unfold exchanged. by rewrite list_lookup_fmap, lookup_seq_lt. }
    assert (Tb : forall i vs, pvs !! i = Some vs -> NoDup (id <$> vs) /\ exists t, tables !! i = Some t /\ named hash t (id <$> vs)).
    { intros i vs L. split; [apply Hv; by eapply list_elem_of_lookup_2|]. apply Q; [done|]. apply Ar. rewrite <- Lp. by eapply lookup_lt_Some. }
    destruct (merge_run id src hash hosts pvs appended tables exchanged merges Hap Tb) with (don := @nil nat) (parts := empty_lists (E := E) <$> tables)
      as (parts & -> & Ln & P); [|exact Lp|exact Nm|exact Om| | |].
    + intros i vs L. assert (i < hosts)%nat as Hi by (rewrite <- Lp; by eapply lookup_lt_Some). eexists. split; [by apply Lx|].
      intros g Hg. apply list_elem_of_filter in Hg as [Dg Hg]. destruct (Hgroup g Hg) as (e & He & Sg & Kg). exists (src e). split; [done|].
      unfold dest in Dg. rewrite Kg in Dg. destruct (Hsrc e i He Dg) as (vs' & L' & Hi'). by replace vs with vs' by congruence.
    + by rewrite length_fmap.
    + intros i vs gs L Lg. rewrite decide_False by (by intros ?%elem_of_nil). destruct (Tb i vs L) as (Nv & t & Et & M & [Hsz _] & _ & Ix).
      rewrite list_lookup_fmap, Et. cbn [fmap option_fmap option_map]. f_equal. unfold empty_lists, HashTable.size.
      rewrite Hsz, (indexes_size M _ Ix Nv), Nat2Z.id. symmetry. by apply const_fmap.
    + cbn [bindr]. left. exists parts, tables. split; [done|]. split; [done|]. split; [done|]. intros h vs L.
      assert (h < hosts)%nat as Hh by (rewrite <- Lp; by eapply lookup_lt_Some). split; [|by apply Tb].
      rewrite (P h vs _ L (Lx h Hh)) by (by apply Am). f_equal. rewrite <- list_fmap_compose. apply list_fmap_ext. intros k v Lv. cbn.
      unfold key. rewrite collected_mine, collected_threads; [done|]. apply (Hown h vs); [done|]. by eapply list_elem_of_lookup_2.
  - assert (Lg : (length (concat (groups src <$> threads)) <= length (concat threads))%nat); [|lia].
    clear. induction threads as [|es l IH]; [done|]. rewrite fmap_cons. cbn [concat]. rewrite !length_app.
    enough (length (groups src es) <= length es)%nat by lia. rewrite <- (groups_perm src es) at 2. pose proof (groups_sources src es) as F. clear IH.
    induction F as [|g gs (e & He & _) _ IH]; [done|]. cbn [concat length]. rewrite length_app. destruct g; [by apply elem_of_nil in He|]. cbn. lia.
  - intros x Hx. destruct (Hgroup x Hx) as (e & _ & _ & ->). done.
Qed.

End PartitionParallel.
