(* ===== verification/RmatImport.v ===== *)
(** * Importing edge lists

    [include/pando-lib-galois/import/ingest_rmat_el.hpp] and [src/src/ingest_rmat_el.cpp]: the threads load an edge-list file, each keeping
    the edges between known vertices grouped by source, and the groups are put together into one sorted list of edges per vertex. *)

From Stdlib Require Import Sorting.Sorted.
From S2P Require Import Prelude HashTable Adjacency TextInput FileImport EdgePartition.

Module RmatImport.
Import TextInput FileImport EdgePartition.

(** src/include/pando-lib-galois/import/ingest_rmat_el.hpp:26-35 [ELEdge]: source and destination *)
Definition ELEdge : Type := Z * Z.

(** src/include/pando-lib-galois/import/ingest_rmat_el.hpp:32-34 [ELEdge::operator<] *)
Definition less_edge (a b : ELEdge) : bool := if a.1 =? b.1 then a.2 <? b.2 else a.1 <? b.1.

Section Load.
Context (pread : Z -> Z -> Z -> option (list Z)) (open_ : list Z -> Z) (fstat : Z -> option Z) (room : nat -> Status) (new_ : Z -> bool).
Context (hash : Z -> Z) (ok : Z -> bool) (pushed pushed_outer : nat -> Status) (initialized : Status).

Local Abbreviation edges_state := (@local_edges ELEdge).

(** src/src/ingest_rmat_el.cpp:13-18 [generateRMATParser]: what is done with the edge of a line; a search in a full table does not end,
    which the language gives no meaning to *)
Definition efunc (numVertices : Z) (st : edges_state) (src dst : Z) : outcome (Status * edges_state) :=
  if (src <? numVertices) && (dst <? numVertices) then
    match insertLocalEdgesPerThread fst hash ok pushed pushed_outer initialized st (src, dst) with
    | Some r => r
    | None => Failed (Undefined "endless loop")
    end
  else Done (Success, st).

(** src/src/ingest_rmat_el.cpp:6-21 [generateRMATParser] *)
Definition generateRMATParser (numVertices : Z) (line : list Z) (st : edges_state) : outcome (Status * edges_state) :=
  elParse line (efunc numVertices st).

(** src/src/ingest_rmat_el.cpp:23-34 [loadELFilePerThread]; [PANDO_CHECK] stops the program *)
Definition loadELFilePerThread (fuel : nat) (filename : list Z) (segmentsPerThread numThreads threadID numVertices : Z) (st : edges_state)
  : option (outcome edges_state) :=
  let* (err, _, st) := loadGraphFilePerThread pread open_ fstat room new_ (generateRMATParser numVertices) fuel filename segmentsPerThread
    numThreads threadID st in
  if bool_decide (err = Success) then Some (Done st) else Some (Failed (Aborted "PANDO_CHECK")).

End Load.

Section Reduce.
Context (std_sort : (ELEdge -> ELEdge -> bool) -> list ELEdge -> list ELEdge).
(** What a vector of so many elements answers when another one is appended. *)
Context (appended : nat -> nat -> Status).

(** src/src/ingest_rmat_el.cpp:83-92 [reduceLocalEdges]: one group of edges goes to the list of its source *)
Definition reduce_group (reducedEL : list (list ELEdge)) (ev : list ELEdge) : outcome (list (list ELEdge)) :=
  match ev with
  | [] => Done reducedEL
  | first_edge :: _ =>
      match reducedEL !! Z.to_nat first_edge.1 with
      | None => Failed (Undefined "outside a block")
      | Some src_ev =>
          if bool_decide (appended (length src_ev) (length ev) = Success) then Done (<[Z.to_nat first_edge.1 := src_ev ++ ev]> reducedEL)
          else Failed (Aborted "PANDO_CHECK")
      end
  end.

(** src/src/ingest_rmat_el.cpp:70-100 [reduceLocalEdges]; the lists are sorted by tasks that share nothing *)
Definition reduceLocalEdges (memory : Status) (localEdges : list (list (list ELEdge))) (numVertices : Z) : outcome (list (list ELEdge)) :=
  let! _ := guard_or (bool_decide (memory = Success)) (Aborted "PANDO_CHECK") in
  let! reducedEL := foldo reduce_group (repeat [] (Z.to_nat numVertices)) (concat localEdges) in
  Done (std_sort less_edge <$> reducedEL).

End Reduce.

(** src/src/ingest_rmat_el.cpp:64-66 [generateEdgesPerVirtualHost]: the vertices of a virtual host; [pushed] is what the vector answers *)
Fixpoint generate_loop (fuel : nat) (pushed : nat -> Status) (vertices : list Z) (totalVertices i numVHosts : Z) : option (Status * list Z) :=
  match fuel with
  | O => None
  | S fuel =>
      if i <? totalVertices then
        match pushed (length vertices) with
        | Success => generate_loop fuel pushed (vertices ++ [i]) totalVertices (u64 (i + numVHosts)) numVHosts
        | e => Some (e, vertices)
        end
      else Some (Success, vertices)
  end.

(** src/src/ingest_rmat_el.cpp:57-68 [generateEdgesPerVirtualHost]; [reserved] is what [reserve] answers for a capacity *)
Definition generateEdgesPerVirtualHost (fuel : nat) (reserved : Z -> Status) (pushed : nat -> Status) (vertices : list Z)
    (totalVertices vHostID numVHosts : Z) : option (outcome (Status * list Z)) :=
  let oldSize := Z.of_nat (length vertices) in
  if numVHosts =? 0 then Some (Failed (Undefined "division by zero")) else
  let addOne := totalVertices mod numVHosts <? vHostID in
  let deltaSize := u64 (totalVertices / numVHosts + (if addOne : bool then 1 else 0)) in
  let err := reserved (u64 (oldSize + deltaSize)) in
  if negb (bool_decide (err = Success)) then Some (Done (err, vertices)) else
  let? r := generate_loop fuel pushed vertices totalVertices vHostID numVHosts in Some (Done r).

(** ** What the parser makes of a line *)

Lemma span_local p l a t b rest : span p l = (a, t :: b) -> span p (l ++ rest) = (a, t :: b ++ rest).
Proof.
  revert a. induction l as [|c l IH]; intros a; cbn; [done|]. destruct (p c); [|by intros [= <- <- <-]].
  destruct (span p l) as [a' b'] eqn:E. intros [= <- ->]. by rewrite (IH a').
Qed.

Lemma elGetOne_local l r v rest : elGetOne l = Done (r, v) -> elGetOne (l ++ rest) = Done (r ++ rest, v).
Proof.
  rewrite !elGetOne_run. destruct (span isspace l) as [a b] eqn:E. cbn [snd].
  destruct b as [|c b]; [done|]. rewrite (span_local _ _ _ _ _ _ E). cbn [snd].
  destruct (span numeral (c :: b)) as [w [|t r']] eqn:E'; [done|]. intros [= <- <-].
  change (c :: b ++ rest) with ((c :: b) ++ rest). by rewrite (span_local _ _ _ _ _ _ E').
Qed.

Lemma elGetOne_range l r v : elGetOne l = Done (r, v) -> inU 64 v.
Proof.
  rewrite elGetOne_run. destruct (span numeral _) as [w [|t r']]; [done|]. intros [= _ <-].
  destruct (existsb isdigit w); [apply wrapU_range; lia | unfold inU, UINT64_MAX; lia].
Qed.

(** The numbers of a line, if it has them all. *)
Definition line_edge (l : list Z) : outcome ELEdge := elParse l (fun src dst => Done (src, dst)).

Lemma line_edge_local {A} l e rest (ef : Z -> Z -> outcome A) : line_edge l = Done e -> elParse (l ++ rest) ef = ef e.1 e.2.
Proof.
  unfold line_edge, elParse. destruct (elGetOne l) as [[r1 s]|] eqn:E1; [|done]. cbn [bindo].
  destruct (elGetOne r1) as [[r2 d]|] eqn:E2; [|done]. cbn [bindo]. intros [= <-].
  rewrite (elGetOne_local _ _ _ _ E1). cbn [bindo]. by rewrite (elGetOne_local _ _ _ _ E2).
Qed.

Lemma line_edge_range l e : line_edge l = Done e -> 0 <= e.1.
Proof.
  unfold line_edge, elParse. destruct (elGetOne l) as [[r1 s]|] eqn:E1; [|done]. cbn [bindo].
  destruct (elGetOne r1) as [[r2 d]|] eqn:E2; [|done]. cbn [bindo]. intros [= <-]. cbn. apply elGetOne_range in E1. unfold inU in E1. lia.
Qed.

(** A line that is written from an edge gives this edge. *)
Lemma line_edge_printed src dst : inU 64 src -> inU 64 dst -> line_edge (decimal 20 src ++ 32 :: decimal 20 dst ++ [newline]) = Done (src, dst).
Proof.
  intros Hs Hd. unfold line_edge, elParse. unfold inU in *.
  assert (forall n t rest, 0 <= n < 2 ^ 64 -> numeral t = false -> elGetOne (decimal 20 n ++ t :: rest) = Done (rest, n)) as one.
  { intros n t rest Hn Ht. rewrite <- (app_nil_l (decimal 20 n ++ _)). 
    rewrite elGetOne_number by (done || apply decimal_numeral || (apply decimal_nonempty; lia)).
    rewrite decimal_value by lia. by rewrite wrapU_id by (unfold inU; lia). }
  rewrite one by done. cbn [bindo]. by rewrite one.
Qed.

(** The edges between the vertices below [n] that lines give. *)
Definition known (n : Z) (l : list Z) : option ELEdge :=
  match line_edge l with Done e => if (e.1 <? n) && (e.2 <? n) then Some e else None | Failed _ => None end.
Definition edges_of (n : Z) (ls : list (list Z)) : list ELEdge := omap (known n) ls.

Lemma edges_of_range n ls : Forall (fun e => 0 <= e.1 < n) (edges_of n ls).
Proof.
  apply Forall_forall. intros e (l & _ & H)%list_elem_of_omap. unfold known in H. destruct (line_edge l) as [e'|] eqn:E; [|done].
  apply line_edge_range in E. destruct ((e'.1 <? n) && (e'.2 <? n)) eqn:C; [|done]. injection H as <-. lia.
Qed.

Lemma edges_of_app n a b : edges_of n (a ++ b) = edges_of n a ++ edges_of n b.
Proof. apply omap_app. Qed.

Lemma edges_of_perm n a b : a ≡ₚ b -> edges_of n a ≡ₚ edges_of n b.
Proof. intros P. unfold edges_of. by rewrite P. Qed.

Section Parser.
Context {hash : Z -> Z} {ok : Z -> bool} {pushed pushed_outer : nat -> Status} {initialized : Status}.
Hypothesis Hok : HashTable.bounded ok.

Lemma parser_correct n ls l rest st : is_done (line_edge l) = true -> holds_edges fst hash (edges_of n ls) st ->
  exists err st', generateRMATParser hash ok pushed pushed_outer initialized n (l ++ rest) st = Done (err, st') /\
    outcome_ok (fun ls st => holds_edges fst hash (edges_of n ls) st)
      (fun ls => stopped fst hash ok pushed pushed_outer initialized (edges_of n ls)) (ls ++ [l]) err st'.
Proof.
  intros Hl HI. destruct (line_edge l) as [e|] eqn:E; [|done]. unfold generateRMATParser. rewrite (line_edge_local _ _ _ _ E).
  unfold efunc, outcome_ok. rewrite edges_of_app.
  assert (edges_of n [l] = if (e.1 <? n) && (e.2 <? n) then [e] else []) as ->.
  { unfold edges_of, known. cbn. rewrite E. by destruct ((e.1 <? n) && (e.2 <? n)). }
  destruct ((e.1 <? n) && (e.2 <? n)).
  - destruct (insert_correct fst hash ok pushed pushed_outer initialized _ st e Hok HI) as (err & st' & Ei & Ok).
    rewrite <- surjective_pairing, Ei. exists err, st'. split; [done|exact Ok].
  - exists Success, st. rewrite app_nil_r. done.
Qed.

End Parser.

(** ** Putting the groups together *)

Lemma from_group v (es : list ELEdge) (e : ELEdge) (g : list ELEdge) : Forall (fun e' => e'.1 = e.1) g -> from fst v (es ++ g) = from fst v es ++ if decide (e.1 = v) then g else [].
Proof.
  intros Hg. unfold from. rewrite filter_app. f_equal. case_decide as D.
  - apply filter_all. eapply Forall_impl; [exact Hg|]. cbn. congruence.
  - apply filter_none. eapply Forall_impl; [exact Hg|]. cbn. congruence.
Qed.

Definition by_vertex (n : nat) (es : list ELEdge) : list (list ELEdge) := (fun v => from fst (Z.of_nat v) es) <$> seq 0 n.

Lemma by_vertex_lookup n es k : (k < n)%nat -> by_vertex n es !! k = (Some (from fst (Z.of_nat k) es) : option (list ELEdge)).
Proof. intros H. unfold by_vertex. by rewrite list_lookup_fmap, lookup_seq_lt. Qed.

Lemma by_vertex_nil n : by_vertex n [] = repeat [] n.
Proof.
  apply list_eq. intros k. destruct (decide (k < n)%nat); [by rewrite by_vertex_lookup, lookup_repeat|].
  rewrite !lookup_ge_None_2; [done|rewrite repeat_length; lia|unfold by_vertex; rewrite length_fmap, length_seq; lia].
Qed.

Lemma reduce_groups appended n gs : (forall a b, appended a b = Success) ->
  Forall (fun g => exists e : ELEdge, e ∈ g /\ Forall (fun e' => e'.1 = e.1) g) gs -> Forall (fun e => 0 <= e.1 < Z.of_nat n) (concat gs) ->
  forall es, foldo (reduce_group appended) (by_vertex n es) gs = Done (by_vertex n (es ++ concat gs)).
Proof.
  intros Ha. induction 1 as [|g gs (e & He & Hg) _ IH]; intros Hr es; cbn [foldo concat] in *; [by rewrite app_nil_r|].
  apply Forall_app in Hr as [Hrg Hr].
  assert (reduce_group appended (by_vertex n es) g = Done (by_vertex n (es ++ g))) as ->; [|cbn [bindo]; by rewrite IH, app_assoc].
  destruct g as [|e0 g]; [by apply elem_of_nil in He|]. unfold reduce_group. apply Forall_cons in Hrg as [H0 _].
  assert (Forall (fun e' => e'.1 = e0.1) (e0 :: g)) as Hg0.
  { apply Forall_cons in Hg as [E0 Hg]. constructor; [done|]. eapply Forall_impl; [exact Hg|]. cbn. congruence. }
  set (k := Z.to_nat e0.1). assert (k < n)%nat by (unfold k; lia).
  rewrite by_vertex_lookup by done.
  rewrite Ha, bool_decide_true by done. f_equal. apply list_eq. intros i. unfold by_vertex.
  rewrite list_lookup_insert, !list_lookup_fmap, length_fmap, length_seq.
  destruct (decide (i < n)%nat); [|rewrite lookup_seq_ge by lia; rewrite decide_False by lia; done].
  rewrite lookup_seq_lt by done. cbn. rewrite (from_group _ es e0) by done. case_decide as D.
  - destruct D as [<- _]. rewrite decide_True by (unfold k; lia). done.
  - rewrite decide_False, app_nil_r; [done|]. intros E. apply D. unfold k. lia.
Qed.

Lemma less_edge_weak : strict_weak less_edge.
Proof.
  unfold less_edge. split; [intros [x x']; cbn; destruct (Z.eqb_spec x x); lia|].
  split; intros [a a'] [b b'] [c c']; cbn; destruct (Z.eqb_spec a b), (Z.eqb_spec b c), (Z.eqb_spec a c); lia.
Qed.

(** ** Vertices of virtual hosts *)

(** The vertices of virtual host [v] of [n], below [total]: [v], [v + n] and so on. *)
Lemma generate_vertices fuel pushed vertices total v n : (forall k, pushed k = Success) -> 0 < n -> total + n <= 2 ^ 64 -> forall i k, 0 <= i -> 
  i = v + Z.of_nat k * n -> 0 <= v < n -> (Z.to_nat (total - i) < fuel)%nat ->
  exists m, generate_loop fuel pushed vertices total i n = Some (Success, vertices ++ ((fun j => v + Z.of_nat j * n) <$> seq k m)) /\
    forall j, (k <= j)%nat -> (j < k + m)%nat <-> v + Z.of_nat j * n < total.
Proof.
  intros Hp Hn Hb. revert vertices. induction fuel as [|fuel IH]; intros vertices i k Hi -> Hv Hf; [lia|]. cbn [generate_loop].
  destruct (Z.ltb_spec (v + Z.of_nat k * n) total) as [L|L].
  - rewrite Hp, wrapU_id by (unfold inU; lia).
    destruct (IH (vertices ++ [v + Z.of_nat k * n]) (v + Z.of_nat k * n + n) (S k)) as (m & -> & Hm); [lia|lia|done|lia|].
    exists (S m). split; [by rewrite <- app_assoc|]. intros j Hj. destruct (decide (j = k)) as [->|]; [lia|]. rewrite <- Hm by lia. lia.
  - exists 0%nat. cbn. rewrite app_nil_r. split; [done|]. intros j Hj. split; [lia|]. intros Hlt. nia.
Qed.

(** What loading leaves: each thread has grouped its share of the file's edges, or has been stopped by a refusal of memory in the course of it. *)
Lemma rmat_load pread open_ fstat room new_ hash ok pushed pushed_outer initialized filename f (numThreads segments fuel n : nat) :
  text_file pread open_ fstat filename f -> (forall n, room n = Success) -> (forall n, n <= Z.of_nat (length f) -> new_ n = true) ->
  ends_line f -> Forall (fun c => c <> 0) f -> (0 < numThreads * segments <= length f)%nat -> (length f < fuel)%nat ->
  Forall (fun l => is_done (line_edge l) = true) (filter (fun l => content l = true) (lines f)) -> HashTable.bounded ok ->
  exists share : nat -> list ELEdge,
    concat (share <$> seq 0 numThreads) ≡ₚ edges_of (Z.of_nat n) (filter (fun l => content l = true) (lines f)) /\
    (forall t, Forall (fun e => 0 <= e.1 < Z.of_nat n) (share t)) /\
    forall t st, (t < numThreads)%nat -> holds_edges fst hash [] st ->
      let load := loadELFilePerThread pread open_ fstat room new_ hash ok pushed pushed_outer initialized fuel filename (Z.of_nat segments)
        (Z.of_nat numThreads) (Z.of_nat t) (Z.of_nat n) st in
      load = Some (Failed (Aborted "PANDO_CHECK")) /\ (exists err, stopped fst hash ok pushed pushed_outer initialized (share t) err) \/
      exists st', load = Some (Done st') /\ snd st' = groups fst (share t).
Proof.
  intros Hfile Hroom Hnew Hend H0 Hseg Hfuel Hlines Hok.
  destruct (import_reads_lines pread open_ fstat room new_ filename f (generateRMATParser hash ok pushed pushed_outer initialized (Z.of_nat n))
    (fun ls st => holds_edges fst hash (edges_of (Z.of_nat n) ls) st)
    (fun ls => stopped fst hash ok pushed pushed_outer initialized (edges_of (Z.of_nat n) ls)) numThreads segments fuel)
    as (share & P & L); [done..| | |].
  { intros ls ls' err. rewrite edges_of_app. apply stopped_app. }
  { intros ls l rest st Hl Hc HI. apply parser_correct; [done| |done]. rewrite Forall_forall in Hlines. apply Hlines, list_elem_of_filter. done. }
  exists (fun t => edges_of (Z.of_nat n) (share t)). split; [|split; [intros t; apply edges_of_range|]].
  - rewrite <- (edges_of_perm _ _ _ P). clear. induction (seq 0 numThreads) as [|t l IH]; [done|]. rewrite !fmap_cons. cbn [concat]. by rewrite edges_of_app, IH.
  - intros t st Ht Hst load. destruct (L t st Ht Hst) as (err & file & st' & E & Ok & _). unfold load, loadELFilePerThread. rewrite E. cbn [bindr].
    destruct (bool_decide_reflect (err = Success)) as [->|N]; [right|left; split; [done|]; exists err; by apply Ok]. exists st'. split; [done|].
    destruct Ok as [Ok _]. destruct (Ok eq_refl) as (M & _ & _ & _ & G). exact G.
Qed.

(** C22: From the file to the edge lists.  Let the file end with a newline, hold no zero byte and at least as many bytes as there are segments, and let every line
    that is no comment have two numbers.  Then a thread's load stops the program because memory was refused when edges of the file had been inserted, or leaves the thread with edges of the file grouped by source; and when all threads have loaded, the
    groups of all of them reduce to one list per vertex: the edges between known vertices that the file has for this vertex, each as
    often as the file has it, sorted by destination. *)
Theorem rmat_import pread open_ fstat room new_ hash ok pushed pushed_outer initialized std_sort appended filename f
    (numThreads segments fuel n : nat) :
  text_file pread open_ fstat filename f -> (forall n, room n = Success) -> (forall n, n <= Z.of_nat (length f) -> new_ n = true) ->
  ends_line f -> Forall (fun c => c <> 0) f -> (0 < numThreads * segments <= length f)%nat -> (length f < fuel)%nat ->
  Forall (fun l => is_done (line_edge l) = true) (filter (fun l => content l = true) (lines f)) -> HashTable.bounded ok ->
  (forall a b, appended a b = Success) -> sorts std_sort ->
  let load t st := loadELFilePerThread pread open_ fstat room new_ hash ok pushed pushed_outer initialized fuel filename (Z.of_nat segments)
    (Z.of_nat numThreads) (Z.of_nat t) (Z.of_nat n) st in
  let fresh st := holds_edges fst hash [] st in
  let edges := edges_of (Z.of_nat n) (filter (fun l => content l = true) (lines f)) in
  (forall t st, (t < numThreads)%nat -> fresh st ->
    load t st = Some (Failed (Aborted "PANDO_CHECK")) /\
      (exists es err, es ⊆+ edges /\ refused fst hash ok pushed pushed_outer initialized es err) \/
    exists es st', load t st = Some (Done st') /\ snd st' = groups fst es /\ es ⊆+ edges) /\
  (forall sts, (forall t, (t < numThreads)%nat -> exists st, fresh st /\ load t st = Some (Done (sts t))) ->
    exists R, reduceLocalEdges std_sort appended Success ((fun t => snd (sts t)) <$> seq 0 numThreads) (Z.of_nat n) = Done R /\
      length R = n /\ forall v, (v < n)%nat -> exists l, R !! v = Some l /\ l ≡ₚ from fst (Z.of_nat v) edges /\
        StronglySorted (fun a b => less_edge b a = false) l).
Proof.
  intros Hfile Hroom Hnew Hend H0 Hseg Hfuel Hlines Hok Happ Hsort load fresh edges.
  destruct (rmat_load pread open_ fstat room new_ hash ok pushed pushed_outer initialized filename f numThreads segments fuel n)
    as (share & Pe & _ & Load); [done..|]. fold edges in Pe.
  assert (forall t, (t < numThreads)%nat -> share t ⊆+ edges) as Part.
  { intros t Ht. rewrite <- Pe. destruct (list_elem_of_split (seq 0 numThreads) t) as (l1 & l2 & ->); [apply elem_of_seq; lia|].
    rewrite fmap_app, fmap_cons, concat_app. cbn [concat]. by apply submseteq_inserts_l, submseteq_inserts_r. }
  split.
  - intros t st Ht Hst. destruct (Load t st Ht Hst) as [(E & err & es & Pr & R)|(st' & E & G)]; [left; split; [done|]|right].
    + exists es, err. split; [|done]. etrans; [|by apply (Part t)]. destruct Pr as [k ->]. by apply submseteq_inserts_r.
    + exists (share t), st'. split; [done|]. split; [done|]. by apply Part.
  - intros sts Hsts. set (locals := (fun t => snd (sts t)) <$> seq 0 numThreads).
    assert (locals = (fun t => groups fst (share t)) <$> seq 0 numThreads) as El.
    { apply list_fmap_ext. intros i t Lt. apply list_elem_of_lookup_2, elem_of_seq in Lt.
      destruct (Hsts t ltac:(lia)) as (st & Hst & E). destruct (Load t st ltac:(lia) Hst) as [[E' _]|(st' & E' & G)]; unfold load in E; rewrite E in E'; [done|].
      injection E' as ->. exact G. }
    assert (concat (concat locals) ≡ₚ edges) as Pl.
    { rewrite <- Pe, El. clear. induction (seq 0 numThreads) as [|t l IH]; [done|]. cbn. rewrite concat_app, IH. by rewrite groups_perm. }
    unfold reduceLocalEdges. rewrite bool_decide_true by done. cbn [guard_or bindo]. rewrite Nat2Z.id.
    rewrite <- by_vertex_nil.
    rewrite reduce_groups; [|done| |].
    + cbn [bindo app]. eexists. split; [done|]. split; [unfold by_vertex; by rewrite !length_fmap, length_seq|].
      intros v Hv. exists (std_sort less_edge (from fst (Z.of_nat v) (concat (concat locals)))).
      split; [by rewrite list_lookup_fmap, by_vertex_lookup|]. destruct (Hsort less_edge (from fst (Z.of_nat v) (concat (concat locals))) less_edge_weak) as [Ps Ss].
      split; [|done]. rewrite Ps. unfold from. by rewrite Pl.
    + rewrite El. clear. induction (seq 0 numThreads) as [|t l IH]; cbn; [constructor|]. apply Forall_app. split; [apply groups_sources|done].
    + rewrite Pl. apply edges_of_range.
Qed.

Lemma rmat_import_witness :
  let f := [48; 32; 49; newline; hash_sign; newline; 49; 32; 48; newline; 48; 32; 53; newline; 48; 32; 48; newline] in
  let load t := loadELFilePerThread (file_pread f) (fun _ => 5) (fun _ => Some 18) (fun _ => Success) (fun _ => true) (fun s => s) (fun n => n <=? 2 ^ 20)
    (fun _ => Success) (fun _ => Success) Success 30 [120; 0] 1 2 (Z.of_nat t) 2 (HashTable.HashTable_default, []) in
  let sts t := match load t with Some (Done st) => st | _ => (HashTable.HashTable_default, []) end in
  exists R, reduceLocalEdges insertion_sort (fun _ _ => Success) Success [snd (sts 0%nat); snd (sts 1%nat)] 2 = Done R /\
    length R = 2%nat /\ exists l, R !! 0%nat = Some l /\ l ≡ₚ [(0, 1); (0, 0)].
Proof.
  intros f load sts.
  assert (text_file (file_pread f) (fun _ => 5) (fun _ => Some 18) [120; 0] f) as F.
  { constructor; [done|lia|apply file_pread_serves|done|cbn; lia]. }
  destruct (rmat_import (file_pread f) (fun _ => 5) (fun _ => Some 18) (fun _ => Success) (fun _ => true) (fun s => s) (fun n => n <=? 2 ^ 20)
    (fun _ => Success) (fun _ => Success) Success insertion_sort (fun _ _ => Success) [120; 0] f 2 1 30 2) as [_ Red].
  - exact F.
  - done.
  - done.
  - right. exists (removelast f). reflexivity.
  - repeat constructor; done.
  - cbn. lia.
  - cbn. lia.
  - apply List.Forall_forall, (forallb_forall (fun l => is_done (line_edge l))). vm_compute. reflexivity.
  - intros n Hn%Z.leb_le. apply Z.le_trans with (2 ^ 20); [done|]. by vm_compute.
  - done.
  - apply insertion_sort_sorts.
  - destruct (Red sts) as (R & E & Len & V).
    + intros t Ht. exists (HashTable.HashTable_default, []). split; [apply holds_nil; [apply HashTable.default_rep | done]|].
      destruct t as [|[|t]]; [vm_compute; reflexivity | vm_compute; reflexivity | lia].
    + exists R. split; [exact E|]. split; [exact Len|]. destruct (V 0%nat ltac:(lia)) as (l & L & P & _). exists l. split; [exact L|].
      rewrite P. vm_compute. reflexivity.
Defined.

(** The virtual hosts generate each vertex exactly once. *)
Theorem generate_partitions reserved pushed total n : (forall c, reserved c = Success) -> (forall k, pushed k = Success) -> (0 < n)%nat -> 0 <= total ->
  total + Z.of_nat n <= 2 ^ 64 -> exists vs : nat -> list Z,
  (forall v old, (v < n)%nat -> generateEdgesPerVirtualHost (S (Z.to_nat total)) reserved pushed old total (Z.of_nat v) (Z.of_nat n) =
    Some (Done (Success, old ++ vs v))) /\ concat (vs <$> seq 0 n) ≡ₚ seqZ 0 total.
Proof.
  intros Hr Hp Hn Ht Hb.
  set (count v := Z.to_nat ((total - Z.of_nat v + Z.of_nat n - 1) / Z.of_nat n)).
  set (vs v := (fun j => Z.of_nat v + Z.of_nat j * Z.of_nat n) <$> seq 0 (count v)).
  assert (forall v j, (v < n)%nat -> (j < count v)%nat <-> Z.of_nat v + Z.of_nat j * Z.of_nat n < total) as Hc.
  { intros v j Hv. unfold count. pose proof (Z.div_mod (total - Z.of_nat v + Z.of_nat n - 1) (Z.of_nat n) ltac:(lia)) as D.
    pose proof (Z.mod_pos_bound (total - Z.of_nat v + Z.of_nat n - 1) (Z.of_nat n) ltac:(lia)). 
    set (q := (total - Z.of_nat v + Z.of_nat n - 1) / Z.of_nat n) in *. split; intros; nia. }
  exists vs. split.
  - intros v old Hv. unfold generateEdgesPerVirtualHost. rewrite (proj2 (Z.eqb_neq _ _)) by lia. rewrite Hr, bool_decide_true by done. cbn [negb].
    destruct (generate_vertices (S (Z.to_nat total)) pushed old total (Z.of_nat v) (Z.of_nat n) Hp ltac:(lia) Hb (Z.of_nat v) 0) as (m & -> & Hm);
      [lia|lia|lia|lia|]. do 4 f_equal. unfold vs. f_equal. f_equal.
    destruct (Nat.lt_trichotomy m (count v)) as [L|[E|L]]; [|done|].
    + pose proof (proj1 (Hc v m Hv) L) as L1. apply Hm in L1; lia.
    + pose proof (proj1 (Hm (count v) ltac:(lia)) ltac:(lia)) as L1. apply Hc in L1; [lia|done].
  - rewrite concat_bind. apply NoDup_Permutation; [|apply NoDup_seqZ|].
    + apply NoDup_bind; [| |apply NoDup_seq].
      * intros v1 v2 y H1 H2 (j1 & -> & _)%list_elem_of_fmap (j2 & E & _)%list_elem_of_fmap. apply elem_of_seq in H1, H2.
        assert (Z.of_nat j1 = Z.of_nat j2) by (apply Z.le_antisymm; apply Z.nlt_ge; intros ?; nia). nia.
      * intros v _. apply NoDup_fmap_2_strong; [|apply NoDup_seq]. intros j1 j2 _ _ E. nia.
    + intros x. rewrite elem_of_seqZ, list_elem_of_bind. split.
      * intros (v & (j & -> & Hj)%list_elem_of_fmap & Hv). apply elem_of_seq in Hj, Hv. pose proof (proj1 (Hc v j ltac:(lia)) ltac:(lia)). lia.
      * intros Hx. exists (Z.to_nat (x mod Z.of_nat n)). pose proof (Z.mod_pos_bound x (Z.of_nat n) ltac:(lia)). pose proof (Z.div_mod x (Z.of_nat n) ltac:(lia)).
        split; [|apply elem_of_seq; lia]. apply list_elem_of_fmap. exists (Z.to_nat (x / Z.of_nat n)).
        assert (0 <= x / Z.of_nat n) by (apply Z.div_pos; lia). split; [lia|]. apply elem_of_seq. split; [lia|]. apply Hc; [lia|]. lia.
Qed.

End RmatImport.
