(* ===== verification/EdgeExchange.v ===== *)
(** * Exchanging edges and importing edge lists

    The two importers over the C++ streams: [src/src/edge_exchange.cpp], by which the hosts read a file each, sort its edges into virtual
    hosts and send them to the hosts these are assigned to, and [src/src/edge_list_importer.cpp].  What [file >> src >> dest] yields until
    it fails is a list of pairs.  Each launch starts one task per host, which writes nothing but its own place; the launch waits for all. *)

From Stdlib Require Import Sorting.Sorted.
From S2P Require Import Prelude HashTable Adjacency EdgePartition.

Module EdgeExchange.
Import EdgePartition.

(** src/include/pando-lib-galois/import/edge_exchange.hpp:24-31 [Edge]: source and destination *)
Definition Edge : Type := Z * Z.

Definition out_of_range : failure := Undefined "outside a block".
Definition at_ {A} (l : list A) (i : Z) : outcome A :=
  if i <? 0 then Failed out_of_range else match l !! Z.to_nat i with Some x => Done x | None => Failed out_of_range end.

(** src/src/edge_exchange.cpp:26-28 [hash_vertexID_to_vhost]: the remainder of signed numbers *)
Definition hash_vertexID_to_vhost (vertexID num_vhosts : Z) : outcome Z :=
  if num_vhosts =? 0 then Failed (Undefined "division by zero") else Done (Z.rem vertexID num_vhosts).

(** The sets of destinations seen, and the edges of the virtual hosts. *)
Definition buckets : Type := gmap Z (gset Z) * list (list Edge).

(** src/src/edge_exchange.cpp:45-61 [get_vHost_edges]: one edge of the file *)
Definition add_edge (num_vhosts : Z) (st : buckets) (e : Edge) : outcome buckets :=
  let (unique_dests, vhost_edges) := st in
  let min_gid := if e.1 <=? e.2 then e.1 else e.2 in
  let max_gid := if e.1 <=? e.2 then e.2 else e.1 in
  if min_gid <? max_gid then
    let dests := default ∅ (unique_dests !! min_gid) in
    if bool_decide (max_gid ∈ dests) then Done (<[min_gid := dests]> unique_dests, vhost_edges) else
    let! vhost_indx := hash_vertexID_to_vhost min_gid num_vhosts in
    let! bucket := at_ vhost_edges vhost_indx in
    Done (<[min_gid := {[max_gid]} ∪ dests]> unique_dests, <[Z.to_nat vhost_indx := bucket ++ [(min_gid, max_gid)]]> vhost_edges)
  else Done st.

(** src/src/edge_exchange.cpp:33-70 [get_vHost_edges]; [None] is a file that cannot be opened *)
Definition get_vHost_edges (input_file : option (list Edge)) (num_vhosts : Z) : outcome (list (list Edge)) :=
  match input_file with
  | None => Failed (Aborted "assert")
  | Some pairs => let! st := foldo (add_edge num_vhosts) (∅, repeat [] (Z.to_nat num_vhosts)) pairs in Done st.2
  end.

(** src/src/edge_exchange.cpp:72-92 [getVHostData]: the numbers of edges and the edges of a host's virtual hosts; [room] is what the
    allocations answer *)
Definition getVHostData (room : Z -> Status) (input_file : option (list Edge)) (num_vhosts_per_host : Z) : outcome (list Z * list (list Edge)) :=
  let! vhost_edges := get_vHost_edges input_file num_vhosts_per_host in
  let! _ := guard_or (forallb (fun l => bool_decide (room (Z.of_nat (length l)) = Success)) vhost_edges) (Aborted "PANDO_CHECK") in
  Done ((fun l => Z.of_nat (length l)) <$> vhost_edges, vhost_edges).

Fixpoint mapo_list {A B} (f : A -> outcome B) (l : list A) : outcome (list B) :=
  match l with [] => Done [] | a :: l => let! b := f a in let! r := mapo_list f l in Done (b :: r) end.

(** src/src/edge_exchange.cpp:117-119 [read_reduce_local_edge_lists]: adding a host's numbers *)
Fixpoint add_metadata (reduced metadata : list Z) : outcome (list Z) :=
  match reduced, metadata with
  | r :: reduced, m :: metadata =>
      let! _ := guard_or (fitsS 64 (r + m)) (Undefined "signed overflow") in
      let! l := add_metadata reduced metadata in Done (r + m :: l)
  | _, _ => Done reduced
  end.

(** src/src/edge_exchange.cpp:94-125 [read_reduce_local_edge_lists]: the edges of the virtual hosts, for each host, and the sums of the
    numbers; [global_reducedVhostMetadata] holds what they are added to *)
Definition read_reduce_local_edge_lists (room : Z -> Status) (inputs : list (option (list Edge))) (global_reducedVhostMetadata : list Z)
    (num_vhosts_per_host : Z) : outcome (list Z * list (list (list Edge))) :=
  let! data := mapo_list (fun input => getVHostData room input num_vhosts_per_host) inputs in
  let! reduced := foldo add_metadata global_reducedVhostMetadata data.*1 in
  Done (reduced, data.*2).

(** src/src/edge_exchange.cpp:127-149 [sort_metadata] *)
Definition sort_metadata (std_sort : (Z -> Z -> bool) -> list Z -> list Z) (room : Z -> Status) (global_reducedVhostMetadata : list Z)
    (num_vhosts_per_host : Z) : outcome (list Z) :=
  let metadata_to_sort := take (Z.to_nat num_vhosts_per_host) global_reducedVhostMetadata in
  let key i := default 0 (metadata_to_sort !! Z.to_nat i) in
  let! _ := guard_or (Z.of_nat (length metadata_to_sort) =? num_vhosts_per_host) out_of_range in
  let! _ := guard_or (bool_decide (room num_vhosts_per_host = Success)) (Aborted "PANDO_CHECK") in
  Done (std_sort (fun i j => key i <? key j) (seqZ 0 num_vhosts_per_host)).

(** src/src/edge_exchange.cpp:159-162 [assign_vhosts_to_host]: every [num_hosts]th index from [i] on *)
Fixpoint assign_loop (fuel : nat) (sorted_indices : list Z) (i num_hosts : nat) : list Z :=
  match fuel with
  | O => []
  | S fuel => match sorted_indices !! i with Some vhost => vhost :: assign_loop fuel sorted_indices (i + num_hosts) num_hosts | None => [] end
  end.
(** src/src/edge_exchange.cpp:151-166 [assign_vhosts_to_host]; the vector takes every index or the program stops *)
Definition assign_vhosts_to_host (pushed : nat -> Status) (sorted_indices : list Z) (num_hosts my_host_id : nat) : outcome (list Z) :=
  let my_assigned_vhosts := assign_loop (length sorted_indices) sorted_indices my_host_id num_hosts in
  let! _ := guard_or (forallb (fun k => bool_decide (pushed k = Success)) (seq 0 (length my_assigned_vhosts))) (Aborted "PANDO_CHECK") in
  Done my_assigned_vhosts.

(** src/src/edge_exchange.cpp:168-187 [launch_assign_vhosts_to_host] *)
Definition launch_assign_vhosts_to_host (pushed : nat -> Status) (sorted_indices : list Z) (num_hosts : nat) : outcome (list (list Z)) :=
  mapo_list (assign_vhosts_to_host pushed sorted_indices num_hosts) (seq 0 num_hosts).

(** src/src/edge_exchange.cpp:189-218 [build_edges_to_send]: the edge vectors of a host for each host; [mine] are the vectors of the
    host's own virtual hosts *)
Definition build_edges_to_send (room : Z -> Status) (vhosts_per_host : list (list Z)) (mine : list (list Edge)) : outcome (list (list (list Edge))) :=
  let! _ := guard_or (bool_decide (room (Z.of_nat (length vhosts_per_host)) = Success)) (Aborted "PANDO_CHECK") in
  mapo_list (fun vhosts_hostI =>
    let! _ := guard_or (bool_decide (room (Z.of_nat (length vhosts_hostI)) = Success)) (Aborted "PANDO_CHECK") in
    mapo_list (fun vhost => at_ mine vhost) vhosts_hostI) vhosts_per_host.

(** src/src/edge_exchange.cpp:220-240 [launch_build_edges_to_send] *)
Definition launch_build_edges_to_send (room : Z -> Status) (vhosts_per_host : list (list Z)) (global_vhostEdgesPerHost : list (list (list Edge)))
  : outcome (list (list (list (list Edge)))) :=
  mapo_list (build_edges_to_send room vhosts_per_host) global_vhostEdgesPerHost.

(** src/src/edge_exchange.cpp:243-262 [edge_exchange]: what a host receives, pushed to one vector edge by edge *)
Definition edge_exchange (pushed : nat -> Status) (edges_to_send : list (list (list (list Edge)))) (my_host_id : nat) : outcome (list Edge) :=
  let! found := mapo_list (fun allVHostEdges => at_ allVHostEdges (Z.of_nat my_host_id)) edges_to_send in
  let my_edges := concat (concat found) in
  let! _ := guard_or (forallb (fun k => bool_decide (pushed k = Success)) (seq 0 (length my_edges))) (Aborted "PANDO_CHECK") in
  Done my_edges.

(** src/src/edge_exchange.cpp:264-282 [launch_edge_exchange] *)
Definition launch_edge_exchange (pushed : nat -> Status) (edges_to_send : list (list (list (list Edge)))) (num_hosts : nat) : outcome (list (list Edge)) :=
  mapo_list (edge_exchange pushed edges_to_send) (seq 0 num_hosts).

(** The steps, each on the result of the one before.  No code of the repository composes them: the tests call them one by one. *)
Definition exchange (std_sort : (Z -> Z -> bool) -> list Z -> list Z) (room : Z -> Status) (pushed : nat -> Status) (inputs : list (option (list Edge)))
    (num_vhosts : Z) : outcome (list (list Edge)) :=
  let num_hosts := length inputs in
  let! (reduced, edges) := read_reduce_local_edge_lists room inputs (repeat 0 (Z.to_nat num_vhosts)) num_vhosts in
  let! sorted_indices := sort_metadata std_sort room reduced num_vhosts in
  let! vhosts_per_host := launch_assign_vhosts_to_host pushed sorted_indices num_hosts in
  let! edges_to_send := launch_build_edges_to_send room vhosts_per_host edges in
  launch_edge_exchange pushed edges_to_send num_hosts.

(** ** The importer of one edge list *)

Section Importer.
(** What a vector of so many elements answers when it is pushed to, and the initialisations. *)
Context (pushed : nat -> Status) (initialized : Status).

(** src/src/edge_list_importer.cpp:35-46 [importELFile]: one edge *)
Definition import_edge (edgeList : list (list Z)) (e : Z * Z) : outcome (Status * list (list Z)) :=
  let! srcEdgeList := at_ edgeList e.1 in
  match pushed (length srcEdgeList) with
  | Success => Done (Success, <[Z.to_nat e.1 := srcEdgeList ++ [e.2]]> edgeList)
  | err => Done (err, edgeList)
  end.

(** src/src/edge_list_importer.cpp:35-46 [importELFile]: up to the first error *)
Fixpoint import_loop (edgeList : list (list Z)) (pairs : list (Z * Z)) : outcome (Status * list (list Z)) :=
  match pairs with
  | [] => Done (Success, edgeList)
  | e :: pairs =>
      let! (err, edgeList) := import_edge edgeList e in
      if bool_decide (err = Success) then import_loop edgeList pairs else Done (err, edgeList)
  end.

(** src/src/edge_list_importer.cpp:7-50 [importELFile]: the status and what is stored through the reference *)
Definition importELFile (numVertices : Z) (file : option (list (Z * Z))) : outcome (Status * option (list (list Z))) :=
  match file with
  | None => Done (InvalidValue, None)
  | Some pairs =>
      if negb (bool_decide (initialized = Success)) then Done (initialized, None) else
      let! (err, edgeList) := import_loop (repeat [] (Z.to_nat numVertices)) pairs in
      if bool_decide (err = Success) then Done (Success, Some edgeList) else Done (err, None)
  end.

(** The tables of neighbours, for the importer that keeps each edge once, at its smaller end. *)
Context (hash : Z -> Z) (ok : Z -> bool).
Local Abbreviation table := (HashTable.table (Key := Z) (T := Z)).

(** src/src/edge_list_importer.cpp:80-94 [importELFileDirOpt]: one edge *)
Definition import_edge_DirOpt (edgeList : list table) (e : Z * Z) : option (outcome (Status * list table)) :=
  let (src, dst) := if e.2 <? e.1 then (e.2, e.1) else e in
  let* srcEdgeList := Some (at_ edgeList src) in
  let? (err, srcEdgeList) := HashTable.put 0 0 hash (2 * length (HashTable.m_buffer srcEdgeList) + 8) ok srcEdgeList dst 0 in
  if bool_decide (err = Success) then Some (Done (Success, <[Z.to_nat src := srcEdgeList]> edgeList)) else Some (Done (err, edgeList)).

(** src/src/edge_list_importer.cpp:80-94 [importELFileDirOpt]: up to the first error *)
Fixpoint import_loop_DirOpt (edgeList : list table) (pairs : list (Z * Z)) : option (outcome (Status * list table)) :=
  match pairs with
  | [] => Some (Done (Success, edgeList))
  | e :: pairs =>
      let* (err, edgeList) := import_edge_DirOpt edgeList e in
      if bool_decide (err = Success) then import_loop_DirOpt edgeList pairs else Some (Done (err, edgeList))
  end.

(** src/src/edge_list_importer.cpp:52-98 [importELFileDirOpt] *)
Definition importELFileDirOpt (numVertices : Z) (file : option (list (Z * Z))) : option (outcome (Status * option (list table))) :=
  match file with
  | None => Some (Done (InvalidValue, None))
  | Some pairs =>
      if negb (bool_decide (initialized = Success)) then Some (Done (initialized, None)) else
      let* (err, n_edgeList) := Some (HashTable.initialize 0 0 ok HashTable.HashTable_default 0) in
      if negb (bool_decide (err = Success)) then Some (Done (err, None)) else
      let* (err, edgeList) := import_loop_DirOpt (repeat n_edgeList (Z.to_nat numVertices)) pairs in
      if bool_decide (err = Success) then Some (Done (Success, Some edgeList)) else Some (Done (err, None))
  end.

End Importer.

(** ** Lists of lists *)

Lemma mapo_list_fmap {A B} (f : A -> outcome B) (g : A -> B) l : (forall a, a ∈ l -> f a = Done (g a)) -> mapo_list f l = Done (g <$> l).
Proof.
  induction l as [|a l IH]; intros H; [done|]. cbn. rewrite H by (by left). cbn [bindo]. rewrite IH; [done|]. intros b Hb. apply H. by right.
Qed.

Lemma bind_app_fun {A B} (f g : A -> list B) l : (x ← l; f x ++ g x) ≡ₚ (x ← l; f x) ++ (x ← l; g x).
Proof.
  induction l as [|a l IH]; [done|]. cbn. rewrite IH, <- !app_assoc. f_equiv. rewrite !app_assoc. f_equiv. apply Permutation_app_comm.
Qed.

Lemma bind_nil_fun {A B} (l : list A) : (x ← l; ([] : list B)) = [].
Proof. by induction l. Qed.

Lemma bind_swap {A B C} (f : A -> B -> list C) l k : (x ← l; y ← k; f x y) ≡ₚ (y ← k; x ← l; f x y).
Proof.
  induction l as [|a l IH]; cbn; [by rewrite bind_nil_fun|]. rewrite IH. symmetry. apply bind_app_fun.
Qed.

Lemma bind_perm_ext {A B} (f g : A -> list B) l : (forall a, a ∈ l -> f a ≡ₚ g a) -> (l ≫= f) ≡ₚ (l ≫= g).
Proof.
  induction l as [|a l IH]; intros H; [done|]. cbn. rewrite H by (by left). f_equiv. apply IH. intros b Hb. apply H. by right.
Qed.

Lemma bind_bind {A B C} (f : A -> list B) (g : B -> list C) l : (l ≫= f) ≫= g = (x ← l; f x ≫= g).
Proof. induction l as [|a l IH]; [done|]. cbn. by rewrite bind_app, IH. Qed.

Lemma concat_concat_bind {A B C} (f : A -> B -> list C) l k : concat (concat ((fun a => f a <$> k) <$> l)) = (a ← l; b ← k; f a b).
Proof. induction l as [|a l IH]; [done|]. cbn. by rewrite concat_app, IH, concat_bind. Qed.

Lemma NoDup_bind_inv {A B} (f : A -> list B) l x x' y : NoDup (l ≫= f) -> x ∈ l -> x' ∈ l -> y ∈ f x -> y ∈ f x' -> x = x'.
Proof.
  intros N Hx Hx' Hy Hy'. apply list_elem_of_split in Hx as (l1 & l2 & ->). rewrite bind_app, bind_cons in N.
  apply NoDup_app in N as (_ & D1 & (_ & D2 & _)%NoDup_app). apply elem_of_app in Hx' as [H|[H|H]%elem_of_cons]; [|done|].
  - destruct (D1 y); [|apply elem_of_app; by left]. apply list_elem_of_bind. by exists x'.
  - destruct (D2 y Hy). apply list_elem_of_bind. by exists x'.
Qed.

(** The classes of a list under a numbering, one after the other. *)
Lemma classes_perm {A} (f : A -> nat) n l : (forall a, a ∈ l -> (f a < n)%nat) -> (v ← seq 0 n; filter (fun a => f a = v) l) ≡ₚ l.
Proof.
  intros H. assert (forall m, (v ← seq 0 m; filter (fun a => f a = v) l) ≡ₚ filter (fun a => (f a < m)%nat) l) as G.
  { induction m as [|m IH].
    - cbn. rewrite filter_none; [done|]. apply Forall_forall. intros a _. lia.
    - rewrite seq_S, bind_app, IH. cbn. rewrite app_nil_r. clear. induction l as [|a l IH]; [done|]. rewrite !filter_cons.
      destruct (decide (f a < m)%nat), (decide (f a = m)), (decide (f a < S m)%nat); try lia; cbn; rewrite <- ?Permutation_middle; by rewrite IH. }
  rewrite G, filter_all; [done|]. by apply Forall_forall.
Qed.

(** ** The edges of a file *)

Definition ordered (e : Edge) : Edge := if e.1 <=? e.2 then e else (e.2, e.1).

(** The edges of a file as the importer sees them: without direction, loops and repetitions. *)
Definition add_unique (es : list Edge) (e : Edge) : list Edge :=
  if bool_decide ((ordered e).1 < (ordered e).2) && bool_decide (ordered e ∉ es) then es ++ [ordered e] else es.
Definition unique_edges (pairs : list Edge) : list Edge := fold_left add_unique pairs [].

Lemma unique_edges_spec pairs : NoDup (unique_edges pairs) /\
  forall e, e ∈ unique_edges pairs <-> e.1 < e.2 /\ exists p, p ∈ pairs /\ ordered p = e.
Proof.
  unfold unique_edges. induction pairs as [|p pairs [N IH]] using rev_ind.
  - split; [constructor|]. intros e. split; [by intros ?%elem_of_nil | by intros (_ & p & H%elem_of_nil & _)].
  - rewrite fold_left_app. cbn [fold_left]. set (es := fold_left add_unique pairs []) in *. unfold add_unique.
    assert (forall e, (e.1 < e.2 /\ exists p', p' ∈ pairs ++ [p] /\ ordered p' = e) <-> e ∈ es \/ (e.1 < e.2 /\ ordered p = e)) as Split.
    { intros e. rewrite IH. split.
      - intros (L & p' & [H|H%list_elem_of_singleton]%elem_of_app & <-); [left; eauto | subst; by right].
      - intros [(L & p' & H & <-)|[L <-]]; (split; [done|]); [exists p' | exists p]; (split; [apply elem_of_app; set_solver | done]). }
    destruct (bool_decide_reflect ((ordered p).1 < (ordered p).2)) as [L|L], (bool_decide_reflect (ordered p ∉ es)) as [Q|Q]; cbn [andb];
      (split; [try done|intros e; rewrite Split]).
    + apply NoDup_app. split; [done|]. split; [intros x Hx Hp%list_elem_of_singleton; by subst | apply NoDup_singleton].
    + rewrite elem_of_app, list_elem_of_singleton. naive_solver.
    + split; [tauto|]. intros [H|[_ <-]]; [done|]. destruct (decide (ordered p ∈ es)); [done|tauto].
    + split; [tauto|]. intros [H|[L' <-]]; [done|]. lia.
    + split; [tauto|]. intros [H|[L' <-]]; [done|]. lia.
Qed.

(** The virtual host of an edge. *)
Definition vhost (n : nat) (e : Edge) : nat := Z.to_nat (e.1 mod Z.of_nat n).
Definition bucketed (n : nat) (es : list Edge) : list (list Edge) := (fun v => filter (fun e => vhost n e = v) es) <$> seq 0 n.

Lemma bucketed_lookup n es v : (v < n)%nat -> bucketed n es !! v = Some (filter (fun e => vhost n e = v) es).
Proof. intros H. unfold bucketed. by rewrite list_lookup_fmap, lookup_seq_lt. Qed.

Lemma bucketed_length n es : length (bucketed n es) = n.
Proof. unfold bucketed. by rewrite length_fmap, length_seq. Qed.

Lemma vhost_lt n e : (0 < n)%nat -> (vhost n e < n)%nat.
Proof. intros H. unfold vhost. pose proof (Z.mod_pos_bound e.1 (Z.of_nat n) ltac:(lia)). lia. Qed.

Lemma at_lookup {A} (l : list A) k x : l !! k = Some x -> at_ l (Z.of_nat k) = Done x.
Proof. intros H. unfold at_. rewrite (proj2 (Z.ltb_ge _ _)), Nat2Z.id, H by lia. done. Qed.

Lemma add_edge_spec n es U e : (0 < n)%nat -> 0 <= e.1 -> 0 <= e.2 -> (forall a b, b ∈ default ∅ (U !! a) <-> (a, b) ∈ es) ->
  exists U', add_edge (Z.of_nat n) (U, bucketed n es) e = Done (U', bucketed n (add_unique es e)) /\
    forall a b, b ∈ default ∅ (U' !! a) <-> (a, b) ∈ add_unique es e.
Proof.
  intros Hn H1 H2 HU. unfold add_edge, add_unique.
  set (a := if e.1 <=? e.2 then e.1 else e.2). set (b := if e.1 <=? e.2 then e.2 else e.1).
  assert (ordered e = (a, b)) as -> by (unfold ordered, a, b; destruct e; by destruct (_ <=? _)). cbn [fst snd].
  assert (0 <= a) by (unfold a; destruct (_ <=? _); done).
  destruct (Z.ltb_spec a b) as [L|L]; [rewrite (bool_decide_true (a < b)) by done | rewrite (bool_decide_false (a < b)) by lia; by exists U]. cbn [andb].
  destruct (bool_decide_reflect (b ∈ default ∅ (U !! a))) as [In|Ni].
  - rewrite bool_decide_false by (rewrite <- HU; tauto). eexists. split; [done|]. intros a' b'. rewrite <- HU.
    destruct (decide (a' = a)) as [->|Na]; [by rewrite lookup_insert_eq | by rewrite lookup_insert_ne].
  - rewrite bool_decide_true by (rewrite <- HU; done). unfold hash_vertexID_to_vhost. rewrite (proj2 (Z.eqb_neq _ _)) by lia. cbn [bindo].
    rewrite Z.rem_mod_nonneg by lia. pose proof (vhost_lt n (a, b) Hn) as Lv.
    assert (a mod Z.of_nat n = Z.of_nat (vhost n (a, b))) as E.
    { unfold vhost. cbn. pose proof (Z.mod_pos_bound a (Z.of_nat n) ltac:(lia)). lia. }
    rewrite E, (at_lookup _ _ _ (bucketed_lookup n es _ Lv)). cbn [bindo]. rewrite Nat2Z.id. eexists. split.
    + do 2 f_equal. apply list_eq. intros i. rewrite list_lookup_insert, bucketed_length.
      destruct (decide (i < n)%nat) as [Li|Li].
      * rewrite !bucketed_lookup by done. rewrite filter_app, filter_cons, filter_nil. case_decide as D.
        -- destruct D as [<- _]. by rewrite decide_True.
        -- rewrite decide_False, app_nil_r; [done|]. intros E'. apply D. by split.
      * rewrite decide_False by lia. rewrite !lookup_ge_None_2; [done|rewrite bucketed_length; lia..].
    + intros a' b'. rewrite elem_of_app, list_elem_of_singleton. destruct (decide (a' = a)) as [->|Na].
      * rewrite lookup_insert_eq. cbn. rewrite elem_of_union, elem_of_singleton, HU. naive_solver.
      * rewrite lookup_insert_ne, HU by done. naive_solver.
Qed.

Lemma get_vHost_edges_spec n pairs : (0 < n)%nat -> Forall (fun e => 0 <= e.1 /\ 0 <= e.2) pairs ->
  get_vHost_edges (Some pairs) (Z.of_nat n) = Done (bucketed n (unique_edges pairs)).
Proof.
  intros Hn Hp. unfold get_vHost_edges. rewrite Nat2Z.id.
  assert (repeat [] n = bucketed n []) as ->.
  { apply list_eq. intros k. destruct (decide (k < n)%nat); [by rewrite bucketed_lookup, lookup_repeat|].
    rewrite !lookup_ge_None_2; [done|rewrite bucketed_length; lia|rewrite repeat_length; lia]. }
  assert (forall U es, (forall a b, b ∈ default ∅ (U !! a) <-> (a, b) ∈ es) -> exists U',
    foldo (add_edge (Z.of_nat n)) (U, bucketed n es) pairs = Done (U', bucketed n (fold_left add_unique pairs es))) as loop.
  { induction Hp as [|e pairs [H1 H2] _ IH]; intros U es HU; [by exists U|]. cbn [foldo fold_left].
    destruct (add_edge_spec n es U e Hn H1 H2 HU) as (U1 & -> & HU1). cbn [bindo]. by apply IH. }
  destruct (loop ∅ []) as [U ->]; [|done]. intros a b. rewrite lookup_empty. cbn. rewrite elem_of_empty, elem_of_nil. done.
Qed.

(** ** Assignment of the virtual hosts *)

(** The elements from index [i] on whose index is congruent to [i] modulo [m]. *)
Lemma assign_loop_spec (l : list Z) m fuel : (0 < m)%nat -> forall i, (length l - i <= fuel)%nat ->
  assign_loop fuel l i m = (filter (fun p => (p.1 mod m = i mod m)%nat) (drop i (imap pair l))).*2.
Proof.
  intros Hm. induction fuel as [|fuel IH]; intros i Hf; cbn [assign_loop].
  - rewrite drop_ge by (rewrite length_imap; lia). done.
  - destruct (l !! i) as [x|] eqn:L; [|apply lookup_ge_None_1 in L; rewrite drop_ge by (rewrite length_imap; lia); done].
    assert (imap pair l !! i = Some (i, x)) as Li by (by rewrite list_lookup_imap, L).
    rewrite (drop_S _ _ _ Li), filter_cons, decide_True by done. cbn. f_equal.
    destruct (decide (i < length l)%nat); [|apply lookup_lt_Some in L; lia].
    rewrite IH by lia. f_equal. assert (drop (i + m) (imap pair l) = drop (m - 1) (drop (S i) (imap pair l))) as -> by (rewrite drop_drop; f_equal; lia).
    set (k := drop (S i) (imap pair l)). rewrite <- (take_drop (m - 1) k) at 2. rewrite filter_app.
    assert (filter (fun p : nat * Z => (p.1 mod m = i mod m)%nat) (take (m - 1) k) = []) as ->.
    { apply filter_none, Forall_forall. intros [j y] [q Lq]%list_elem_of_lookup_1. cbn.
      apply lookup_take_Some in Lq as [Lq Hq]. unfold k in Lq. rewrite lookup_drop, list_lookup_imap in Lq.
      destruct (l !! (S i + q)%nat); [|done]. injection Lq as <- <-. intros E.
      assert (m * ((S i + q) / m) + i mod m = S i + q)%nat as E1 by (rewrite <- E; symmetry; apply Nat.div_mod_eq).
      pose proof (Nat.div_mod_eq i m) as E2.
      destruct (Nat.lt_trichotomy ((S i + q) / m) (i / m)) as [?|[Eq|?]]; nia. }
    cbn [app]. apply list_filter_iff. intros p. 
    assert ((i + m) mod m = i mod m)%nat as ->; [|done]. replace (i + m)%nat with (i + 1 * m)%nat by lia. by rewrite Nat.Div0.mod_add.
Qed.

Lemma assigned_perm l m : (0 < m)%nat -> (h ← seq 0 m; assign_loop (length l) l h m) ≡ₚ l.
Proof.
  intros Hm. assert ((h ← seq 0 m; assign_loop (length l) l h m) = (h ← seq 0 m; filter (fun p => (p.1 mod m = h)%nat) (imap pair l)).*2) as ->.
  { assert (forall h, h ∈ seq 0 m -> assign_loop (length l) l h m = (filter (fun p => (p.1 mod m = h)%nat) (imap pair l)).*2) as H.
    { intros h Hh. apply elem_of_seq in Hh. rewrite assign_loop_spec by lia. f_equal.
      rewrite <- (take_drop h (imap pair l)) at 2. rewrite filter_app.
      assert (filter (fun p : nat * Z => (p.1 mod m = h)%nat) (take h (imap pair l)) = []) as ->.
      { apply filter_none, Forall_forall. intros [j y] [q Lq]%list_elem_of_lookup_1. cbn.
        apply lookup_take_Some in Lq as [Lq Hq]. rewrite list_lookup_imap in Lq. destruct (l !! q); [|done]. injection Lq as <- <-.
        rewrite Nat.mod_small by lia. lia. }
      cbn [app]. apply list_filter_iff. intros p. by rewrite (Nat.mod_small h) by lia. }
    revert H. clear. induction (seq 0 m) as [|h k IH]; intros H; [done|]. cbn. rewrite fmap_app, H by (by left). f_equal. apply IH.
    intros h' ?. apply H. by right. }
  rewrite (classes_perm (fun p : nat * Z => (p.1 mod m)%nat)).
  - apply reflexive_eq. apply list_eq. intros i. rewrite list_lookup_fmap, list_lookup_imap. by destruct (l !! i).
  - intros p _. apply Nat.mod_upper_bound. lia.
Qed.

(** ** The sums of the numbers *)

Definition sum (l : list Z) : Z := foldr Z.add 0 l.

Lemma sum_nonneg l : Forall (Z.le 0) l -> 0 <= sum l.
Proof. unfold sum. induction 1; cbn; lia. Qed.

Lemma add_metadata_spec r m : length r = length m -> Forall (Z.le 0) r -> Forall (Z.le 0) m -> sum r + sum m < 2 ^ 63 ->
  exists r', add_metadata r m = Done r' /\ length r' = length r /\ Forall (Z.le 0) r' /\ sum r' = sum r + sum m.
Proof.
  revert m. induction r as [|x r IH]; intros [|y m] Hl Hr Hm Hs; try discriminate; [by exists []|].
  apply Forall_cons in Hr as [Hx Hr], Hm as [Hy Hm]. cbn [sum foldr] in *. fold (sum r) (sum m) in *.
  pose proof (sum_nonneg r Hr). pose proof (sum_nonneg m Hm). cbn [add_metadata].
  assert (fitsS 64 (x + y) = true) as -> by (apply fitsS_spec; unfold inS; lia). cbn [guard_or bindo].
  destruct (IH m ltac:(cbn in Hl; lia) Hr Hm ltac:(lia)) as (r' & -> & L & F & S). cbn [bindo]. exists (x + y :: r').
  split; [done|]. split; [cbn; lia|]. split; [constructor; [lia|done]|]. cbn. fold (sum r'). lia.
Qed.

Lemma add_all_metadata n ms : Forall (fun m => length m = n /\ Forall (Z.le 0) m) ms -> forall r, length r = n -> Forall (Z.le 0) r ->
  sum r + sum (sum <$> ms) < 2 ^ 63 -> exists r', foldo add_metadata r ms = Done r' /\ length r' = n.
Proof.
  induction 1 as [|m ms [Lm Fm] Hms IH]; intros r Lr Fr Hs; cbn [foldo]; [by exists r|].
  cbn in Hs. fold (sum (sum <$> ms)) in Hs.
  assert (0 <= sum (sum <$> ms)).
  { apply sum_nonneg, Forall_fmap. eapply Forall_impl; [exact Hms|]. intros m' [_ F]. by apply sum_nonneg. }
  destruct (add_metadata_spec r m ltac:(lia) Fr Fm ltac:(lia)) as (r' & -> & L & F & S). cbn [bindo]. apply IH; [lia|done|lia].
Qed.

Lemma bucketed_perm n es : (0 < n)%nat -> concat (bucketed n es) ≡ₚ es.
Proof. intros Hn. unfold bucketed. rewrite concat_bind. apply classes_perm. intros e _. by apply vhost_lt. Qed.

Lemma sum_lengths {A} (ls : list (list A)) : sum ((fun l => Z.of_nat (length l)) <$> ls) = Z.of_nat (length (concat ls)).
Proof. unfold sum. induction ls as [|l ls IH]; [done|]. cbn. rewrite IH, length_app. lia. Qed.

Lemma guard_all {A} (p : A -> Status) l e : (forall a, p a = Success) -> guard_or (forallb (fun a => bool_decide (p a = Success)) l) e = Done tt.
Proof.
  intros H. assert (forallb (fun a => bool_decide (p a = Success)) l = true) as ->; [|done].
  apply forallb_forall. intros a _. by rewrite H, bool_decide_true.
Qed.

(** The edges of a virtual host. *)
Definition bucket (b : list (list Edge)) (v : Z) : list Edge := default [] (b !! Z.to_nat v).

Lemma all_buckets n b : length b = n -> (seqZ 0 (Z.of_nat n) ≫= bucket b) = concat b.
Proof.
  intros <-. rewrite <- concat_bind. f_equal. apply list_eq. intros k. rewrite list_lookup_fmap.
  destruct (b !! k) as [l|] eqn:L.
  - assert (k < length b)%nat by (by eapply lookup_lt_Some). rewrite lookup_seqZ_lt by lia. cbn. unfold bucket.
    replace (Z.to_nat (0 + Z.of_nat k)) with k by lia. by rewrite L.
  - apply lookup_ge_None_1 in L. rewrite lookup_seqZ_ge by lia. done.
Qed.

Lemma at_bucket n b v : length b = n -> 0 <= v < Z.of_nat n -> at_ b v = Done (bucket b v).
Proof.
  intros Hl Hv. unfold at_, bucket. rewrite (proj2 (Z.ltb_ge _ _)) by lia.
  destruct (lookup_lt_is_Some_2 b (Z.to_nat v) ltac:(lia)) as [l ->]. done.
Qed.

Definition sizes (b : list (list Edge)) : list Z := (fun l => Z.of_nat (length l)) <$> b.

(** C27: The steps of the exchange, each on the result of the one before, lose and duplicate nothing.  Whatever the order [std_sort] gives to virtual hosts of the same size, when the ids in
    the hosts' files are not negative and memory suffices, the hosts end with exactly the edges of all files, where each file counts
    an edge once, without its direction, and no loop; and edges whose smaller ends belong to the same virtual host end on one host. *)
Theorem exchange_spec std_sort room pushed (files : list (list Edge)) n : sorts std_sort -> (forall k, room k = Success) -> (forall k, pushed k = Success) ->
  files <> [] -> (0 < n)%nat -> Forall (Forall (fun e => 0 <= e.1 /\ 0 <= e.2)) files ->
  Z.of_nat (length (concat (unique_edges <$> files))) < 2 ^ 63 ->
  exists fs, exchange std_sort room pushed (Some <$> files) (Z.of_nat n) = Done fs /\ length fs = length files /\
    concat fs ≡ₚ concat (unique_edges <$> files) /\
    (forall h h' f f' e e', fs !! h = Some f -> fs !! h' = Some f' -> e ∈ f -> e' ∈ f' -> vhost n e = vhost n e' -> h = h').
Proof.
  intros Hsort Hroom Hpush Hne Hn Hids Hsz. set (H := length files). assert (0 < H)%nat by (unfold H; destruct files; [done|cbn; lia]).
  set (B := (fun p => bucketed n (unique_edges p)) <$> files).
  unfold exchange, read_reduce_local_edge_lists. rewrite length_fmap. fold H.
  assert (mapo_list (fun input => getVHostData room input (Z.of_nat n)) (Some <$> files) =
    Done ((fun b => (sizes b, b)) <$> B)) as ->.
  { unfold B. clear - Hids Hn Hroom. induction Hids as [|p files Hp _ IH]; [done|]. cbn. unfold getVHostData at 1.
    rewrite get_vHost_edges_spec by done. cbn [bindo]. rewrite (guard_all (fun l => room (Z.of_nat (length l)))) by done. cbn [bindo].
    by rewrite IH. }
  cbn [bindo]. assert (((fun b => (sizes b, b)) <$> B).*1 = sizes <$> B) as -> by (by rewrite <- list_fmap_compose).
  assert (((fun b => (sizes b, b)) <$> B).*2 = B) as -> by (rewrite <- list_fmap_compose; apply list_fmap_id).
  destruct (add_all_metadata n (sizes <$> B)) with (r := repeat 0 n) as (red & Er & Lr).
  { unfold B. apply Forall_fmap, Forall_fmap, Forall_forall. intros p _. unfold compose, sizes. rewrite length_fmap, bucketed_length. split; [done|].
    apply Forall_fmap, Forall_forall. intros l _. cbn. lia. }
  { by rewrite repeat_length. }
  { apply Forall_forall. intros x Hx. apply list_elem_of_In, repeat_spec in Hx. lia. }
  { assert (sum (repeat 0 n) = 0) as -> by (clear; unfold sum; induction n; cbn; lia). rewrite Z.add_0_l.
    eapply Z.le_lt_trans; [|exact Hsz]. apply Z.eq_le_incl. unfold B. clear - Hn. induction files as [|p l IH]; [done|].
    cbn [fmap list_fmap concat sum foldr]. unfold sum in IH |- *. cbn [foldr]. rewrite length_app, Nat2Z.inj_add. f_equal; [|exact IH].
    fold (sum (sizes (bucketed n (unique_edges p)))). unfold sizes. rewrite sum_lengths. by rewrite bucketed_perm. }
  rewrite Nat2Z.id, Er. cbn [bindo]. unfold sort_metadata. rewrite take_ge by lia. rewrite Lr, Z.eqb_refl. cbn [guard_or bindo].
  rewrite Hroom, bool_decide_true by done. cbn [guard_or bindo]. set (key i := default 0 (red !! Z.to_nat i)).
  destruct (Hsort (fun i j => key i <? key j) (seqZ 0 (Z.of_nat n))) as [Ps _].
  { split; [intros x; lia|]. split; intros x y z; lia. }
  set (s := std_sort _ _) in *. set (V h := assign_loop (length s) s h H).
  pose proof (assigned_perm s H ltac:(done)) as PV. fold V in PV.
  assert (forall h v, (h < H)%nat -> v ∈ V h -> 0 <= v < Z.of_nat n) as HV.
  { intros h v Hh Hv. enough (v ∈ seqZ 0 (Z.of_nat n)) as E%elem_of_seqZ by lia. rewrite <- Ps, <- PV. apply list_elem_of_bind.
    exists h. split; [done|]. apply elem_of_seq. lia. }
  assert (forall b, b ∈ B -> length b = n) as HB.
  { intros b (p & -> & _)%list_elem_of_fmap. apply bucketed_length. }
  unfold launch_assign_vhosts_to_host. rewrite (mapo_list_fmap _ V).
  2: { intros h _. unfold assign_vhosts_to_host. rewrite guard_all by done. done. }
  cbn [bindo]. unfold launch_build_edges_to_send. rewrite (mapo_list_fmap _ (fun b => (fun h => bucket b <$> V h) <$> seq 0 H)).
  2: { intros b Hb. unfold build_edges_to_send. rewrite Hroom, bool_decide_true by done. cbn [guard_or bindo].
       rewrite (mapo_list_fmap _ (fun vs => bucket b <$> vs)); [by rewrite <- list_fmap_compose|].
       intros vs (h & -> & Hh%elem_of_seq)%list_elem_of_fmap. rewrite Hroom, bool_decide_true by done. cbn [guard_or bindo].
       apply mapo_list_fmap. intros v Hv. apply (at_bucket n); [by apply HB|]. apply (HV h); [lia|done]. }
  cbn [bindo]. unfold launch_edge_exchange.
  set (f h := b ← B; v ← V h; bucket b v).
  rewrite (mapo_list_fmap _ f).
  2: { intros h Hh%elem_of_seq. unfold edge_exchange. rewrite (mapo_list_fmap _ (fun to => default [] (to !! h))).
       - cbn [bindo]. rewrite guard_all by done. cbn [bindo]. f_equal. unfold f. rewrite <- concat_concat_bind. do 2 f_equal.
         rewrite <- list_fmap_compose. apply list_fmap_ext. intros i b _. unfold compose. rewrite list_lookup_fmap, lookup_seq_lt by lia. done.
       - intros to (b & -> & _)%list_elem_of_fmap. rewrite list_lookup_fmap, lookup_seq_lt by lia. cbn.
         apply at_lookup. by rewrite list_lookup_fmap, lookup_seq_lt by lia. }
  eexists. split; [done|]. split; [by rewrite length_fmap, length_seq|]. split.
  - rewrite concat_bind. unfold f. rewrite bind_swap. unfold B. rewrite concat_bind, <- concat_bind, <- list_fmap_compose, concat_bind.
    apply bind_perm_ext. intros p _. unfold compose. rewrite <- bind_bind, PV, Ps, all_buckets by apply bucketed_length. by apply bucketed_perm.
  - assert (NoDup (seq 0 H ≫= V)) as Nd by (rewrite PV, Ps; apply NoDup_seqZ).
    assert (forall h fh e, (f <$> seq 0 H) !! h = Some fh -> e ∈ fh -> (h < H)%nat /\ Z.of_nat (vhost n e) ∈ V h) as Own.
    { intros h fh e L He. rewrite list_lookup_fmap in L. destruct (seq 0 H !! h) as [h'|] eqn:Lh; [|done]. apply lookup_seq in Lh as [-> Hh].
      injection L as <-. split; [done|]. unfold f in He. apply list_elem_of_bind in He as (b & He & (p & -> & _)%list_elem_of_fmap).
      apply list_elem_of_bind in He as (v & He & Hv). unfold bucket in He. pose proof (HV _ _ Hh Hv) as Rv.
      rewrite bucketed_lookup in He by lia. cbn in He. apply list_elem_of_filter in He as [E _]. rewrite E, Z2Nat.id by lia. done. }
    intros h h' fh fh' e e' L L' He He' E. destruct (Own _ _ _ L He) as [Hh Hv], (Own _ _ _ L' He') as [Hh' Hv']. rewrite E in Hv.
    eapply (NoDup_bind_inv V (seq 0 H)); [exact Nd|apply elem_of_seq; lia|apply elem_of_seq; lia|exact Hv|exact Hv'].
Qed.

(** Two files, three virtual hosts: 1-4 and 4-7 share a virtual host. *)
Lemma exchange_spec_witness : exists fs,
  exchange (fun lt => insertion_sort lt) (fun _ => Success) (fun _ => Success) [Some [(4, 1); (1, 4); (2, 2)]; Some [(4, 7); (0, 5)]] 3 = Done fs /\
    concat fs ≡ₚ [(1, 4); (4, 7); (0, 5)].
Proof.
  destruct (exchange_spec (fun lt => insertion_sort lt) (fun _ => Success) (fun _ => Success) [[(4, 1); (1, 4); (2, 2)]; [(4, 7); (0, 5)]] 3) as (fs & E & _ & P & _).
  - apply insertion_sort_sorts.
  - done.
  - done.
  - discriminate.
  - lia.
  - repeat constructor; cbn; lia.
  - vm_compute. reflexivity.
  - exists fs. split; [exact E|]. rewrite P. vm_compute. reflexivity.
Defined.

(** A negative id has a negative remainder, and the edges of its virtual host are looked for in front of the vector. *)
Lemma negative_id_out_of_range : get_vHost_edges (Some [(-1, 5)]) 3 = Failed out_of_range.
Proof. reflexivity. Qed.

(** ** Importing one edge list *)

(** With every source below the number of vertices and memory for all, the list of a vertex has the destinations of its edges in the
    order of the file. *)
Lemma importELFile_spec n pairs : Forall (fun e => 0 <= e.1 < Z.of_nat n) pairs ->
  importELFile (fun _ => Success) Success (Z.of_nat n) (Some pairs) =
    Done (Success, Some ((fun v => (filter (fun e : Z * Z => e.1 = Z.of_nat v) pairs).*2) <$> seq 0 n)).
Proof.
  intros Hp. unfold importELFile. rewrite bool_decide_true by done. cbn [negb]. rewrite Nat2Z.id.
  set (lists es := (fun v => (filter (fun e : Z * Z => e.1 = Z.of_nat v) es).*2) <$> seq 0 n).
  assert (forall es v, (v < n)%nat -> lists es !! v = Some (filter (fun e : Z * Z => e.1 = Z.of_nat v) es).*2) as Look.
  { intros es v Hv. unfold lists. by rewrite list_lookup_fmap, lookup_seq_lt. }
  assert (forall es, length (lists es) = n) as Len by (intros es; unfold lists; by rewrite length_fmap, length_seq).
  assert (repeat [] n = lists []) as ->.
  { apply list_eq. intros k. destruct (decide (k < n)%nat); [by rewrite Look, lookup_repeat|].
    rewrite !lookup_ge_None_2; [done|rewrite Len; lia|rewrite repeat_length; lia]. }
  assert (forall es, import_loop (fun _ => Success) (lists es) pairs = Done (Success, lists (es ++ pairs))) as ->.
  { induction Hp as [|[s d] pairs Hs _ IH]; intros es; cbn [import_loop]; [by rewrite app_nil_r|]. cbn [fst] in Hs.
    assert (import_edge (fun _ => Success) (lists es) (s, d) = Done (Success, lists (es ++ [(s, d)]))) as ->.
    { unfold import_edge. cbn [fst snd]. rewrite <- (Z2Nat.id s) by lia. rewrite (at_lookup _ _ _ (Look es (Z.to_nat s) ltac:(lia))). cbn [bindo].
      do 2 f_equal. rewrite Nat2Z.id. apply list_eq. intros i. rewrite list_lookup_insert, Len.
      destruct (decide (i < n)%nat) as [Li|Li]; [|rewrite decide_False by lia; rewrite !lookup_ge_None_2; [done|rewrite Len; lia..]].
      rewrite !Look by done. rewrite filter_app, filter_cons, filter_nil. cbn [fst]. case_decide as D.
      - destruct D as [<- _]. rewrite decide_True by done. by rewrite fmap_app.
      - rewrite decide_False, app_nil_r; [done|]. intros E. apply D. split; lia. }
    cbn [bindo]. rewrite bool_decide_true by done. rewrite IH. by rewrite <- app_assoc. }
  cbn [bindo]. by rewrite bool_decide_true.
Qed.

(** An edge with its smaller end first. *)
Definition swapped (e : Z * Z) : Z * Z := if e.2 <? e.1 then (e.2, e.1) else e.

(** The tables have, for each vertex, the larger ends of the edges whose smaller end it is. *)
Definition neighbours (hash : Z -> Z) (es : list (Z * Z)) (l : list (HashTable.table (Key := Z) (T := Z))) : Prop := forall v t, l !! v = Some t ->
  HashTable.roomy (HashTable.maxLoadFactor t) /\ exists M, HashTable.rep 0 0 hash t M /\
    forall d, is_Some (M !! d) <-> exists e, e ∈ es /\ swapped e = (Z.of_nat v, d).

Lemma importELFileDirOpt_spec hash ok n pairs : HashTable.bounded ok -> Forall (fun e => 0 <= e.1 < Z.of_nat n /\ 0 <= e.2 < Z.of_nat n) pairs ->
  exists err r, importELFileDirOpt Success hash ok (Z.of_nat n) (Some pairs) = Some (Done (err, r)) /\
    (err = Success -> exists l, r = Some l /\ length l = n /\ neighbours hash pairs l) /\ (err <> Success -> err = BadAlloc /\ r = None).
Proof.
  intros Hok Hp. unfold importELFileDirOpt. rewrite bool_decide_true by done. cbn [negb].
  destruct (HashTable.initialize_rep 0 0 hash ok HashTable.HashTable_default 0) as (s & t & E & Em & R & C); [apply HashTable.default_rep|done|lia|].
  rewrite E. cbn [bindr]. destruct (bool_decide_reflect (s = Success)) as [->|N]; cbn [negb].
  2: { eexists s, None. split; [done|]. split; [done|]. intros _. split; [|done]. destruct C as [[? _]|[? _]]; [by destruct N|done]. }
  rewrite Nat2Z.id.
  assert (forall es l, length l = n -> neighbours hash es l -> exists err l', import_loop_DirOpt hash ok l pairs = Some (Done (err, l')) /\
    (err = Success -> length l' = n /\ neighbours hash (es ++ pairs) l') /\ (err <> Success -> err = BadAlloc)) as loop.
  { clear E R C Em t. induction Hp as [|e pairs He _ IH]; intros es l Hl HN; cbn [import_loop_DirOpt].
    { exists Success, l. split; [done|]. by rewrite app_nil_r. }
    unfold import_edge_DirOpt. fold (swapped e). destruct (swapped e) as [src dst] eqn:Es.
    assert (0 <= src < Z.of_nat n) by (unfold swapped in Es; destruct e; cbn in *; destruct (_ <? _); simplify_eq; lia).
    destruct (lookup_lt_is_Some_2 l (Z.to_nat src) ltac:(lia)) as [t Lt]. destruct (HN _ _ Lt) as (Room & M & R & HM).
    assert (at_ l src = Done t) as -> by (unfold at_; rewrite (proj2 (Z.ltb_ge _ _)), Lt by lia; done). cbn [bindr].
    destruct (HashTable.put_correct 0 0 hash ok Hok t M dst 0 (2 * length (HashTable.m_buffer t) + 8) R Room ltac:(unfold HashTable.enough; lia))
      as (s & t' & -> & El & [[-> R']|(-> & -> & _)]).
    - rewrite bool_decide_true by done. cbn [bindr]. rewrite bool_decide_true by done.
      destruct (IH (es ++ [e]) (<[Z.to_nat src := t']> l)) as (err & l' & -> & Ok & Bad); [by rewrite length_insert| |].
      + intros v t2 L2. apply list_lookup_insert_Some in L2 as [(<- & <- & _)|[Nv L2]].
        * rewrite El. split; [done|]. eexists. split; [exact R'|]. intros d. rewrite Z2Nat.id in * by lia. destruct (decide (d = dst)) as [->|Nd].
          -- rewrite lookup_insert_eq. split; [|done]. intros _. exists e. split; [apply elem_of_app; right; by left|done].
          -- rewrite lookup_insert_ne, HM by done. split; intros (e' & I & E'); exists e'; (split; [|done]).
             ++ apply elem_of_app. by left.
             ++ apply elem_of_app in I as [I|I%list_elem_of_singleton]; [done|]. subst. congruence.
        * destruct (HN _ _ L2) as (Room2 & M2 & R2 & HM2). split; [done|]. exists M2. split; [done|]. intros d. rewrite HM2.
          split; intros (e' & I & E'); exists e'; (split; [|done]).
          -- apply elem_of_app. by left.
          -- apply elem_of_app in I as [I|I%list_elem_of_singleton]; [done|]. subst. rewrite Es in E'. injection E' as -> _. lia.
      + exists err, l'. split; [done|]. rewrite <- app_assoc in Ok. done.
    - rewrite bool_decide_false by done. cbn [bindr]. rewrite bool_decide_false by done. exists BadAlloc, l. done. }
  destruct (loop [] (repeat t n)) as (err & l' & -> & Ok & Bad); [by rewrite repeat_length| |].
  { intros v t2 L2. assert (v < n)%nat by (apply lookup_lt_Some in L2; by rewrite repeat_length in L2). rewrite lookup_repeat in L2 by done.
    injection L2 as <-. rewrite Em. split; [apply HashTable.default_roomy|]. exists ∅. split; [done|]. intros d. rewrite lookup_empty.
    split; [by intros [? ?] | by intros (e & I%elem_of_nil & _)]. }
  cbn [bindr]. destruct (bool_decide_reflect (err = Success)) as [->|N].
  - eexists Success, _. split; [done|]. split; [|done]. intros _. exists l'. split; [done|]. by apply Ok.
  - exists err, None. split; [done|]. split; [done|]. intros _. split; [by apply Bad|done].
Qed.

End EdgeExchange.
