(* ===== verification/DistLocalCSR.v ===== *)
(** * The distributed graph of local graphs

    [DistLocalCSR] of [pando-lib-galois/graphs/dist_local_csr.hpp]: every host holds the vertices it owns, with their edges, in an [LCSR], and a
    cache of the [LCSR]s of all hosts.  A vertex is still the address of its first half edge; the host that owns it is read off the address, and
    a half edge holds the address of its destination, on whichever host. *)

From S2P Require Import Prelude Addressing GlobalPtr Cells HashTable Adjacency LocalCSR NativeMemory.
Import Cells LocalCSR.

Module DistLocalCSR.

(** [galois::localityOf(ptr).node.id]: the host that owns an address. *)
Definition home (p : Z) : Z := Index.node_id (Index.node (NativeMemory.localityOf p)).

(** An element of a [HostIndexedMap], an array with one element per host. *)
Definition host_at {A} (l : list A) (i : Z) : outcome A :=
  match (if 0 <=? i then l !! Z.to_nat i else None) with Some a => Done a | None => Failed (Undefined "no such host") end.

Section DistLocalCSR.
Context {V E : Type} (szV szE : Z) (hash : Z -> Z).
Local Abbreviation Heap := (@Heap V E).
(** [pando::getPlaceDims().node.id] *)
Context (hosts : Z).

(** src/include/pando-lib-galois/graphs/dist_local_csr.hpp:1223-1226 [DistLocalCSR]: each host's cache of all [LCSR]s, the number of vertices
    and edges, and each host's copy of the map from virtual hosts to hosts *)
Record Dist := mkDist { arrayOfCSRs : list (list LCSR); numVertices : Z; numEdges : Z; virtualToPhysicalMap : list (list Z) }.

(** The host the code runs on. *)
Context (here : Z).
Implicit Types (d : Dist) (h : Heap).

(** src/include/pando-lib-galois/graphs/dist_local_csr.hpp:331-335 [getCachedCSR] *)
Definition getCachedCSR (cache : list (list LCSR)) (i : Z) : outcome LCSR := let! map := host_at cache here in host_at map i.
(** src/include/pando-lib-galois/graphs/dist_local_csr.hpp:1201-1203 [getCSR] of a host *)
Definition getCSR d (hostID : Z) : outcome LCSR := getCachedCSR (arrayOfCSRs d) hostID.
(** src/include/pando-lib-galois/graphs/dist_local_csr.hpp:337-341 [getCSR] of a pointer *)
Definition getCSR_of d (ptr : Z) : outcome LCSR := getCSR d (u64 (home ptr)).
(** src/include/pando-lib-galois/graphs/dist_local_csr.hpp:1193-1196 [getLocalCSR] *)
Definition getLocalCSR d : outcome LCSR := getCSR d here.

(** ** Iterators *)

(** src/include/pando-lib-galois/graphs/dist_local_csr.hpp:100-112 [VertexIt::operator++] *)
Definition vertex_next d (m_pos : Z) : outcome Z :=
  let currNode := u64 (home m_pos) in
  let ptr := ptr_add 8 m_pos 1 in
  let! csrCurr := getCSR d currNode in
  if (ptr <? ptr_sub_n 8 (end_ 8 (vertexEdgeOffsets csrCurr)) 1) || (i64 currNode =? hosts - 1) then Done ptr
  else let! csrCurr := getCSR d (u64 (currNode + 1)) in Done (begin (vertexEdgeOffsets csrCurr)).
(** src/include/pando-lib-galois/graphs/dist_local_csr.hpp:120-131 [VertexIt::operator--] *)
Definition vertex_prev d (m_pos : Z) : outcome Z :=
  let currNode := u64 (home m_pos) in
  let ptr := ptr_sub_n 8 m_pos 1 in
  let! csrCurr := getCSR d currNode in
  if (begin (vertexEdgeOffsets csrCurr) <=? ptr) || (currNode =? 0) then Done ptr
  else let! csrCurr := getCSR d (u64 (currNode - 1)) in Done (ptr_sub_n 8 (end_ 8 (vertexEdgeOffsets csrCurr)) 2).

(** src/include/pando-lib-galois/graphs/dist_local_csr.hpp:139-145 [operator==], [operator!=] *)
Definition it_eqb (a b : Z) : bool := ptr_eqb a b.
Definition it_neqb (a b : Z) : bool := negb (it_eqb a b).
(** src/include/pando-lib-galois/graphs/dist_local_csr.hpp:147-149 [operator<] *)
Definition it_ltb (a b : Z) : bool := (home a <? home b) || (a <? b).
(** src/include/pando-lib-galois/graphs/dist_local_csr.hpp:151-153 [operator>] *)
Definition it_gtb (a b : Z) : bool := (home b <? home a) || (b <? a).
(** src/include/pando-lib-galois/graphs/dist_local_csr.hpp:155-161 [operator<=], [operator>=] *)
Definition it_leb (a b : Z) : bool := negb (it_gtb a b).
Definition it_geb (a b : Z) : bool := negb (it_ltb a b).

(** src/include/pando-lib-galois/graphs/dist_local_csr.hpp:202-214 [VertexDataIt::operator++] *)
Definition data_next d (m_pos : Z) : outcome Z :=
  let currNode := u64 (home m_pos) in
  let ptr := ptr_add szV m_pos 1 in
  let! csrCurr := getCSR d currNode in
  if (ptr <? end_ szV (vertexData csrCurr)) || (currNode =? u64 (hosts - 1)) then Done ptr
  else let! csrCurr := getCSR d (u64 (currNode + 1)) in Done (begin (vertexData csrCurr)).

(** src/include/pando-lib-galois/graphs/dist_local_csr.hpp:269-328 [VertexRange], [VertexDataRange]: where they begin and end, and their sizes *)
Record Range := mkRange { m_beg : Z; m_end : Z; m_size : Z }.

(** A loop over a range, [fuel] turns at most. *)
Fixpoint visit (next : Z -> outcome Z) (fuel : nat) (p e : Z) : option (outcome (list Z)) :=
  if it_neqb p e then
    match fuel with
    | O => None
    | S fuel => let* p' := Some (next p) in let* l := visit next fuel p' e in Some (Done (p :: l))
    end
  else Some (Done []).

(** ** Size, tokens and indices *)

(** src/include/pando-lib-galois/graphs/dist_local_csr.hpp:394-399 [size] *)
Definition size d : Z := numVertices d.
(** src/include/pando-lib-galois/graphs/dist_local_csr.hpp:400-405 [sizeEdges] *)
Definition sizeEdges d : Z := numEdges d.
(** src/include/pando-lib-galois/graphs/dist_local_csr.hpp:1157-1159 [localSize] *)
Definition localSize d (host : Z) : outcome Z := let! g := getCSR d host in Done (LocalCSR.size g).

(** src/include/pando-lib-galois/graphs/dist_local_csr.hpp:343-345 [halfEdgeBegin] *)
Definition halfEdgeBegin h d (vertex : Z) : outcome Z := let! g := getCSR_of d vertex in LocalCSR.halfEdgeBegin h g vertex.
(** src/include/pando-lib-galois/graphs/dist_local_csr.hpp:347-349 [halfEdgeEnd] *)
Definition halfEdgeEnd h (vertex : Z) : outcome Z := load_cell (m_vertex h) (ptr_add 8 vertex 1).
(** src/include/pando-lib-galois/graphs/dist_local_csr.hpp:406-408 [getNumEdges] *)
Definition getNumEdges h d (vertex : Z) : outcome Z :=
  let! e := halfEdgeEnd h vertex in let! b := halfEdgeBegin h d vertex in Done (u64 (ptr_diff 8 e b)).

(** src/include/pando-lib-galois/graphs/dist_local_csr.hpp:351-353 [numVHosts] *)
Definition numVHosts d : outcome Z := let! map := host_at (virtualToPhysicalMap d) here in Done (Z.of_nat (length map)).
(** src/include/pando-lib-galois/graphs/dist_local_csr.hpp:522-525 [getVirtualHostID] *)
Definition getVirtualHostID d (tid : Z) : outcome Z :=
  let! n := numVHosts d in if n =? 0 then Failed (Undefined "division by zero") else Done (tid mod n).
(** src/include/pando-lib-galois/graphs/dist_local_csr.hpp:527-531 [getPhysicalHostID] *)
Definition getPhysicalHostID d (tid : Z) : outcome Z :=
  let! virtualHostID := getVirtualHostID d tid in
  let! map := host_at (virtualToPhysicalMap d) here in host_at map virtualHostID.
(** src/include/pando-lib-galois/graphs/dist_local_csr.hpp:427-431 [getGlobalTopologyID] *)
Definition getGlobalTopologyID d (tid : Z) : outcome Z :=
  let! n := numVHosts d in
  let! virtualHostID := if n =? 0 then Failed (Undefined "division by zero") else Done (tid mod n) in
  let! map := host_at (virtualToPhysicalMap d) here in
  let! physicalHost := host_at map virtualHostID in
  let! g := getCSR d physicalHost in LocalCSR.getTopologyID hash g tid.
(** src/include/pando-lib-galois/graphs/dist_local_csr.hpp:411-418 [getTopologyID] *)
Definition getTopologyID d (tid : Z) : outcome Z :=
  let! g := getLocalCSR d in
  let! found := LocalCSR.relaxedGetTopologyID hash g tid in
  match found with None => getGlobalTopologyID d tid | Some ret => Done ret end.
(** src/include/pando-lib-galois/graphs/dist_local_csr.hpp:422-424 [getLocalTopologyID] *)
Definition getLocalTopologyID d (tid : Z) : outcome (option Z) := let! g := getLocalCSR d in LocalCSR.relaxedGetTopologyID hash g tid.

(** The loop of [getTopologyIDFromIndex]: [rest] are the hosts from [hostNum] on. *)
Fixpoint find_index (rest : list LCSR) (index : Z) : outcome Z :=
  match rest with
  | [] => Failed (Undefined "no such host")
  | csr :: rest =>
      let hostSize := LocalCSR.size csr in
      if hostSize <? index then find_index rest (u64 (index - hostSize)) else Done (LocalCSR.getTopologyIDFromIndex csr index)
  end.
(** src/include/pando-lib-galois/graphs/dist_local_csr.hpp:434-439 [getTopologyIDFromIndex] *)
Definition getTopologyIDFromIndex d (index : Z) : outcome Z := let! csrs := host_at (arrayOfCSRs d) here in find_index csrs index.
(** src/include/pando-lib-galois/graphs/dist_local_csr.hpp:440-442 [getTokenID] *)
Definition getTokenID h d (tid : Z) : outcome Z := let! g := getCSR_of d tid in LocalCSR.getTokenID h g tid.
(** The loop of [getVertexIndex] over the hosts [rest], [n] turns of it. *)
Fixpoint add_sizes (n : nat) (rest : list LCSR) (vid : Z) : outcome Z :=
  match n, rest with
  | O, _ => Done vid
  | S n, csr :: rest => add_sizes n rest (u64 (vid + LocalCSR.size csr))
  | S _, [] => Failed (Undefined "no such host")
  end.
(** src/include/pando-lib-galois/graphs/dist_local_csr.hpp:443-450 [getVertexIndex] *)
Definition getVertexIndex d (vertex : Z) : outcome Z :=
  let! g := getCSR_of d vertex in
  let! vid := LocalCSR.getVertexIndex g vertex in
  let! csrs := host_at (arrayOfCSRs d) here in add_sizes (Z.to_nat (u64 (home vertex))) csrs vid.
(** src/include/pando-lib-galois/graphs/dist_local_csr.hpp:1147-1150 [getVertexLocalIndex] *)
Definition getVertexLocalIndex d (vertex : Z) : outcome Z := let! g := getCSR_of d vertex in LocalCSR.getVertexIndex g vertex.
(** src/include/pando-lib-galois/graphs/dist_local_csr.hpp:451-454 [getLocalityVertex], the host of it *)
Definition getLocalityVertex (vertex : Z) : Z := home vertex.
(** src/include/pando-lib-galois/graphs/dist_local_csr.hpp:1182-1188 [isLocal], [isOwned] *)
Definition isLocal (vertex : Z) : bool := getLocalityVertex vertex =? here.
Definition isOwned (vertex : Z) : bool := isLocal vertex.

(** ** Edges and data *)

(** src/include/pando-lib-galois/graphs/dist_local_csr.hpp:457-459 [mintEdgeHandle] *)
Definition mintEdgeHandle h d (vertex off : Z) : outcome Z := let! b := halfEdgeBegin h d vertex in Done (ptr_add 8 b off).
(** src/include/pando-lib-galois/graphs/dist_local_csr.hpp:460-463 [getEdgeDst] *)
Definition getEdgeDst h (eh : Z) : outcome Z := load_cell (m_half h) eh.
(** src/include/pando-lib-galois/graphs/dist_local_csr.hpp:1178-1180 [getEdgeDst] of an edge of a vertex *)
Definition getEdgeDst_off h d (vertex off : Z) : outcome Z := let! eh := mintEdgeHandle h d vertex off in getEdgeDst h eh.

(** src/include/pando-lib-galois/graphs/dist_local_csr.hpp:466-468 [setData] *)
Definition setData h d (vertex : Z) (data : V) : outcome Heap := let! g := getCSR_of d vertex in LocalCSR.setData szV h g vertex data.
(** src/include/pando-lib-galois/graphs/dist_local_csr.hpp:469-471 [getData], read *)
Definition getData h d (vertex : Z) : outcome V := let! g := getCSR_of d vertex in LocalCSR.getData szV h g vertex.
(** src/include/pando-lib-galois/graphs/dist_local_csr.hpp:472-474 [setEdgeData] *)
Definition setEdgeData h d (eh : Z) (data : E) : outcome Heap := let! g := getCSR_of d eh in LocalCSR.setEdgeData szE h g eh data.
(** src/include/pando-lib-galois/graphs/dist_local_csr.hpp:475-477 [getEdgeData], read *)
Definition getEdgeData h d (eh : Z) : outcome E := let! g := getCSR_of d eh in LocalCSR.getEdgeData szE h g eh.
(** src/include/pando-lib-galois/graphs/dist_local_csr.hpp:1164-1166 [setEdgeData] of an edge of a vertex *)
Definition setEdgeData_off h d (vertex off : Z) (data : E) : outcome Heap :=
  let! eh := mintEdgeHandle h d vertex off in setEdgeData h d eh data.
(** src/include/pando-lib-galois/graphs/dist_local_csr.hpp:1171-1173 [getEdgeData] of an edge of a vertex *)
Definition getEdgeData_off h d (vertex off : Z) : outcome E := let! eh := mintEdgeHandle h d vertex off in getEdgeData h d eh.

(** ** Ranges *)

(** src/include/pando-lib-galois/graphs/dist_local_csr.hpp:480-484 [vertices] *)
Definition vertices d : outcome Range :=
  let! first := getCSR d 0 in
  let! last := getCSR d (u64 (hosts - 1)) in
  Done (mkRange (begin (vertexEdgeOffsets first)) (ptr_sub_n 8 (end_ 8 (vertexEdgeOffsets last)) 1) (numVertices d)).
(** src/include/pando-lib-galois/graphs/dist_local_csr.hpp:486-490 [edges] *)
Definition edges h (vPtr : Z) : outcome RefSpan :=
  let! v := load_cell (m_vertex h) vPtr in
  let! v1 := load_cell (m_vertex h) (ptr_add 8 vPtr 1) in
  Done (mkSpan v (u64 (ptr_diff 8 v1 v))).
(** src/include/pando-lib-galois/graphs/dist_local_csr.hpp:492-502 [edges] in a window *)
Definition edges_window h (vPtr offset_st window_sz : Z) : outcome RefSpan :=
  let! v := load_cell (m_vertex h) vPtr in
  let! v1 := load_cell (m_vertex h) (ptr_add 8 vPtr 1) in
  let beg := ptr_add 8 v offset_st in
  if v1 <? beg then Done (mkSpan v 0)
  else Done (mkSpan beg (Z.min window_sz (u64 (ptr_diff 8 v1 beg)))).
(** src/include/pando-lib-galois/graphs/dist_local_csr.hpp:504-515 [vertexDataRange] *)
Definition vertexDataRange d : outcome Range :=
  let! first := getCSR d 0 in
  let! last := getCSR d (u64 (hosts - 1)) in
  Done (mkRange (begin (vertexData first)) (end_ szV (vertexData last)) (numVertices d)).
(** src/include/pando-lib-galois/graphs/dist_local_csr.hpp:517-519 [edgeDataRange] *)
Definition edgeDataRange h d (vertex : Z) : outcome RefSpan := let! g := getCSR_of d vertex in LocalCSR.edgeDataRange szE h g vertex.

(** src/include/pando-lib-galois/graphs/dist_local_csr.hpp:534-539 [addVertexTopologyOnly], [addVertex]: nothing is added *)
Definition addVertex d : outcome Z := let! r := vertices d in Done (m_end r).
(** src/include/pando-lib-galois/graphs/dist_local_csr.hpp:540-549 [addEdgesTopologyOnly], [addEdges], [deleteEdges]: not supported *)
Definition addEdges : Status := Error.

(** ** The caches *)

(** The loop of [generateCache] on host [j], over the hosts [todo]. *)
Fixpoint copy_csrs (rows : list (list LCSR)) (j : nat) (todo : list nat) (localCSRs : list LCSR) : outcome (list LCSR) :=
  match todo with
  | [] => Done localCSRs
  | i :: todo =>
      if (i =? j)%nat then copy_csrs rows j todo localCSRs else
      let! row := host_at rows (Z.of_nat i) in
      let! csr := host_at row (Z.of_nat i) in
      copy_csrs rows j todo (<[i := csr]> localCSRs)
  end.
(** src/include/pando-lib-galois/graphs/dist_local_csr.hpp:1208-1219 [generateCache]; the hosts fill their caches in some order *)
Fixpoint generateCache (order : list nat) (rows : list (list LCSR)) : outcome (list (list LCSR)) :=
  match order with
  | [] => Done rows
  | j :: order =>
      let! row := host_at rows (Z.of_nat j) in
      let! row := copy_csrs rows j (seq 0 (Z.to_nat hosts)) row in
      generateCache order (<[j := row]> rows)
  end.

End DistLocalCSR.

(** ** The graph it represents *)

Section Graph.
Context {V E : Type} (szV szE : Z) (hash : Z -> Z) (HV : 0 < szV) (HE : 0 < szE) (hosts : nat).
Local Abbreviation Heap := (@Heap V E).
Implicit Types (h : Heap) (g : LCSR) (d : Dist).

(** The part of the graph a host owns: for each vertex its token, its data and its edges, each with the token of its destination. *)
Record part := mkPart { p_tokens : list Z; p_data : list V; p_out : list (list (Z * E)) }.

(** [a] is the address of a vertex with token [t], the one of host [i] if that has one. *)
Definition points (i : nat) (csrs : list LCSR) (parts : list part) (a t : Z) : Prop :=
  exists j g P k, csrs !! j = Some g /\ parts !! j = Some P /\ p_tokens P !! k = Some t /\ a = vptr g k /\
    forall Q, parts !! i = Some Q -> t ∈ p_tokens Q -> j = i.

(** The addresses in [g] belong to [host]. *)
Record at_home (host : nat) g (nv ne : nat) : Prop := mkHome {
  home_v : forall k, (k <= nv)%nat -> home (vptr g k) = Z.of_nat host;
  home_e : forall k, (k < ne)%nat -> home (eptr g k) = Z.of_nat host;
  home_d : forall k, (k < nv)%nat -> home (addr szV (m_data (vertexData g)) k) = Z.of_nat host }.

(** The table finds exactly the tokens. *)
Definition finds g (tokens : list Z) : Prop := exists M, HashTable.rep 0 nullptr hash (tokenToTopology g) M /\
  forall t a, M !! t = Some a <-> exists k, tokens !! k = Some t /\ a = vptr g k.

(** [g] holds the part [P], with the addresses [half] of the destinations of its edges. *)
Record csr_ok h (host : nat) g (P : part) (half : list Z) : Prop := mkCsr {
  c_vertex : holds 8 (m_vertex h) (vertexEdgeOffsets g) (map (fun k => eptr g (first_edge (p_out P) k)) (seq 0 (S (length (p_out P)))));
  c_half : holds 8 (m_half h) (edgeDestinations g) half;
  c_vdata : holds szV (m_vdata h) (vertexData g) (p_data P);
  c_edata : holds szE (m_edata h) (edgeData g) (concat (p_out P)).*2;
  c_token : holds 8 (m_token h) (topologyToToken g) (p_tokens P);
  c_lengths : length (p_data P) = length (p_out P) /\ length (p_tokens P) = length (p_out P);
  c_home : at_home host g (length (p_out P)) (length (concat (p_out P))) }.

(** No array of one is part of an array of the other. *)
Record csr_apart g g' : Prop := mkApart {
  a_vertex : apart 8 (vertexEdgeOffsets g) (vertexEdgeOffsets g');
  a_half : apart 8 (edgeDestinations g) (edgeDestinations g');
  a_vdata : apart szV (vertexData g) (vertexData g');
  a_edata : apart szE (edgeData g) (edgeData g');
  a_token : apart 8 (topologyToToken g) (topologyToToken g') }.

Definition tokens_of (parts : list part) : list (list Z) := p_tokens <$> parts.

(** The host a token is mapped to. *)
Definition owner (v2pm : list Z) (t : Z) : option Z := v2pm !! Z.to_nat (t mod Z.of_nat (length v2pm)).

(** How vertices are found: every cache holds the [LCSR]s of all hosts, their tables the tokens of the hosts, and the map leads from a token to
    a host that has it. *)
Record directory d (parts : list part) (csrs : list LCSR) (v2pm : list Z) : Prop := mkDirectory {
  g_hosts : (0 < hosts)%nat /\ Z.of_nat hosts < 2 ^ 62;
  g_len : length csrs = hosts /\ length parts = hosts;
  g_cache : arrayOfCSRs d = replicate hosts csrs;
  g_map : virtualToPhysicalMap d = replicate hosts v2pm;
  g_table : forall i g P, csrs !! i = Some g -> parts !! i = Some P -> finds g (p_tokens P);
  g_leads : forall i P t, parts !! i = Some P -> t ∈ p_tokens P ->
    exists j Q, owner v2pm t = Some (Z.of_nat j) /\ parts !! j = Some Q /\ t ∈ p_tokens Q }.

(** A graph in which a token may be on several hosts: the vertices can be found, and each [LCSR] holds the part of its host. *)
Record cgraph h d (parts : list part) (csrs : list LCSR) (v2pm : list Z) : Prop := mkCGraph {
  g_dir :> directory d parts csrs v2pm;
  g_csr : forall i g P, csrs !! i = Some g -> parts !! i = Some P ->
    exists half, csr_ok h i g P half /\ Forall2 (points i csrs parts) half (concat (p_out P)).*1;
  g_apart : forall i j gi gj, i <> j -> csrs !! i = Some gi -> csrs !! j = Some gj -> csr_apart gi gj;
  g_size : numVertices d = Z.of_nat (length (concat (tokens_of parts))) /\ numVertices d < 2 ^ 60 }.

(** A token is on one host, the one it is mapped to. *)
Record unique (parts : list part) (v2pm : list Z) : Prop := mkUnique {
  g_nodup : NoDup (concat (tokens_of parts));
  g_owner : forall i P t, parts !! i = Some P -> t ∈ p_tokens P -> owner v2pm t = Some (Z.of_nat i) }.

Record dgraph h d (parts : list part) (csrs : list LCSR) (v2pm : list Z) : Prop := mkDGraph {
  g_graph :> cgraph h d parts csrs v2pm;
  g_unique :> unique parts v2pm }.

(** *** One host's part *)

Lemma host_at_lookup {A} (l : list A) i a : l !! i = Some a -> host_at l (Z.of_nat i) = Done a.
Proof. intros H. unfold host_at. rewrite (proj2 (Z.leb_le _ _)) by lia. by rewrite Nat2Z.id, H. Qed.

Lemma found g tokens k t : finds g tokens -> tokens !! k = Some t -> LocalCSR.relaxedGetTopologyID hash g t = Done (Some (vptr g k)).
Proof.
  intros (M & R & HM) H. unfold relaxedGetTopologyID.
  rewrite (HashTable.get_correct 0 nullptr hash _ M t _ R) by (unfold HashTable.enough, table_fuel; lia). do 2 f_equal.
  apply HM. by exists k.
Qed.
Lemma not_found g tokens t : finds g tokens -> t ∉ tokens -> LocalCSR.relaxedGetTopologyID hash g t = Done None.
Proof.
  intros (M & R & HM) H. unfold relaxedGetTopologyID.
  rewrite (HashTable.get_correct 0 nullptr hash _ M t _ R) by (unfold HashTable.enough, table_fuel; lia). f_equal.
  destruct (M !! t) as [a|] eqn:L; [|done]. apply HM in L as (k & L & _). by apply list_elem_of_lookup_2 in L.
Qed.

Section Part.
Context h host g P half (C : csr_ok h host g P half).

Lemma offset_bounds : 0 <= m_data (vertexEdgeOffsets g) /\ m_data (vertexEdgeOffsets g) + 8 * Z.of_nat (S (length (p_out P))) < 2 ^ 63 /\
  0 <= m_data (edgeDestinations g) /\ m_data (edgeDestinations g) + 8 * Z.of_nat (length half) < 2 ^ 63 /\
  Cells.m_size (vertexEdgeOffsets g) = Z.of_nat (S (length (p_out P))).
Proof.
  destruct (c_vertex _ _ _ _ _ C) as [S0 L0 _ H0 _], (c_half _ _ _ _ _ C) as [_ L1 _ H1 _]. rewrite length_map, length_seq in *. lia.
Qed.

Lemma vertex_value k : (k <= length (p_out P))%nat -> load_cell (m_vertex h) (vptr g k) = Done (eptr g (first_edge (p_out P) k)).
Proof.
  intros H. apply (cells_load 8 (m_vertex h) _ _ _ _ (c_vertex _ _ _ _ _ C)). rewrite list_lookup_fmap, lookup_seq_lt by lia. done.
Qed.

Lemma csr_size : LocalCSR.size g = Z.of_nat (length (p_out P)).
Proof. pose proof offset_bounds as B. unfold LocalCSR.size. destruct B as (? & ? & _ & _ & ->). rewrite wrapU_id; unfold inU; lia. Qed.

Lemma next_vptr k : (k <= length (p_out P))%nat -> ptr_add 8 (vptr g k) 1 = vptr g (S k).
Proof. intros H. pose proof offset_bounds. apply ptr_next; lia. Qed.

Lemma offsets_end : ptr_sub_n 8 (end_ 8 (vertexEdgeOffsets g)) 1 = vptr g (length (p_out P)).
Proof.
  pose proof offset_bounds. rewrite (end_addr 8 ltac:(lia) (m_vertex h) _ _ (c_vertex _ _ _ _ _ C)). rewrite length_map, length_seq.
  unfold ptr_sub_n, vptr, addr. rewrite (wrapU_id 64 (1 * 8)) by (unfold inU; lia). rewrite wrapU_id; unfold inU; lia.
Qed.

Lemma local_index k : (k <= length (p_out P))%nat -> LocalCSR.getVertexIndex g (vptr g k) = Done (Z.of_nat k).
Proof.
  intros H. apply (findIndex_spec 8 (m_vertex h) _ _ _ ltac:(lia) (c_vertex _ _ _ _ _ C)). rewrite length_map, length_seq. lia.
Qed.

Lemma local_token k t : p_tokens P !! k = Some t -> LocalCSR.getTokenID h g (vptr g k) = Done t.
Proof.
  intros H. pose proof (lookup_lt_Some _ _ _ H). destruct (c_lengths _ _ _ _ _ C) as [_ L]. unfold LocalCSR.getTokenID.
  fold (LocalCSR.getVertexIndex g (vptr g k)). rewrite local_index by lia. cbn [bindo].
  by apply (cells_read 8 ltac:(lia) (m_token h) _ _ _ _ (c_token _ _ _ _ _ C)).
Qed.

Lemma local_begin k : (k <= length (p_out P))%nat -> LocalCSR.halfEdgeBegin h g (vptr g k) = Done (eptr g (first_edge (p_out P) k)).
Proof.
  intros H. unfold LocalCSR.halfEdgeBegin, ptr_eqb. destruct (Z.eqb_spec (vptr g k) (begin (vertexEdgeOffsets g))) as [Q|Q].
  - assert (k = 0%nat) as ->. { unfold vptr, addr, begin in Q. lia. } unfold eptr, first_edge. cbn. by rewrite addr_0.
  - by apply vertex_value.
Qed.

Lemma local_degree k l : p_out P !! k = Some l -> length half = length (concat (p_out P)) ->
  u64 (ptr_diff 8 (eptr g (first_edge (p_out P) (S k))) (eptr g (first_edge (p_out P) k))) = Z.of_nat (length l).
Proof.
  intros H L. pose proof offset_bounds. pose proof (first_edge_S _ _ _ H). pose proof (first_edge_le (p_out P) (S k)).
  unfold eptr. rewrite diff_addr by lia. rewrite wrapU_id by (unfold inU; lia). lia.
Qed.

Lemma local_edge k l n : p_out P !! k = Some l -> (n < length l)%nat -> length half = length (concat (p_out P)) ->
  ptr_add 8 (eptr g (first_edge (p_out P) k)) (Z.of_nat n) = eptr g (first_edge (p_out P) k + n) /\
  LocalCSR.findIndex 8 (eptr g (first_edge (p_out P) k + n)) (edgeDestinations g) = Done (Z.of_nat (first_edge (p_out P) k + n)).
Proof.
  intros H Hn L. pose proof offset_bounds. pose proof (first_edge_S _ _ _ H). pose proof (first_edge_le (p_out P) (S k)). split.
  - unfold eptr, addr. rewrite ptr_add_small; unfold inU; lia.
  - apply (findIndex_spec 8 (m_half h) _ half _ ltac:(lia) (c_half _ _ _ _ _ C)). lia.
Qed.

Lemma local_data k x : p_data P !! k = Some x -> LocalCSR.getData szV h g (vptr g k) = Done x.
Proof.
  intros H. pose proof (lookup_lt_Some _ _ _ H). destruct (c_lengths _ _ _ _ _ C) as [L _]. unfold LocalCSR.getData.
  fold (LocalCSR.getVertexIndex g (vptr g k)). rewrite local_index by lia. cbn [bindo].
  by apply (cells_read szV HV (m_vdata h) _ _ _ _ (c_vdata _ _ _ _ _ C)).
Qed.
End Part.

(** *** The whole graph *)

Section Directory.
Context d parts csrs v2pm (G : directory d parts csrs v2pm) (here : nat) (Hhere : (here < hosts)%nat).
Local Abbreviation me := (Z.of_nat here).

Lemma cached i g : csrs !! i = Some g -> getCSR me d (Z.of_nat i) = Done g.
Proof.
  intros H. unfold getCSR, getCachedCSR. rewrite (g_cache _ _ _ _ G).
  rewrite (host_at_lookup _ here csrs) by (by apply lookup_replicate_2). cbn [bindo]. by apply host_at_lookup.
Qed.

Lemma host_bound i g : csrs !! i = Some g -> (i < hosts)%nat /\ Z.of_nat i < 2 ^ 62.
Proof. intros H%lookup_lt_Some. destruct (g_hosts _ _ _ _ G), (g_len _ _ _ _ G). lia. Qed.

Lemma cached_home i g p : csrs !! i = Some g -> home p = Z.of_nat i -> getCSR_of me d p = Done g.
Proof.
  intros H Hp. pose proof (host_bound _ _ H). unfold getCSR_of. rewrite Hp, wrapU_id by (unfold inU; lia). by apply cached.
Qed.

Lemma csr_of i P : parts !! i = Some P -> exists g, csrs !! i = Some g.
Proof. intros H%lookup_lt_Some. destruct (g_len _ _ _ _ G). apply lookup_lt_is_Some_2. lia. Qed.

Lemma the_map : host_at (virtualToPhysicalMap d) me = Done v2pm.
Proof. rewrite (g_map _ _ _ _ G). apply host_at_lookup. by apply lookup_replicate_2. Qed.

Lemma map_at t i : v2pm !! Z.to_nat (t mod Z.of_nat (length v2pm)) = Some i -> Z.of_nat (length v2pm) <> 0 /\ host_at v2pm (t mod Z.of_nat (length v2pm)) = Done i.
Proof.
  intros H. assert (Z.of_nat (length v2pm) <> 0) by (pose proof (lookup_lt_Some _ _ _ H); lia). split; [done|].
  unfold host_at. rewrite (proj2 (Z.leb_le _ _)) by (apply Z.mod_pos_bound; lia). by rewrite H.
Qed.

(** A token that a host has is found on it; another one on the host it is mapped to. *)
Lemma topology_here P0 t : parts !! here = Some P0 -> (exists i P, parts !! i = Some P /\ t ∈ p_tokens P) ->
  exists j g Q k, csrs !! j = Some g /\ parts !! j = Some Q /\ p_tokens Q !! k = Some t /\ getTopologyID hash me d t = Done (vptr g k) /\
    if decide (t ∈ p_tokens P0) then j = here else owner v2pm t = Some (Z.of_nat j).
Proof.
  intros HP0 (i & P & Hi & Ht). destruct (g_len _ _ _ _ G) as [Lc Lp]. destruct (lookup_lt_is_Some_2 csrs here ltac:(lia)) as [g0 Hg0].
  pose proof (g_table _ _ _ _ G here g0 P0 Hg0 HP0) as C0. unfold getTopologyID, getLocalCSR. rewrite (cached here g0 Hg0). cbn [bindo].
  case_decide as D.
  - apply list_elem_of_lookup in D as [k Hk]. exists here, g0, P0, k. by rewrite (found _ _ k t C0 Hk).
  - rewrite (not_found _ _ _ C0 D). cbn [bindo]. destruct (g_leads _ _ _ _ G i P t Hi Ht) as (j & Q & Ho & HQ & [k Hk]%list_elem_of_lookup).
    destruct (csr_of j Q HQ) as [g Hg]. exists j, g, Q, k. split_and!; try done. unfold getGlobalTopologyID, numVHosts. rewrite the_map. cbn [bindo].
    destruct (map_at t (Z.of_nat j) Ho) as [Nz M]. rewrite (proj2 (Z.eqb_neq _ _)) by done. cbn [bindo]. rewrite M. cbn [bindo].
    rewrite (cached j g Hg). cbn [bindo]. unfold LocalCSR.getTopologyID. by rewrite (found _ _ k t (g_table _ _ _ _ G j g Q Hg HQ) Hk).
Qed.

(** A token of no vertex stops the program. *)
Lemma topology_unknown t i : (forall P, P ∈ parts -> t ∉ p_tokens P) ->
  v2pm !! Z.to_nat (t mod Z.of_nat (length v2pm)) = Some (Z.of_nat i) -> (i < hosts)%nat ->
  getTopologyID hash me d t = Failed (Aborted "FAILURE TO FIND TOKENID").
Proof.
  intros U M Hi. destruct (g_len _ _ _ _ G) as [Lc Lp].
  assert (F : forall i g, csrs !! i = Some g -> LocalCSR.relaxedGetTopologyID hash g t = Done None).
  { intros j g Hg. destruct (lookup_lt_is_Some_2 parts j) as [P HP]; [apply lookup_lt_Some in Hg; lia|].
    apply (not_found _ (p_tokens P)); [by apply (g_table _ _ _ _ G j)|]. apply U. by eapply list_elem_of_lookup_2. }
  destruct (lookup_lt_is_Some_2 csrs here ltac:(lia)) as [g0 Hg0], (lookup_lt_is_Some_2 csrs i ltac:(lia)) as [g Hg].
  unfold getTopologyID, getLocalCSR. rewrite (cached here g0 Hg0). cbn [bindo]. rewrite (F _ _ Hg0). cbn [bindo].
  unfold getGlobalTopologyID, numVHosts. rewrite the_map. cbn [bindo]. apply map_at in M as [Nz M].
  rewrite (proj2 (Z.eqb_neq _ _)) by done. cbn [bindo]. rewrite M. cbn [bindo]. rewrite (cached i g Hg). cbn [bindo].
  unfold LocalCSR.getTopologyID. by rewrite (F _ _ Hg).
Qed.

End Directory.

Section Whole.
Context h d parts csrs v2pm (G : cgraph h d parts csrs v2pm) (here : nat) (Hhere : (here < hosts)%nat).
Local Abbreviation me := (Z.of_nat here).

(** Adding up the sizes of the hosts before. *)
Lemma add_sizes_spec n : forall i vid, (i + n <= hosts)%nat -> 0 <= vid ->
  vid + Z.of_nat (first_edge (tokens_of parts) (i + n)) - Z.of_nat (first_edge (tokens_of parts) i) < 2 ^ 64 ->
  add_sizes n (drop i csrs) vid = Done (vid + Z.of_nat (first_edge (tokens_of parts) (i + n)) - Z.of_nat (first_edge (tokens_of parts) i)).
Proof.
  induction n as [|n IH]; intros i vid Hi Hv Hb; cbn [add_sizes]; [f_equal; rewrite Nat.add_0_r; lia|].
  destruct (g_len _ _ _ _ G) as [Lc Lp].
  destruct (lookup_lt_is_Some_2 csrs i ltac:(lia)) as [g Hg], (lookup_lt_is_Some_2 parts i ltac:(lia)) as [P HP].
  destruct (g_csr _ _ _ _ _ G i g P Hg HP) as (half & C & _). rewrite (drop_S _ _ _ Hg). rewrite (csr_size _ _ _ _ _ C).
  assert (F : first_edge (tokens_of parts) (S i) = (first_edge (tokens_of parts) i + length (p_out P))%nat).
  { rewrite <- (proj2 (c_lengths _ _ _ _ _ C)). apply first_edge_S. unfold tokens_of. by rewrite list_lookup_fmap, HP. }
  pose proof (first_edge_mono (tokens_of parts) (S i) (i + S n) ltac:(lia)).
  replace (i + S n)%nat with (S i + n)%nat in * by lia. rewrite wrapU_id by (unfold inU; lia). rewrite IH; [f_equal|..]; lia.
Qed.

(** The vertex [k] of host [i], and what belongs to it. *)
Lemma vertex_of i g P k : csrs !! i = Some g -> parts !! i = Some P -> (k <= length (p_out P))%nat ->
  exists half, csr_ok h i g P half /\ length half = length (concat (p_out P)) /\ Forall2 (points i csrs parts) half (concat (p_out P)).*1 /\
    home (vptr g k) = Z.of_nat i /\ getCSR_of me d (vptr g k) = Done g.
Proof.
  intros Hg HP Hk. destruct (g_csr _ _ _ _ _ G i g P Hg HP) as (half & C & F). exists half. split; [done|].
  split; [apply Forall2_length in F; by rewrite length_fmap in F|]. split; [done|].
  pose proof (home_v _ _ _ _ (c_home _ _ _ _ _ C) k Hk) as Hh. split; [done|]. by apply (cached_home d parts csrs v2pm G here Hhere i).
Qed.

Lemma token_at i g P k t : csrs !! i = Some g -> parts !! i = Some P -> p_tokens P !! k = Some t -> getTokenID me h d (vptr g k) = Done t.
Proof.
  intros Hg HP Hk. pose proof (lookup_lt_Some _ _ _ Hk). destruct (g_csr _ _ _ _ _ G i g P Hg HP) as (half0 & C0 & _).
  pose proof (proj2 (c_lengths _ _ _ _ _ C0)). destruct (vertex_of i g P k Hg HP ltac:(lia)) as (half & C & _ & _ & _ & Gc).
  unfold getTokenID. rewrite Gc. cbn [bindo]. by apply (local_token _ _ _ _ _ C).
Qed.

Lemma index_at i g P k : csrs !! i = Some g -> parts !! i = Some P -> (k <= length (p_out P))%nat ->
  getVertexIndex me d (vptr g k) = Done (Z.of_nat (first_edge (tokens_of parts) i + k)).
Proof.
  intros Hg HP Hk. destruct (vertex_of i g P k Hg HP Hk) as (half & C & _ & _ & Hh & Gc). pose proof (host_bound d parts csrs v2pm G here Hhere i g Hg) as [Hi Hb].
  unfold getVertexIndex. rewrite Gc. cbn [bindo]. rewrite (local_index _ _ _ _ _ C) by done. cbn [bindo].
  rewrite (g_cache _ _ _ _ G), (host_at_lookup _ here csrs) by (by apply lookup_replicate_2). cbn [bindo].
  rewrite Hh, wrapU_id by (unfold inU; lia). rewrite Nat2Z.id.
  destruct (g_size _ _ _ _ _ G) as [Sz Sb].
  pose proof (first_edge_mono (tokens_of parts) 0 i ltac:(lia)) as M0. pose proof (first_edge_le (tokens_of parts) i).
  destruct (offset_bounds _ _ _ _ _ C) as (? & ? & _).
  rewrite <- (drop_0 csrs). rewrite (add_sizes_spec i 0); [f_equal; change (first_edge (tokens_of parts) 0) with 0%nat; cbn [Nat.add]; lia|lia|lia|].
  change (first_edge (tokens_of parts) 0) with 0%nat. cbn [Nat.add]. lia.
Qed.
End Whole.

(** *** When every token is on one host *)

Section Unique.
Context d parts csrs v2pm (G : directory d parts csrs v2pm) (U : unique parts v2pm) (here : nat) (Hhere : (here < hosts)%nat).

Lemma token_once i j P Q k n t : parts !! i = Some P -> parts !! j = Some Q -> p_tokens P !! k = Some t -> p_tokens Q !! n = Some t ->
  i = j /\ k = n.
Proof.
  intros Hi Hj. apply (concat_unique (tokens_of parts) i j); [exact (g_nodup _ _ U)| |]; unfold tokens_of; rewrite list_lookup_fmap;
    [by rewrite Hi|by rewrite Hj].
Qed.

(** A token is found from every host, wherever its vertex is. *)
Lemma topology_of i P k t : parts !! i = Some P -> p_tokens P !! k = Some t ->
  exists g, csrs !! i = Some g /\ getTopologyID hash (Z.of_nat here) d t = Done (vptr g k).
Proof.
  intros Hi Hk. destruct (g_len _ _ _ _ G) as [Lc Lp]. destruct (lookup_lt_is_Some_2 parts here ltac:(lia)) as [P0 HP0].
  destruct (topology_here d parts csrs v2pm G here Hhere P0 t HP0) as (j & g & Q & n & Hg & HQ & Hn & E' & _).
  { exists i, P. split; [done|]. by eapply list_elem_of_lookup_2. }
  destruct (token_once i j P Q k n t Hi HQ Hk Hn) as [-> ->]. by exists g.
Qed.
End Unique.

(** What the queries answer, on every host: the vertex of a token is found, and gives back the token, its number in all and on its host, its
    data, its edges in order with their data, and for each edge the vertex of the destination's token. *)
Definition vertex_answers h d parts (here : Z) (i k : nat) (t : Z) (x : V) (l : list (Z * E)) : Prop :=
  exists v, getTopologyID hash here d t = Done v /\ getLocalityVertex v = Z.of_nat i /\ getTokenID here h d v = Done t /\
    getVertexLocalIndex here d v = Done (Z.of_nat k) /\ getVertexIndex here d v = Done (Z.of_nat (first_edge (tokens_of parts) i + k)) /\
    getData szV here h d v = Done x /\ getNumEdges here h d v = Done (Z.of_nat (length l)) /\
    (forall n t' y, l !! n = Some (t', y) -> exists a, getEdgeDst_off here h d v (Z.of_nat n) = Done a /\
       getTokenID here h d a = Done t' /\ getTopologyID hash here d t' = Done a /\ getEdgeData_off szE here h d v (Z.of_nat n) = Done y) /\
    exists s handles, edges h v = Done s /\ span_list 8 (length l) s = Some handles /\
      Forall2 (fun eh e => exists a, getEdgeDst h eh = Done a /\ getTopologyID hash here d e.1 = Done a /\ getEdgeData szE here h d eh = Done e.2) handles l.

Lemma out_edge P k l n t y (half : list Z) : p_out P !! k = Some l -> l !! n = Some (t, y) -> length half = length (concat (p_out P)) ->
  (first_edge (p_out P) k + n < length half)%nat /\ (concat (p_out P)).*1 !! (first_edge (p_out P) k + n)%nat = Some t /\
  (concat (p_out P)).*2 !! (first_edge (p_out P) k + n)%nat = Some y.
Proof.
  intros Hl Hn L. pose proof (lookup_lt_Some _ _ _ Hn). pose proof (first_edge_S _ _ _ Hl). pose proof (first_edge_le (p_out P) (S k)).
  pose proof (concat_edge (p_out P) k l n Hl ltac:(lia)) as Ce. rewrite Hn in Ce. split; [lia|]. by rewrite !list_lookup_fmap, Ce.
Qed.

(** An edge, found by its handle. *)
Lemma edge_at h d parts csrs v2pm here i g P k l n t y : dgraph h d parts csrs v2pm -> (here < hosts)%nat -> csrs !! i = Some g -> parts !! i = Some P ->
  p_out P !! k = Some l -> l !! n = Some (t, y) -> let eh := eptr g (first_edge (p_out P) k + n) in
  exists a, getEdgeDst h eh = Done a /\ getTokenID (Z.of_nat here) h d a = Done t /\ getTopologyID hash (Z.of_nat here) d t = Done a /\
    getEdgeData szE (Z.of_nat here) h d eh = Done y.
Proof.
  intros G Hh Hg HP Hl Hn eh. pose proof (lookup_lt_Some _ _ _ Hl). pose proof (lookup_lt_Some _ _ _ Hn).
  destruct (vertex_of h d parts csrs v2pm G here Hh i g P k Hg HP ltac:(lia)) as (half & C & Lh & F & _ & _).
  destruct (out_edge P k l n t y half Hl Hn Lh) as (B & Et & Ey).
  destruct (lookup_lt_is_Some_2 half _ B) as [a Ha]. exists a.
  destruct (Forall2_lookup_lr _ _ _ _ _ _ F Ha Et) as (j & g' & Q & m & Hg' & HQ & Hm & -> & _).
  split; [apply (cells_load 8 (m_half h) _ _ _ _ (c_half _ _ _ _ _ C) Ha)|].
  split; [by apply (token_at h d parts csrs v2pm G here Hh j g' Q)|]. split.
  - destruct (topology_of d parts csrs v2pm G G here Hh j Q m t HQ Hm) as (g2 & Hg2 & ->). by replace g2 with g' by congruence.
  - unfold getEdgeData. rewrite (cached_home d parts csrs v2pm G here Hh i g); [|done|apply (c_home _ _ _ _ _ C); lia]. cbn [bindo].
    unfold LocalCSR.getEdgeData. subst eh. destruct (local_edge _ _ _ _ _ C k l n Hl ltac:(lia) Lh) as [_ ->]. cbn [bindo].
    by apply (cells_read szE HE (m_edata h) _ _ _ _ (c_edata _ _ _ _ _ C)).
Qed.

Lemma dist_graph_answers h d parts csrs v2pm here : dgraph h d parts csrs v2pm -> (here < hosts)%nat ->
  forall i P k t x l, parts !! i = Some P -> p_tokens P !! k = Some t -> p_data P !! k = Some x -> p_out P !! k = Some l ->
  vertex_answers h d parts (Z.of_nat here) i k t x l.
Proof.
  intros G Hh i P k t x l HP Hk Hx Hl. pose proof (lookup_lt_Some _ _ _ Hl).
  destruct (topology_of d parts csrs v2pm G G here Hh i P k t HP Hk) as (g & Hg & Ht). exists (vptr g k). split; [done|].
  destruct (vertex_of h d parts csrs v2pm G here Hh i g P k Hg HP ltac:(lia)) as (half & C & Lh & F & Hm & Gc).
  split; [done|]. split; [by apply (token_at h d parts csrs v2pm G here Hh i g P)|].
  split. { unfold getVertexLocalIndex. rewrite Gc. cbn [bindo]. apply (local_index _ _ _ _ _ C). lia. }
  split; [apply (index_at h d parts csrs v2pm G here Hh i g P k Hg HP); lia|].
  split. { unfold getData. rewrite Gc. cbn [bindo]. by apply (local_data _ _ _ _ _ C). }
  assert (N : load_cell (m_vertex h) (ptr_add 8 (vptr g k) 1) = Done (eptr g (first_edge (p_out P) (S k)))).
  { rewrite (next_vptr _ _ _ _ _ C) by lia. apply (vertex_value _ _ _ _ _ C). lia. }
  assert (B : halfEdgeBegin (Z.of_nat here) h d (vptr g k) = Done (eptr g (first_edge (p_out P) k))).
  { unfold halfEdgeBegin. rewrite Gc. cbn [bindo]. apply (local_begin _ _ _ _ _ C). lia. }
  split. { unfold getNumEdges, halfEdgeEnd. rewrite N, B. cbn [bindo]. by rewrite (local_degree _ _ _ _ _ C k l Hl Lh). }
  split.
  - intros n t' y Hn. pose proof (lookup_lt_Some _ _ _ Hn).
    destruct (edge_at h d parts csrs v2pm here i g P k l n t' y G Hh Hg HP Hl Hn) as (a & Ha & Hta & Hat & Hy). exists a.
    unfold getEdgeDst_off, getEdgeData_off, mintEdgeHandle. rewrite B. cbn [bindo].
    destruct (local_edge _ _ _ _ _ C k l n Hl ltac:(lia) Lh) as [-> _]. done.
  - unfold edges. rewrite (vertex_value _ _ _ _ _ C) by lia. cbn [bindo]. rewrite N. cbn [bindo].
    rewrite (local_degree _ _ _ _ _ C k l Hl Lh). eexists _, _. split; [done|].
    pose proof (offset_bounds _ _ _ _ _ C). pose proof (first_edge_S _ _ _ Hl). pose proof (first_edge_le (p_out P) (S k)).
    split; [apply span_list_spec; lia|]. apply Forall2_same_length_lookup_2; [by rewrite length_map, length_seq|].
    intros n eh [t' y] Hn He. rewrite list_lookup_fmap in Hn. pose proof (lookup_lt_Some _ _ _ He). rewrite lookup_seq_lt in Hn by done.
    injection Hn as <-. destruct (edge_at h d parts csrs v2pm here i g P k l n t' y G Hh Hg HP Hl He) as (a & ? & _ & ? & ?). by exists a.
Qed.

(** *** Indices *)

(** [getTopologyIDFromIndex] stops one host early at the first vertex of a host: what it returns has the right index, but is the end mark of the
    host before. *)
Lemma find_index_spec h d parts csrs v2pm here : cgraph h d parts csrs v2pm -> (here < hosts)%nat ->
  forall j, (j <= hosts)%nat -> forall i g P k, (j <= i)%nat -> csrs !! i = Some g -> parts !! i = Some P -> (k <= length (p_out P))%nat ->
  (0 < k)%nat \/ i = j ->
  find_index (drop j csrs) (Z.of_nat (first_edge (tokens_of parts) i + k - first_edge (tokens_of parts) j)) = Done (vptr g k).
Proof.
  intros G Hh j Hj i g P k. pose proof (host_bound d parts csrs v2pm G) as HB.
  remember (i - j)%nat as n eqn:En. revert j Hj En. induction n as [|n IH]; intros j Hj En Hij Hg HP Hk Hd.
  - assert (i = j) as -> by lia. rewrite (drop_S _ _ _ Hg). cbn [find_index].
    destruct (vertex_of h d parts csrs v2pm G here Hh j g P k Hg HP Hk) as (half & C & _). rewrite (csr_size _ _ _ _ _ C).
    rewrite (proj2 (Z.ltb_ge _ _)) by lia. f_equal. unfold LocalCSR.getTopologyIDFromIndex.
    replace (first_edge (tokens_of parts) j + k - first_edge (tokens_of parts) j)%nat with k by lia.
    apply (at_addr 8 ltac:(lia) (m_vertex h) _ _ _ (c_vertex _ _ _ _ _ C)). rewrite length_map, length_seq. lia.
  - pose proof (HB here Hh i g Hg) as [Hi _]. destruct (g_len _ _ _ _ G) as [Lc Lp].
    destruct (lookup_lt_is_Some_2 csrs j ltac:(lia)) as [g0 Hg0], (lookup_lt_is_Some_2 parts j ltac:(lia)) as [P0 HP0].
    destruct (vertex_of h d parts csrs v2pm G here Hh j g0 P0 0 Hg0 HP0 ltac:(lia)) as (half & C & _).
    rewrite (drop_S _ _ _ Hg0). cbn [find_index]. rewrite (csr_size _ _ _ _ _ C).
    assert (F : first_edge (tokens_of parts) (S j) = (first_edge (tokens_of parts) j + length (p_out P0))%nat).
    { rewrite <- (proj2 (c_lengths _ _ _ _ _ C)). apply first_edge_S. unfold tokens_of. by rewrite list_lookup_fmap, HP0. }
    pose proof (first_edge_mono (tokens_of parts) (S j) i ltac:(lia)). pose proof (first_edge_le (tokens_of parts) i).
    destruct (g_size _ _ _ _ _ G) as [Sz Sb].
    destruct (vertex_of h d parts csrs v2pm G here Hh i g P k Hg HP Hk) as (half' & C' & _). pose proof (offset_bounds _ _ _ _ _ C').
    rewrite (proj2 (Z.ltb_lt _ _)) by lia. rewrite wrapU_id by (unfold inU; lia).
    replace (Z.of_nat (first_edge (tokens_of parts) i + k - first_edge (tokens_of parts) j) - Z.of_nat (length (p_out P0)))
      with (Z.of_nat (first_edge (tokens_of parts) i + k - first_edge (tokens_of parts) (S j))) by lia.
    apply IH; try done; try lia.
Qed.

(** Numbers and vertices: [getVertexIndex] inverts [getTopologyIDFromIndex] everywhere, but the number of the first vertex of a host after a
    host that has vertices leads to that host's end mark instead. *)
Theorem dist_indices h d parts csrs v2pm here : dgraph h d parts csrs v2pm -> (here < hosts)%nat -> let me := Z.of_nat here in
  (forall i P k t, parts !! i = Some P -> p_tokens P !! k = Some t -> (0 < k)%nat \/ i = 0%nat ->
     let n := Z.of_nat (first_edge (tokens_of parts) i + k) in
     exists v, getTopologyIDFromIndex me d n = Done v /\ getVertexIndex me d v = Done n /\ getTokenID me h d v = Done t) /\
  (forall i P Q t, parts !! i = Some P -> p_tokens P <> [] -> parts !! S i = Some Q -> p_tokens Q !! 0%nat = Some t ->
     let n := Z.of_nat (first_edge (tokens_of parts) (S i)) in
     exists v w, getTopologyIDFromIndex me d n = Done v /\ getVertexIndex me d v = Done n /\ getLocalityVertex v = Z.of_nat i /\
       getTopologyID hash me d t = Done w /\ getVertexIndex me d w = Done n /\ getLocalityVertex w = Z.of_nat (S i)).
Proof.
  intros G Hh me. assert (F : forall i g P k, csrs !! i = Some g -> parts !! i = Some P -> (k <= length (p_out P))%nat -> (0 < k)%nat \/ i = 0%nat ->
    getTopologyIDFromIndex me d (Z.of_nat (first_edge (tokens_of parts) i + k)) = Done (vptr g k)).
  { intros i g P k Hg HP Hk Hd. unfold getTopologyIDFromIndex. rewrite (g_cache _ _ _ _ G), (host_at_lookup _ here csrs) by (by apply lookup_replicate_2).
    cbn [bindo]. rewrite <- (drop_0 csrs). rewrite <- (find_index_spec h d parts csrs v2pm here G Hh 0 ltac:(lia) i g P k ltac:(lia) Hg HP Hk Hd).
    do 2 f_equal. change (first_edge (tokens_of parts) 0) with 0%nat. lia. }
  assert (L : forall i P, parts !! i = Some P -> exists g, csrs !! i = Some g /\ length (p_tokens P) = length (p_out P)).
  { intros i P HP. destruct (csr_of d parts csrs v2pm G here Hh i P HP) as [g Hg]. exists g. split; [done|].
    destruct (g_csr _ _ _ _ _ G i g P Hg HP) as (half & C & _). apply (c_lengths _ _ _ _ _ C). }
  split.
  - intros i P k t HP Hk Hd n. destruct (L i P HP) as (g & Hg & Len). pose proof (lookup_lt_Some _ _ _ Hk). exists (vptr g k). subst n.
    rewrite (F i g P k) by (done || lia). split; [done|]. split; [apply (index_at h d parts csrs v2pm G here Hh i g P k Hg HP); lia|].
    by apply (token_at h d parts csrs v2pm G here Hh i g P).
  - intros i P Q t HP Ne HQ Ht n. destruct (L i P HP) as (g & Hg & Len), (L (S i) Q HQ) as (g' & Hg' & Len').
    assert (0 < length (p_tokens P))%nat by (destruct (p_tokens P); [done|cbn; lia]).
    assert (Fe : first_edge (tokens_of parts) (S i) = (first_edge (tokens_of parts) i + length (p_out P))%nat).
    { rewrite <- Len. apply first_edge_S. unfold tokens_of. by rewrite list_lookup_fmap, HP. }
    destruct (topology_of d parts csrs v2pm G G here Hh (S i) Q 0 t HQ Ht) as (g2 & Hg2 & Hw). replace g2 with g' in * by congruence.
    exists (vptr g (length (p_out P))), (vptr g' 0). subst n. rewrite Fe at 1. rewrite (F i g P) by (done || lia). split; [done|].
    destruct (vertex_of h d parts csrs v2pm G here Hh i g P (length (p_out P)) Hg HP ltac:(lia)) as (_ & _ & _ & _ & Hm & _).
    destruct (vertex_of h d parts csrs v2pm G here Hh (S i) g' Q 0 Hg' HQ ltac:(lia)) as (_ & _ & _ & _ & Hm' & _).
    split; [rewrite Fe; by apply (index_at h d parts csrs v2pm G here Hh i g P)|]. split; [done|]. split; [done|]. split; [|done].
    subst me. rewrite (index_at h d parts csrs v2pm G here Hh (S i) g' Q 0 Hg' HQ) by lia. do 2 f_equal. lia.
Qed.

(** *** Visiting all vertices *)

(** The addresses the iterator passes: all vertices host by host, and the end mark of a host without vertices, unless it is the last one. *)
Fixpoint walk (csrs : list LCSR) (parts : list part) : list Z :=
  match csrs, parts with
  | g :: csrs, P :: parts =>
      let n := length (p_out P) in
      (vptr g <$> seq 0 (match parts with [] => n | _ => Nat.max 1 n end)) ++ walk csrs parts
  | _, _ => []
  end.

Lemma visit_step next fuel p p' e l : p <> e -> next p = Done p' -> visit next fuel p' e = Some (Done l) -> visit next (S fuel) p e = Some (Done (p :: l)).
Proof. intros N Hn Hv. cbn. unfold it_neqb, it_eqb, ptr_eqb. rewrite (proj2 (Z.eqb_neq p e)) by done. cbn. rewrite Hn. cbn. by rewrite Hv. Qed.

(** A run of [n] vertices from vertex [k] on. *)
Lemma visit_run next g e : forall n k fuel rest l, (forall j, (k <= j < k + n)%nat -> vptr g j <> e /\ next (vptr g j) = Done (if decide (j = k + n - 1)%nat then rest else vptr g (S j))) ->
  visit next fuel (if decide (n = 0)%nat then vptr g k else rest) e = Some (Done l) ->
  visit next (n + fuel) (vptr g k) e = Some (Done ((vptr g <$> seq k n) ++ l)).
Proof.
  induction n as [|n IH]; intros k fuel rest l H Hl; [by rewrite decide_True in Hl|]. cbn [Nat.add seq fmap list_fmap app].
  destruct (H k ltac:(lia)) as [Ne Hk]. eapply visit_step; [done|exact Hk|]. rewrite decide_False in Hl by done.
  destruct n as [|n]; [by rewrite decide_True by lia|]. rewrite decide_False by lia. apply (IH (S k) fuel rest); [|by rewrite decide_False].
  intros j Hj. destruct (H j ltac:(lia)) as [? ->]. split; [done|]. by replace (S k + S n - 1)%nat with (k + S (S n) - 1)%nat by lia.
Qed.

Lemma vptr_ltb h host g P half i j : csr_ok h host g P half -> (vptr g i <? vptr g j) = bool_decide (i < j)%nat.
Proof. intros C. unfold vptr, addr. case_bool_decide; [apply Z.ltb_lt|apply Z.ltb_ge]; lia. Qed.

Lemma home_ne p q (i j : nat) : home p = Z.of_nat i -> home q = Z.of_nat j -> i <> j -> p <> q.
Proof. intros Hp Hq N ->. rewrite Hp in Hq. lia. Qed.

Section Visit.
Context h d parts csrs v2pm (G : cgraph h d parts csrs v2pm) (here : nat) (Hhere : (here < hosts)%nat).
Local Abbreviation me := (Z.of_nat here).
Local Abbreviation next := (vertex_next (Z.of_nat hosts) me d).

(** One step of the iterator. *)
Lemma next_spec i g P k : csrs !! i = Some g -> parts !! i = Some P -> (k <= length (p_out P))%nat ->
  next (vptr g k) = if decide (S k < length (p_out P))%nat then Done (vptr g (S k))
    else match csrs !! S i with None => Done (vptr g (S k)) | Some g' => Done (vptr g' 0) end.
Proof.
  intros Hg HP Hk. destruct (vertex_of h d parts csrs v2pm G here Hhere i g P k Hg HP Hk) as (half & C & _ & _ & Hm & _).
  pose proof (host_bound d parts csrs v2pm G here Hhere i g Hg) as [Hi Hb]. destruct (g_hosts _ _ _ _ G) as [_ Hh].
  destruct (g_len _ _ _ _ G) as [Lc _]. unfold vertex_next. rewrite Hm. rewrite (wrapU_id 64 (Z.of_nat i)) by (unfold inU; lia).
  rewrite (next_vptr _ _ _ _ _ C) by done. rewrite (cached d parts csrs v2pm G here Hhere i g Hg). cbn [bindo].
  rewrite (offsets_end _ _ _ _ _ C), (vptr_ltb _ _ _ _ _ _ _ C). rewrite wrapS_id by (unfold inS; lia).
  case_decide as D; [by rewrite bool_decide_true|]. rewrite bool_decide_false by done. cbn [orb].
  destruct (csrs !! S i) as [g'|] eqn:L.
  - pose proof (lookup_lt_Some _ _ _ L). rewrite (proj2 (Z.eqb_neq _ _)) by lia. rewrite wrapU_id by (unfold inU; lia).
    replace (Z.of_nat i + 1) with (Z.of_nat (S i)) by lia. rewrite (cached d parts csrs v2pm G here Hhere (S i) g' L). cbn [bindo].
    f_equal. unfold vptr, begin. by rewrite addr_0.
  - apply lookup_ge_None in L. by rewrite (proj2 (Z.eqb_eq _ _)) by lia.
Qed.

Lemma visit_walk rest : forall j g P e fuel, drop j csrs = g :: rest -> parts !! j = Some P ->
  (forall g P, csrs !! (hosts - 1)%nat = Some g -> parts !! (hosts - 1)%nat = Some P -> e = vptr g (length (p_out P))) ->
  visit next (length (walk (g :: rest) (drop j parts)) + fuel) (vptr g 0) e = Some (Done (walk (g :: rest) (drop j parts))).
Proof.
  destruct (g_len _ _ _ _ G) as [Lc Lp].
  induction rest as [|g' rest IH]; intros j g P e fuel Hd HP He; pose proof (f_equal length Hd) as Ld; rewrite length_drop in Ld; cbn [length] in Ld;
    assert (Hg : csrs !! j = Some g) by (by rewrite <- (Nat.add_0_r j), <- lookup_drop, Hd); rewrite (drop_S _ _ _ HP); cbn [walk].
  - replace j with (hosts - 1)%nat in * by lia. rewrite (drop_ge parts) by lia. rewrite app_nil_r, length_fmap, length_seq.
    rewrite (He g P Hg HP). rewrite <- (app_nil_r (_ <$> _)). apply (visit_run _ _ _ _ _ _ (vptr g (length (p_out P)))).
    + intros k Hk. split; [unfold vptr; intros ?%addr_inj; lia|]. rewrite (next_spec (hosts - 1) g P k Hg HP) by lia.
      replace (csrs !! S (hosts - 1)) with (@None LCSR) by (symmetry; apply lookup_ge_None; lia).
      case_decide; case_decide; try lia; [done|]. do 2 f_equal. lia.
    + assert (forall p, visit next fuel p p = Some (Done [])) as Stop.
      { intros p. destruct fuel; cbn; unfold it_neqb, it_eqb, ptr_eqb; by rewrite Z.eqb_refl. }
      case_decide as Z0; [rewrite Z0|]; apply Stop.
  - destruct (lookup_lt_is_Some_2 parts (S j) ltac:(lia)) as [P' HP'].
    assert (Hd' : drop (S j) csrs = g' :: rest). { rewrite (drop_S _ _ _ Hg) in Hd. by injection Hd. }
    assert (Hg' : csrs !! S j = Some g') by (by rewrite <- (Nat.add_0_r (S j)), <- lookup_drop, Hd').
    specialize (IH (S j) g' P' e fuel Hd' HP' He).
    rewrite (drop_S _ _ _ HP') in *. rewrite length_app, length_fmap, length_seq, <- Nat.add_assoc.
    destruct (lookup_lt_is_Some_2 csrs (hosts - 1) ltac:(lia)) as [gl Hgl], (lookup_lt_is_Some_2 parts (hosts - 1) ltac:(lia)) as [Pl HPl].
    apply (visit_run _ _ _ _ _ _ (vptr g' 0)); [|by rewrite decide_False by lia].
    intros k Hk. assert (k <= length (p_out P))%nat by lia. split.
    + rewrite (He gl Pl Hgl HPl). apply (home_ne _ _ j (hosts - 1)); [| |lia].
      * by destruct (vertex_of h d parts csrs v2pm G here Hhere j g P k Hg HP ltac:(lia)) as (_ & _ & _ & _ & ? & _).
      * by destruct (vertex_of h d parts csrs v2pm G here Hhere (hosts - 1) gl Pl (length (p_out Pl)) Hgl HPl ltac:(lia)) as (_ & _ & _ & _ & ? & _).
    + rewrite (next_spec j g P k Hg HP) by lia. rewrite Hg'. case_decide; case_decide; try lia; done.
Qed.
End Visit.

(** C20: A loop over [vertices()] ends, and passes the addresses of [walk].  If all hosts but perhaps the last have vertices, these are the vertices
    of all tokens, in order. *)
Theorem dist_vertices h d parts csrs v2pm here : cgraph h d parts csrs v2pm -> (here < hosts)%nat ->
  exists r, vertices (Z.of_nat hosts) (Z.of_nat here) d = Done r /\ m_size r = Z.of_nat (length (concat (tokens_of parts))) /\
    visit (vertex_next (Z.of_nat hosts) (Z.of_nat here) d) (length (walk csrs parts)) (m_beg r) (m_end r) = Some (Done (walk csrs parts)) /\
    ((forall i P, parts !! i = Some P -> (S i < hosts)%nat -> p_tokens P <> []) ->
     Forall2 (fun v t => getTokenID (Z.of_nat here) h d v = Done t) (walk csrs parts) (concat (tokens_of parts))).
Proof.
  intros G Hh. destruct (g_len _ _ _ _ G) as [Lc Lp], (g_hosts _ _ _ _ G) as [H0 Hb].
  destruct (lookup_lt_is_Some_2 csrs 0 ltac:(lia)) as [g Hg], (lookup_lt_is_Some_2 parts 0 ltac:(lia)) as [P HP].
  destruct (lookup_lt_is_Some_2 csrs (hosts - 1) ltac:(lia)) as [gl Hgl], (lookup_lt_is_Some_2 parts (hosts - 1) ltac:(lia)) as [Pl HPl].
  destruct (g_csr _ _ _ _ _ G _ gl Pl Hgl HPl) as (half & C & _). destruct csrs as [|g0 rest]; [done|]. injection Hg as ->.
  unfold vertices. rewrite wrapU_id by (unfold inU; lia). replace (Z.of_nat hosts - 1) with (Z.of_nat (hosts - 1)) by lia.
  rewrite (cached d parts _ v2pm G here Hh 0 g eq_refl : getCSR _ d 0 = _), (cached d parts _ v2pm G here Hh _ gl Hgl). cbn [bindo].
  eexists. split; [done|]. cbn [m_size m_beg m_end]. split; [apply (g_size _ _ _ _ _ G)|]. split.
  - rewrite (offsets_end _ _ _ _ _ C). replace (begin (vertexEdgeOffsets g)) with (vptr g 0) by (unfold vptr; apply addr_0).
    rewrite <- (Nat.add_0_r (length (walk (g :: rest) parts))). apply (visit_walk h d parts (g :: rest) v2pm G here Hh rest 0 g P _ 0); [done|done|].
    intros g' P' Hg' HP'. by replace g' with gl by congruence; replace P' with Pl by congruence.
  - intros Ne. assert (W : forall j, (j <= hosts)%nat ->
      Forall2 (fun v t => getTokenID (Z.of_nat here) h d v = Done t) (walk (drop j (g :: rest)) (drop j parts)) (concat (tokens_of (drop j parts)))); [|apply (W 0%nat); lia].
    intros j Hj. remember (hosts - j)%nat as n eqn:En. revert j Hj En. induction n as [|n IH]; intros j Hj En.
    { rewrite !drop_ge by lia. constructor. }
    destruct (lookup_lt_is_Some_2 (g :: rest) j ltac:(lia)) as [gj Hgj], (lookup_lt_is_Some_2 parts j ltac:(lia)) as [Pj HPj].
    specialize (IH (S j) ltac:(lia) ltac:(lia)). specialize (Ne j Pj HPj). rewrite (drop_S _ _ _ Hgj), (drop_S _ _ _ HPj). cbn [walk].
    destruct (g_csr _ _ _ _ _ G _ gj Pj Hgj HPj) as (halfj & Cj & _). pose proof (proj2 (c_lengths _ _ _ _ _ Cj)) as Lj.
    replace (match drop (S j) parts with [] => _ | _ => _ end) with (length (p_out Pj)).
    2: { destruct (drop (S j) parts) eqn:D; [done|]. apply (f_equal length) in D. rewrite length_drop in D. cbn in D.
         specialize (Ne ltac:(lia)). destruct (p_tokens Pj); [done|]. cbn in Lj. lia. }
    unfold tokens_of. rewrite fmap_cons. cbn [concat]. apply Forall2_app; [|exact IH]. apply Forall2_same_length_lookup_2.
    + by rewrite length_fmap, length_seq.
    + intros k v t Hv Ht. pose proof (lookup_lt_Some _ _ _ Ht). rewrite list_lookup_fmap, lookup_seq_lt in Hv by lia. injection Hv as <-.
      by apply (token_at h d parts (g :: rest) v2pm G here Hh j gj Pj).
Qed.

(** *** Writing data *)

Definition with_data P i (x : V) : part := mkPart (p_tokens P) (<[i := x]> (p_data P)) (p_out P).

Lemma csr_apart_sym g g' : csr_apart g g' -> csr_apart g' g.
Proof. intros [A1 A2 A3 A4 A5]. split; unfold apart in *; tauto. Qed.

Lemma tokens_of_insert parts i P Q : parts !! i = Some P -> p_tokens Q = p_tokens P -> tokens_of (<[i := Q]> parts) = tokens_of parts.
Proof.
  intros HP E'. unfold tokens_of. rewrite list_fmap_insert, E'. apply list_insert_id. by rewrite list_lookup_fmap, HP.
Qed.

(** A part whose vertices and edges stay as they are may change its data. *)
Lemma insert_tokens (parts : list part) i P Q j R : parts !! i = Some P -> p_tokens Q = p_tokens P -> <[i := Q]> parts !! j = Some R ->
  exists R', parts !! j = Some R' /\ p_tokens R = p_tokens R'.
Proof.
  intros HP E' HR. destruct (decide (i = j)) as [<-|N].
  - rewrite list_lookup_insert_eq in HR by (by eapply lookup_lt_Some). injection HR as <-. by exists P.
  - rewrite list_lookup_insert_ne in HR by done. by exists R.
Qed.
Lemma tokens_insert (parts : list part) i P Q j R : parts !! i = Some P -> p_tokens Q = p_tokens P -> parts !! j = Some R ->
  exists R', <[i := Q]> parts !! j = Some R' /\ p_tokens R' = p_tokens R.
Proof.
  intros HP E' HR. destruct (decide (i = j)) as [<-|N].
  - exists Q. rewrite list_lookup_insert_eq by (by eapply lookup_lt_Some). split; [done|]. congruence.
  - exists R. by rewrite list_lookup_insert_ne.
Qed.
Lemma points_insert b csrs parts i P Q a t : parts !! i = Some P -> p_tokens Q = p_tokens P -> points b csrs parts a t -> points b csrs (<[i := Q]> parts) a t.
Proof.
  intros HP E' (j & g & R & k & Hg & HR & Hk & -> & L). destruct (tokens_insert parts i P Q j R HP E' HR) as (R' & HR' & Et).
  exists j, g, R', k. rewrite Et. split_and!; try done. intros R1 H1 H2. destruct (insert_tokens parts i P Q b R1 HP E' H1) as (R2 & H3 & H4).
  apply (L R2 H3). by rewrite <- H4.
Qed.

Lemma unique_insert (parts : list part) v2pm i P Q : parts !! i = Some P -> p_tokens Q = p_tokens P -> unique parts v2pm -> unique (<[i := Q]> parts) v2pm.
Proof.
  intros HP E' [N O]. split; [by rewrite (tokens_of_insert parts i P Q)|]. intros j R t HR Ht.
  destruct (insert_tokens parts i P Q j R HP E' HR) as (R' & HR' & Et). apply (O j R' t HR'). by rewrite <- Et.
Qed.

(** Writing the data of a vertex, from any host, changes that and nothing else. *)
Lemma set_data_at h d parts csrs v2pm here i g P k x : cgraph h d parts csrs v2pm -> (here < hosts)%nat -> csrs !! i = Some g -> parts !! i = Some P ->
  (k < length (p_out P))%nat ->
  exists h', setData szV (Z.of_nat here) h d (vptr g k) x = Done h' /\ cgraph h' d (<[i := with_data P k x]> parts) csrs v2pm.
Proof.
  intros G Hh Hg HP Hk. pose proof (lookup_lt_Some _ _ _ HP).
  destruct (vertex_of h d parts csrs v2pm G here Hh i g P k Hg HP ltac:(lia)) as (half & C & Lh & F & _ & Gc). destruct (c_lengths _ _ _ _ _ C) as [L1 L2].
  unfold setData. rewrite Gc. cbn [bindo]. unfold LocalCSR.setData. fold (LocalCSR.getVertexIndex g (vptr g k)).
  rewrite (local_index _ _ _ _ _ C) by lia. cbn [bindo].
  destruct (cells_write szV HV (m_vdata h) (vertexData g) (p_data P) k x (c_vdata _ _ _ _ _ C)) as (m & -> & Hm & Fm); [lia|]. cbn [bindo].
  eexists. split; [done|]. destruct G as [[G1 G2 G3 G4 G5 G7] G8 G6 G9].
  constructor; [constructor|..]; rewrite ?length_insert; try done.
  - intros j gj Q Hgj HQ. destruct (insert_tokens parts i P (with_data P k x) j Q HP eq_refl HQ) as (Q' & HQ' & ->). by apply (G5 j).
  - intros j Q t HQ Ht. destruct (insert_tokens parts i P (with_data P k x) j Q HP eq_refl HQ) as (Q' & HQ' & Et). rewrite Et in Ht.
    destruct (G7 j Q' t HQ' Ht) as (j' & R & Ho & HR & Ht'). destruct (tokens_insert parts i P (with_data P k x) j' R HP eq_refl HR) as (R' & HR' & Et').
    exists j', R'. by rewrite Et'.
  - intros j gj Q Hgj HQ. destruct (decide (i = j)) as [<-|N].
    + rewrite list_lookup_insert_eq in HQ by done. injection HQ as <-. replace gj with g in * by congruence. exists half. split.
      * destruct C as [C1 C2 C3 C4 C5 C7 C8]. constructor; try done. cbn. by rewrite length_insert.
      * eapply Forall2_impl; [exact F|]. intros a t'. by apply (points_insert _ _ _ _ P).
    + rewrite list_lookup_insert_ne in HQ by done. destruct (G8 j gj Q Hgj HQ) as (halfj & [C1 C2 C3 C4 C5 C7 C8] & Fj). exists halfj. split.
      * constructor; try done. apply Fm; [|done]. apply (G6 i j g gj N Hg Hgj).
      * eapply Forall2_impl; [exact Fj|]. intros a t'. by apply (points_insert _ _ _ _ P).
  - by rewrite (tokens_of_insert parts i P).
Qed.

Lemma get_data_at h d parts csrs v2pm here i g P k x : cgraph h d parts csrs v2pm -> (here < hosts)%nat -> csrs !! i = Some g -> parts !! i = Some P ->
  p_data P !! k = Some x -> getData szV (Z.of_nat here) h d (vptr g k) = Done x.
Proof.
  intros G Hh Hg HP Hx. pose proof (lookup_lt_Some _ _ _ Hx). destruct (g_csr _ _ _ _ _ G i g P Hg HP) as (half0 & C0 & _).
  pose proof (proj1 (c_lengths _ _ _ _ _ C0)). destruct (vertex_of h d parts csrs v2pm G here Hh i g P k Hg HP ltac:(lia)) as (half & C & _ & _ & _ & Gc).
  unfold getData. rewrite Gc. cbn [bindo]. by apply (local_data _ _ _ _ _ C).
Qed.

Theorem dist_set_data h d parts csrs v2pm here i P k t x : dgraph h d parts csrs v2pm -> (here < hosts)%nat ->
  parts !! i = Some P -> p_tokens P !! k = Some t ->
  exists v h', getTopologyID hash (Z.of_nat here) d t = Done v /\ setData szV (Z.of_nat here) h d v x = Done h' /\
    dgraph h' d (<[i := with_data P k x]> parts) csrs v2pm.
Proof.
  intros G Hh HP Hk. pose proof (lookup_lt_Some _ _ _ Hk).
  destruct (topology_of d parts csrs v2pm G G here Hh i P k t HP Hk) as (g & Hg & Ht). exists (vptr g k).
  destruct (g_csr _ _ _ _ _ G i g P Hg HP) as (half0 & C0 & _). destruct (c_lengths _ _ _ _ _ C0) as [L1 L2].
  destruct (set_data_at h d parts csrs v2pm here i g P k x G Hh Hg HP ltac:(lia)) as (h' & W & G'). exists h'. split; [done|]. split; [done|].
  split; [done|]. apply (unique_insert parts v2pm i P); [done|done|apply G].
Qed.
End Graph.
End DistLocalCSR.
