(* ===== verification/GatherCSR.v ===== *)
(** * Building the distributed graph from gathered vertices and edges

    [DistLocalCSR::initializeAfterGather] of [pando-lib-galois/graphs/dist_local_csr.hpp]: each host makes its [LCSR] from the vertices it was
    given, the hosts copy each other's, and each host then fills in its edges, looking up the vertices of their destinations.  The tasks of a
    phase run in any order. *)

From S2P Require Import Prelude Addressing GlobalPtr Cells HashTable Adjacency LocalCSR NativeMemory DistLocalCSR.
Import Cells LocalCSR DistLocalCSR.

Module GatherCSR.

Section Gather.
Context {V E RV RE : Type} (szV szE : Z).
Context (garbage : Z -> Z) (garbageV : Z -> V) (garbageE : Z -> E) (hash : Z -> Z) (ok : Z -> bool).
Local Abbreviation Heap := (@Heap V E).
Context (answer : Z -> Heap -> Z -> Z + Status).
(** [pando::getPlaceDims().node.id] *)
Context (hosts : nat).
(** The vertices and edges that were read: the token of a vertex, [VertexData] of it, the token of the destination of an edge, [EdgeData] of it. *)
Context (id : RV -> Z) (VertexData : RV -> V) (dst : RE -> Z) (EdgeData : RE -> E).
(** What the memory resources answer to [arrayOfCSRs.initialize()], to [wg.initialize()], and on each host to that of its map of [LCSR]s, and
    what that map holds before it is written. *)
Context (storage group : Status) (row_ok : nat -> bool) (row_garbage : nat -> list LCSR).

Definition PANDO_CHECK (s : Status) : outcome unit := guard_or (bool_decide (s = Success)) (Aborted "PANDO_CHECK").

(** src/include/pando-lib-galois/graphs/dist_local_csr.hpp:585-590 [createCSRFuncs]: the loop over the vertices of the host *)
Fixpoint create_loop (data : list RV) (j : Z) (h : Heap) (g : LCSR) : outcome (Heap * LCSR) :=
  match data with
  | [] => Done (h, g)
  | v :: data =>
      let! m := write 8 (m_token h) (topologyToToken g) j (id v) in
      let h := with_token h m in
      let! m := write szV (m_vdata h) (vertexData g) j (VertexData v) in
      let h := with_vdata h m in
      match HashTable.put 0 nullptr hash (table_fuel (tokenToTopology g)) ok (tokenToTopology g) (id v) (at_ 8 (vertexEdgeOffsets g) j) with
      | None => Failed (Undefined "loop without end")
      | Some (err, t) =>
          let! _ := PANDO_CHECK err in
          create_loop data (u64 (j + 1)) h (set_tokenToTopology g t)
      end
  end.
(** src/include/pando-lib-galois/graphs/dist_local_csr.hpp:571-593 [createCSRFuncs], on host [i] *)
Definition createCSR (vertexData : list (list RV)) (numEdges : list Z) (i : nat) (st : Heap * list (list LCSR)) : outcome (Heap * list (list LCSR)) :=
  let (h, arrayOfCSRs) := st in
  let! _ := guard_or (row_ok i) (Aborted "PANDO_CHECK") in
  let arrayOfCSRs := <[i := row_garbage i]> arrayOfCSRs in
  let! vertexDataVec := host_at vertexData (Z.of_nat i) in
  let! ne := host_at numEdges (Z.of_nat i) in
  let nv := Z.of_nat (length vertexDataVec) in
  let! (err, h, currentCSR) := initializeTopologyMemory garbage ok answer (Z.of_nat i) h LCSR0 nv ne in
  let! _ := PANDO_CHECK err in
  let '(err, h, currentCSR) := initializeDataMemory szV szE garbageV garbageE answer (Z.of_nat i) h currentCSR nv ne in
  let! _ := PANDO_CHECK err in
  let! (h, currentCSR) := create_loop vertexDataVec 0 h currentCSR in
  let! row := host_at arrayOfCSRs (Z.of_nat i) in
  Done (h, <[i := <[i := currentCSR]> row]> arrayOfCSRs).

(** src/include/pando-lib-galois/graphs/dist_local_csr.hpp:629-636 [fillCSRFuncs]: the loop over the edges of a vertex *)
Fixpoint fill_edges (i : nat) (dlcsr : Dist) (currentCSR : LCSR) (edges : list RE) (edgeCurr : Z) (h : Heap) : outcome (Z * Heap) :=
  match edges with
  | [] => Done (edgeCurr, h)
  | eData :: edges =>
      let! e_dst := getTopologyID hash (Z.of_nat i) dlcsr (dst eData) in
      let! m := write 8 (m_half h) (edgeDestinations currentCSR) edgeCurr e_dst in
      let h := with_half h m in
      let eh := at_ 8 (edgeDestinations currentCSR) edgeCurr in
      let! h := LocalCSR.setEdgeData szE h currentCSR eh (EdgeData eData) in
      fill_edges i dlcsr currentCSR edges (u64 (edgeCurr + 1)) h
  end.
(** src/include/pando-lib-galois/graphs/dist_local_csr.hpp:620-640 [fillCSRFuncs]: the loop over the vertices, of which [n] are left *)
Fixpoint fill_vertices (i : nat) (dlcsr : Dist) (currentCSR : LCSR) (currEdgeData : list (list RE)) (currEdgeMap : @HashTable.table Z Z)
    (n : nat) (vertexCurr edgeCurr : Z) (h : Heap) : outcome Heap :=
  match n with
  | O => Done h
  | S n =>
      let! vertexTokenID := LocalCSR.getTokenID h currentCSR (at_ 8 (vertexEdgeOffsets currentCSR) vertexCurr) in
      match HashTable.get 0 0 hash (table_fuel currEdgeMap) currEdgeMap vertexTokenID with
      | None => Failed (Undefined "loop without end")
      | Some found =>
          let! (edgeCurr, h) := match found with
            | None => Done (edgeCurr, h)
            | Some edgeMapID => let! edges := host_at currEdgeData edgeMapID in fill_edges i dlcsr currentCSR edges edgeCurr h
            end in
          let! m := write 8 (m_vertex h) (vertexEdgeOffsets currentCSR) (u64 (vertexCurr + 1)) (at_ 8 (edgeDestinations currentCSR) edgeCurr) in
          fill_vertices i dlcsr currentCSR currEdgeData currEdgeMap n (u64 (vertexCurr + 1)) edgeCurr (with_vertex h m)
      end
  end.
(** src/include/pando-lib-galois/graphs/dist_local_csr.hpp:608-643 [fillCSRFuncs], on host [i] *)
Definition fillCSR (vertexData : list (list RV)) (edgeData : list (list (list RE))) (edgeMap : list (@HashTable.table Z Z)) (i : nat)
    (st : Heap * Dist) : outcome (Heap * Dist) :=
  let (h, dlcsr) := st in
  let! row := host_at (arrayOfCSRs dlcsr) (Z.of_nat i) in
  let! currentCSR := host_at row (Z.of_nat i) in
  let! currEdgeData := host_at edgeData (Z.of_nat i) in
  let! vertices := host_at vertexData (Z.of_nat i) in
  let! currEdgeMap := host_at edgeMap (Z.of_nat i) in
  let! m := write 8 (m_vertex h) (vertexEdgeOffsets currentCSR) 0 (begin (edgeDestinations currentCSR)) in
  let! h := fill_vertices i dlcsr currentCSR currEdgeData currEdgeMap (length vertices) 0 0 (with_vertex h m) in
  Done (h, mkDist (<[i := <[i := currentCSR]> row]> (arrayOfCSRs dlcsr)) (numVertices dlcsr) (numEdges dlcsr) (virtualToPhysicalMap dlcsr)).

(** The tasks of a phase, in the order they run. *)
Fixpoint each {S} (task : nat -> S -> outcome S) (order : list nat) (st : S) : outcome S :=
  match order with [] => Done st | i :: order => let! st := task i st in each task order st end.

(** src/include/pando-lib-galois/graphs/dist_local_csr.hpp:555-655 [initializeAfterGather]; the last three arguments are the orders in which
    the tasks of its phases run *)
Definition initializeAfterGather (h : Heap) (d : Dist) (vertexData : list (list RV)) (numVertices : Z) (edgeData : list (list (list RE)))
    (edgeMap : list (@HashTable.table Z Z)) (numEdges : list Z) (virtualToPhysical : list (list Z)) (creates caches fills : list nat)
    : outcome (Status * Heap * Dist) :=
  let d := mkDist (arrayOfCSRs d) numVertices (DistLocalCSR.numEdges d) virtualToPhysical in
  if negb (bool_decide (storage = Success)) then Done (storage, h, d) else
  if negb (bool_decide (group = Success)) then Done (group, h, d) else
  let! (h, rows) := each (createCSR vertexData numEdges) creates (h, replicate hosts []) in
  let total := fold_left (fun n k => u64 (n + k)) numEdges (DistLocalCSR.numEdges d) in
  let! rows := generateCache (Z.of_nat hosts) caches rows in
  let d := mkDist rows numVertices total virtualToPhysical in
  let! (h, d) := each (fillCSR vertexData edgeData edgeMap) fills (h, d) in
  Done (Success, h, d).

End Gather.

(** ** Memory *)

Section Memory.
Context {V E : Type} (szV szE : Z) (HV : 0 < szV) (HE : 0 < szE).
Local Abbreviation Heap := (@Heap V E).
Implicit Types (h : Heap) (g : LCSR).

(** Every array of [h] is one of [h'], with the same elements. *)
Record keeps h h' : Prop := mkKeeps {
  keep_vertex : forall b k, holds 8 (m_vertex h) b k -> holds 8 (m_vertex h') b k;
  keep_half : forall b k, holds 8 (m_half h) b k -> holds 8 (m_half h') b k;
  keep_vdata : forall b k, holds szV (m_vdata h) b k -> holds szV (m_vdata h') b k;
  keep_edata : forall b k, holds szE (m_edata h) b k -> holds szE (m_edata h') b k;
  keep_token : forall b k, holds 8 (m_token h) b k -> holds 8 (m_token h') b k }.

(** The arrays apart from those of [g] are kept. *)
Record keeps_apart g h h' : Prop := mkKeepsApart {
  ka_vertex : forall b k, apart 8 (vertexEdgeOffsets g) b -> holds 8 (m_vertex h) b k -> holds 8 (m_vertex h') b k;
  ka_half : forall b k, apart 8 (edgeDestinations g) b -> holds 8 (m_half h) b k -> holds 8 (m_half h') b k;
  ka_vdata : forall b k, apart szV (vertexData g) b -> holds szV (m_vdata h) b k -> holds szV (m_vdata h') b k;
  ka_edata : forall b k, apart szE (edgeData g) b -> holds szE (m_edata h) b k -> holds szE (m_edata h') b k;
  ka_token : forall b k, apart 8 (topologyToToken g) b -> holds 8 (m_token h) b k -> holds 8 (m_token h') b k }.

#[export] Instance keeps_apart_refl g : Reflexive (keeps_apart g).
Proof. intros h. by constructor. Qed.
#[export] Instance keeps_apart_trans g : Transitive (keeps_apart g).
Proof. intros h1 h2 h3 [A1 A2 A3 A4 A5] [B1 B2 B3 B4 B5]. constructor; eauto. Qed.

(** The arrays of [g] are apart from all arrays of [h]. *)
Record new_in h g : Prop := mkNew {
  n_vertex : forall b k, holds 8 (m_vertex h) b k -> apart 8 b (vertexEdgeOffsets g);
  n_half : forall b k, holds 8 (m_half h) b k -> apart 8 b (edgeDestinations g);
  n_vdata : forall b k, holds szV (m_vdata h) b k -> apart szV b (vertexData g);
  n_edata : forall b k, holds szE (m_edata h) b k -> apart szE b (edgeData g);
  n_token : forall b k, holds 8 (m_token h) b k -> apart 8 b (topologyToToken g) }.

Lemma apart_sym sz a b : apart sz a b -> apart sz b a.
Proof. unfold apart. tauto. Qed.

(** Writing to new arrays leaves everything as it was. *)
Lemma new_keeps h h1 h2 g : keeps h h1 -> new_in h g -> keeps_apart g h1 h2 -> keeps h h2.
Proof.
  intros [A1 A2 A3 A4 A5] [N1 N2 N3 N4 N5] [B1 B2 B3 B4 B5]. constructor; intros b k H;
    [apply B1|apply B2|apply B3|apply B4|apply B5]; eauto using apart_sym.
Qed.

(** The vertices are there; what the edges are is not known yet. *)
Record created h g (ids : list Z) (data : list V) (ne : nat) : Prop := mkCreated {
  k_vertex : exists l, length l = S (length ids) /\ holds 8 (m_vertex h) (vertexEdgeOffsets g) l;
  k_half : exists l, length l = ne /\ holds 8 (m_half h) (edgeDestinations g) l;
  k_vdata : holds szV (m_vdata h) (vertexData g) data;
  k_edata : exists l, length l = ne /\ holds szE (m_edata h) (edgeData g) l;
  k_token : holds 8 (m_token h) (topologyToToken g) ids }.

Lemma created_keeps h h' g ids data ne : keeps h h' -> created h g ids data ne -> created h' g ids data ne.
Proof. intros [A1 A2 A3 A4 A5] [(l1 & L1 & H1) (l2 & L2 & H2) H3 (l4 & L4 & H4) H5]. constructor; eauto. Qed.
Lemma created_apart h h' g g' ids data ne : keeps_apart g h h' -> csr_apart szV szE g g' -> created h g' ids data ne -> created h' g' ids data ne.
Proof. intros [A1 A2 A3 A4 A5] [] [(l1 & L1 & H1) (l2 & L2 & H2) H3 (l4 & L4 & H4) H5]. constructor; eauto. Qed.
Lemma csr_ok_apart h h' host g g' P half : keeps_apart g h h' -> csr_apart szV szE g g' -> csr_ok szV szE h host g' P half -> csr_ok szV szE h' host g' P half.
Proof. intros [A1 A2 A3 A4 A5] [] []. constructor; eauto. Qed.
Lemma created_new h g g' ids data ne : new_in h g -> created h g' ids data ne -> csr_apart szV szE g' g.
Proof. intros [] [(l1 & L1 & H1) (l2 & L2 & H2) H3 (l4 & L4 & H4) H5]. constructor; eauto. Qed.

(** Writing one element. *)
Lemma write_half h g l k v : holds 8 (m_half h) (edgeDestinations g) l -> (k < length l)%nat ->
  exists m, write 8 (m_half h) (edgeDestinations g) (Z.of_nat k) v = Done m /\ holds 8 m (edgeDestinations g) (<[k := v]> l) /\
    keeps_apart g h (with_half h m).
Proof. intros H Hk. destruct (cells_write 8 ltac:(lia) (m_half h) _ l k v H Hk) as (m & W & Hm & F). exists m. split; [done|]. split; [done|]. by constructor. Qed.
Lemma write_vertex h g l k v : holds 8 (m_vertex h) (vertexEdgeOffsets g) l -> (k < length l)%nat ->
  exists m, write 8 (m_vertex h) (vertexEdgeOffsets g) (Z.of_nat k) v = Done m /\ holds 8 m (vertexEdgeOffsets g) (<[k := v]> l) /\
    keeps_apart g h (with_vertex h m).
Proof. intros H Hk. destruct (cells_write 8 ltac:(lia) (m_vertex h) _ l k v H Hk) as (m & W & Hm & F). exists m. split; [done|]. split; [done|]. by constructor. Qed.
Lemma write_token h g l k v : holds 8 (m_token h) (topologyToToken g) l -> (k < length l)%nat ->
  exists m, write 8 (m_token h) (topologyToToken g) (Z.of_nat k) v = Done m /\ holds 8 m (topologyToToken g) (<[k := v]> l) /\
    keeps_apart g h (with_token h m).
Proof. intros H Hk. destruct (cells_write 8 ltac:(lia) (m_token h) _ l k v H Hk) as (m & W & Hm & F). exists m. split; [done|]. split; [done|]. by constructor. Qed.
Lemma write_vdata h g l k v : holds szV (m_vdata h) (LocalCSR.vertexData g) l -> (k < length l)%nat ->
  exists m, write szV (m_vdata h) (LocalCSR.vertexData g) (Z.of_nat k) v = Done m /\ holds szV m (LocalCSR.vertexData g) (<[k := v]> l) /\
    keeps_apart g h (with_vdata h m).
Proof. intros H Hk. destruct (cells_write szV HV (m_vdata h) _ l k v H Hk) as (m & W & Hm & F). exists m. split; [done|]. split; [done|]. by constructor. Qed.
Lemma write_edata h g l k v : holds szE (m_edata h) (LocalCSR.edgeData g) l -> (k < length l)%nat ->
  exists m, write szE (m_edata h) (LocalCSR.edgeData g) (Z.of_nat k) v = Done m /\ holds szE m (LocalCSR.edgeData g) (<[k := v]> l) /\
    keeps_apart g h (with_edata h m).
Proof. intros H Hk. destruct (cells_write szE HE (m_edata h) _ l k v H Hk) as (m & W & Hm & F). exists m. split; [done|]. split; [done|]. by constructor. Qed.
End Memory.

(** ** The vertices *)

Section Create.
Context {V E RV : Type} (szV szE : Z) (HV : 0 < szV) (HE : 0 < szE).
Context (garbage : Z -> Z) (garbageV : Z -> V) (garbageE : Z -> E) (hash : Z -> Z) (ok : Z -> bool) (Hok : HashTable.bounded ok).
Local Abbreviation Heap := (@Heap V E).
Context (answer : Z -> Heap -> Z -> Z + Status) (hosts : nat) (id : RV -> Z) (VertexData : RV -> V).
Context (row_ok : nat -> bool) (row_garbage : nat -> list LCSR).
Implicit Types (h : Heap) (g : LCSR).

(** A table of at most [n] tokens had to grow and was refused. *)
Definition table_refused (n : nat) : Prop :=
  exists M : gmap Z Z, (base.size M <= n)%nat /\ HashTable.grow_refused 0 nullptr hash ok (HashTable.to_float HashTable.lit_0_8) M.
(** Host [i] has refused a request for its map of [LCSR]s, or for a graph of this size. *)
Definition host_refused (i nv ne : nat) : Prop :=
  row_ok i = false \/ refused szV szE ok answer (Z.of_nat i) (Z.of_nat nv) (Z.of_nat ne) \/ table_refused nv.
Definition out_of_memory (vds : list (list RV)) (nes : list nat) : Prop :=
  exists i vd ne, vds !! i = Some vd /\ nes !! i = Some ne /\ host_refused i (length vd) ne.

(** The memory of a node is at addresses of that node. *)
Definition local_memory : Prop := forall (i : nat) h bytes p, (i < hosts)%nat -> answer (Z.of_nat i) h bytes = inl p ->
  forall q, p <= q < p + bytes -> home q = Z.of_nat i.

Lemma finds_size g p (M : gmap Z Z) : (forall t a, M !! t = Some a <-> exists k, p !! k = Some t /\ a = vptr g k) -> (base.size M <= length p)%nat.
Proof.
  intros HM. rewrite <- (size_dom (D := gset Z)). transitivity (base.size (list_to_set p : gset Z)).
  - apply subseteq_size. intros t [a (k & Hk & _)%HM]%elem_of_dom. apply elem_of_list_to_set. by eapply list_elem_of_lookup_2.
  - clear. induction p as [|t p IH]; [done|]. cbn [list_to_set length]. rewrite size_union_alt, size_singleton.
    pose proof (subseteq_size (list_to_set p ∖ {[t]} : gset Z) (list_to_set p) ltac:(set_solver)). lia.
Qed.

Lemma finds_put g p t a : finds hash g p -> t ∉ p -> HashTable.maxLoadFactor (tokenToTopology g) = HashTable.to_float HashTable.lit_0_8 -> a = vptr g (length p) ->
  exists s tb, HashTable.put 0 nullptr hash (table_fuel (tokenToTopology g)) ok (tokenToTopology g) t a = Some (s, tb) /\
    HashTable.maxLoadFactor tb = HashTable.maxLoadFactor (tokenToTopology g) /\
    (s = Success /\ finds hash (set_tokenToTopology g tb) (p ++ [t]) \/ s <> Success /\ table_refused (length p)).
Proof.
  intros (M & R & HM) Ht Hl ->. pose proof HashTable.default_roomy as Hr. rewrite <- Hl in Hr.
  destruct (HashTable.put_correct 0 nullptr hash ok Hok _ M t (vptr g (length p)) (table_fuel (tokenToTopology g)) R Hr) as (s & tb & E1 & E2 & D);
    [unfold HashTable.enough, table_fuel; lia|]. exists s, tb. split; [done|]. split; [done|].
  destruct D as [[-> R']|(-> & -> & N)]; [left|right; split; [done|]].
  2: { exists M. split; [by eapply finds_size|]. by exists (tokenToTopology g). }
  split; [done|].
  exists (<[t := vptr g (length p)]> M). split; [done|]. intros t' a. change (vptr (set_tokenToTopology g tb)) with (vptr g).
  destruct (decide (t' = t)) as [->|N].
  - rewrite lookup_insert_eq. split.
    + intros [= <-]. exists (length p). split; [|done]. by rewrite lookup_app_r, Nat.sub_diag by lia.
    + intros (k & Hk & ->). apply lookup_app_Some in Hk as [Hk|[Hk1 Hk2]]; [by apply list_elem_of_lookup_2 in Hk|].
      apply list_lookup_singleton_Some in Hk2 as [Hk2 _]. do 2 f_equal. lia.
  - rewrite lookup_insert_ne by done. rewrite HM. split; intros (k & Hk & ->); exists k; (split; [|done]).
    + by apply lookup_app_l_Some.
    + apply lookup_app_Some in Hk as [Hk|[_ Hk]]; [done|]. by apply list_lookup_singleton_Some in Hk as [_ <-].
Qed.

Lemma create_loop_spec (all data : list RV) : forall p h g vl tl dl, all = p ++ data -> NoDup (id <$> all) ->
  holds 8 (m_vertex h) (vertexEdgeOffsets g) vl -> length vl = S (length all) ->
  holds 8 (m_token h) (topologyToToken g) tl -> length tl = length all -> take (length p) tl = id <$> p ->
  holds szV (m_vdata h) (vertexData g) dl -> length dl = length all -> take (length p) dl = VertexData <$> p ->
  finds hash g (id <$> p) -> HashTable.maxLoadFactor (tokenToTopology g) = HashTable.to_float HashTable.lit_0_8 ->
  create_loop szV hash ok id VertexData data (Z.of_nat (length p)) h g = Failed (Aborted "PANDO_CHECK") /\ table_refused (length all) \/
  exists h' tb, create_loop szV hash ok id VertexData data (Z.of_nat (length p)) h g = Done (h', set_tokenToTopology g tb) /\
    holds 8 (m_token h') (topologyToToken g) (id <$> all) /\ holds szV (m_vdata h') (vertexData g) (VertexData <$> all) /\
    m_vertex h' = m_vertex h /\ m_half h' = m_half h /\ m_edata h' = m_edata h /\
    finds hash (set_tokenToTopology g tb) (id <$> all) /\ keeps_apart szV szE g h h'.
Proof.
  induction data as [|v data IH]; intros p h g vl tl dl Ea N Hvl Lv Ht Lt Tt Hd Ld Td F R; cbn [create_loop].
  - rewrite app_nil_r in Ea. subst p. right. rewrite take_ge in Tt by lia. rewrite take_ge in Td by lia. subst tl dl. exists h, (tokenToTopology g).
    split; [by destruct g|]. split_and!; try done.
  - assert (Lp : (length p < length all)%nat) by (rewrite Ea, length_app; cbn; lia).
    destruct (write_token szV szE h g tl (length p) (id v) Ht) as (m1 & -> & Hm1 & K1); [lia|]. cbn [bindo].
    destruct (write_vdata szV szE HV (with_token h m1) g dl (length p) (VertexData v) Hd) as (m2 & -> & Hm2 & K2); [lia|]. cbn [bindo].
    rewrite Ea, fmap_app in N. pose proof (proj1 (NoDup_app _ _) N) as (_ & Nd & _).
    assert (Nv : id v ∉ id <$> p). { intros H. apply (Nd _ H). rewrite fmap_cons. by left. }
    destruct (finds_put g (id <$> p) (id v) (at_ 8 (vertexEdgeOffsets g) (Z.of_nat (length p))) F Nv R) as (s & tb & -> & El & D).
    { rewrite length_fmap. apply (at_addr 8 ltac:(lia) (m_vertex h) _ vl); [done|lia]. }
    destruct D as [[-> F']|[Ns O]].
    + cbn [PANDO_CHECK]. unfold PANDO_CHECK. rewrite bool_decide_true by done. cbn [guard_or bindo].
      pose proof (h_high _ _ _ _ Hvl). pose proof (h_low _ _ _ _ Hvl). rewrite wrapU_id by (unfold inU; lia).
      replace (Z.of_nat (length p) + 1) with (Z.of_nat (length (p ++ [v]))) by (rewrite length_app; cbn; lia).
      destruct (IH (p ++ [v]) (with_vdata (with_token h m1) m2) (set_tokenToTopology g tb) vl (<[length p := id v]> tl) (<[length p := VertexData v]> dl))
        as [[-> O]|(h' & tb' & -> & H1 & H2 & H3 & H4 & H5 & H6 & H7)]; rewrite ?length_insert; try done.
      * by rewrite <- app_assoc.
      * by rewrite Ea, fmap_app.
      * rewrite length_app, Nat.add_1_r. rewrite take_insert_snoc by lia. by rewrite Tt, fmap_app.
      * rewrite length_app, Nat.add_1_r. rewrite take_insert_snoc by lia. by rewrite Td, fmap_app.
      * by rewrite fmap_app.
      * cbn. by rewrite El.
      * left. split; [reflexivity|exact O].
      * right. exists h', tb'. split; [reflexivity|]. split; [exact H1|]. split; [exact H2|]. split; [exact H3|]. split; [exact H4|]. split; [exact H5|].
        split; [exact H6|]. etrans; [exact K1|]. etrans; [exact K2|]. destruct H7 as [Q1 Q2 Q3 Q4 Q5]. constructor; [exact Q1|exact Q2|exact Q3|exact Q4|exact Q5].
    + left. unfold PANDO_CHECK. rewrite bool_decide_false by done. split; [done|]. destruct O as (M & Hs & O). exists M.
      rewrite length_fmap in Hs. split; [lia|done].
Qed.

(** *** Where the arrays are *)

Context (Halloc : allocates szV szE answer) (Hlocal : local_memory).

Lemma init_address {T} sz (gb : Z -> T) node h m n m' a : Cells.initialize sz gb (answer node h (sz * n)) m n = (Success, m', a) -> n <> 0 ->
  answer node h (sz * n) = inl (m_data a).
Proof.
  unfold Cells.initialize. intros H N. rewrite (proj2 (Z.eqb_neq n 0)) in H by done.
  pose proof (Halloc node h (sz * n)) as A. destruct (answer node h (sz * n)) as [p|e]; [by injection H as _ <-|]. injection H as He _ _. by destruct A.
Qed.

Lemma topology_address node h g nv ne h' g' : 0 <= nv < 2 ^ 60 -> initializeTopologyMemory garbage ok answer node h g nv ne = Done (Success, h', g') ->
  (exists h1, answer node h1 (8 * (nv + 1)) = inl (m_data (vertexEdgeOffsets g'))) /\
  (ne <> 0 -> exists h1, answer node h1 (8 * ne) = inl (m_data (edgeDestinations g'))).
Proof.
  intros Hn. unfold initializeTopologyMemory, init_vertexEdgeOffsets, init_topologyToToken, init_edgeDestinations.
  rewrite (wrapU_id 64 (nv + 1)) by (unfold inU; lia).
  destruct (Cells.initialize 8 garbage (answer node h _) _ _) as [[s1 m1] a1] eqn:E1. case_bool_decide as B1; [|by intros [= ? _ _]]. subst s1. cbn [negb].
  destruct (Cells.initialize 8 garbage _ (m_token _) _) as [[s2 m2] a2] eqn:E2. case_bool_decide as B2; cbn [negb].
  2: { destruct (deinit_vertexEdgeOffsets _ _). by intros [= ? _ _]. }
  destruct (HashTable.initialize _ _ _ _ _) as [[s3 t3]|]; cbn [bindo]; [|done]. case_bool_decide as B3; cbn [negb].
  2: { destruct (deinit_vertexEdgeOffsets _ _) as [? ?], (deinit_topologyToToken _ _). by intros [= ? _ _]. }
  destruct (Cells.initialize 8 garbage _ (m_half _) _) as [[s4 m4] a4] eqn:E4. case_bool_decide as B4; cbn [negb].
  2: { destruct (deinit_vertexEdgeOffsets _ _) as [? ?], (deinit_topologyToToken _ _) as [? ?], (deinit_tokenToTopology _ _) as [? ?]. by intros [= ? _ _]. }
  intros [= _ _ <-]. cbn. split; [|intros Ne]; eexists.
  - apply (init_address 8 garbage _ _ _ _ _ _ E1). lia.
  - subst s4. apply (init_address 8 garbage _ _ _ _ _ _ E4 Ne).
Qed.

Lemma data_address node h g nv ne h' g' : initializeDataMemory szV szE garbageV garbageE answer node h g nv ne = (Success, h', g') -> nv <> 0 ->
  answer node h (szV * nv) = inl (m_data (vertexData g')).
Proof.
  unfold initializeDataMemory, init_vertexData, init_edgeData.
  destruct (Cells.initialize szV garbageV _ _ _) as [[s1 m1] a1] eqn:E1. case_bool_decide as B1; [|by intros [= ? _ _]]. subst s1. cbn [negb].
  destruct (Cells.initialize szE garbageE _ _ _) as [[s2 m2] a2] eqn:E2. case_bool_decide as B2; cbn [negb].
  2: { destruct (deinit_vertexData _ _). by intros [= ? _ _]. }
  intros [= _ _ <-] N. cbn. apply (init_address szV garbageV _ _ _ _ _ _ E1 N).
Qed.

(** *** One host *)

(** What a host has after [createCSRFuncs]. *)
Definition made h (i : nat) g (vd : list RV) (ne : nat) : Prop :=
  created szV szE h g (id <$> vd) (VertexData <$> vd) ne /\ finds hash g (id <$> vd) /\ at_home szV i g (length vd) ne.

Lemma createCSR_spec (vds : list (list RV)) (nes : list Z) i vd (ne : nat) h rows : (i < hosts)%nat ->
  vds !! i = Some vd -> nes !! i = Some (Z.of_nat ne) -> Z.of_nat (length vd) < 2 ^ 59 -> Z.of_nat ne < 2 ^ 59 -> NoDup (id <$> vd) ->
  (i < length rows)%nat ->
  createCSR szV szE garbage garbageV garbageE hash ok answer id VertexData row_ok row_garbage vds nes i (h, rows) = Failed (Aborted "PANDO_CHECK") /\ host_refused i (length vd) ne \/
  exists h' g, createCSR szV szE garbage garbageV garbageE hash ok answer id VertexData row_ok row_garbage vds nes i (h, rows) =
      Done (h', <[i := <[i := g]> (row_garbage i)]> rows) /\
    made h' i g vd ne /\ keeps szV szE h h' /\ new_in szV szE h g.
Proof.
  intros Hi Hvd Hne Bv Be Nd Hr. unfold createCSR. destruct (row_ok i) eqn:Or; cbn [guard_or bindo]; [|left; split; [done|by left]].
  rewrite (host_at_lookup _ i vd Hvd), (host_at_lookup _ i _ Hne). cbn [bindo].
  destruct (initializeTopologyMemory_spec szV szE garbage hash ok answer Halloc (Z.of_nat i) h LCSR0 (Z.of_nat (length vd)) (Z.of_nat ne))
    as (s1 & h1 & g1 & Et & D); [lia|lia|by apply fresh_table|]. rewrite Et. cbn [bindo]. unfold PANDO_CHECK at 1.
  destruct D as [[-> T]|(Ns & _ & R)]; [rewrite bool_decide_true by done|rewrite bool_decide_false by done; left; split; [done|by right; left; left]].
  cbn [guard_or bindo]. pose proof (topology_address (Z.of_nat i) h LCSR0 (Z.of_nat (length vd)) (Z.of_nat ne) h1 g1 ltac:(lia) Et) as [Av Ah].
  pose proof (initializeDataMemory_spec szV szE garbageV garbageE answer Halloc HV HE (Z.of_nat i) h1 g1 (Z.of_nat (length vd)) (Z.of_nat ne) ltac:(lia) ltac:(lia)) as D.
  pose proof (data_address (Z.of_nat i) h1 g1 (Z.of_nat (length vd)) (Z.of_nat ne)) as Ad.
  destruct (initializeDataMemory _ _ _ _ _ _ _ _ _ _) as [[s2 h2] g2]. unfold PANDO_CHECK at 1.
  destruct D as [(-> & mv & me & av & ae & -> & -> & Ov & Oe)|(Ns & _ & R & _)]; [rewrite bool_decide_true by done|rewrite bool_decide_false by done; left; split; [done|by right; left; right]].
  cbn [guard_or bindo]. destruct T as [Tv Tt Th Tb Tl (Td1 & Td2 & _)].
  destruct (o_holds _ _ _ _ _ Tv) as (vl & Lv & Hvl), (o_holds _ _ _ _ _ Tt) as (tl & Lt & Htl), (o_holds _ _ _ _ _ Th) as (hl & Lh & Hhl),
    (o_holds _ _ _ _ _ Ov) as (dl & Ld & Hdl), (o_holds _ _ _ _ _ Oe) as (el & Le & Hel).
  set (g := set_edgeData (set_vertexData g1 av) ae). set (h2 := with_edata (with_vdata h1 mv) me).
  assert (F0 : finds hash g []). { exists ∅. split; [exact Tb|]. intros t a. rewrite lookup_empty. split; [done|]. intros (k & Hk & _). by rewrite lookup_nil in Hk. }
  destruct (create_loop_spec vd vd [] h2 g vl tl dl eq_refl Nd) as [[Ec O]|(h' & tb & Ec & H1 & H2 & H3 & H4 & H5 & H6 & H7)]; try done; try lia.
  { left. change (Z.of_nat (length [])) with 0 in Ec. rewrite Ec. cbn. split; [done|]. by right; right. }
  right. change (Z.of_nat (length [])) with 0 in Ec. rewrite Ec. cbn [bindo].
  rewrite (host_at_lookup _ i (row_garbage i)) by (by apply list_lookup_insert_eq). cbn [bindo].
  exists h', (set_tokenToTopology g tb). split; [by rewrite list_insert_insert_eq|].
  assert (Kp : keeps szV szE h h2).
  { constructor; cbn; [apply Tv|apply Th| | |apply Tt]; intros b k Hb; [apply Ov; by rewrite Td1|apply Oe; by rewrite Td2]. }
  assert (Nw : new_in szV szE h g).
  { constructor; cbn; intros b k Hb; [by apply (o_apart _ _ _ _ _ Tv b k)|by apply (o_apart _ _ _ _ _ Th b k)| | |by apply (o_apart _ _ _ _ _ Tt b k)];
      [apply (o_apart _ _ _ _ _ Ov b k); by rewrite Td1|apply (o_apart _ _ _ _ _ Oe b k); by rewrite Td2]. }
  split; [|split; [by eapply new_keeps|by destruct Nw; constructor]]. split_and!; [|done|].
  - constructor; cbn; rewrite ?length_fmap, ?H3, ?H4, ?H5; try done; [exists vl|exists hl|exists el]; (split; [lia|done]).
  - destruct Av as [hv Av]. constructor; cbn.
    + intros k Hk. apply (Hlocal i hv _ _ Hi Av). unfold vptr, addr. cbn. lia.
    + intros k Hk. destruct (Ah ltac:(lia)) as [hh Ah']. apply (Hlocal i hh _ _ Hi Ah'). unfold eptr, addr. cbn. lia.
    + intros k Hk. apply (Hlocal i h1 _ _ Hi (Ad _ _ eq_refl ltac:(lia))). unfold addr. cbn. nia.
Qed.

(** *** All hosts *)

Definition diag (rows : list (list LCSR)) (i : nat) : option LCSR := rows !! i ≫= (fun row => row !! i).

(** The hosts in [done] have made their [LCSR]s. *)
Record phase1 (vds : list (list RV)) (nes : list nat) (done : list nat) h rows : Prop := mkPhase1 {
  ph_rows : length rows = hosts;
  ph_row : forall i, i ∈ done -> exists row g, rows !! i = Some row /\ length row = hosts /\ row !! i = Some g /\
    forall vd ne, vds !! i = Some vd -> nes !! i = Some ne -> made h i g vd ne;
  ph_apart : forall i j gi gj, i ∈ done -> j ∈ done -> i <> j -> diag rows i = Some gi -> diag rows j = Some gj -> csr_apart szV szE gi gj }.

Context (Hrow : forall i, (i < hosts)%nat -> length (row_garbage i) = hosts).

Lemma made_keeps h h' i g vd ne : keeps szV szE h h' -> made h i g vd ne -> made h' i g vd ne.
Proof. intros K (A & B & C). split; [by eapply created_keeps|done]. Qed.

Lemma diag_insert_ne rows i j row : i <> j -> diag (<[i := row]> rows) j = diag rows j.
Proof. intros N. unfold diag. by rewrite list_lookup_insert_ne. Qed.
Lemma diag_insert_eq rows i row : (i < length rows)%nat -> diag (<[i := row]> rows) i = row !! i.
Proof. intros H. unfold diag. by rewrite list_lookup_insert_eq. Qed.

Lemma phase1_run (vds : list (list RV)) (nes : list nat) order : forall done h rows,
  length vds = hosts -> length nes = hosts ->
  (forall i vd, vds !! i = Some vd -> Z.of_nat (length vd) < 2 ^ 59 /\ NoDup (id <$> vd)) -> (forall i ne, nes !! i = Some ne -> Z.of_nat ne < 2 ^ 59) ->
  NoDup order -> (forall i, i ∈ order -> (i ∉ done) /\ (i < hosts)%nat) -> phase1 vds nes done h rows ->
  let task := createCSR szV szE garbage garbageV garbageE hash ok answer id VertexData row_ok row_garbage vds (Z.of_nat <$> nes) in
  each task order (h, rows) = Failed (Aborted "PANDO_CHECK") /\ out_of_memory vds nes \/
  exists h' rows', each task order (h, rows) = Done (h', rows') /\ phase1 vds nes (order ++ done) h' rows'.
Proof.
  induction order as [|i order IH]; intros don h rows Lv Ln Bv Bn N Ho Ph; cbn [each].
  { right. by exists h, rows. }
  destruct (Ho i) as [Ni Hi]; [by left|]. apply NoDup_cons in N as [Ni' N].
  destruct (lookup_lt_is_Some_2 vds i ltac:(lia)) as [vd Hvd], (lookup_lt_is_Some_2 nes i ltac:(lia)) as [ne Hne].
  destruct (Bv i vd Hvd) as [Bvd Nd]. pose proof (Bn i ne Hne) as Bne. destruct Ph as [P1 P2 P3].
  destruct (createCSR_spec vds (Z.of_nat <$> nes) i vd ne h rows) as [[-> O]|(h1 & g & -> & M & K & Nw)]; try done;
    [by rewrite list_lookup_fmap, Hne|lia|left; split; [done|by exists i, vd, ne]|]. cbn [bindo].
  assert (Lr : length (<[i := g]> (row_garbage i)) = hosts) by (rewrite length_insert; by apply Hrow).
  assert (Gi : <[i := g]> (row_garbage i) !! i = Some g) by (apply list_lookup_insert_eq; rewrite Hrow; lia).
  set (rows1 := <[i := <[i := g]> (row_garbage i)]> rows). assert (Di : diag rows1 i = Some g) by (unfold rows1; rewrite diag_insert_eq by lia; done).
  assert (Old : forall j gj, j ∈ don -> diag rows1 j = Some gj -> csr_apart szV szE gj g).
  { intros j gj Hj Dj. assert (i <> j) by congruence. unfold rows1 in Dj. rewrite diag_insert_ne in Dj by done. unfold diag in Dj.
    destruct (P2 j Hj) as (row & g' & R & _ & G & Mk). rewrite R in Dj. cbn in Dj. rewrite G in Dj. injection Dj as ->.
    pose proof (lookup_lt_Some _ _ _ R). destruct (lookup_lt_is_Some_2 vds j ltac:(lia)) as [vdj Hj1], (lookup_lt_is_Some_2 nes j ltac:(lia)) as [nej Hj2].
    eapply created_new; [done|apply (Mk vdj nej Hj1 Hj2)]. }
  destruct (IH (i :: don) h1 rows1) as [[-> O]|(h' & rows' & -> & Ph')]; try done.
  - intros j Hj. destruct (Ho j) as [Nj Hj']; [by right|]. split; [|done]. intros [->|?]%elem_of_cons; done.
  - constructor; [unfold rows1; by rewrite length_insert| |].
    + intros j [->|Hj]%elem_of_cons.
      * exists (<[i := g]> (row_garbage i)), g. split; [apply list_lookup_insert_eq; lia|]. split; [done|]. split; [done|].
        intros vd' ne' H1 H2. by replace vd' with vd by congruence; replace ne' with ne by congruence.
      * assert (i <> j) by congruence. destruct (P2 j Hj) as (row & g' & R & L & G & Mk). exists row, g'. unfold rows1. rewrite list_lookup_insert_ne by done.
        split_and!; try done. intros vd' ne' H1 H2. eapply made_keeps; [done|by apply Mk].
    + intros a b ga gb [->|Ha]%elem_of_cons [->|Hb]%elem_of_cons Nab Da Db; [done| | |].
      * rewrite Di in Da. injection Da as <-. apply (csr_apart_sym szV szE hash). by apply (Old b).
      * rewrite Di in Db. injection Db as <-. by apply (Old a).
      * unfold rows1 in *. rewrite diag_insert_ne in Da, Db by congruence. by apply (P3 a b).
  - by left.
  - right. exists h', rows'. split; [done|]. destruct Ph' as [Q1 Q2 Q3].
    assert (Eq : forall j, j ∈ (i :: order) ++ don <-> j ∈ order ++ i :: don) by (intros j; set_solver).
    constructor; [done|intros j Hj; by apply Q2, Eq|intros a b ga gb Ha Hb; apply Q3; by apply Eq].
Qed.
End Create.

(** ** The caches *)

Lemma copy_csrs_spec (rows : list (list LCSR)) (csrs : list LCSR) j todo : forall l, length csrs = length l ->
  (forall i, i ∈ todo -> exists g, diag rows i = Some g /\ csrs !! i = Some g) ->
  exists l', copy_csrs rows j todo l = Done l' /\ length l' = length l /\
    forall i, l' !! i = if decide (i ∈ todo /\ i <> j) then csrs !! i else l !! i.
Proof.
  induction todo as [|i todo IH]; intros l L H; cbn [copy_csrs].
  { exists l. split; [done|]. split; [done|]. intros i. rewrite decide_False; [done|]. by intros [?%elem_of_nil _]. }
  destruct (H i) as (g & Dg & Cg); [by left|]. assert (H' : forall i, i ∈ todo -> exists g, diag rows i = Some g /\ csrs !! i = Some g) by (intros k Hk; apply H; by right).
  destruct (Nat.eqb_spec i j) as [->|N].
  - destruct (IH l L H') as (l' & -> & L' & E). exists l'. split; [done|]. split; [done|]. intros k. rewrite E.
    destruct (decide (k ∈ todo /\ k <> j)), (decide (k ∈ j :: todo /\ k <> j)); set_solver.
  - unfold diag in Dg. destruct (rows !! i) as [row|] eqn:R; [cbn in Dg|done]. rewrite (host_at_lookup _ i row R). cbn [bindo].
    rewrite (host_at_lookup _ i g Dg). cbn [bindo]. destruct (IH (<[i := g]> l)) as (l' & -> & L' & E); [by rewrite length_insert|done|].
    exists l'. split; [done|]. split; [by rewrite L', length_insert|]. intros k. rewrite E. destruct (decide (k = i)) as [->|Nk].
    + rewrite (decide_True (P := i ∈ i :: todo /\ i <> j)) by set_solver. case_decide; [done|].
      rewrite list_lookup_insert_eq; [done|]. rewrite <- L. by eapply lookup_lt_Some.
    + rewrite list_lookup_insert_ne by done. destruct (decide (k ∈ todo /\ k <> j)), (decide (k ∈ i :: todo /\ k <> j)); set_solver.
Qed.

Lemma generateCache_spec hosts (csrs : list LCSR) order : forall rows, length csrs = hosts -> length rows = hosts ->
  (forall i row, rows !! i = Some row -> length row = hosts) -> (forall i g, csrs !! i = Some g -> diag rows i = Some g) ->
  (forall i, i ∈ order -> (i < hosts)%nat) ->
  exists rows', generateCache (Z.of_nat hosts) order rows = Done rows' /\ length rows' = hosts /\
    forall i, (i < hosts)%nat -> (i ∈ order -> rows' !! i = Some csrs) /\ (i ∉ order -> rows' !! i = rows !! i).
Proof.
  induction order as [|j order IH]; intros rows Lc Lr Lrow D O; cbn [generateCache].
  { exists rows. split; [done|]. split; [done|]. intros i _. split; [by intros ?%elem_of_nil|done]. }
  pose proof (O j ltac:(by left)) as Hj. destruct (lookup_lt_is_Some_2 rows j ltac:(lia)) as [row Hr]. rewrite (host_at_lookup _ j row Hr). cbn [bindo].
  destruct (copy_csrs_spec rows csrs j (seq 0 (Z.to_nat (Z.of_nat hosts))) row) as (l & -> & L & E).
  { rewrite (Lrow j row Hr). done. }
  { intros i Hi%elem_of_seq. destruct (lookup_lt_is_Some_2 csrs i ltac:(lia)) as [g Hg]. exists g. by auto. }
  cbn [bindo]. assert (l = csrs) as ->.
  { apply list_eq. intros i. rewrite E. destruct (decide (i < hosts)%nat) as [Hi|Hi].
    - case_decide as Dc; [done|]. assert (i = j) as -> by (destruct (decide (i = j)); [done|]; exfalso; apply Dc; split; [apply elem_of_seq; lia|done]).
      destruct (lookup_lt_is_Some_2 csrs j ltac:(lia)) as [g Hg]. pose proof (D j g Hg) as Dj. unfold diag in Dj. rewrite Hr in Dj. cbn in Dj. congruence.
    - rewrite decide_False by (intros [?%elem_of_seq _]; lia). rewrite !lookup_ge_None_2; [done|lia|]. rewrite (Lrow j row Hr). lia. }
  destruct (IH (<[j := csrs]> rows)) as (rows' & -> & Lr' & R); try done.
  - by rewrite length_insert.
  - intros i r Hi. destruct (decide (i = j)) as [->|N]; [rewrite list_lookup_insert_eq in Hi by lia; by injection Hi as <-|].
    rewrite list_lookup_insert_ne in Hi by done. by apply (Lrow i).
  - intros i g Hg. destruct (decide (j = i)) as [->|N]; [rewrite diag_insert_eq by lia; done|]. rewrite diag_insert_ne by done. by apply D.
  - intros i Hi. apply O. by right.
  - exists rows'. split; [done|]. split; [done|]. intros i Hi. destruct (R i Hi) as [R1 R2]. destruct (decide (i ∈ order)) as [Io|Io].
    + split; [by auto|]. intros No. exfalso. apply No. by right.
    + rewrite (R2 Io). split.
      * intros [->|?]%elem_of_cons; [|done]. apply list_lookup_insert_eq. lia.
      * intros No. apply list_lookup_insert_ne. intros ->. apply No. by left.
Qed.

Lemma caches_equal hosts (csrs : list LCSR) order rows : length csrs = hosts -> length rows = hosts ->
  (forall i row, rows !! i = Some row -> length row = hosts) -> (forall i g, csrs !! i = Some g -> diag rows i = Some g) ->
  order ≡ₚ seq 0 hosts -> generateCache (Z.of_nat hosts) order rows = Done (replicate hosts csrs).
Proof.
  intros Lc Lr Lrow D O. destruct (generateCache_spec hosts csrs order rows Lc Lr Lrow D) as (rows' & -> & L & R).
  { intros i Hi. rewrite O in Hi. apply elem_of_seq in Hi. lia. }
  f_equal. apply list_eq. intros i. destruct (decide (i < hosts)%nat) as [Hi|Hi].
  - rewrite lookup_replicate_2 by done. apply (R i Hi). rewrite O. apply elem_of_seq. lia.
  - rewrite !lookup_ge_None_2; [done|rewrite length_replicate; lia|lia].
Qed.

(** ** The edges *)

Section Fill.
Context {V E RV RE : Type} (szV szE : Z) (HV : 0 < szV) (HE : 0 < szE) (hash : Z -> Z) (hosts : nat).
Local Abbreviation Heap := (@Heap V E).
Context (id : RV -> Z) (VertexData : RV -> V) (dst : RE -> Z) (EdgeData : RE -> E).
Implicit Types (h : Heap) (g : LCSR).
Local Abbreviation part := (@part V E).

(** The edges a host has gathered for a vertex, and the part of the graph that is. *)
Definition edges_of (M : gmap Z Z) (ed : list (list RE)) (v : RV) : list RE :=
  match M !! id v with Some e => default [] (ed !! Z.to_nat e) | None => [] end.
Definition labelled (edges : list RE) : list (Z * E) := (fun e => (dst e, EdgeData e)) <$> edges.
Definition part_of (vd : list RV) (ed : list (list RE)) (M : gmap Z Z) : part :=
  mkPart (id <$> vd) (VertexData <$> vd) ((fun v => labelled (edges_of M ed v)) <$> vd).

Lemma part_lengths vd ed M : length (p_out (part_of vd ed M)) = length vd /\ length (p_tokens (part_of vd ed M)) = length vd.
Proof. cbn. by rewrite !length_fmap. Qed.

Section Host.
Context (d : Dist) (parts : list part) (csrs : list LCSR) (v2pm : list Z) (D : directory hash hosts d parts csrs v2pm).
Context (i : nat) (Hi : (i < hosts)%nat).

Definition known (t : Z) : Prop := exists P, P ∈ parts /\ t ∈ p_tokens P.

Lemma known_points t : known t -> exists a, getTopologyID hash (Z.of_nat i) d t = Done a /\ points i csrs parts a t.
Proof.
  intros (P & [j HP]%list_elem_of_lookup & Ht). destruct (g_len _ _ _ _ _ _ D) as [Lc Lp]. destruct (lookup_lt_is_Some_2 parts i ltac:(lia)) as [P0 HP0].
  destruct (topology_here hash hosts d parts csrs v2pm D i Hi P0 t HP0) as (j' & g & Q & k & Hg & HQ & Hk & -> & O); [by exists j, P|].
  exists (vptr g k). split; [done|]. exists j', g, Q, k. split_and!; try done. intros R HR HtR. replace P0 with R in O by congruence.
  by rewrite decide_True in O.
Qed.

Lemma fill_edges_spec g edges : forall k h hl el, Forall known (dst <$> edges) ->
  holds 8 (m_half h) (edgeDestinations g) hl -> holds szE (m_edata h) (edgeData g) el -> length el = length hl -> (k + length edges <= length hl)%nat ->
  exists h' hl' el' new, fill_edges szE hash dst EdgeData i d g edges (Z.of_nat k) h = Done (Z.of_nat (k + length edges), h') /\
    holds 8 (m_half h') (edgeDestinations g) hl' /\ holds szE (m_edata h') (edgeData g) el' /\ length hl' = length hl /\ length el' = length hl /\
    take (k + length edges) hl' = take k hl ++ new /\ Forall2 (points i csrs parts) new (dst <$> edges) /\
    take (k + length edges) el' = take k el ++ (EdgeData <$> edges) /\
    m_vertex h' = m_vertex h /\ m_vdata h' = m_vdata h /\ m_token h' = m_token h /\ keeps_apart szV szE g h h'.
Proof.
  induction edges as [|e edges IH]; intros k h hl el Kn Hh He L Hb; cbn [fill_edges length] in *.
  - exists h, hl, el, []. rewrite Nat.add_0_r, !app_nil_r. by split_and!.
  - rewrite fmap_cons in Kn. inversion Kn as [|? ? K0 K1]; subst. destruct (known_points _ K0) as (a & -> & Pa). cbn [bindo].
    destruct (write_half szV szE h g hl k a Hh) as (m & -> & Hm & Ka1); [lia|]. cbn [bindo].
    unfold LocalCSR.setEdgeData. rewrite (at_addr 8 ltac:(lia) m _ _ k Hm) by (rewrite length_insert; lia).
    rewrite (findIndex_spec 8 m _ _ k ltac:(lia) Hm) by (rewrite length_insert; lia). cbn [bindo].
    destruct (write_edata szV szE HE (with_half h m) g el k (EdgeData e) He) as (m2 & -> & Hm2 & Ka2); [lia|]. cbn [bindo].
    pose proof (h_high _ _ _ _ Hh). pose proof (h_low _ _ _ _ Hh). rewrite wrapU_id by (unfold inU; lia).
    replace (Z.of_nat k + 1) with (Z.of_nat (S k)) by lia.
    destruct (IH (S k) (with_edata (with_half h m) m2) (<[k := a]> hl) (<[k := EdgeData e]> el)) as (h' & hl' & el' & new & -> & H1 & H2 & H3 & H4 & H5 & H6 & H7 & H8 & H9 & H10 & H11);
      rewrite ?length_insert in *; try done; try lia.
    replace (S k + length edges)%nat with (k + S (length edges))%nat in * by lia.
    exists h', hl', el', (a :: new). split; [done|]. split_and!; try done.
    + rewrite H5, take_insert_snoc by lia. by rewrite <- app_assoc.
    + rewrite fmap_cons. by constructor.
    + rewrite H7, take_insert_snoc by lia. by rewrite <- app_assoc.
    + etrans; [exact Ka1|]. etrans; [exact Ka2|exact H11].
Qed.

Context (vd : list RV) (ed : list (list RE)) (M : gmap Z Z) (tb : @HashTable.table Z Z) (HT : HashTable.rep 0 0 hash tb M).
Context (HM : forall t e, M !! t = Some e -> exists k, e = Z.of_nat k /\ is_Some (ed !! k)).
Local Abbreviation adj := (p_out (part_of vd ed M)).

Lemma edges_found v : exists found, HashTable.get 0 0 hash (table_fuel tb) tb (id v) = Some found /\
  match found with None => edges_of M ed v = [] | Some e => host_at ed e = Done (edges_of M ed v) end.
Proof.
  exists (M !! id v). split; [apply HashTable.get_correct; [done|unfold HashTable.enough, table_fuel; lia]|].
  unfold edges_of. destruct (M !! id v) as [e|] eqn:L; [|done]. destruct (HM _ _ L) as (k & -> & [l Hl]).
  rewrite (host_at_lookup _ k l Hl). by rewrite Nat2Z.id, Hl.
Qed.

Lemma fill_vertices_spec g rest : forall v h vl hl el, drop v vd = rest -> (v <= length vd)%nat ->
  (forall w, w ∈ vd -> Forall known (dst <$> edges_of M ed w)) ->
  holds 8 (m_vertex h) (vertexEdgeOffsets g) vl -> length vl = S (length vd) ->
  holds 8 (m_half h) (edgeDestinations g) hl -> length hl = length (concat adj) ->
  holds szE (m_edata h) (edgeData g) el -> length el = length hl ->
  holds 8 (m_token h) (topologyToToken g) (id <$> vd) ->
  take (S v) vl = map (fun k => eptr g (first_edge adj k)) (seq 0 (S v)) ->
  Forall2 (points i csrs parts) (take (first_edge adj v) hl) (concat (take v adj)).*1 ->
  take (first_edge adj v) el = (concat (take v adj)).*2 ->
  exists h' half, fill_vertices szE hash dst EdgeData i d g ed tb (length rest) (Z.of_nat v) (Z.of_nat (first_edge adj v)) h = Done h' /\
    holds 8 (m_vertex h') (vertexEdgeOffsets g) (map (fun k => eptr g (first_edge adj k)) (seq 0 (S (length vd)))) /\
    holds 8 (m_half h') (edgeDestinations g) half /\ Forall2 (points i csrs parts) half (concat adj).*1 /\
    holds szE (m_edata h') (edgeData g) (concat adj).*2 /\ m_vdata h' = m_vdata h /\ m_token h' = m_token h /\ keeps_apart szV szE g h h'.
Proof.
  induction rest as [|w rest IH]; intros v h vl hl el Hr Hv Kn Hvl Lv Hhl Lh Hel Le Htk Tv Th Te; cbn [fill_vertices length].
  - assert (v = length vd) as ->. { apply (f_equal length) in Hr. rewrite length_drop in Hr. cbn in Hr. lia. }
    destruct (part_lengths vd ed M) as [La _].
    exists h, hl. split; [done|]. rewrite (first_edge_all adj (length vd)) in Th, Te by lia. rewrite (take_ge adj) in Th, Te by lia.
    rewrite take_ge in Th by lia. rewrite take_ge in Te by lia. subst el. rewrite <- Tv. rewrite take_ge by lia. by split_and!.
  - assert (Ew : vd !! v = Some w). { rewrite <- (Nat.add_0_r v), <- lookup_drop, Hr. done. }
    pose proof (lookup_lt_Some _ _ _ Ew) as Lt. assert (Ea : adj !! v = Some (labelled (edges_of M ed w))) by (cbn; by rewrite list_lookup_fmap, Ew).
    pose proof (first_edge_S adj v _ Ea) as Fs. pose proof (first_edge_le adj (S v)) as Fl. unfold labelled in Fs. rewrite length_fmap in Fs.
    rewrite (at_addr 8 ltac:(lia) (m_vertex h) _ vl v Hvl) by lia. fold (vptr g v).
    assert (Tk : LocalCSR.getTokenID h g (vptr g v) = Done (id w)).
    { unfold LocalCSR.getTokenID, vptr. rewrite (findIndex_spec 8 (m_vertex h) _ vl v ltac:(lia) Hvl) by lia. cbn [bindo].
      apply (cells_read 8 ltac:(lia) (m_token h) _ _ _ _ Htk). by rewrite list_lookup_fmap, Ew. }
    rewrite Tk. cbn [bindo]. destruct (edges_found w) as (found & -> & Hf).
    destruct (fill_edges_spec g (edges_of M ed w) (first_edge adj v) h hl el) as (h1 & hl1 & el1 & new & W & H1 & H2 & H3 & H4 & H5 & H6 & H7 & H8 & H9 & H10 & H11); try done; try lia.
    { apply Kn. by eapply list_elem_of_lookup_2. }
    assert (E1 : (match found with
       | None => Done (Z.of_nat (first_edge adj v), h)
       | Some edgeMapID => let! edges := host_at ed edgeMapID in fill_edges szE hash dst EdgeData i d g edges (Z.of_nat (first_edge adj v)) h
       end) = fill_edges szE hash dst EdgeData i d g (edges_of M ed w) (Z.of_nat (first_edge adj v)) h).
    { destruct found as [e|]; [by rewrite Hf|]. by rewrite Hf. }
    rewrite E1, W. cbn [bindo]. pose proof (h_high _ _ _ _ Hvl). pose proof (h_low _ _ _ _ Hvl). rewrite wrapU_id by (unfold inU; lia).
    replace (Z.of_nat v + 1) with (Z.of_nat (S v)) by lia. rewrite <- Fs. rewrite (at_addr 8 ltac:(lia) (m_half h1) _ hl1) by (done || lia).
    fold (eptr g (first_edge adj (S v))). rewrite <- H8 in Hvl.
    destruct (write_vertex szV szE h1 g vl (S v) (eptr g (first_edge adj (S v))) Hvl) as (mv & -> & Hmv & Ka); [lia|]. cbn [bindo].
    destruct (IH (S v) (with_vertex h1 mv) (<[S v := eptr g (first_edge adj (S v))]> vl) hl1 el1) as (h' & half & -> & R1 & R2 & R3 & R4 & R5 & R6 & R7); try done.
    + rewrite (drop_S vd w v Ew) in Hr. by injection Hr.
    + by rewrite length_insert.
    + by rewrite H3.
    + by rewrite H4, H3.
    + cbn. by rewrite H10.
    + rewrite take_insert_snoc by lia. rewrite Tv, (seq_S (S v)). by rewrite map_app.
    + rewrite Fs, H5. rewrite (take_S_r adj v _ Ea), concat_app, fmap_app. cbn [concat]. rewrite app_nil_r. apply Forall2_app; [done|].
      unfold labelled. by rewrite <- list_fmap_compose.
    + rewrite Fs, H7. rewrite (take_S_r adj v _ Ea), concat_app, fmap_app. cbn [concat]. rewrite app_nil_r. rewrite Te. f_equal.
      unfold labelled. by rewrite <- list_fmap_compose.
    + exists h', half. split; [done|]. split_and!; try done; [by rewrite R5, <- H9|by rewrite R6, <- H10|].
      etrans; [exact H11|]. etrans; [exact Ka|exact R7].
Qed.
End Host.

(** What the hosts have gathered, and the parts of the graph it makes. *)
Definition gathered_at (vds : list (list RV)) (eds : list (list (list RE))) (tbs : list (@HashTable.table Z Z)) (nes : list nat) (parts : list part) (i : nat) : Prop :=
  exists vd ed tb M, vds !! i = Some vd /\ eds !! i = Some ed /\ tbs !! i = Some tb /\ HashTable.rep 0 0 hash tb M /\
    (forall t e, M !! t = Some e -> exists k, e = Z.of_nat k /\ is_Some (ed !! k)) /\
    parts !! i = Some (part_of vd ed M) /\ nes !! i = Some (length (concat (p_out (part_of vd ed M)))).

Lemma fillCSR_spec d parts csrs v2pm vds eds tbs nes i P g h :
  directory hash hosts d parts csrs v2pm -> gathered_at vds eds tbs nes parts i ->
  (forall P, P ∈ parts -> Forall (known parts) (concat (p_out P)).*1) ->
  parts !! i = Some P -> csrs !! i = Some g -> created szV szE h g (p_tokens P) (p_data P) (length (concat (p_out P))) ->
  at_home szV i g (length (p_out P)) (length (concat (p_out P))) ->
  exists h' half, fillCSR szE hash dst EdgeData vds eds tbs i (h, d) = Done (h', d) /\
    csr_ok szV szE h' i g P half /\ Forall2 (points i csrs parts) half (concat (p_out P)).*1 /\ keeps_apart szV szE g h h'.
Proof.
  intros D (vd & ed & tb & M & Hvd & Hed & Htb & HT & HM & HP & Hne) Kn HP' Hg [(vl & Lv & Hvl) (hl & Lh & Hhl) Hd (el & Le & Hel) Htk] Hh.
  assert (P = part_of vd ed M) as -> by congruence. destruct (part_lengths vd ed M) as [La Lt]. rewrite Lt in Lv.
  destruct (g_len _ _ _ _ _ _ D) as [Lc Lp]. pose proof (lookup_lt_Some _ _ _ Hg) as Hi. rewrite Lc in Hi.
  unfold fillCSR. rewrite (g_cache _ _ _ _ _ _ D). rewrite (host_at_lookup _ i csrs) by (by apply lookup_replicate_2). cbn [bindo].
  rewrite (host_at_lookup _ i g Hg), (host_at_lookup _ i ed Hed), (host_at_lookup _ i vd Hvd), (host_at_lookup _ i tb Htb). cbn [bindo].
  destruct (write_vertex szV szE h g vl 0 (begin (edgeDestinations g)) Hvl) as (m & W & Hm & Ka); [lia|]. change (Z.of_nat 0) with 0 in W. rewrite W. cbn [bindo].
  destruct (fill_vertices_spec d parts csrs v2pm D i Hi vd ed M tb HT HM g vd 0 (with_vertex h m) (<[0%nat := begin (edgeDestinations g)]> vl) hl el)
    as (h' & half & Wf & R1 & R2 & R3 & R4 & R5 & R6 & R7); try done; try lia.
  - intros w Hw. pose proof (Kn _ (list_elem_of_lookup_2 _ _ _ HP)) as Kp. apply list_elem_of_lookup in Hw as [k Hk]. apply Forall_forall. intros t Ht.
    rewrite Forall_forall in Kp. apply Kp. cbn.
    apply list_elem_of_fmap in Ht as (e & -> & He). apply list_elem_of_fmap. exists (dst e, EdgeData e). split; [done|].
    apply list_elem_of_In, in_concat. exists (labelled (edges_of M ed w)). split; apply list_elem_of_In.
    + apply list_elem_of_fmap. exists w. split; [done|]. by eapply list_elem_of_lookup_2.
    + unfold labelled. apply list_elem_of_fmap. by exists e.
  - by rewrite length_insert.
  - rewrite take_insert_snoc by lia. cbn. unfold eptr, begin. by rewrite addr_0.
  - change (first_edge (p_out (part_of vd ed M)) 0) with 0%nat in Wf. change (Z.of_nat 0) with 0 in Wf. rewrite Wf. cbn [bindo].
    exists h', half. split; [|split; [|split; [done|by etrans]]].
    + do 2 f_equal. destruct d as [a1 a2 a3 a4]. f_equal. cbn. pose proof (g_cache _ _ _ _ _ _ D) as C. cbn in C. rewrite C.
      rewrite (list_insert_id csrs i g Hg). apply list_insert_id. by apply lookup_replicate_2.
    + constructor; rewrite ?La; try done; [by rewrite R5|by rewrite R6|cbn; by rewrite !length_fmap|by rewrite <- La].
Qed.

(** The hosts in [done] have filled in their edges. *)
Record phase2 (parts : list part) (csrs : list LCSR) (done : list nat) h : Prop := mkPhase2 {
  p2_done : forall i g P, i ∈ done -> csrs !! i = Some g -> parts !! i = Some P ->
    exists half, csr_ok szV szE h i g P half /\ Forall2 (points i csrs parts) half (concat (p_out P)).*1;
  p2_todo : forall i g P, i ∉ done -> csrs !! i = Some g -> parts !! i = Some P ->
    created szV szE h g (p_tokens P) (p_data P) (length (concat (p_out P))) }.

Lemma phase2_run d parts csrs v2pm vds eds tbs nes order : directory hash hosts d parts csrs v2pm ->
  (forall i, (i < hosts)%nat -> gathered_at vds eds tbs nes parts i) -> (forall P, P ∈ parts -> Forall (known parts) (concat (p_out P)).*1) ->
  (forall i g P, csrs !! i = Some g -> parts !! i = Some P -> at_home szV i g (length (p_out P)) (length (concat (p_out P)))) ->
  (forall i j gi gj, i <> j -> csrs !! i = Some gi -> csrs !! j = Some gj -> csr_apart szV szE gi gj) ->
  forall done h, NoDup order -> (forall i, i ∈ order -> (i ∉ done) /\ (i < hosts)%nat) -> phase2 parts csrs done h ->
  exists h', each (fillCSR szE hash dst EdgeData vds eds tbs) order (h, d) = Done (h', d) /\ phase2 parts csrs (order ++ done) h'.
Proof.
  intros D Ga Kn Hm Ap. induction order as [|i order IH]; intros don h N Ho [P1 P2]; cbn [each]; [by exists h|].
  destruct (Ho i) as [Ni Hi]; [by left|]. apply NoDup_cons in N as [Ni' N]. destruct (g_len _ _ _ _ _ _ D) as [Lc Lp].
  destruct (lookup_lt_is_Some_2 csrs i ltac:(lia)) as [g Hg], (lookup_lt_is_Some_2 parts i ltac:(lia)) as [P HP].
  destruct (fillCSR_spec d parts csrs v2pm vds eds tbs nes i P g h D (Ga i Hi) Kn HP Hg (P2 i g P Ni Hg HP) (Hm i g P Hg HP)) as (h1 & half & -> & C & F & Ka).
  cbn [bindo]. destruct (IH (i :: don) h1 N) as (h' & -> & Ph).
  - intros j Hj. destruct (Ho j) as [Nj Hj']; [by right|]. split; [|done]. intros [->|?]%elem_of_cons; done.
  - constructor.
    + intros j gj Pj Hj Hgj HPj. destruct (decide (j = i)) as [->|Ne].
      * exists half. replace gj with g by congruence. by replace Pj with P by congruence.
      * destruct (P1 j gj Pj) as (halfj & Cj & Fj); [set_solver|done|done|]. exists halfj. split; [|done]. eapply csr_ok_apart; [done| |done]. by eapply (Ap i j).
    + intros j gj Pj Hj Hgj HPj. apply not_elem_of_cons in Hj as [Ne Hj]. eapply created_apart; [done| |by eapply P2]. by eapply (Ap i j).
  - exists h'. split; [done|]. destruct Ph as [Q1 Q2]. assert (Eq : forall j, j ∈ (i :: order) ++ don <-> j ∈ order ++ i :: don) by (intros j; set_solver).
    constructor; intros j gj Pj Hj; [apply Q1|apply Q2]; by rewrite <- Eq.
Qed.
End Fill.

(** ** The whole *)

Section Build.
Context {V E RV RE : Type} (szV szE : Z) (HV : 0 < szV) (HE : 0 < szE).
Context (garbage : Z -> Z) (garbageV : Z -> V) (garbageE : Z -> E) (hash : Z -> Z) (ok : Z -> bool) (Hok : HashTable.bounded ok).
Local Abbreviation Heap := (@Heap V E).
Context (answer : Z -> Heap -> Z -> Z + Status) (hosts : nat) (id : RV -> Z) (VertexData : RV -> V) (dst : RE -> Z) (EdgeData : RE -> E).
Context (storage group : Status) (row_ok : nat -> bool) (row_garbage : nat -> list LCSR).
Context (Halloc : allocates szV szE answer) (Hlocal : local_memory answer hosts).
Context (Hrow : forall i, (i < hosts)%nat -> length (row_garbage i) = hosts).
Local Abbreviation part := (@part V E).
Local Abbreviation cgraph := (cgraph szV szE hash hosts).

(** The input: what the hosts gathered makes the parts of a graph in which no host has a token twice, the map leads from every token to a host
    that has it, and every edge ends at a vertex. *)
Record gathered (vds : list (list RV)) (eds : list (list (list RE))) (tbs : list (@HashTable.table Z Z)) (nes : list nat)
    (v2pm : list Z) (parts : list part) : Prop := mkGathered {
  gt_hosts : (0 < hosts)%nat /\ Z.of_nat hosts < 2 ^ 62;
  gt_lengths : length vds = hosts /\ length nes = hosts /\ length parts = hosts;
  gt_at : forall i, (i < hosts)%nat -> gathered_at hash id VertexData dst EdgeData vds eds tbs nes parts i;
  gt_vertices : forall i vd, vds !! i = Some vd -> Z.of_nat (length vd) < 2 ^ 59;
  gt_edges : forall i ne, nes !! i = Some ne -> Z.of_nat ne < 2 ^ 59;
  gt_total : Z.of_nat (length (concat (tokens_of parts))) < 2 ^ 60;
  gt_nodup : forall i P, parts !! i = Some P -> NoDup (p_tokens P);
  gt_leads : forall i P t, parts !! i = Some P -> t ∈ p_tokens P ->
    exists j Q, owner v2pm t = Some (Z.of_nat j) /\ parts !! j = Some Q /\ t ∈ p_tokens Q;
  gt_known : forall P, P ∈ parts -> Forall (known parts) (concat (p_out P)).*1 }.

Local Abbreviation build := (initializeAfterGather szV szE garbage garbageV garbageE hash ok answer hosts id VertexData dst EdgeData
  storage group row_ok row_garbage).

Lemma add_all (l : list nat) : forall n, fold_left (fun n k => u64 (n + k)) (Z.of_nat <$> l) n = (if decide (l = []) then n else u64 (n + Z.of_nat (sum_list l))).
Proof.
  induction l as [|k l IH]; intros n; cbn [fmap list_fmap fold_left]; [done|]. rewrite IH. rewrite (decide_False (P := k :: l = [])) by done. change (sum_list (k :: l)) with (k + sum_list l)%nat.
  case_decide as D; [subst l; cbn; f_equal; lia|]. rewrite wrapU_add_l. f_equal. lia.
Qed.

Lemma start_phase1 vds nes (h : Heap) : phase1 szV szE hash hosts id VertexData vds nes [] h (replicate hosts []).
Proof. constructor; [by rewrite length_replicate|intros i []%elem_of_nil|intros i j gi gj []%elem_of_nil]. Qed.

(** From the vertices of all hosts on. *)
Lemma build_edges vds eds tbs nes v2pm parts total caches fills (h : Heap) rows : gathered vds eds tbs nes v2pm parts ->
  phase1 szV szE hash hosts id VertexData vds nes (seq 0 hosts) h rows -> caches ≡ₚ seq 0 hosts -> fills ≡ₚ seq 0 hosts ->
  let nv := Z.of_nat (length (concat (tokens_of parts))) in
  exists csrs h', generateCache (Z.of_nat hosts) caches rows = Done (replicate hosts csrs) /\
    let d := mkDist (replicate hosts csrs) nv total (replicate hosts v2pm) in
    each (fillCSR szE hash dst EdgeData vds eds tbs) fills (h, d) = Done (h', d) /\ cgraph h' d parts csrs v2pm.
Proof.
  intros [G1 [Lv [Ln Lp]] G3 G4 G5 G6 G7 G8 G9] [P1 P2 P3] Hc Hf nv.
  assert (Row : forall i, (i < hosts)%nat -> exists row g, rows !! i = Some row /\ length row = hosts /\ row !! i = Some g /\
      forall P, parts !! i = Some P -> created szV szE h g (p_tokens P) (p_data P) (length (concat (p_out P))) /\ finds hash g (p_tokens P) /\
        at_home szV i g (length (p_out P)) (length (concat (p_out P)))).
  { intros i Hi. destruct (P2 i) as (row & g & R & L & Gr & Mk); [apply elem_of_seq; lia|]. exists row, g. split_and!; try done. intros P HP.
    destruct (G3 i Hi) as (vd & ed & tb & M & Hvd & _ & _ & _ & _ & HP' & Hne). replace P with (part_of id VertexData dst EdgeData vd ed M) by congruence.
    destruct (Mk vd _ Hvd Hne) as (A & B & C). split; [exact A|]. split; [exact B|]. destruct (part_lengths id VertexData dst EdgeData vd ed M) as [-> _]. exact C. }
  set (csrs := (fun i => default LCSR0 (diag rows i)) <$> seq 0 hosts).
  assert (Lc : length csrs = hosts) by (unfold csrs; by rewrite length_fmap, length_seq).
  assert (Dg : forall i g, csrs !! i = Some g -> diag rows i = Some g).
  { intros i g Hg. pose proof (lookup_lt_Some _ _ _ Hg) as Hi. rewrite Lc in Hi. destruct (Row i Hi) as (row & g' & R & _ & Gr & _).
    unfold csrs in Hg. rewrite list_lookup_fmap, lookup_seq_lt in Hg by done. cbn in Hg. unfold diag in *. rewrite R in *. cbn in *. rewrite Gr in *. done. }
  assert (Of : forall i g P, csrs !! i = Some g -> parts !! i = Some P -> created szV szE h g (p_tokens P) (p_data P) (length (concat (p_out P))) /\
     finds hash g (p_tokens P) /\ at_home szV i g (length (p_out P)) (length (concat (p_out P)))).
  { intros i g P Hg HP. pose proof (lookup_lt_Some _ _ _ Hg) as Hi. rewrite Lc in Hi. destruct (Row i Hi) as (row & g' & R & _ & Gr & C).
    apply Dg in Hg. unfold diag in Hg. rewrite R in Hg. cbn in Hg. replace g with g' by congruence. by apply C. }
  assert (Ap : forall i j gi gj, i <> j -> csrs !! i = Some gi -> csrs !! j = Some gj -> csr_apart szV szE gi gj).
  { intros i j gi gj N Hi Hj. pose proof (lookup_lt_Some _ _ _ Hi). pose proof (lookup_lt_Some _ _ _ Hj).
    apply (P3 i j); [apply elem_of_seq; lia|apply elem_of_seq; lia|done|by apply Dg|by apply Dg]. }
  assert (RowLen : forall i row, rows !! i = Some row -> length row = hosts).
  { intros i row Hr. pose proof (lookup_lt_Some _ _ _ Hr). destruct (Row i ltac:(lia)) as (row' & g & R & L & _). by replace row with row' by congruence. }
  rewrite (caches_equal hosts csrs caches rows Lc P1 RowLen Dg Hc).
  set (d := mkDist (replicate hosts csrs) nv total (replicate hosts v2pm)).
  assert (D : directory hash hosts d parts csrs v2pm) by (constructor; try done; intros i g P Hg HP; by apply (Of i g P)).
  exists csrs. destruct (phase2_run szV szE HV HE hash hosts id VertexData dst EdgeData d parts csrs v2pm vds eds tbs nes fills D G3 G9
    (fun i g P Hg HP => proj2 (proj2 (Of i g P Hg HP))) Ap [] h) as (h' & W & [Q1 Q2]).
  - rewrite Hf. apply NoDup_seq.
  - intros i Hi. rewrite Hf in Hi. apply elem_of_seq in Hi. split; [by intros ?%elem_of_nil|lia].
  - constructor; [intros i g P []%elem_of_nil|]. intros i g P _ Hg HP. by apply (Of i g P).
  - exists h'. split; [done|]. split; [done|]. constructor; try done. intros i g P Hg HP. apply Q1; try done.
    rewrite app_nil_r, Hf. apply elem_of_seq. pose proof (lookup_lt_Some _ _ _ Hg). lia.
Qed.

(** The graph is built, or a memory resource has refused a request. *)
Lemma gather_result h d vds eds tbs nes v2pm parts creates caches fills :
  gathered vds eds tbs nes v2pm parts -> creates ≡ₚ seq 0 hosts -> caches ≡ₚ seq 0 hosts -> fills ≡ₚ seq 0 hosts ->
  let r := build h d vds (Z.of_nat (length (concat (tokens_of parts)))) eds tbs (Z.of_nat <$> nes) (replicate hosts v2pm) creates caches fills in
  (exists h' d', r = Done (Success, h', d') /\ numEdges d' = u64 (numEdges d + Z.of_nat (sum_list nes)) /\ exists csrs, cgraph h' d' parts csrs v2pm) \/
  (exists s d', r = Done (s, h, d') /\ s <> Success /\ (s = storage \/ s = group)) \/
  r = Failed (Aborted "PANDO_CHECK") /\ out_of_memory szV szE hash ok answer row_ok vds nes.
Proof.
  intros G Hcr Hca Hfi r. subst r. unfold initializeAfterGather.
  case_bool_decide as B1; cbn [negb]; [|right; left; by eexists _, _; eauto]. case_bool_decide as B2; cbn [negb]; [|right; left; by eexists _, _; eauto].
  pose proof G as [G1 [Lv [Ln Lp]] G3 G4 G5 G6 G7 G8 G9].
  destruct (phase1_run szV szE HV HE garbage garbageV garbageE hash ok Hok answer hosts id VertexData row_ok row_garbage Halloc Hlocal Hrow
    vds nes creates [] h (replicate hosts []) Lv Ln) as [[-> O]|(h1 & rows & -> & Ph)]; try done.
  - intros i vd Hvd. split; [by apply (G4 i)|]. pose proof (lookup_lt_Some _ _ _ Hvd).
    destruct (G3 i ltac:(lia)) as (vd' & ed & tb & M & Hvd' & _ & _ & _ & _ & HP' & _). replace vd with vd' by congruence.
    by apply (G7 i _ HP').
  - rewrite Hcr. apply NoDup_seq.
  - intros i Hi. rewrite Hcr in Hi. apply elem_of_seq in Hi. split; [by intros ?%elem_of_nil|lia].
  - apply start_phase1.
  - by right; right.
  - left. cbn [bindo]. rewrite app_nil_r in Ph.
    assert (Ph' : phase1 szV szE hash hosts id VertexData vds nes (seq 0 hosts) h1 rows).
    { destruct Ph as [Q1 Q2 Q3]. constructor; [done|intros i Hi; apply Q2; by rewrite Hcr|intros i j gi gj Hi Hj; apply Q3; by rewrite Hcr]. }
    destruct (build_edges vds eds tbs nes v2pm parts (u64 (numEdges d + Z.of_nat (sum_list nes))) caches fills h1 rows G Ph' Hca Hfi) as (csrs & h2 & -> & W & DG).
    cbn [bindo DistLocalCSR.numEdges]. rewrite add_all, decide_False by (intros ->; cbn in Ln; lia). rewrite W. cbn [bindo]. exists h2. eexists. split; [done|].
    split; [done|]. by exists csrs.
Qed.

(** C19: [initializeAfterGather] builds the graph that was gathered, in whatever order the tasks of its phases run: on every host, every
    token leads to its vertex, with its data and its edges in order, each edge to the vertex of its destination's token.  Otherwise a memory
    resource has refused a request: the first ones are passed on as errors and leave memory as it was, those of the tasks stop the program.  The
    number of edges is added to what the object held before. *)
Theorem gather_builds h d vds eds tbs nes v2pm parts creates caches fills :
  gathered vds eds tbs nes v2pm parts -> unique parts v2pm -> creates ≡ₚ seq 0 hosts -> caches ≡ₚ seq 0 hosts -> fills ≡ₚ seq 0 hosts ->
  let r := build h d vds (Z.of_nat (length (concat (tokens_of parts)))) eds tbs (Z.of_nat <$> nes) (replicate hosts v2pm) creates caches fills in
  (exists h' d', r = Done (Success, h', d') /\ size d' = Z.of_nat (length (concat (tokens_of parts))) /\
     sizeEdges d' = u64 (sizeEdges d + Z.of_nat (sum_list nes)) /\
     forall here i P k t x l, (here < hosts)%nat -> parts !! i = Some P -> p_tokens P !! k = Some t -> p_data P !! k = Some x -> p_out P !! k = Some l ->
       vertex_answers szV szE hash h' d' parts (Z.of_nat here) i k t x l) \/
  (exists s d', r = Done (s, h, d') /\ s <> Success /\ (s = storage \/ s = group)) \/
  r = Failed (Aborted "PANDO_CHECK") /\ out_of_memory szV szE hash ok answer row_ok vds nes.
Proof.
  intros G U Hcr Hca Hfi r.
  destruct (gather_result h d vds eds tbs nes v2pm parts creates caches fills G Hcr Hca Hfi) as [(h' & d' & W & Ne & csrs & DG)|R]; [left|by right].
  exists h', d'. split; [exact W|]. split; [apply (g_size _ _ _ _ _ _ _ _ _ DG)|]. split; [exact Ne|]. intros here i P k t x l Hh HP Hk Hx Hl.
  apply (dist_graph_answers szV szE hash HV HE hosts h' d' parts csrs v2pm here) with (P := P); [by split|done..].
Qed.
End Build.

(** ** An example: two hosts *)

Section Example.
Local Abbreviation Heap := (@Heap Z Z).

(** The host of a main-memory address. *)
Lemma home_main node off : 0 <= node < 2 ^ 14 -> 0 <= off < 2 ^ 44 -> home (2 ^ 59 + node * 2 ^ 44 + off) = node.
Proof.
  intros Hn Ho. unfold home, NativeMemory.localityOf, ptr_eqb, nullptr. rewrite (proj2 (Z.eqb_neq _ _)) by lia. cbn [Index.node Index.node_id].
  unfold AddressMap.extractNodeIndex. cbn [Index.node_id]. unfold BitManip.readBits.
  change (notU 64 _) with (Z.ones 14). unfold shrU. change (BitManip.lo _) with 44. rewrite Z.land_ones, Z.shiftr_div_pow2 by lia.
  replace (2 ^ 59 + node * 2 ^ 44 + off) with (off + (2 ^ 15 + node) * 2 ^ 44) by lia. rewrite Z.div_add, Z.div_small by lia.
  replace (0 + (2 ^ 15 + node)) with (node + 2 * 2 ^ 14) by lia. rewrite Z.mod_add, Z.mod_small by lia. rewrite wrapS_id; [done|lia|unfold inS; lia].
Qed.

(** Memory of a node is handed out above all live elements, wherever these are. *)
Definition offset_top {T} (m : gmap Z T) : Z := foldr Z.max 0 (map (fun kv => fst kv mod 2 ^ 44) (map_to_list m)).
Definition node_memory (node : Z) (h : Heap) (bytes : Z) : Z + Status :=
  let off := offset_top (m_vertex h) + offset_top (m_half h) + offset_top (m_vdata h) + offset_top (m_edata h) + offset_top (m_token h) + 16 in
  if (0 <=? node) && (node <? 2 ^ 14) && (0 <=? bytes) && (off + bytes <? 2 ^ 44) then inl (2 ^ 59 + node * 2 ^ 44 + off) else inr BadAlloc.

Lemma offset_top_nonneg {T} (m : gmap Z T) : 0 <= offset_top m.
Proof. unfold offset_top. induction (map _ (map_to_list m)); cbn; lia. Qed.
Lemma offset_top_le {T} (m : gmap Z T) q : is_Some (m !! q) -> q mod 2 ^ 44 <= offset_top m.
Proof.
  intros [v H]. apply elem_of_map_to_list in H. unfold offset_top. apply (list_elem_of_fmap_2 (fun kv => fst kv mod 2 ^ 44)) in H. cbn [fst] in H.
  change ((fun kv : Z * T => fst kv mod 2 ^ 44) <$> map_to_list m) with (map (fun kv : Z * T => fst kv mod 2 ^ 44) (map_to_list m)) in H.
  induction H as [l|x y l H IH]; cbn [foldr]; lia.
Qed.
Lemma above_clear {T} (m : gmap Z T) node off bytes : offset_top m + 16 <= off -> off + bytes < 2 ^ 44 ->
  clear_of 8 m (2 ^ 59 + node * 2 ^ 44 + off) bytes.
Proof.
  intros Ho Hb q Hq%offset_top_le. pose proof (Z.div_mod q (2 ^ 44) ltac:(lia)) as E. pose proof (Z.mod_pos_bound q (2 ^ 44) ltac:(lia)).
  destruct (Z.le_gt_cases (q / 2 ^ 44) (2 ^ 15 + node)); [left|right]; nia.
Qed.

Lemma node_memory_allocates : allocates 8 8 node_memory.
Proof.
  intros node h bytes. unfold node_memory. pose proof (offset_top_nonneg (m_vertex h)). pose proof (offset_top_nonneg (m_half h)).
  pose proof (offset_top_nonneg (m_vdata h)). pose proof (offset_top_nonneg (m_edata h)). pose proof (offset_top_nonneg (m_token h)).
  destruct (_ && _ && _ && _) eqn:B; [|done]. rewrite !andb_true_iff, !Z.ltb_lt, !Z.leb_le in B. split_and!; try lia; apply above_clear; lia.
Qed.
Lemma node_memory_local hosts : (hosts <= 2 ^ 14)%nat -> local_memory node_memory hosts.
Proof.
  intros Hh i h bytes p Hi. unfold node_memory. pose proof (offset_top_nonneg (m_vertex h)). pose proof (offset_top_nonneg (m_half h)).
  pose proof (offset_top_nonneg (m_vdata h)). pose proof (offset_top_nonneg (m_edata h)). pose proof (offset_top_nonneg (m_token h)).
  destruct (_ && _ && _ && _) eqn:B; [|done]. rewrite !andb_true_iff, !Z.ltb_lt, !Z.leb_le in B. intros [= <-] q Hq.
  set (top := _ + 16) in *. replace q with (2 ^ 59 + Z.of_nat i * 2 ^ 44 + (q - 2 ^ 59 - Z.of_nat i * 2 ^ 44)) by lia. apply home_main; lia.
Qed.

(** Even tokens are on host 0, odd ones on host 1; the edges are 0 -> 1, 0 -> 2 and 3 -> 0. *)
Definition ex_vertices : list (list (Z * Z)) := [[(0, 70); (2, 72)]; [(1, 71); (3, 73)]].
Definition ex_edges : list (list (list (Z * Z))) := [[[(1, 100); (2, 101)]]; [[(0, 102)]]].
Definition ex_hash (t : Z) : Z := t.
Definition ex_ok (n : Z) : bool := n <=? 2 ^ 20.
Definition ex_table (k : Z) : @HashTable.table Z Z :=
  match HashTable.put 0 0 ex_hash 8 ex_ok HashTable.HashTable_default k 0 with Some (_, t) => t | None => HashTable.HashTable_default end.
Definition ex_tables : list (@HashTable.table Z Z) := [ex_table 0; ex_table 3].
Definition ex_parts : list (@part Z Z) :=
  [mkPart [0; 2] [70; 72] [[(1, 100); (2, 101)]; []]; mkPart [1; 3] [71; 73] [[]; [(0, 102)]]].
Definition ex_d : Dist := mkDist [] 0 0 [].

Lemma ex_bounded : HashTable.bounded ex_ok.
Proof. intros n Hn. unfold ex_ok in Hn. apply Z.leb_le in Hn. lia. Qed.

Lemma ex_table_rep k : HashTable.rep 0 0 ex_hash (ex_table k) {[k := 0]}.
Proof.
  destruct (HashTable.put_correct 0 0 ex_hash ex_ok ex_bounded HashTable.HashTable_default ∅ k 0 8 (HashTable.default_rep 0 0 ex_hash) HashTable.default_roomy)
    as (s & t & E & _ & D); [unfold HashTable.enough; cbn; lia|]. unfold ex_table. rewrite E. destruct D as [[-> R]|(-> & -> & _ & N)]; [done|by vm_compute in N].
Qed.

Lemma ex_unique : unique ex_parts [0; 1].
Proof.
  split.
  - cbn. repeat constructor; set_solver.
  - intros [|[|i]] P t HP Ht; [| |done]; injection HP as <-; cbn in Ht; repeat (apply elem_of_cons in Ht as [->|Ht]; [done|]); by apply elem_of_nil in Ht.
Qed.

Lemma ex_gathered : gathered ex_hash 2 fst snd fst snd ex_vertices ex_edges ex_tables [2%nat; 1%nat] [0; 1] ex_parts.
Proof.
  constructor.
  - lia.
  - done.
  - intros [|[|i]] Hi; [| |lia]; [exists [(0, 70); (2, 72)], [[(1, 100); (2, 101)]], (ex_table 0), {[0 := 0]}|exists [(1, 71); (3, 73)], [[(0, 102)]], (ex_table 3), {[3 := 0]}];
      (split_and!; [done|done|done|apply ex_table_rep| |done|done]); intros t e [<- <-]%lookup_singleton_Some; exists 0%nat; (split; [done|by eexists]).
  - intros [|[|i]] vd Hvd; [injection Hvd as <-; cbn; lia|injection Hvd as <-; cbn; lia|done].
  - intros [|[|i]] ne Hne; [injection Hne as <-; cbn; lia|injection Hne as <-; cbn; lia|done].
  - cbn. lia.
  - intros [|[|i]] P HP; [| |done]; injection HP as <-; cbn; repeat constructor; set_solver.
  - intros i P t HP Ht. exists i, P. split; [by apply (g_owner _ _ ex_unique i P)|done].
  - intros P HP. assert (K : forall t, t ∈ [0; 1; 2; 3] -> known ex_parts t).
    { intros t Ht. repeat (apply elem_of_cons in Ht as [->|Ht]; [unfold known; (by exists (mkPart [0; 2] [70; 72] [[(1, 100); (2, 101)]; []]); split; set_solver) ||
        (by exists (mkPart [1; 3] [71; 73] [[]; [(0, 102)]]); split; set_solver)|]). by apply elem_of_nil in Ht. }
    repeat (apply elem_of_cons in HP as [->|HP]; [cbn; repeat constructor; apply K; set_solver|]). by apply elem_of_nil in HP.
Qed.

Definition ex_run := initializeAfterGather 8 8 (fun p => p) (fun p => p) (fun p => p) ex_hash ex_ok node_memory 2 fst snd fst snd Success Success
  (fun _ => true) (fun _ => [LCSR0; LCSR0]) (mkHeap ∅ ∅ ∅ ∅ ∅) ex_d ex_vertices (Z.of_nat (length (concat (tokens_of ex_parts)))) ex_edges ex_tables
  (Z.of_nat <$> [2%nat; 1%nat]) (replicate 2 [0; 1]) [1%nat; 0%nat] [0%nat; 1%nat] [0%nat; 1%nat].

Lemma ex_success : match ex_run with Done (s, _, _) => s = Success | _ => False end.
Proof. vm_compute. reflexivity. Qed.

Definition ex_P : part := mkPart [0; 2] [70; 72] [[(1, 100); (2, 101)]; []].

Lemma gather_builds_witness : exists h d, ex_run = Done (Success, h, d) /\
  vertex_answers 8 8 ex_hash h d ex_parts 1 0 0 0 70 [(1, 100); (2, 101)].
Proof.
  assert (P : [1%nat; 0%nat] ≡ₚ seq 0 2) by (cbn; apply Permutation_swap).
  destruct (gather_builds 8 8 ltac:(lia) ltac:(lia) (fun p => p) (fun p => p) (fun p => p) ex_hash ex_ok ex_bounded node_memory 2 fst snd fst snd Success Success
    (fun _ => true) (fun _ => [LCSR0; LCSR0]) node_memory_allocates (node_memory_local 2 ltac:(cbn; lia)) (fun _ _ => eq_refl) (mkHeap ∅ ∅ ∅ ∅ ∅) ex_d
    ex_vertices ex_edges ex_tables [2%nat; 1%nat] [0; 1] ex_parts
    [1%nat; 0%nat] [0%nat; 1%nat] [0%nat; 1%nat] ex_gathered ex_unique P (reflexivity _) (reflexivity _)) as [(h & d & W & _ & _ & A)|[(s & d & _ & N & [-> | ->])|[W _]]].
  - exists h, d. split; [exact W|]. apply (A 1%nat 0%nat ex_P 0%nat 0 70); [lia|reflexivity..].
  - done.
  - done.
  - exfalso. pose proof ex_success as S. assert (ex_run = Failed (Aborted "PANDO_CHECK")) as Q by exact W. by rewrite Q in S.
Defined.

Lemma ex_dgraph : exists h d csrs, dgraph (E := Z) 8 8 ex_hash 2 h d ex_parts csrs [0; 1].
Proof.
  assert (P : [1%nat; 0%nat] ≡ₚ seq 0 2) by (cbn; apply Permutation_swap).
  destruct (gather_result 8 8 ltac:(lia) ltac:(lia) (fun p => p) (fun p => p) (fun p => p) ex_hash ex_ok ex_bounded node_memory 2 fst snd fst snd Success Success
    (fun _ => true) (fun _ => [LCSR0; LCSR0]) node_memory_allocates (node_memory_local 2 ltac:(cbn; lia)) (fun _ _ => eq_refl) (mkHeap ∅ ∅ ∅ ∅ ∅) ex_d
    ex_vertices ex_edges ex_tables [2%nat; 1%nat] [0; 1] ex_parts
    [1%nat; 0%nat] [0%nat; 1%nat] [0%nat; 1%nat] ex_gathered P (reflexivity _) (reflexivity _)) as [(h & d & _ & _ & csrs & G)|[(s & d & _ & N & [-> | ->])|[W _]]].
  - exists h, d, csrs. split; [exact G|exact ex_unique].
  - done.
  - done.
  - exfalso. pose proof ex_success as S. assert (ex_run = Failed (Aborted "PANDO_CHECK")) as Q by exact W. by rewrite Q in S.
Qed.

Lemma dist_vertices_witness : exists (h : Heap) d l, visit (vertex_next 2 0 d) (length l) (match vertices 2 0 d with Done r => m_beg r | _ => 0 end)
    (match vertices 2 0 d with Done r => m_end r | _ => 0 end) = Some (Done l) /\
  Forall2 (fun v t => getTokenID 0 h d v = Done t) l [0; 2; 1; 3].
Proof.
  destruct ex_dgraph as (h & d & csrs & G).
  destruct (dist_vertices 8 8 ex_hash 2 h d ex_parts csrs [0; 1] 0 G ltac:(lia)) as (r & Wr & _ & W & F).
  exists h, d, (walk csrs ex_parts). assert (vertices 2 0 d = Done r) as -> by exact Wr. split; [exact W|]. apply F. intros [|[|i]] P HP Hi; [by injection HP as <-|lia|lia].
Defined.

Lemma dist_indices_witness : exists (h : Heap) d v, getTopologyIDFromIndex 0 d 1 = Done v /\ getTokenID 0 h d v = Done 2.
Proof.
  destruct ex_dgraph as (h & d & csrs & G).
  destruct (proj1 (dist_indices 8 8 ex_hash 2 h d ex_parts csrs [0; 1] 0 G ltac:(lia)) 0%nat ex_P 1%nat 2 eq_refl eq_refl (or_introl Nat.lt_0_1)) as (v & W & _ & T).
  exists h, d, v. split; [exact W|exact T].
Defined.

Lemma dist_set_data_witness : exists (h h' : Heap) d v, getTopologyID ex_hash 1 d 2 = Done v /\ setData 8 1 h d v 75 = Done h' /\ getData 8 1 h' d v = Done 75.
Proof.
  destruct ex_dgraph as (h & d & csrs & G).
  destruct (dist_set_data 8 8 ex_hash ltac:(lia) 2 h d ex_parts csrs [0; 1] 1 0 ex_P 1 2 75 G ltac:(lia) eq_refl eq_refl) as (v & h' & Wv & W & G').
  exists h, h', d, v. split; [exact Wv|]. split; [exact W|].
  destruct (dist_graph_answers 8 8 ex_hash ltac:(lia) ltac:(lia) 2 h' d _ csrs [0; 1] 1 G' ltac:(lia) 0%nat (with_data ex_P 1 75) 1%nat 2 75 [])
    as (v' & Wv' & _ & _ & _ & _ & Wd & _); try done. by replace v with v' by congruence.
Defined.
End Example.
End GatherCSR.
