(* ===== verification/ELGraph.v ===== *)
(** * From an edge-list file to the distributed graph

    [initializeELDLCSR] of [include/pando-lib-galois/import/ingest_rmat_el.hpp]: the threads load the file, the numbers of edges per virtual host
    decide which host gets which virtual host, every host makes its vertices and gets their edges, sorted, and the distributed graph is built
    of them.  This composes the readers of files, the distribution of edges, the prefix sums, the hash tables and the graphs. *)

From Stdlib Require Import Sorting.Sorted.
From S2P Require Import Prelude Addressing GlobalPtr Cells HashTable Adjacency LocalCSR NativeMemory TextInput FileImport EdgePartition PartitionParallel.
From S2P Require Import RmatImport DistLocalCSR GatherCSR.
Import LocalCSR TextInput FileImport EdgePartition PartitionParallel RmatImport DistLocalCSR.

Module ELGraph.

Local Abbreviation table := (HashTable.table (Key := Z) (T := Z)).

(** [PANDO_EXPECT_CHECK] *)
Definition expect {A} (r : Status + A) : outcome A := match r with inr a => Done a | inl _ => Failed (Aborted "PANDO_EXPECT_CHECK") end.

(** ** The vertices of a host *)

Section Vertices.
Context (fuel : nat) (reserved : Z -> Status) (pushed : nat -> Status).

(** src/include/pando-lib-galois/import/ingest_rmat_el.hpp:200-204 [initializeELDLCSR]: from virtual host [i] on *)
Fixpoint vertices_loop (v2PM : list Z) (i : nat) (numVHosts numVertices host : Z) (vertices : list Z) : option (outcome (list Z)) :=
  match v2PM with
  | [] => Some (Done vertices)
  | h :: v2PM =>
      if h =? host then
        let* (err, vertices) := generateEdgesPerVirtualHost fuel reserved pushed vertices numVertices (Z.of_nat i) numVHosts in
        let* _ := Some (PANDO_CHECK err) in
        vertices_loop v2PM (S i) numVHosts numVertices host vertices
      else vertices_loop v2PM (S i) numVHosts numVertices host vertices
  end.
(** src/include/pando-lib-galois/import/ingest_rmat_el.hpp:193-205 [initializeELDLCSR]: the task of a host *)
Definition generateVerticesPerHost (v2PM : list Z) (numVertices : Z) (host : nat) : option (outcome (list Z)) :=
  vertices_loop v2PM 0 (Z.of_nat (length v2PM)) numVertices (Z.of_nat host) [].
End Vertices.

(** Tasks that make something each, with no access to what the others make. *)
Fixpoint each_makes {A} (task : nat -> option (outcome A)) (l : list nat) : option (outcome (list A)) :=
  match l with
  | [] => Some (Done [])
  | i :: l => let* a := task i in let* rest := each_makes task l in Some (Done (a :: rest))
  end.

(** ** The machine *)

(** The system calls on files, and what memory answers to the buffers of the reads. *)
Record Files := mkFiles {
  fs_pread : Z -> Z -> Z -> option (list Z); fs_open : list Z -> Z; fs_fstat : Z -> option Z; fs_room : nat -> Status; fs_new : Z -> bool }.

(** Memory: what it answers to the tables, the vectors and the initialisations, and what it held; for the graph, as in [GatherCSR]. *)
Record Memory {V E : Type} := mkMemory {
  me_ok : Z -> bool; me_pushed : nat -> Status; me_pushed_outer : nat -> Status; me_initialized : Status; me_reserved : Z -> Status;
  me_appended : nat -> nat -> Status; me_grants : nat -> Status; me_granted : nat -> nat -> Status; me_mapping : nat -> Status;
  me_junk : list Z; me_counts : list (list Z); me_sums : list (list Z); me_vectors : nat -> nat -> list ELEdge;
  me_garbage : Z -> Z; me_garbageV : Z -> V; me_garbageE : Z -> E; me_answer : Z -> @Heap V E -> Z -> Z + Status;
  me_storage : Status; me_group : Status; me_row_ok : nat -> bool; me_row : nat -> list LCSR }.
Arguments Memory : clear implicits.

(** The order of the additions to the counts, the prefix sums, and the orders in which the tasks run. *)
Record Orders := mkOrders {
  or_counts : list (list ELEdge) -> list (list ELEdge); or_sums : list Z -> list Z -> Z -> option (outcome (list Z));
  or_renames : list nat; or_sorts : list nat; or_pastes : list nat; or_merges : list nat; or_creates : list nat; or_caches : list nat; or_fills : list nat }.

Section Import.
Context {V E : Type} (szV szE : Z) (F : Files) (M : Memory V E) (O : Orders).
(** [std::hash]; [std::sort] of pairs and of edges; the data of vertices and edges. *)
Context (hash : Z -> Z) (sort_pairs : (Z * Z -> Z * Z -> bool) -> list (Z * Z) -> list (Z * Z))
  (sort_edges : (ELEdge -> ELEdge -> bool) -> list ELEdge -> list ELEdge) (VertexData : Z -> V) (EdgeData : ELEdge -> E).
(** [getPlaceDims().node.id] and [getNumThreads()]. *)
Context (hosts threads : nat).

(** src/include/pando-lib-galois/import/ingest_rmat_el.hpp:131-134 [initializeELDLCSR]: a thread's new table *)
Definition fresh_table : outcome table :=
  let! (s, t) := HashTable.initialize 0 0 (me_ok M) HashTable.HashTable_default 0 in
  let! _ := PANDO_CHECK s in Done t.

(** src/include/pando-lib-galois/import/ingest_rmat_el.hpp:146-154 [initializeELDLCSR]: what the loading threads leave in their vectors *)
Definition load_all (fuel : nat) (filename : list Z) (numThreads numVertices : Z) : option (outcome (list (list (list ELEdge)))) :=
  each_makes (fun i =>
    let* t := Some fresh_table in
    let* st := loadELFilePerThread (fs_pread F) (fs_open F) (fs_fstat F) (fs_room F) (fs_new F) hash (me_ok M) (me_pushed M) (me_pushed_outer M)
      (me_initialized M) fuel filename 1 numThreads (Z.of_nat i) numVertices (t, []) in
    Some (Done (snd st))) (seq 0 (Z.to_nat numThreads)).

(** src/include/pando-lib-galois/import/ingest_rmat_el.hpp:213-223 [initializeELDLCSR]: the lists are sorted by tasks that share nothing *)
Definition sort_lists (partEdges : list (list (list ELEdge))) : list (list (list ELEdge)) :=
  map (fun edge_vectors => map (sort_edges less_edge) edge_vectors) partEdges.

(** src/include/pando-lib-galois/import/ingest_rmat_el.hpp:167-184 [initializeELDLCSR]: the counts and the map *)
Definition make_map (numVHosts : Z) (localReadEdges : list (list (list ELEdge))) : outcome (list Z * list Z) :=
  let! counts := buildEdgeCountToSend fst (me_grants M 3) (Z.to_nat numVHosts) (or_counts O (concat localReadEdges)) in
  let! labeledEdgeCounts := expect counts in
  let! mapping := buildVirtualToPhysicalMapping sort_pairs (me_mapping M 0) (me_mapping M 1) (me_mapping M 2) (me_junk M) hosts hosts labeledEdgeCounts in
  let! r := expect mapping in
  let! _ := PANDO_CHECK (me_grants M 4) in Done r.

(** src/include/pando-lib-galois/import/ingest_rmat_el.hpp:120-254 [initializeELDLCSR]; [graph] is the object before: it is not initialised.
    The answer of [initializeAfterGather] is not looked at *)
Definition initializeELDLCSR (fuel : nat) (filename : list Z) (numVertices vHostsScaleFactor : Z) (h : @Heap V E) (graph : Dist)
    : option (outcome (@Heap V E * Dist)) :=
  let* _ := Some (PANDO_CHECK (me_grants M 0)) in
  let numThreads := u64 (Z.of_nat threads - Z.of_nat hosts) in
  let* _ := Some (PANDO_CHECK (me_grants M 1)) in
  let numVHosts := u64 (Z.of_nat hosts * vHostsScaleFactor) in
  let* _ := Some (PANDO_CHECK (me_grants M 2)) in
  let* loaded := load_all fuel filename numThreads numVertices in
  let localReadEdges := loaded ++ replicate (threads - length loaded) [] in
  let* (v2PM, numEdges) := Some (make_map numVHosts localReadEdges) in
  let* _ := Some (PANDO_CHECK (me_grants M 5)) in
  let* pHV := each_makes (generateVerticesPerHost fuel (me_reserved M) (me_pushed M) v2PM numVertices) (seq 0 hosts) in
  let* (partEdges, renamePerHost) := partitionEdgesParallely (fun v : Z => v) fst hash (me_ok M) (me_pushed M) (me_appended M) hosts (me_vectors M)
    (or_sums O) (fun i => me_grants M (6 + i)) (me_granted M) (me_counts M) (me_sums M) pHV v2PM localReadEdges
    (or_renames O) (or_sorts O) (or_pastes O) (or_merges O) in
  let partEdges := sort_lists partEdges in
  let* (_, h, graph) := Some (GatherCSR.initializeAfterGather szV szE (me_garbage M) (me_garbageV M) (me_garbageE M) hash (me_ok M) (me_answer M) hosts
    (fun v : Z => v) VertexData snd EdgeData (me_storage M) (me_group M) (me_row_ok M) (me_row M) h graph pHV numVertices partEdges renamePerHost numEdges
    (replicate hosts v2PM) (or_creates O) (or_caches O) (or_fills O)) in
  Some (Done (h, graph)).
End Import.

(** ** The vertices of the hosts *)

Section VerticesSpec.
Context (fuel : nat) (reserved : Z -> Status) (pushed : nat -> Status) (Hr : forall c, reserved c = Success) (Hp : forall k, pushed k = Success).
Context (v2PM : list Z) (N : nat) (Hn : (0 < length v2PM)%nat) (Hb : Z.of_nat N + Z.of_nat (length v2PM) <= 2 ^ 64) (Hf : (N < fuel)%nat).
Local Abbreviation n := (Z.of_nat (length v2PM)).

(** The vertices of one virtual host. *)
Lemma virtual_host_vertices v old : (v < length v2PM)%nat -> exists l,
  generateEdgesPerVirtualHost fuel reserved pushed old (Z.of_nat N) (Z.of_nat v) n = Some (Done (Success, old ++ l)) /\
  NoDup l /\ forall t, t ∈ l <-> 0 <= t < Z.of_nat N /\ t mod n = Z.of_nat v.
Proof.
  intros Hv. unfold generateEdgesPerVirtualHost. rewrite (proj2 (Z.eqb_neq _ _)), Hr, bool_decide_true by (done || lia). cbn [negb].
  destruct (generate_vertices fuel pushed old (Z.of_nat N) (Z.of_nat v) n Hp ltac:(lia) Hb (Z.of_nat v) 0) as (m & -> & Hm); [lia|lia|lia|lia|].
  eexists. split; [done|]. split.
  - apply NoDup_fmap_2_strong; [|apply NoDup_seq]. intros j1 j2 _ _ E. nia.
  - intros t. rewrite list_elem_of_fmap. split.
    + intros (j & -> & Hj%elem_of_seq). pose proof (proj1 (Hm j ltac:(lia)) ltac:(lia)). split; [lia|].
      rewrite Z_mod_plus_full. apply Z.mod_small. lia.
    + intros [Ht Hm']. pose proof (Z.div_mod t n ltac:(lia)). assert (0 <= t / n) by (apply Z.div_pos; lia).
      exists (Z.to_nat (t / n)). rewrite Z2Nat.id by done. split; [lia|]. apply elem_of_seq. split; [lia|]. apply Hm; [lia|]. rewrite Z2Nat.id by done. lia.
Qed.

Lemma host_vertices_loop host rest : forall i vertices, drop i v2PM = rest -> (i <= length v2PM)%nat -> exists l,
  vertices_loop fuel reserved pushed rest i n (Z.of_nat N) host vertices = Some (Done (vertices ++ l)) /\
  NoDup l /\ forall t, t ∈ l <-> 0 <= t < Z.of_nat N /\ Z.of_nat i <= t mod n /\ host_of v2PM t = Some host.
Proof.
  induction rest as [|h rest IH]; intros i vertices Hd Hi; cbn [vertices_loop].
  - exists []. split; [by rewrite app_nil_r|]. split; [constructor|]. intros t. split; [by intros ?%elem_of_nil|].
    intros (_ & H & _). apply (f_equal length) in Hd. rewrite length_drop in Hd. cbn in Hd. pose proof (Z.mod_pos_bound t n ltac:(lia)). lia.
  - assert (Lh : v2PM !! i = Some h). { rewrite <- (Nat.add_0_r i), <- lookup_drop, Hd. done. }
    pose proof (lookup_lt_Some _ _ _ Lh). assert (Hd' : drop (S i) v2PM = rest). { rewrite (drop_S v2PM h i Lh) in Hd. by injection Hd. }
    assert (At : forall t, t mod n = Z.of_nat i -> host_of v2PM t = Some h). { intros t E. unfold host_of. by rewrite E, Nat2Z.id. }
    destruct (Z.eqb_spec h host) as [->|Ne].
    + destruct (virtual_host_vertices i vertices ltac:(lia)) as (l & -> & Nl & Ml). cbn [bindr].
      rewrite PANDO_CHECK_ok by done. cbn [bindr]. destruct (IH (S i) (vertices ++ l) Hd' ltac:(lia)) as (l' & -> & Nl' & Ml').
      exists (l ++ l'). split; [by rewrite app_assoc|]. split.
      * apply NoDup_app. split; [done|]. split; [|done]. intros t H1 H2. apply Ml in H1 as [_ H1]. apply Ml' in H2 as (_ & H2 & _). lia.
      * intros t. rewrite elem_of_app, Ml, Ml'. split; [intros [(H1 & H2)|(H1 & H2 & H3)]; (split; [done|]); split; try lia; [by apply At|done]|].
        intros (H1 & H2 & H3). destruct (decide (t mod n = Z.of_nat i)); [by left|right]. split; [done|]. split; [lia|done].
    + destruct (IH (S i) vertices Hd' ltac:(lia)) as (l & -> & Nl & Ml). exists l. split; [done|]. split; [done|]. intros t. rewrite Ml.
      split; intros (H1 & H2 & H3); (split; [done|]); (split; [|done]); [lia|]. destruct (decide (t mod n = Z.of_nat i)) as [E|E]; [|lia].
      rewrite (At t E) in H3. congruence.
Qed.

(** The vertices of a host. *)
Definition owns (h : nat) (vs : list Z) : Prop := NoDup vs /\ forall t, t ∈ vs <-> 0 <= t < Z.of_nat N /\ host_of v2PM t = Some (Z.of_nat h).

Lemma generateVerticesPerHost_spec h : exists vs, generateVerticesPerHost fuel reserved pushed v2PM (Z.of_nat N) h = Some (Done vs) /\ owns h vs.
Proof.
  unfold generateVerticesPerHost. destruct (host_vertices_loop (Z.of_nat h) v2PM 0 [] eq_refl ltac:(lia)) as (l & -> & Nl & Ml).
  exists l. split; [done|]. split; [done|]. intros t. rewrite Ml. pose proof (Z.mod_pos_bound t n ltac:(lia)). intuition lia.
Qed.

Lemma each_makes_spec {A} (task : nat -> option (outcome A)) (P : nat -> A -> Prop) l : (forall i, i ∈ l -> exists a, task i = Some (Done a) /\ P i a) ->
  exists r, each_makes task l = Some (Done r) /\ Forall2 P l r.
Proof.
  induction l as [|i l IH]; intros H; cbn [each_makes]; [exists []; split; [done|constructor]|].
  destruct (H i ltac:(by left)) as (a & -> & Ha). cbn [bindr]. destruct (IH ltac:(intros j Hj; apply H; by right)) as (r & -> & F). cbn [bindr].
  exists (a :: r). split; [done|]. by constructor.
Qed.

(** Every vertex is on one host, the one its virtual host is mapped to. *)
Lemma owned_all hosts (pHV : list (list Z)) : Forall (fun h => 0 <= h < Z.of_nat hosts) v2PM -> Forall2 owns (seq 0 hosts) pHV ->
  concat pHV ≡ₚ Z.of_nat <$> seq 0 N.
Proof.
  clear fuel Hf Hb reserved Hr pushed Hp. intros Hm F. apply NoDup_Permutation.
  - clear Hm. revert F. generalize 0%nat. revert pHV. induction hosts as [|H IH]; intros pHV k F; cbn [seq] in F; [apply Forall2_nil_inv_l in F as ->; constructor|].
    apply Forall2_cons_inv_l in F as (vs & r & [Nv Mv] & F & ->). cbn [concat]. apply NoDup_app. split; [done|]. split; [|by apply (IH r (S k))].
    intros t Ht Ht'. apply Mv in Ht as [_ Ht]. apply list_elem_of_In, in_concat in Ht' as (vs' & Hvs & Ht'). apply list_elem_of_In in Hvs, Ht'.
    apply list_elem_of_lookup in Hvs as [j Hj]. pose proof (lookup_lt_Some _ _ _ Hj) as Lj. rewrite <- (Forall2_length _ _ _ F), length_seq in Lj.
    pose proof (Forall2_lookup_lr _ _ _ j (S k + j)%nat vs' F (lookup_seq_lt _ _ _ Lj) Hj) as [_ M']. apply M' in Ht' as [_ Ht']. rewrite Ht in Ht'. injection Ht'. lia.
  - apply NoDup_fmap_2; [intros x y; lia|apply NoDup_seq].
  - intros t. rewrite list_elem_of_fmap. split.
    + intros Ht. apply list_elem_of_In, in_concat in Ht as (vs & Hvs & Ht). apply list_elem_of_In in Hvs, Ht. apply list_elem_of_lookup in Hvs as [h Hh].
      pose proof (lookup_lt_Some _ _ _ Hh) as Lh. rewrite <- (Forall2_length _ _ _ F), length_seq in Lh.
      pose proof (Forall2_lookup_lr _ _ _ h (0 + h)%nat vs F (lookup_seq_lt _ _ _ Lh) Hh) as [_ M']. apply M' in Ht as [Ht _].
      exists (Z.to_nat t). split; [lia|]. apply elem_of_seq. lia.
    + intros (j & -> & Hj%elem_of_seq). pose proof (Z.mod_pos_bound (Z.of_nat j) n ltac:(lia)).
      destruct (lookup_lt_is_Some_2 v2PM (Z.to_nat (Z.of_nat j mod n)) ltac:(lia)) as [h Lh]. rewrite Forall_forall in Hm.
      pose proof (Hm h (list_elem_of_lookup_2 _ _ _ Lh)). assert (Z.to_nat h < hosts)%nat as Hh by lia.
      destruct (Forall2_lookup_l _ _ _ (Z.to_nat h) _ F (lookup_seq_lt _ _ _ Hh)) as (vs & Lv & [_ M]). apply list_elem_of_In, in_concat. exists vs.
      split; apply list_elem_of_In; [by eapply list_elem_of_lookup_2|]. apply M. split; [lia|]. unfold host_of. rewrite Lh. f_equal. lia.
Qed.
End VerticesSpec.

(** ** The numbers of edges of the hosts *)

Section Counts.
Context {A : Type} (src : A -> Z) (v2PM : list Z) (Hn : (0 < length v2PM)%nat) (h : nat).
Local Abbreviation n := (length v2PM).

(** What virtual host [i] adds to the load of the host. *)
Definition adds (es : list A) (i : nat) : Z := if decide (v2PM !! i = Some (Z.of_nat h)) then count_of src n i es else 0.

Lemma adds_cons e es l : NoDup l ->
  foldr (fun i acc => adds (e :: es) i + acc) 0 l =
  foldr (fun i acc => adds es i + acc) 0 l + if decide (Z.to_nat (src e mod Z.of_nat n) ∈ l /\ host_of v2PM (src e) = Some (Z.of_nat h)) then 1 else 0.
Proof.
  pose proof (Z.mod_pos_bound (src e) (Z.of_nat n) ltac:(lia)).
  induction 1 as [|i l Ni _ IH]; cbn [foldr].
  - rewrite decide_False; [lia|]. by intros [?%elem_of_nil _].
  - rewrite IH. assert (C : count_of src n i (e :: es) = count_of src n i es + if decide (i = Z.to_nat (src e mod Z.of_nat n)) then 1 else 0).
    { unfold count_of. rewrite filter_cons. destruct (decide (src e mod Z.of_nat n = Z.of_nat i)) as [E|E]; cbn [length];
      [rewrite decide_True by lia|rewrite decide_False by lia]; lia. }
    assert (D : adds (e :: es) i = adds es i + if decide (i = Z.to_nat (src e mod Z.of_nat n) /\ host_of v2PM (src e) = Some (Z.of_nat h)) then 1 else 0).
    { unfold adds. rewrite C. unfold host_of. destruct (decide (i = Z.to_nat (src e mod Z.of_nat n))) as [->|Ne].
      - destruct (decide (v2PM !! Z.to_nat (src e mod Z.of_nat n) = Some (Z.of_nat h))) as [D|D];
          [rewrite decide_True by done|rewrite decide_False by tauto]; lia.
      - rewrite (decide_False (P := _ /\ _)) by tauto. destruct (decide (v2PM !! i = Some (Z.of_nat h))); lia. }
    rewrite D. destruct (decide (i = Z.to_nat (src e mod Z.of_nat n))) as [E|Ne].
    + rewrite (decide_False (P := _ ∈ l /\ _)) by (intros [? _]; congruence).
      destruct (decide (host_of v2PM (src e) = Some (Z.of_nat h))); [rewrite !decide_True by (done || (split; [by rewrite E; left|done]))|rewrite !decide_False by tauto]; lia.
    + rewrite (decide_False (P := i = _ /\ _)) by tauto.
      assert (Z.to_nat (src e mod Z.of_nat n) ∈ i :: l <-> Z.to_nat (src e mod Z.of_nat n) ∈ l) as M.
      { rewrite elem_of_cons. split; [intros [?|?]; [by destruct Ne|done]|by right]. }
      destruct (decide (Z.to_nat (src e mod Z.of_nat n) ∈ l /\ host_of v2PM (src e) = Some (Z.of_nat h)));
        [rewrite decide_True by tauto|rewrite decide_False by tauto]; lia.
Qed.

Lemma adds_all es : foldr (fun i acc => adds es i + acc) 0 (seq 0 n) =
  Z.of_nat (length (filter (fun e => host_of v2PM (src e) = Some (Z.of_nat h)) es)).
Proof.
  induction es as [|e es IH].
  - cbn [filter list_filter length]. generalize (seq 0 n). induction l as [|i l IH]; [done|]. cbn [foldr]. rewrite IH. unfold adds, count_of. case_decide; cbn; lia.
  - rewrite adds_cons by apply NoDup_seq. rewrite IH, filter_cons. pose proof (Z.mod_pos_bound (src e) (Z.of_nat n) ltac:(lia)).
    assert (Z.to_nat (src e mod Z.of_nat n) ∈ seq 0 n) by (apply elem_of_seq; lia).
    destruct (decide (host_of v2PM (src e) = Some (Z.of_nat h))); [rewrite decide_True by done|rewrite decide_False by tauto]; cbn [length]; lia.
Qed.

Lemma load_of_counted es : Z.of_nat (length es) < 2 ^ 64 ->
  load_of v2PM h (counted src n es) = Z.of_nat (length (filter (fun e => host_of v2PM (src e) = Some (Z.of_nat h)) es)).
Proof.
  intros B. rewrite <- adds_all. unfold counted, load_of. generalize (seq 0 n). induction l as [|i l IH]; [done|].
  rewrite fmap_cons. cbn [foldr]. rewrite IH. f_equal. unfold share_of, adds. cbn [fst snd]. rewrite Nat2Z.id. case_decide; [|done].
  apply wrapU_id. unfold count_of, inU. pose proof (length_filter (fun e => src e mod Z.of_nat n = Z.of_nat i) es). lia.
Qed.
End Counts.

Lemma counted_loads {A} (src : A -> Z) n es : counted src n es = loads ((fun i => u64 (count_of src n i es)) <$> seq 0 n).
Proof.
  unfold counted, loads. apply list_eq. intros i. rewrite list_lookup_imap, !list_lookup_fmap.
  destruct (decide (i < n)%nat); [by rewrite lookup_seq_lt|]. by rewrite lookup_seq_ge by lia.
Qed.

Lemma counted_total {A} (src : A -> Z) n (es : list A) : (0 < n)%nat -> Z.of_nat (length es) < 2 ^ 64 -> total (counted src n es) <= Z.of_nat (length es).
Proof.
  intros Hn B. assert (Hl : (0 < length (replicate n 0%Z))%nat) by (by rewrite length_replicate).
  pose proof (load_of_counted src (replicate n 0%Z) Hl 0 es B) as L. rewrite length_replicate in L.
  assert (load_of (replicate n 0%Z) 0 (counted src n es) = total (counted src n es)) as E.
  { unfold counted. assert (forall i, i ∈ seq 0 n -> (i < n)%nat) as Hs by (intros i Hi; apply elem_of_seq in Hi; lia). revert Hs.
    generalize (seq 0 n). induction l as [|i l IH]; intros Hs; [done|]. rewrite fmap_cons. unfold load_of, total in *. cbn [foldr]. rewrite IH by (intros j Hj; apply Hs; by right).
    f_equal. unfold share_of. cbn [fst snd]. rewrite Nat2Z.id, decide_True; [done|]. apply lookup_replicate_2, Hs. by left. }
  rewrite <- E, L. pose proof (length_filter (fun e => host_of (replicate n 0%Z) (src e) = Some (Z.of_nat 0)) es). lia.
Qed.

(** ** The steps *)

Section Steps.
Local Abbreviation src := (@fst Z Z).
Context {V E : Type} (szV szE : Z) (F : Files) (M : Memory V E) (O : Orders) (hash : Z -> Z).
Context (sort_pairs : (Z * Z -> Z * Z -> bool) -> list (Z * Z) -> list (Z * Z)) (sort_edges : (ELEdge -> ELEdge -> bool) -> list ELEdge -> list ELEdge).
Context (VertexData : Z -> V) (EdgeData : ELEdge -> E) (hosts threads : nat).
Implicit Types (ess : list (list ELEdge)) (es : list ELEdge).

(** The vectors and the other initialisations are granted, and the arrays are as large as they were asked for. *)
Record generous (numVHosts : nat) : Prop := mkGenerous {
  gr_pushed : (forall k, me_pushed M k = Success) /\ (forall c, me_reserved M c = Success) /\ (forall a b, me_appended M a b = Success);
  gr_grants : (forall i, me_grants M i = Success) /\ (forall k i, me_granted M k i = Success) /\ (forall i, me_mapping M i = Success);
  gr_junk : length (me_junk M) = numVHosts;
  gr_counts : length (me_counts M) = hosts /\ Forall (fun l => length l = threads) (me_counts M);
  gr_sums : length (me_sums M) = hosts /\ Forall (fun l => length l = threads) (me_sums M);
  gr_graph : me_storage M = Success /\ me_group M = Success /\ forall i, (i < hosts)%nat -> length (me_row M i) = hosts }.

(** The orders are orders of all tasks, and the prefix sums are right. *)
Record complete : Prop := mkComplete {
  oc_counts : forall l, or_counts O l ≡ₚ l;
  oc_sums : sums_counts threads (or_sums O);
  oc_hosts : or_renames O ≡ₚ seq 0 hosts /\ or_merges O ≡ₚ seq 0 hosts;
  oc_threads : or_sorts O ≡ₚ seq 0 threads /\ or_pastes O ≡ₚ seq 0 threads;
  oc_graph : or_creates O ≡ₚ seq 0 hosts /\ or_caches O ≡ₚ seq 0 hosts /\ or_fills O ≡ₚ seq 0 hosts }.

Lemma fresh_table_spec : exists t, fresh_table M = Done t /\ holds_edges src hash [] (t, []).
Proof.
  unfold fresh_table. destruct (HashTable.initialize_none 0 0 hash (me_ok M) HashTable.HashTable_default) as (t & -> & Em & R);
    [apply HashTable.default_rep|done|]. cbn [bindo]. rewrite PANDO_CHECK_ok by done. cbn [bindo]. exists t. split; [done|]. apply holds_nil; [done|]. by rewrite Em.
Qed.

Lemma each_makes_or {A} (task : nat -> option (outcome A)) (P : nat -> A -> Prop) (R : nat -> Prop) e l :
  (forall i, i ∈ l -> task i = Some (Failed e) /\ R i \/ exists a, task i = Some (Done a) /\ P i a) ->
  each_makes task l = Some (Failed e) /\ (exists i, i ∈ l /\ R i) \/ exists r, each_makes task l = Some (Done r) /\ Forall2 P l r.
Proof.
  induction l as [|i l IH]; intros H; cbn [each_makes]; [right; exists []; split; [done|constructor]|].
  destruct (H i ltac:(by left)) as [[-> Ri]|(a & -> & Ha)]; cbn [bindr]; [left; split; [done|exists i; split; [by left|done]]|].
  destruct (IH ltac:(intros j Hj; apply H; by right)) as [[-> (j & Hj & Rj)]|(r & -> & Fr)]; cbn [bindr].
  - left. split; [done|]. exists j. split; [by right|done].
  - right. exists (a :: r). split; [done|]. by constructor.
Qed.

(** Loading. *)
Lemma load_all_spec filename f fuel numThreads N :
  text_file (fs_pread F) (fs_open F) (fs_fstat F) filename f -> (forall n, fs_room F n = Success) -> (forall n, n <= Z.of_nat (length f) -> fs_new F n = true) ->
  ends_line f -> Forall (fun c => c <> 0) f -> (0 < numThreads <= length f)%nat -> (length f < fuel)%nat ->
  Forall (fun l => is_done (line_edge l) = true) (filter (fun l => content l = true) (lines f)) -> HashTable.bounded (me_ok M) ->
  let edges := edges_of (Z.of_nat N) (filter (fun l => content l = true) (lines f)) in
  let r := load_all F M hash fuel filename (Z.of_nat numThreads) (Z.of_nat N) in
  r = Some (Failed (Aborted "PANDO_CHECK")) /\
    (exists es err, es ⊆+ edges /\ refused src hash (me_ok M) (me_pushed M) (me_pushed_outer M) (me_initialized M) es err) \/
  exists ess, r = Some (Done (groups src <$> ess)) /\ length ess = numThreads /\ concat ess ≡ₚ edges.
Proof.
  intros Hfile Hroom Hnew Hend H0 Hn Hfuel Hlines Hok edges r. subst r. unfold load_all. rewrite Nat2Z.id.
  destruct (rmat_load (fs_pread F) (fs_open F) (fs_fstat F) (fs_room F) (fs_new F) hash (me_ok M) (me_pushed M) (me_pushed_outer M) (me_initialized M)
    filename f numThreads 1 fuel N) as (share & Pe & _ & Load); [done..|lia|done|done|done|]. fold edges in Pe.
  destruct fresh_table_spec as (t0 & -> & Fr). cbn [bindr].
  destruct (each_makes_or (fun i => let* st := loadELFilePerThread (fs_pread F) (fs_open F) (fs_fstat F) (fs_room F) (fs_new F) hash (me_ok M) (me_pushed M)
      (me_pushed_outer M) (me_initialized M) fuel filename 1 (Z.of_nat numThreads) (Z.of_nat i) (Z.of_nat N) (t0, []) in Some (Done (snd st)))
    (fun i a => a = groups src (share i))
    (fun i => exists err, stopped src hash (me_ok M) (me_pushed M) (me_pushed_outer M) (me_initialized M) (share i) err) (Aborted "PANDO_CHECK") (seq 0 numThreads))
    as [[W (i & Hi & err & es & Pr & R)]|(r & W & Fr2)].
  - intros i Hi%elem_of_seq. destruct (Load i (t0, []) ltac:(lia) Fr) as [[W R]|(st & W & G)]; change (Z.of_nat 1) with 1 in W; unfold ELEdge in *; rewrite W; cbn [bindr]; [by left|right].
    eexists. split; [done|exact G].
  - left. split; [exact W|]. exists es, err. split; [|done]. rewrite <- Pe. destruct (list_elem_of_split _ _ Hi) as (l1 & l2 & ->).
    rewrite fmap_app, fmap_cons, concat_app. cbn [concat]. destruct Pr as [k ->]. apply submseteq_inserts_l, submseteq_inserts_r. by apply submseteq_inserts_r.
  - right. exists (share <$> seq 0 numThreads). split; [|split; [by rewrite length_fmap, length_seq|done]]. rewrite W. do 2 f_equal.
    clear - Fr2. induction Fr2 as [|i a l r -> _ IH]; [done|]. by rewrite IH.
Qed.

(** The map. *)
Lemma make_map_spec n ess : generous n -> complete -> sorts sort_pairs -> (0 < hosts)%nat -> (0 < n)%nat -> Z.of_nat (length (concat ess)) < 2 ^ 64 ->
  exists v2PM, make_map M O sort_pairs hosts (Z.of_nat n) (groups src <$> ess) =
      Done (v2PM, (fun h => Z.of_nat (length (filter (fun e => host_of v2PM e.1 = Some (Z.of_nat h)) (concat ess)))) <$> seq 0 hosts) /\
    length v2PM = n /\ Forall (fun h => 0 <= h < Z.of_nat hosts) v2PM.
Proof.
  intros [_ [G1 [_ G2]] G3 _ _ _] [C1 _ _ _ _] Hs Hh Hn B. unfold ELEdge in *. unfold make_map. unfold ELEdge in *. rewrite Nat2Z.id, G1.
  rewrite (build_counts src n ess) by (done || apply C1). cbn [bindo expect]. rewrite !G2, counted_loads.
  set (counts := (fun i => u64 (count_of src n i (concat ess))) <$> seq 0 n).
  assert (Lc : length counts = n) by (unfold counts; by rewrite length_fmap, length_seq).
  destruct (mapping_result sort_pairs (me_junk M) hosts hosts counts (Z.of_nat (length (concat ess))) Hs) as (v2PM & numEdges & -> & L1 & L2 & Mp & Ne & _).
  - lia.
  - lia.
  - lia.
  - unfold counts. apply Forall_fmap, Forall_forall. intros i _. cbn. unfold count_of.
    pose proof (length_filter (fun e : Z * Z => e.1 mod Z.of_nat n = Z.of_nat i) (concat ess)). rewrite wrapU_id by (unfold inU; lia). lia.
  - unfold counts. rewrite <- counted_loads. pose proof (counted_total src n (concat ess) Hn B). lia.
  - cbn [bindo expect]. rewrite PANDO_CHECK_ok by apply G1. cbn [bindo]. exists v2PM. rewrite Lc in *. split; [|split; [done|]].
    + do 2 f_equal. apply list_eq. intros h. destruct (decide (h < hosts)%nat) as [Hlt|Hge].
      * rewrite (Ne h Hlt), list_lookup_fmap, lookup_seq_lt by done. cbn [fmap option_fmap option_map Nat.add]. f_equal. unfold counts. rewrite <- counted_loads.
        rewrite <- L1. apply load_of_counted; [lia|done].
      * rewrite !lookup_ge_None_2; [done|rewrite length_fmap, length_seq; lia|lia].
    + apply Forall_forall. intros h [v Hv]%list_elem_of_lookup. destruct (Mp v) as (h' & Hv' & ?); [rewrite <- L1; by eapply lookup_lt_Some|].
      replace h with (Z.of_nat h') by congruence. lia.
Qed.
End Steps.

(** ** The parts of the graph *)

Lemma filter_ext_in {A} (P Q : A -> Prop) `{forall x, Decision (P x)} `{forall x, Decision (Q x)} (l : list A) : (forall x, x ∈ l -> P x <-> Q x) -> filter P l = filter Q l.
Proof.
  induction l as [|x l IH]; intros H1; [done|]. rewrite !filter_cons, IH by (intros y Hy; apply H1; by right).
  pose proof (H1 x ltac:(by left)). destruct (decide (P x)), (decide (Q x)); tauto || done.
Qed.

Section Parts.
Local Abbreviation src := (@fst Z Z).
Context {V E : Type} (hash : Z -> Z) (sort_edges : (Z * Z -> Z * Z -> bool) -> list (Z * Z) -> list (Z * Z)) (Hsort : sorts sort_edges).
Context (VertexData : Z -> V) (EdgeData : Z * Z -> E) (hosts N : nat) (v2PM : list Z) (es : list (Z * Z)).
Context (Hh : (0 < hosts)%nat /\ Z.of_nat hosts < 2 ^ 62) (Hn : (0 < length v2PM)%nat) (Hm : Forall (fun h => 0 <= h < Z.of_nat hosts) v2PM).
Context (HN : Z.of_nat N < 2 ^ 59) (He : Z.of_nat (length es) < 2 ^ 59).
Context (Hes : Forall (fun e => 0 <= e.1 < Z.of_nat N /\ 0 <= e.2 < Z.of_nat N) es).
Context (pHV : list (list Z)) (Own : Forall2 (owns v2PM N) (seq 0 hosts) pHV).

(** The sorted edges of a vertex, and what the host of [vs] has of the graph. *)
Definition edges_from (v : Z) : list (Z * Z) := sort_edges less_edge (from src v es).
Definition part_of_host (vs : list Z) : @part V E :=
  mkPart vs (VertexData <$> vs) ((fun v => (fun e => (e.2, EdgeData e)) <$> edges_from v) <$> vs).
Definition graph_parts : list part := part_of_host <$> pHV.

Lemma edges_from_perm v : edges_from v ≡ₚ from src v es.
Proof. apply (Hsort less_edge (from src v es) less_edge_weak). Qed.

Lemma own_at h vs : pHV !! h = Some vs -> (h < hosts)%nat /\ owns v2PM N h vs.
Proof.
  intros L. pose proof (lookup_lt_Some _ _ _ L) as Hl. rewrite <- (Forall2_length _ _ _ Own), length_seq in Hl. split; [done|].
  apply (Forall2_lookup_lr _ _ _ h (0 + h)%nat vs Own (lookup_seq_lt _ _ _ Hl) L).
Qed.

Lemma lengths_from (vs : list Z) : NoDup vs -> length (concat ((fun v => from src v es) <$> vs)) = length (filter (fun e => e.1 ∈ vs) es).
Proof.
  clear. intros Nd. induction es as [|e l IH].
  - cbn. clear. induction vs as [|v vs IH]; [done|]. by rewrite fmap_cons.
  - rewrite filter_cons. assert (length (concat ((fun v => from src v (e :: l)) <$> vs)) =
      length (concat ((fun v => from src v l) <$> vs)) + if decide (e.1 ∈ vs) then 1 else 0)%nat as ->.
    { clear IH. induction Nd as [|v vs Nv _ IH]; [rewrite decide_False by (by intros ?%elem_of_nil); done|].
      rewrite !fmap_cons. cbn [concat]. rewrite !length_app, IH. unfold from at 1. rewrite filter_cons. destruct (decide (e.1 = v)) as [<-|Ne]; cbn [length].
      - rewrite decide_False by done. rewrite decide_True by (by left). unfold from. lia.
      - fold (from src v l). destruct (decide (e.1 ∈ vs)); [rewrite decide_True by (by right)|rewrite decide_False by (intros [?|?]%elem_of_cons; done)]; lia. }
    rewrite IH. destruct (decide (e.1 ∈ vs)); cbn [length]; lia.
Qed.

(** A host has as many edges as were counted for it. *)
Lemma edges_of_host h vs : pHV !! h = Some vs ->
  length (concat ((fun v => (fun e => (e.2, EdgeData e)) <$> edges_from v) <$> vs)) = length (filter (fun e => host_of v2PM e.1 = Some (Z.of_nat h)) es).
Proof.
  intros L. destruct (own_at h vs L) as (_ & Nd & Mv).
  transitivity (length (filter (fun e : Z * Z => e.1 ∈ vs) es)).
  - rewrite <- lengths_from by done. clear - Hsort. induction vs as [|v vs IH]; [done|]. rewrite !fmap_cons. cbn [concat].
    by rewrite !length_app, IH, length_fmap, edges_from_perm.
  - f_equal. apply filter_ext_in. intros e Hi. rewrite Mv. rewrite Forall_forall in Hes. pose proof (Hes e Hi). tauto.
Qed.

Lemma part_at h vs M : pHV !! h = Some vs -> indexes M ((fun v : Z => v) <$> vs) ->
  GatherCSR.part_of (fun v : Z => v) VertexData snd EdgeData vs (map (sort_edges less_edge) ((fun v => from src v es) <$> vs)) M = part_of_host vs.
Proof.
  intros L Ix. unfold GatherCSR.part_of, part_of_host. f_equal; [apply list_fmap_id|]. apply list_fmap_ext. intros k v Lv.
  unfold GatherCSR.edges_of, GatherCSR.labelled. assert (M !! v = Some (Z.of_nat k)) as -> by (apply Ix; exists k; by rewrite list_lookup_fmap, Lv).
  rewrite Nat2Z.id. change (map (sort_edges less_edge) ((fun v => from src v es) <$> vs)) with (sort_edges less_edge <$> ((fun v => from src v es) <$> vs)).
  by rewrite !list_lookup_fmap, Lv.
Qed.

Lemma graph_unique : unique graph_parts v2PM /\ length (concat (tokens_of graph_parts)) = N.
Proof.
  clear Hes He HN Hh Hsort.
  assert (tokens_of graph_parts = pHV) as T.
  { unfold tokens_of, graph_parts. rewrite <- list_fmap_compose. apply list_fmap_id. }
  pose proof (owned_all v2PM N Hn hosts pHV Hm Own) as P. split.
  - constructor.
    + rewrite T, P. apply NoDup_fmap_2; [intros x y; lia|apply NoDup_seq].
    + intros i Q t HQ Ht. unfold graph_parts in HQ. rewrite list_lookup_fmap in HQ. destruct (pHV !! i) as [vs|] eqn:L; [|done]. injection HQ as <-.
      destruct (own_at i vs L) as (_ & _ & Mv). by apply Mv in Ht as [_ Ht].
  - by rewrite T, P, length_fmap, length_seq.
Qed.

Lemma vertex_known t : 0 <= t < Z.of_nat N -> exists i vs k, pHV !! i = Some vs /\ vs !! k = Some t.
Proof.
  clear HN He Hes Hh. intros Ht. pose proof (owned_all v2PM N Hn hosts pHV Hm Own) as P. assert (t ∈ concat pHV) as I.
  { rewrite P. apply list_elem_of_fmap. exists (Z.to_nat t). split; [lia|]. apply elem_of_seq. lia. }
  apply list_elem_of_In, in_concat in I as (vs & Hvs & I). apply list_elem_of_In in Hvs, I. apply list_elem_of_lookup in Hvs as [i Hi], I as [k Hk].
  by exists i, vs, k.
Qed.

(** What the hosts have gathered is these parts. *)
Lemma graph_gathered partEdges tables :
  (forall h vs, pHV !! h = Some vs -> partEdges !! h = Some ((fun v => from src v es) <$> vs) /\
     exists t, tables !! h = Some t /\ named hash t ((fun v : Z => v) <$> vs)) ->
  GatherCSR.gathered hash hosts (fun v : Z => v) VertexData snd EdgeData pHV (sort_lists sort_edges partEdges) tables
    ((fun h => length (filter (fun e => host_of v2PM e.1 = Some (Z.of_nat h)) es)) <$> seq 0 hosts) v2PM graph_parts.
Proof.
  intros HP. destruct graph_unique as [[Uq Uo] Ln]. pose proof (Forall2_length _ _ _ Own) as Lo. rewrite length_seq in Lo.
  assert (Lp : forall i P, graph_parts !! i = Some P -> exists vs, pHV !! i = Some vs /\ P = part_of_host vs).
  { intros i P HQ. unfold graph_parts in HQ. rewrite list_lookup_fmap in HQ. destruct (pHV !! i) as [vs|]; [|done]. injection HQ as <-. by exists vs. }
  constructor.
  - done.
  - split; [done|]. split; [by rewrite length_fmap, length_seq|]. unfold graph_parts. by rewrite length_fmap.
  - intros i Hi. destruct (lookup_lt_is_Some_2 pHV i ltac:(lia)) as [vs L]. destruct (HP i vs L) as (He' & t & Et & M & R & _ & Ix).
    exists vs, (map (sort_edges less_edge) ((fun v => from src v es) <$> vs)), t, M. split; [done|]. split.
    { unfold sort_lists. etransitivity; [apply (list_lookup_fmap (fun l => map (sort_edges less_edge) l))|].
      exact (f_equal (fmap (fun l => map (sort_edges less_edge) l)) He'). }
    split; [done|]. split; [done|]. split.
    { intros x e Hx. apply Ix in Hx as (k & -> & Lk). exists k. split; [done|]. rewrite list_lookup_fmap in Lk.
      change (map (sort_edges less_edge) ((fun v => from src v es) <$> vs)) with (sort_edges less_edge <$> ((fun v => from src v es) <$> vs)).
      rewrite !list_lookup_fmap. destruct (vs !! k); [|done]. by eexists. }
    rewrite (part_at i vs M L Ix). split; [unfold graph_parts; by rewrite list_lookup_fmap, L|].
    rewrite list_lookup_fmap, lookup_seq_lt by done. cbn [fmap option_fmap option_map Nat.add]. f_equal. symmetry. by apply edges_of_host.
  - intros i vs L. enough (length vs <= N)%nat by lia. rewrite <- Ln. unfold graph_parts, tokens_of. rewrite <- list_fmap_compose.
    change (p_tokens ∘ part_of_host) with (fun v : list Z => v). rewrite list_fmap_id.
    pose proof (first_edge_S pHV i vs L). pose proof (first_edge_le pHV (S i)). lia.
  - intros i ne L. rewrite list_lookup_fmap in L. destruct (seq 0 hosts !! i); [|done]. injection L as <-.
    pose proof (length_filter (fun e : Z * Z => host_of v2PM e.1 = Some (Z.of_nat n)) es). lia.
  - rewrite Ln. lia.
  - intros i P HQ. destruct (Lp i P HQ) as (vs & L & ->). by destruct (own_at i vs L) as (_ & Nd & _).
  - intros i P t HQ Ht. exists i, P. split; [by apply (Uo i P)|done].
  - intros P HQ. apply list_elem_of_lookup in HQ as [i HQ]. destruct (Lp i P HQ) as (vs & L & ->). apply Forall_forall. intros t Ht.
    apply list_elem_of_fmap in Ht as ([t' x] & -> & Ht). cbn [fst].
    apply list_elem_of_In, in_concat in Ht as (l & Hl & Ht). apply list_elem_of_In in Hl, Ht. cbn [p_out part_of_host] in Hl.
    apply list_elem_of_fmap in Hl as (v & -> & _). apply list_elem_of_fmap in Ht as (e & [= -> ->] & Ie). rewrite edges_from_perm in Ie.
    apply list_elem_of_filter in Ie as [_ Ie]. rewrite Forall_forall in Hes. destruct (vertex_known e.2) as (j & ws & k & Lj & Lk); [by apply Hes|].
    exists (part_of_host ws). split; [|by eapply list_elem_of_lookup_2]. apply (list_elem_of_lookup_2 _ j). unfold graph_parts. by rewrite list_lookup_fmap, Lj.
Qed.
End Parts.

(** ** From the file to the graph *)

Lemma edges_range n ls : Forall (fun e => 0 <= e.1 < n /\ 0 <= e.2 < n) (edges_of n ls).
Proof.
  apply Forall_forall. intros e (l & _ & H)%list_elem_of_omap. unfold known in H. destruct (line_edge l) as [e'|] eqn:E; [|done].
  assert (0 <= e'.1 /\ 0 <= e'.2) as R.
  { unfold line_edge, elParse in E. destruct (elGetOne l) as [[r1 s]|] eqn:E1; [|done]. cbn [bindo] in E.
    destruct (elGetOne r1) as [[r2 d]|] eqn:E2; [|done]. cbn [bindo] in E. injection E as <-. cbn. apply elGetOne_range in E1, E2. unfold inU in *. lia. }
  destruct ((e'.1 <? n) && (e'.2 <? n)) eqn:C; [|done]. injection H as <-. lia.
Qed.

Section Whole.
Local Abbreviation src := (@fst Z Z).
Context {V E : Type} (szV szE : Z) (HV : 0 < szV) (HE : 0 < szE) (F : Files) (M : Memory V E) (O : Orders) (hash : Z -> Z).
Context (sort_pairs : (Z * Z -> Z * Z -> bool) -> list (Z * Z) -> list (Z * Z)) (sort_edges : (ELEdge -> ELEdge -> bool) -> list ELEdge -> list ELEdge).
Context (VertexData : Z -> V) (EdgeData : ELEdge -> E) (hosts threads : nat).

(** Memory has been refused: to a thread that had inserted edges of the file, to a host's table of its vertices, or to the graph of a host. *)
Definition el_refused (N : nat) (edges : list ELEdge) : Prop :=
  (exists es err, es ⊆+ edges /\ refused src hash (me_ok M) (me_pushed M) (me_pushed_outer M) (me_initialized M) es err) \/
  (exists vs, vs ⊆+ Z.of_nat <$> seq 0 N /\ naming_refused hash (me_ok M) vs) \/
  exists pHV nes, concat pHV ≡ₚ Z.of_nat <$> seq 0 N /\ sum_list nes = length edges /\
    GatherCSR.out_of_memory szV szE hash (me_ok M) (me_answer M) (me_row_ok M) pHV nes.

Lemma sum_hosts_edges v2PM (es : list (Z * Z)) : (0 < length v2PM)%nat -> Forall (fun h => 0 <= h < Z.of_nat hosts) v2PM ->
  sum_list ((fun h => length (filter (fun e : Z * Z => host_of v2PM e.1 = Some (Z.of_nat h)) es)) <$> seq 0 hosts) = length es.
Proof.
  intros Hn Hm. induction es as [|e es IH].
  - cbn. generalize (seq 0 hosts). induction l as [|h l IH]; [done|exact IH].
  - transitivity (sum_list ((fun h => length (filter (fun e : Z * Z => host_of v2PM e.1 = Some (Z.of_nat h)) es)) <$> seq 0 hosts) + 1)%nat; [|cbn [length]; lia].
    pose proof (Z.mod_pos_bound e.1 (Z.of_nat (length v2PM)) ltac:(lia)).
    destruct (lookup_lt_is_Some_2 v2PM (Z.to_nat (e.1 mod Z.of_nat (length v2PM))) ltac:(lia)) as [h0 L].
    rewrite Forall_forall in Hm. pose proof (Hm h0 (list_elem_of_lookup_2 _ _ _ L)). assert (Ho : host_of v2PM e.1 = Some (Z.of_nat (Z.to_nat h0))) by (unfold host_of; rewrite L; f_equal; lia).
    assert (K : forall l, NoDup l -> sum_list ((fun h => length (filter (fun e : Z * Z => host_of v2PM e.1 = Some (Z.of_nat h)) (e :: es))) <$> l) =
      (sum_list ((fun h => length (filter (fun e : Z * Z => host_of v2PM e.1 = Some (Z.of_nat h)) es)) <$> l) + if decide (Z.to_nat h0 ∈ l) then 1 else 0)%nat).
    { clear - Ho. induction 1 as [|h l Nh _ IH]; [rewrite decide_False by (by intros ?%elem_of_nil); done|]. rewrite !fmap_cons. change (sum_list (?x :: ?r)) with (x + sum_list r)%nat. rewrite filter_cons, Ho.
      assert (Z.to_nat h0 ∈ h :: l <-> Z.to_nat h0 = h \/ Z.to_nat h0 ∈ l) as M' by apply elem_of_cons.
      destruct (decide (Some (Z.of_nat (Z.to_nat h0)) = Some (Z.of_nat h))) as [D|D]; cbn [length].
      - injection D as D. assert (Z.to_nat h0 = h) as D' by lia. rewrite IH, decide_False by (by rewrite D'). rewrite decide_True by tauto. lia.
      - assert (Z.to_nat h0 <> h) by congruence. rewrite IH. destruct (decide (Z.to_nat h0 ∈ l)); [rewrite decide_True by tauto|rewrite decide_False by tauto]; lia. }
    rewrite K by apply NoDup_seq. rewrite decide_True; [done|]. apply elem_of_seq. lia.
Qed.
(** The hosts that can be out of memory for their tables. *)
Lemma host_submseteq v2PM N pHV vs : (0 < length v2PM)%nat -> Forall (fun h => 0 <= h < Z.of_nat hosts) v2PM ->
  Forall2 (owns v2PM N) (seq 0 hosts) pHV -> vs ∈ pHV -> vs ⊆+ Z.of_nat <$> seq 0 N.
Proof.
  intros Hn Hm Own Hvs. rewrite <- (owned_all v2PM N Hn hosts pHV Hm Own). destruct (list_elem_of_split _ _ Hvs) as (l1 & l2 & ->).
  rewrite concat_app. cbn [concat]. by apply submseteq_inserts_l, submseteq_inserts_r.
Qed.

(** What every host answers about every vertex of the graph of the file. *)
Definition answers_file (h : @Heap V E) (d : Dist) (N : nat) (edges : list (Z * Z)) : Prop :=
  exists parts : list part, forall (here t : nat), (here < hosts)%nat -> (t < N)%nat -> exists i k l,
    vertex_answers szV szE hash h d parts (Z.of_nat here) i k (Z.of_nat t) (VertexData (Z.of_nat t)) ((fun e => (e.2, EdgeData e)) <$> l) /\
    l ≡ₚ from src (Z.of_nat t) edges /\ StronglySorted (fun a b => less_edge b a = false) l.

(** From the edges the threads have loaded. *)
Lemma graph_answers_file v2PM N (edges es : list (Z * Z)) pHV h d csrs : (0 < length v2PM)%nat ->
  Forall (fun h => 0 <= h < Z.of_nat hosts) v2PM -> sorts sort_edges -> es ≡ₚ edges -> Forall2 (owns v2PM N) (seq 0 hosts) pHV ->
  dgraph szV szE hash hosts h d (graph_parts sort_edges VertexData EdgeData es pHV) csrs v2PM -> answers_file h d N edges.
Proof.
  intros Hn Hm Hs P Own DG. exists (graph_parts sort_edges VertexData EdgeData es pHV). intros here t Hh Ht.
  destruct (vertex_known hosts N v2PM Hn Hm pHV Own (Z.of_nat t) ltac:(lia)) as (i & vs & k & Li & Lk).
  exists i, k, (edges_from sort_edges es (Z.of_nat t)). split.
  - eapply (dist_graph_answers szV szE hash HV HE hosts h d _ csrs v2PM here DG Hh).
    + unfold graph_parts. by rewrite list_lookup_fmap, Li.
    + done.
    + cbn [p_data part_of_host]. by rewrite list_lookup_fmap, Lk.
    + cbn [p_out part_of_host]. by rewrite list_lookup_fmap, Lk.
  - destruct (Hs less_edge (from src (Z.of_nat t) es) less_edge_weak) as [Ps Ss]. split; [|exact Ss].
    unfold edges_from. rewrite Ps. unfold from. by rewrite P.
Qed.
(** The part after loading: the vertices of the hosts, the distribution of the edges and the graph. *)
Lemma build_from_edges fuel n N (ess : list (list (Z * Z))) h graph v2PM edges : HashTable.bounded (me_ok M) -> sorts sort_edges ->
  generous M hosts threads n -> complete O hosts threads -> allocates szV szE (me_answer M) -> GatherCSR.local_memory (me_answer M) hosts ->
  (0 < hosts)%nat -> Z.of_nat hosts < 2 ^ 62 -> (0 < n)%nat -> Z.of_nat n < 2 ^ 62 -> (N < fuel)%nat -> Z.of_nat N < 2 ^ 59 ->
  length ess = threads -> (0 < threads)%nat -> concat ess ≡ₚ edges -> Z.of_nat (length edges) < 2 ^ 59 ->
  Forall (fun e => 0 <= e.1 < Z.of_nat N /\ 0 <= e.2 < Z.of_nat N) edges ->
  length v2PM = n -> Forall (fun h => 0 <= h < Z.of_nat hosts) v2PM ->
  let numEdges := (fun h => Z.of_nat (length (filter (fun e : Z * Z => host_of v2PM e.1 = Some (Z.of_nat h)) (concat ess)))) <$> seq 0 hosts in
  let r := (let* pHV := each_makes (generateVerticesPerHost fuel (me_reserved M) (me_pushed M) v2PM (Z.of_nat N)) (seq 0 hosts) in
    let* (partEdges, renamePerHost) := partitionEdgesParallely (fun v : Z => v) fst hash (me_ok M) (me_pushed M) (me_appended M) hosts (me_vectors M)
      (or_sums O) (fun i => me_grants M (6 + i)) (me_granted M) (me_counts M) (me_sums M) pHV v2PM (groups src <$> ess)
      (or_renames O) (or_sorts O) (or_pastes O) (or_merges O) in
    let partEdges := sort_lists sort_edges partEdges in
    let* (_, h, graph) := Some (GatherCSR.initializeAfterGather szV szE (me_garbage M) (me_garbageV M) (me_garbageE M) hash (me_ok M) (me_answer M) hosts
      (fun v : Z => v) VertexData snd EdgeData (me_storage M) (me_group M) (me_row_ok M) (me_row M) h graph pHV (Z.of_nat N) partEdges renamePerHost numEdges
      (replicate hosts v2PM) (or_creates O) (or_caches O) (or_fills O)) in
    Some (Done (h, graph))) in
  (exists h' d, r = Some (Done (h', d)) /\ size d = Z.of_nat N /\ sizeEdges d = u64 (sizeEdges graph + Z.of_nat (length edges)) /\ answers_file h' d N edges) \/
  r = Some (Failed (Aborted "PANDO_CHECK")) /\ el_refused N edges.
Proof.
  intros Hok Hs [[G1 [G2 G3]] [G4 [G5 G6]] G7 [G8 G8'] [G9 G9'] [G10 [G11 G12]]] [_ C2 [C3 C3'] [C4 C4'] [C5 [C5' C5'']]] Hal Hlo H0 Hhb Hn0 Hnb Hf HN Lt Ht Pe He Hes Lv Hm numEdges r.
  assert (Hn : (0 < length v2PM)%nat) by lia. assert (Le : length (concat ess) = length edges) by by rewrite Pe.
  destruct (each_makes_spec (generateVerticesPerHost fuel (me_reserved M) (me_pushed M) v2PM (Z.of_nat N)) (fun h vs => owns v2PM N h vs) (seq 0 hosts)) as (pHV & Ev & Own).
  { intros i _. apply (generateVerticesPerHost_spec fuel (me_reserved M) (me_pushed M) G2 G1 v2PM N Hn); lia. }
  subst r. rewrite Ev. cbn [bindr].
  pose proof (Forall2_length _ _ _ Own) as Lo. rewrite length_seq in Lo.
  assert (Hes' : Forall (fun e : Z * Z => 0 <= e.1 < Z.of_nat N /\ 0 <= e.2 < Z.of_nat N) (concat ess)) by by rewrite Pe.
  assert (He' : Z.of_nat (length (concat ess)) < 2 ^ 59) by lia.
  assert (At : forall i vs, pHV !! i = Some vs -> (i < hosts)%nat /\ owns v2PM N i vs) by apply (own_at hosts N v2PM pHV Own).
  assert (Sub : forall vs, vs ∈ pHV -> vs ⊆+ Z.of_nat <$> seq 0 N) by (intros vs; by apply (host_submseteq v2PM N pHV vs)).
  destruct (partition_edges_result (fun v : Z => v) src hash (me_ok M) (me_pushed M) (me_appended M) hosts (me_vectors M) (or_sums O)
    (fun i => me_grants M (6 + i)) (me_granted M) (me_counts M) (me_sums M) pHV v2PM ess (or_renames O) (or_sorts O) (or_pastes O) (or_merges O))
    as [(partEdges & tables & W & _ & _ & PE)|[W (vs & Hvs & R)]]; try (done || lia || by rewrite Lt).
  - intros En. rewrite En in Hn. cbn in Hn. lia.
  - intros vs Hvs. rewrite list_fmap_id. apply list_elem_of_lookup in Hvs as [i Hi]. destruct (At i vs Hi) as (_ & Nd & _). split; [done|].
    pose proof (submseteq_length _ _ (Sub vs ltac:(by eapply list_elem_of_lookup_2))) as Lx. rewrite length_fmap, length_seq in Lx. lia.
  - intros e i Hi Ho. rewrite Forall_forall in Hes'. destruct (lookup_lt_is_Some_2 pHV i) as [vs L].
    { rewrite <- Lo. unfold host_of in Ho. destruct (v2PM !! _) eqn:L; [|done]. injection Ho as ->. rewrite Forall_forall in Hm.
      pose proof (Hm _ (list_elem_of_lookup_2 _ _ _ L)). lia. }
    exists vs. split; [done|]. rewrite list_fmap_id. destruct (At i vs L) as (_ & _ & Mv). apply Mv. split; [by apply Hes'|done].
  - intros i vs v L Iv. destruct (At i vs L) as (_ & _ & Mv). by apply Mv in Iv as [_ Iv].
  - unfold ELEdge in *. rewrite W. cbn [bindr].
    assert (Gd := graph_gathered hash sort_edges Hs VertexData EdgeData hosts N v2PM (concat ess) (conj H0 Hhb) Hn Hm HN He' Hes' pHV Own partEdges tables PE).
    destruct (graph_unique sort_edges VertexData EdgeData hosts N v2PM (concat ess) Hn Hm pHV Own) as [Un Ln].
    pose proof (GatherCSR.gather_result szV szE HV HE (me_garbage M) (me_garbageV M) (me_garbageE M) hash (me_ok M) Hok (me_answer M) hosts (fun v : Z => v) VertexData snd EdgeData
      (me_storage M) (me_group M) (me_row_ok M) (me_row M) Hal Hlo G12 h graph pHV (sort_lists sort_edges partEdges) tables _ v2PM _
      (or_creates O) (or_caches O) (or_fills O) Gd C5 C5' C5'') as Gr. cbv zeta in Gr. rewrite Ln in Gr. rewrite <- list_fmap_compose in Gr.
    match type of Gr with context [Z.of_nat ∘ ?f <$> seq 0 hosts] => change (Z.of_nat ∘ f <$> seq 0 hosts) with numEdges in Gr end.
    destruct Gr as [(h' & d & -> & Ne & csrs & CG)|[(s & d & _ & Bad & [->| ->])|[-> O']]]; [|by destruct Bad|by destruct Bad|].
    + left. exists h', d. split; [done|]. split; [rewrite <- Ln; exact (proj1 (g_size _ _ _ _ _ _ _ _ _ CG))|]. split.
      * change (sizeEdges d = u64 (sizeEdges graph + Z.of_nat (length edges))). rewrite <- Le, <- (sum_hosts_edges v2PM (concat ess) Hn Hm). exact Ne.
      * eapply (graph_answers_file v2PM N edges (concat ess) pHV h' d csrs); try done.
    + right. split; [done|]. right. right. exists pHV. eexists. split; [apply (owned_all v2PM N Hn hosts pHV Hm Own)|]. split; [|exact O'].
      etransitivity; [apply (sum_hosts_edges v2PM (concat ess) Hn Hm)|exact Le].
  - unfold ELEdge in *. rewrite W. cbn [bindr]. right. split; [done|]. right. left. exists vs. split; [by apply Sub|]. rewrite list_fmap_id in R. exact R.
Qed.
(** C18: [initializeELDLCSR] makes the distributed graph of an edge-list file.  Let the file end with a newline, hold no zero byte and two numbers on every line that
    is no comment; let there be more threads than hosts, and at least as many bytes as the threads that load, which are the threads less the hosts; let there be
    fewer than 2^59 vertices and edges; let all vectors be granted memory ([generous]; the hash tables and the arrays of the graph need not be), and let the
    workers of the prefix sums run to the end ([complete], for two workers and more threads than workers).  Then, whatever the numbers of threads, hosts
    and virtual hosts and the orders of the tasks: every vertex below the given number is found from every host, with its data, and its edges are the edges
    the file has for it, sorted, each to the vertex of its destination; the graph has that number of vertices, and its number of edges is the number of known edges
    of the file added to what the uninitialised object held.  Or memory was refused somewhere, and the program stopped. *)
Theorem el_graph filename f fuel N (scale : nat) h graph :
  text_file (fs_pread F) (fs_open F) (fs_fstat F) filename f -> (forall n, fs_room F n = Success) -> (forall n, n <= Z.of_nat (length f) -> fs_new F n = true) ->
  ends_line f -> Forall (fun c => c <> 0) f -> (hosts < threads)%nat -> (threads - hosts <= length f)%nat -> (length f < fuel)%nat ->
  Forall (fun l => is_done (line_edge l) = true) (filter (fun l => content l = true) (lines f)) -> (N < fuel)%nat -> Z.of_nat N < 2 ^ 59 ->
  let edges := edges_of (Z.of_nat N) (filter (fun l => content l = true) (lines f)) in Z.of_nat (length edges) < 2 ^ 59 ->
  (0 < hosts)%nat -> Z.of_nat threads < 2 ^ 62 -> (0 < scale)%nat -> Z.of_nat (hosts * scale) < 2 ^ 62 ->
  HashTable.bounded (me_ok M) -> sorts sort_pairs -> sorts sort_edges -> generous M hosts threads (hosts * scale) -> complete O hosts threads ->
  allocates szV szE (me_answer M) -> GatherCSR.local_memory (me_answer M) hosts ->
  let r := initializeELDLCSR szV szE F M O hash sort_pairs sort_edges VertexData EdgeData hosts threads fuel filename (Z.of_nat N) (Z.of_nat scale) h graph in
  (exists h' d, r = Some (Done (h', d)) /\ size d = Z.of_nat N /\ sizeEdges d = u64 (sizeEdges graph + Z.of_nat (length edges)) /\ answers_file h' d N edges) \/
  r = Some (Failed (Aborted "PANDO_CHECK")) /\ el_refused N edges.
Proof.
  intros Hfile Hroom Hnew Hend Hz Hth Hnt Hfuel Hlines HNf HN edges He H0 Htb Hs0 Hsb Hok Hsp Hse Gn Co Hal Hlo r.
  subst r. unfold initializeELDLCSR. pose proof (gr_grants _ _ _ _ Gn) as [Gg _]. rewrite !PANDO_CHECK_ok by apply Gg. cbn [bindr].
  rewrite wrapU_id by (unfold inU; lia). rewrite wrapU_id by (unfold inU; lia).
  replace (Z.of_nat threads - Z.of_nat hosts) with (Z.of_nat (threads - hosts)) by lia. rewrite <- Nat2Z.inj_mul.
  destruct (load_all_spec F M hash filename f fuel (threads - hosts) N) as [[-> R]|(ess & -> & Le & Pe)]; try (done || lia).
  { cbn [bindr]. right. split; [done|]. by left. }
  cbn [bindr]. unfold ELEdge in *. rewrite length_fmap, Le. set (ess' := ess ++ replicate (threads - (threads - hosts)) []).
  assert (Lx : length ess' = threads) by (unfold ess'; rewrite length_app, length_replicate; lia).
  assert (Ce : concat ess' = concat ess). { unfold ess'. rewrite concat_app. clear. induction (threads - (threads - hosts))%nat as [|k IH]; [by rewrite app_nil_r|exact IH]. }
  replace ((groups src <$> ess) ++ replicate (threads - (threads - hosts)) []) with (groups src <$> ess') by (unfold ess'; by rewrite fmap_app, fmap_replicate).
  assert (Er : Forall (fun e : Z * Z => 0 <= e.1 < Z.of_nat N /\ 0 <= e.2 < Z.of_nat N) edges) by apply edges_range.
  assert (Pe' : concat ess' ≡ₚ edges) by (rewrite Ce; exact Pe).
  assert (Ll : length (concat ess') = length edges) by (by rewrite Pe').
  assert (Lb : Z.of_nat (length (concat ess')) < 2 ^ 64) by lia.
  destruct (make_map_spec M O sort_pairs hosts threads (hosts * scale) ess' Gn Co Hsp H0 ltac:(lia) Lb) as (v2PM & -> & Lv & Hm).
  cbn [bindr]. apply (build_from_edges fuel (hosts * scale) N ess' h graph v2PM edges); (done || lia).
Qed.
End Whole.

(** ** An example: three vertices, two hosts, four threads *)

Section Example.
(** The lines 0 1, 2 0, 1 2 and 0 2. *)
Definition ex_file : list Z := [48; 32; 49; newline; 50; 32; 48; newline; 49; 32; 50; newline; 48; 32; 50; newline].
Definition ex_files : Files := mkFiles (file_pread ex_file) (fun _ => 5) (fun _ => Some 16) (fun _ => Success) (fun _ => true).
Definition ex_memory : Memory Z Z :=
  mkMemory _ _ GatherCSR.ex_ok (fun _ => Success) (fun _ => Success) Success (fun _ => Success) (fun _ _ => Success) (fun _ => Success) (fun _ _ => Success)
    (fun _ => Success) [7; 7; 7; 7] [[9; 9; 9; 9]; [9; 9; 9; 9]] [[8; 8; 8; 8]; [8; 8; 8; 8]] (fun _ _ => []) (fun p => p) (fun p => p) (fun p => p)
    GatherCSR.node_memory Success Success (fun _ => true) (fun _ => [LCSR0; LCSR0]).
Definition ex_sums : list Z -> list Z -> Z -> option (outcome (list Z)) := computePrefixSum 2 1 [1; 1] [0; 0] (concat (repeat [0; 1] 14)).
Definition ex_orders : Orders := mkOrders (fun l => l) ex_sums [1; 0]%nat [2; 0; 3; 1]%nat [0; 1; 2; 3]%nat [0; 1]%nat [1; 0]%nat [0; 1]%nat [1; 0]%nat.
Definition ex_run := initializeELDLCSR 8 8 ex_files ex_memory ex_orders GatherCSR.ex_hash insertion_sort insertion_sort (fun t => t + 70)
  (fun e => 10 * e.1 + e.2) 2 4 30 [120; 0] 3 2 (mkHeap ∅ ∅ ∅ ∅ ∅) (mkDist [] 0 0 []).

Lemma ex_run_done : match ex_run with Some (Done (_, d)) => size d = 3 /\ sizeEdges d = 4 | _ => False end.
Proof. vm_compute. split; reflexivity. Qed.

Lemma ex_generous : generous ex_memory 2 4 4.
Proof. constructor; try done; split_and!; try done; repeat constructor. Qed.

Lemma ex_sums_counts : sums_counts 4 ex_sums.
Proof.
  apply (computePrefixSum_counts 2 1 [1; 1] [0; 0] (concat (repeat [0; 1] 14)) 4 2); [vm_compute; reflexivity|lia|lia|cbn; lia|cbn; lia| |].
  - repeat constructor; lia.
  - intros [|a [|b [|c [|e [|? ?]]]]] [|a' [|b' [|c' [|e' [|? ?]]]]] La Lo; try discriminate La; try discriminate Lo. discriminate.
Qed.

Lemma ex_complete : complete ex_orders 2 4.
Proof.
  assert (P2 : [1; 0]%nat ≡ₚ seq 0 2) by (cbn; apply Permutation_swap).
  constructor; [done|exact ex_sums_counts|by split|split; [|done]|by split_and!].
  cbn. apply NoDup_Permutation; [repeat constructor; set_solver|repeat constructor; set_solver|set_solver].
Qed.

Lemma el_graph_witness : exists h d, ex_run = Some (Done (h, d)) /\ size d = 3 /\ exists parts i k l,
  vertex_answers 8 8 GatherCSR.ex_hash h d parts 1 i k 0 70 ((fun e => (e.2, 10 * e.1 + e.2)) <$> l) /\ l ≡ₚ [(0, 1); (0, 2)].
Proof.
  destruct (el_graph 8 8 ltac:(lia) ltac:(lia) ex_files ex_memory ex_orders GatherCSR.ex_hash insertion_sort insertion_sort (fun t => t + 70)
    (fun e => 10 * e.1 + e.2) 2 4 [120; 0] ex_file 30 3 2 (mkHeap ∅ ∅ ∅ ∅ ∅) (mkDist [] 0 0 [])) as [(h & d & W & Sz & _ & parts & A)|[W _]].
  - constructor; [done|cbn; lia|apply file_pread_serves|done|cbn; lia].
  - done.
  - done.
  - right. exists (removelast ex_file). reflexivity.
  - repeat constructor; done.
  - lia.
  - cbn. lia.
  - cbn. lia.
  - apply List.Forall_forall, (forallb_forall (fun l => is_done (line_edge l))). vm_compute. reflexivity.
  - lia.
  - lia.
  - vm_compute. reflexivity.
  - lia.
  - lia.
  - lia.
  - lia.
  - exact GatherCSR.ex_bounded.
  - apply insertion_sort_sorts.
  - apply insertion_sort_sorts.
  - exact ex_generous.
  - exact ex_complete.
  - exact GatherCSR.node_memory_allocates.
  - apply GatherCSR.node_memory_local. cbn. lia.
  - exists h, d. split; [exact W|]. split; [exact Sz|]. destruct (A 1%nat 0%nat ltac:(lia) ltac:(lia)) as (i & k & l & V & P & _).
    exists parts, i, k, l. split; [exact V|]. rewrite P. vm_compute. reflexivity.
  - exfalso. pose proof ex_run_done as S. assert (ex_run = Some (Failed (Aborted "PANDO_CHECK"))) as Q by exact W. rewrite Q in S. exact S.
Defined.

End Example.
End ELGraph.
